(* ===== verification/_CoqProject ===== *)
-Q . S2P
Prelude.v
Stateful.v
Contracts.v
Diagnostics.v
Addressing.v
Sha256.v
RandomStream.v
RandomStreamSpec.v
ResourceTypes.v
ResourceModel.v
ResourcePolicy.v
ResourceLedger.v
ResourceReservation.v
ResourceAccounting.v
ResourceFacts.v
ResourceInvariant.v
ResourceSteps.v
ResourceSettle.v
ResourceRun.v
ResourceSpec.v
ResourcePolicySpec.v
ResourceAdmission.v
ResourceAdmissionSpec.v
DepGraph.v
DepGraphFacts.v
ReconcileFacts.v
DepGraphSpec.v
DepCycles.v
DepCyclesSpec.v
ExploitModel.v
ExploitSearch.v
ExploitAnalysis.v
ExploitFacts.v
ExploitOutcome.v
ExploitSpec.v
TimeModel.v
TimeCompiled.v
TimeCoordinator.v
TimeFacts.v
TimeRun.v
TimeSpec.v
ParticipantActivity.v
ActivityState.v
ActivityFacts.v
ActivityDue.v
ActivitySpec.v
Variation.v
VariationSpec.v
TrialPlan.v
TrialSelection.v
TrialFacts.v
TrialSpec.v
TrialEntries.v
TrialEntriesSpec.v
BehavioralModel.v
OpacityModel.v
OpacityCheck.v
OpacityAnalysis.v
OpacityFacts.v
OpacityEvidence.v
OpacityVerdict.v
OpacityRun.v
OpacityAnalysisRun.v
OpacityFixture.v
OpacitySpec.v
OpacityAnalysisSpec.v
OperationModel.v
OperationFacts.v
SnapshotModel.v
StoreModel.v
StoreFacts.v
StoreRun.v
ControlPlane.v
ControlPlaneFacts.v
StoreSpec.v
ControlPlaneSpec.v
MutationAuthority.v
MutationFacts.v
MutationSpec.v
Lifecycle.v
