(* ===== verification/Prelude.v ===== *)
(** * RAES: the governed run-time core

    RAES describes cyber-range scenarios in an SDL, compiles them to plans, and
    runs the plans on backends under a control plane. This development models
    the parts of its Python implementation
    ([src/implementations/python/packages/], written P/ below) in which the
    program decides something: the order in which planned resources are
    applied, the budgets participants may spend, the clocks a run shares,
    whether an attack graph has a path, when an autonomous participant acts and
    which action it takes, which values a scenario family admits at its points of
    variation and which of them each trial of an experiment selects, and how an
    operation is admitted, run, recorded and
    retried. It models them function by function
    and proves what each part promises to its callers.

    ** How the parts interact

    The planner ([raes_processor]) normalises dependency graphs over compiled
    addresses ([Addressing]) and orders and reconciles resources ([DepGraph]).
    The resulting plans carry participant policies, which a backend admits
    ([ResourceAdmission]) before the control plane initializes budgets and
    drives the ledger ([ResourceLedger], [ResourceReservation],
    [ResourceAccounting]); they also carry a time model ([TimeModel],
    [TimeCompiled]) that a coordinator realizes ([TimeCoordinator]). The
    exploit-path analysis ([ExploitModel], [ExploitSearch],
    [ExploitAnalysis]) is a processor service of its own, and so are the two
    checkers of participant opacity ([OpacityCheck], [OpacityAnalysis]), which
    admit a model against a parameter profile and a behavioral claim
    ([BehavioralModel]) and share one information-cell kernel. The scheduler of
    autonomous participants draws the timing and the choice of their actions
    from controlled random streams ([RandomStream]) inside the windows of the
    time model ([ParticipantActivity]) and keeps their state ([ActivityState]).
    From the same streams the trial compiler draws sampled selections: it lays
    out the coordinates of an experiment ([TrialPlan]), selects an admitted
    outcome ([Variation]) for every variation point of every coordinate
    ([TrialSelection]) and compiles each coordinate to an entry
    ([TrialEntries]).
    Above them stands the
    control plane: every operation becomes a record with a lifecycle
    ([OperationModel]) in a store ([StoreModel]) that also holds the run-time
    snapshot under a revision ([SnapshotModel]); [ControlPlane] claims, executes
    and commits operations against the store *interface* (the class
    [ControlPlaneStore], whose laws [AuthoritativeStore] the in-memory store
    discharges) while it holds the mutation permit ([MutationAuthority]) inside
    an admitted call of the runtime ([Lifecycle]). All parts report
    through one diagnostic contract ([Diagnostics]) and validate their carriers
    with the closed-model conventions of [Contracts].

    ** Files

    - [Prelude] (this file): Python exceptions as values ([result]), its
      loops, the ASCII/decimal string helpers, the tactics [inv_result] and
      friends, and the list and map lemmas the components share.
    - [Contracts]: the field constraints of closed pydantic models
      (P/raes_contracts/_base.py) and the
      [checks] lemmas that decide a validator.
    - [Diagnostics]: P/raes_contracts/diagnostics.py.
    - [Addressing]: P/raes_contracts/addressing.py.
    - [Sha256]: the digest function of the standard library
      ([hashlib.sha256]) on 32-bit words, as the code uses it, and the shape of
      its hexadecimal output.
    - [RandomStream] (P/raes_contracts/random_stream_engine.py and
      [contracts/random_stream.py]), lemmas and theorems in
      [RandomStreamSpec].
    - [ResourceTypes], [ResourceModel], [ResourcePolicy]: the budget carriers
      and their validators
      (P/raes_contracts/contracts/participant_resource_types.py,
      [..._budgets.py], [..._validation.py]).
    - [ResourceLedger], [ResourceReservation], [ResourceAccounting]: the
      runtime ledger (P/raes_runtime/participant_resource_budgets.py,
      [..._pool_ledger.py], [..._reservation.py], [..._accounting.py]) over the
      budget carriers of a snapshot ([Snapshot], the resource part of
      [RuntimeSnapshot] in P/raes_contracts/runtime_state.py). [ResourceFacts],
      [ResourceInvariant], [ResourceSteps], [ResourceSettle] and [ResourceRun]
      hold the invariant and its lemmas; [ResourceSpec] and
      [ResourcePolicySpec] the theorems.
    - [ResourceAdmission], [ResourceAdmissionSpec]:
      P/raes_backend_protocols/participant_resource_admission.py.
    - [DepGraph], [DepGraphFacts], [ReconcileFacts], [DepGraphSpec]:
      P/raes_processor/semantics/planner.py, whose cycle report is in
      [DepCycles] and [DepCyclesSpec].
    - [ExploitModel] (P/raes_contracts/exploit_path.py), [ExploitSearch] and
      [ExploitAnalysis] (P/raes_processor/exploit_path/), with their lemmas in
      [ExploitFacts], [ExploitOutcome],
      and theorems in [ExploitSpec].
    - [TimeModel] (P/raes_contracts/contracts/time_model.py), [TimeCompiled]
      (P/raes_processor/models/time_model.py and
      P/raes_processor/compiler/time_model.py), [TimeCoordinator]
      (P/raes_runtime/time_coordinator.py), with their lemmas in [TimeFacts],
      [TimeRun] and theorems in
      [TimeSpec].
    - [BehavioralModel] (P/raes_contracts/contracts/base.py,
      [..behavioral_relation_profiles.py], [..behavioral_relations.py]),
      [OpacityModel] (P/raes_contracts/_participant_opacity_model.py,
      [..._model_check.py], [participant_opacity.py]), [OpacityCheck]
      (P/raes_processor/participant_opacity/_kernel.py,
      [_model_check_admission.py], [_model_check.py]) and [OpacityAnalysis]
      (the same directory's [_service.py]); lemmas in [OpacityFacts],
      [OpacityEvidence], [OpacityVerdict], [OpacityRun],
      [OpacityAnalysisRun], concrete models in
      [OpacityFixture], theorems in [OpacitySpec] and [OpacityAnalysisSpec].
    - [ParticipantActivity] (P/raes_runtime/participant_activity.py and
      [..._support.py]) and [ActivityState] (the execution state of
      P/raes_contracts/contracts/participant_runtime.py and
      P/raes_runtime/participant_scheduler_activity_state.py,
      [..._initialization.py], [..._operations.py], [..._reset.py]); lemmas in
      [ActivityFacts] and [ActivityDue], theorems in [ActivitySpec].
    - [Variation] (P/raes/variation.py and the outcomes of
      P/raes_contracts/contracts/experiment_selection.py): variation domains,
      their constraints and the admission of outcomes; lemmas and theorems in
      [VariationSpec].
    - [TrialPlan] (P/raes_contracts/contracts/trial_coordinate_order.py,
      [..experiment_selection.py], P/raes_processor/trial_compiler/inputs.py and
      [profiles.py]), [TrialSelection] (the same directory's [domains.py] and
      [policies.py], with the family admission of
      P/raes/experiment_selection.py), lemmas in [TrialFacts], theorems
      in [TrialSpec]; [TrialEntries] (that directory's [compiler.py]), lemmas and
      theorems in [TrialEntriesSpec].
    - [Stateful]: the state-and-exception monad of the control plane, in which
      a raise keeps the state reached so far, with the hints [atomic], [reads]
      and [total] for the shapes of its computations.
    - [OperationModel] (P/raes_contracts/operation_lifecycle.py and the
      receipts and statuses of [runtime_state.py]), [SnapshotModel]
      (P/raes_contracts/participant_autonomous_state.py,
      P/raes_runtime/control_plane_store_history.py), [StoreModel]
      (P/raes_runtime/control_plane_store.py, [..._revision.py] and
      [..._memory.py]); lemmas in [OperationFacts], [StoreFacts], [StoreRun],
      theorems in [StoreSpec].
    - [ControlPlane] (P/raes_runtime/control_plane_durability.py,
      [..._admission.py], [..._execution.py]); lemmas in [ControlPlaneFacts] and
      theorems in [ControlPlaneSpec].
    - [MutationAuthority] (P/raes_runtime/control_plane_mutation.py), with
      [MutationFacts] and [MutationSpec]; [Lifecycle]
      (P/raes_runtime/control_plane_lifecycle.py).

    ** What the theorems show

    - Graphs: the topological order is a permutation of the nodes on every
      graph and respects every dependency on an acyclic one; delete order is
      its mirror; the cycle report lists exactly the strongly connected
      components on a cycle; impact is exactly reachability; reconciliation
      assigns exactly the documented action to every address.
    - Random streams: a draw is in its range, is computed from the first chunk
      below the greatest fitting multiple of the width, and is exhausted exactly
      when all chunks are rejected; every value is drawn by equally many chunks;
      batches collide as a whole and do not depend on the order of requests.
    - Budgets: over any sequence of ledger operations that keeps the callers'
      protocol ([ledger_step]: an operation is settled once, while it is open, and
      measured within its reservations) no pool exceeds its capacity and logical
      and physical accounts agree; a reservation moves the whole vector or nothing
      and is idempotent, and raises only on amounts out of range; each operation's outcome is
      given on every branch; policy validation and backend admission are
      equivalent to declarative specifications, and what is admitted
      initializes.
    - Exploit paths: analysis always returns evidence; a valid path is a
      replayable shortest one; an invalid outcome excludes every bounded path; an
      admitted request is unsupported only when the graph really exceeds a bound;
      preflight admits exactly the well-bound requests.
    - Time: over any run the published state validates, is bound to its
      declaration and reads back; clocks are monotone; each lifecycle
      operation is permitted exactly as declared; tick conversion is exact
      floor or ceiling arithmetic over mapping chains; a coordinated reset is
      published as a whole or not at all.
    - Opacity: the model checker terminates and decides whether a participant
      can know a secret at some reachable evaluation point, on models whose
      initial ordinals are not negative; coverage counts
      exactly the reachable part, a counterexample comes with a shortest run;
      errors are typed, but for a profile without bounds; a negative initial
      ordinal makes the verdict wrong; the bounded analysis decides the same
      question of the points it is given, in any order, and agrees with the
      model checker where both support their input.
    - Participant activity: the next occurrence is the drawn candidate or the
      least step of the clock at which the participant works; exactly the ready
      actions are weighed, each by its weight; a pass over a due participant
      terminates, keeps the stored state valid and the other states unchanged,
      and leaves the participant no longer due.
    - Variation: the constraints of an order point are accepted exactly when some
      order of its members satisfies them, unless the search budget is named; an
      outcome is admitted exactly when its point offers it, except that integers
      are compared with an interval as floats: between floats the answer is that of
      the float, and beyond them an [OverflowError] escapes.
    - Trials: the coordinates are one per condition and run, in the strict order
      of the keys they decode to; the static rows of a policy are exactly the
      combinations it stands for, each once; an admitted plan selects every
      variation point of every coordinate once, by a policy that offers the
      outcome there; the entries are those of the coordinates whatever
      traversal is requested, and so is the failure raised.
    - Operations: a status is built exactly when its diagnostics are canonical
      for its state; over every run of the store, operations move along legal
      transitions only, keep their identity and are frozen once terminal,
      revisions name one snapshot each, a key is claimed once, and a terminal
      commit returns on exactly the named conditions, publishes record, key, audit
      and cut together or nothing, and may be retried.
    - Control plane: whatever a store does, a commit leaves caches that agree
      with it or a runtime that refuses to go on; a keyed request runs the
      backend once, and every later submission touches nothing and gets the first
      receipt, unless its retry proof is not remembered or the control plane is
      closed or poisoned, which refuse it.
    - Concurrency: over every interleaving of threads and tasks the permit has
      one holder, waiters are served in order and none is lost, and closing
      drains the admitted calls and then refuses every other.

    ** Conventions

    A Python call that may raise returns [result]; exceptions keep their class
    and message. pydantic's [ValidationError] is a subclass of [ValueError] and
    is modelled as one that names the refused field, so *which* field is
    reported is modelled and pydantic's rendering of it is not. Model instances
    nested in a model are not validated again, as in pydantic's default
    configuration; a field whose annotation admits one value is not carried.
    Strings are sequences of code points below 256; a payload
    dict of known keys is the record of its values; integers are unbounded, as
    in Python, except in [Sha256], where words are 32 bits wide with their
    wrap-around written out. A dict whose order the code observes is an
    association list or carries its order; others are stdpp maps. A Python set is a
    duplicate-free list whose iteration order is a parameter where the code
    observes it. The parts of a snapshot that an operation copies unchanged are
    one opaque carrier ([snap_other], [ts_other]). The canonical JSON encoder of a third-party package
    ([rfc8785_dumps]), the BLAKE3 package (the class [RandomPackages], with its
    documented laws in [Blake3Laws]) and pydantic's dump ([model_json]) are parameters (the class
    [Canonical] gives their composition for the opacity carriers), and so
    is the [json.dumps] of a history event ([json_dumps]), whose items other
    than its identifier are opaque. What the clock and [uuid4] return are
    arguments. Snapshots compare as Python compares them, dicts without regard
    to order ([same_snapshot]). The backend of an execution is a class of
    calls that return a value and change a world of their own; its projection
    of faults to diagnostics belongs to a module that is not modelled. What binds,
    reserves, performs, settles and annotates a participant action is a class of
    calls ([ActivityActions]) that see the rest of the snapshot; only admitting
    an action may return other scheduler states, which the modelled check
    refuses. What an entry of a trial plan takes from other components (the
    selected scenario, its envelope, the unmet capture demands, the cleanup plan
    and the sealed entry) is the class [TrialParts]. The
    concurrent parts are step relations over their state: each step is one
    region that the code runs under its lock, and a blocked call is a step
    that is not enabled.

    ** Fuel

    Loops that are not structural run on fuel, and running out is the
    distinguished value [OutOfFuel], which the termination theorems exclude.
    Kahn's loop gets one unit per node, since each round emits a node; the
    impact loop one per node, since a node is queued once; the cycle search two
    per node, since an iteration enters a node for the first time or leaves one
    for good; the parent walk of
    budget policies one per demand and that of mapping domains one per domain
    and one more, since a longer walk repeats a node, which both report as a
    cycle; the breadth-first search one more than the maximal number of
    explored states it is allowed, after which the code itself stops. The fixed
    point of the opacity checker gets one unit per initial state and per
    transition, since a state enters the queue by one of them, and its walk back
    one per parent, since parents lead to shorter paths. The byte width of a
    draw gets the binary logarithm of the range, which its bytes outgrow. The
    search for the next opening gets one unit per pause window, since each jump
    leaves a pause behind, and the loop over a due participant one per attempt
    left and one more, since each round counts an attempt or fails the run. The
    search for an order gets one unit per member still to place, and the loop
    over a declared order one per member; the search for a cycle of product
    policies and the static rows below a policy get one per policy and one
    more, since no policy is below itself.

    ** Not modelled

    Python's recursion limit; memory exhaustion; the notes attached to
    exceptions that a commit raises again; the file-backed store and the process
    lease that guards it, whose guarantees are those of the file system and of
    SQLite; the admission of participant actions, controls and crossings, which
    build their transitions before they reach the modelled commits, and the
    concurrent batches of participant actions; the targets and relations of
    variation points and the family of scenarios they select from; the admission
    of a trial's apparatus, participants and input identities and the sealing of
    its plan; and the subsystems [PROJECT.json] lists as not
    modelled: the SDL front end and its validators, whose size dwarfs the
    rest and whose rules are mostly one-off reference checks; schema
    publication, fixtures and repository policy tools; the command line, MCP
    and HTTP surfaces; and the libvirt and reference backends, whose effects
    are those of external programs. *)
From stdpp Require Export base functions gmap strings list sorting.
From stdpp Require Import options.
From Stdlib Require Import Ascii.
#[global] Open Scope stdpp_scope.

(** * Python exceptions and fallible code *)

(** The exception classes the modelled code raises or lets escape. *)
Inductive exn : Type :=
| ValueError (message : string)
| TypeError (message : string)
| KeyError (key : string)
| AssertionError (message : string)
| IndexError (message : string)
| RuntimeError (message : string)
| AttributeError (message : string)
| OverflowError (message : string)
| SnapshotRevisionConflict (** a [ValueError] of the control-plane store *)
| ParticipantOpacityEvidenceError (message : string) (** a [ValueError] *)
| ParticipantOpacityOperationalError (message : string) (** a [RuntimeError] *)
| CompilationFailure (code address message : string) (** an [Exception] of the trial compiler *)
| StopIteration
| ZeroDivisionError
| OutOfFuel. (** not an exception: the bound on a modelled loop was too small *)

(** The outcome of Python code that may raise. *)
Inductive result (A : Type) : Type :=
| Ok (value : A)
| Raise (error : exn).
Arguments Ok {A} value.
Arguments Raise {A} error.

#[export] Instance result_ret : MRet result := @Ok.
#[export] Instance result_bind : MBind result := fun A B k m =>
  match m with
  | Ok a => k a
  | Raise e => Raise e
  end.

Definition is_ok {A} (m : result A) : bool :=
  match m with Ok _ => true | Raise _ => false end.

(** [raise_if c e] is the statement [if c: raise e]. *)
Definition raise_if (c : bool) (e : exn) : result unit :=
  if c then Raise e else Ok tt.

(** [for x in l: s = f(s, x)], stopping at the first exception. *)
Fixpoint mfold {A S} (f : S -> A -> result S) (s : S) (l : list A) : result S :=
  match l with
  | [] => Ok s
  | x :: l => s ← f s x; mfold f s l
  end.

(** A comprehension whose element expression may raise. *)
Fixpoint mmap {A B} (f : A -> result B) (l : list A) : result (list B) :=
  match l with
  | [] => Ok []
  | x :: l => y ← f x; ys ← mmap f l; Ok (y :: ys)
  end.

(** A loop that stops at the first outcome its body reports. *)
Fixpoint until_some {A S R} (f : S -> A -> result (S * option R)) (s : S) (l : list A) : result (S * option R) :=
  match l with
  | [] => Ok (s, None)
  | x :: l =>
      r ← f s x;
      match r.2 with
      | Some outcome => Ok (r.1, Some outcome)
      | None => until_some f r.1 l
      end
  end.

Lemma bind_Ok {A B} (m : result A) (k : A -> result B) b :
  (m ≫= k) = Ok b <-> exists a, m = Ok a /\ k a = Ok b.
Proof. destruct m; simpl; naive_solver. Qed.

Lemma raise_if_Ok c e u : raise_if c e = Ok u <-> c = false.
Proof. destruct c, u; simpl; naive_solver. Qed.

Lemma is_ok_exists {A} (m : result A) : is_ok m = true <-> exists a, m = Ok a.
Proof. destruct m; simpl; naive_solver. Qed.

Lemma mfold_app {A S} (f : S -> A -> result S) s l1 l2 :
  mfold f s (l1 ++ l2) = (s' ← mfold f s l1; mfold f s' l2).
Proof. revert s; induction l1 as [|x l1 IH]; intros s; simpl; [done|]. destruct (f s x); simpl; auto. Qed.

(** An invariant of every step is an invariant of the loop. *)
Lemma mfold_inv {A S} (I : S -> Prop) (f : S -> A -> result S) l s s' :
  (forall s x s', x ∈ l -> I s -> f s x = Ok s' -> I s') ->
  I s -> mfold f s l = Ok s' -> I s'.
Proof.
  revert s; induction l as [|x l IH]; intros s Hstep HI; simpl; [by intros [= <-]|].
  destruct (f s x) as [s1|] eqn:E; simpl; [|done].
  apply IH; [set_solver|]. eapply Hstep; [left|..]; eauto.
Qed.

(** Loop rule: an invariant indexed by the processed prefix, with the proof
    that no iteration raises. *)
Lemma mfold_prefix {A S} (P : list A -> S -> Prop) (f : S -> A -> result S) l s :
  (forall pre x suf s, l = pre ++ x :: suf -> P pre s -> exists s', f s x = Ok s' /\ P (pre ++ [x]) s') ->
  P [] s -> exists s', mfold f s l = Ok s' /\ P l s'.
Proof.
  intros Hstep. cut (forall suf pre s, l = pre ++ suf -> P pre s -> exists s', mfold f s suf = Ok s' /\ P l s').
  { intros H H0. by apply (H l []). }
  induction suf as [|x suf IH]; intros pre s' -> HP; simpl.
  - rewrite app_nil_r in *. eauto.
  - destruct (Hstep pre x suf s' eq_refl HP) as (s'' & -> & HP'); simpl.
    apply (IH (pre ++ [x])); [by rewrite <-app_assoc|done].
Qed.

Lemma foldl_prefix {A S} (P : list A -> S -> Prop) (f : S -> A -> S) l s :
  (forall pre x suf s, l = pre ++ x :: suf -> P pre s -> P (pre ++ [x]) (f s x)) ->
  P [] s -> P l (foldl f s l).
Proof.
  intros Hstep. cut (forall suf pre s, l = pre ++ suf -> P pre s -> P l (foldl f s suf)).
  { intros H H0. by apply (H l []). }
  induction suf as [|x suf IH]; intros pre s' -> HP; simpl.
  - by rewrite app_nil_r in *.
  - apply (IH (pre ++ [x])); [by rewrite <-app_assoc|]. by apply (Hstep pre x suf).
Qed.

(** [len(l)]. *)
Definition py_len {A} (l : list A) : Z := Z.of_nat (length l).

(** [t[i]] for a tuple: a negative index counts from the end. *)
Definition py_index {A} (l : list A) (i : Z) : result A :=
  let j := if (i <? 0)%Z then (i + py_len l)%Z else i in
  if (j <? 0)%Z then Raise (IndexError "tuple index out of range")
  else match l !! Z.to_nat j with Some a => Ok a | None => Raise (IndexError "tuple index out of range") end.

Lemma py_index_lookup {A} (l : list A) i a : (0 <= i)%Z -> py_index l i = Ok a <-> l !! Z.to_nat i = Some a.
Proof. intros Hi. unfold py_index. rewrite !(proj2 (Z.ltb_ge i 0)) by lia. destruct (l !! Z.to_nat i); naive_solver. Qed.

Lemma py_index_run {A} (l : list A) i : (0 <= i < py_len l)%Z -> exists a, py_index l i = Ok a /\ a ∈ l.
Proof.
  unfold py_len. intros Hi. destruct (lookup_lt_is_Some_2 l (Z.to_nat i)) as [a Ha]; [lia|]. exists a. split; [by apply py_index_lookup; [lia|]|].
  by apply list_elem_of_lookup_2 in Ha.
Qed.

(** Boolean filters. *)
Lemma elem_of_bool_filter {A} (p : A -> bool) l x : x ∈ List.filter p l <-> x ∈ l /\ p x = true.
Proof. rewrite !list_elem_of_In, List.filter_In. done. Qed.

Lemma bool_filter_none {A} (p : A -> bool) l : (forall x, x ∈ l -> p x = false) -> List.filter p l = [].
Proof.
  induction l as [|x l IH]; intros H; [done|]. cbn [List.filter]. rewrite H by left. apply IH. intros y Hy. apply H. by right.
Qed.

Lemma NoDup_bool_filter {A} (p : A -> bool) l : NoDup l -> NoDup (List.filter p l).
Proof. intros H%NoDup_ListNoDup. apply NoDup_ListNoDup. by apply List.NoDup_filter. Qed.

Lemma mmap_length {A B} (f : A -> result B) l l' : mmap f l = Ok l' -> length l' = length l.
Proof.
  revert l'; induction l as [|x l IH]; intros l'; simpl; [by intros [= <-]|].
  destruct (f x); simpl; [|done]. destruct (mmap f l); simpl; [|done].
  intros [= <-]; simpl; f_equal; auto.
Qed.

Lemma mmap_Ok_Forall {A B} (f : A -> B) (g : A -> result B) l :
  (forall x, x ∈ l -> g x = Ok (f x)) -> mmap g l = Ok (f <$> l).
Proof.
  induction l as [|x l IH]; simpl; intros H; [done|].
  rewrite H by left. simpl. rewrite IH by set_solver. done.
Qed.

Lemma mmap_Forall2 {A B} (f : A -> result B) l ys : mmap f l = Ok ys <-> Forall2 (fun x y => f x = Ok y) l ys.
Proof.
  split.
  - revert ys; induction l as [|x l IH]; intros ys H; [by injection H as <-; constructor|]. cbn [mmap] in H.
    apply bind_Ok in H as (y & ? & H). apply bind_Ok in H as (ys' & ? & [= <-]). by constructor; [|apply IH].
  - induction 1 as [|x y l ys Hx _ IH]; [done|]. cbn [mmap]. by rewrite Hx; simpl; rewrite IH.
Qed.

(** A loop of checks succeeds when every check does. *)
Lemma mfold_checks {A} (f : unit -> A -> result unit) l u :
  mfold f tt l = Ok u <-> Forall (fun x => f tt x = Ok tt) l.
Proof.
  destruct u. induction l as [|x l IH]; simpl; [by split|]. rewrite Forall_cons, <-IH, bind_Ok.
  split; [intros ([] & ? & ?)|intros []; exists tt]; done.
Qed.

(** Peel the binds of a successful computation. *)
Ltac inv_result :=
  repeat match goal with
  | H : mret _ = _ |- _ => unfold mret, result_ret in H
  | H : Ok _ = Ok _ |- _ => injection H as H; subst
  | H : Ok _ = Raise _ |- _ => discriminate H
  | H : Raise _ = Ok _ |- _ => discriminate H
  | H : (_ ≫= _) = Ok _ |- _ =>
      let a := fresh "r" in let E := fresh "E" in
      apply bind_Ok in H as (a & E & H)
  | H : raise_if _ _ = Ok _ |- _ => apply raise_if_Ok in H
  end.

(** * Sorted sequences of strings *)

(** Python's [sorted] on strings. *)
Definition py_sorted (l : list string) : list string := merge_sort String.le l.

Lemma py_sorted_perm l : py_sorted l ≡ₚ l.
Proof. apply merge_sort_Permutation. Qed.

Lemma py_sorted_sorted l : StronglySorted String.le (py_sorted l).
Proof. apply StronglySorted_merge_sort; apply _. Qed.

Lemma elem_of_py_sorted x l : x ∈ py_sorted l <-> x ∈ l.
Proof. by rewrite py_sorted_perm. Qed.

Lemma length_py_sorted l : length (py_sorted l) = length l.
Proof. by rewrite py_sorted_perm. Qed.

Lemma NoDup_py_sorted l : NoDup (py_sorted l) <-> NoDup l.
Proof. by rewrite py_sorted_perm. Qed.

(** Sorting forgets the order of its input. *)
Lemma py_sorted_proper l1 l2 : l1 ≡ₚ l2 -> py_sorted l1 = py_sorted l2.
Proof.
  intros HP. apply (StronglySorted_unique String.le); [apply py_sorted_sorted..|].
  by rewrite !py_sorted_perm.
Qed.

Lemma py_sorted_nil l : py_sorted l = [] <-> l = [].
Proof.
  split; [|by intros ->]. intros H. apply Permutation_nil. by rewrite <-H, py_sorted_perm.
Qed.

#[export] Instance py_sorted_Proper : Proper (Permutation ==> eq) py_sorted.
Proof. intros l1 l2. apply py_sorted_proper. Qed.

(** The order of pairs of strings. *)
Definition pair_le (a b : string * string) : Prop := a.1 = b.1 /\ String.le a.2 b.2 \/ a.1 <> b.1 /\ String.le a.1 b.1.
#[export] Instance pair_le_dec : RelDecision pair_le.
Proof. intros a b. unfold pair_le. apply _. Defined.

(** [sorted(l, key=key)] for a key of two strings. *)
Definition sorted_by {A} (key : A -> string * string) (l : list A) : list A :=
  merge_sort (fun a b => pair_le (key a) (key b)) l.

Lemma sorted_by_perm {A} (key : A -> string * string) l : sorted_by key l ≡ₚ l.
Proof. apply merge_sort_Permutation. Qed.

(** ** Strings built by concatenation *)

Abbreviation chars := Stdlib.Strings.String.list_ascii_of_string.

Lemma chars_app s1 s2 : chars (s1 +:+ s2) = chars s1 ++ chars s2.
Proof. induction s1 as [|c s1 IH]; simpl; [done|]. by f_equal. Qed.

Lemma chars_inj s1 s2 : chars s1 = chars s2 -> s1 = s2.
Proof.
  intros H. by rewrite <-(String.string_of_list_ascii_of_string s1), H, String.string_of_list_ascii_of_string.
Qed.

Lemma string_app_assoc (a b c : string) : (a +:+ b) +:+ c = a +:+ (b +:+ c).
Proof. apply chars_inj. by rewrite !chars_app, <-app_assoc. Qed.

Lemma string_app_inj_r (a b s : string) : a +:+ s = b +:+ s -> a = b.
Proof. intros H%(f_equal chars). rewrite !chars_app in H. by apply app_inv_tail, chars_inj in H. Qed.

Lemma string_app_inj_l (a b s : string) : s +:+ a = s +:+ b -> a = b.
Proof. intros H%(f_equal chars). rewrite !chars_app in H. by apply app_inv_head, chars_inj in H. Qed.

(** The pieces of [s] between the separators, as [str.split] returns them. *)
Fixpoint split_on (sep : ascii) (s : list ascii) : list (list ascii) :=
  match s with
  | [] => [[]]
  | c :: s =>
      if Ascii.eqb c sep then [] :: split_on sep s
      else match split_on sep s with
           | [] => [[c]]
           | piece :: pieces => (c :: piece) :: pieces
           end
  end.

(** [repr] of a string without quotes or escapes. *)
Definition py_repr (s : string) : string := String "'" s +:+ "'".

(** [s.replace(c, by)] for a single character. *)
Definition replace_char (c : ascii) (by_ : string) (s : string) : string :=
  String.string_of_list_ascii (flat_map (fun x => if Ascii.eqb x c then chars by_ else [x]) (chars s)).

(** [s.replace(ab, by)] for two characters, left to right. *)
Fixpoint replace_pair (a b : ascii) (by_ s : list ascii) : list ascii :=
  match s with
  | x :: (y :: s') as rest =>
      if Ascii.eqb x a && Ascii.eqb y b then by_ ++ replace_pair a b by_ s'
      else x :: replace_pair a b by_ rest
  | _ => s
  end.

Definition lower_char (c : ascii) : bool := let n := nat_of_ascii c in Nat.leb 97 n && Nat.leb n 122.
Definition digit_char (c : ascii) : bool := let n := nat_of_ascii c in Nat.leb 48 n && Nat.leb n 57.

Lemma split_on_nonempty sep s : split_on sep s <> [].
Proof. destruct s as [|c s]; simpl; [done|]. destruct (Ascii.eqb c sep); [done|]. by destruct (split_on sep s). Qed.

Lemma split_on_app sep s1 s2 : sep ∉ s1 -> split_on sep (s1 ++ sep :: s2) = s1 :: split_on sep s2.
Proof.
  induction s1 as [|c s1 IH]; intros Hs; simpl; [by rewrite Ascii.eqb_refl|].
  rewrite not_elem_of_cons in Hs. destruct Hs as [Hc Hs].
  rewrite (proj2 (Ascii.eqb_neq c sep)) by congruence. by rewrite IH.
Qed.

Lemma split_on_last sep s : sep ∉ s -> split_on sep s = [s].
Proof.
  induction s as [|c s IH]; intros Hs; simpl; [done|]. rewrite not_elem_of_cons in Hs. destruct Hs as [Hc Hs].
  rewrite (proj2 (Ascii.eqb_neq c sep)) by congruence. by rewrite IH.
Qed.

(** Refute an equation of two concatenations that end in different literals. *)
Ltac suffix_discriminate H :=
  exfalso; apply (f_equal (fun s => rev (chars s))) in H; rewrite ?chars_app, ?rev_app_distr in H;
  simpl in H; discriminate H.

Example suffix_example (a b : string) : a +:+ ":release" <> b +:+ ":reserve".
Proof. intros H. suffix_discriminate H. Qed.

(** * Insertion-ordered dictionaries *)

(** A Python [dict]: iteration follows insertion order, and assigning to a
    present key keeps its position. *)
Record dict (K V : Type) : Type := Dict { dict_items : list (K * V) }.
Arguments Dict {K V} dict_items.
Arguments dict_items {K V} d : rename.

Section dict.
Context {K : Type} `{EqDecision K} {V : Type}.
Implicit Types (d : dict K V) (k : K) (v : V) (l : list (K * V)).

Fixpoint items_get k l : option V :=
  match l with
  | [] => None
  | kv :: rest => if decide (kv.1 = k) then Some kv.2 else items_get k rest
  end.

Fixpoint items_set k v l : list (K * V) :=
  match l with
  | [] => [(k, v)]
  | kv :: rest => if decide (kv.1 = k) then (kv.1, v) :: rest else kv :: items_set k v rest
  end.

Definition dict_empty : dict K V := Dict [].

(** [d.get(k)] and [k in d]. *)
#[export] Instance dict_lookup : Lookup K V (dict K V) :=
  fun k d => items_get k (dict_items d).

(** [d[k] = v]. *)
#[export] Instance dict_insert : Insert K V (dict K V) :=
  fun k v d => Dict (items_set k v (dict_items d)).

Definition dict_keys d : list K := (dict_items d).*1.
Definition dict_values d : list V := (dict_items d).*2.

(** The dict comprehension [{k: v for k, v in l}]. *)
Definition dict_of_list l : dict K V :=
  foldl (fun d kv => <[kv.1 := kv.2]> d) dict_empty l.

(** Keys are unique, as they are in every Python dict. *)
Definition dict_wf d : Prop := NoDup (dict_keys d).

Lemma items_get_set_eq k v l : items_get k (items_set k v l) = Some v.
Proof.
  induction l as [|[k' v'] l IH]; simpl; [by rewrite decide_True|].
  case_decide; simpl; [by rewrite decide_True|by rewrite decide_False].
Qed.

Lemma items_get_set_ne k k' v l : k <> k' -> items_get k' (items_set k v l) = items_get k' l.
Proof.
  intros Hne. induction l as [|[k1 v1] l IH]; simpl; [by rewrite decide_False|].
  destruct (decide (k1 = k)) as [->|]; simpl; [by rewrite !decide_False|].
  case_decide; auto.
Qed.

Lemma items_get_None k l : items_get k l = None <-> k ∉ l.*1.
Proof.
  induction l as [|[k' v'] l IH]; simpl; [set_solver|].
  case_decide; [|rewrite IH]; set_solver.
Qed.

Lemma items_get_Some_in k v l : items_get k l = Some v -> (k, v) ∈ l.
Proof.
  induction l as [|[k' v'] l IH]; simpl; [done|].
  case_decide; [intros [= ->]; subst; left|right; auto].
Qed.

Lemma items_get_in k v l : NoDup l.*1 -> (k, v) ∈ l -> items_get k l = Some v.
Proof.
  induction l as [|[k' v'] l IH]; simpl; [set_solver|].
  intros [Hk Hl]%NoDup_cons Hin. case_decide as Hd.
  - subst. apply elem_of_cons in Hin as [[= ->]|Hin]; [done|].
    destruct Hk. apply list_elem_of_fmap. by exists (k, v).
  - apply IH; [done|]. set_solver.
Qed.

Lemma items_set_keys k v l :
  (items_set k v l).*1 = if decide (k ∈ l.*1) then l.*1 else l.*1 ++ [k].
Proof.
  induction l as [|[k' v'] l IH]; [by rewrite decide_False by set_solver|].
  cbn [items_set fst snd]. destruct (decide (k' = k)) as [->|Hne]; rewrite !fmap_cons; cbn [fst].
  - by rewrite decide_True by left.
  - rewrite IH. destruct (decide (k ∈ l.*1)).
    + by rewrite decide_True by (by right).
    + rewrite decide_False; [done|]. rewrite elem_of_cons. naive_solver.
Qed.

Lemma dict_get_set_eq k v d : <[k := v]> d !! k = Some v.
Proof. apply items_get_set_eq. Qed.

Lemma dict_get_set_ne k k' v d : k <> k' -> <[k := v]> d !! k' = d !! k'.
Proof. apply items_get_set_ne. Qed.

Lemma dict_get_set k k' v d :
  <[k := v]> d !! k' = if decide (k = k') then Some v else d !! k'.
Proof. case_decide; subst; [apply dict_get_set_eq|by apply dict_get_set_ne]. Qed.

Lemma dict_get_empty k : dict_empty !! k = None.
Proof. done. Qed.

Lemma dict_get_None k d : d !! k = None <-> k ∉ dict_keys d.
Proof. apply items_get_None. Qed.

Lemma dict_get_is_Some k d : is_Some (d !! k) <-> k ∈ dict_keys d.
Proof. rewrite <-not_eq_None_Some, dict_get_None. destruct (decide (k ∈ dict_keys d)); naive_solver. Qed.

Lemma dict_get_Some_in k v d : d !! k = Some v -> (k, v) ∈ dict_items d.
Proof. apply items_get_Some_in. Qed.

Lemma dict_get_Some k v d : dict_wf d -> d !! k = Some v <-> (k, v) ∈ dict_items d.
Proof. intros. split; [apply items_get_Some_in|by apply items_get_in]. Qed.

Lemma dict_keys_set k v d :
  dict_keys (<[k := v]> d) = if decide (k ∈ dict_keys d) then dict_keys d else dict_keys d ++ [k].
Proof. apply items_set_keys. Qed.

Lemma elem_of_dict_keys_set k k' v d :
  k' ∈ dict_keys (<[k := v]> d) <-> k' = k \/ k' ∈ dict_keys d.
Proof. rewrite dict_keys_set. case_decide; set_solver. Qed.

Lemma dict_wf_set k v d : dict_wf d -> dict_wf (<[k := v]> d).
Proof.
  unfold dict_wf. rewrite dict_keys_set. case_decide; [done|].
  intros. apply NoDup_app. split; [done|]. split; [set_solver|apply NoDup_singleton].
Qed.

Lemma dict_wf_empty : dict_wf dict_empty.
Proof. constructor. Qed.

Lemma dict_of_list_snoc l k v : dict_of_list (l ++ [(k, v)]) = <[k := v]> (dict_of_list l).
Proof. unfold dict_of_list. by rewrite foldl_app. Qed.

Lemma dict_wf_of_list l : dict_wf (dict_of_list l).
Proof.
  induction l as [|[k v] l IH] using rev_ind; [constructor|].
  rewrite dict_of_list_snoc. by apply dict_wf_set.
Qed.

Lemma dict_of_list_items l : NoDup l.*1 -> dict_items (dict_of_list l) = l.
Proof.
  induction l as [|[k v] l IH] using rev_ind; [done|].
  rewrite fmap_app, NoDup_app; simpl. intros (Hl & Hk & _).
  rewrite dict_of_list_snoc. unfold insert, dict_insert; simpl. rewrite IH by done.
  clear IH. induction l as [|[k' v'] l IH]; simpl in *; [done|].
  apply NoDup_cons in Hl as [Hk' Hl].
  rewrite decide_False by (intros ->; apply (Hk k); set_solver).
  f_equal. apply IH; [done|]. intros x Hx. apply Hk. by right.
Qed.

Lemma dict_get_of_list k l : NoDup l.*1 -> dict_of_list l !! k = items_get k l.
Proof. intros. unfold lookup, dict_lookup. by rewrite dict_of_list_items. Qed.
End dict.
#[export] Existing Instances dict_lookup dict_insert.

#[export] Instance dict_wf_dec {K V} `{EqDecision K} (d : dict K V) : Decision (dict_wf d).
Proof. unfold dict_wf. apply _. Defined.

(** Discharge a closed decidable goal by evaluating its decision procedure. *)
Ltac vm_decide := apply (bool_decide_unpack _); vm_compute; exact I.

#[export] Instance dict_eq_dec {K V} `{EqDecision K, EqDecision V} : EqDecision (dict K V).
Proof. solve_decision. Defined.

(** [d[k]], raising [KeyError]. *)
Definition dict_index {V} (d : dict string V) (k : string) : result V :=
  match d !! k with Some v => Ok v | None => Raise (KeyError k) end.

Lemma dict_index_Ok {V} (d : dict string V) k v : dict_index d k = Ok v <-> d !! k = Some v.
Proof. unfold dict_index. destruct (d !! k); naive_solver. Qed.

(** Dictionaries are equal when their items are, in whatever order. *)
Definition dict_same {V} `{EqDecision V} (d1 d2 : dict string V) : bool :=
  bool_decide ((list_to_map (dict_items d1) : gmap string V) = list_to_map (dict_items d2)).

Lemma dict_same_get {V} `{EqDecision V} (d1 d2 : dict string V) : dict_same d1 d2 = true <-> forall k, d1 !! k = d2 !! k.
Proof.
  assert (forall (d : dict string V) k, (list_to_map (dict_items d) : gmap string V) !! k = d !! k) as Hget.
  { intros [l] k. unfold lookup at 2, dict_lookup; simpl. induction l as [|[k' v] l IH]; [done|]. simpl. case_decide; subst.
    - by rewrite lookup_insert_eq.
    - by rewrite lookup_insert_ne. }
  unfold dict_same. rewrite bool_decide_eq_true. split.
  - intros Heq k. by rewrite <-!Hget, Heq.
  - intros Hk. apply map_eq. intros k. by rewrite !Hget.
Qed.

(** [{k: v for k, v in d.items() if p(k, v)}]. *)
Definition dict_filter {K V} (p : K -> V -> bool) (d : dict K V) : dict K V :=
  Dict (base.filter (fun kv => p kv.1 kv.2 = true) (dict_items d)).

(** [{k: f(v) for k, v in d.items()}]. *)
Definition dict_map {K A B} (f : A -> B) (d : dict K A) : dict K B :=
  Dict (prod_map id f <$> dict_items d).

Section dict_maps.
Context {K : Type} `{EqDecision K} {A B : Type}.

Lemma dict_map_get (f : A -> B) (d : dict K A) k : dict_map f d !! k = f <$> d !! k.
Proof.
  destruct d as [l]. unfold lookup, dict_lookup; simpl.
  induction l as [|[k' v] l IH]; simpl; [done|]. by case_decide.
Qed.

Lemma dict_map_keys (f : A -> B) (d : dict K A) : dict_keys (dict_map f d) = dict_keys d.
Proof.
  unfold dict_keys, dict_map; simpl. rewrite <-list_fmap_compose.
  apply list_fmap_ext. by intros ? [] ?.
Qed.

Lemma dict_filter_keys_NoDup (p : K -> A -> bool) (d : dict K A) :
  dict_wf d -> dict_wf (dict_filter p d).
Proof.
  unfold dict_wf, dict_keys, dict_filter; simpl. destruct d as [l]; simpl.
  induction l as [|[k v] l IH]; simpl; [done|]. intros [Hk Hl]%NoDup_cons.
  rewrite filter_cons. case_decide; simpl; [|by apply IH]. apply NoDup_cons. split; [|by apply IH].
  intros ([k' v'] & -> & Hin)%list_elem_of_fmap. apply list_elem_of_filter in Hin as [_ Hin].
  apply Hk. apply list_elem_of_fmap. by exists (k', v').
Qed.

Lemma dict_filter_get (p : K -> A -> bool) (d : dict K A) k v :
  dict_wf d -> dict_filter p d !! k = Some v <-> d !! k = Some v /\ p k v = true.
Proof.
  intros Hwf. rewrite !dict_get_Some by auto using dict_filter_keys_NoDup.
  unfold dict_filter; simpl. rewrite list_elem_of_filter. naive_solver.
Qed.

Lemma elem_of_dict_filter_keys (p : K -> A -> bool) (d : dict K A) k :
  dict_wf d -> k ∈ dict_keys (dict_filter p d) <-> exists v, d !! k = Some v /\ p k v = true.
Proof.
  intros Hwf. rewrite <-dict_get_is_Some. unfold is_Some. by setoid_rewrite dict_filter_get.
Qed.
End dict_maps.

(** [d.setdefault(k, []).append(v)]. *)
Definition dict_append {K V} `{EqDecision K} (k : K) (v : V) (d : dict K (list V)) : dict K (list V) :=
  <[k := default [] (d !! k) ++ [v]]> d.

(** The values with a key, grouped by it in the order of first appearance. *)
Definition group_by {V} (key : V -> option string) (l : list V) : dict string (list V) :=
  foldl (fun d v => match key v with Some k => dict_append k v d | None => d end) dict_empty l.

Lemma group_by_wf {V} (key : V -> option string) l : dict_wf (group_by key l).
Proof.
  unfold group_by. induction l as [|v l IH] using rev_ind; [constructor|]. rewrite foldl_app. cbn [foldl].
  destruct (key v); [by apply dict_wf_set|done].
Qed.

Lemma group_by_get {V} (key : V -> option string) l k :
  group_by key l !! k =
    match base.filter (fun v => key v = Some k) l with [] => None | vs => Some vs end.
Proof.
  unfold group_by. induction l as [|v l IH] using rev_ind; [done|]. rewrite foldl_app, filter_app, filter_cons. cbn [foldl].
  destruct (key v) as [k'|] eqn:Hk.
  - unfold dict_append at 1. rewrite dict_get_set. destruct (decide (k' = k)) as [->|Hne].
    + rewrite (decide_True (P := Some k = Some k)), IH by done. by destruct (base.filter _ l).
    + rewrite (decide_False (P := Some k' = Some k)) by congruence. by rewrite filter_nil, app_nil_r.
  - rewrite (decide_False (P := None = Some k)) by done. by rewrite filter_nil, app_nil_r.
Qed.

(** [list(dict.fromkeys(l))]: the distinct elements in first-seen order. *)
Definition py_dedupe (l : list string) : list string :=
  dict_keys (dict_of_list ((fun x => (x, tt)) <$> l)).

Lemma NoDup_py_dedupe l : NoDup (py_dedupe l).
Proof. apply dict_wf_of_list. Qed.

Lemma elem_of_py_dedupe x l : x ∈ py_dedupe l <-> x ∈ l.
Proof.
  unfold py_dedupe. induction l as [|y l IH] using rev_ind; [done|].
  rewrite fmap_app; simpl. rewrite dict_of_list_snoc, elem_of_dict_keys_set, IH. set_solver.
Qed.

(** [len(l) == len(set(l))]. *)
Definition py_unique (l : list string) : bool := bool_decide (NoDup l).

Lemma py_unique_true l : py_unique l = true <-> NoDup l.
Proof. apply bool_decide_eq_true. Qed.

(** [sum] of a generator of integers. *)
Definition py_sum (l : list Z) : Z := foldr Z.add 0%Z l.

Lemma py_sum_perm l1 l2 : l1 ≡ₚ l2 -> py_sum l1 = py_sum l2.
Proof. unfold py_sum. induction 1; simpl; lia. Qed.

Lemma py_sum_nonneg l : Forall (fun x => 0 <= x)%Z l -> (0 <= py_sum l)%Z.
Proof. unfold py_sum. induction 1; simpl; lia. Qed.

(** ** Sums and predicates over the items of a dictionary *)

Section dict_sums.
Context {V : Type}.
Implicit Types (d : dict string V).

Lemma dict_items_set k v d :
  dict_items (<[k := v]> d) = dict_items d ++ [(k, v)] /\ d !! k = None \/
  exists l1 v0 l2, dict_items d = l1 ++ (k, v0) :: l2 /\ d !! k = Some v0 /\
    dict_items (<[k := v]> d) = l1 ++ (k, v) :: l2.
Proof.
  unfold insert, dict_insert, lookup, dict_lookup. destruct d as [l]; simpl.
  induction l as [|[k' v'] l IH]; simpl; [by left|].
  destruct (decide (k' = k)) as [->|Hne].
  - right. by exists [], v', l.
  - destruct IH as [[-> ->]|(l1 & v0 & l2 & -> & Hget & ->)]; [by left|right].
    exists ((k', v') :: l1), v0, l2. split_and!; [done| |done].
    by rewrite Hget.
Qed.

Lemma dict_set_same k v d : d !! k = Some v -> <[k := v]> d = d.
Proof.
  intros Hk. destruct (dict_items_set k v d) as [[_ Hn]|(l1 & v0 & l2 & Hd & Hv0 & Hs)]; [congruence|].
  rewrite Hk in Hv0. injection Hv0 as <-. destruct d as [l], (<[k := v]> (Dict l)) as [l'] eqn:E.
  simpl in *. congruence.
Qed.

(** The weight of the values of a dictionary. *)
Definition dict_sum (f : V -> Z) d : Z := py_sum (f <$> dict_values d).

Lemma py_sum_app l1 l2 : py_sum (l1 ++ l2) = (py_sum l1 + py_sum l2)%Z.
Proof. unfold py_sum. induction l1; simpl; lia. Qed.

Lemma py_sum_cons z l : py_sum (z :: l) = (z + py_sum l)%Z.
Proof. done. Qed.

Lemma dict_sum_set f k v d :
  dict_sum f (<[k := v]> d) = (dict_sum f d + f v - default 0 (f <$> d !! k))%Z.
Proof.
  unfold dict_sum, dict_values. destruct (dict_items_set k v d) as [[-> ->]|(l1 & v0 & l2 & -> & -> & ->)];
    rewrite !fmap_app, !py_sum_app; simpl; lia.
Qed.

Lemma dict_sum_nonneg f d : (forall v, (0 <= f v)%Z) -> (0 <= dict_sum f d)%Z.
Proof. intros Hf. apply py_sum_nonneg, Forall_fmap, Forall_true. intros x. apply Hf. Qed.

Lemma dict_sum_nonneg_in f d : (forall k v, (k, v) ∈ dict_items d -> (0 <= f v)%Z) -> (0 <= dict_sum f d)%Z.
Proof.
  intros Hf. apply py_sum_nonneg, Forall_fmap, Forall_forall. intros v Hv. simpl.
  apply list_elem_of_fmap in Hv as ([k v'] & -> & Hin). by eapply Hf.
Qed.

Lemma dict_sum_ext f g d : (forall k v, (k, v) ∈ dict_items d -> f v = g v) -> dict_sum f d = dict_sum g d.
Proof.
  intros H. unfold dict_sum, dict_values. f_equal. destruct d as [l]; simpl in *.
  induction l as [|[k v] l IH]; simpl; [done|]. f_equal; [apply (H k); left|]. apply IH. intros k' v' Hin.
  apply (H k'). by right.
Qed.

Lemma dict_sum_le f g d : (forall k v, (k, v) ∈ dict_items d -> (f v <= g v)%Z) -> (dict_sum f d <= dict_sum g d)%Z.
Proof.
  intros H. unfold dict_sum, dict_values. destruct d as [l]; simpl in *.
  induction l as [|[k v] l IH]; simpl; [done|]. pose proof (H k v ltac:(left)).
  apply Z.add_le_mono; [done|]. apply IH. intros k' v' Hin. apply (H k'). by right.
Qed.

(** One value is at most the sum. *)
Lemma dict_sum_get f k v d :
  (forall k v, (k, v) ∈ dict_items d -> (0 <= f v)%Z) -> d !! k = Some v -> (f v <= dict_sum f d)%Z.
Proof.
  intros Hf Hget. destruct (dict_items_set k v d) as [[_ Hn]|(l1 & v0 & l2 & Hd & Hv0 & _)]; [congruence|].
  rewrite Hget in Hv0. injection Hv0 as <-. unfold dict_sum, dict_values. rewrite Hd in *.
  rewrite !fmap_app, py_sum_app, !fmap_cons. simpl.
  assert (0 <= py_sum (f <$> l1.*2))%Z.
  { apply py_sum_nonneg, Forall_fmap, Forall_forall. intros x ([k' v'] & -> & Hin)%list_elem_of_fmap. simpl.
    apply (Hf k'). set_solver. }
  assert (0 <= py_sum (f <$> l2.*2))%Z; [|unfold py_sum in *; lia].
  apply py_sum_nonneg, Forall_fmap, Forall_forall. intros x ([k' v'] & -> & Hin)%list_elem_of_fmap. simpl.
  apply (Hf k'). set_solver.
Qed.

(** Two weights that agree except at one key. *)
Lemma dict_sum_change f g k v d :
  dict_wf d -> d !! k = Some v ->
  (forall k' v', d !! k' = Some v' -> k' <> k -> f v' = g v') ->
  (dict_sum f d - f v = dict_sum g d - g v)%Z.
Proof.
  intros Hwf Hk Hfg.
  destruct (dict_items_set k v d) as [[_ Hn]|(l1 & v0 & l2 & Hd & Hv0 & _)]; [congruence|].
  rewrite Hk in Hv0. injection Hv0 as <-.
  assert (forall k' v', (k', v') ∈ l1 ++ l2 -> f v' = g v') as Hrest.
  { intros k' v' Hin. assert (k' <> k).
    { intros ->. unfold dict_wf, dict_keys in Hwf. rewrite Hd, fmap_app, fmap_cons in Hwf. simpl in Hwf.
      apply NoDup_app in Hwf as (_ & Hl & Hr). apply NoDup_cons in Hr as [Hr _].
      apply elem_of_app in Hin as [Hin|Hin].
      - apply (Hl k); [|by left]. apply list_elem_of_fmap. by exists (k, v').
      - apply Hr. apply list_elem_of_fmap. by exists (k, v'). }
    apply (Hfg k'); [|done]. apply dict_get_Some; [done|]. rewrite Hd. set_solver. }
  unfold dict_sum, dict_values. rewrite Hd, !fmap_app, !py_sum_app, !fmap_cons, !py_sum_cons. cbn [snd].
  assert (forall l : list (string * V), (forall k' v', (k', v') ∈ l -> f v' = g v') -> py_sum (f <$> l.*2) = py_sum (g <$> l.*2)) as Hext.
  { clear. intros l H. apply (dict_sum_ext f g (Dict l)). exact H. }
  rewrite (Hext l1), (Hext l2) by (intros k' v' ?; apply (Hrest k'), elem_of_app; tauto). lia.
Qed.

Lemma dict_Forall_set (P : string * V -> Prop) k v d :
  Forall P (dict_items d) -> P (k, v) -> Forall P (dict_items (<[k := v]> d)).
Proof.
  intros HF HP. destruct (dict_items_set k v d) as [[-> _]|(l1 & v0 & l2 & Hd & _ & ->)].
  - apply Forall_app. by split; [|constructor].
  - rewrite Hd in HF. apply Forall_app in HF as [H1 H2]. apply Forall_cons in H2 as [_ H2].
    apply Forall_app. split; [done|]. by constructor.
Qed.

Lemma dict_Forall_get (P : string * V -> Prop) d :
  dict_wf d -> Forall P (dict_items d) <-> forall k v, d !! k = Some v -> P (k, v).
Proof.
  intros Hwf. rewrite Forall_forall. split.
  - intros H k v Hk. by apply H, dict_get_Some_in.
  - intros H [k v] Hin. by apply H, dict_get_Some.
Qed.
End dict_sums.

(** * Occurrences, precedence and finite acyclic relations *)

(** How often [x] occurs in [l]. *)
Fixpoint occ (x : string) (l : list string) : Z :=
  match l with
  | [] => 0
  | y :: l => ((if decide (y = x) then 1 else 0) + occ x l)%Z
  end.

Lemma occ_nonneg x l : (0 <= occ x l)%Z.
Proof. induction l; simpl; [done|]. case_decide; lia. Qed.

Lemma occ_app x l1 l2 : occ x (l1 ++ l2) = (occ x l1 + occ x l2)%Z.
Proof. induction l1; simpl; lia. Qed.

Lemma occ_perm x l1 l2 : l1 ≡ₚ l2 -> occ x l1 = occ x l2.
Proof. induction 1; simpl; lia. Qed.

Lemma occ_pos x l : (0 < occ x l)%Z <-> x ∈ l.
Proof.
  induction l as [|y l IH]; simpl; [split; [lia|by intros ?%not_elem_of_nil]|]. pose proof (occ_nonneg x l).
  rewrite elem_of_cons. case_decide; [split; [by left|lia]|rewrite Z.add_0_l, IH; naive_solver].
Qed.

Lemma occ_zero x l : occ x l = 0%Z <-> x ∉ l.
Proof. rewrite <-occ_pos. pose proof (occ_nonneg x l). lia. Qed.

(** Lists with the same number of occurrences are permutations. *)
Lemma occ_eq_perm l1 l2 : (forall x, occ x l1 = occ x l2) -> l1 ≡ₚ l2.
Proof.
  revert l2; induction l1 as [|x l1 IH]; intros l2 H.
  - destruct l2 as [|y l2]; [done|]. specialize (H y). simpl in H. rewrite decide_True in H by done.
    pose proof (occ_nonneg y l2). lia.
  - assert (x ∈ l2) as (l & r & ->)%list_elem_of_split.
    { apply occ_pos. rewrite <-H. simpl. rewrite decide_True by done. pose proof (occ_nonneg x l1). lia. }
    rewrite <-Permutation_middle. apply Permutation_skip, IH. intros y. specialize (H y).
    rewrite occ_app in *. simpl in H. lia.
Qed.

(** [x] stands before [y] in [l]. *)
Definition before (x y : string) (l : list string) : Prop :=
  exists l1 l2 l3, l = l1 ++ x :: l2 ++ y :: l3.

Lemma before_reverse x y l : before x y l <-> before y x (reverse l).
Proof.
  assert (forall x y l, before x y l -> before y x (reverse l)) as Hrev.
  { clear. intros x y l (l1 & l2 & l3 & ->). exists (reverse l3), (reverse l2), (reverse l1).
    by rewrite !reverse_app, !reverse_cons, reverse_app, reverse_cons, <-!app_assoc. }
  split; [apply Hrev|]. intros H%Hrev. by rewrite reverse_involutive in H.
Qed.

Lemma tc_subrel {A} (R1 R2 : A -> A -> Prop) x y :
  (forall a b, R1 a b -> R2 a b) -> tc R1 x y -> tc R2 x y.
Proof. intros H. induction 1; [by apply tc_once, H|]. eapply tc_l; eauto. Qed.

Lemma tc_iff {A} (R1 R2 : A -> A -> Prop) :
  (forall x y, R1 x y <-> R2 x y) -> forall x y, tc R1 x y <-> tc R2 x y.
Proof. intros H x y. split; apply tc_subrel; intros a b; apply H. Qed.

Section acyclic.
Context (R : string -> string -> Prop).

Definition acyclic : Prop := forall x, ~ tc R x x.

(** A rank that decreases along the relation rules cycles out. *)
Lemma acyclic_rank (rank : string -> nat) :
  (forall x y, R x y -> rank y < rank x) -> acyclic.
Proof.
  intros Hrank x Hx. assert (forall a b, tc R a b -> rank b < rank a) as Htc.
  { induction 1 as [a b Hab|a b c Hab _ IH]; [by apply Hrank|]. pose proof (Hrank _ _ Hab). lia. }
  apply Htc in Hx. lia.
Qed.

(** A descending chain of length [n] from every element of [X]. *)
Lemma descending_chain (X : list string) :
  (forall x, x ∈ X -> exists y, y ∈ X /\ R x y) ->
  forall n x, x ∈ X -> exists l, length l = n /\ l ⊆ X /\
    (forall i j a b, (x :: l) !! i = Some a -> (x :: l) !! j = Some b -> i < j -> tc R a b).
Proof.
  intros Hstep n. induction n as [|n IH]; intros x Hx.
  - exists []. split_and!; [done|set_solver|]. intros [|?] [|?]; simpl; intros; simplify_eq; lia.
  - destruct (Hstep x Hx) as (y & Hy & Hxy). destruct (IH y Hy) as (l & Hl & HS & Hlt).
    exists (y :: l). split_and!; [simpl; lia|set_solver|].
    intros [|i] [|j] a b Ha Hb Hij; simpl in Ha, Hb; simplify_eq; try lia.
    + destruct j as [|j]; [simpl in Hb; simplify_eq; by apply tc_once|].
      eapply tc_l; [done|]. apply (Hlt 0 (S j)); [done|done|lia].
    + apply (Hlt i j); [done|done|lia].
Qed.

(** In an acyclic relation a nonempty finite set has an element without
    successors in the set. *)
Lemma acyclic_minimal (X : list string) :
  acyclic -> X <> [] -> ~ (forall x, x ∈ X -> exists y, y ∈ X /\ R x y).
Proof.
  intros Hac HS Hstep. destruct X as [|x0 S0]; [done|].
  destruct (descending_chain (x0 :: S0) Hstep (length (x0 :: S0)) x0) as (l & Hl & Hsub & Hlt); [left|].
  assert (~ NoDup (x0 :: l)) as Hdup.
  { intros Hnd. assert (length (x0 :: l) <= length (x0 :: S0)); [|simpl in *; lia].
    apply submseteq_length, NoDup_submseteq; [done|]. intros z. set_solver. }
  apply Hdup, NoDup_alt. intros i j a Hi Hj.
  destruct (decide (i = j)) as [|Hij]; [done|]. exfalso.
  destruct (decide (i < j)); [apply (Hac a), (Hlt i j)|apply (Hac a), (Hlt j i)]; auto; lia.
Qed.
End acyclic.

(** ** Depth-first search for a cycle *)

(** A visit keeps the set of nodes on the stack and the set of finished ones,
    and refuses a node that is on the stack. *)
Section cycle_search.
Context (error : exn) (next : string -> list string).
Abbreviation edge := (fun x y => y ∈ next x).
Abbreviation finite x := (Acc (fun y x => edge x y) x).

Lemma finite_no_cycle x : finite x -> ~ tc edge x x.
Proof using.
  induction 1 as [x _ IH]. intros Hx. assert (exists y, edge x y /\ tc edge y y) as (y & Hy & Hc); [|by apply (IH y)].
  inversion Hx as [? ? Hxy|? y ? Hxy Hyx]; subst; [by exists x|]. exists y. split; [done|]. by eapply tc_r.
Qed.

(** The search below a node either finishes, and then nothing below it is
    infinite, or has met a cycle. *)
Definition searched (vi ve : gset string) (r : result (gset string * gset string)) (done_ : Prop) : Prop :=
  (done_ /\ exists ve', r = Ok (vi, ve') /\ forall v, v ∈ ve' -> finite v) \/
  ((exists u, tc edge u u) /\ r = Raise error).

Lemma visit_all (visit : gset string * gset string -> string -> result (gset string * gset string)) vi l : forall ve,
  (forall x ve, x ∈ l -> (forall v, v ∈ ve -> finite v) -> searched vi ve (visit (vi, ve) x) (finite x)) ->
  (forall v, v ∈ ve -> finite v) ->
  searched vi ve (mfold visit (vi, ve) l) (forall x, x ∈ l -> finite x).
Proof using.
  induction l as [|x l IH]; intros ve Hvisit Hve; cbn [mfold].
  - left. split; [by intros ? ?%not_elem_of_nil|by exists ve].
  - destruct (Hvisit x ve) as [(Hx & ve1 & -> & Hve1)|(Hc & ->)]; [left|done| |by right]. cbn [mbind result_bind].
    destruct (IH ve1) as [(Hl & ve2 & -> & Hve2)|(Hc & ->)]; [intros; apply Hvisit; [by right|done]|done| |by right].
    left. split; [intros y [->|?]%elem_of_cons; auto|by exists ve2].
Qed.

Context (nodes : list string).
(** Nodes with successors that are not on the stack. *)
Definition unstacked (vi : gset string) : nat := size (list_to_set nodes ∖ vi : gset string).

Lemma unstacked_empty : unstacked ∅ <= length nodes.
Proof using.
  unfold unstacked. rewrite difference_empty_L. generalize nodes. intros l0. induction l0 as [|x l IH]; [done|]. cbn [list_to_set length].
  pose proof (size_union_alt {[x]} (list_to_set l : gset string)).
  rewrite size_singleton in *. assert (size ((list_to_set l : gset string) ∖ {[x]}) <= size (list_to_set l : gset string));
    [apply subseteq_size; set_solver|lia].
Qed.

Context (Hnodes : forall x y, y ∈ next x -> x ∈ nodes).
Context (visit : nat -> gset string * gset string -> string -> result (gset string * gset string)).
Context (Hvisit : forall fuel st x, visit (S fuel) st x =
  if decide (x ∈ st.1) then Raise error
  else if decide (x ∈ st.2) then Ok st
  else st' ← mfold (visit fuel) ({[x]} ∪ st.1, st.2) (next x); Ok (fst st' ∖ {[x]}, {[x]} ∪ snd st')).

Lemma visit_node_run fuel : forall x vi ve,
  (forall u, u ∈ vi -> tc edge u x) -> (forall v, v ∈ ve -> finite v) -> unstacked vi < fuel ->
  searched vi ve (visit fuel (vi, ve) x) (finite x).
Proof using Hnodes Hvisit.
  induction fuel as [|fuel IH]; intros x vi ve Hvi Hve Hfuel; [lia|]. rewrite Hvisit. cbn [fst snd].
  destruct (decide (x ∈ vi)) as [Hx|Hx]; [right; split; [exists x; auto|done]|].
  destruct (decide (x ∈ ve)) as [Hx'|Hx']; [left; split; [auto|by exists ve]|].
  destruct (visit_all (visit fuel) ({[x]} ∪ vi) (next x) ve) as [(Hl & ve' & -> & Hve')|(Hc & ->)]; [|done| |by right].
  - intros y ve1 Hy Hve1. apply IH; [|done|].
    + intros u [->%elem_of_singleton|Hu]%elem_of_union; [by apply tc_once|]. eapply tc_r; [by apply Hvi|done].
    + assert (unstacked ({[x]} ∪ vi) < unstacked vi); [|lia]. unfold unstacked. apply subset_size. split; [set_solver|].
      intros Hsub. pose proof (Hnodes _ _ Hy) as Hk.
      assert (x ∈ (list_to_set nodes ∖ ({[x]} ∪ vi) : gset string)) as Hin; [|set_solver].
      apply Hsub, elem_of_difference. split; [by apply elem_of_list_to_set|done].
  - cbn [mbind result_bind fst snd]. left. assert (finite x) as Hfx by (constructor; intros y Hy; by apply Hl).
    split; [done|]. exists ({[x]} ∪ ve'). split.
    + do 2 f_equal. set_solver.
    + intros v [->%elem_of_singleton|Hv]%elem_of_union; auto.
Qed.
End cycle_search.

(** Lemmas the proofs of every component may use without naming them. *)
Create HintDb raes discriminated.
Create Rewrite HintDb raes.
#[export] Hint Resolve dict_wf_set dict_wf_empty dict_wf_of_list NoDup_py_dedupe dict_filter_keys_NoDup : raes.
#[export] Hint Rewrite @dict_get_set_eq @dict_get_empty @elem_of_py_sorted elem_of_py_dedupe : raes.
