(* ===== verification/Stateful.v ===== *)
(** Code that raises and mutates: an operation on a state of type [S] returns
    its outcome and the state it leaves behind, also when it raises, so that
    what an exception leaves half-done is visible. *)
From S2P Require Import Prelude.

Definition stateful (S A : Type) : Type := S -> result A * S.

Section stateful.
Context {S : Type}.

#[export] Instance stateful_ret : MRet (stateful S) := fun A a s => (Ok a, s).
#[export] Instance stateful_bind : MBind (stateful S) := fun A B k m s =>
  match m s with
  | (Ok a, s') => k a s'
  | (Raise e, s') => (Raise e, s')
  end.

Definition get_state : stateful S S := fun s => (Ok s, s).
Definition set_state (f : S -> S) : stateful S unit := fun s => (Ok tt, f s).

(** Code that reads no state and changes none. *)
Definition lift {A} (r : result A) : stateful S A := fun s => (r, s).

(** [try: m except e: handler(e)]; the handler sees the state [m] left. *)
Definition catch {A} (m : stateful S A) (handler : exn -> stateful S A) : stateful S A := fun s =>
  match m s with
  | (Raise e, s') => handler e s'
  | r => r
  end.

Lemma bind_run {A B} (m : stateful S A) (k : A -> stateful S B) s :
  (m ≫= k) s = match m s with (Ok a, s') => k a s' | (Raise e, s') => (Raise e, s') end.
Proof. done. Qed.

Lemma lift_run {A B} (r : result A) (k : A -> stateful S B) s :
  (lift r ≫= k) s = match r with Ok a => k a s | Raise e => (Raise e, s) end.
Proof. by destruct r. Qed.

Lemma catch_run {A} (m : stateful S A) h s :
  catch m h s = match m s with (Raise e, s') => h e s' | (Ok a, s') => (Ok a, s') end.
Proof. done. Qed.

(** An operation that leaves the state alone whenever it raises. *)
Definition atomic {A} (m : stateful S A) : Prop := forall s e s', m s = (Raise e, s') -> s' = s.
(** An operation that never changes the state. *)
Definition reads {A} (m : stateful S A) : Prop := forall s, (m s).2 = s.

Lemma atomic_lift {A} (r : result A) : atomic (lift r).
Proof. by intros s e s' [= _ ->]. Qed.
Lemma atomic_ret {A} (a : A) : atomic (mret a).
Proof. by intros s e s' ?. Qed.
Lemma atomic_get : atomic get_state.
Proof. by intros s e s' ?. Qed.
Lemma atomic_set (f : S -> S) : atomic (set_state f).
Proof. by intros s e s' ?. Qed.
Lemma reads_lift {A} (r : result A) : reads (lift r).
Proof. done. Qed.
Lemma reads_get : reads get_state.
Proof. done. Qed.

(** Reading first and failing before the writes is atomic. *)
Lemma atomic_bind_reads {A B} (m : stateful S A) (k : A -> stateful S B) :
  reads m -> (forall a, atomic (k a)) -> atomic (m ≫= k).
Proof.
  intros Hm Hk s e s' H. rewrite bind_run in H. specialize (Hm s). destruct (m s) as [[a|e'] s1]; cbn in Hm; subst s1.
  - by eapply Hk.
  - by injection H as _ ->.
Qed.
Lemma reads_bind {A B} (m : stateful S A) (k : A -> stateful S B) :
  reads m -> (forall a, reads (k a)) -> reads (m ≫= k).
Proof.
  intros Hm Hk s. rewrite bind_run. specialize (Hm s). destruct (m s) as [[a|e'] s1]; cbn in Hm; subst s1; [apply Hk|done].
Qed.
Lemma reads_atomic {A} (m : stateful S A) : reads m -> atomic m.
Proof. intros Hm s e s' H. specialize (Hm s). by rewrite H in Hm. Qed.
(** An operation that never raises. *)
Definition total {A} (m : stateful S A) : Prop := forall s, exists a, (m s).1 = Ok a.

Lemma total_ret {A} (a : A) : total (mret a).
Proof. intros s. by exists a. Qed.
Lemma total_set (f : S -> S) : total (set_state f).
Proof. intros s. by exists tt. Qed.
Lemma total_bind {A B} (m : stateful S A) (k : A -> stateful S B) : total m -> (forall a, total (k a)) -> total (m ≫= k).
Proof.
  intros Hm Hk s. rewrite bind_run. destruct (Hm s) as [a Ha]. destruct (m s) as [r s']; cbn in Ha; subst r. apply Hk.
Qed.
Lemma total_atomic {A} (m : stateful S A) : total m -> atomic m.
Proof. intros Hm s e s' H. destruct (Hm s) as [a Ha]. by rewrite H in Ha. Qed.
(** Writes that cannot raise may follow anything atomic. *)
Lemma atomic_bind_total {A B} (m : stateful S A) (k : A -> stateful S B) :
  atomic m -> (forall a, total (k a)) -> atomic (m ≫= k).
Proof.
  intros Hm Hk s e s' H. rewrite bind_run in H. destruct (m s) as [[a|e'] s1] eqn:E.
  - destruct (Hk a s1) as [b Hb]. rewrite H in Hb. done.
  - injection H as <- <-. by eapply Hm.
Qed.
End stateful.

#[export] Hint Resolve atomic_lift atomic_ret atomic_get atomic_set reads_lift reads_get
  atomic_bind_reads reads_bind reads_atomic total_ret total_set total_bind total_atomic : raes.

(** An operation on the part of a state that a lens reads and replaces. *)
Definition zoom {S T A} (get : S -> T) (put : T -> S -> S) (m : stateful T A) : stateful S A := fun s =>
  let r := m (get s) in (r.1, put r.2 s).

(** Split the run of a bind along the outcome of its first step. *)
Ltac step_run H :=
  match type of H with
  | (lift ?r ≫= ?k) ?s = _ =>
      rewrite (lift_run r k s) in H;
      let E := fresh "E" in destruct r eqn:E; [|first [discriminate H | injection H as ? ?; subst]]
  end.
