(* ===== verification/Contracts.v ===== *)
(** The field constraints the closed contracts share
    ([raes_contracts/_base.py] and the annotations of the models). *)
From S2P Require Import Prelude.
From Stdlib Require Import Ascii.
Local Open Scope string_scope.
Local Open Scope list_scope.

Definition nonempty (s : string) : bool := bool_decide (s <> "").

(** [Field(ge=lo)] and [Field(ge=lo, le=hi)]. *)
Definition at_least (lo z : Z) : bool := (lo <=? z)%Z.
Definition in_range (lo hi z : Z) : bool := ((lo <=? z) && (z <=? hi))%Z.

(** Field validation: the name of a field is reported when it is refused. *)
Definition require_fields (fields : list (string * bool)) : result unit :=
  mfold (fun _ f => raise_if (negb f.2) (ValueError f.1)) tt fields.

Definition hex_char (c : ascii) : bool :=
  let n := nat_of_ascii c in
  (Nat.leb 48 n && Nat.leb n 57) || (Nat.leb 65 n && Nat.leb n 70) || (Nat.leb 97 n && Nat.leb n 102).

Definition digest_of (prefix : string) (digits : nat) (s : string) : bool :=
  let p := Stdlib.Strings.String.list_ascii_of_string prefix in
  let l := Stdlib.Strings.String.list_ascii_of_string s in
  bool_decide (take (length p) l = p) && forallb hex_char (drop (length p) l)
  && Nat.eqb (length (drop (length p) l)) digits.

(** [PrefixedDigestString]. *)
Definition prefixed_digest (s : string) : bool :=
  digest_of "sha256:" 64 s || digest_of "sha384:" 96 s || digest_of "sha512:" 128 s || digest_of "blake3:" 64 s.

Lemma require_fields_Ok fields u :
  require_fields fields = Ok u <-> Forall (fun f => f.2 = true) fields.
Proof.
  destruct u. unfold require_fields. induction fields as [|[n b] fields IH]; simpl; [by split|].
  destruct b; simpl; [rewrite IH|]; rewrite Forall_cons; naive_solver.
Qed.

Lemma nonempty_true s : nonempty s = true <-> s <> "".
Proof. apply bool_decide_eq_true. Qed.

Lemma at_least_true lo z : at_least lo z = true <-> (lo <= z)%Z.
Proof. apply Z.leb_le. Qed.

Lemma in_range_true lo hi z : in_range lo hi z = true <-> (lo <= z <= hi)%Z.
Proof. unfold in_range. rewrite andb_true_iff, !Z.leb_le. done. Qed.

Lemma bool_decide_not_false (P : Prop) `{Decision P} : bool_decide (~ P) = false <-> P.
Proof. rewrite bool_decide_eq_false. destruct (decide P); naive_solver. Qed.

Lemma bool_decide_ne {A} `{EqDecision A} (x : A) : bool_decide (x <> x) = false.
Proof. apply bool_decide_eq_false. tauto. Qed.

Lemma mjoin_nil {A} (ls : list (list A)) : mjoin ls = [] <-> forall l, l ∈ ls -> l = [].
Proof.
  induction ls as [|l ls IH]; simpl; [split; [by intros _ ? ?%not_elem_of_nil|done]|].
  rewrite app_nil, IH. split; [intros [-> H] y [->|Hy]%elem_of_cons; auto|].
  intros H. split; [apply H; left|]. intros y Hy. apply H. by right.
Qed.

(** ** Outcomes of checks *)

(** A check that returns exactly when [P] holds, and refuses with a
    [ValueError] otherwise. *)
Definition checks {A} (m : result A) (P : Prop) (a : A) : Prop :=
  (P /\ m = Ok a) \/ (~ P /\ exists message, m = Raise (ValueError message)).

Lemma checks_iff {A} (m : result A) P Q a : (P <-> Q) -> checks m P a -> checks m Q a.
Proof. intros H [[? ?]|[? ?]]; [left|right]; tauto. Qed.

Lemma checks_raise_if (b : bool) (message : string) :
  checks (raise_if b (ValueError message)) (b = false) tt.
Proof. destruct b; [right|left]; split; try done; by eexists. Qed.

Lemma checks_bind {A B} (m : result A) (k : A -> result B) P Q a b :
  checks m P a -> (P -> checks (k a) Q b) -> (Q -> P) -> checks (m ≫= k) Q b.
Proof.
  intros [[HP ->]|[HP [msg ->]]] Hk HQ; [by apply Hk|]. right. split; [tauto|]. by exists msg.
Qed.

Lemma checks_and {A} (m : result unit) (k : unit -> result A) P Q a :
  checks m P tt -> (P -> checks (k tt) Q a) -> checks (m ≫= k) (P /\ Q) a.
Proof.
  intros [[HP ->]|[HP [msg ->]]] Hk; [|right; split; [tauto|by exists msg]].
  cbn [mbind result_bind]. destruct (Hk HP) as [[? ?]|[? ?]]; [left|right]; tauto.
Qed.

Lemma checks_fold {A} (f : unit -> A -> result unit) (P : A -> Prop) l :
  (forall x, x ∈ l -> checks (f tt x) (P x) tt) ->
  checks (mfold f tt l) (forall x, x ∈ l -> P x) tt.
Proof.
  induction l as [|x l IH]; intros H; [left; split; [by intros ? ?%not_elem_of_nil|done]|].
  eapply checks_iff; [|apply checks_and with (P := P x) (Q := forall y, y ∈ l -> P y)]; [set_solver| |].
  - apply H. left.
  - intros _. apply IH. intros y Hy. apply H. by right.
Qed.

Lemma checks_Ok {A} (m : result A) P a : checks m P a -> P -> m = Ok a.
Proof. intros [[_ ->]|[? _]]; done. Qed.

Lemma checks_ret {A} (a : A) : checks (Ok a) True a.
Proof. by left. Qed.

Lemma checks_require_fields fields : checks (require_fields fields) (Forall (fun f => f.2 = true) fields) tt.
Proof.
  unfold require_fields. induction fields as [|[n b] fields IH]; [by left|]. cbn [mfold]. destruct b; cbn [negb raise_if].
  - eapply checks_iff; [|exact IH]. rewrite Forall_cons. cbn [snd]. tauto.
  - right. split; [rewrite Forall_cons; cbn [snd]; naive_solver|]. by eexists.
Qed.

(** A model without a validator checks its fields only. *)
Lemma checks_fields {A} fields (a : A) P :
  (Forall (fun f => f.2 = true) fields <-> P) -> checks (_ ← require_fields fields; Ok a) P a.
Proof.
  intros HP. eapply checks_iff; [|apply checks_and; [apply checks_require_fields|intros _; apply checks_ret]]. rewrite HP. tauto.
Qed.

Lemma checks_refused {A} (m : result A) P a : checks m P a -> ~ P -> exists message, m = Raise (ValueError message).
Proof. intros [[? _]|[_ ?]]; [done|auto]. Qed.
