(* ===== verification/Diagnostics.v ===== *)
(** Diagnostics and their portable contract ([raes_contracts/diagnostics.py]). *)
From S2P Require Import Prelude.
From S2P Require Import Contracts.
From Stdlib Require Import Ascii.
Local Open Scope string_scope.
Local Open Scope list_scope.

Inductive Severity : Type := ERROR | WARNING | INFO.
#[export] Instance Severity_eq_dec : EqDecision Severity.
Proof. solve_decision. Defined.

Record Diagnostic : Type := Diag {
  diag_code : string;
  diag_domain : string;
  diag_address : string;
  diag_message : string;
  diag_severity : Severity;
}.
#[export] Instance Diagnostic_eq_dec : EqDecision Diagnostic.
Proof. solve_decision. Defined.

Definition is_error (d : Diagnostic) : bool := bool_decide (diag_severity d = ERROR).

(** The closed model has the same fields, constrained. *)
Record DiagnosticModel : Type := DiagModel {
  dm_code : string;
  dm_domain : string;
  dm_address : string;
  dm_message : string;
  dm_severity : Severity;
}.
#[export] Instance DiagnosticModel_eq_dec : EqDecision DiagnosticModel.
Proof. solve_decision. Defined.

Definition word_char (c : ascii) : bool := lower_char c || digit_char c.

(** Nonempty words between separators. *)
Definition words_between (sep : ascii) (s : list ascii) : bool :=
  forallb (fun w => negb (bool_decide (w = [])) && forallb word_char w) (split_on sep s).

(** Words of lower-case letters and digits, separated by dots and hyphens. *)
Definition diagnostic_code_ok (s : string) : bool :=
  words_between "."%char ((fun c => if Ascii.eqb c "-"%char then "."%char else c) <$> chars s).

(** The same with hyphens only. *)
Definition diagnostic_domain_ok (s : string) : bool := words_between "-"%char (chars s).

(** Every tilde starts one of the two escapes. *)
Fixpoint tildes_escaped (s : list ascii) : bool :=
  match s with
  | [] => true
  | c :: s' =>
      if Ascii.eqb c "~"%char then
        match s' with
        | e :: s'' => (Ascii.eqb e "0"%char || Ascii.eqb e "1"%char) && tildes_escaped s''
        | [] => false
        end
      else tildes_escaped s'
  end.

(** The JSON-Pointer pattern: empty, or tokens that each follow a slash. *)
Definition json_pointer_ok (s : string) : bool :=
  match chars s with
  | [] => true
  | c :: _ => Ascii.eqb c "/"%char && tildes_escaped (chars s)
  end.

Definition max_length (n : nat) (s : string) : bool := Nat.leb (String.length s) n.

Definition validate_diagnostic_model (d : DiagnosticModel) : result DiagnosticModel :=
  _ ← require_fields
    [("code", diagnostic_code_ok (dm_code d) && max_length 128 (dm_code d));
     ("domain", diagnostic_domain_ok (dm_domain d) && max_length 64 (dm_domain d));
     ("address", json_pointer_ok (dm_address d) && max_length 4096 (dm_address d));
     ("message", nonempty (dm_message d) && max_length 512 (dm_message d))];
  Ok d.

Definition diagnostic_model (d : Diagnostic) : result DiagnosticModel :=
  validate_diagnostic_model
    (DiagModel (diag_code d) (diag_domain d) (diag_address d) (diag_message d) (diag_severity d)).

(** [s.replace("~", "~0").replace("/", "~1")]. *)
Definition escape_pointer (s : string) : string :=
  replace_char "/"%char "~1" (replace_char "~"%char "~0" s).

(** An address outside the grammar is kept as one escaped pointer token. *)
Definition portable_diagnostic_payload (d : Diagnostic) : result DiagnosticModel :=
  match diagnostic_model d with
  | Raise (ValueError _) =>
      let pointer := if bool_decide (diag_address d = "") then "" else "/" +:+ escape_pointer (diag_address d) in
      diagnostic_model (Diag (diag_code d) (diag_domain d) pointer (diag_message d) (diag_severity d))
  | r => r
  end.

(** ** Escaped pointer tokens *)

Lemma chars_replace_char c by_ s :
  chars (replace_char c by_ s) = flat_map (fun x => if Ascii.eqb x c then chars by_ else [x]) (chars s).
Proof. apply String.list_ascii_of_string_of_list_ascii. Qed.

Definition escape_char (x : ascii) : list ascii :=
  if Ascii.eqb x "~"%char then ["~"; "0"]%char else if Ascii.eqb x "/"%char then ["~"; "1"]%char else [x].

Lemma flat_map_flat_map {A B C} (f : A -> list B) (g : B -> list C) l :
  flat_map g (flat_map f l) = flat_map (fun x => flat_map g (f x)) l.
Proof. induction l as [|x l IH]; simpl; [done|]. by rewrite flat_map_app, IH. Qed.

Lemma chars_escape_pointer s : chars (escape_pointer s) = flat_map escape_char (chars s).
Proof.
  unfold escape_pointer. rewrite !chars_replace_char, flat_map_flat_map. apply flat_map_ext. intros x.
  unfold escape_char. destruct (Ascii.eqb x "~"%char); [done|]. cbn [flat_map app].
  by destruct (Ascii.eqb x "/"%char).
Qed.

Lemma escape_char_cases x : escape_char x = ["~"; "0"]%char \/ escape_char x = ["~"; "1"]%char \/
  (escape_char x = [x] /\ x <> "~"%char /\ x <> "/"%char).
Proof.
  unfold escape_char. destruct (Ascii.eqb x "~"%char) eqn:E1; [by left|].
  destruct (Ascii.eqb x "/"%char) eqn:E2; [by right; left|]. right; right.
  apply Ascii.eqb_neq in E1, E2. done.
Qed.

Lemma tildes_escaped_escape l rest : tildes_escaped (flat_map escape_char l ++ rest) = tildes_escaped rest.
Proof.
  induction l as [|x l IH]; [done|]. cbn [flat_map].
  destruct (escape_char_cases x) as [-> |[-> |(-> & Hx & _)]]; cbn [app tildes_escaped]; [exact IH|exact IH|].
  by rewrite (proj2 (Ascii.eqb_neq x "~"%char) Hx).
Qed.

Lemma escape_no_slash l : "/"%char ∉ flat_map escape_char l.
Proof.
  induction l as [|x l IH]; [by intros ?%not_elem_of_nil|]. cbn [flat_map]. rewrite elem_of_app. intros [H|H]; [|done].
  destruct (escape_char_cases x) as [E|[E|(E & _ & Hx)]]; rewrite E in H; rewrite !elem_of_cons, elem_of_nil in H; naive_solver.
Qed.

(** An escaped token ends a pointer. *)
Lemma json_pointer_token s : json_pointer_ok ("/" +:+ escape_pointer s) = true.
Proof.
  unfold json_pointer_ok. rewrite chars_app, chars_escape_pointer.
  change (chars "/") with ["/"%char]. cbn [app tildes_escaped].
  change (Ascii.eqb "/" "/") with true. change (Ascii.eqb "/" "~") with false. cbn [andb].
  rewrite <-(app_nil_r (flat_map _ _)). by rewrite tildes_escaped_escape.
Qed.

(** [s.replace("~1", "/")] and [s.replace("~0", "~")]. *)
Definition unescape_slash (s : list ascii) : list ascii := replace_pair "~"%char "1"%char ["/"%char] s.
Definition unescape_tilde (s : list ascii) : list ascii := replace_pair "~"%char "0"%char ["~"%char] s.

Lemma replace_pair_skip a b by_ x s : x <> a -> replace_pair a b by_ (x :: s) = x :: replace_pair a b by_ s.
Proof. intros Hx. destruct s as [|y s]; [done|]. cbn [replace_pair]. by rewrite (proj2 (Ascii.eqb_neq x a) Hx). Qed.

Lemma unescape_escape l : unescape_tilde (unescape_slash (flat_map escape_char l)) = l.
Proof.
  unfold unescape_tilde, unescape_slash.
  assert (replace_pair "~"%char "1"%char ["/"%char] (flat_map escape_char l) =
    flat_map (fun x => if Ascii.eqb x "~"%char then ["~"; "0"]%char else [x]) l) as ->.
  { induction l as [|x l IH]; [done|]. cbn [flat_map]. unfold escape_char at 1.
    destruct (Ascii.eqb x "~"%char) eqn:E1; [|destruct (Ascii.eqb x "/"%char) eqn:E2]; cbn [app].
    - rewrite <-IH, <-replace_pair_skip by done. done.
    - apply Ascii.eqb_eq in E2 as ->. rewrite <-IH. done.
    - apply Ascii.eqb_neq in E1. by rewrite replace_pair_skip, IH. }
  induction l as [|x l IH]; [done|]. cbn [flat_map]. destruct (Ascii.eqb x "~"%char) eqn:E1; cbn [app].
  - apply Ascii.eqb_eq in E1 as ->. rewrite <-IH at 2. done.
  - apply Ascii.eqb_neq in E1. by rewrite replace_pair_skip, IH.
Qed.

Lemma length_escape l : length (flat_map escape_char l) <= 2 * length l.
Proof.
  induction l as [|x l IH]; [done|]. cbn [flat_map length]. rewrite length_app.
  destruct (escape_char_cases x) as [-> |[-> |(-> & _)]]; simpl; lia.
Qed.
