(* ===== verification/Addressing.v ===== *)
(** Compiled addresses ([raes_contracts/addressing.py]): the canonical
    dotted names of planned resources and snapshot entries. *)
From S2P Require Import Prelude.
From Stdlib Require Import Ascii.
Local Open Scope string_scope.
Local Open Scope list_scope.

Definition COMPILED_ADDRESS_MAX_LENGTH : nat := 2048.

Section segments.
Local Open Scope nat_scope.

Definition ascii_in (lo hi : nat) (c : ascii) : bool :=
  (lo <=? nat_of_ascii c) && (nat_of_ascii c <=? hi).

(** [[a-z0-9]]. *)
Definition segment_head (c : ascii) : bool :=
  ascii_in 97 122 c || ascii_in 48 57 c.

(** [[a-z0-9_-]]. *)
Definition segment_tail (c : ascii) : bool :=
  segment_head c || (nat_of_ascii c =? 95) || (nat_of_ascii c =? 45).
End segments.

(** [_ADDRESS_SEGMENT]: a lower-case head, at most 63 tail characters, or
    the reserved name [__private]. *)
Definition address_segment_ok (s : list ascii) : bool :=
  match s with
  | [] => false
  | c :: cs =>
      (segment_head c && forallb segment_tail cs && (Nat.leb (List.length cs) 63))
      || bool_decide (s = Stdlib.Strings.String.list_ascii_of_string "__private")
  end.

(** The segments between the dots. *)
Definition split_dots (s : list ascii) : list (list ascii) := split_on "."%char s.

(** [_COMPILED_ADDRESS_RE.fullmatch] together with the length bound: two or
    more segments. *)
Definition compiled_address_ok (s : string) : bool :=
  let segs := split_dots (Stdlib.Strings.String.list_ascii_of_string s) in
  Nat.leb (Stdlib.Strings.String.length s) COMPILED_ADDRESS_MAX_LENGTH
  && Nat.leb 2 (List.length segs)
  && forallb address_segment_ok segs.

Definition require_compiled_address (field_name value : string) : result string :=
  if compiled_address_ok value then Ok value
  else Raise (ValueError (field_name +:+ " must be a canonical compiled address")).

(** [".".join(part for part in parts if part)]. *)
Fixpoint join_dots (parts : list string) : string :=
  match parts with
  | [] => ""
  | [p] => p
  | p :: parts => p +:+ "." +:+ join_dots parts
  end.

Definition render_compiled_address (parts : list string) : result string :=
  require_compiled_address "address" (join_dots (base.filter (fun p => p <> "") parts)).

(** All the addresses of a list are canonical. *)
Definition addresses_ok (l : list string) : Prop :=
  Forall (fun a => compiled_address_ok a = true) l.

Lemma require_compiled_address_Ok f v a :
  require_compiled_address f v = Ok a <-> a = v /\ compiled_address_ok v = true.
Proof. unfold require_compiled_address. destruct (compiled_address_ok v); naive_solver. Qed.

Lemma addresses_ok_perm l1 l2 : l1 ≡ₚ l2 -> addresses_ok l1 <-> addresses_ok l2.
Proof. intros HP. unfold addresses_ok. by rewrite HP. Qed.

Lemma addresses_ok_subset l1 l2 : l1 ⊆ l2 -> addresses_ok l2 -> addresses_ok l1.
Proof. unfold addresses_ok. rewrite !Forall_forall. set_solver. Qed.

#[export] Hint Resolve addresses_ok_subset : raes.

Example address_valid : compiled_address_ok "provision.node.web-1" = true.
Proof. vm_compute. reflexivity. Qed.
Example address_one_segment : compiled_address_ok "provision" = false.
Proof. vm_compute. reflexivity. Qed.
Example address_private : compiled_address_ok "provision.__private.web" = true.
Proof. vm_compute. reflexivity. Qed.
Example address_upper : compiled_address_ok "provision.Web" = false.
Proof. vm_compute. reflexivity. Qed.
