(* ===== verification/Sha256.v ===== *)
(** The standard library's [hashlib.sha256] on 32-bit words, as the code composes
    it into content identities, and the shape of its hexadecimal output. *)
From S2P Require Import Prelude.
From Stdlib Require Import Ascii.
Local Open Scope list_scope.
Local Open Scope Z_scope.

(** * SHA-256 *)

(** 32-bit words as integers, with their wrap-around. *)
Definition word_mask : Z := 2 ^ 32 - 1.
Definition wadd (a b : Z) : Z := Z.land (a + b) word_mask.
Definition rotr (n x : Z) : Z :=
  Z.lor (Z.shiftr x n) (Z.land (Z.shiftl x (32 - n)) word_mask).
Definition wnot (x : Z) : Z := Z.lxor x word_mask.

(** The constants of the standard: the first 32 bits of the fractional parts of
    the cube roots of the first 64 primes and of the square roots of the first
    eight. The root of [n] is built bit by bit, from the highest of [bits]. *)
Fixpoint integer_root (exponent : Z) (bits : nat) (n root : Z) : Z :=
  match bits with
  | O => root
  | S bits =>
      let wider := root + 2 ^ Z.of_nat bits in
      integer_root exponent bits n (if wider ^ exponent <=? n then wider else root)
  end.

Definition fractional_root (exponent p : Z) : Z :=
  Z.land (integer_root exponent 36 (p * 2 ^ (32 * exponent)) 0) word_mask.

Definition primes_from (count : nat) (first : Z) : list Z :=
  base.filter (fun p => Forall (fun d => p mod Z.of_nat d <> 0) (seq 2 (Z.to_nat p - 2)))
    (Z.add first <$> (Z.of_nat <$> seq 0 count)).

(** The 64 primes below 312. *)
Definition sha_primes : list Z := Eval vm_compute in primes_from 310 2.

Definition sha_k : list Z := Eval vm_compute in fractional_root 3 <$> sha_primes.

Definition sha_init : list Z := Eval vm_compute in fractional_root 2 <$> take 8 sha_primes.

Definition small_sigma0 (x : Z) : Z := Z.lxor (rotr 7 x) (Z.lxor (rotr 18 x) (Z.shiftr x 3)).
Definition small_sigma1 (x : Z) : Z := Z.lxor (rotr 17 x) (Z.lxor (rotr 19 x) (Z.shiftr x 10)).
Definition big_sigma0 (x : Z) : Z := Z.lxor (rotr 2 x) (Z.lxor (rotr 13 x) (rotr 22 x)).
Definition big_sigma1 (x : Z) : Z := Z.lxor (rotr 6 x) (Z.lxor (rotr 11 x) (rotr 25 x)).
Definition choose (e f g : Z) : Z := Z.lxor (Z.land e f) (Z.land (wnot e) g).
Definition majority (a b c : Z) : Z := Z.lxor (Z.land a b) (Z.lxor (Z.land a c) (Z.land b c)).

(** The message schedule, newest word first. *)
Fixpoint extend_schedule (n : nat) (w : list Z) : list Z :=
  match n with
  | O => w
  | S n =>
      let at_ i := nth i w 0 in
      extend_schedule n
        (wadd (wadd (small_sigma1 (at_ 1%nat)) (at_ 6%nat)) (wadd (small_sigma0 (at_ 14%nat)) (at_ 15%nat)) :: w)
  end.

Definition sha_round (st : list Z) (kw : Z * Z) : list Z :=
  match st with
  | [a; b; c; d; e; f; g; h] =>
      let t1 := wadd (wadd h (big_sigma1 e)) (wadd (choose e f g) (wadd kw.1 kw.2)) in
      let t2 := wadd (big_sigma0 a) (majority a b c) in
      [wadd t1 t2; a; b; c; wadd d t1; e; f; g]
  | _ => st
  end.

(** One compression: 64 rounds over a block of 16 words. *)
Definition compress (st block : list Z) : list Z :=
  zip_with wadd st (foldl sha_round st (zip sha_k (rev (extend_schedule 48 (rev block))))).

Fixpoint be_word (bytes : list Z) : Z :=
  match bytes with
  | [] => 0
  | b :: bytes => b * 256 ^ Z.of_nat (length bytes) + be_word bytes
  end.

Fixpoint words (n : nat) (bytes : list Z) : list Z :=
  match n with
  | O => []
  | S n => be_word (take 4 bytes) :: words n (drop 4 bytes)
  end.

Fixpoint blocks (n : nat) (bytes : list Z) : list (list Z) :=
  match n with
  | O => []
  | S n => words 16 (take 64 bytes) :: blocks n (drop 64 bytes)
  end.

Fixpoint be_bytes (n : nat) (z : Z) : list Z :=
  match n with
  | O => []
  | S n => be_bytes n (Z.shiftr z 8) ++ [Z.land z 255]
  end.

(** [0x80], zeros up to 56 modulo 64, then the bit length on 8 bytes. *)
Definition sha_pad (bytes : list Z) : list Z :=
  let len := Z.of_nat (length bytes) in
  bytes ++ [128] ++ repeat 0 (Z.to_nat ((55 - len) mod 64)) ++ be_bytes 8 (8 * len).

Definition sha256_words (bytes : list Z) : list Z :=
  let padded := sha_pad bytes in
  foldl compress sha_init (blocks (length padded / 64)%nat padded).

Definition hex_digit (d : Z) : ascii := ascii_of_nat (Z.to_nat (if d <? 10 then 48 + d else 87 + d)).

Definition hex_of_bytes (bytes : list Z) : string :=
  String.string_of_list_ascii (flat_map (fun b => [hex_digit (b / 16); hex_digit (b mod 16)]) bytes).

(** The bytes of an ASCII string, which are its UTF-8 encoding. *)
Definition bytes_of_string (s : string) : list Z :=
  (fun c => Z.of_nat (nat_of_ascii c)) <$> String.list_ascii_of_string s.

(** [hashlib.sha256(bytes).hexdigest()]. *)
Definition hexdigest (bytes : list Z) : string := hex_of_bytes (flat_map (be_bytes 4) (sha256_words bytes)).

(** [hashlib.sha256(s.encode("utf-8")).hexdigest()]. *)
Definition sha256_hex (s : string) : string := hexdigest (bytes_of_string s).

Example sha256_empty : sha256_hex "" = "e3b0c44298fc1c149afbf4c8996fb92427ae41e4649b934ca495991b7852b855".
Proof. vm_compute. reflexivity. Qed.
Example sha256_abc : sha256_hex "abc" = "ba7816bf8f01cfea414140de5dae2223b00361a396177a9cb410ff61f20015ad".
Proof. vm_compute. reflexivity. Qed.
Example sha256_two_blocks :
  sha256_hex "abcdbcdecdefdefgefghfghighijhijkijkljklmklmnlmnomnopnopq" =
    "248d6a61d20638b8e5c026930c3e6039a33ce45964ff2167f6ecedd419db06c1".
Proof. vm_compute. reflexivity. Qed.

(** * [json.dumps] of strings *)

(** The double quote. *)
Definition quote : ascii := ascii_of_nat 34.

(** The escape of a character under [ensure_ascii]: two-character escapes,
    printable ASCII as it is, [\u00XX] otherwise. *)
Definition json_escape (c : ascii) : list ascii :=
  let n := Z.of_nat (nat_of_ascii c) in
  if n =? 34 then ["\"%char; quote]
  else if n =? 92 then ["\"; "\"]%char
  else if n =? 10 then ["\"; "n"]%char
  else if n =? 13 then ["\"; "r"]%char
  else if n =? 9 then ["\"; "t"]%char
  else if n =? 12 then ["\"; "f"]%char
  else if n =? 8 then ["\"; "b"]%char
  else if (32 <=? n) && (n <=? 126) then [c]
  else ["\"; "u"; "0"; "0"; hex_digit (n / 16); hex_digit (n mod 16)]%char.

Definition json_string (s : string) : list ascii :=
  quote :: flat_map json_escape (String.list_ascii_of_string s) ++ [quote].

Fixpoint json_elements (l : list string) : list ascii :=
  match l with
  | [] => []
  | [s] => json_string s
  | s :: l => json_string s ++ ","%char :: json_elements l
  end.

(** [json.dumps(l, separators=(",", ":"))] of a tuple of strings. *)
Definition json_strings (l : list string) : string :=
  String.string_of_list_ascii ("["%char :: json_elements l ++ ["]"%char]).

Local Close Scope Z_scope.

(** Reading one escaped character back. *)
Definition hex_value (c : ascii) : nat :=
  let n := nat_of_ascii c in if Nat.ltb n 58 then n - 48 else n - 87.

Definition json_unescape (l : list ascii) : option (ascii * list ascii) :=
  match l with
  | [] => None
  | c :: l =>
      if Ascii.eqb c "\"%char then
        match l with
        | "n"%char :: l => Some (ascii_of_nat 10, l)
        | "r"%char :: l => Some (ascii_of_nat 13, l)
        | "t"%char :: l => Some (ascii_of_nat 9, l)
        | "f"%char :: l => Some (ascii_of_nat 12, l)
        | "b"%char :: l => Some (ascii_of_nat 8, l)
        | "u"%char :: _ :: _ :: h :: d :: l => Some (ascii_of_nat (16 * hex_value h + hex_value d), l)
        | c :: l => Some (c, l)
        | [] => None
        end
      else Some (c, l)
  end.

Lemma json_unescape_escape c r : json_unescape (json_escape c ++ r) = Some (c, r).
Proof. destruct c as [[] [] [] [] [] [] [] []]; reflexivity. Qed.

Lemma json_escape_inj c1 c2 r1 r2 :
  json_escape c1 ++ r1 = json_escape c2 ++ r2 -> c1 = c2 /\ r1 = r2.
Proof. intros H%(f_equal json_unescape). rewrite !json_unescape_escape in H. by injection H. Qed.

Lemma json_escape_head c : exists x e, json_escape c = x :: e /\ x <> quote.
Proof. destruct c as [[] [] [] [] [] [] [] []]; by eexists _, _. Qed.

Lemma json_body_inj s1 : forall s2 r1 r2,
  flat_map json_escape s1 ++ quote :: r1 = flat_map json_escape s2 ++ quote :: r2 -> s1 = s2 /\ r1 = r2.
Proof.
  induction s1 as [|c1 s1 IH]; intros [|c2 s2] r1 r2; cbn [flat_map app].
  - by intros [= ->].
  - destruct (json_escape_head c2) as (x & e & -> & Hx). cbn [app]. by intros [= <-].
  - destruct (json_escape_head c1) as (x & e & -> & Hx). cbn [app]. by intros [= ->].
  - rewrite <-!app_assoc. intros [-> H]%json_escape_inj. by destruct (IH _ _ _ H) as [-> ->].
Qed.

Lemma json_string_inj s1 s2 r1 r2 : json_string s1 ++ r1 = json_string s2 ++ r2 -> s1 = s2 /\ r1 = r2.
Proof.
  unfold json_string. cbn [app]. intros [= H]. rewrite <-!app_assoc in H. cbn [app] in H.
  apply json_body_inj in H as [H ->]. by apply chars_inj in H as ->.
Qed.

Lemma json_elements_cons s l :
  json_elements (s :: l) = json_string s ++ match l with [] => [] | _ => ","%char :: json_elements l end.
Proof. destruct l; simpl; [by rewrite app_nil_r|done]. Qed.

Lemma json_elements_inj l1 : forall l2,
  json_elements l1 ++ ["]"%char] = json_elements l2 ++ ["]"%char] -> l1 = l2.
Proof.
  induction l1 as [|s1 l1 IH]; intros [|s2 l2]; [done|..].
  - rewrite json_elements_cons. unfold json_string. cbn [app json_elements]. intros [=].
  - rewrite json_elements_cons. unfold json_string. cbn [app json_elements]. intros [=].
  - rewrite !json_elements_cons, <-!app_assoc. intros [-> H]%json_string_inj. f_equal.
    destruct l1 as [|t1 l1], l2 as [|t2 l2]; [done|by injection H as|by injection H as|].
    apply IH. by injection H as H.
Qed.

Lemma string_of_list_ascii_inj l1 l2 :
  String.string_of_list_ascii l1 = String.string_of_list_ascii l2 -> l1 = l2.
Proof.
  intros H. by rewrite <-(String.list_ascii_of_string_of_list_ascii l1), H, String.list_ascii_of_string_of_list_ascii.
Qed.

Lemma json_strings_injective l1 l2 : json_strings l1 = json_strings l2 -> l1 = l2.
Proof.
  intros H%string_of_list_ascii_inj. injection H as H. by apply json_elements_inj.
Qed.

(** ** The digest is 64 hexadecimal digits *)

Lemma be_bytes_range n : forall z b, b ∈ be_bytes n z -> (0 <= b < 256)%Z.
Proof.
  induction n as [|n IH]; intros z b; cbn [be_bytes]; [by intros ?%not_elem_of_nil|].
  intros [Hb| ->%list_elem_of_singleton]%elem_of_app; [by eapply IH|].
  change 255%Z with (Z.ones 8). rewrite Z.land_ones by done. apply Z.mod_pos_bound. done.
Qed.

Lemma length_be_bytes n z : length (be_bytes n z) = n.
Proof. revert z; induction n as [|n IH]; intros z; [done|]. cbn [be_bytes]. rewrite length_app, IH. simpl. lia. Qed.

Lemma length_sha_round st kw : length st = 8 -> length (sha_round st kw) = 8.
Proof.
  intros H. do 8 (destruct st as [|? st]; [done|]). by destruct st.
Qed.

Lemma length_compress st block : length st = 8 -> length (compress st block) = 8.
Proof.
  intros H. unfold compress. rewrite length_zip_with, H.
  assert (forall l st, length st = 8 -> length (foldl sha_round st l) = 8) as Hf; [|by rewrite Hf].
  clear. induction l as [|x l IH]; intros st H; [done|]. by apply IH, length_sha_round.
Qed.

Lemma length_sha256_words bytes : length (sha256_words bytes) = 8.
Proof.
  unfold sha256_words. assert (forall l st, length st = 8 -> length (foldl compress st l) = 8) as Hf; [|by apply Hf].
  induction l as [|x l IH]; intros st H; [done|]. by apply IH, length_compress.
Qed.

Lemma sha256_hex_shape (p : ascii -> bool) s :
  (forall d, (0 <= d < 16)%Z -> p (hex_digit d) = true) ->
  length (chars (sha256_hex s)) = 64 /\ forallb p (chars (sha256_hex s)) = true.
Proof.
  intros Hp. unfold sha256_hex, hexdigest, hex_of_bytes. rewrite String.list_ascii_of_string_of_list_ascii.
  set (bytes := flat_map (be_bytes 4) _).
  assert (length bytes = 32) as Hlen.
  { unfold bytes. assert (forall l, length (flat_map (be_bytes 4) l) = 4 * length l) as ->; [|by rewrite length_sha256_words].
    induction l as [|x l IH]; [done|]. cbn [flat_map length]. rewrite length_app, length_be_bytes, IH. lia. }
  assert (forall b, b ∈ bytes -> (0 <= b < 256)%Z) as Hrange.
  { intros b Hb. unfold bytes in Hb. apply list_elem_of_In, in_flat_map in Hb as (w & _ & Hb).
    apply list_elem_of_In in Hb. by eapply be_bytes_range. }
  clearbody bytes. rewrite <-(Nat.mul_comm 32 2) at 1. split.
  - rewrite <-Hlen. clear. induction bytes as [|b l IH]; [done|]. cbn [flat_map]. rewrite length_app, IH. simpl. lia.
  - clear Hlen. induction bytes as [|b l IH]; [done|]. cbn [flat_map app forallb].
    assert (0 <= b < 256)%Z as Hb by (apply Hrange; left).
    rewrite !Hp by (try apply Z.mod_pos_bound; try split; try apply Z.div_pos; try apply Z.div_lt_upper_bound; lia).
    apply IH. intros x Hx. apply Hrange. by right.
Qed.
