(* ===== verification/RandomStream.v ===== *)
(** Controlled random streams: the closed addresses, seeds and draw records
    ([raes_contracts/contracts/random_stream.py]) and the stateless engine
    ([raes_contracts/random_stream_engine.py]). The BLAKE3 and JCS packages are
    parameters; bytes are integers below 256. *)
From S2P Require Import Prelude.
From S2P Require Import Contracts.
From S2P Require Import Diagnostics.
From stdpp Require Import pretty.
From Stdlib Require Import Ascii QArith.
Local Open Scope string_scope.
Local Open Scope list_scope.
Local Open Scope Z_scope.

(** ** Packages *)

(** The payloads that are canonicalized. *)
Inductive json : Type :=
| JBoolean (b : bool)
| JNumber (q : Q)
| JString (s : string)
| JInteger (z : Z)
| JObject (fields : list (string * json)).

(** [rfc8785.dumps] may refuse a payload; a keyed digest may refuse its key, its
    length or its position. *)
Class RandomPackages : Type := {
  rfc8785_dumps : json -> option (list Z);
  blake3_derive_key : string -> list Z -> list Z;
  blake3_keyed_digest : list Z -> list Z -> Z -> Z -> result (list Z);
}.

(** ** Addresses *)

(** The portable identifiers of [raes/_identifiers.py]. *)
Definition identifier_head (c : ascii) : bool := lower_char c || digit_char c.
Definition identifier_tail (c : ascii) : bool := identifier_head c || Ascii.eqb c "_"%char || Ascii.eqb c "-"%char.
Definition is_portable_identifier (s : string) : bool :=
  match chars s with
  | [] => false
  | c :: tail => identifier_head c && forallb identifier_tail tail && Nat.leb (length tail) 63
  end.
Definition optional_identifier (o : option string) : bool := match o with None => true | Some s => is_portable_identifier s end.

Record TrialCoordinateModel : Type := TrialCoordinate {
  condition_id : option string;
  block_id : option string;
  replicate_id : option string;
}.
#[export] Instance TrialCoordinateModel_eq_dec : EqDecision TrialCoordinateModel.
Proof. solve_decision. Defined.

Definition validate_trial_coordinate (c : TrialCoordinateModel) : result TrialCoordinateModel :=
  _ ← require_fields
    [("condition_id", optional_identifier (condition_id c)); ("block_id", optional_identifier (block_id c));
     ("replicate_id", optional_identifier (replicate_id c))];
  Ok c.

(** The closed vocabulary [random-stream-draw-purposes]. *)
Definition draw_purposes : list string :=
  ["condition-assignment"; "sampling-selection"; "scheduler-tiebreak"; "agent-policy"; "observation-noise"; "other"].
Definition validate_draw_purpose (purpose : string) : result unit :=
  raise_if (bool_decide (purpose ∉ draw_purposes))
    (ValueError ("controlled vocabulary 'random-stream-draw-purposes' does not allow extensions; '" +:+ purpose
       +:+ "' is not a permitted term")).

Record StreamAddressModel : Type := StreamAddress {
  sa_namespace : string;
  sa_trial_coordinate : TrialCoordinateModel;
  sa_selection_policy_id : string;
  sa_variation_point_id : string;
  sa_draw_purpose : string;
  sa_local_coordinate : Z;
}.
#[export] Instance StreamAddressModel_eq_dec : EqDecision StreamAddressModel.
Proof. solve_decision. Defined.

Definition validate_stream_address (a : StreamAddressModel) : result StreamAddressModel :=
  _ ← require_fields
    [("namespace", is_portable_identifier (sa_namespace a));
     ("selection_policy_id", is_portable_identifier (sa_selection_policy_id a));
     ("variation_point_id", is_portable_identifier (sa_variation_point_id a));
     ("draw_purpose", is_portable_identifier (sa_draw_purpose a));
     ("local_coordinate", at_least 0 (sa_local_coordinate a))];
  _ ← validate_draw_purpose (sa_draw_purpose a);
  Ok a.

Record ParticipantStreamAddressModel : Type := ParticipantStreamAddress {
  pa_namespace : string;
  pa_policy_address : string;
  pa_participant_address : string;
  pa_time_segment : Z;
  pa_occurrence_ordinal : Z;
  pa_draw_purpose : string;
  pa_local_coordinate : Z;
}.

Definition starts_with (prefix s : string) : bool := bool_decide (take (length (chars prefix)) (chars s) = chars prefix).

Definition validate_participant_stream_address (a : ParticipantStreamAddressModel) : result ParticipantStreamAddressModel :=
  _ ← require_fields
    [("namespace", is_portable_identifier (pa_namespace a));
     ("policy_address", nonempty (pa_policy_address a));
     ("participant_address", nonempty (pa_participant_address a));
     ("time_segment", at_least 0 (pa_time_segment a));
     ("occurrence_ordinal", at_least 0 (pa_occurrence_ordinal a));
     ("draw_purpose", is_portable_identifier (pa_draw_purpose a));
     ("local_coordinate", at_least 0 (pa_local_coordinate a))];
  _ ← validate_draw_purpose (pa_draw_purpose a);
  _ ← raise_if (negb (starts_with "participant.autonomous-execution." (pa_policy_address a)))
    (ValueError "participant stream policy_address must be a compiled autonomous-execution address");
  _ ← raise_if (negb (starts_with "participant.behavior." (pa_participant_address a)))
    (ValueError "participant stream participant_address must be a compiled participant address");
  Ok a.

(** The two kinds of address the engine draws at. *)
Inductive address : Type :=
| TrialAddress (a : StreamAddressModel)
| ParticipantAddress (a : ParticipantStreamAddressModel).

Definition local_coordinate (a : address) : Z :=
  match a with TrialAddress a => sa_local_coordinate a | ParticipantAddress a => pa_local_coordinate a end.

(** [model_dump(mode="json", by_alias=True, exclude_none=True)]. *)
Definition optional_field (name : string) (o : option string) : list (string * json) :=
  match o with None => [] | Some s => [(name, JString s)] end.
Definition coordinate_payload (c : TrialCoordinateModel) : json :=
  JObject (optional_field "condition_id" (condition_id c) ++ optional_field "block_id" (block_id c)
    ++ optional_field "replicate_id" (replicate_id c)).
Definition address_payload (a : address) : json :=
  match a with
  | TrialAddress a => JObject
      [("namespace", JString (sa_namespace a)); ("trial_coordinate", coordinate_payload (sa_trial_coordinate a));
       ("selection_policy_id", JString (sa_selection_policy_id a)); ("variation_point_id", JString (sa_variation_point_id a));
       ("draw_purpose", JString (sa_draw_purpose a)); ("local_coordinate", JInteger (sa_local_coordinate a))]
  | ParticipantAddress a => JObject
      [("namespace", JString (pa_namespace a)); ("policy_address", JString (pa_policy_address a));
       ("participant_address", JString (pa_participant_address a)); ("time_segment", JInteger (pa_time_segment a));
       ("occurrence_ordinal", JInteger (pa_occurrence_ordinal a)); ("draw_purpose", JString (pa_draw_purpose a));
       ("local_coordinate", JInteger (pa_local_coordinate a))]
  end.

(** ** Seeds *)

Definition hex_value (c : ascii) : option Z :=
  let n := Z.of_nat (nat_of_ascii c) in
  if (48 <=? n) && (n <=? 57) then Some (n - 48)
  else if (97 <=? n) && (n <=? 102) then Some (n - 87)
  else if (65 <=? n) && (n <=? 70) then Some (n - 55)
  else None.

Definition ascii_space (c : ascii) : bool :=
  let n := nat_of_ascii c in Nat.eqb n 32 || (Nat.leb 9 n && Nat.leb n 13).

(** [bytes.fromhex]; its message also carries a position. *)
Fixpoint fromhex (l : list ascii) : result (list Z) :=
  match l with
  | [] => Ok []
  | c :: l =>
      if ascii_space c then fromhex l
      else match l with
           | [] => Raise (ValueError "non-hexadecimal number found in fromhex() arg")
           | d :: l =>
               match hex_value c, hex_value d with
               | Some high, Some low => rest ← fromhex l; Ok (16 * high + low :: rest)
               | _, _ => Raise (ValueError "non-hexadecimal number found in fromhex() arg")
               end
           end
  end.

Record PublicSeedModel : Type := PublicSeed { seed_encoding : string; seed_value : string }.

(** Fixed-width lower-case hexadecimal digits. *)
Definition lower_hex (c : ascii) : bool := digit_char c || (Nat.leb 97 (nat_of_ascii c) && Nat.leb (nat_of_ascii c) 102).
Definition PUBLIC_SEED_HEX_LENGTH : nat := 64.
Definition validate_public_seed (s : PublicSeedModel) : result PublicSeedModel :=
  _ ← require_fields
    [("encoding", bool_decide (seed_encoding s = "hex-fixed-width"));
     ("value", Nat.eqb (length (chars (seed_value s))) PUBLIC_SEED_HEX_LENGTH && forallb lower_hex (chars (seed_value s)))];
  Ok s.

(** ** Profiles *)

Definition SUPPORTED_RANDOM_STREAM_PROFILE_IDS : list string := ["blake3-xof-participant-v1"; "blake3-xof-v1"].

Definition unsupported_profile (profile_id : string) : exn :=
  ValueError ("unsupported random stream profile id " +:+ py_repr profile_id +:+ "; supported ids: "
    +:+ String.concat ", " (py_sorted SUPPORTED_RANDOM_STREAM_PROFILE_IDS)).

Definition _require_supported_profile (profile_id : string) : result unit :=
  raise_if (bool_decide (profile_id ∉ SUPPORTED_RANDOM_STREAM_PROFILE_IDS)) (unsupported_profile profile_id).

Definition _validate_random_stream_profile_id (profile_id : string) : result unit :=
  _ ← raise_if (negb (is_portable_identifier profile_id))
    (ValueError ("random stream profile id " +:+ py_repr profile_id +:+ " must be a portable SDL identifier: "
       +:+ "1-64 lowercase ASCII letters, digits, hyphens, or underscores, starting with a letter or digit"));
  raise_if (bool_decide (profile_id ∉ SUPPORTED_RANDOM_STREAM_PROFILE_IDS)) (unsupported_profile profile_id).

(** ** The engine *)

Definition BLOCK_BYTES : Z := 32.
Definition ROOT_ENTROPY_BYTE_LENGTH : Z := 32.
Definition derivation_context (profile_id : string) : string := "raes-random-stream-v1|profile=" +:+ profile_id.

Definition decode_public_seed (seed : PublicSeedModel) : result (list Z) :=
  _ ← raise_if (bool_decide (seed_encoding seed <> "hex-fixed-width"))
    (ValueError ("unsupported public seed encoding " +:+ py_repr (seed_encoding seed) +:+ "; expected 'hex-fixed-width'"));
  raw ← fromhex (chars (seed_value seed));
  _ ← raise_if (negb (Z.of_nat (length raw) =? ROOT_ENTROPY_BYTE_LENGTH))
    (ValueError ("public seed must decode to exactly 32 bytes; got " +:+ pretty (Z.of_nat (length raw))));
  Ok raw.

(** The outcome of one draw. *)
Record BoundedIntegerDraw : Type := Draw {
  value : option Z;
  rejection_attempts : Z;
  rejection_exhausted : bool;
}.

Definition int_from_bytes (bytes : list Z) : Z := foldl (fun acc b => 256 * acc + b) 0 bytes.

(** The least width in bytes, at least one, whose values cover [width]. *)
Fixpoint byte_width_loop (fuel : nat) (width byte_width : Z) : result Z :=
  if 256 ^ byte_width <? width then
    match fuel with
    | O => Raise OutOfFuel
    | S fuel => byte_width_loop fuel width (byte_width + 1)
    end
  else Ok byte_width.
Definition byte_width_fuel (width : Z) : nat := Z.to_nat (Z.log2_up width).
Definition _bounded_integer_byte_width (width : Z) : result Z := byte_width_loop (byte_width_fuel width) width 1.

(** The widest multiple of [width] below [256 ** byte_width]. *)
Definition acceptance_limit (width byte_width : Z) : Z :=
  let ceiling := 256 ^ byte_width in ceiling - ceiling mod width.

Record BoundedIntegerDrawRequest : Type := DrawRequest {
  rq_address : StreamAddressModel;
  rq_minimum : Z;
  rq_maximum : Z;
  rq_max_rejection_attempts : Z;
}.
Record BoundedIntegerBatchResult : Type := BatchResult {
  draws : option (list BoundedIntegerDraw);
  batch_diagnostic : option Diagnostic;
}.

Section engine.
Context `{!RandomPackages}.

Definition derive_stream_key (profile_id : string) (root_entropy : list Z) : result (list Z) :=
  _ ← _require_supported_profile profile_id;
  _ ← raise_if (negb (Z.of_nat (length root_entropy) =? ROOT_ENTROPY_BYTE_LENGTH))
    (ValueError ("root entropy must be exactly 32 bytes; got " +:+ pretty (Z.of_nat (length root_entropy))));
  Ok (blake3_derive_key (derivation_context profile_id) root_entropy).

Definition canonical_stream_address_bytes (a : address) : result (list Z) :=
  match rfc8785_dumps (address_payload a) with
  | Some bytes => Ok bytes
  | None => Raise (ValueError "stream address canonicalization failed")
  end.

Definition raw_block (profile_id : string) (stream_key : list Z) (a : address) (byte_length byte_offset : Z) : result (list Z) :=
  _ ← _require_supported_profile profile_id;
  _ ← raise_if (byte_length <? 1) (ValueError "raw_block byte_length must be positive");
  _ ← raise_if (byte_offset <? 0) (ValueError "raw_block byte_offset must be non-negative");
  address_bytes ← canonical_stream_address_bytes a;
  let seek := local_coordinate a * BLOCK_BYTES + byte_offset in
  blake3_keyed_digest address_bytes stream_key byte_length seek.

(** The [for attempt_index in range(...)] loop of a draw. *)
Fixpoint draw_attempts (remaining : nat) (attempt_index : Z) (profile_id : string) (stream_key : list Z) (a : address)
    (minimum width byte_width : Z) : result BoundedIntegerDraw :=
  match remaining with
  | O => Ok (Draw None attempt_index true)
  | S remaining =>
      chunk ← raw_block profile_id stream_key a byte_width (attempt_index * byte_width);
      let raw_int := int_from_bytes chunk in
      if raw_int <? acceptance_limit width byte_width then
        Ok (Draw (Some (minimum + raw_int mod width)) attempt_index false)
      else draw_attempts remaining (attempt_index + 1) profile_id stream_key a minimum width byte_width
  end.

Definition draw_bounded_integer (profile_id : string) (stream_key : list Z) (a : address)
    (minimum maximum max_rejection_attempts : Z) : result BoundedIntegerDraw :=
  _ ← _require_supported_profile profile_id;
  _ ← raise_if (maximum <? minimum) (ValueError "draw_bounded_integer requires maximum >= minimum");
  _ ← raise_if (max_rejection_attempts <? 1) (ValueError "draw_bounded_integer requires max_rejection_attempts >= 1");
  let width := maximum - minimum + 1 in
  byte_width ← _bounded_integer_byte_width width;
  draw_attempts (Z.to_nat max_rejection_attempts) 0 profile_id stream_key a minimum width byte_width.

(** ** Batches *)

Definition _semantic_coordinate_key (a : StreamAddressModel) :=
  let coordinate := sa_trial_coordinate a in
  (sa_namespace a, condition_id coordinate, block_id coordinate, replicate_id coordinate,
   sa_selection_policy_id a, sa_variation_point_id a, sa_draw_purpose a, sa_local_coordinate a).
Definition semantic_key : Type :=
  string * option string * option string * option string * string * string * string * Z.

Definition _batch_collision_diagnostic (duplicate_semantic_count duplicate_address_bytes_count : Z) : Diagnostic :=
  Diag "random-stream.batch-draw-address-collision" "random-stream" ""
    ("batch draw detected " +:+ pretty duplicate_semantic_count +:+ " duplicate semantic coordinate(s) and "
       +:+ pretty duplicate_address_bytes_count +:+ " duplicate canonical address byte string(s); "
       +:+ "no draws were produced for this batch") ERROR.

(** The two sets of seen keys, each with its count of duplicates. *)
Record BatchScan : Type := Scan {
  seen_semantic : list semantic_key;
  duplicate_semantic_count : Z;
  seen_address_bytes : list (list Z);
  duplicate_address_bytes_count : Z;
}.

Definition note_request (s : BatchScan) (request : BoundedIntegerDrawRequest) : result BatchScan :=
  let key : semantic_key := _semantic_coordinate_key (rq_address request) in
  let semantic_count := duplicate_semantic_count s + (if decide (key ∈ seen_semantic s) then 1 else 0) in
  address_bytes ← canonical_stream_address_bytes (TrialAddress (rq_address request));
  Ok (Scan (key :: seen_semantic s) semantic_count (address_bytes :: seen_address_bytes s)
        (duplicate_address_bytes_count s + (if decide (address_bytes ∈ seen_address_bytes s) then 1 else 0))).

Definition draw_request (profile_id : string) (stream_key : list Z) (request : BoundedIntegerDrawRequest) : result BoundedIntegerDraw :=
  draw_bounded_integer profile_id stream_key (TrialAddress (rq_address request)) (rq_minimum request) (rq_maximum request)
    (rq_max_rejection_attempts request).

Definition draw_bounded_integer_batch (profile_id : string) (stream_key : list Z) (requests : list BoundedIntegerDrawRequest)
    : result BoundedIntegerBatchResult :=
  _ ← _require_supported_profile profile_id;
  s ← mfold note_request (Scan [] 0 [] 0) requests;
  if negb (duplicate_semantic_count s =? 0) || negb (duplicate_address_bytes_count s =? 0) then
    Ok (BatchResult None (Some (_batch_collision_diagnostic (duplicate_semantic_count s) (duplicate_address_bytes_count s))))
  else
    drawn ← mmap (draw_request profile_id stream_key) requests;
    Ok (BatchResult (Some drawn) None).
End engine.

(** ** Draw records *)

(** A sensitive outcome carries a reference only. *)
Inductive RandomDrawOutcomeModel : Type :=
| PublicRandomOutcome (value : string)
| GovernedRandomOutcomeRef (reference_id reference_version : string).

Record RandomStreamDrawRecordModel : Type := DrawRecord {
  dr_control_id : string;
  dr_address : StreamAddressModel;
  dr_transform_id : string;
  dr_transform_version : string;
  dr_local_coordinate : Z;
  dr_outcome : option RandomDrawOutcomeModel;
  dr_rejection_attempts : Z;
  dr_rejection_exhausted : bool;
}.

Definition outcome_fields_ok (o : RandomDrawOutcomeModel) : bool :=
  match o with PublicRandomOutcome v => nonempty v | GovernedRandomOutcomeRef i v => nonempty i && nonempty v end.

Definition validate_draw_record (d : RandomStreamDrawRecordModel) : result RandomStreamDrawRecordModel :=
  _ ← require_fields
    [("control_id", nonempty (dr_control_id d)); ("transform_id", nonempty (dr_transform_id d));
     ("transform_version", nonempty (dr_transform_version d)); ("local_coordinate", at_least 0 (dr_local_coordinate d));
     ("outcome", match dr_outcome d with None => true | Some o => outcome_fields_ok o end);
     ("rejection_attempts", at_least 0 (dr_rejection_attempts d))];
  _ ← raise_if (negb (dr_local_coordinate d =? sa_local_coordinate (dr_address d)))
    (ValueError "stochastic draw record local_coordinate must match address.local_coordinate");
  _ ← raise_if (dr_rejection_exhausted d && bool_decide (is_Some (dr_outcome d)))
    (ValueError "stochastic draw record must omit outcome when rejection_exhausted is true");
  _ ← raise_if (negb (dr_rejection_exhausted d) && bool_decide (dr_outcome d = None))
    (ValueError "stochastic draw record must include outcome when rejection_exhausted is false");
  Ok d.
