(* ===== verification/RandomStreamSpec.v ===== *)
(** What random streams promise: bounded and uniform draws, exact exhaustion,
    batches that collide as a whole, and seeds that read back; with the lemmas on
    the byte width, the attempts of a draw and batches behind it. *)
From S2P Require Import Prelude.
From S2P Require Import Contracts.
From S2P Require Import Diagnostics.
From S2P Require Import Sha256.
From S2P Require Import RandomStream.
Local Open Scope string_scope.
Local Open Scope list_scope.
Local Open Scope Z_scope.

(** What the BLAKE3 package documents: keys and derived keys have 32 bytes, a
    digest can be read at every 64-bit position and has the length asked for. *)
Class Blake3Laws `{!RandomPackages} : Prop := {
  derived_key_length context material : length (blake3_derive_key context material) = 32%nat;
  keyed_digest_bytes data key byte_length seek :
    length key = 32%nat -> 1 <= byte_length -> 0 <= seek < 2 ^ 64 ->
    exists bytes, blake3_keyed_digest data key byte_length seek = Ok bytes /\
      length bytes = Z.to_nat byte_length /\ Forall (fun b => 0 <= b < 256) bytes;
}.

(** ** Byte strings as integers *)

Lemma int_from_bytes_snoc bytes b : int_from_bytes (bytes ++ [b]) = 256 * int_from_bytes bytes + b.
Proof. unfold int_from_bytes. by rewrite foldl_app. Qed.

Lemma int_from_bytes_range bytes :
  Forall (fun b => 0 <= b < 256) bytes -> 0 <= int_from_bytes bytes < 256 ^ Z.of_nat (length bytes).
Proof.
  induction bytes as [|b bytes IH] using rev_ind; [by cbn|]. rewrite Forall_app, Forall_singleton. intros [H Hb].
  rewrite int_from_bytes_snoc, length_app, Nat2Z.inj_add, Z.pow_add_r by lia. specialize (IH H). cbn [length]. lia.
Qed.

(** ** The byte width *)

Definition least_byte_width (width byte_width : Z) : Prop :=
  1 <= byte_width /\ width <= 256 ^ byte_width /\ forall k, 1 <= k < byte_width -> 256 ^ k < width.

Lemma byte_width_loop_run fuel width k :
  1 <= k -> (forall j, 1 <= j < k -> 256 ^ j < width) -> width <= 256 ^ (k + Z.of_nat fuel) ->
  exists byte_width, byte_width_loop fuel width k = Ok byte_width /\ least_byte_width width byte_width.
Proof.
  revert k. induction fuel as [|fuel IH]; intros k Hk Hbelow Hfuel; cbn [byte_width_loop]; destruct (Z.ltb_spec (256 ^ k) width) as [Hlt|Hge].
  - rewrite Z.add_0_r in Hfuel. lia.
  - by exists k.
  - apply IH; [lia| |by replace (k + 1 + Z.of_nat fuel) with (k + Z.of_nat (S fuel)) by lia].
    intros j Hj. destruct (decide (j = k)) as [->|]; [done|]. apply Hbelow. lia.
  - by exists k.
Qed.

Lemma byte_width_run width :
  1 <= width -> exists byte_width, _bounded_integer_byte_width width = Ok byte_width /\ least_byte_width width byte_width.
Proof.
  intros Hw. apply byte_width_loop_run; [lia|lia|]. unfold byte_width_fuel. rewrite Z2Nat.id by apply Z.log2_up_nonneg.
  destruct (decide (width = 1)) as [->|Hne]; [by cbn|].
  etrans; [apply (Z.log2_up_spec width); lia|]. pose proof (Z.log2_up_nonneg width).
  etrans; [|apply Z.pow_le_mono_l with (a := 2); lia]. apply Z.pow_le_mono_r; lia.
Qed.

(** ** The acceptance limit *)

Section limit.
Context (width byte_width : Z) (Hw : 1 <= width) (Hbw : least_byte_width width byte_width).

Lemma acceptance_limit_multiple : acceptance_limit width byte_width = width * (256 ^ byte_width / width).
Proof. unfold acceptance_limit. pose proof (Z.div_mod (256 ^ byte_width) width). lia. Qed.

(** More than half of the raw integers are accepted. *)
Lemma acceptance_limit_range : 256 ^ byte_width < 2 * acceptance_limit width byte_width /\ acceptance_limit width byte_width <= 256 ^ byte_width.
Proof.
  destruct Hbw as (_ & Hle & _). rewrite acceptance_limit_multiple.
  pose proof (Z.div_mod (256 ^ byte_width) width). pose proof (Z.mod_pos_bound (256 ^ byte_width) width).
  assert (1 <= 256 ^ byte_width / width) by (apply Z.div_le_lower_bound; lia). nia.
Qed.
End limit.

Lemma length_filter_fmap {A B} (p : B -> bool) (f : A -> B) l :
  length (List.filter p (f <$> l)) = length (List.filter (fun x => p (f x)) l).
Proof. induction l as [|x l IH]; [done|]. cbn. destruct (p (f x)); cbn [length]; by rewrite IH. Qed.

Lemma Forall2_perm {A B} (P : A -> B -> Prop) l1 l2 ys1 :
  l1 ≡ₚ l2 -> Forall2 P l1 ys1 -> exists ys2, Forall2 P l2 ys2 /\ zip l2 ys2 ≡ₚ zip l1 ys1.
Proof.
  intros HP. revert ys1. induction HP as [|x l1 l2 HP IH|x y l|l1 l2 l3 _ IH1 _ IH2]; intros ys1 HF.
  - apply Forall2_nil_inv_l in HF as ->. by exists [].
  - apply Forall2_cons_inv_l in HF as (y & ys & Hy & HF & ->). destruct (IH ys HF) as (ys2 & HF2 & Hz).
    exists (y :: ys2). split; [by constructor|]. cbn. by rewrite Hz.
  - apply Forall2_cons_inv_l in HF as (a & ys & Ha & HF & ->). apply Forall2_cons_inv_l in HF as (b & ys' & Hb & HF & ->).
    exists (b :: a :: ys'). split; [by repeat constructor|]. cbn. constructor.
  - destruct (IH1 _ HF) as (ys2 & HF2 & Hz2). destruct (IH2 _ HF2) as (ys3 & HF3 & Hz3). exists ys3. split; [done|]. by rewrite Hz3.
Qed.

(** The integers below [n * width] with a given residue. *)
Lemma count_residue width residue n :
  0 <= residue < width ->
  length (List.filter (fun r => r mod width =? residue) (seqZ 0 (width * Z.of_nat n))) = n.
Proof.
  intros Hr. induction n as [|n IH]; [by rewrite Z.mul_0_r|].
  replace (width * Z.of_nat (S n)) with (width * Z.of_nat n + width) by lia.
  rewrite (seqZ_app 0 (width * Z.of_nat n) width), List.filter_app, length_app, IH, Z.add_0_l by nia.
  enough (List.filter (fun r => r mod width =? residue) (seqZ (width * Z.of_nat n) width) ≡ₚ [width * Z.of_nat n + residue]) as ->
    by (cbn [length]; lia).
  apply NoDup_Permutation; [apply NoDup_bool_filter, NoDup_seqZ|apply NoDup_singleton|].
  intros r. rewrite elem_of_bool_filter, elem_of_seqZ, list_elem_of_singleton, Z.eqb_eq. split.
  - intros [Hrange Hmod]. pose proof (Z.div_mod r width). assert (r / width = Z.of_nat n) by (symmetry; apply Z.div_unique_pos with (r - width * Z.of_nat n); lia).
    nia.
  - intros ->. split; [lia|]. rewrite Z.mul_comm, Z.add_comm, Z_mod_plus_full. apply Z.mod_small. lia.
Qed.

(** ** Attempts *)

Section attempts.
Context `{!RandomPackages, !Blake3Laws}.
Context (profile_id : string) (key : list Z) (a : address) (bytes : list Z).
Context (Hprofile : profile_id ∈ SUPPORTED_RANDOM_STREAM_PROFILE_IDS) (Hkey : length key = 32%nat).
Context (Hbytes : canonical_stream_address_bytes a = Ok bytes) (Hlocal : 0 <= local_coordinate a).

Lemma require_supported : _require_supported_profile profile_id = Ok tt.
Proof. unfold _require_supported_profile. rewrite bool_decide_eq_false_2 by auto. done. Qed.

(** The [i]-th chunk of a draw, read from the keyed digest. *)
Definition attempt_chunk (byte_width i : Z) : result (list Z) :=
  blake3_keyed_digest bytes key byte_width (local_coordinate a * BLOCK_BYTES + i * byte_width).
Definition raw_integer (byte_width i : Z) : Z :=
  match attempt_chunk byte_width i with Ok chunk => int_from_bytes chunk | Raise _ => 0 end.

Context (byte_width attempts : Z) (Hbw : 1 <= byte_width).
Context (Hspace : local_coordinate a * BLOCK_BYTES + attempts * byte_width <= 2 ^ 64).

Lemma attempt_run i :
  0 <= i < attempts ->
  exists chunk, raw_block profile_id key a byte_width (i * byte_width) = Ok chunk /\ attempt_chunk byte_width i = Ok chunk /\
    int_from_bytes chunk = raw_integer byte_width i /\ 0 <= raw_integer byte_width i < 256 ^ byte_width.
Proof.
  intros Hi. destruct (keyed_digest_bytes bytes key byte_width (local_coordinate a * BLOCK_BYTES + i * byte_width)) as (chunk & Hc & Hlen & Hb);
    [done|done|unfold BLOCK_BYTES in *; nia|].
  assert (attempt_chunk byte_width i = Ok chunk) as Hchunk by exact Hc.
  assert (raw_integer byte_width i = int_from_bytes chunk) as Hraw by (unfold raw_integer; by rewrite Hchunk).
  exists chunk. split_and!; [|done|done| |].
  - unfold raw_block. rewrite require_supported, Hbytes. cbn [mbind result_bind].
    destruct (Z.ltb_spec byte_width 1); [lia|]. destruct (Z.ltb_spec (i * byte_width) 0); [nia|]. exact Hc.
  - rewrite Hraw. by apply int_from_bytes_range.
  - rewrite Hraw. apply int_from_bytes_range in Hb. rewrite Hlen, Z2Nat.id in Hb by lia. lia.
Qed.

Context (minimum width : Z).
Abbreviation limit := (acceptance_limit width byte_width).

(** All attempts rejected, or the first accepted one. *)
Lemma draw_attempts_run remaining i :
  0 <= i -> i + Z.of_nat remaining = attempts ->
  ((forall j, i <= j < attempts -> limit <= raw_integer byte_width j) /\
     draw_attempts remaining i profile_id key a minimum width byte_width = Ok (Draw None attempts true)) \/
  (exists j, i <= j < attempts /\ raw_integer byte_width j < limit /\ (forall k, i <= k < j -> limit <= raw_integer byte_width k) /\
     draw_attempts remaining i profile_id key a minimum width byte_width =
       Ok (Draw (Some (minimum + raw_integer byte_width j mod width)) j false)).
Proof.
  revert i. induction remaining as [|remaining IH]; intros i Hi Hsum; cbn [draw_attempts].
  { left. split; [lia|]. by replace i with attempts by lia. }
  destruct (attempt_run i) as (chunk & -> & _ & Hraw & Hrange); [lia|]. cbn [mbind result_bind]. rewrite Hraw.
  destruct (Z.ltb_spec (raw_integer byte_width i) limit) as [Hlt|Hge].
  - right. exists i. split_and!; [lia|lia|done|lia|done].
  - destruct (IH (i + 1)) as [[Hall Hrun]|(j & Hj & Hlt & Hbefore & Hrun)]; [lia|lia| |].
    + left. split; [|done]. intros j Hj. destruct (decide (j = i)) as [->|]; [done|]. apply Hall. lia.
    + right. exists j. split_and!; [lia|lia|done| |done]. intros k Hk. destruct (decide (k = i)) as [->|]; [done|]. apply Hbefore. lia.
Qed.
End attempts.

(** ** Batches *)

(** The number of entries of a list that occur earlier in it. *)
Definition duplicates {A} `{EqDecision A} (l : list A) : Z := Z.of_nat (length l) - Z.of_nat (length (remove_dups l)).

Lemma remove_dups_perm {A} `{EqDecision A} (l1 l2 : list A) : l1 ≡ₚ l2 -> remove_dups l1 ≡ₚ remove_dups l2.
Proof.
  intros HP. apply NoDup_Permutation; [apply NoDup_remove_dups..|]. intros x. by rewrite !elem_of_remove_dups, HP.
Qed.

Lemma duplicates_perm {A} `{EqDecision A} (l1 l2 : list A) : l1 ≡ₚ l2 -> duplicates l1 = duplicates l2.
Proof.
  intros HP. unfold duplicates. by rewrite (Permutation_length HP), (Permutation_length (remove_dups_perm l1 l2 HP)).
Qed.

Lemma duplicates_snoc {A} `{EqDecision A} (l : list A) x : duplicates (x :: l) = duplicates l + (if decide (x ∈ l) then 1 else 0).
Proof.
  unfold duplicates. cbn [remove_dups]. destruct (decide_rel elem_of x l) as [Hin|Hin], (decide (x ∈ l)); try done; cbn [length]; lia.
Qed.

Lemma duplicates_zero {A} `{EqDecision A} (l : list A) : duplicates l = 0 <-> NoDup l.
Proof.
  induction l as [|x l IH]; [split; [constructor|done]|]. rewrite duplicates_snoc, NoDup_cons.
  assert (0 <= duplicates l).
  { unfold duplicates. pose proof (NoDup_submseteq (remove_dups l) l (NoDup_remove_dups l)) as Hs.
    assert (remove_dups l ⊆+ l) as Hsub by (apply Hs; intros y; by rewrite elem_of_remove_dups). apply submseteq_length in Hsub. lia. }
  rewrite <-IH. case_decide; split; [lia|naive_solver|intros; split; [done|lia]|lia].
Qed.

Section batch.
Context `{!RandomPackages}.

Definition request_key (r : BoundedIntegerDrawRequest) : semantic_key := _semantic_coordinate_key (rq_address r).

(** What a scan that read the canonical bytes of every request has seen. *)
Definition scanned (requests : list BoundedIntegerDrawRequest) (all_bytes : list (list Z)) (s : BatchScan) : Prop :=
  seen_semantic s = reverse (request_key <$> requests) /\
  seen_address_bytes s = reverse all_bytes /\
  duplicate_semantic_count s = duplicates (request_key <$> requests) /\
  duplicate_address_bytes_count s = duplicates all_bytes.

Lemma scan_requests requests all_bytes :
  Forall2 (fun r b => canonical_stream_address_bytes (TrialAddress (rq_address r)) = Ok b) requests all_bytes ->
  exists s, mfold note_request (Scan [] 0 [] 0) requests = Ok s /\ scanned requests all_bytes s.
Proof.
  induction requests as [|r requests IH] using rev_ind in all_bytes |- *; intros HF.
  { apply Forall2_nil_inv_l in HF as ->. eexists. split; [done|]. by repeat split. }
  apply Forall2_app_inv_l in HF as (bytes & last & Hbytes & Hlast & ->). destruct (IH bytes Hbytes) as (s & Hrun & Hs1 & Hs2 & Hs3 & Hs4).
  apply Forall2_cons_inv_l in Hlast as (b & l' & Hb & ->%Forall2_nil_inv_l & ->).
  rewrite mfold_app, Hrun. cbn [mbind result_bind mfold]. unfold note_request. rewrite Hb. cbn [mbind result_bind].
  eexists. split; [done|]. unfold scanned. cbn [seen_semantic seen_address_bytes duplicate_semantic_count duplicate_address_bytes_count].
  rewrite fmap_app, !reverse_app. cbn [fmap list_fmap]. fold (request_key r). rewrite !reverse_singleton. cbn [app].
  rewrite Hs1, Hs2, Hs3, Hs4. split_and!; [done|done| |].
  - rewrite (duplicates_perm (_ ++ [_]) (request_key r :: (request_key <$> requests)))
      by (symmetry; apply Permutation_cons_append).
    rewrite duplicates_snoc. f_equal. by apply decide_ext; rewrite elem_of_reverse.
  - rewrite (duplicates_perm (bytes ++ [b]) (b :: bytes)) by (symmetry; apply Permutation_cons_append).
    rewrite duplicates_snoc. f_equal. by apply decide_ext; rewrite elem_of_reverse.
Qed.
End batch.

Lemma request_key_inj a1 a2 : _semantic_coordinate_key a1 = _semantic_coordinate_key a2 -> a1 = a2.
Proof.
  destruct a1 as [n1 [c1 b1 r1] p1 v1 d1 l1], a2 as [n2 [c2 b2 r2] p2 v2 d2 l2]. unfold _semantic_coordinate_key. cbn. by intros [= -> -> -> -> -> -> -> ->].
Qed.

Lemma remove_dups_fmap {A B} `{EqDecision A, EqDecision B} (f : A -> B) `{!Inj (=) (=) f} (l : list A) :
  remove_dups (f <$> l) = f <$> remove_dups l.
Proof.
  induction l as [|x l IH]; [done|]. cbn [fmap list_fmap remove_dups]. rewrite IH.
  destruct (decide_rel elem_of (f x) (f <$> l)) as [Hin|Hin], (decide_rel elem_of x l) as [Hx|Hx]; try done.
  - destruct Hx. apply list_elem_of_fmap in Hin as (y & Hy%(inj f) & Hl). by rewrite Hy.
  - destruct Hin. by apply list_elem_of_fmap_2.
Qed.

Lemma duplicates_fmap {A B} `{EqDecision A, EqDecision B} (f : A -> B) `{!Inj (=) (=) f} (l : list A) :
  duplicates (f <$> l) = duplicates l.
Proof. unfold duplicates. by rewrite remove_dups_fmap, !length_fmap. Qed.

Lemma duplicates_request_keys requests : duplicates (request_key <$> requests) = duplicates (rq_address <$> requests).
Proof.
  unfold request_key. rewrite <-(duplicates_fmap (_semantic_coordinate_key : StreamAddressModel -> semantic_key) (Inj0 := request_key_inj)).
  by rewrite <-list_fmap_compose.
Qed.

(** ** Replayed chunks *)

(** Big-endian bytes. *)
Fixpoint to_bytes (n : nat) (z : Z) : list Z :=
  match n with O => [] | S n => to_bytes n (z / 256) ++ [z mod 256] end.

Lemma int_from_to_bytes n z : int_from_bytes (to_bytes n z) = z mod 256 ^ Z.of_nat n.
Proof.
  revert z. induction n as [|n IH]; intros z; cbn [to_bytes]; [by rewrite Z.mod_1_r|].
  rewrite int_from_bytes_snoc, IH. replace (Z.of_nat (S n)) with (1 + Z.of_nat n) by lia.
  rewrite Z.pow_add_r by lia. change (256 ^ 1) with 256. rewrite Z.rem_mul_r by lia. lia.
Qed.

(** Packages whose digest is one chunk. *)
Definition replay (chunk : list Z) : RandomPackages :=
  {| rfc8785_dumps _ := Some []; blake3_derive_key _ material := material; blake3_keyed_digest _ _ _ _ := Ok chunk |}.

Lemma replay_draw profile_id key a minimum maximum byte_width r :
  profile_id ∈ SUPPORTED_RANDOM_STREAM_PROFILE_IDS -> minimum <= maximum ->
  least_byte_width (maximum - minimum + 1) byte_width -> 0 <= r < 256 ^ byte_width ->
  @draw_bounded_integer (replay (to_bytes (Z.to_nat byte_width) r)) profile_id key a minimum maximum 1 =
    Ok (if r <? acceptance_limit (maximum - minimum + 1) byte_width
        then Draw (Some (minimum + r mod (maximum - minimum + 1))) 0 false else Draw None 1 true).
Proof.
  intros Hprofile Hle Hbw Hr. unfold draw_bounded_integer. rewrite require_supported by done. cbn [mbind result_bind].
  destruct (Z.ltb_spec maximum minimum); [lia|]. cbn [raise_if mbind result_bind].
  destruct (byte_width_run (maximum - minimum + 1)) as (bw & -> & Hbw'); [lia|].
  assert (bw = byte_width) as ->.
  { destruct Hbw as (H1 & H2 & H3), Hbw' as (H1' & H2' & H3').
    destruct (Z.lt_trichotomy bw byte_width) as [Hlt|[?|Hlt]]; [|done|]; [specialize (H3 bw)|specialize (H3' byte_width)]; lia. }
  cbn [mbind result_bind]. change (Z.to_nat 1) with 1%nat. cbn [draw_attempts]. unfold raw_block.
  rewrite require_supported by done. cbn [mbind result_bind]. destruct Hbw as (H1 & _).
  destruct (Z.ltb_spec byte_width 1); [lia|]. rewrite Z.mul_0_l. cbn [Z.ltb Z.compare raise_if mbind result_bind].
  unfold canonical_stream_address_bytes. cbn [rfc8785_dumps blake3_keyed_digest replay mbind result_bind].
  rewrite int_from_to_bytes, Z2Nat.id, Z.mod_small by lia. by destruct (r <? _).
Qed.

(** A small instance of the packages: payloads are encoded by their own
    integers, and a digest is the sequence of its positions. *)
Module RandomSample.
Definition packages : RandomPackages := {|
  rfc8785_dumps payload := match payload with
    | JObject fields => Some (flat_map (fun f => match f.2 with JInteger z => [z] | _ => [] end) fields)
    | _ => None end;
  blake3_derive_key _ _ := repeat 0 32;
  blake3_keyed_digest _ key byte_length seek :=
    if Nat.eqb (length key) 32 && (1 <=? byte_length) && (0 <=? seek) && (seek <? 2 ^ 64)
    then Ok ((fun i => (seek + i) mod 256) <$> seqZ 200 byte_length)
    else Raise (ValueError "refused") |}.

Lemma packages_laws : @Blake3Laws packages.
Proof.
  constructor; [reflexivity|]. intros data key n seek Hkey Hn Hseek. cbn [blake3_keyed_digest packages].
  rewrite Hkey, Nat.eqb_refl, (proj2 (Z.leb_le 1 n)), (proj2 (Z.leb_le 0 seek)), (proj2 (Z.ltb_lt seek (2 ^ 64))) by lia. cbn [andb].
  eexists. split; [reflexivity|]. split; [by rewrite length_fmap, length_seqZ|].
  apply Forall_fmap, Forall_forall. intros i _. cbn. apply Z.mod_pos_bound. lia.
Qed.

Definition key : list Z := repeat 0 32.
Definition coordinate (replicate : string) : TrialCoordinateModel := TrialCoordinate None None (Some replicate).
Definition stream_address (replicate : string) (local : Z) : StreamAddressModel :=
  StreamAddress "sampling" (coordinate replicate) "policy" "point" "sampling-selection" local.
Definition request (replicate : string) (local : Z) : BoundedIntegerDrawRequest :=
  DrawRequest (stream_address replicate local) 0 9 4.
End RandomSample.

(** ** Draws *)

Section draws.
Context `{!RandomPackages, !Blake3Laws}.

(** C29: under the documented laws of the digest, a draw over a valid range
    always returns. Its chunks have the least number of bytes whose values
    cover the range and are accepted below the greatest multiple of the width
    of the range. The value is in the range and is computed from the first
    accepted chunk, whose index is the number of rejections recorded; the draw
    is exhausted exactly when every chunk allowed was rejected. *)
Theorem draw_bounded_exact profile_id key a bytes minimum maximum attempts :
  profile_id ∈ SUPPORTED_RANDOM_STREAM_PROFILE_IDS -> length key = 32%nat ->
  canonical_stream_address_bytes a = Ok bytes -> 0 <= local_coordinate a -> minimum <= maximum -> 1 <= attempts ->
  let width := maximum - minimum + 1 in
  exists byte_width limit,
    least_byte_width width byte_width /\ ((width | limit) /\ limit <= 256 ^ byte_width < limit + width) /\
    let raw := raw_integer key a bytes byte_width in
    (local_coordinate a * 32 + attempts * byte_width <= 2 ^ 64 ->
     exists d, draw_bounded_integer profile_id key a minimum maximum attempts = Ok d /\
       (forall i, 0 <= i < attempts -> 0 <= raw i < 256 ^ byte_width) /\
       match value d with
       | Some v => minimum <= v <= maximum /\ rejection_exhausted d = false /\
           0 <= rejection_attempts d < attempts /\ raw (rejection_attempts d) < limit /\
           v = minimum + raw (rejection_attempts d) mod width /\
           forall i, 0 <= i < rejection_attempts d -> limit <= raw i
       | None => rejection_exhausted d = true /\ rejection_attempts d = attempts /\
           forall i, 0 <= i < attempts -> limit <= raw i
       end).
Proof.
  intros Hprofile Hkey Hbytes Hlocal Hle Hatt width.
  destruct (byte_width_run width) as (bw & Hrun & Hbw); [lia|]. assert (1 <= width) as Hw by lia.
  exists bw, (acceptance_limit width bw). split; [done|]. split.
  { rewrite (acceptance_limit_multiple width bw) by done. pose proof (Z.div_mod (256 ^ bw) width). pose proof (Z.mod_pos_bound (256 ^ bw) width).
    split; [apply Z.divide_factor_l|lia]. }
  intros raw Hspace. destruct Hbw as (Hbw & _).
  assert (draw_bounded_integer profile_id key a minimum maximum attempts
    = draw_attempts (Z.to_nat attempts) 0 profile_id key a minimum width bw) as ->.
  { unfold draw_bounded_integer. rewrite require_supported by done. cbn [mbind result_bind].
    destruct (Z.ltb_spec maximum minimum), (Z.ltb_spec attempts 1); try lia. cbn [raise_if mbind result_bind]. fold width. by rewrite Hrun. }
  destruct (draw_attempts_run profile_id key a bytes Hprofile Hkey Hbytes Hlocal bw attempts Hbw Hspace minimum width
    (Z.to_nat attempts) 0) as [[Hall ->]|(j & Hj & Hlt & Hbefore & ->)]; [lia|lia| |];
    (eexists; split; [done|]; split; [by intros i Hi; destruct (attempt_run profile_id key a bytes Hprofile Hkey Hbytes Hlocal bw attempts Hbw Hspace i Hi) as (? & _ & _ & _ & ?)|]);
    cbn [value rejection_exhausted rejection_attempts].
  - by split_and!.
  - pose proof (Z.mod_pos_bound (raw j) width). unfold raw in *. split_and!; try done; lia.
Qed.
End draws.

Lemma draw_bounded_exact_witness :
  exists d, @draw_bounded_integer RandomSample.packages "blake3-xof-v1" RandomSample.key
    (TrialAddress (RandomSample.stream_address "replicate-000001" 1)) 1 100 32 = Ok d /\ value d = Some 1 /\ rejection_attempts d = 24.
Proof.
  destruct (@draw_bounded_exact RandomSample.packages RandomSample.packages_laws "blake3-xof-v1" RandomSample.key
    (TrialAddress (RandomSample.stream_address "replicate-000001" 1)) [1] 1 100 32) as (bw & limit & Hbw & _ & H).
  - vm_decide.
  - reflexivity.
  - reflexivity.
  - vm_compute. discriminate.
  - lia.
  - lia.
  - assert (bw <= 8) as Hle.
    { destruct (Z.le_gt_cases bw 8) as [?|Hgt]; [done|]. destruct Hbw as (_ & _ & Hbelow).
      specialize (Hbelow 1 ltac:(lia)). vm_compute in Hbelow. discriminate. }
    destruct H as (d & Hd & _); [cbn [local_coordinate RandomSample.stream_address sa_local_coordinate]; lia|].
    exists d. split; [exact Hd|]. vm_compute in Hd. injection Hd as <-. split; reflexivity.
Defined.

(** ** Uniformity *)

Definition draws_value (m : result BoundedIntegerDraw) (v : Z) : bool :=
  match m with Ok d => bool_decide (value d = Some v) | Raise _ => false end.

(** C30: draws are unbiased. Over all the byte strings one attempt can read,
    every value of the range is drawn by equally many, and more than half of
    them are accepted. *)
Theorem draw_uniform profile_id key a minimum maximum byte_width :
  profile_id ∈ SUPPORTED_RANDOM_STREAM_PROFILE_IDS -> minimum <= maximum ->
  least_byte_width (maximum - minimum + 1) byte_width ->
  let chunks := to_bytes (Z.to_nat byte_width) <$> seqZ 0 (256 ^ byte_width) in
  let draw chunk := @draw_bounded_integer (replay chunk) profile_id key a minimum maximum 1 in
  let each := 256 ^ byte_width / (maximum - minimum + 1) in
  (forall v, minimum <= v <= maximum -> length (List.filter (fun chunk => draws_value (draw chunk) v) chunks) = Z.to_nat each) /\
  256 ^ byte_width < 2 * (each * (maximum - minimum + 1)).
Proof.
  intros Hprofile Hle Hbw chunks draw each. set (width := maximum - minimum + 1) in *. assert (1 <= width) as Hw by lia.
  assert (0 <= each) as Heach by (apply Z.div_pos; lia).
  assert (acceptance_limit width byte_width = width * each) as Hlimit by (apply acceptance_limit_multiple; lia).
  destruct (acceptance_limit_range width byte_width Hw Hbw) as [Hhalf Hbelow]. rewrite Hlimit in Hhalf, Hbelow.
  split; [|lia]. intros v Hv. unfold chunks. rewrite length_filter_fmap.
  replace (256 ^ byte_width) with (width * each + (256 ^ byte_width - width * each)) by lia.
  rewrite seqZ_app, List.filter_app, length_app by lia. rewrite Z.add_0_l.
  assert (forall r, r ∈ seqZ 0 (256 ^ byte_width) ->
    draws_value (draw (to_bytes (Z.to_nat byte_width) r)) v = (r <? width * each) && (r mod width =? v - minimum)) as Hdraw.
  { intros r Hr%elem_of_seqZ. unfold draw. rewrite replay_draw by (done || lia). fold width. rewrite Hlimit. unfold draws_value.
    destruct (Z.ltb_spec r (width * each)); cbn [value andb]; [|by apply bool_decide_eq_false].
    destruct (Z.eqb_spec (r mod width) (v - minimum)); [apply bool_decide_eq_true; f_equal|apply bool_decide_eq_false; intros [=]]; lia. }
  assert (forall r, 0 <= r < 256 ^ byte_width -> r ∈ seqZ 0 (256 ^ byte_width)) as Hin by (intros r ?; apply elem_of_seqZ; lia).
  rewrite (bool_filter_none _ (seqZ (width * each) _)), Nat.add_0_r.
  - erewrite List.filter_ext_in.
    + replace (width * each) with (width * Z.of_nat (Z.to_nat each)) by lia. apply (count_residue width (v - minimum)). lia.
    + intros r Hr%list_elem_of_In%elem_of_seqZ. rewrite Hdraw by (apply Hin; lia). by rewrite (proj2 (Z.ltb_lt r (width * each))) by lia.
  - intros r Hr%elem_of_seqZ. rewrite Hdraw by (apply Hin; lia). by rewrite (proj2 (Z.ltb_ge r (width * each))) by lia.
Qed.

Lemma draw_uniform_witness :
  length (List.filter (fun chunk => draws_value (@draw_bounded_integer (replay chunk) "blake3-xof-v1" []
    (TrialAddress (RandomSample.stream_address "replicate-000001" 0)) 1 6 1) 4) (to_bytes 1 <$> seqZ 0 256)) = 42%nat.
Proof.
  refine (proj1 (draw_uniform "blake3-xof-v1" [] (TrialAddress (RandomSample.stream_address "replicate-000001" 0)) 1 6 1 _ _ _) 4 _).
  - vm_decide.
  - lia.
  - split_and!; [lia|vm_compute; discriminate|lia].
  - lia.
Defined.

(** ** Batches *)

Section batches.
Context `{!RandomPackages}.

Lemma batch_run profile_id key requests all_bytes :
  profile_id ∈ SUPPORTED_RANDOM_STREAM_PROFILE_IDS ->
  Forall2 (fun r b => canonical_stream_address_bytes (TrialAddress (rq_address r)) = Ok b) requests all_bytes ->
  draw_bounded_integer_batch profile_id key requests =
    if decide (NoDup (rq_address <$> requests) /\ NoDup all_bytes) then
      drawn ← mmap (draw_request profile_id key) requests; Ok (BatchResult (Some drawn) None)
    else Ok (BatchResult None (Some (_batch_collision_diagnostic (duplicates (rq_address <$> requests)) (duplicates all_bytes)))).
Proof.
  intros Hprofile Hbytes. unfold draw_bounded_integer_batch. rewrite require_supported by done. cbn [mbind result_bind].
  destruct (scan_requests requests all_bytes Hbytes) as (s & -> & _ & _ & Hsem & Hby). cbn [mbind result_bind].
  rewrite Hsem, Hby, duplicates_request_keys.
  destruct (Z.eqb_spec (duplicates (rq_address <$> requests)) 0) as [Ha|Ha], (Z.eqb_spec (duplicates all_bytes) 0) as [Hb|Hb];
    rewrite duplicates_zero in Ha; rewrite duplicates_zero in Hb; cbn [negb orb]; by rewrite ?decide_True, ?decide_False by tauto.
Qed.

(** C31: a batch with canonical addresses draws every request as if it were
    alone when addresses and their canonical bytes are pairwise distinct, and
    otherwise draws nothing and reports how many of each are duplicates. The
    order of the requests matters for neither: a permuted batch reports the same
    collision, or draws the same integers for the same requests. *)
Theorem draw_batch_exact profile_id key requests all_bytes :
  profile_id ∈ SUPPORTED_RANDOM_STREAM_PROFILE_IDS ->
  Forall2 (fun r b => canonical_stream_address_bytes (TrialAddress (rq_address r)) = Ok b) requests all_bytes ->
  let batch := draw_bounded_integer_batch profile_id key in
  (NoDup (rq_address <$> requests) /\ NoDup all_bytes ->
     batch requests = (drawn ← mmap (draw_request profile_id key) requests; Ok (BatchResult (Some drawn) None))) /\
  (~ (NoDup (rq_address <$> requests) /\ NoDup all_bytes) ->
     batch requests = Ok (BatchResult None (Some (_batch_collision_diagnostic
       (duplicates (rq_address <$> requests)) (duplicates all_bytes))))) /\
  forall requests', requests ≡ₚ requests' ->
    (forall d, batch requests = Ok (BatchResult None d) -> batch requests' = Ok (BatchResult None d)) /\
    (forall drawn, batch requests = Ok (BatchResult (Some drawn) None) ->
       exists drawn', batch requests' = Ok (BatchResult (Some drawn') None) /\ zip requests' drawn' ≡ₚ zip requests drawn).
Proof.
  intros Hprofile Hbytes batch. pose proof (batch_run profile_id key requests all_bytes Hprofile Hbytes) as Hrun. fold batch in Hrun.
  split; [intros ?; by rewrite Hrun, decide_True|]. split; [intros ?; by rewrite Hrun, decide_False|].
  intros requests' HP. destruct (Forall2_perm _ requests requests' all_bytes HP Hbytes) as (all_bytes' & Hbytes' & Hzip).
  assert (all_bytes ≡ₚ all_bytes') as HPb.
  { apply Forall2_length in Hbytes, Hbytes'. apply (fmap_Permutation snd) in Hzip. rewrite !snd_zip in Hzip by lia. by symmetry. }
  pose proof (batch_run profile_id key requests' all_bytes' Hprofile Hbytes') as Hrun'. fold batch in Hrun'.
  assert (NoDup (rq_address <$> requests) /\ NoDup all_bytes <-> NoDup (rq_address <$> requests') /\ NoDup all_bytes') as Hiff by by rewrite HP, HPb.
  rewrite Hrun, Hrun', <-(duplicates_perm _ _ (fmap_Permutation rq_address _ _ HP)), <-(duplicates_perm _ _ HPb).
  destruct (decide (NoDup (rq_address <$> requests) /\ NoDup all_bytes)) as [Hd|Hd];
    [rewrite decide_True by by apply Hiff|rewrite decide_False by by rewrite <-Hiff].
  - split; [intros d (? & _ & [=])%bind_Ok|]. intros drawn (ys & Hys & [= ->])%bind_Ok. apply mmap_Forall2 in Hys.
    destruct (Forall2_perm _ requests requests' drawn HP Hys) as (drawn' & Hys' & Hz). apply mmap_Forall2 in Hys'.
    exists drawn'. by rewrite Hys'.
  - split; [done|]. by intros drawn [=].
Qed.
End batches.

Lemma draw_batch_exact_witness :
  let requests := [RandomSample.request "replicate-000001" 0; RandomSample.request "replicate-000002" 1] in
  exists drawn, @draw_bounded_integer_batch RandomSample.packages "blake3-xof-v1" RandomSample.key (reverse requests)
    = Ok (BatchResult (Some drawn) None) /\ length drawn = 2%nat.
Proof.
  intros requests. destruct (@draw_batch_exact RandomSample.packages "blake3-xof-v1" RandomSample.key requests [[0]; [1]]) as (H1 & _ & H3).
  - vm_decide.
  - repeat constructor.
  - destruct (H3 (reverse requests)) as [_ H]; [symmetry; apply reverse_Permutation|].
    destruct (mmap (@draw_request RandomSample.packages "blake3-xof-v1" RandomSample.key) requests) as [drawn|] eqn:E;
      [|exfalso; vm_compute in E; discriminate].
    destruct (H drawn) as (drawn' & Hd & Hz).
    + rewrite H1; [reflexivity|]. vm_decide.
    + exists drawn'. split; [exact Hd|]. vm_compute in Hd. injection Hd as <-. reflexivity.
Defined.

(** ** Seeds *)

Lemma hex_value_digit (d : Z) : 0 <= d < 16 -> hex_value (hex_digit d) = Some d /\ lower_hex (hex_digit d) = true /\ ascii_space (hex_digit d) = false.
Proof.
  intros Hd. assert (d ∈ seqZ 0 16) as Hin by (apply elem_of_seqZ; lia). revert Hin. clear Hd.
  assert (Forall (fun d => hex_value (hex_digit d) = Some d /\ lower_hex (hex_digit d) = true /\ ascii_space (hex_digit d) = false) (seqZ 0 16)) as H
    by (vm_compute; repeat constructor).
  rewrite Forall_forall in H. apply H.
Qed.

Lemma chars_hex_of_bytes bytes : chars (hex_of_bytes bytes) = flat_map (fun b => [hex_digit (b / 16); hex_digit (b mod 16)]) bytes.
Proof. apply String.list_ascii_of_string_of_list_ascii. Qed.

Lemma fromhex_hex bytes : Forall (fun b => 0 <= b < 256) bytes -> fromhex (chars (hex_of_bytes bytes)) = Ok bytes.
Proof.
  rewrite chars_hex_of_bytes. induction 1 as [|b bytes Hb _ IH]; [done|]. cbn [flat_map app].
  destruct (hex_value_digit (b / 16)) as (H1 & _ & H2); [split; [apply Z.div_pos|apply Z.div_lt_upper_bound]; lia|].
  destruct (hex_value_digit (b mod 16)) as (H3 & _ & _); [apply Z.mod_pos_bound; lia|].
  cbn [fromhex]. rewrite H2, H1, H3, IH. cbn [mbind result_bind]. do 2 f_equal. pose proof (Z.div_mod b 16). lia.
Qed.

Lemma lower_hex_digit c : lower_hex c = true -> exists d, 0 <= d < 16 /\ c = hex_digit d.
Proof.
  set (check c := implb (lower_hex c)
    (let d := default 0 (hex_value c) in (0 <=? d) && (d <? 16) && Ascii.eqb c (hex_digit d))).
  assert (forallb (fun n => check (Ascii.ascii_of_nat n)) (seq 0 256) = true) as H by (vm_compute; reflexivity).
  rewrite forallb_forall in H. intros Hc. exists (default 0 (hex_value c)).
  specialize (H (Ascii.nat_of_ascii c)). rewrite Ascii.ascii_nat_embedding in H. unfold check in H. rewrite Hc in H. cbn [implb] in H.
  rewrite !andb_true_iff, Z.leb_le, Z.ltb_lt, Ascii.eqb_eq in H.
  destruct H as [? ?]; [|done]. apply in_seq. pose proof (Ascii.nat_ascii_bounded c). lia.
Qed.

Lemma lower_hex_bytes l n :
  length l = (2 * n)%nat -> forallb lower_hex l = true ->
  exists bytes, l = chars (hex_of_bytes bytes) /\ length bytes = n /\ Forall (fun b => 0 <= b < 256) bytes.
Proof.
  setoid_rewrite chars_hex_of_bytes. revert l. induction n as [|n IH]; intros l Hlen Hl.
  { destruct l; [|done]. by exists []. }
  destruct l as [|c [|d l]]; [cbn in Hlen; lia|cbn in Hlen; lia|]. cbn [forallb length] in *. apply andb_true_iff in Hl as [Hc Hl].
  apply andb_true_iff in Hl as [Hd Hl]. destruct (IH l) as (bytes & -> & Hn & Hb); [lia|done|].
  destruct (lower_hex_digit c Hc) as (x & Hx & ->), (lower_hex_digit d Hd) as (y & Hy & ->).
  exists (16 * x + y :: bytes). split; [|split; [cbn; lia|constructor; [lia|done]]]. cbn [flat_map app].
  assert ((16 * x + y) / 16 = x) as -> by (symmetry; apply Z.div_unique_pos with y; lia).
  assert ((16 * x + y) mod 16 = y) as -> by (symmetry; apply Z.mod_unique_pos with x; lia). done.
Qed.

(** The public seeds that validate are exactly the hexadecimal renderings of
    32 bytes: each decodes to the bytes it renders, from which every supported
    profile derives a key and every other refuses to. *)
Theorem public_seed_round_trip `{!RandomPackages} seed profile_id :
  validate_public_seed seed = Ok seed <->
  seed_encoding seed = "hex-fixed-width" /\
  exists bytes, seed_value seed = hex_of_bytes bytes /\ length bytes = 32%nat /\ Forall (fun b => 0 <= b < 256) bytes /\
    decode_public_seed seed = Ok bytes /\
    derive_stream_key profile_id bytes =
      if decide (profile_id = "blake3-xof-v1" \/ profile_id = "blake3-xof-participant-v1")
      then Ok (blake3_derive_key ("raes-random-stream-v1|profile=" +:+ profile_id) bytes)
      else Raise (unsupported_profile profile_id).
Proof.
  destruct seed as [encoding s]. unfold validate_public_seed. rewrite bind_Ok. cbn [seed_encoding seed_value]. split.
  - intros ([] & Hf & _). apply require_fields_Ok in Hf. apply Forall_cons in Hf as [He Hf]. apply Forall_cons in Hf as [Hv _].
    cbn [snd] in He, Hv. apply bool_decide_eq_true in He as ->. apply andb_true_iff in Hv as [Hlen Hhex]. apply Nat.eqb_eq in Hlen.
    destruct (lower_hex_bytes (chars s) 32) as (bytes & Hs & Hn & Hb); [done|done|]. apply chars_inj in Hs as ->.
    split; [done|]. exists bytes. split_and!; [done|done|done| |].
    + unfold decode_public_seed. cbn [seed_encoding seed_value]. rewrite bool_decide_eq_false_2 by auto. cbn [raise_if mbind result_bind].
      rewrite fromhex_hex by done. cbn [mbind result_bind]. by rewrite Hn.
    + unfold derive_stream_key, _require_supported_profile. rewrite Hn. case_decide as Hp.
      * rewrite bool_decide_eq_false_2; [done|]. intros Hnot. apply Hnot. unfold SUPPORTED_RANDOM_STREAM_PROFILE_IDS. set_solver.
      * rewrite bool_decide_eq_true_2; [done|]. intros Hin. apply Hp. unfold SUPPORTED_RANDOM_STREAM_PROFILE_IDS in Hin. set_solver.
  - intros (-> & bytes & -> & Hn & Hb & _). exists tt. split; [|done]. apply require_fields_Ok. repeat constructor; cbn [snd].
    assert (length (chars (hex_of_bytes bytes)) = 64%nat) as Hlen.
    { rewrite chars_hex_of_bytes. rewrite <-(Nat.mul_1_r 64). revert Hn. clear Hb. change 64%nat with (2 * 32)%nat. generalize 32%nat.
      induction bytes as [|b bytes IH]; intros n <-; [done|]. cbn [flat_map app length]. rewrite (IH (length bytes) eq_refl). lia. }
    rewrite Hlen. cbn [andb Nat.eqb]. rewrite chars_hex_of_bytes. apply forallb_forall. intros c Hc%in_flat_map.
    destruct Hc as (b & Hin & Hc). rewrite Forall_forall in Hb. apply list_elem_of_In, Hb in Hin.
    destruct Hc as [<-|[<-|[]]]; apply hex_value_digit; [|apply Z.mod_pos_bound; lia].
    split; [apply Z.div_pos|apply Z.div_lt_upper_bound]; lia.
Qed.
