(* ===== verification/ResourceTypes.v ===== *)
(** Participant resource budgets: literals, identities and quantity rules
    ([raes_contracts/contracts/participant_resource_types.py] and the field
    constraints of [raes_contracts/_base.py]). *)
From S2P Require Import Prelude.
From S2P Require Import Contracts.
From S2P Require Import Sha256.
From Stdlib Require Import Ascii.
Local Open Scope string_scope.
Local Open Scope list_scope.

Inductive owner_kind : Type := participant | deployment_tenant | shared_service | fleet.

Inductive resource_kind : Type :=
| action_rate | concurrent_actions | storage_growth | inference_tokens | image_generations | accelerator.

Inductive accounting_mode : Type :=
| windowed_counter | cumulative_counter | reservable_gauge | growth_counter | lease.

Inductive reset_mode : Type := episode | time_segment | run | reset_reconciled.

Inductive isolation_strength : Type := isolation_none | stateless | tenant_partitioned.

Inductive event_transition : Type :=
| t_reserve | t_commit | t_release | t_throttle | t_reject | t_reconcile.

Inductive event_disposition : Type :=
| d_reserved | d_committed | d_released | d_throttled | d_rejected | d_reconciled.

Inductive reconciliation_status : Type := st_reconciled | st_pending | st_unreconciled.

#[export] Instance owner_kind_eq_dec : EqDecision owner_kind.
Proof. solve_decision. Defined.
#[export] Instance resource_kind_eq_dec : EqDecision resource_kind.
Proof. solve_decision. Defined.
#[export] Instance accounting_mode_eq_dec : EqDecision accounting_mode.
Proof. solve_decision. Defined.
#[export] Instance reset_mode_eq_dec : EqDecision reset_mode.
Proof. solve_decision. Defined.
#[export] Instance isolation_strength_eq_dec : EqDecision isolation_strength.
Proof. solve_decision. Defined.
#[export] Instance event_transition_eq_dec : EqDecision event_transition.
Proof. solve_decision. Defined.
#[export] Instance event_disposition_eq_dec : EqDecision event_disposition.
Proof. solve_decision. Defined.
#[export] Instance reconciliation_status_eq_dec : EqDecision reconciliation_status.
Proof. solve_decision. Defined.

Definition owner_kind_str (k : owner_kind) : string :=
  match k with
  | participant => "participant"
  | deployment_tenant => "deployment_tenant"
  | shared_service => "shared_service"
  | fleet => "fleet"
  end.

Definition resource_kind_str (k : resource_kind) : string :=
  match k with
  | action_rate => "action_rate"
  | concurrent_actions => "concurrent_actions"
  | storage_growth => "storage_growth"
  | inference_tokens => "inference_tokens"
  | image_generations => "image_generations"
  | accelerator => "accelerator"
  end.

Definition accounting_mode_str (m : accounting_mode) : string :=
  match m with
  | windowed_counter => "windowed_counter"
  | cumulative_counter => "cumulative_counter"
  | reservable_gauge => "reservable_gauge"
  | growth_counter => "growth_counter"
  | lease => "lease"
  end.

Definition reset_mode_str (m : reset_mode) : string :=
  match m with
  | episode => "episode"
  | time_segment => "time_segment"
  | run => "run"
  | reset_reconciled => "reconciled"
  end.

Definition resource_kinds : list resource_kind :=
  [action_rate; concurrent_actions; storage_growth; inference_tokens; image_generations; accelerator].

Definition RESOURCE_UNIT (k : resource_kind) : string :=
  match k with
  | action_rate => "actions"
  | concurrent_actions => "actions"
  | storage_growth => "bytes"
  | inference_tokens => "tokens"
  | image_generations => "images"
  | accelerator => "accelerator_milliseconds"
  end.

Definition RESOURCE_ACCOUNTING (k : resource_kind) : list accounting_mode :=
  match k with
  | action_rate => [windowed_counter]
  | concurrent_actions => [reservable_gauge]
  | storage_growth => [growth_counter]
  | inference_tokens => [windowed_counter; cumulative_counter]
  | image_generations => [windowed_counter; cumulative_counter]
  | accelerator => [lease]
  end.

Definition EVENT_DISPOSITION (t : event_transition) : event_disposition :=
  match t with
  | t_reserve => d_reserved
  | t_commit => d_committed
  | t_release => d_released
  | t_throttle => d_throttled
  | t_reject => d_rejected
  | t_reconcile => d_reconciled
  end.

Definition require_quantity_semantics (k : resource_kind) (unit_ : string) (m : accounting_mode) : result unit :=
  _ ← raise_if (bool_decide (unit_ <> RESOURCE_UNIT k))
    (ValueError (resource_kind_str k +:+ " resource quantity requires unit " +:+ py_repr (RESOURCE_UNIT k)));
  raise_if (bool_decide (m ∉ RESOURCE_ACCOUNTING k))
    (ValueError (resource_kind_str k +:+ " resource quantity does not support accounting mode "
                 +:+ py_repr (accounting_mode_str m))).

Definition participant_resource_budget_state_ref (policy_address budget_id : string) : string :=
  policy_address +:+ ".resource-budget-state." +:+ budget_id.

Definition participant_resource_pool_state_ref (pool_ref : string) (owner : owner_kind) (owner_ref : string)
    (kind : resource_kind) (unit_ : string) (mode : accounting_mode) (meter_profile_ref : string) : string :=
  let canonical := json_strings
    [pool_ref; owner_kind_str owner; owner_ref; resource_kind_str kind; unit_; accounting_mode_str mode;
     meter_profile_ref] in
  "participant-resource-pool:sha256:" +:+ sha256_hex canonical.

(** ** Bounds *)

Definition max_amount : Z := (10 ^ 18)%Z.
Definition max_ticks : Z := (10 ^ 9)%Z.

Definition quantity_ok (k : resource_kind) (unit_ : string) (m : accounting_mode) : Prop :=
  unit_ = RESOURCE_UNIT k /\ m ∈ RESOURCE_ACCOUNTING k.

Lemma require_quantity_semantics_Ok k unit_ m u :
  require_quantity_semantics k unit_ m = Ok u <-> quantity_ok k unit_ m.
Proof.
  unfold require_quantity_semantics, quantity_ok. rewrite bind_Ok. setoid_rewrite raise_if_Ok.
  setoid_rewrite bool_decide_eq_false. destruct (decide (unit_ = RESOURCE_UNIT k)), (decide (m ∈ RESOURCE_ACCOUNTING k)); naive_solver.
Qed.
