(* ===== verification/ResourceModel.v ===== *)
(** Participant resource-budget carriers and their validators
    ([raes_contracts/contracts/participant_resource_budgets.py]). A carrier is
    its record of fields; the single-valued [schema_version] tag is left out.
    [validate_X] is [X.model_validate] on a payload of that shape: the field
    constraints, then the [mode="after"] validator. *)
From S2P Require Import Prelude.
From S2P Require Import Contracts.
From S2P Require Import ResourceTypes.
Local Open Scope string_scope.
Local Open Scope list_scope.
Local Open Scope Z_scope.

Record ParticipantResourceOwner : Type := Owner {
  owner_id : string;
  owner_owner_kind : owner_kind;
  owner_ref : string;
}.
#[export] Instance Owner_eq_dec : EqDecision ParticipantResourceOwner.
Proof. solve_decision. Defined.

Definition validate_owner (o : ParticipantResourceOwner) : result ParticipantResourceOwner :=
  _ ← require_fields [("owner_id", nonempty (owner_id o)); ("owner_ref", nonempty (owner_ref o))];
  Ok o.

Record ParticipantResourceQuantity : Type := Quantity {
  q_resource_kind : resource_kind;
  q_unit : string;
  q_accounting_mode : accounting_mode;
  q_meter_profile_ref : string;
  q_amount : Z;
}.

Definition validate_quantity (q : ParticipantResourceQuantity) : result ParticipantResourceQuantity :=
  _ ← require_fields
    [("unit", nonempty (q_unit q)); ("meter_profile_ref", nonempty (q_meter_profile_ref q));
     ("amount", in_range 0 max_amount (q_amount q))];
  _ ← require_quantity_semantics (q_resource_kind q) (q_unit q) (q_accounting_mode q);
  Ok q.

Record ParticipantResourceFairness : Type := Fairness {
  f_policy : string;
  f_priority_class : string;
  f_weight : Z;
  f_protected : bool;
  f_borrowing : string;
  f_reclaim : string;
  f_max_queue_ticks : Z;
  f_starvation_bound_ticks : Z;
}.

Definition validate_fairness (f : ParticipantResourceFairness) : result ParticipantResourceFairness :=
  _ ← require_fields
    [("policy", nonempty (f_policy f)); ("priority_class", nonempty (f_priority_class f));
     ("weight", in_range 1 1000000 (f_weight f)); ("borrowing", nonempty (f_borrowing f));
     ("reclaim", nonempty (f_reclaim f)); ("max_queue_ticks", in_range 0 max_ticks (f_max_queue_ticks f));
     ("starvation_bound_ticks", in_range 1 max_ticks (f_starvation_bound_ticks f))];
  Ok f.

Inductive demand_provenance : Type := authored | legacy_maximum.

Record ParticipantResourceBudgetDemand : Type := BudgetDemand {
  bd_budget_id : string;
  bd_owner : ParticipantResourceOwner;
  bd_pool_ref : string;
  bd_quantity : ParticipantResourceQuantity;
  bd_limit : Z;
  bd_reservation : Z;
  bd_reset : reset_mode;
  bd_window_ticks : option Z;
  bd_parent_budget_ref : option string;
  bd_evidence_refs : list string;
  bd_provenance : demand_provenance;
}.

Definition optional (p : Z -> bool) (o : option Z) : bool :=
  match o with Some z => p z | None => true end.

Definition optional_nonempty (o : option string) : bool :=
  match o with Some s => nonempty s | None => true end.

Definition validate_demand (d : ParticipantResourceBudgetDemand) : result ParticipantResourceBudgetDemand :=
  _ ← validate_owner (bd_owner d);
  _ ← validate_quantity (bd_quantity d);
  _ ← require_fields
    [("budget_id", nonempty (bd_budget_id d)); ("pool_ref", nonempty (bd_pool_ref d));
     ("limit", in_range 1 max_amount (bd_limit d)); ("reservation", in_range 1 max_amount (bd_reservation d));
     ("window_ticks", optional (in_range 1 max_ticks) (bd_window_ticks d));
     ("parent_budget_ref", optional_nonempty (bd_parent_budget_ref d));
     ("evidence_refs", forallb nonempty (bd_evidence_refs d))];
  _ ← raise_if (bd_limit d <? bd_reservation d) (ValueError "resource reservation cannot exceed its limit");
  let windowed := bool_decide (q_accounting_mode (bd_quantity d) = windowed_counter) in
  _ ← raise_if (xorb windowed (bool_decide (is_Some (bd_window_ticks d))))
    (ValueError "windowed resource demands require window_ticks and other modes forbid it");
  _ ← raise_if (negb (py_unique (bd_evidence_refs d))) (ValueError "resource demand evidence_refs must be unique");
  _ ← raise_if (bool_decide (q_resource_kind (bd_quantity d) = storage_growth)
                && bool_decide (bd_reset d <> reset_reconciled))
    (ValueError "storage_growth resource demand requires reconciled reset");
  Ok d.

Record ParticipantResourcePoolCapacity : Type := PoolCapacity {
  pc_pool_ref : string;
  pc_owner_kind : owner_kind;
  pc_owner_ref : string;
  pc_resource_kind : resource_kind;
  pc_unit : string;
  pc_accounting_mode : accounting_mode;
  pc_meter_profile_ref : string;
  pc_capacity : Z;
  pc_tenant_isolation : isolation_strength;
  pc_configuration_digest : string;
  pc_fairness_policy : string;
  pc_priority_classes : list string;
  pc_borrowing : string;
  pc_reclaim : string;
  pc_max_queue_ticks : Z;
  pc_starvation_bound_ticks : Z;
  pc_protected_capacity : Z;
  pc_evidence_contract_ids : list string;
}.

Definition nonempty_list (l : list string) : bool := bool_decide (l <> []) && forallb nonempty l.

Definition validate_pool_capacity (p : ParticipantResourcePoolCapacity) : result ParticipantResourcePoolCapacity :=
  _ ← require_fields
    [("pool_ref", nonempty (pc_pool_ref p)); ("owner_ref", nonempty (pc_owner_ref p));
     ("unit", nonempty (pc_unit p)); ("meter_profile_ref", nonempty (pc_meter_profile_ref p));
     ("capacity", in_range 1 max_amount (pc_capacity p));
     ("configuration_digest", prefixed_digest (pc_configuration_digest p));
     ("fairness_policy", nonempty (pc_fairness_policy p));
     ("priority_classes", nonempty_list (pc_priority_classes p));
     ("borrowing", nonempty (pc_borrowing p)); ("reclaim", nonempty (pc_reclaim p));
     ("max_queue_ticks", in_range 0 max_ticks (pc_max_queue_ticks p));
     ("starvation_bound_ticks", in_range 1 max_ticks (pc_starvation_bound_ticks p));
     ("protected_capacity", in_range 0 max_amount (pc_protected_capacity p));
     ("evidence_contract_ids", nonempty_list (pc_evidence_contract_ids p))];
  _ ← require_quantity_semantics (pc_resource_kind p) (pc_unit p) (pc_accounting_mode p);
  _ ← raise_if (pc_capacity p <? pc_protected_capacity p)
    (ValueError "protected capacity cannot exceed configured capacity");
  _ ← raise_if (negb (py_unique (pc_priority_classes p))) (ValueError "pool priority classes must be unique");
  _ ← raise_if (negb (py_unique (pc_evidence_contract_ids p)))
    (ValueError "pool evidence contract ids must be unique");
  Ok p.

(** ** Budget state *)

Record ParticipantResourceBudgetState : Type := BudgetState {
  bs_state_ref : string;
  bs_budget_id : string;
  bs_policy_address : string;
  bs_owner_kind : owner_kind;
  bs_owner_ref : string;
  bs_pool_ref : string;
  bs_resource_kind : resource_kind;
  bs_unit : string;
  bs_accounting_mode : accounting_mode;
  bs_meter_profile_ref : string;
  bs_reset : reset_mode;
  bs_generation : Z;
  bs_limit : Z;
  bs_configured_capacity : Z;
  bs_reserved : Z;
  bs_current_use : Z;
  bs_cumulative_use : Z;
  bs_throttled : Z;
  bs_rejected : Z;
  bs_reconciliation_status : reconciliation_status;
  bs_last_event_ref : string;
  bs_evidence_refs : list string;
}.

Definition validate_budget_state (s : ParticipantResourceBudgetState) : result ParticipantResourceBudgetState :=
  _ ← require_fields
    [("state_ref", nonempty (bs_state_ref s)); ("budget_id", nonempty (bs_budget_id s));
     ("policy_address", nonempty (bs_policy_address s)); ("owner_ref", nonempty (bs_owner_ref s));
     ("pool_ref", nonempty (bs_pool_ref s)); ("unit", nonempty (bs_unit s));
     ("meter_profile_ref", nonempty (bs_meter_profile_ref s)); ("generation", at_least 0 (bs_generation s));
     ("limit", in_range 1 max_amount (bs_limit s));
     ("configured_capacity", in_range 1 max_amount (bs_configured_capacity s));
     ("reserved", in_range 0 max_amount (bs_reserved s));
     ("current_use", in_range 0 max_amount (bs_current_use s));
     ("cumulative_use", in_range 0 max_amount (bs_cumulative_use s));
     ("throttled", at_least 0 (bs_throttled s)); ("rejected", at_least 0 (bs_rejected s));
     ("last_event_ref", nonempty (bs_last_event_ref s));
     ("evidence_refs", forallb nonempty (bs_evidence_refs s))];
  _ ← require_quantity_semantics (bs_resource_kind s) (bs_unit s) (bs_accounting_mode s);
  let expected_ref := participant_resource_budget_state_ref (bs_policy_address s) (bs_budget_id s) in
  _ ← raise_if (bool_decide (bs_state_ref s <> expected_ref))
    (ValueError "resource budget state_ref must equal its canonical policy-scoped identity");
  _ ← raise_if (bs_limit s <? bs_reserved s + bs_current_use s)
    (ValueError "resource budget reserved and current use cannot exceed limit");
  _ ← raise_if (bs_configured_capacity s <? bs_reserved s + bs_current_use s)
    (ValueError "resource budget reserved and current use cannot exceed configured capacity");
  _ ← raise_if (negb (py_unique (bs_evidence_refs s))) (ValueError "resource budget evidence refs must be unique");
  Ok s.

(** ** Measurements *)

Record ParticipantResourceMeasurementRequirement : Type := MeasurementRequirement {
  mr_budget_state_ref : string;
  mr_resource_kind : resource_kind;
  mr_unit : string;
  mr_meter_profile_ref : string;
  mr_reserved : Z;
}.

Definition validate_measurement_requirement (r : ParticipantResourceMeasurementRequirement)
    : result ParticipantResourceMeasurementRequirement :=
  _ ← require_fields
    [("budget_state_ref", nonempty (mr_budget_state_ref r)); ("unit", nonempty (mr_unit r));
     ("meter_profile_ref", nonempty (mr_meter_profile_ref r)); ("reserved", in_range 0 max_amount (mr_reserved r))];
  _ ← raise_if (bool_decide (RESOURCE_ACCOUNTING (mr_resource_kind r) = []))
    (ValueError "resource measurement requires supported quantity semantics");
  _ ← raise_if (bool_decide (mr_unit r <> RESOURCE_UNIT (mr_resource_kind r)))
    (ValueError "resource measurement requirement unit must match its resource kind");
  Ok r.

Record ParticipantResourceMeasurement : Type := Measurement {
  me_budget_state_ref : string;
  me_operation_id : string;
  me_execution_generation : Z;
  me_resource_kind : resource_kind;
  me_unit : string;
  me_meter_profile_ref : string;
  me_measured : Z;
  me_evidence_refs : list string;
}.

Definition validate_measurement (m : ParticipantResourceMeasurement) : result ParticipantResourceMeasurement :=
  _ ← require_fields
    [("budget_state_ref", nonempty (me_budget_state_ref m)); ("operation_id", nonempty (me_operation_id m));
     ("execution_generation", at_least 0 (me_execution_generation m)); ("unit", nonempty (me_unit m));
     ("meter_profile_ref", nonempty (me_meter_profile_ref m)); ("measured", in_range 0 max_amount (me_measured m));
     ("evidence_refs", nonempty_list (me_evidence_refs m))];
  _ ← raise_if (bool_decide (me_unit m <> RESOURCE_UNIT (me_resource_kind m)))
    (ValueError "resource measurement unit must match its resource kind");
  _ ← raise_if (negb (py_unique (me_evidence_refs m))) (ValueError "resource measurement evidence refs must be unique");
  Ok m.

(** ** Physical pools *)

Record ParticipantResourcePoolAllocation : Type := PoolAllocation {
  pa_budget_state_ref : string;
  pa_policy_address : string;
  pa_budget_id : string;
  pa_generation : Z;
  pa_priority_class : string;
  pa_weight : Z;
  pa_protected : bool;
  pa_borrowing : string;
  pa_reclaim : string;
  pa_max_queue_ticks : Z;
  pa_starvation_bound_ticks : Z;
  pa_reserved : Z;
  pa_current_use : Z;
  pa_cumulative_use : Z;
}.

Definition validate_pool_allocation (a : ParticipantResourcePoolAllocation) : result ParticipantResourcePoolAllocation :=
  _ ← require_fields
    [("budget_state_ref", nonempty (pa_budget_state_ref a)); ("policy_address", nonempty (pa_policy_address a));
     ("budget_id", nonempty (pa_budget_id a)); ("generation", at_least 0 (pa_generation a));
     ("priority_class", nonempty (pa_priority_class a)); ("weight", in_range 1 1000000 (pa_weight a));
     ("borrowing", nonempty (pa_borrowing a)); ("reclaim", nonempty (pa_reclaim a));
     ("max_queue_ticks", in_range 0 max_ticks (pa_max_queue_ticks a));
     ("starvation_bound_ticks", in_range 1 max_ticks (pa_starvation_bound_ticks a));
     ("reserved", in_range 0 max_amount (pa_reserved a)); ("current_use", in_range 0 max_amount (pa_current_use a));
     ("cumulative_use", in_range 0 max_amount (pa_cumulative_use a))];
  let expected_ref := participant_resource_budget_state_ref (pa_policy_address a) (pa_budget_id a) in
  _ ← raise_if (bool_decide (pa_budget_state_ref a <> expected_ref))
    (ValueError "pool allocation must reference its canonical policy-scoped budget state");
  Ok a.

Record ParticipantResourcePoolState : Type := PoolState {
  ps_pool_state_ref : string;
  ps_pool_ref : string;
  ps_owner_kind : owner_kind;
  ps_owner_ref : string;
  ps_resource_kind : resource_kind;
  ps_unit : string;
  ps_accounting_mode : accounting_mode;
  ps_meter_profile_ref : string;
  ps_capacity : Z;
  ps_protected_capacity : Z;
  ps_fairness_policy : string;
  ps_priority_classes : list string;
  ps_borrowing : string;
  ps_reclaim : string;
  ps_max_queue_ticks : Z;
  ps_starvation_bound_ticks : Z;
  ps_allocations : dict string ParticipantResourcePoolAllocation;
}.

(** What one allocation holds of the pool, by accounting mode. *)
Definition allocation_use (mode : accounting_mode) (a : ParticipantResourcePoolAllocation) : Z :=
  if decide (mode = reservable_gauge \/ mode = lease) then pa_current_use a + pa_reserved a
  else pa_cumulative_use a + pa_reserved a.

Definition pool_allocated_total (p : ParticipantResourcePoolState) : Z :=
  py_sum (allocation_use (ps_accounting_mode p) <$> dict_values (ps_allocations p)).

Definition validate_pool_allocations (p : ParticipantResourcePoolState) : result unit :=
  mfold (fun _ kv =>
    let '(allocation_ref, a) := kv in
    _ ← raise_if (bool_decide (allocation_ref <> pa_budget_state_ref a))
      (ValueError "pool allocation map key must equal budget_state_ref");
    _ ← raise_if (bool_decide (pa_priority_class a ∉ ps_priority_classes p))
      (ValueError "pool allocation priority class must be configured");
    _ ← raise_if (bool_decide (pa_borrowing a <> ps_borrowing p \/ pa_reclaim a <> ps_reclaim p))
      (ValueError "pool allocation borrowing and reclaim must match pool authority");
    raise_if ((pa_max_queue_ticks a <? ps_max_queue_ticks p)
              || (pa_starvation_bound_ticks a <? ps_starvation_bound_ticks p))
      (ValueError "pool allocation fairness bounds are weaker than required"))
    tt (dict_items (ps_allocations p)).

Definition validate_pool_state (p : ParticipantResourcePoolState) : result ParticipantResourcePoolState :=
  _ ← require_fields
    [("pool_state_ref", nonempty (ps_pool_state_ref p)); ("pool_ref", nonempty (ps_pool_ref p));
     ("owner_ref", nonempty (ps_owner_ref p)); ("unit", nonempty (ps_unit p));
     ("meter_profile_ref", nonempty (ps_meter_profile_ref p)); ("capacity", in_range 1 max_amount (ps_capacity p));
     ("protected_capacity", in_range 0 max_amount (ps_protected_capacity p));
     ("fairness_policy", nonempty (ps_fairness_policy p));
     ("priority_classes", nonempty_list (ps_priority_classes p));
     ("borrowing", nonempty (ps_borrowing p)); ("reclaim", nonempty (ps_reclaim p));
     ("max_queue_ticks", in_range 0 max_ticks (ps_max_queue_ticks p));
     ("starvation_bound_ticks", in_range 1 max_ticks (ps_starvation_bound_ticks p));
     ("allocations", forallb nonempty (dict_keys (ps_allocations p)))];
  _ ← mmap validate_pool_allocation (dict_values (ps_allocations p));
  _ ← require_quantity_semantics (ps_resource_kind p) (ps_unit p) (ps_accounting_mode p);
  let expected_ref := participant_resource_pool_state_ref (ps_pool_ref p) (ps_owner_kind p) (ps_owner_ref p)
    (ps_resource_kind p) (ps_unit p) (ps_accounting_mode p) (ps_meter_profile_ref p) in
  _ ← raise_if (bool_decide (ps_pool_state_ref p <> expected_ref))
    (ValueError "pool_state_ref must equal the canonical exact-pool identity");
  _ ← raise_if (ps_capacity p <? ps_protected_capacity p)
    (ValueError "protected capacity cannot exceed physical pool capacity");
  _ ← validate_pool_allocations p;
  _ ← raise_if (ps_capacity p <? pool_allocated_total p)
    (ValueError "physical pool allocations cannot exceed capacity");
  Ok p.

(** ** Ledger events *)

Record ParticipantResourceBudgetEvent : Type := BudgetEvent {
  ev_event_id : string;
  ev_operation_id : string;
  ev_budget_state_ref : string;
  ev_budget_id : string;
  ev_policy_address : string;
  ev_owner_ref : string;
  ev_pool_ref : string;
  ev_execution_generation : Z;
  ev_transition : event_transition;
  ev_disposition : event_disposition;
  ev_requested : Z;
  ev_measured : option Z;
  ev_resource_kind : resource_kind;
  ev_unit : string;
  ev_meter_profile_ref : string;
  ev_predecessor_event_ref : option string;
  ev_evidence_refs : list string;
}.

Definition validate_budget_event (e : ParticipantResourceBudgetEvent) : result ParticipantResourceBudgetEvent :=
  _ ← require_fields
    [("event_id", nonempty (ev_event_id e)); ("operation_id", nonempty (ev_operation_id e));
     ("budget_state_ref", nonempty (ev_budget_state_ref e)); ("budget_id", nonempty (ev_budget_id e));
     ("policy_address", nonempty (ev_policy_address e)); ("owner_ref", nonempty (ev_owner_ref e));
     ("pool_ref", nonempty (ev_pool_ref e)); ("execution_generation", at_least 0 (ev_execution_generation e));
     ("requested", in_range 0 max_amount (ev_requested e));
     ("measured", optional (in_range 0 max_amount) (ev_measured e)); ("unit", nonempty (ev_unit e));
     ("meter_profile_ref", nonempty (ev_meter_profile_ref e));
     ("predecessor_event_ref", optional_nonempty (ev_predecessor_event_ref e));
     ("evidence_refs", forallb nonempty (ev_evidence_refs e))];
  let expected_ref := participant_resource_budget_state_ref (ev_policy_address e) (ev_budget_id e) in
  _ ← raise_if (bool_decide (ev_budget_state_ref e <> expected_ref))
    (ValueError "resource budget event must reference its canonical policy-scoped state");
  _ ← raise_if (bool_decide (ev_disposition e <> EVENT_DISPOSITION (ev_transition e)))
    (ValueError "resource budget event disposition must match its transition");
  _ ← raise_if (bool_decide (ev_transition e = t_commit) && bool_decide (ev_measured e = None))
    (ValueError "commit events require measured resource use");
  _ ← raise_if (negb (py_unique (ev_evidence_refs e))) (ValueError "resource budget event evidence refs must be unique");
  Ok e.
