(* ===== verification/ResourcePolicy.v ===== *)
(** Budget-policy and capability validation
    ([raes_contracts/contracts/participant_resource_validation.py]): unique
    identifiers, resolved owners and parents, acyclic parents with monotone
    limits, and no two demands on one canonical pool. *)
From S2P Require Import Prelude.
From S2P Require Import Contracts.
From S2P Require Import ResourceTypes.
From S2P Require Import ResourceModel.
Local Open Scope string_scope.
Local Open Scope list_scope.
Local Open Scope Z_scope.

Definition quantity_identity (q : ParticipantResourceQuantity) : resource_kind * string * accounting_mode * string :=
  (q_resource_kind q, q_unit q, q_accounting_mode q, q_meter_profile_ref q).

(** The depth-first walk along the parent reference of a demand; the walk
    follows distinct identifiers, so their number bounds its depth. *)
Fixpoint visit_demand (fuel : nat) (demands : dict string ParticipantResourceBudgetDemand) (budget_id : string)
    (st : gset string * gset string) : result (gset string * gset string) :=
  let '(visiting, visited) := st in
  if decide (budget_id ∈ visiting) then Raise (ValueError "resource-budget policy parent graph must be acyclic")
  else if decide (budget_id ∈ visited) then Ok (visiting, visited)
  else
    match fuel with
    | O => Raise OutOfFuel
    | S fuel =>
        let visiting := {[budget_id]} ∪ visiting in
        demand ← dict_index demands budget_id;
        st ← match bd_parent_budget_ref demand with
             | Some parent_ref =>
                 parent ← dict_index demands parent_ref;
                 _ ← raise_if (bool_decide (quantity_identity (bd_quantity demand) <> quantity_identity (bd_quantity parent)))
                   (ValueError "resource-budget parent must use the same resource, unit, mode, and meter");
                 _ ← raise_if (bd_limit parent <? bd_limit demand)
                   (ValueError "resource-budget child limit cannot exceed its parent");
                 visit_demand fuel demands parent_ref (visiting, visited)
             | None => Ok (visiting, visited)
             end;
        Ok (st.1 ∖ {[budget_id]}, {[budget_id]} ∪ st.2)
    end.

Definition children_by_parent (demands : dict string ParticipantResourceBudgetDemand)
    : dict string (list ParticipantResourceBudgetDemand) :=
  group_by bd_parent_budget_ref (dict_values demands).

Definition validate_parent_limits (demands : dict string ParticipantResourceBudgetDemand) : result unit :=
  _ ← mfold (fun st budget_id => visit_demand (length (dict_keys demands)) demands budget_id st)
        (∅, ∅) (dict_keys demands);
  mfold (fun _ kv =>
    parent ← dict_index demands kv.1;
    raise_if (bd_limit parent <? py_sum (bd_limit <$> kv.2))
      (ValueError "resource-budget sibling limits cannot exceed their parent limit"))
    tt (dict_items (children_by_parent demands)).

Definition demand_pool_key (d : ParticipantResourceBudgetDemand)
    : string * owner_kind * string * (resource_kind * string * accounting_mode * string) :=
  (bd_pool_ref d, owner_owner_kind (bd_owner d), owner_ref (bd_owner d), quantity_identity (bd_quantity d)).

(** [", ".join(l)]. *)
Fixpoint join_comma (l : list string) : string :=
  match l with
  | [] => ""
  | [s] => s
  | s :: l => s +:+ ", " +:+ join_comma l
  end.

Definition missing_kinds (required : list resource_kind) (demands : list ParticipantResourceBudgetDemand) : list string :=
  py_sorted (resource_kind_str <$>
    base.filter (fun k => k ∉ ((fun d => q_resource_kind (bd_quantity d)) <$> demands)) required).

Definition require_resolved (owners : dict string ParticipantResourceOwner)
    (demands : dict string ParticipantResourceBudgetDemand) (d : ParticipantResourceBudgetDemand) : result unit :=
  _ ← raise_if (bool_decide (owners !! owner_id (bd_owner d) <> Some (bd_owner d)))
    (ValueError "resource-budget demand owner must resolve exactly in policy owners");
  raise_if match bd_parent_budget_ref d with
           | Some parent => bool_decide (parent ∉ dict_keys demands)
           | None => false
           end
    (ValueError "resource-budget demand parent must resolve in policy demands").

Definition validate_budget_policy (owners : list ParticipantResourceOwner)
    (demands : list ParticipantResourceBudgetDemand) (required : list resource_kind) : result unit :=
  _ ← raise_if (negb (py_unique (owner_id <$> owners))) (ValueError "resource-budget policy owner ids must be unique");
  _ ← raise_if (negb (py_unique (bd_budget_id <$> demands)))
    (ValueError "resource-budget policy budget ids must be unique");
  let owners_by_id := dict_of_list ((fun o => (owner_id o, o)) <$> owners) in
  let demands_by_id := dict_of_list ((fun d => (bd_budget_id d, d)) <$> demands) in
  let missing := missing_kinds required demands in
  _ ← raise_if (bool_decide (missing <> []))
    (ValueError ("resource-budget policy requires complete resource vector: " +:+ join_comma missing));
  _ ← mfold (fun _ d => require_resolved owners_by_id demands_by_id d) tt demands;
  _ ← validate_parent_limits demands_by_id;
  raise_if (negb (bool_decide (NoDup (demand_pool_key <$> demands))))
    (ValueError "resource-budget demands cannot alias the same canonical resource pool").

Record ParticipantResourceBudgetPolicy : Type := BudgetPolicy {
  bp_policy_id : string;
  bp_policy_address : string;
  bp_policy_digest : string;
  bp_owners : list ParticipantResourceOwner;
  bp_demands : list ParticipantResourceBudgetDemand;
  bp_fairness : ParticipantResourceFairness;
}.

Definition validate_policy (p : ParticipantResourceBudgetPolicy) : result ParticipantResourceBudgetPolicy :=
  _ ← require_fields
    [("policy_id", nonempty (bp_policy_id p)); ("policy_address", nonempty (bp_policy_address p));
     ("policy_digest", prefixed_digest (bp_policy_digest p)); ("owners", bool_decide (bp_owners p <> []));
     ("demands", negb (Nat.eqb (length (bp_demands p)) 0))];
  _ ← mmap validate_owner (bp_owners p);
  _ ← mmap validate_demand (bp_demands p);
  _ ← validate_fairness (bp_fairness p);
  _ ← validate_budget_policy (bp_owners p) (bp_demands p) resource_kinds;
  Ok p.

(** ** Capabilities *)

Inductive support_strength : Type := unsupported | disclosed_weak | bounded | exact.
#[export] Instance support_strength_eq_dec : EqDecision support_strength.
Proof. solve_decision. Defined.

Record ParticipantResourceBudgetCapabilities : Type := BudgetCapabilities {
  cap_support_strength : support_strength;
  cap_owner_kinds : list owner_kind;
  cap_resource_kinds : list resource_kind;
  cap_accounting_modes : list accounting_mode;
  cap_reset_modes : list reset_mode;
  cap_fairness_policies : list string;
  cap_isolation_strengths : list isolation_strength;
  cap_configured_pools : list ParticipantResourcePoolCapacity;
  cap_realization_contract_ids : list string;
  cap_cross_range_pool_refs : list string;
}.

Definition unique_of {A} `{EqDecision A} (l : list A) : bool := bool_decide (NoDup l).

Definition require_unique_fields (c : ParticipantResourceBudgetCapabilities) : result unit :=
  mfold (fun _ f => raise_if (negb f.2) (ValueError (f.1 +:+ " must be unique"))) tt
    [("supported_owner_kinds", unique_of (cap_owner_kinds c));
     ("supported_resource_kinds", unique_of (cap_resource_kinds c));
     ("supported_accounting_modes", unique_of (cap_accounting_modes c));
     ("supported_reset_modes", unique_of (cap_reset_modes c));
     ("supported_fairness_policies", unique_of (cap_fairness_policies c));
     ("supported_isolation_strengths", unique_of (cap_isolation_strengths c));
     ("realization_contract_ids", unique_of (cap_realization_contract_ids c));
     ("cross_range_pool_refs", unique_of (cap_cross_range_pool_refs c))].

Definition validate_cross_range_pools (c : ParticipantResourceBudgetCapabilities) : result unit :=
  mfold (fun _ ref =>
    let pools := base.filter (fun p => pc_pool_ref p = ref) (cap_configured_pools c) in
    _ ← raise_if (Nat.eqb (length pools) 0) (ValueError "cross-range pool ref must resolve");
    raise_if (existsb (fun p => bool_decide (pc_tenant_isolation p <> tenant_partitioned)) pools)
      (ValueError "cross-range shared pools require tenant_partitioned isolation"))
    tt (cap_cross_range_pool_refs c).

Definition validate_configured_pool (c : ParticipantResourceBudgetCapabilities)
    (p : ParticipantResourcePoolCapacity) : result unit :=
  mfold (fun _ f =>
    raise_if (negb f.2) (ValueError ("configured pool " +:+ f.1 +:+ " is not declared supported"))) tt
    [("owner kind", bool_decide (pc_owner_kind p ∈ cap_owner_kinds c));
     ("resource kind", bool_decide (pc_resource_kind p ∈ cap_resource_kinds c));
     ("accounting mode", bool_decide (pc_accounting_mode p ∈ cap_accounting_modes c));
     ("fairness policy", bool_decide (pc_fairness_policy p ∈ cap_fairness_policies c));
     ("isolation strength", bool_decide (pc_tenant_isolation p ∈ cap_isolation_strengths c))].

Definition configured_pool_key (p : ParticipantResourcePoolCapacity) : string * resource_kind * string :=
  (pc_pool_ref p, pc_resource_kind p, pc_meter_profile_ref p).

Definition validate_budget_capabilities (c : ParticipantResourceBudgetCapabilities) : result unit :=
  _ ← require_unique_fields c;
  _ ← raise_if (negb (bool_decide (NoDup (configured_pool_key <$> cap_configured_pools c))))
    (ValueError "configured pool resource entries must be unique");
  _ ← validate_cross_range_pools c;
  mfold (fun _ p => validate_configured_pool c p) tt (cap_configured_pools c).

Definition validate_capabilities (c : ParticipantResourceBudgetCapabilities)
    : result ParticipantResourceBudgetCapabilities :=
  _ ← require_fields
    [("supported_owner_kinds", bool_decide (cap_owner_kinds c <> []));
     ("supported_resource_kinds", bool_decide (cap_resource_kinds c <> []));
     ("supported_accounting_modes", bool_decide (cap_accounting_modes c <> []));
     ("supported_reset_modes", bool_decide (cap_reset_modes c <> []));
     ("supported_fairness_policies", nonempty_list (cap_fairness_policies c));
     ("supported_isolation_strengths", bool_decide (cap_isolation_strengths c <> []));
     ("configured_pools", negb (Nat.eqb (length (cap_configured_pools c)) 0));
     ("realization_contract_ids", nonempty_list (cap_realization_contract_ids c));
     ("cross_range_pool_refs", forallb nonempty (cap_cross_range_pool_refs c))];
  _ ← mmap validate_pool_capacity (cap_configured_pools c);
  _ ← validate_budget_capabilities c;
  Ok c.
