(* ===== verification/ResourceLedger.v ===== *)
(** Runtime resource state and the physical-pool ledger: the budget carriers
    of a snapshot ([raes_contracts/runtime_state.py]), pool allocations
    ([raes_runtime/participant_resource_pool_ledger.py]) and the
    initialization of budgets and pools
    ([raes_runtime/participant_resource_budgets.py]). *)
From S2P Require Import Prelude.
From S2P Require Import Contracts.
From S2P Require Import Diagnostics.
From S2P Require Import ResourceTypes.
From S2P Require Import ResourceModel.
Local Open Scope string_scope.
Local Open Scope list_scope.
Local Open Scope Z_scope.

(** ** Compiled policies *)

Record ResourceDemand : Type := Demand {
  rd_budget_id : string;
  rd_owner_id : string;
  rd_owner_kind : owner_kind;
  rd_owner_address : string;
  rd_pool_ref : string;
  rd_resource_kind : resource_kind;
  rd_unit : string;
  rd_accounting_mode : accounting_mode;
  rd_meter_profile_ref : string;
  rd_limit : Z;
  rd_reservation : Z;
  rd_reset : reset_mode;
  rd_window_ticks : option Z;
  rd_parent_budget_ref : option string;
  rd_evidence_refs : list string;
  rd_provenance : demand_provenance;
}.

Record ResourcePolicy : Type := Policy {
  pol_address : string;
  pol_profile : string;
  pol_resource_demands : list ResourceDemand;
  pol_resource_fairness : ParticipantResourceFairness;
}.

(** ** Snapshots *)

(** The budget carriers of a snapshot; [snap_other] stands for its other
    carriers, which the budget operations copy unchanged. *)
Record RuntimeSnapshot (O : Type) : Type := Snapshot {
  snap_other : O;
  budget_states : dict string ParticipantResourceBudgetState;
  pool_states : dict string ParticipantResourcePoolState;
  budget_events : dict string ParticipantResourceBudgetEvent;
}.
Arguments Snapshot {O} snap_other budget_states pool_states budget_events.
Arguments snap_other {O} r.
Arguments budget_states {O} r.
Arguments pool_states {O} r.
Arguments budget_events {O} r.

Record ApplyResult (O : Type) : Type := Applied {
  success : bool;
  ar_snapshot : RuntimeSnapshot O;
  diagnostics : list Diagnostic;
}.
Arguments Applied {O} success ar_snapshot diagnostics.
Arguments success {O} a.
Arguments ar_snapshot {O} a.
Arguments diagnostics {O} a.

Definition check_keyed {V} (validate : V -> result V) (key : V -> string) (message : string)
    (d : dict string V) : result unit :=
  mfold (fun _ kv =>
    v ← validate kv.2;
    raise_if (bool_decide (kv.1 <> key v)) (ValueError message)) tt (dict_items d).

Definition require_participant_resource_budget_snapshot
    (states : dict string ParticipantResourceBudgetState) (pools : dict string ParticipantResourcePoolState)
    (events : dict string ParticipantResourceBudgetEvent) : result unit :=
  _ ← check_keyed validate_budget_state bs_state_ref "participant resource-budget state key must equal state_ref" states;
  _ ← check_keyed validate_pool_state ps_pool_state_ref "participant resource-pool state key must equal pool_state_ref" pools;
  check_keyed validate_budget_event ev_event_id "participant resource-budget event key must equal event_id" events.

(** [snapshot.with_entries(dict(snapshot.entries), ...)] updating the budget
    carriers: a new snapshot is constructed, so they are validated. *)
Definition with_budgets {O} (s : RuntimeSnapshot O) (states : dict string ParticipantResourceBudgetState)
    (pools : dict string ParticipantResourcePoolState) (events : dict string ParticipantResourceBudgetEvent)
    : result (RuntimeSnapshot O) :=
  _ ← require_participant_resource_budget_snapshot states pools events;
  Ok (Snapshot (snap_other s) states pools events).

Definition diagnostic (code policy_address message : string) : Diagnostic :=
  Diag code "participant-runtime" ("/participant_resource_budgets/" +:+ policy_address) message ERROR.

(** ** Pool allocations *)

Definition pool_state_ref (p : ParticipantResourcePoolCapacity) : string :=
  participant_resource_pool_state_ref (pc_pool_ref p) (pc_owner_kind p) (pc_owner_ref p) (pc_resource_kind p)
    (pc_unit p) (pc_accounting_mode p) (pc_meter_profile_ref p).

Definition new_pool_state (p : ParticipantResourcePoolCapacity) : result ParticipantResourcePoolState :=
  validate_pool_state
    (PoolState (pool_state_ref p) (pc_pool_ref p) (pc_owner_kind p) (pc_owner_ref p) (pc_resource_kind p)
       (pc_unit p) (pc_accounting_mode p) (pc_meter_profile_ref p) (pc_capacity p) (pc_protected_capacity p)
       (pc_fairness_policy p) (pc_priority_classes p) (pc_borrowing p) (pc_reclaim p) (pc_max_queue_ticks p)
       (pc_starvation_bound_ticks p) (Dict [])).

(** [pool.model_copy(update={"allocations": ...})]. *)
Definition set_allocations (p : ParticipantResourcePoolState)
    (allocations : dict string ParticipantResourcePoolAllocation) : ParticipantResourcePoolState :=
  PoolState (ps_pool_state_ref p) (ps_pool_ref p) (ps_owner_kind p) (ps_owner_ref p) (ps_resource_kind p)
    (ps_unit p) (ps_accounting_mode p) (ps_meter_profile_ref p) (ps_capacity p) (ps_protected_capacity p)
    (ps_fairness_policy p) (ps_priority_classes p) (ps_borrowing p) (ps_reclaim p) (ps_max_queue_ticks p)
    (ps_starvation_bound_ticks p) allocations.

(** [allocation.model_copy] of the counters. *)
Definition set_counters (a : ParticipantResourcePoolAllocation) (generation reserved current_use cumulative_use : Z)
    : ParticipantResourcePoolAllocation :=
  PoolAllocation (pa_budget_state_ref a) (pa_policy_address a) (pa_budget_id a) generation (pa_priority_class a)
    (pa_weight a) (pa_protected a) (pa_borrowing a) (pa_reclaim a) (pa_max_queue_ticks a)
    (pa_starvation_bound_ticks a) reserved current_use cumulative_use.

Definition ensure_allocation (pool : ParticipantResourcePoolState) (budget : ParticipantResourceBudgetState)
    (fairness : ParticipantResourceFairness) : result ParticipantResourcePoolState :=
  match ps_allocations pool !! bs_state_ref budget with
  | Some existing =>
      _ ← raise_if (bool_decide (pa_policy_address existing <> bs_policy_address budget
                                 \/ pa_budget_id existing <> bs_budget_id budget
                                 \/ pa_protected existing <> f_protected fairness))
        (ValueError "physical pool allocation conflicts with its canonical budget state");
      Ok pool
  | None =>
      a ← validate_pool_allocation
        (PoolAllocation (bs_state_ref budget) (bs_policy_address budget) (bs_budget_id budget) (bs_generation budget)
           (f_priority_class fairness) (f_weight fairness) (f_protected fairness) (f_borrowing fairness)
           (f_reclaim fairness) (f_max_queue_ticks fairness) (f_starvation_bound_ticks fairness) 0 0 0);
      Ok (set_allocations pool (<[bs_state_ref budget := a]> (ps_allocations pool)))
  end.

Definition can_reserve (pool : ParticipantResourcePoolState) (budget_state_ref : string) (amount : Z) : result bool :=
  allocation ← dict_index (ps_allocations pool) budget_state_ref;
  let use a := allocation_use (ps_accounting_mode pool) a in
  let total := py_sum (use <$> dict_values (ps_allocations pool)) in
  Ok (if ps_capacity pool <? total + amount then false
      else if pa_protected allocation then true
      else
        let unprotected :=
          py_sum (use <$> base.filter (fun a => pa_protected a = false) (dict_values (ps_allocations pool))) in
        unprotected + amount <=? ps_capacity pool - ps_protected_capacity pool).

Definition reserve_pool_allocation (pool : ParticipantResourcePoolState) (budget_state_ref : string) (amount : Z)
    : result ParticipantResourcePoolState :=
  a ← dict_index (ps_allocations pool) budget_state_ref;
  Ok (set_allocations pool
        (<[budget_state_ref :=
             set_counters a (pa_generation a) (pa_reserved a + amount) (pa_current_use a) (pa_cumulative_use a)]>
           (ps_allocations pool))).

Definition commit_pool_allocation (pool : ParticipantResourcePoolState) (budget_state_ref : string)
    (reserved measured : Z) : result ParticipantResourcePoolState :=
  a ← dict_index (ps_allocations pool) budget_state_ref;
  Ok (set_allocations pool
        (<[budget_state_ref :=
             set_counters a (pa_generation a) (Z.max 0 (pa_reserved a - reserved)) (pa_current_use a)
               (pa_cumulative_use a + measured)]>
           (ps_allocations pool))).

Definition release_pool_allocation (pool : ParticipantResourcePoolState) (budget_state_ref : string) (amount : Z)
    : result ParticipantResourcePoolState :=
  a ← dict_index (ps_allocations pool) budget_state_ref;
  Ok (set_allocations pool
        (<[budget_state_ref :=
             set_counters a (pa_generation a) (Z.max 0 (pa_reserved a - amount)) (pa_current_use a)
               (pa_cumulative_use a)]>
           (ps_allocations pool))).

Definition reconcile_pool_allocation (pool : ParticipantResourcePoolState) (budget : ParticipantResourceBudgetState)
    (generation : Z) (clears : bool) : result ParticipantResourcePoolState :=
  a ← dict_index (ps_allocations pool) (bs_state_ref budget);
  Ok (set_allocations pool
        (<[bs_state_ref budget :=
             set_counters a generation 0 (if clears then 0 else pa_current_use a)
               (if clears then 0 else pa_cumulative_use a)]>
           (ps_allocations pool))).

(** ** Initialization *)

Section initialization.
Context {O : Type}.
Implicit Types (snapshot : RuntimeSnapshot O).

(** The maps the initialization of one request builds up. *)
Record InitializationMutation : Type := InitMutation {
  im_states : dict string ParticipantResourceBudgetState;
  im_pool_states : dict string ParticipantResourcePoolState;
}.

Definition pool_matches (demand : ResourceDemand) (pool : ParticipantResourcePoolCapacity) : bool :=
  bool_decide (pc_pool_ref pool = rd_pool_ref demand)
  && bool_decide (pc_owner_kind pool = rd_owner_kind demand)
  && bool_decide (pc_owner_ref pool = rd_owner_address demand)
  && bool_decide (pc_resource_kind pool = rd_resource_kind demand)
  && bool_decide (pc_unit pool = rd_unit demand)
  && bool_decide (pc_accounting_mode pool = rd_accounting_mode demand)
  && bool_decide (pc_meter_profile_ref pool = rd_meter_profile_ref demand).

Definition matching_pool (demand : ResourceDemand) (configured : list ParticipantResourcePoolCapacity)
    : option ParticipantResourcePoolCapacity :=
  head (base.filter (fun p => pool_matches demand p = true) configured).

Definition initialization_failure snapshot (policy : ResourcePolicy) (code message : string) : ApplyResult O :=
  Applied false snapshot [diagnostic code (pol_address policy) message].

Definition new_budget_state (policy : ResourcePolicy) (demand : ResourceDemand)
    (pool : ParticipantResourcePoolCapacity) (execution_generation : Z) : result ParticipantResourceBudgetState :=
  let state_ref := participant_resource_budget_state_ref (pol_address policy) (rd_budget_id demand) in
  validate_budget_state
    (BudgetState state_ref (rd_budget_id demand) (pol_address policy) (rd_owner_kind demand) (rd_owner_address demand)
       (rd_pool_ref demand) (rd_resource_kind demand) (rd_unit demand) (rd_accounting_mode demand)
       (rd_meter_profile_ref demand) (rd_reset demand) execution_generation (rd_limit demand) (pc_capacity pool)
       0 0 0 0 0 st_reconciled ("initial:" +:+ state_ref) []).

(** Whether the budget exists already, and the conflict it may raise. *)
Definition existing_budget_failure snapshot (execution_generation : Z) (m : InitializationMutation)
    (policy : ResourcePolicy) (demand : ResourceDemand) (state_ref : string)
    : result (bool * option (ApplyResult O)) :=
  match im_states m !! state_ref with
  | None => Ok (false, None)
  | Some existing =>
      existing ← validate_budget_state existing;
      Ok (true,
          if decide (bs_generation existing <> execution_generation) then
            Some (initialization_failure snapshot policy "runtime.participant-resource-state-conflict"
              ("resource budget " +:+ rd_budget_id demand +:+ " already has incompatible state"))
          else None)
  end.

Definition initialize_new_budget snapshot (execution_generation : Z) (m : InitializationMutation)
    (policy : ResourcePolicy) (demand : ResourceDemand) (pool : ParticipantResourcePoolCapacity) (state_ref : string)
    : result (InitializationMutation * option (ApplyResult O)) :=
  budget_state ← new_budget_state policy demand pool execution_generation;
  let exact_pool_ref := pool_state_ref pool in
  physical_pool ← match im_pool_states m !! exact_pool_ref with
                  | None => new_pool_state pool
                  | Some existing => validate_pool_state existing
                  end;
  match ensure_allocation physical_pool budget_state (pol_resource_fairness policy) with
  | Ok physical_pool =>
      Ok (InitMutation (<[state_ref := budget_state]> (im_states m))
                       (<[exact_pool_ref := physical_pool]> (im_pool_states m)), None)
  | Raise (ValueError message) =>
      Ok (m, Some (initialization_failure snapshot policy "runtime.participant-resource-pool-conflict" message))
  | Raise e => Raise e
  end.

Definition initialize_demand snapshot (execution_generation : Z) (configured : list ParticipantResourcePoolCapacity)
    (policy : ResourcePolicy) (m : InitializationMutation) (demand : ResourceDemand)
    : result (InitializationMutation * option (ApplyResult O)) :=
  match matching_pool demand configured with
  | None =>
      Ok (m, Some (initialization_failure snapshot policy "runtime.participant-resource-capacity-missing"
        ("no exact configured capacity matches resource budget " +:+ rd_budget_id demand)))
  | Some pool =>
      if f_protected (pol_resource_fairness policy) && (pc_protected_capacity pool <? rd_reservation demand) then
        Ok (m, Some (initialization_failure snapshot policy "runtime.participant-resource-protected-capacity-missing"
          ("resource budget " +:+ rd_budget_id demand +:+ " lacks its protected reservation")))
      else
        let state_ref := participant_resource_budget_state_ref (pol_address policy) (rd_budget_id demand) in
        existing ← existing_budget_failure snapshot execution_generation m policy demand state_ref;
        if fst existing : bool then Ok (m, existing.2)
        else initialize_new_budget snapshot execution_generation m policy demand pool state_ref
  end.

Definition initialize_participant_resource_budgets snapshot (policies : list ResourcePolicy)
    (configured : list ParticipantResourcePoolCapacity) (execution_generation : Z) : result (ApplyResult O) :=
  r ← until_some (fun m policy =>
        until_some (initialize_demand snapshot execution_generation configured policy) m
          (pol_resource_demands policy))
      (InitMutation (budget_states snapshot) (pool_states snapshot)) policies;
  match r.2 with
  | Some failure => Ok failure
  | None =>
      s ← with_budgets snapshot (im_states r.1) (im_pool_states r.1) (budget_events snapshot);
      Ok (Applied true s [])
  end.
End initialization.
