(* ===== verification/ResourceReservation.v ===== *)
(** Reserving a policy's complete resource vector
    ([raes_runtime/participant_resource_reservation.py]). *)
From S2P Require Import Prelude.
From S2P Require Import Contracts.
From S2P Require Import ResourceTypes.
From S2P Require Import ResourceModel.
From S2P Require Import ResourceLedger.
From stdpp Require Import pretty.
Local Open Scope string_scope.
Local Open Scope list_scope.
Local Open Scope Z_scope.

Definition event_id_of (operation_id state_ref : string) : string := operation_id +:+ ":" +:+ state_ref +:+ ":reserve".

Definition used_capacity (s : ParticipantResourceBudgetState) : Z :=
  if decide (bs_accounting_mode s = reservable_gauge \/ bs_accounting_mode s = lease)
  then bs_current_use s + bs_reserved s
  else bs_cumulative_use s + bs_reserved s.

Definition pool_ref_for_state (s : ParticipantResourceBudgetState) : string :=
  participant_resource_pool_state_ref (bs_pool_ref s) (bs_owner_kind s) (bs_owner_ref s) (bs_resource_kind s)
    (bs_unit s) (bs_accounting_mode s) (bs_meter_profile_ref s).

(** [state.model_copy] of the fields the operations update. *)
Definition set_usage (s : ParticipantResourceBudgetState)
    (generation reserved current_use cumulative_use throttled : Z) (status : reconciliation_status)
    (last_event_ref : string) (evidence_refs : list string) : ParticipantResourceBudgetState :=
  BudgetState (bs_state_ref s) (bs_budget_id s) (bs_policy_address s) (bs_owner_kind s) (bs_owner_ref s) (bs_pool_ref s)
    (bs_resource_kind s) (bs_unit s) (bs_accounting_mode s) (bs_meter_profile_ref s) (bs_reset s) generation
    (bs_limit s) (bs_configured_capacity s) reserved current_use cumulative_use throttled (bs_rejected s) status
    last_event_ref evidence_refs.

(** The three maps a request mutates. *)
Record BudgetMaps : Type := Maps {
  mx_states : dict string ParticipantResourceBudgetState;
  mx_pool_states : dict string ParticipantResourcePoolState;
  mx_events : dict string ParticipantResourceBudgetEvent;
}.

Definition maps_of {O} (s : RuntimeSnapshot O) : BudgetMaps :=
  Maps (budget_states s) (pool_states s) (budget_events s).

Definition with_maps {O} (s : RuntimeSnapshot O) (m : BudgetMaps) : result (RuntimeSnapshot O) :=
  with_budgets s (mx_states m) (mx_pool_states m) (mx_events m).

(** An event about the budget [current], whose measure may be absent. *)
Definition budget_event (event_id operation_id budget_id policy_address : string)
    (current : ParticipantResourceBudgetState) (execution_generation : Z) (t : event_transition)
    (requested : Z) (measured : option Z) (predecessor : string) (evidence_refs : list string)
    : result ParticipantResourceBudgetEvent :=
  validate_budget_event
    (BudgetEvent event_id operation_id (bs_state_ref current) budget_id policy_address (bs_owner_ref current)
       (bs_pool_ref current) execution_generation t (EVENT_DISPOSITION t) requested measured
       (bs_resource_kind current) (bs_unit current) (bs_meter_profile_ref current) (Some predecessor) evidence_refs).

Section reservation.
Context {O : Type}.
Implicit Types (snapshot : RuntimeSnapshot O).

(** The fields of [_ReservationMutation] that do not change. *)
Record ReservationRequest : Type := Request {
  rq_snapshot : RuntimeSnapshot O;
  rq_policy : ResourcePolicy;
  rq_operation_id : string;
  rq_execution_generation : Z;
}.

Record ReservationCheck : Type := Checked {
  ck_demand : ResourceDemand;
  ck_current : option ParticipantResourceBudgetState;
  ck_physical_pool : option ParticipantResourcePoolState;
  ck_amount : Z;
  ck_failure : option (ApplyResult O);
}.

Definition reservation_failure (q : ReservationRequest) (code message : string) : ApplyResult O :=
  Applied false (rq_snapshot q) [diagnostic code (pol_address (rq_policy q)) message].

Definition throttled_result (q : ReservationRequest) (m : BudgetMaps) (demand : ResourceDemand)
    (current : ParticipantResourceBudgetState) (amount : Z) (budget_available : bool) : result (ApplyResult O) :=
  let event_id := rq_operation_id q +:+ ":" +:+ bs_state_ref current +:+ ":throttle" in
  let throttled := set_usage current (bs_generation current) (bs_reserved current) (bs_current_use current)
    (bs_cumulative_use current) (bs_throttled current + 1) (bs_reconciliation_status current) event_id
    (bs_evidence_refs current) in
  event ← budget_event event_id (rq_operation_id q) (rd_budget_id demand) (pol_address (rq_policy q)) current
    (rq_execution_generation q) t_throttle amount None (bs_last_event_ref current) [];
  let capacity_kind := if budget_available then "shared pool" else "logical budget" in
  s ← with_maps (rq_snapshot q)
    (Maps (<[bs_state_ref current := throttled]> (mx_states m)) (mx_pool_states m) (<[event_id := event]> (mx_events m)));
  Ok (Applied false s
    [diagnostic "runtime.participant-resource-throttled" (pol_address (rq_policy q))
       ("resource budget " +:+ rd_budget_id demand +:+ " has insufficient " +:+ capacity_kind +:+ " capacity")]).

Definition requested_amount (demand : ResourceDemand) (requested_quantities : option (dict string Z)) : result Z :=
  let amount := match requested_quantities with
                | Some quantities => default (rd_reservation demand) (quantities !! rd_budget_id demand)
                | None => rd_reservation demand
                end in
  _ ← raise_if (amount <? 0) (ValueError "requested participant resource quantities must be non-negative");
  Ok amount.

Definition budget_state_check (q : ReservationRequest) (m : BudgetMaps) (demand : ResourceDemand) (state_ref : string)
    : result (option ParticipantResourceBudgetState * option (ApplyResult O)) :=
  match mx_states m !! state_ref with
  | None =>
      Ok (None, Some (reservation_failure q "runtime.participant-resource-state-missing"
        ("resource budget " +:+ rd_budget_id demand +:+ " was not initialized")))
  | Some raw =>
      current ← validate_budget_state raw;
      Ok (Some current,
          if decide (bs_generation current <> rq_execution_generation q) then
            Some (reservation_failure q "runtime.participant-resource-stale-generation"
              ("resource budget " +:+ rd_budget_id demand +:+ " is generation " +:+ pretty (bs_generation current)
               +:+ "; request is generation " +:+ pretty (rq_execution_generation q)))
          else None)
  end.

Definition pool_state_check (q : ReservationRequest) (m : BudgetMaps) (demand : ResourceDemand)
    (current : ParticipantResourceBudgetState) (requested_quantities : option (dict string Z))
    : result (option ParticipantResourcePoolState * Z * option (ApplyResult O)) :=
  amount ← requested_amount demand requested_quantities;
  match mx_pool_states m !! pool_ref_for_state current with
  | None =>
      Ok (None, amount, Some (reservation_failure q "runtime.participant-resource-pool-state-missing"
        ("physical pool for resource budget " +:+ rd_budget_id demand +:+ " was not initialized")))
  | Some raw_pool => pool ← validate_pool_state raw_pool; Ok (Some pool, amount, None)
  end.

Definition capacity_failure (q : ReservationRequest) (m : BudgetMaps) (demand : ResourceDemand)
    (current : ParticipantResourceBudgetState) (physical_pool : ParticipantResourcePoolState) (state_ref : string)
    (amount : Z) : result (option (ApplyResult O)) :=
  let budget_available := used_capacity current + amount <=? Z.min (bs_limit current) (bs_configured_capacity current) in
  pool_available ← (if budget_available then can_reserve physical_pool state_ref amount else Ok false);
  if (pool_available : bool) then Ok None
  else failure ← throttled_result q m demand current amount budget_available; Ok (Some failure).

Definition check_reservation (q : ReservationRequest) (m : BudgetMaps) (demand : ResourceDemand) (state_ref : string)
    (requested_quantities : option (dict string Z)) : result ReservationCheck :=
  st ← budget_state_check q m demand state_ref;
  match fst st : option ParticipantResourceBudgetState, snd st : option (ApplyResult O) with
  | Some current, None =>
      pl ← pool_state_check q m demand current requested_quantities;
      match fst (fst pl) : option ParticipantResourcePoolState, snd pl : option (ApplyResult O) with
      | Some pool, None =>
          failure ← capacity_failure q m demand current pool state_ref pl.1.2;
          Ok (Checked demand (Some current) (Some pool) pl.1.2 failure)
      | pool, failure => Ok (Checked demand (Some current) pool pl.1.2 failure)
      end
  | current, failure => Ok (Checked demand current None 0 failure)
  end.

Definition apply_reservation (q : ReservationRequest) (m : BudgetMaps) (checked : ReservationCheck) : result BudgetMaps :=
  match ck_current checked, ck_physical_pool checked with
  | Some current, Some physical_pool =>
      let event_id := event_id_of (rq_operation_id q) (bs_state_ref current) in
      event ← budget_event event_id (rq_operation_id q) (rd_budget_id (ck_demand checked)) (pol_address (rq_policy q))
        current (rq_execution_generation q) t_reserve (ck_amount checked) None (bs_last_event_ref current) [];
      let reserved := set_usage current (bs_generation current) (bs_reserved current + ck_amount checked)
        (bs_current_use current) (bs_cumulative_use current) (bs_throttled current)
        (bs_reconciliation_status current) event_id (bs_evidence_refs current) in
      pool ← reserve_pool_allocation physical_pool (bs_state_ref current) (ck_amount checked);
      Ok (Maps (<[bs_state_ref current := reserved]> (mx_states m))
               (<[ps_pool_state_ref physical_pool := pool]> (mx_pool_states m))
               (<[event_id := event]> (mx_events m)))
  | _, _ => Raise (AssertionError "validated reservation must include budget and pool state")
  end.

(** The checking loop: the checks made so far, or the first failure. *)
Fixpoint check_all (q : ReservationRequest) (m : BudgetMaps) (requested_quantities : option (dict string Z))
    (work : list (ResourceDemand * string)) (checked : list ReservationCheck)
    : result (list ReservationCheck * option (ApplyResult O)) :=
  match work with
  | [] => Ok (checked, None)
  | (demand, state_ref) :: work =>
      check ← check_reservation q m demand state_ref requested_quantities;
      match ck_failure check with
      | Some failure => Ok (checked, Some failure)
      | None => check_all q m requested_quantities work (checked ++ [check])
      end
  end.

Definition reserve_participant_resources snapshot (policy : ResourcePolicy) (operation_id : string)
    (execution_generation : Z) (requested_quantities : option (dict string Z)) : result (ApplyResult O) :=
  let events := budget_events snapshot in
  let state_refs := (fun d => participant_resource_budget_state_ref (pol_address policy) (rd_budget_id d))
                      <$> pol_resource_demands policy in
  let event_ids := event_id_of operation_id <$> state_refs in
  if negb (bool_decide (event_ids = [])) && forallb (fun e => bool_decide (e ∈ dict_keys events)) event_ids then
    Ok (Applied true snapshot [])
  else
    let q := Request snapshot policy operation_id execution_generation in
    let m := maps_of snapshot in
    r ← check_all q m requested_quantities (zip (pol_resource_demands policy) state_refs) [];
    match snd r : option (ApplyResult O) with
    | Some failure => Ok failure
    | None =>
        m ← mfold (apply_reservation q) m r.1;
        s ← with_maps snapshot m;
        Ok (Applied true s [])
    end.
End reservation.
Arguments ReservationRequest O : clear implicits.
Arguments ReservationCheck O : clear implicits.
