(* ===== verification/ResourceAccounting.v ===== *)
(** Commit, release and reconciliation of participant resource reservations
    ([raes_runtime/participant_resource_accounting.py]). *)
From S2P Require Import Prelude.
From S2P Require Import Contracts.
From S2P Require Import ResourceTypes.
From S2P Require Import ResourceModel.
From S2P Require Import ResourceLedger.
From S2P Require Import ResourceReservation.
From stdpp Require Import pretty.
Local Open Scope string_scope.
Local Open Scope list_scope.
Local Open Scope Z_scope.

Definition STALE_GENERATION_CODE : string := "runtime.participant-resource-stale-generation".

Definition operation_reservations (events : dict string ParticipantResourceBudgetEvent) (operation_id : string)
    : result (list ParticipantResourceBudgetEvent) :=
  mmap validate_budget_event
    (base.filter (fun e => ev_operation_id e = operation_id /\ ev_transition e = t_reserve) (dict_values events)).

Definition valid_measurement_vector (reservations : list ParticipantResourceBudgetEvent)
    (measured_quantities : dict string Z) (evidence_refs : list string) : result bool :=
  let expected_refs := ev_budget_state_ref <$> reservations in
  if bool_decide (list_to_set (C := gset string) (dict_keys measured_quantities) = list_to_set expected_refs)
     && negb (bool_decide (evidence_refs = []))
  then
    measured ← mmap (fun r => dict_index measured_quantities (ev_budget_state_ref r)) reservations;
    Ok (forallb (fun mr => (0 <=? mr.1) && (mr.1 <=? ev_requested mr.2)) (zip measured reservations))
  else Ok false.

Section accounting.
Context {O : Type}.
Implicit Types (snapshot : RuntimeSnapshot O).

Definition missing_reservation_result snapshot (operation_id : string)
    (events : dict string ParticipantResourceBudgetEvent) : ApplyResult O :=
  let committed := existsb (fun e => bool_decide (ev_operation_id e = operation_id /\ ev_transition e = t_commit))
    (dict_values events) in
  Applied committed snapshot
    (if committed then []
     else [diagnostic "runtime.participant-resource-reservation-missing" "unknown"
             ("operation " +:+ operation_id +:+ " has no resource reservation")]).

Definition invalid_measurement_result snapshot (policy_address : string) : ApplyResult O :=
  Applied false snapshot
    [diagnostic "runtime.participant-resource-measurement-invalid" policy_address
       "resource commit requires an exact, bounded measured vector and native evidence"].

(** One reservation of the committed vector; a stale generation is the only
    failure, and a reservation committed before is skipped. *)
Definition commit_reservation snapshot (operation_id : string) (execution_generation : Z) (evidence_refs : list string)
    (m : BudgetMaps) (work : ParticipantResourceBudgetEvent * Z) : result (BudgetMaps * option (ApplyResult O)) :=
  let '(reservation, measured) := work in
  let commit_id := operation_id +:+ ":" +:+ ev_budget_state_ref reservation +:+ ":commit" in
  if decide (commit_id ∈ dict_keys (mx_events m)) then Ok (m, None)
  else
    raw ← dict_index (mx_states m) (ev_budget_state_ref reservation);
    current ← validate_budget_state raw;
    if decide (bs_generation current <> execution_generation) then
      Ok (m, Some (Applied false snapshot
        [diagnostic STALE_GENERATION_CODE (ev_policy_address reservation)
           ("operation " +:+ operation_id +:+ " cannot commit across a generation boundary")]))
    else
      let committed := set_usage current (bs_generation current)
        (Z.max 0 (bs_reserved current - ev_requested reservation)) (bs_current_use current)
        (bs_cumulative_use current + measured) (bs_throttled current) (bs_reconciliation_status current) commit_id
        (py_dedupe (bs_evidence_refs current ++ evidence_refs)) in
      event ← validate_budget_event
        (BudgetEvent commit_id operation_id (ev_budget_state_ref reservation) (ev_budget_id reservation)
           (ev_policy_address reservation) (bs_owner_ref current) (bs_pool_ref current) execution_generation
           t_commit d_committed (ev_requested reservation) (Some measured) (bs_resource_kind current) (bs_unit current)
           (bs_meter_profile_ref current) (Some (ev_event_id reservation)) evidence_refs);
      let physical_pool_ref := pool_ref_for_state current in
      raw_pool ← dict_index (mx_pool_states m) physical_pool_ref;
      physical_pool ← validate_pool_state raw_pool;
      pool ← commit_pool_allocation physical_pool (bs_state_ref current) (ev_requested reservation) measured;
      Ok (Maps (<[ev_budget_state_ref reservation := committed]> (mx_states m))
               (<[physical_pool_ref := pool]> (mx_pool_states m))
               (<[commit_id := event]> (mx_events m)), None).

Definition commit_participant_resource_reservation snapshot (operation_id : string) (execution_generation : Z)
    (measured_quantities : dict string Z) (evidence_refs : list string) : result (ApplyResult O) :=
  let events := budget_events snapshot in
  reservations ← operation_reservations events operation_id;
  match reservations : list ParticipantResourceBudgetEvent with
  | [] => Ok (missing_reservation_result snapshot operation_id events)
  | first :: _ =>
      valid ← valid_measurement_vector reservations measured_quantities evidence_refs;
      if negb valid then Ok (invalid_measurement_result snapshot (ev_policy_address first))
      else
        measured ← mmap (fun r => dict_index measured_quantities (ev_budget_state_ref r)) reservations;
        r ← until_some (commit_reservation snapshot operation_id execution_generation evidence_refs)
              (maps_of snapshot) (zip reservations measured);
        match snd r : option (ApplyResult O) with
        | Some failure => Ok failure
        | None => s ← with_maps snapshot r.1; Ok (Applied true s [])
        end
  end.

Definition release_reservation snapshot (operation_id : string) (execution_generation : Z) (evidence_refs : list string)
    (m : BudgetMaps) (reservation : ParticipantResourceBudgetEvent) : result (BudgetMaps * option (ApplyResult O)) :=
  let release_id := operation_id +:+ ":" +:+ ev_budget_state_ref reservation +:+ ":release" in
  if decide (release_id ∈ dict_keys (mx_events m)) then Ok (m, None)
  else
    raw ← dict_index (mx_states m) (ev_budget_state_ref reservation);
    current ← validate_budget_state raw;
    if decide (bs_generation current <> execution_generation) then
      Ok (m, Some (Applied false snapshot
        [diagnostic STALE_GENERATION_CODE (ev_policy_address reservation)
           ("operation " +:+ operation_id +:+ " cannot release across a generation boundary")]))
    else
      let released := set_usage current (bs_generation current)
        (Z.max 0 (bs_reserved current - ev_requested reservation)) (bs_current_use current)
        (bs_cumulative_use current) (bs_throttled current) (bs_reconciliation_status current) release_id
        (py_dedupe (bs_evidence_refs current ++ evidence_refs)) in
      event ← validate_budget_event
        (BudgetEvent release_id operation_id (ev_budget_state_ref reservation) (ev_budget_id reservation)
           (ev_policy_address reservation) (bs_owner_ref current) (bs_pool_ref current) execution_generation
           t_release d_released (ev_requested reservation) None (bs_resource_kind current) (bs_unit current)
           (bs_meter_profile_ref current) (Some (ev_event_id reservation)) evidence_refs);
      let physical_pool_ref := pool_ref_for_state current in
      raw_pool ← dict_index (mx_pool_states m) physical_pool_ref;
      physical_pool ← validate_pool_state raw_pool;
      pool ← release_pool_allocation physical_pool (bs_state_ref current) (ev_requested reservation);
      Ok (Maps (<[bs_state_ref current := released]> (mx_states m))
               (<[physical_pool_ref := pool]> (mx_pool_states m))
               (<[release_id := event]> (mx_events m)), None).

Definition release_participant_resource_reservation snapshot (operation_id : string) (execution_generation : Z)
    (evidence_refs : list string) : result (ApplyResult O) :=
  reservations ← operation_reservations (budget_events snapshot) operation_id;
  match reservations : list ParticipantResourceBudgetEvent with
  | [] => Ok (Applied true snapshot [])
  | _ =>
      r ← until_some (release_reservation snapshot operation_id execution_generation evidence_refs)
            (maps_of snapshot) reservations;
      match snd r : option (ApplyResult O) with
      | Some failure => Ok failure
      | None => s ← with_maps snapshot r.1; Ok (Applied true s [])
      end
  end.

Definition reconcile_budget (policy_address : string) (next_generation : Z) (boundary : string)
    (evidence_refs : list string) (m : BudgetMaps) (work : string * ParticipantResourceBudgetState)
    : result BudgetMaps :=
  let '(state_ref, current) := work in
  let event_id := "reconcile:" +:+ policy_address +:+ ":" +:+ pretty next_generation +:+ ":" +:+ state_ref in
  let clears := bool_decide (reset_mode_str (bs_reset current) = boundary) in
  let reconciled := set_usage current next_generation 0 (if clears then 0 else bs_current_use current)
    (if clears then 0 else bs_cumulative_use current) (bs_throttled current) st_reconciled event_id
    (py_dedupe (bs_evidence_refs current ++ evidence_refs)) in
  event ← validate_budget_event
    (BudgetEvent event_id ("reconcile:" +:+ policy_address +:+ ":" +:+ pretty next_generation) state_ref
       (bs_budget_id current) policy_address (bs_owner_ref current) (bs_pool_ref current) next_generation
       t_reconcile d_reconciled 0 (Some 0) (bs_resource_kind current) (bs_unit current)
       (bs_meter_profile_ref current) (Some (bs_last_event_ref current)) evidence_refs);
  let physical_pool_ref := pool_ref_for_state current in
  raw_pool ← dict_index (mx_pool_states m) physical_pool_ref;
  physical_pool ← validate_pool_state raw_pool;
  pool ← reconcile_pool_allocation physical_pool current next_generation clears;
  Ok (Maps (<[state_ref := reconciled]> (mx_states m))
           (<[physical_pool_ref := pool]> (mx_pool_states m))
           (<[event_id := event]> (mx_events m))).

Definition reconcile_participant_resource_budgets snapshot (policy_address : string)
    (current_generation next_generation : Z) (boundary : string) (evidence_refs : list string)
    : result (ApplyResult O) :=
  _ ← raise_if (next_generation <=? current_generation)
    (ValueError "resource-budget reconciliation must advance generation");
  selected ← mmap (fun kv => s ← validate_budget_state kv.2; Ok (fst kv, s))
    (base.filter (fun kv => bs_policy_address kv.2 = policy_address) (dict_items (budget_states snapshot)));
  match base.filter (fun kv => bs_generation (snd kv) <> current_generation) selected with
  | (state_ref, _) :: _ =>
      Ok (Applied false snapshot
        [diagnostic STALE_GENERATION_CODE policy_address
           ("resource budget " +:+ state_ref +:+ " cannot reconcile from generation " +:+ pretty current_generation)])
  | [] =>
      m ← mfold (reconcile_budget policy_address next_generation boundary evidence_refs) (maps_of snapshot) selected;
      s ← with_maps snapshot m;
      Ok (Applied true s [])
  end.
End accounting.
