(* ===== verification/ResourceFacts.v ===== *)
(** Lemmas on the carriers of the ledger, its validators and its events. *)
From S2P Require Import Prelude.
From S2P Require Import Contracts.
From S2P Require Import ResourceTypes.
From S2P Require Import ResourceModel.
From S2P Require Import ResourceLedger.
From S2P Require Import ResourceReservation.
From Stdlib Require Import Ascii.
Local Open Scope string_scope.
Local Open Scope list_scope.
Local Open Scope Z_scope.

Lemma bind_unit (m : result unit) {A} (k : result A) (a : A) :
  (_ ← m; k) = Ok a <-> m = Ok tt /\ k = Ok a.
Proof. rewrite bind_Ok. split; [intros ([] & ? & ?)|intros []; exists tt]; done. Qed.

Lemma bind_check {A B} (m : result A) (x : A) (k : A -> result B) (b : B) (P : Prop) :
  (forall y, m = Ok y <-> y = x /\ P) -> (y ← m; k y) = Ok b <-> P /\ k x = Ok b.
Proof. intros H. rewrite bind_Ok. setoid_rewrite H. naive_solver. Qed.

Lemma py_unique_negb l : negb (py_unique l) = false <-> NoDup l.
Proof. by rewrite negb_false_iff, py_unique_true. Qed.

Lemma ltb_false a b : (a <? b) = false <-> b <= a.
Proof. rewrite Z.ltb_ge. done. Qed.

Lemma bool_decide_ne_false `{EqDecision A} (x y : A) : bool_decide (x <> y) = false <-> x = y.
Proof. rewrite bool_decide_eq_false. destruct (decide (x = y)); naive_solver. Qed.

#[local] Opaque require_quantity_semantics require_fields.

(** Rewrite a successful validation into the conjunction of its checks. *)
Ltac validation :=
  repeat first
    [ setoid_rewrite bind_unit | setoid_rewrite raise_if_Ok | setoid_rewrite py_unique_negb
    | setoid_rewrite ltb_false | setoid_rewrite bool_decide_ne_false
    | setoid_rewrite require_quantity_semantics_Ok ].

(** ** Budget states *)

(** The checks of a budget state that no operation can falsify. *)
Definition state_static (s : ParticipantResourceBudgetState) : Prop :=
  (nonempty (bs_state_ref s) = true /\ nonempty (bs_budget_id s) = true /\ nonempty (bs_policy_address s) = true /\
   nonempty (bs_owner_ref s) = true /\ nonempty (bs_pool_ref s) = true /\ nonempty (bs_unit s) = true /\
   nonempty (bs_meter_profile_ref s) = true) /\
  1 <= bs_limit s <= max_amount /\ 1 <= bs_configured_capacity s <= max_amount /\ 0 <= bs_rejected s /\
  quantity_ok (bs_resource_kind s) (bs_unit s) (bs_accounting_mode s) /\
  bs_state_ref s = participant_resource_budget_state_ref (bs_policy_address s) (bs_budget_id s).

(** The checks of the fields the operations write. *)
Definition usage_ok (limit capacity generation reserved current cumulative throttled : Z) (last : string)
    (evidence : list string) : Prop :=
  0 <= generation /\ 0 <= reserved <= max_amount /\ 0 <= current <= max_amount /\
  0 <= cumulative <= max_amount /\ 0 <= throttled /\ last <> "" /\
  (Forall (fun e => nonempty e = true) evidence /\ NoDup evidence) /\
  reserved + current <= limit /\ reserved + current <= capacity.

Definition state_usage_ok (s : ParticipantResourceBudgetState) : Prop :=
  usage_ok (bs_limit s) (bs_configured_capacity s) (bs_generation s) (bs_reserved s) (bs_current_use s)
    (bs_cumulative_use s) (bs_throttled s) (bs_last_event_ref s) (bs_evidence_refs s).

Lemma forallb_Forall (f : string -> bool) l : forallb f l = true <-> Forall (fun x => f x = true) l.
Proof. rewrite forallb_forall, Forall_forall. by setoid_rewrite list_elem_of_In. Qed.

Ltac fields :=
  rewrite require_fields_Ok, ?Forall_cons, ?Forall_nil;
  cbn [snd]; rewrite ?at_least_true, ?in_range_true, ?forallb_Forall.

Lemma validate_budget_state_Ok s s' :
  validate_budget_state s = Ok s' <-> s' = s /\ state_static s /\ state_usage_ok s.
Proof.
  unfold validate_budget_state, state_static, state_usage_ok, usage_ok. cbv zeta. validation. fields.
  rewrite nonempty_true with (s := bs_last_event_ref s). split.
  - intros (? & ? & ? & ? & ? & ? & [= <-]). naive_solver.
  - intros (-> & ? & ?). destruct_and!. split_and!; auto; done.
Qed.

(** Writing valid counters keeps a state valid. *)
Lemma validate_set_usage s generation reserved current cumulative throttled status last evidence :
  state_static s ->
  usage_ok (bs_limit s) (bs_configured_capacity s) generation reserved current cumulative throttled last evidence ->
  validate_budget_state (set_usage s generation reserved current cumulative throttled status last evidence)
    = Ok (set_usage s generation reserved current cumulative throttled status last evidence).
Proof. intros Hs Hu. by apply validate_budget_state_Ok. Qed.

(** ** Pools *)

Definition allocation_static (a : ParticipantResourcePoolAllocation) : Prop :=
  (nonempty (pa_budget_state_ref a) = true /\ nonempty (pa_policy_address a) = true /\
   nonempty (pa_budget_id a) = true /\ nonempty (pa_priority_class a) = true /\ 1 <= pa_weight a <= 1000000 /\
   nonempty (pa_borrowing a) = true /\ nonempty (pa_reclaim a) = true /\
   0 <= pa_max_queue_ticks a <= max_ticks /\ 1 <= pa_starvation_bound_ticks a <= max_ticks) /\
  pa_budget_state_ref a = participant_resource_budget_state_ref (pa_policy_address a) (pa_budget_id a).

Definition counters_ok (generation reserved current cumulative : Z) : Prop :=
  0 <= generation /\ 0 <= reserved <= max_amount /\ 0 <= current <= max_amount /\ 0 <= cumulative <= max_amount.

Definition allocation_counters_ok (a : ParticipantResourcePoolAllocation) : Prop :=
  counters_ok (pa_generation a) (pa_reserved a) (pa_current_use a) (pa_cumulative_use a).

Lemma validate_pool_allocation_Ok a a' :
  validate_pool_allocation a = Ok a' <-> a' = a /\ allocation_static a /\ allocation_counters_ok a.
Proof.
  unfold validate_pool_allocation, allocation_static, allocation_counters_ok, counters_ok. cbv zeta. validation. fields.
  split.
  - intros (? & ? & [= <-]). naive_solver.
  - intros (-> & ? & ?). destruct_and!. split_and!; auto; done.
Qed.

(** What a pool requires of the entry of an allocation. *)
Definition allocation_fits (p : ParticipantResourcePoolState) (kv : string * ParticipantResourcePoolAllocation) : Prop :=
  kv.1 = pa_budget_state_ref kv.2 /\ pa_priority_class kv.2 ∈ ps_priority_classes p /\
  pa_borrowing kv.2 = ps_borrowing p /\ pa_reclaim kv.2 = ps_reclaim p /\
  ps_max_queue_ticks p <= pa_max_queue_ticks kv.2 /\ ps_starvation_bound_ticks p <= pa_starvation_bound_ticks kv.2.

Definition pool_static (p : ParticipantResourcePoolState) : Prop :=
  (nonempty (ps_pool_state_ref p) = true /\ nonempty (ps_pool_ref p) = true /\ nonempty (ps_owner_ref p) = true /\
   nonempty (ps_unit p) = true /\ nonempty (ps_meter_profile_ref p) = true /\ 1 <= ps_capacity p <= max_amount /\
   0 <= ps_protected_capacity p <= max_amount /\ nonempty (ps_fairness_policy p) = true /\
   nonempty_list (ps_priority_classes p) = true /\ nonempty (ps_borrowing p) = true /\ nonempty (ps_reclaim p) = true /\
   0 <= ps_max_queue_ticks p <= max_ticks /\ 1 <= ps_starvation_bound_ticks p <= max_ticks) /\
  quantity_ok (ps_resource_kind p) (ps_unit p) (ps_accounting_mode p) /\
  ps_pool_state_ref p = participant_resource_pool_state_ref (ps_pool_ref p) (ps_owner_kind p) (ps_owner_ref p)
    (ps_resource_kind p) (ps_unit p) (ps_accounting_mode p) (ps_meter_profile_ref p) /\
  ps_protected_capacity p <= ps_capacity p.

Definition entry_ok (p : ParticipantResourcePoolState) (kv : string * ParticipantResourcePoolAllocation) : Prop :=
  (allocation_static kv.2 /\ allocation_counters_ok kv.2) /\ allocation_fits p kv.

Definition pool_total (p : ParticipantResourcePoolState) : Z :=
  dict_sum (allocation_use (ps_accounting_mode p)) (ps_allocations p).

Definition pool_valid (p : ParticipantResourcePoolState) : Prop :=
  pool_static p /\ Forall (entry_ok p) (dict_items (ps_allocations p)) /\ pool_total p <= ps_capacity p.

Lemma validate_pool_allocations_Ok p u :
  validate_pool_allocations p = Ok u <-> Forall (allocation_fits p) (dict_items (ps_allocations p)).
Proof.
  unfold validate_pool_allocations. rewrite mfold_checks. apply Forall_proper; [|done]. intros [k a].
  unfold allocation_fits; cbn [fst snd].
  validation. rewrite orb_false_iff, !ltb_false, !bool_decide_eq_false.
  destruct (decide (pa_priority_class a ∈ ps_priority_classes p)), (decide (pa_borrowing a = ps_borrowing p)),
    (decide (pa_reclaim a = ps_reclaim p)); naive_solver.
Qed.

Lemma mmap_validate_allocations l l' :
  mmap validate_pool_allocation l = Ok l' <->
  l' = l /\ Forall (fun a => allocation_static a /\ allocation_counters_ok a) l.
Proof.
  revert l'; induction l as [|a l IH]; intros l'; simpl.
  - split; [by intros [= <-]|by intros [-> _]].
  - rewrite bind_Ok. setoid_rewrite validate_pool_allocation_Ok. setoid_rewrite bind_Ok. setoid_rewrite IH.
    rewrite Forall_cons. naive_solver.
Qed.

Lemma validate_pool_state_Ok p p' : validate_pool_state p = Ok p' <-> p' = p /\ pool_valid p.
Proof.
  unfold validate_pool_state, pool_valid, pool_static. cbv zeta. rewrite bind_unit.
  rewrite (bind_check _ (dict_values (ps_allocations p)) _ _ _ (mmap_validate_allocations _)).
  validation. fields. rewrite validate_pool_allocations_Ok.
  assert (Forall (entry_ok p) (dict_items (ps_allocations p)) <->
    Forall (fun a => allocation_static a /\ allocation_counters_ok a) (dict_values (ps_allocations p)) /\
    Forall (allocation_fits p) (dict_items (ps_allocations p))) as ->.
  { unfold dict_values. rewrite Forall_fmap, <-Forall_and. done. }
  assert (Forall (fun a => allocation_static a /\ allocation_counters_ok a) (dict_values (ps_allocations p)) ->
    Forall (allocation_fits p) (dict_items (ps_allocations p)) ->
    Forall (fun x => nonempty x = true) (dict_keys (ps_allocations p))) as Hkeys.
  { unfold dict_values, dict_keys. rewrite !Forall_fmap. intros H1 H2.
    rewrite Forall_forall in *. intros [k a] Hin. specialize (H1 _ Hin). specialize (H2 _ Hin).
    unfold compose, allocation_static, allocation_fits in *; simpl in *. naive_solver. }
  change (pool_allocated_total p) with (pool_total p). split.
  - intros (? & ? & ? & ? & ? & ? & ? & [= <-]). naive_solver.
  - intros (-> & ? & ? & ?). destruct_and!. split_and!; auto; done.
Qed.

Abbreviation events_map := (dict string ParticipantResourceBudgetEvent).

(** The identities an operation derives from a budget state. *)
Definition stem (operation_id state_ref : string) : string := operation_id +:+ ":" +:+ state_ref.
Definition commit_id (operation_id state_ref : string) : string := operation_id +:+ ":" +:+ state_ref +:+ ":commit".
Definition release_id (operation_id state_ref : string) : string := operation_id +:+ ":" +:+ state_ref +:+ ":release".
Definition throttle_id (operation_id state_ref : string) : string := operation_id +:+ ":" +:+ state_ref +:+ ":throttle".

Lemma event_id_stem op ref : event_id_of op ref = stem op ref +:+ ":reserve".
Proof. unfold event_id_of, stem. by rewrite !string_app_assoc. Qed.
Lemma commit_id_stem op ref : commit_id op ref = stem op ref +:+ ":commit".
Proof. unfold commit_id, stem. by rewrite !string_app_assoc. Qed.
Lemma release_id_stem op ref : release_id op ref = stem op ref +:+ ":release".
Proof. unfold release_id, stem. by rewrite !string_app_assoc. Qed.
Lemma throttle_id_stem op ref : throttle_id op ref = stem op ref +:+ ":throttle".
Proof. unfold throttle_id, stem. by rewrite !string_app_assoc. Qed.

Lemma event_id_inj op r1 r2 : event_id_of op r1 = event_id_of op r2 -> r1 = r2.
Proof. unfold event_id_of. intros H%string_app_inj_l%string_app_inj_l. by apply string_app_inj_r in H. Qed.

(** A key that no reservation, commit or release can have. *)
Definition foreign_key (k : string) : Prop :=
  forall s, k <> s +:+ ":reserve" /\ k <> s +:+ ":commit" /\ k <> s +:+ ":release".

Lemma throttle_id_foreign op ref : foreign_key (throttle_id op ref).
Proof. intros s. rewrite throttle_id_stem. split_and!; intros H; suffix_discriminate H. Qed.

Definition char_free (c : ascii) (l : list ascii) : Prop := c ∉ l.

(** Two suffixes after a separator disagree when neither holds the other's
    separator. *)
Lemma separator_clash (a b : ascii) l1 l2 r1 r2 :
  a <> b -> b ∉ l1 -> a ∉ l2 -> l1 ++ a :: r1 = l2 ++ b :: r2 -> False.
Proof.
  intros Hab. revert l2; induction l1 as [|c l1 IH]; intros [|d l2] H1 H2 [= H]; try congruence.
  - subst. apply H2. left.
  - subst. apply H1. left.
  - subst. apply (IH l2); [set_solver..|done].
Qed.

Lemma canonical_ref_suffix (x p b : string) (y w : list ascii) :
  ":"%char ∉ chars b -> "."%char ∉ w ->
  chars x ++ chars (participant_resource_budget_state_ref p b) = y ++ ":"%char :: w -> False.
Proof.
  intros Hb Hw H. apply (f_equal (@rev ascii)) in H. unfold participant_resource_budget_state_ref in H.
  rewrite !chars_app, !rev_app_distr in H. simpl rev in H. rewrite <-!app_assoc in H. cbn [app] in H.
  eapply (separator_clash "."%char ":"%char (rev (chars b)) (rev w)); [done|..|exact H].
  - by rewrite list_elem_of_In, <-in_rev, <-list_elem_of_In.
  - by rewrite list_elem_of_In, <-in_rev, <-list_elem_of_In.
Qed.

Lemma reconcile_id_foreign x p b :
  ":"%char ∉ chars b -> foreign_key (x +:+ participant_resource_budget_state_ref p b).
Proof.
  intros Hb s.
  assert (forall w, "."%char ∉ chars w -> x +:+ participant_resource_budget_state_ref p b <> s +:+ (":" +:+ w)) as Hne.
  { intros w Hw H. apply (f_equal chars) in H. rewrite !chars_app in H. cbn [app] in H.
    eapply (canonical_ref_suffix x p b (chars s) (chars w)); [done..|]. exact H. }
  split_and!; apply Hne; set_solver.
Qed.

(** ** Outstanding reservations *)

(** A reservation event of the state [ref] in generation [g] that is neither
    committed nor released. *)
Definition live (events : events_map) (ref : string) (g : Z) (e : ParticipantResourceBudgetEvent) : Prop :=
  ev_transition e = t_reserve /\ ev_budget_state_ref e = ref /\ ev_execution_generation e = g /\
  (commit_id (ev_operation_id e) ref ∉ dict_keys events) /\ (release_id (ev_operation_id e) ref ∉ dict_keys events).

#[export] Instance live_dec events ref g e : Decision (live events ref g e).
Proof. unfold live. apply _. Defined.

Definition live_amount (events : events_map) (ref : string) (g : Z) (e : ParticipantResourceBudgetEvent) : Z :=
  if decide (live events ref g e) then ev_requested e else 0.

Definition outstanding (events : events_map) (ref : string) (g : Z) : Z := dict_sum (live_amount events ref g) events.

(** Well-formed ledgers: valid events under their own identity, reservations
    under the identity of their operation and state, and settlements only of
    recorded reservations. *)
Record events_ok (events : events_map) : Prop := {
  eo_wf : dict_wf events;
  eo_valid k e : events !! k = Some e -> validate_budget_event e = Ok e /\ k = ev_event_id e;
  eo_reserve k e : events !! k = Some e -> ev_transition e = t_reserve ->
    k = event_id_of (ev_operation_id e) (ev_budget_state_ref e);
  eo_reserved s e : events !! (s +:+ ":reserve") = Some e -> ev_transition e = t_reserve;
  eo_settled s : (s +:+ ":commit") ∈ dict_keys events \/ (s +:+ ":release") ∈ dict_keys events ->
    (s +:+ ":reserve") ∈ dict_keys events;
}.

Lemma live_amount_other events ref g e : ev_transition e <> t_reserve -> live_amount events ref g e = 0.
Proof. intros H. unfold live_amount. rewrite decide_False; [done|]. by intros []. Qed.

Lemma validated_nonneg e e' : validate_budget_event e = Ok e' -> 0 <= ev_requested e <= max_amount.
Proof.
  unfold validate_budget_event. rewrite bind_unit, require_fields_Ok. intros [HF _].
  rewrite !Forall_cons in HF. cbn [snd] in HF. destruct HF as (_ & _ & _ & _ & _ & _ & _ & _ & HF & _).
  by apply in_range_true in HF.
Qed.

Lemma live_amount_nonneg events ref g : events_ok events ->
  forall k e, (k, e) ∈ dict_items events -> 0 <= live_amount events ref g e.
Proof.
  intros Hok k e Hin. unfold live_amount. case_decide; [|done].
  apply (dict_get_Some k) in Hin; [|apply Hok]. apply (eo_valid _ Hok) in Hin as [Hv _].
  apply validated_nonneg in Hv. lia.
Qed.

(** Appending an event under a key no settlement has leaves liveness alone. *)
Lemma live_amount_set events k e' ref g e :
  (forall s, k <> s +:+ ":commit" /\ k <> s +:+ ":release") ->
  live_amount (<[k := e']> events) ref g e = live_amount events ref g e.
Proof.
  intros Hk. unfold live_amount. assert (live (<[k:=e']> events) ref g e <-> live events ref g e) as Hl.
  { unfold live. rewrite !elem_of_dict_keys_set, commit_id_stem, release_id_stem.
    destruct (Hk (stem (ev_operation_id e) ref)). naive_solver. }
  repeat case_decide; tauto.
Qed.

(** An event that is no reservation and takes no reservation's key. *)
Lemma outstanding_set_other events k e ref g :
  events_ok events -> foreign_key k -> ev_transition e <> t_reserve ->
  outstanding (<[k := e]> events) ref g = outstanding events ref g.
Proof.
  intros Hok Hk He. unfold outstanding.
  rewrite (dict_sum_ext _ (live_amount events ref g)).
  - rewrite dict_sum_set, live_amount_other by done. destruct (events !! k) as [e0|] eqn:E; simpl; [|lia].
    rewrite live_amount_other; [lia|]. intros Hr. pose proof (eo_reserve _ Hok _ _ E Hr) as Heq.
    rewrite event_id_stem in Heq. by destruct (Hk (stem (ev_operation_id e0) (ev_budget_state_ref e0))) as [? _].
  - intros k' e' _. apply live_amount_set. intros s. by destruct (Hk s) as (_ & ? & ?).
Qed.

Lemma events_ok_set_other events k e :
  events_ok events -> foreign_key k -> ev_transition e <> t_reserve ->
  validate_budget_event e = Ok e -> k = ev_event_id e -> events_ok (<[k := e]> events).
Proof.
  intros Hok Hk He Hv Hid. constructor.
  - by apply dict_wf_set, Hok.
  - intros k' e'. rewrite dict_get_set. case_decide; [intros [= <-]; by subst|apply Hok].
  - intros k' e'. rewrite dict_get_set. case_decide; [intros [= <-] ?; done|apply Hok].
  - intros s e'. rewrite dict_get_set. case_decide as E; [by destruct (Hk s)|apply Hok].
  - intros s. destruct (Hk s) as (? & ? & ?). rewrite !elem_of_dict_keys_set.
    intros Hs. right. apply Hok. naive_solver.
Qed.

(** A new reservation. *)
Lemma outstanding_reserve events op e ref g :
  events_ok events -> ev_transition e = t_reserve -> ev_operation_id e = op ->
  event_id_of op (ev_budget_state_ref e) ∉ dict_keys events ->
  outstanding (<[event_id_of op (ev_budget_state_ref e) := e]> events) ref g =
  outstanding events ref g +
    (if decide (ev_budget_state_ref e = ref /\ ev_execution_generation e = g) then ev_requested e else 0).
Proof.
  intros Hok He Hop Hfresh. unfold outstanding.
  assert (forall s, event_id_of op (ev_budget_state_ref e) <> s +:+ ":commit" /\
                    event_id_of op (ev_budget_state_ref e) <> s +:+ ":release") as Hk.
  { intros s. rewrite event_id_stem. split; intros H; suffix_discriminate H. }
  rewrite (dict_sum_ext _ (live_amount events ref g)) by (intros; by apply live_amount_set).
  rewrite dict_sum_set. apply dict_get_None in Hfresh as Hnone. rewrite Hnone. simpl. rewrite Z.sub_0_r. f_equal.
  unfold live_amount. assert (live events ref g e <-> ev_budget_state_ref e = ref /\ ev_execution_generation e = g) as Hl.
  { unfold live. split; [naive_solver|]. intros [<- <-]. rewrite Hop. split_and!; auto.
    - intros Hc. apply Hfresh. rewrite event_id_stem. apply Hok. left. by rewrite <-commit_id_stem.
    - intros Hc. apply Hfresh. rewrite event_id_stem. apply Hok. right. by rewrite <-release_id_stem. }
  repeat case_decide; tauto.
Qed.

Lemma events_ok_reserve events op e :
  events_ok events -> ev_transition e = t_reserve -> ev_operation_id e = op ->
  validate_budget_event e = Ok e -> ev_event_id e = event_id_of op (ev_budget_state_ref e) ->
  events_ok (<[event_id_of op (ev_budget_state_ref e) := e]> events).
Proof.
  intros Hok He Hop Hv Hid. constructor.
  - by apply dict_wf_set, Hok.
  - intros k' e'. rewrite dict_get_set. case_decide; [intros [= <-]; by subst|apply Hok].
  - intros k' e'. rewrite dict_get_set. case_decide; [intros [= <-] ?; by subst|apply Hok].
  - intros s e'. rewrite dict_get_set. case_decide as E; [by intros [= <-]|apply Hok].
  - intros s. rewrite !elem_of_dict_keys_set. intros [[Hs|Hs]|[Hs|Hs]].
    + rewrite event_id_stem in Hs. suffix_discriminate Hs.
    + right. apply Hok. by left.
    + rewrite event_id_stem in Hs. suffix_discriminate Hs.
    + right. apply Hok. by right.
Qed.

(** Settling a reservation: its commit or release takes it off the ledger. *)
Lemma outstanding_settle events op e0 e k ref g :
  events_ok events -> ev_operation_id e0 = op -> ev_transition e0 = t_reserve ->
  events !! event_id_of op (ev_budget_state_ref e0) = Some e0 ->
  (k = commit_id op (ev_budget_state_ref e0) \/ k = release_id op (ev_budget_state_ref e0)) ->
  k ∉ dict_keys events -> ev_transition e <> t_reserve ->
  outstanding (<[k := e]> events) ref g = outstanding events ref g - live_amount events ref g e0.
Proof.
  intros Hok Hop Ht Hget Hk Hfresh He. unfold outstanding. rewrite dict_sum_set, live_amount_other by done.
  apply dict_get_None in Hfresh as ->. simpl.
  pose proof (dict_sum_change (live_amount (<[k:=e]> events) ref g) (live_amount events ref g) _ _ events
    (eo_wf _ Hok) Hget) as Hsum.
  assert (live_amount (<[k:=e]> events) ref g e0 = 0) as H0.
  { unfold live_amount. rewrite decide_False; [done|]. unfold live. rewrite !elem_of_dict_keys_set, Hop.
    intros (_ & <- & _ & ? & ?). naive_solver. }
  rewrite H0 in Hsum. rewrite <-Hsum; [lia|]. clear Hsum H0. intros k' e' Hk' Hne. unfold live_amount.
  assert (live (<[k:=e]> events) ref g e' <-> live events ref g e') as Hl; [|repeat case_decide; tauto].
  unfold live. rewrite !elem_of_dict_keys_set. split; [naive_solver|].
  intros (Hr & Href & ? & ? & ?). split_and!; auto.
  - intros [Heq|]; [|done]. destruct Hk as [->| ->].
    + apply Hne. rewrite (eo_reserve _ Hok _ _ Hk' Hr), Href, !event_id_stem. f_equal.
      rewrite !commit_id_stem in Heq. by apply string_app_inj_r in Heq.
    + rewrite commit_id_stem, release_id_stem in Heq. suffix_discriminate Heq.
  - intros [Heq|]; [|done]. destruct Hk as [->| ->].
    + rewrite commit_id_stem, release_id_stem in Heq. suffix_discriminate Heq.
    + apply Hne. rewrite (eo_reserve _ Hok _ _ Hk' Hr), Href, !event_id_stem. f_equal.
      rewrite !release_id_stem in Heq. by apply string_app_inj_r in Heq.
Qed.

Lemma events_ok_settle events op e0 e k :
  events_ok events ->
  event_id_of op (ev_budget_state_ref e0) ∈ dict_keys events ->
  (k = commit_id op (ev_budget_state_ref e0) \/ k = release_id op (ev_budget_state_ref e0)) ->
  ev_transition e <> t_reserve -> validate_budget_event e = Ok e -> k = ev_event_id e ->
  events_ok (<[k := e]> events).
Proof.
  intros Hok Hin Hk He Hv Hid. constructor.
  - by apply dict_wf_set, Hok.
  - intros k' e'. rewrite dict_get_set. case_decide; [intros [= <-]; by subst|apply Hok].
  - intros k' e'. rewrite dict_get_set. case_decide; [intros [= <-] ?; done|apply Hok].
  - intros s e'. rewrite dict_get_set. case_decide as E; [|apply Hok]. exfalso.
    destruct Hk as [Hk|Hk]; rewrite Hk, ?commit_id_stem, ?release_id_stem in E; suffix_discriminate E.
  - intros s. rewrite !elem_of_dict_keys_set. rewrite event_id_stem in Hin.
    intros [[Hs|Hs]|[Hs|Hs]]; right; try (apply Hok; tauto).
    + destruct Hk as [Hk|Hk]; rewrite Hk, ?commit_id_stem, ?release_id_stem in Hs.
      * by apply string_app_inj_r in Hs as ->.
      * suffix_discriminate Hs.
    + destruct Hk as [Hk|Hk]; rewrite Hk, ?commit_id_stem, ?release_id_stem in Hs.
      * suffix_discriminate Hs.
      * by apply string_app_inj_r in Hs as ->.
Qed.
