(* ===== verification/ResourceInvariant.v ===== *)
(** The invariant of the budget ledger: valid carriers, logical budgets
    mirrored by their physical pools, and reservations accounted for by the
    outstanding reservation events. *)
From S2P Require Import Prelude.
From S2P Require Import Contracts.
From S2P Require Import ResourceTypes.
From S2P Require Import ResourceModel.
From S2P Require Import ResourceLedger.
From S2P Require Import ResourceReservation.
From S2P Require Import ResourceFacts.
From Stdlib Require Import Ascii.
Local Open Scope string_scope.
Local Open Scope list_scope.
Local Open Scope Z_scope.

(** ** Pools *)

(** What the allocations without protection hold. *)
Definition unprotected_use (p : ParticipantResourcePoolState) (a : ParticipantResourcePoolAllocation) : Z :=
  if pa_protected a then 0 else allocation_use (ps_accounting_mode p) a.

Definition pool_unprotected (p : ParticipantResourcePoolState) : Z := dict_sum (unprotected_use p) (ps_allocations p).

Lemma py_sum_filter (f : ParticipantResourcePoolAllocation -> Z) l :
  py_sum (f <$> base.filter (fun a => pa_protected a = false) l) =
  py_sum ((fun a => if pa_protected a then 0 else f a) <$> l).
Proof.
  induction l as [|a l IH]; [done|]. rewrite filter_cons. case_decide as Ha.
  - rewrite !fmap_cons, !py_sum_cons, IH, Ha. done.
  - rewrite fmap_cons, py_sum_cons, IH. destruct (pa_protected a); [lia|done].
Qed.

Lemma can_reserve_spec p r amount a :
  ps_allocations p !! r = Some a ->
  exists b, can_reserve p r amount = Ok b /\
    (b = true <-> pool_total p + amount <= ps_capacity p /\
      (pa_protected a = true \/ pool_unprotected p + amount <= ps_capacity p - ps_protected_capacity p)).
Proof.
  intros Ha. unfold can_reserve, dict_index. rewrite Ha. cbn [mbind result_bind]. eexists. split; [done|].
  rewrite py_sum_filter. change (py_sum (_ <$> dict_values (ps_allocations p))) with (pool_total p) at 1.
  change (py_sum ((fun a => if pa_protected a then 0 else _) <$> dict_values (ps_allocations p))) with (pool_unprotected p).
  destruct (ps_capacity p <? pool_total p + amount) eqn:E1; [rewrite Z.ltb_lt in E1|rewrite Z.ltb_ge in E1].
  - split; [done|lia].
  - destruct (pa_protected a); [tauto|]. rewrite Z.leb_le. intuition congruence.
Qed.

Lemma pool_total_update p r a a' :
  ps_allocations p !! r = Some a ->
  pool_total (set_allocations p (<[r := a']> (ps_allocations p))) =
  pool_total p + allocation_use (ps_accounting_mode p) a' - allocation_use (ps_accounting_mode p) a.
Proof. intros Ha. unfold pool_total. cbn [ps_allocations set_allocations ps_accounting_mode]. by rewrite dict_sum_set, Ha. Qed.

Lemma pool_unprotected_update p r a a' :
  ps_allocations p !! r = Some a ->
  pool_unprotected (set_allocations p (<[r := a']> (ps_allocations p))) =
  pool_unprotected p + unprotected_use p a' - unprotected_use p a.
Proof. intros Ha. unfold pool_unprotected. cbn [ps_allocations set_allocations]. by rewrite dict_sum_set, Ha. Qed.

Definition pool_ok (p : ParticipantResourcePoolState) : Prop :=
  pool_valid p /\ dict_wf (ps_allocations p) /\ pool_unprotected p <= ps_capacity p - ps_protected_capacity p.

Lemma pool_ok_update p r a g R C U :
  pool_ok p -> ps_allocations p !! r = Some a -> counters_ok g R C U ->
  let a' := set_counters a g R C U in
  pool_total p + allocation_use (ps_accounting_mode p) a' - allocation_use (ps_accounting_mode p) a <= ps_capacity p ->
  pool_unprotected p + unprotected_use p a' - unprotected_use p a <= ps_capacity p - ps_protected_capacity p ->
  pool_ok (set_allocations p (<[r := a']> (ps_allocations p))).
Proof.
  intros ((Hstatic & Hall & Htot) & Hwf & Hun) Ha Hc a' Htot' Hun'. split_and!.
  - split_and!; [done| |by rewrite (pool_total_update _ _ a)].
    apply dict_Forall_set; [done|]. rewrite Forall_forall in Hall.
    destruct (Hall _ (dict_get_Some_in _ _ _ Ha)) as [[? ?] ?]. done.
  - by apply dict_wf_set.
  - by rewrite (pool_unprotected_update _ _ a).
Qed.

(** ** The ledger *)

(** A budget and its allocation in the pool carry the same counters. *)
Definition mirrored (s : ParticipantResourceBudgetState) (a : ParticipantResourcePoolAllocation) : Prop :=
  pa_generation a = bs_generation s /\ pa_reserved a = bs_reserved s /\
  pa_current_use a = bs_current_use s /\ pa_cumulative_use a = bs_cumulative_use s.

Definition budget_ok (s : ParticipantResourceBudgetState) : Prop :=
  state_static s /\ state_usage_ok s /\ bs_current_use s = 0 /\
  (":"%char ∉ chars (bs_budget_id s)) /\
  used_capacity s <= bs_limit s /\ used_capacity s <= bs_configured_capacity s.

Record ledger_inv (m : BudgetMaps) : Prop := {
  li_states_wf : dict_wf (mx_states m);
  li_pools_wf : dict_wf (mx_pool_states m);
  li_events : events_ok (mx_events m);
  li_state r s : mx_states m !! r = Some s -> r = bs_state_ref s /\ budget_ok s;
  li_pool r p : mx_pool_states m !! r = Some p -> r = ps_pool_state_ref p /\ pool_ok p;
  li_mirror r s : mx_states m !! r = Some s ->
    exists p a, mx_pool_states m !! pool_ref_for_state s = Some p /\ ps_allocations p !! r = Some a /\ mirrored s a /\
      ps_accounting_mode p = bs_accounting_mode s;
  li_allocated k p r a : mx_pool_states m !! k = Some p -> ps_allocations p !! r = Some a ->
    exists s, mx_states m !! r = Some s /\ pool_ref_for_state s = k;
  li_reserved r s : mx_states m !! r = Some s -> bs_reserved s = outstanding (mx_events m) r (bs_generation s);
  li_reservation k e : mx_events m !! k = Some e -> ev_transition e = t_reserve ->
    exists s, mx_states m !! ev_budget_state_ref e = Some s /\ ev_execution_generation e <= bs_generation s;
}.

Lemma check_keyed_Ok {V} (validate : V -> result V) key message (d : dict string V) u :
  (forall v v', validate v = Ok v' -> v' = v) ->
  check_keyed validate key message d = Ok u <->
  Forall (fun kv => validate kv.2 = Ok kv.2 /\ kv.1 = key kv.2) (dict_items d).
Proof.
  intros Hid. unfold check_keyed. rewrite mfold_checks. apply Forall_proper; [|done]. intros [k v]; cbn [fst snd].
  rewrite bind_Ok. setoid_rewrite raise_if_Ok. setoid_rewrite bool_decide_ne_false. split.
  - intros (v' & Hv & ->). pose proof (Hid _ _ Hv) as ->. done.
  - intros [Hv ->]. eauto.
Qed.

Lemma validate_budget_event_id e e' : validate_budget_event e = Ok e' -> e' = e.
Proof. unfold validate_budget_event. intros H. inv_result. done. Qed.

(** The constructor of a snapshot accepts a well-formed ledger. *)
Lemma with_maps_ok {O} (s : RuntimeSnapshot O) m :
  ledger_inv m -> with_maps s m = Ok (Snapshot (snap_other s) (mx_states m) (mx_pool_states m) (mx_events m)).
Proof.
  intros Hinv. unfold with_maps, with_budgets, require_participant_resource_budget_snapshot.
  assert (check_keyed validate_budget_state bs_state_ref
    "participant resource-budget state key must equal state_ref" (mx_states m) = Ok tt) as ->.
  { apply check_keyed_Ok; [by intros v v' [-> _]%validate_budget_state_Ok|].
    apply dict_Forall_get; [apply Hinv|]. intros k v Hk. destruct (li_state _ Hinv _ _ Hk) as (-> & ? & ? & _).
    split; [|done]. by apply validate_budget_state_Ok. }
  assert (check_keyed validate_pool_state ps_pool_state_ref
    "participant resource-pool state key must equal pool_state_ref" (mx_pool_states m) = Ok tt) as ->.
  { apply check_keyed_Ok; [by intros v v' [-> _]%validate_pool_state_Ok|].
    apply dict_Forall_get; [apply Hinv|]. intros k v Hk. destruct (li_pool _ Hinv _ _ Hk) as (-> & ? & _).
    split; [|done]. by apply validate_pool_state_Ok. }
  assert (check_keyed validate_budget_event ev_event_id
    "participant resource-budget event key must equal event_id" (mx_events m) = Ok tt) as ->.
  { apply check_keyed_Ok; [apply validate_budget_event_id|].
    apply dict_Forall_get; [apply (li_events _ Hinv)|]. intros k v Hk. by apply (eo_valid _ (li_events _ Hinv)). }
  done.
Qed.

(** Writing one budget, its allocation and an event: what has to hold for the
    ledger to stay well formed. Every operation is such a write. *)
Lemma ledger_inv_write S P E E' s p a g R C U throttled status last evidence :
  ledger_inv (Maps S P E) ->
  S !! bs_state_ref s = Some s -> P !! pool_ref_for_state s = Some p ->
  ps_allocations p !! bs_state_ref s = Some a ->
  let s' := set_usage s g R C U throttled status last evidence in
  let a' := set_counters a g R C U in
  usage_ok (bs_limit s) (bs_configured_capacity s) g R C U throttled last evidence ->
  C = 0 -> used_capacity s' <= bs_limit s -> used_capacity s' <= bs_configured_capacity s ->
  pool_total p + allocation_use (ps_accounting_mode p) a' - allocation_use (ps_accounting_mode p) a <= ps_capacity p ->
  pool_unprotected p + unprotected_use p a' - unprotected_use p a <= ps_capacity p - ps_protected_capacity p ->
  bs_generation s <= g ->
  events_ok E' -> outstanding E' (bs_state_ref s) g = R ->
  (forall r g', r <> bs_state_ref s -> outstanding E' r g' = outstanding E r g') ->
  (forall k e, E' !! k = Some e -> ev_transition e = t_reserve ->
     E !! k = Some e \/ ev_budget_state_ref e = bs_state_ref s /\ ev_execution_generation e <= g) ->
  ledger_inv (Maps (<[bs_state_ref s := s']> S)
                   (<[pool_ref_for_state s := set_allocations p (<[bs_state_ref s := a']> (ps_allocations p))]> P) E').
Proof.
  intros Hinv Hs Hp Ha s' a' Huse HC Hlim Hcap Htot Hun Hgen HE' Hout Hother Hres.
  destruct (li_state _ Hinv _ _ Hs) as (_ & Hstatic & _ & _ & Hcolon & _).
  destruct (li_pool _ Hinv _ _ Hp) as [Hpref Hpok].
  destruct (li_mirror _ Hinv _ _ Hs) as (p1 & a1 & Hp1 & _ & _ & Hmode). cbn [mx_pool_states] in Hp1.
  rewrite Hp in Hp1. injection Hp1 as <-.
  constructor; cbn [mx_states mx_pool_states mx_events].
  - apply dict_wf_set, (li_states_wf _ Hinv).
  - apply dict_wf_set, (li_pools_wf _ Hinv).
  - done.
  - intros r s0. rewrite dict_get_set. case_decide as Hr; [|apply (li_state _ Hinv)].
    intros [= <-]. split; [by subst r|]. split_and!; done.
  - intros r p0. rewrite dict_get_set. case_decide as Hr; [|apply (li_pool _ Hinv)].
    intros [= <-]. split; [by subst r; rewrite Hpref|]. apply pool_ok_update; [done..| |done|done].
    destruct Huse as (? & ? & ? & ? & _). done.
  - intros r s0. rewrite dict_get_set. case_decide as Hr.
    + intros [= <-]. change (pool_ref_for_state s') with (pool_ref_for_state s).
      eexists _, a'. rewrite dict_get_set_eq. split; [done|]. subst r. split; [apply dict_get_set_eq|]. done.
    + intros Hs0. destruct (li_mirror _ Hinv _ _ Hs0) as (p0 & a0 & Hp0 & Ha0 & Hm).
      rewrite dict_get_set. case_decide as Hpr.
      * rewrite <-Hpr in Hp0. cbn [mx_pool_states] in Hp0. rewrite Hp in Hp0. injection Hp0 as <-. eexists _, a0. split; [done|].
        cbn [ps_allocations set_allocations]. by rewrite dict_get_set_ne.
      * by exists p0, a0.
  - intros k p0 r a0 Hp0 Ha0.
    assert (exists s0, S !! r = Some s0 /\ pool_ref_for_state s0 = k) as (s0 & Hs0 & Hk).
    { rewrite dict_get_set in Hp0. case_decide as Hpr; [|by apply (li_allocated _ Hinv k p0 r a0)].
      injection Hp0 as <-. cbn [ps_allocations set_allocations] in Ha0. rewrite dict_get_set in Ha0.
      case_decide as Hr; [subst r k; by exists s|]. subst k. by apply (li_allocated _ Hinv _ p r a0). }
    rewrite dict_get_set. case_decide as Hr; [|by exists s0]. subst r. rewrite Hs in Hs0. injection Hs0 as <-.
    by exists s'.
  - intros r s0. rewrite dict_get_set. case_decide as Hr.
    + intros [= <-]. subst r. done.
    + intros Hs0. rewrite Hother by done. by apply (li_reserved _ Hinv).
  - intros k e He Ht. destruct (Hres k e He Ht) as [HE|[-> Hg]].
    + destruct (li_reservation _ Hinv _ _ HE Ht) as (s0 & Hs0 & Hg0). cbn [mx_states] in Hs0.
      rewrite dict_get_set. case_decide as Hr; [|by exists s0]. eexists. split; [done|].
      rewrite <-Hr, Hs in Hs0. injection Hs0 as <-. change (bs_generation s') with g. lia.
    + rewrite dict_get_set_eq. by eexists.
Qed.
