(* ===== verification/ResourceSteps.v ===== *)
(** The steps of the ledger, and the loops over demands that run them,
    preserve its invariant. *)
From S2P Require Import Prelude.
From S2P Require Import Contracts.
From S2P Require Import ResourceTypes.
From S2P Require Import ResourceModel.
From S2P Require Import ResourceLedger.
From S2P Require Import ResourceReservation.
From S2P Require Import ResourceAccounting.
From S2P Require Import ResourceFacts.
From S2P Require Import ResourceInvariant.
From Stdlib Require Import Ascii.
Local Open Scope string_scope.
Local Open Scope list_scope.
Local Open Scope Z_scope.

Definition evidence_ok (l : list string) : Prop := Forall (fun e => nonempty e = true) l /\ NoDup l.

#[local] Opaque require_fields.

(** Events the operations construct are valid. *)
Lemma validate_budget_event_ok id op ref budget policy owner pool g t requested measured kind unit_ meter pred evidence :
  id <> "" -> op <> "" -> budget <> "" -> policy <> "" -> owner <> "" -> pool <> "" -> unit_ <> "" -> meter <> "" ->
  pred <> "" -> 0 <= g -> 0 <= requested <= max_amount ->
  (forall x, measured = Some x -> 0 <= x <= max_amount) -> (t = t_commit -> is_Some measured) ->
  evidence_ok evidence -> ref = participant_resource_budget_state_ref policy budget ->
  let e := BudgetEvent id op ref budget policy owner pool g t (EVENT_DISPOSITION t) requested measured kind unit_ meter
             (Some pred) evidence in
  validate_budget_event e = Ok e.
Proof.
  intros Hid Hop Hb Hpol Ho Hpo Hu Hm Hpr Hg Hreq Hmeas Hc [Hev Hnd] -> e.
  assert (participant_resource_budget_state_ref policy budget <> "") as Href.
  { unfold participant_resource_budget_state_ref. by destruct policy. }
  unfold validate_budget_event. cbv zeta. rewrite bind_unit. split.
  - rewrite require_fields_Ok, !Forall_cons, Forall_nil. cbn [snd]. subst e. cbn.
    rewrite ?at_least_true, ?in_range_true, ?forallb_Forall. unfold nonempty.
    rewrite !bool_decide_eq_true. split_and!; auto; try lia.
    destruct measured as [x|]; [|done]. cbn. apply in_range_true. by apply Hmeas.
  - rewrite bind_unit, raise_if_Ok, bool_decide_ne_false. split; [done|].
    rewrite bind_unit, raise_if_Ok, bool_decide_ne_false. split; [done|].
    rewrite bind_unit, raise_if_Ok. split.
    { subst e. cbn. rewrite andb_false_iff, !bool_decide_eq_false. destruct (decide (t = t_commit)) as [Ht|]; [|by left].
      right. destruct (Hc Ht) as [x ->]. done. }
    rewrite bind_unit, raise_if_Ok, py_unique_negb. by split.
Qed.

Lemma state_named s : state_static s ->
  bs_state_ref s <> "" /\ bs_budget_id s <> "" /\ bs_policy_address s <> "" /\ bs_owner_ref s <> "" /\
  bs_pool_ref s <> "" /\ bs_unit s <> "" /\ bs_meter_profile_ref s <> "".
Proof. intros [H _]. rewrite !nonempty_true in H. naive_solver. Qed.

Lemma append_ne (a b c : string) : b <> "" -> a +:+ b +:+ c <> "".
Proof. destruct a, b; done. Qed.

(** Generation, reservation and cumulative use of a budget. *)
Definition usage_of (m : BudgetMaps) (r : string) : option (Z * Z * Z) :=
  (fun s => (bs_generation s, bs_reserved s, bs_cumulative_use s)) <$> mx_states m !! r.

Lemma usage_of_set r s S P E r' :
  usage_of (Maps (<[r := s]> S) P E) r' =
  if decide (r = r') then Some (bs_generation s, bs_reserved s, bs_cumulative_use s)
  else usage_of (Maps S P E) r'.
Proof. unfold usage_of. cbn [mx_states]. rewrite dict_get_set. by case_decide. Qed.

(** Counting at the ledger's and at the pool's granularity. *)
Lemma allocation_use_set mode a g R C U :
  allocation_use mode (set_counters a g R C U) =
  if decide (mode = reservable_gauge \/ mode = lease) then C + R else U + R.
Proof. done. Qed.

Lemma used_capacity_set s g R C U t st last ev :
  used_capacity (set_usage s g R C U t st last ev) =
  if decide (bs_accounting_mode s = reservable_gauge \/ bs_accounting_mode s = lease) then C + R else U + R.
Proof. done. Qed.

(** Moving an allocation to [R'], [U'] without taking more of the pool. *)
Lemma pool_bounds_shrink p a g R C U :
  pool_ok p -> pa_current_use a = 0 -> C = 0 ->
  R <= pa_reserved a -> U + R <= pa_cumulative_use a + pa_reserved a ->
  let a' := set_counters a g R C U in
  pool_total p + allocation_use (ps_accounting_mode p) a' - allocation_use (ps_accounting_mode p) a <= ps_capacity p /\
  pool_unprotected p + unprotected_use p a' - unprotected_use p a <= ps_capacity p - ps_protected_capacity p.
Proof.
  intros ((_ & _ & Htot) & _ & Hun) Hc0 -> HR HU a'. subst a'.
  unfold unprotected_use. cbn [pa_protected set_counters]. rewrite allocation_use_set. unfold allocation_use.
  split; [|destruct (pa_protected a)]; repeat case_decide; lia.
Qed.

Section reserve_step.
Context {O : Type} (q : ReservationRequest O).

(** What one demand needs to be granted. *)
Record grantable (m : BudgetMaps) (s : ParticipantResourceBudgetState) (p : ParticipantResourcePoolState) (amount : Z)
    : Prop := {
  gr_state : mx_states m !! bs_state_ref s = Some s;
  gr_pool : mx_pool_states m !! pool_ref_for_state s = Some p;
  gr_generation : bs_generation s = rq_execution_generation q;
  gr_amount : 0 <= amount;
  gr_limit : used_capacity s + amount <= bs_limit s;
  gr_configured : used_capacity s + amount <= bs_configured_capacity s;
  gr_capacity : pool_total p + amount <= ps_capacity p;
  gr_protected a : ps_allocations p !! bs_state_ref s = Some a ->
    pa_protected a = true \/ pool_unprotected p + amount <= ps_capacity p - ps_protected_capacity p;
}.

Definition reserve_event_id (s : ParticipantResourceBudgetState) : string :=
  event_id_of (rq_operation_id q) (bs_state_ref s).

Definition reserved_state (s : ParticipantResourceBudgetState) (amount : Z) : ParticipantResourceBudgetState :=
  set_usage s (bs_generation s) (bs_reserved s + amount) (bs_current_use s) (bs_cumulative_use s) (bs_throttled s)
    (bs_reconciliation_status s) (reserve_event_id s) (bs_evidence_refs s).

Lemma used_capacity_reserved s : bs_current_use s = 0 -> 0 <= bs_cumulative_use s -> bs_reserved s <= used_capacity s.
Proof. intros H0 H1. unfold used_capacity. case_decide; lia. Qed.

Lemma apply_reservation_step m d s p amount :
  ledger_inv m -> grantable m s p amount ->
  rq_operation_id q <> "" -> pol_address (rq_policy q) <> "" -> rd_budget_id d <> "" ->
  bs_state_ref s = participant_resource_budget_state_ref (pol_address (rq_policy q)) (rd_budget_id d) ->
  reserve_event_id s ∉ dict_keys (mx_events m) ->
  exists p' e, apply_reservation q m (Checked d (Some s) (Some p) amount None) =
      Ok (Maps (<[bs_state_ref s := reserved_state s amount]> (mx_states m))
               (<[pool_ref_for_state s := p']> (mx_pool_states m)) (<[reserve_event_id s := e]> (mx_events m))) /\
    ledger_inv (Maps (<[bs_state_ref s := reserved_state s amount]> (mx_states m))
               (<[pool_ref_for_state s := p']> (mx_pool_states m)) (<[reserve_event_id s := e]> (mx_events m))).
Proof.
  intros Hinv Hg Hop Hpol Hbud Href Hfresh. destruct Hg as [Hs Hp Hgen Ham Hlim Hcfg Hcap Hprot].
  destruct m as [S P E]; cbn [mx_states mx_pool_states mx_events] in *.
  destruct (li_state _ Hinv _ _ Hs) as (_ & Hstatic & Huse & Hcur & Hcolon & Hul & Huc).
  destruct (li_pool _ Hinv _ _ Hp) as [Hpref Hpok].
  destruct (li_mirror _ Hinv _ _ Hs) as (p0 & a & Hp0 & Ha & Hm & _). cbn [mx_pool_states] in Hp0.
  rewrite Hp in Hp0. injection Hp0 as <-. specialize (Hprot a Ha). destruct Hm as (Hmg & Hmr & Hmc & Hmu).
  destruct (state_named s Hstatic) as (? & ? & ? & ? & ? & ? & ?).
  pose proof Huse as (Hug & Hur & Hucu & Hucum & Hut & Hul' & Hue & Hulim & Hucap).
  assert (bs_limit s <= max_amount) by (destruct Hstatic as (_ & [] & _); lia).
  set (e := BudgetEvent (reserve_event_id s) (rq_operation_id q) (bs_state_ref s) (rd_budget_id d)
    (pol_address (rq_policy q)) (bs_owner_ref s) (bs_pool_ref s) (rq_execution_generation q) t_reserve
    (EVENT_DISPOSITION t_reserve) amount None (bs_resource_kind s) (bs_unit s) (bs_meter_profile_ref s)
    (Some (bs_last_event_ref s)) []).
  pose proof (used_capacity_reserved s Hcur ltac:(lia)) as Hres.
  assert (validate_budget_event e = Ok e) as He.
  { apply validate_budget_event_ok; try done; try lia; [by apply append_ne|]. split; constructor. }
  exists (set_allocations p (<[bs_state_ref s :=
    set_counters a (bs_generation s) (bs_reserved s + amount) 0 (bs_cumulative_use s)]> (ps_allocations p))), e.
  split.
  - unfold apply_reservation. cbn [ck_current ck_physical_pool ck_demand ck_amount]. unfold budget_event. fold (reserve_event_id s).
    change (validate_budget_event _) with (validate_budget_event e). rewrite He. cbn [mbind result_bind].
    unfold reserve_pool_allocation, dict_index. rewrite Ha. cbn [mbind result_bind]. rewrite <-Hpref.
    unfold reserved_state. by rewrite Hmg, Hmr, Hmc, Hmu, !Hcur.
  - unfold reserved_state. rewrite Hcur.
    assert (counters_ok (bs_generation s) (bs_reserved s + amount) 0 (bs_cumulative_use s)) as Hcnt.
    { unfold counters_ok. lia. }
    apply (ledger_inv_write S P E _ s p a); try done.
    + unfold usage_ok. split_and!; try done; try lia; [by apply append_ne|apply Hue..].
    + rewrite used_capacity_set. unfold used_capacity in Hlim. rewrite Hcur in Hlim. case_decide; lia.
    + rewrite used_capacity_set. unfold used_capacity in Hcfg. rewrite Hcur in Hcfg. case_decide; lia.
    + rewrite allocation_use_set. unfold allocation_use. rewrite Hmr, Hmc, Hmu, Hcur. case_decide; lia.
    + unfold unprotected_use. cbn [pa_protected set_counters]. rewrite allocation_use_set.
      unfold allocation_use. rewrite Hmr, Hmc, Hmu, Hcur. destruct Hpok as (_ & _ & Hun).
      destruct (pa_protected a); [lia|]. destruct Hprot as [|Hprot]; [done|]. case_decide; lia.
    + apply (events_ok_reserve E _ e); try done. apply (li_events _ Hinv).
    + pose proof (outstanding_reserve E (rq_operation_id q) e (bs_state_ref s) (bs_generation s)
        (li_events _ Hinv) eq_refl eq_refl Hfresh) as Ho. cbn [ev_budget_state_ref e] in Ho.
      unfold reserve_event_id. rewrite Ho. rewrite decide_True by (split; done).
      cbn [ev_requested e]. rewrite (li_reserved _ Hinv _ _ Hs). done.
    + intros r g' Hr. pose proof (outstanding_reserve E (rq_operation_id q) e r g'
        (li_events _ Hinv) eq_refl eq_refl Hfresh) as Ho. cbn [ev_budget_state_ref e] in Ho.
      unfold reserve_event_id. rewrite Ho. rewrite decide_False by (cbn; naive_solver). lia.
    + intros k e'. rewrite dict_get_set. case_decide; [|by left]. intros [= <-] _. right. cbn. split; [done|lia].
Qed.
End reserve_step.

(** ** Settling a reservation *)

Lemma evidence_dedupe l1 l2 :
  Forall (fun e => nonempty e = true) l1 -> Forall (fun e => nonempty e = true) l2 ->
  evidence_ok (py_dedupe (l1 ++ l2)).
Proof.
  intros H1 H2. split; [|apply NoDup_py_dedupe]. rewrite Forall_forall in *. intros x.
  rewrite elem_of_py_dedupe, elem_of_app. naive_solver.
Qed.

Lemma event_named e : validate_budget_event e = Ok e ->
  ev_budget_id e <> "" /\ ev_policy_address e <> "" /\ ev_event_id e <> "" /\
  ev_budget_state_ref e = participant_resource_budget_state_ref (ev_policy_address e) (ev_budget_id e).
Proof.
  unfold validate_budget_event. rewrite bind_unit. intros [HF Hv]. cbv zeta in Hv. rewrite bind_unit in Hv.
  destruct Hv as [Href _]. rewrite raise_if_Ok, bool_decide_ne_false in Href.
  rewrite require_fields_Ok, !Forall_cons in HF. cbn [snd] in HF. rewrite !nonempty_true in HF.
  destruct HF as (? & _ & _ & ? & ? & _). done.
Qed.

(** A reservation of [op] that can be settled in generation [g]. *)
Record settleable (m : BudgetMaps) (op : string) (g : Z) (e0 : ParticipantResourceBudgetEvent) : Prop := {
  se_event : mx_events m !! event_id_of op (ev_budget_state_ref e0) = Some e0;
  se_operation : ev_operation_id e0 = op;
  se_transition : ev_transition e0 = t_reserve;
  se_generation : ev_execution_generation e0 = g;
  se_uncommitted : commit_id op (ev_budget_state_ref e0) ∉ dict_keys (mx_events m);
  se_unreleased : release_id op (ev_budget_state_ref e0) ∉ dict_keys (mx_events m);
}.

(** An outstanding reservation is covered by the reserved amount. *)
Lemma settleable_covered m op g e0 s :
  ledger_inv m -> settleable m op g e0 ->
  mx_states m !! ev_budget_state_ref e0 = Some s -> bs_generation s = g ->
  live_amount (mx_events m) (ev_budget_state_ref e0) g e0 = ev_requested e0 /\
  0 <= ev_requested e0 <= bs_reserved s.
Proof.
  intros Hinv Hse Hs Hg. destruct Hse as [He Hop Ht Hgen Hc Hr].
  assert (live_amount (mx_events m) (ev_budget_state_ref e0) g e0 = ev_requested e0) as Hlive.
  { unfold live_amount. rewrite decide_True; [done|]. unfold live. by rewrite Hop. }
  split; [done|]. destruct (eo_valid _ (li_events _ Hinv) _ _ He) as [Hv _]. apply validated_nonneg in Hv.
  split; [lia|]. rewrite (li_reserved _ Hinv _ _ Hs), Hg, <-Hlive.
  eapply dict_sum_get; [|exact He]. intros k e. apply live_amount_nonneg. apply (li_events _ Hinv).
Qed.

Lemma settle_write S P E op g e0 s k e measured st evidence :
  ledger_inv (Maps S P E) -> settleable (Maps S P E) op g e0 ->
  S !! ev_budget_state_ref e0 = Some s -> bs_generation s = g ->
  0 <= measured <= ev_requested e0 -> bs_cumulative_use s + measured <= max_amount ->
  (k = commit_id op (ev_budget_state_ref e0) \/ k = release_id op (ev_budget_state_ref e0)) ->
  k ∉ dict_keys E -> k <> "" -> ev_transition e <> t_reserve -> validate_budget_event e = Ok e -> k = ev_event_id e ->
  evidence_ok evidence ->
  exists p a,
    P !! pool_ref_for_state s = Some p /\ ps_allocations p !! bs_state_ref s = Some a /\ mirrored s a /\
    ps_pool_state_ref p = pool_ref_for_state s /\ validate_pool_state p = Ok p /\
    let R := bs_reserved s - ev_requested e0 in
    let U := bs_cumulative_use s + measured in
    ledger_inv (Maps (<[bs_state_ref s := set_usage s g R 0 U (bs_throttled s) st k evidence]> S)
      (<[pool_ref_for_state s := set_allocations p (<[bs_state_ref s := set_counters a g R 0 U]> (ps_allocations p))]> P)
      (<[k := e]> E)).
Proof.
  intros Hinv Hse Hs Hg Hme Hcum Hk Hfresh Hkne Het Hev Hkid [Hevn Hevd].
  destruct (settleable_covered _ _ _ _ _ Hinv Hse Hs Hg) as [Hlive Hcov].
  destruct Hse as [He0 Hop Ht Hgen Hc Hr]. cbn [mx_events] in *.
  destruct (li_state _ Hinv _ _ Hs) as (Hkey & Hstatic & Huse & Hcur & Hcolon & Hul & Huc).
  destruct (li_mirror _ Hinv _ _ Hs) as (p & a & Hp & Ha & Hm & _). cbn [mx_pool_states] in Hp.
  destruct (li_pool _ Hinv _ _ Hp) as [Hpref Hpok].
  exists p, a. rewrite <-Hkey. split_and!; try done; [by apply validate_pool_state_Ok; split; [|apply Hpok]|].
  set (R := bs_reserved s - ev_requested e0). set (U := bs_cumulative_use s + measured).
  destruct Hm as (Hmg & Hmr & Hmc & Hmu).
  destruct Huse as (Hug & Hur & Hucu & Hucum & Hut & Hul' & Hue & Hulim & Hucap).
  rewrite Hkey in *.
  destruct (pool_bounds_shrink p a g R 0 U Hpok) as [Htot Hun]; [lia..|].
  apply (ledger_inv_write S P E _ s p a); try done.
  - unfold usage_ok, R, U. split_and!; try done; lia.
  - rewrite used_capacity_set. unfold used_capacity, R, U in *. case_decide; lia.
  - rewrite used_capacity_set. unfold used_capacity, R, U in *. case_decide; lia.
  - lia.
  - apply (events_ok_settle E op e0); rewrite ?Hkey; try done; [apply (li_events _ Hinv)|].
    apply dict_get_is_Some. by exists e0.
  - rewrite (outstanding_settle E op e0); rewrite ?Hkey; try done; [|apply (li_events _ Hinv)].
    rewrite Hlive. unfold R. rewrite (li_reserved _ Hinv _ _ Hs). cbn [mx_events]. by rewrite Hg.
  - intros r g' Hr'. rewrite (outstanding_settle E op e0); rewrite ?Hkey; try done; [|apply (li_events _ Hinv)].
    unfold live_amount. rewrite decide_False; [lia|]. intros (_ & Hbad & _). congruence.
  - intros k' e'. rewrite dict_get_set. case_decide; [intros [= <-] ?; done|by left].
Qed.

Section settle_step.
Context {O : Type} (snapshot : RuntimeSnapshot O).

Lemma commit_reservation_step m op g evidence e0 measured s :
  ledger_inv m -> settleable m op g e0 -> op <> "" ->
  mx_states m !! ev_budget_state_ref e0 = Some s -> bs_generation s = g ->
  0 <= measured <= ev_requested e0 -> bs_cumulative_use s + measured <= max_amount -> evidence_ok evidence ->
  exists m' e, commit_reservation snapshot op g evidence m (e0, measured) = Ok (m', None) /\ ledger_inv m' /\
    mx_events m' = <[commit_id op (ev_budget_state_ref e0) := e]> (mx_events m) /\ ev_transition e = t_commit /\
    (forall r, usage_of m' r = if decide (ev_budget_state_ref e0 = r)
                               then Some (g, bs_reserved s - ev_requested e0, bs_cumulative_use s + measured)
                               else usage_of m r).
Proof.
  intros Hinv Hse Hop Hs Hg Hme Hcum [Hevn Hevd]. destruct m as [S P E]. cbn [mx_states mx_events] in *.
  destruct (settleable_covered _ _ _ _ _ Hinv Hse Hs Hg) as [Hlive Hcov]. cbn [mx_events] in *.
  destruct (li_state _ Hinv _ _ Hs) as (Hkey & Hstatic & Huse & Hcur & _).
  destruct (state_named s Hstatic) as (? & ? & ? & ? & ? & ? & ?).
  pose proof Huse as (Hug & Hur & _ & Hucum & _ & _ & [Hue _] & _).
  pose proof Hse as [He0 Hop0 Ht Hgen Hc Hr]. cbn [mx_events] in *.
  destruct (eo_valid _ (li_events _ Hinv) _ _ He0) as [Hv Hid0]. cbn [mx_events] in *.
  destruct (event_named e0 Hv) as (? & ? & ? & ?).
  set (e := BudgetEvent (commit_id op (ev_budget_state_ref e0)) op (ev_budget_state_ref e0) (ev_budget_id e0)
    (ev_policy_address e0) (bs_owner_ref s) (bs_pool_ref s) g t_commit d_committed (ev_requested e0) (Some measured)
    (bs_resource_kind s) (bs_unit s) (bs_meter_profile_ref s) (Some (ev_event_id e0)) evidence).
  apply validated_nonneg in Hv.
  assert (validate_budget_event e = Ok e) as He.
  { apply (validate_budget_event_ok); try done; try lia; [by apply append_ne|].
    intros x [= <-]. lia. }
  destruct (settle_write S P E op g e0 s (commit_id op (ev_budget_state_ref e0)) e measured (bs_reconciliation_status s)
    (py_dedupe (bs_evidence_refs s ++ evidence))) as (p & a & Hp & Ha & (Hmg & Hmr & Hmc & Hmu) & Hpref & Hpv & Hinv');
    try done; [by left|by apply append_ne|by apply evidence_dedupe|].
  eexists _, e. split; [|split; [exact Hinv'|]].
  - unfold commit_reservation. fold (commit_id op (ev_budget_state_ref e0)). cbn [mx_events mx_states mx_pool_states].
    rewrite decide_False by done. unfold dict_index. rewrite Hs. cbn [mbind result_bind].
    assert (validate_budget_state s = Ok s) as -> by (by apply validate_budget_state_Ok). cbn [mbind result_bind].
    rewrite decide_False by (by intros []). cbv zeta.
    change (validate_budget_event _) with (validate_budget_event e). rewrite He. cbn [mbind result_bind].
    rewrite Hp. cbn [mbind result_bind]. rewrite Hpv. cbn [mbind result_bind].
    unfold commit_pool_allocation, dict_index. rewrite Ha. cbn [mbind result_bind].
    rewrite Hmg, Hmr, Hmc, Hmu, Hcur, Hkey, Hg, Z.max_r by lia. done.
  - cbn [mx_events]. split_and!; [done|done|]. intros r. by rewrite usage_of_set, Hkey.
Qed.

Lemma release_reservation_step m op g evidence e0 s :
  ledger_inv m -> settleable m op g e0 -> op <> "" ->
  mx_states m !! ev_budget_state_ref e0 = Some s -> bs_generation s = g -> evidence_ok evidence ->
  exists m' e, release_reservation snapshot op g evidence m e0 = Ok (m', None) /\ ledger_inv m' /\
    mx_events m' = <[release_id op (ev_budget_state_ref e0) := e]> (mx_events m) /\ ev_transition e = t_release /\
    (forall r, usage_of m' r = if decide (ev_budget_state_ref e0 = r)
                               then Some (g, bs_reserved s - ev_requested e0, bs_cumulative_use s)
                               else usage_of m r).
Proof.
  intros Hinv Hse Hop Hs Hg [Hevn Hevd]. destruct m as [S P E]. cbn [mx_states mx_events] in *.
  destruct (settleable_covered _ _ _ _ _ Hinv Hse Hs Hg) as [Hlive Hcov]. cbn [mx_events] in *.
  destruct (li_state _ Hinv _ _ Hs) as (Hkey & Hstatic & Huse & Hcur & _).
  destruct (state_named s Hstatic) as (? & ? & ? & ? & ? & ? & ?).
  pose proof Huse as (Hug & Hur & _ & Hucum & _ & _ & [Hue _] & _).
  pose proof Hse as [He0 Hop0 Ht Hgen Hc Hr]. cbn [mx_events] in *.
  destruct (eo_valid _ (li_events _ Hinv) _ _ He0) as [Hv Hid0]. cbn [mx_events] in *.
  destruct (event_named e0 Hv) as (? & ? & ? & ?).
  set (e := BudgetEvent (release_id op (ev_budget_state_ref e0)) op (ev_budget_state_ref e0) (ev_budget_id e0)
    (ev_policy_address e0) (bs_owner_ref s) (bs_pool_ref s) g t_release d_released (ev_requested e0) None
    (bs_resource_kind s) (bs_unit s) (bs_meter_profile_ref s) (Some (ev_event_id e0)) evidence).
  apply validated_nonneg in Hv.
  assert (validate_budget_event e = Ok e) as He.
  { apply (validate_budget_event_ok); try done; try lia. by apply append_ne. }
  destruct (settle_write S P E op g e0 s (release_id op (ev_budget_state_ref e0)) e 0 (bs_reconciliation_status s)
    (py_dedupe (bs_evidence_refs s ++ evidence))) as (p & a & Hp & Ha & (Hmg & Hmr & Hmc & Hmu) & Hpref & Hpv & Hinv');
    try done; try lia; [by right|by apply append_ne|by apply evidence_dedupe|].
  rewrite Z.add_0_r in Hinv'.
  eexists _, e. split; [|split; [exact Hinv'|]].
  - unfold release_reservation. fold (release_id op (ev_budget_state_ref e0)). cbn [mx_events mx_states mx_pool_states].
    rewrite decide_False by done. unfold dict_index. rewrite Hs. cbn [mbind result_bind].
    assert (validate_budget_state s = Ok s) as -> by (by apply validate_budget_state_Ok). cbn [mbind result_bind].
    rewrite decide_False by (by intros []). cbv zeta.
    change (validate_budget_event _) with (validate_budget_event e). rewrite He. cbn [mbind result_bind].
    rewrite Hp. cbn [mbind result_bind]. rewrite Hpv. cbn [mbind result_bind].
    unfold release_pool_allocation, dict_index. rewrite Ha. cbn [mbind result_bind].
    rewrite Hmg, Hmr, Hmc, Hmu, Hcur, Hg, Z.max_r by lia. done.
  - cbn [mx_events]. split_and!; [done|done|]. intros r. by rewrite usage_of_set, Hkey.
Qed.
End settle_step.

(** ** The reservations of an operation *)

Lemma filter_values (P : ParticipantResourceBudgetEvent -> Prop) `{forall e, Decision (P e)} (d : events_map) :
  base.filter P (dict_values d) = (base.filter (fun kv => P kv.2) (dict_items d)).*2.
Proof.
  unfold dict_values. destruct d as [l]; simpl. induction l as [|[k e] l IH]; [done|].
  rewrite fmap_cons, !filter_cons. cbn [snd]. case_decide; [rewrite fmap_cons; cbn [snd]; by f_equal|done].
Qed.

Definition reservations_of (events : events_map) (op : string) : list ParticipantResourceBudgetEvent :=
  base.filter (fun e => ev_operation_id e = op /\ ev_transition e = t_reserve) (dict_values events).

Lemma elem_of_reservations events op e :
  events_ok events ->
  e ∈ reservations_of events op <->
  events !! event_id_of op (ev_budget_state_ref e) = Some e /\ ev_operation_id e = op /\ ev_transition e = t_reserve.
Proof.
  intros Hok. unfold reservations_of. rewrite filter_values, list_elem_of_fmap. split.
  - intros ([k e'] & -> & Hin). apply list_elem_of_filter in Hin as [[Hop Ht] Hin]. cbn [snd] in *.
    apply dict_get_Some in Hin; [|apply Hok]. pose proof (eo_reserve _ Hok _ _ Hin Ht) as Hk.
    rewrite Hop in Hk. by subst k.
  - intros (Hget & Hop & Ht). exists (event_id_of op (ev_budget_state_ref e), e). split; [done|].
    apply list_elem_of_filter. split; [done|]. by apply dict_get_Some_in.
Qed.

Lemma reservations_refs_NoDup events op :
  events_ok events -> NoDup (ev_budget_state_ref <$> reservations_of events op).
Proof.
  intros Hok. apply (NoDup_fmap_1 (event_id_of op)). rewrite <-list_fmap_compose.
  unfold reservations_of. rewrite filter_values, <-list_fmap_compose.
  set (l := base.filter _ (dict_items events)).
  assert ((event_id_of op ∘ ev_budget_state_ref) ∘ snd <$> l = l.*1) as ->.
  { apply list_fmap_ext. intros i [k e] Hi. apply list_elem_of_lookup_2 in Hi.
    apply list_elem_of_filter in Hi as [[Hop Ht] Hin]. cbn [snd fst] in *. unfold compose. cbn [snd].
    apply dict_get_Some in Hin; [|apply Hok]. rewrite (eo_reserve _ Hok _ _ Hin Ht). by rewrite Hop. }
  pose proof (dict_filter_keys_NoDup (fun _ e => bool_decide (ev_operation_id e = op /\ ev_transition e = t_reserve))
    events (eo_wf _ Hok)) as Hnd.
  unfold dict_wf, dict_keys, dict_filter in Hnd. cbn [dict_items] in Hnd.
  assert (l = base.filter (fun kv => bool_decide (ev_operation_id kv.2 = op /\ ev_transition kv.2 = t_reserve) = true)
    (dict_items events)) as ->; [|done].
  unfold l. apply list_filter_iff. intros [k e]. cbn [snd]. by rewrite bool_decide_eq_true.
Qed.

Lemma operation_reservations_ok events op :
  events_ok events -> operation_reservations events op = Ok (reservations_of events op).
Proof.
  intros Hok. unfold operation_reservations. fold (reservations_of events op).
  rewrite (mmap_Ok_Forall (fun e => e)); [by rewrite list_fmap_id|].
  intros e He. apply elem_of_reservations in He as (Hget & _ & _); [|done].
  by destruct (eo_valid _ Hok _ _ Hget) as [? _].
Qed.

(** ** Settling a vector *)

Section settle_loop.
Context {O : Type} (op : string) (g : Z) (sid : string -> string -> string) (allowed : Z -> Prop).
Context (f : BudgetMaps -> ParticipantResourceBudgetEvent * Z -> result (BudgetMaps * option (ApplyResult O))).
Hypothesis sid_kind : sid = commit_id \/ sid = release_id.

Definition settle_step_spec : Prop :=
  forall m e0 x s, ledger_inv m -> settleable m op g e0 ->
    mx_states m !! ev_budget_state_ref e0 = Some s -> bs_generation s = g ->
    0 <= x <= ev_requested e0 -> bs_cumulative_use s + x <= max_amount -> allowed x ->
    exists m' e, f m (e0, x) = Ok (m', None) /\ ledger_inv m' /\
      mx_events m' = <[sid op (ev_budget_state_ref e0) := e]> (mx_events m) /\ ev_transition e <> t_reserve /\
      (forall r, usage_of m' r = if decide (ev_budget_state_ref e0 = r)
                                 then Some (g, bs_reserved s - ev_requested e0, bs_cumulative_use s + x)
                                 else usage_of m r).

(** A vector that can be settled: distinct budgets of the generation. *)
Definition vector_ready (m : BudgetMaps) (work : list (ParticipantResourceBudgetEvent * Z)) : Prop :=
  NoDup (ev_budget_state_ref <$> work.*1) /\
  forall e x, (e, x) ∈ work -> settleable m op g e /\ 0 <= x <= ev_requested e /\ allowed x /\
    exists R U, usage_of m (ev_budget_state_ref e) = Some (g, R, U) /\ U + x <= max_amount.

Lemma sid_inj r1 r2 : sid op r1 = sid op r2 -> r1 = r2.
Proof.
  destruct sid_kind as [-> | ->]; unfold commit_id, release_id;
    intros H%string_app_inj_l%string_app_inj_l; by apply string_app_inj_r in H.
Qed.

Lemma settleable_step m m' e1 e0 ev :
  settleable m op g e1 -> ev_budget_state_ref e1 <> ev_budget_state_ref e0 ->
  mx_events m' = <[sid op (ev_budget_state_ref e0) := ev]> (mx_events m) -> settleable m' op g e1.
Proof.
  intros [He Hop Ht Hg Hc Hr] Hne Hev. constructor; try done; rewrite Hev.
  - rewrite dict_get_set_ne; [done|]. intros H.
    destruct sid_kind as [-> | ->]; rewrite ?commit_id_stem, ?release_id_stem, event_id_stem in H; suffix_discriminate H.
  - rewrite elem_of_dict_keys_set. intros [H|]; [|done]. destruct sid_kind as [Hs|Hs].
    + rewrite <-Hs in H. by apply sid_inj in H.
    + rewrite Hs, commit_id_stem, release_id_stem in H. suffix_discriminate H.
  - rewrite elem_of_dict_keys_set. intros [H|]; [|done]. destruct sid_kind as [Hs|Hs].
    + rewrite Hs, commit_id_stem, release_id_stem in H. suffix_discriminate H.
    + rewrite <-Hs in H. by apply sid_inj in H.
Qed.

Lemma settle_loop work : settle_step_spec -> forall m, ledger_inv m -> vector_ready m work ->
  exists m', until_some f m work = Ok (m', None) /\ ledger_inv m' /\
    (forall e x R U, (e, x) ∈ work -> usage_of m (ev_budget_state_ref e) = Some (g, R, U) ->
       usage_of m' (ev_budget_state_ref e) = Some (g, R - ev_requested e, U + x)) /\
    (forall r, r ∉ ev_budget_state_ref <$> work.*1 -> usage_of m' r = usage_of m r) /\
    (forall k e, ev_transition e = t_reserve -> mx_events m' !! k = Some e <-> mx_events m !! k = Some e) /\
    (forall k, k ∈ dict_keys (mx_events m') <-> k ∈ dict_keys (mx_events m) \/
       exists e x, (e, x) ∈ work /\ k = sid op (ev_budget_state_ref e)).
Proof.
  intros Hstep. induction work as [|[e0 x0] work IH]; intros m Hinv [Hnd Hready].
  - exists m. split_and!; try done; [by intros ? ? ? ? ?%not_elem_of_nil|]. intros k. split; [by left|].
    intros [|(? & ? & []%not_elem_of_nil & _)]. done.
  - destruct (Hready e0 x0) as (Hse & Hx & Hall & R0 & U0 & Hu0 & Hmax); [by left|].
    apply fmap_Some in Hu0 as (s & Hs & [= Hg -> ->]).
    destruct (Hstep m e0 x0 s Hinv Hse Hs (eq_sym Hg) Hx Hmax Hall) as (m1 & ev & Hf & Hinv1 & Hev & Htr & Husage).
    cbn [fmap list_fmap fst] in Hnd. apply NoDup_cons in Hnd as [Hnin Hnd].
    assert (forall e x, (e, x) ∈ work -> ev_budget_state_ref e <> ev_budget_state_ref e0) as Hne.
    { intros e x Hin Heq. apply Hnin. rewrite <-Heq. apply list_elem_of_fmap. exists e. split; [done|].
      apply list_elem_of_fmap. by exists (e, x). }
    destruct (IH m1 Hinv1) as (m' & Hrun & Hinv' & Hin' & Hout' & Hres' & Hkeys').
    { split; [done|]. intros e x Hin. destruct (Hready e x) as (Hse1 & Hx1 & Hall1 & R & U & Hu & Hb); [by right|].
      split_and!; [by eapply settleable_step; eauto|lia|lia|done|]. exists R, U. split; [|done].
      rewrite Husage, decide_False; [done|]. intros Heq. by apply (Hne e x). }
    exists m'. split_and!.
    + cbn [until_some]. rewrite Hf. cbn [mbind result_bind fst snd]. done.
    + done.
    + intros e x R U [[= -> ->]|Hin]%elem_of_cons Hu.
      * rewrite Hout', Husage, decide_True by done. unfold usage_of in Hu. rewrite Hs in Hu. cbn in Hu. injection Hu as _ <- <-. done.
      * apply (Hin' e x R U Hin). rewrite Husage, decide_False; [done|]. intros Heq. by apply (Hne e x).
    + intros r Hr. cbn [fmap list_fmap fst] in Hr. apply not_elem_of_cons in Hr as [Hr1 Hr2].
      rewrite Hout', Husage, decide_False by done. done.
    + intros k e Ht. rewrite Hres' by done. rewrite Hev, dict_get_set. case_decide as Hk; [|done].
      split; [intros [= <-]; done|]. intros He. exfalso. subst k. destruct Hse as [_ _ _ _ Hc Hr].
      destruct sid_kind as [Hsid|Hsid]; rewrite Hsid in He; [apply Hc|apply Hr]; apply dict_get_is_Some; eauto.
    + intros k. rewrite Hkeys', Hev, elem_of_dict_keys_set. split.
      * intros [[->|]|(e & x & Hin & ->)]; [right; exists e0, x0; split; [by left|done]|by left|].
        right. exists e, x. split; [by right|done].
      * intros [|(e & x & [[= -> ->]|Hin]%elem_of_cons & ->)]; [by left; right|by left; left|]. right. eauto.
Qed.
End settle_loop.
