(* ===== verification/ResourceSettle.v ===== *)
(** Commit and release of the whole vector of an operation. *)
From S2P Require Import Prelude.
From S2P Require Import Contracts.
From S2P Require Import ResourceTypes.
From S2P Require Import ResourceModel.
From S2P Require Import ResourceLedger.
From S2P Require Import ResourceReservation.
From S2P Require Import ResourceAccounting.
From S2P Require Import ResourceFacts.
From S2P Require Import ResourceInvariant.
From S2P Require Import ResourceSteps.
Local Open Scope string_scope.
Local Open Scope list_scope.
Local Open Scope Z_scope.

Lemma pair_fst {A B} (h : A -> B) (l : list A) : ((fun a => (a, h a)) <$> l).*1 = l.
Proof. induction l; simpl; [done|]. by f_equal. Qed.

(** Reserved amount and cumulative use of a budget move by what one operation
    reserved and measured. *)
Definition usage_moves (m m' : BudgetMaps) (moved : string -> option (Z * Z)) : Prop :=
  forall r, usage_of m' r =
    match moved r with
    | Some (dR, dU) => (fun u => (u.1.1, u.1.2 + dR, u.2 + dU)) <$> usage_of m r
    | None => usage_of m r
    end.

(** The reservation of [op] on the budget [r]. *)
Definition reservation_on (events : events_map) (op r : string) : option ParticipantResourceBudgetEvent :=
  match events !! event_id_of op r with
  | Some e => if decide (ev_operation_id e = op /\ ev_transition e = t_reserve /\ ev_budget_state_ref e = r)
              then Some e else None
  | None => None
  end.

Lemma reservation_on_Some events op r e :
  events_ok events -> reservation_on events op r = Some e <-> e ∈ reservations_of events op /\ ev_budget_state_ref e = r.
Proof.
  intros Hok. rewrite elem_of_reservations by done. unfold reservation_on. split.
  - destruct (events !! event_id_of op r) as [e'|] eqn:E; [|done]. case_decide as H; [|done].
    intros [= <-]. destruct H as (? & ? & <-). done.
  - intros ((Hget & Hop & Ht) & <-). by rewrite Hget, decide_True.
Qed.

Lemma reservation_on_None events op r :
  events_ok events -> reservation_on events op r = None -> r ∉ ev_budget_state_ref <$> reservations_of events op.
Proof.
  intros Hok Hnone (e & Hr & He)%list_elem_of_fmap.
  assert (reservation_on events op r = Some e) by (apply reservation_on_Some; done). congruence.
Qed.

(** No reservation of the operation is settled, and its budgets are still in
    the operation's generation. *)
Definition operation_open (m : BudgetMaps) (op : string) (g : Z) : Prop :=
  forall e, e ∈ reservations_of (mx_events m) op ->
    ev_execution_generation e = g /\ (commit_id op (ev_budget_state_ref e) ∉ dict_keys (mx_events m)) /\
    (release_id op (ev_budget_state_ref e) ∉ dict_keys (mx_events m)) /\
    exists R U, usage_of m (ev_budget_state_ref e) = Some (g, R, U).

Lemma operation_open_ready m op g (allowed : Z -> Prop) (x : ParticipantResourceBudgetEvent -> Z) :
  ledger_inv m -> operation_open m op g ->
  (forall e, e ∈ reservations_of (mx_events m) op -> 0 <= x e <= ev_requested e /\
     forall R U, usage_of m (ev_budget_state_ref e) = Some (g, R, U) -> U + x e <= max_amount) ->
  (forall e, e ∈ reservations_of (mx_events m) op -> allowed (x e)) ->
  vector_ready op g allowed m ((fun e => (e, x e)) <$> reservations_of (mx_events m) op).
Proof.
  intros Hinv Hopen Hx Hall. split.
  - rewrite pair_fst. apply reservations_refs_NoDup, (li_events _ Hinv).
  - intros e z (e' & [= -> ->] & He)%list_elem_of_fmap. destruct (Hopen e' He) as (Hg & Hc & Hr & R & U & Hu).
    destruct (Hx e' He) as [Hb Hmax]. specialize (Hall e' He). apply elem_of_reservations in He as (Hget & Hop & Ht); [|apply (li_events _ Hinv)].
    split_and!; [by constructor|lia|lia|done|]. exists R, U. split; [done|by apply (Hmax R)].
Qed.

Section settle.
Context {O : Type}.
Implicit Types (snapshot : RuntimeSnapshot O).

Lemma commit_step_spec snapshot op g evidence :
  op <> "" -> evidence_ok evidence -> settle_step_spec op g commit_id (fun _ => True) (commit_reservation snapshot op g evidence).
Proof.
  intros Hop Hev m e0 x s Hinv Hse Hs Hg Hx Hmax _.
  destruct (commit_reservation_step snapshot m op g evidence e0 x s) as (m' & e & ? & ? & ? & Ht & ?); [done..|].
  exists m', e. rewrite Ht. done.
Qed.


(** The vector of measurements a commit accepts. *)
Record measured_vector (m : BudgetMaps) (op : string) (measured : dict string Z) : Prop := {
  mv_keys r : r ∈ dict_keys measured <-> exists e, e ∈ reservations_of (mx_events m) op /\ ev_budget_state_ref e = r;
  mv_range e x : e ∈ reservations_of (mx_events m) op -> measured !! ev_budget_state_ref e = Some x ->
    0 <= x <= ev_requested e;
}.

(** ... with room for it below the largest counter value. *)
Record measured_exactly (m : BudgetMaps) (op : string) (g : Z) (measured : dict string Z) : Prop := {
  me_vector : measured_vector m op measured;
  me_room e x R U : e ∈ reservations_of (mx_events m) op -> measured !! ev_budget_state_ref e = Some x ->
    usage_of m (ev_budget_state_ref e) = Some (g, R, U) -> U + x <= max_amount;
}.

Definition measure_of (measured : dict string Z) (e : ParticipantResourceBudgetEvent) : Z :=
  default 0 (measured !! ev_budget_state_ref e).

Lemma measured_get m op measured e :
  measured_vector m op measured -> e ∈ reservations_of (mx_events m) op ->
  measured !! ev_budget_state_ref e = Some (measure_of measured e).
Proof.
  intros Hm He. assert (ev_budget_state_ref e ∈ dict_keys measured) as [x Hx]%dict_get_is_Some.
  { apply (mv_keys _ _ _ Hm). eauto. }
  unfold measure_of. by rewrite Hx.
Qed.

Lemma measured_mmap m op measured :
  measured_vector m op measured ->
  mmap (fun r => dict_index measured (ev_budget_state_ref r)) (reservations_of (mx_events m) op) =
  Ok (measure_of measured <$> reservations_of (mx_events m) op).
Proof.
  intros Hm. apply mmap_Ok_Forall. intros e He. apply dict_index_Ok. by eapply measured_get.
Qed.

Lemma zip_measured {A B} (h : A -> B) l : zip l (h <$> l) = (fun a => (a, h a)) <$> l.
Proof. induction l; simpl; [done|]. by f_equal. Qed.

Lemma zip_measured_flip {A B} (h : A -> B) l : zip (h <$> l) l = (fun a => (h a, a)) <$> l.
Proof. induction l; simpl; [done|]. by f_equal. Qed.

Lemma valid_measurement_vector_ok m op measured evidence :
  measured_vector m op measured -> evidence <> [] ->
  valid_measurement_vector (reservations_of (mx_events m) op) measured evidence = Ok true.
Proof.
  intros Hm Hev. unfold valid_measurement_vector. rewrite bool_decide_eq_true_2.
  2:{ apply set_eq. intros r. rewrite !elem_of_list_to_set, (mv_keys _ _ _ Hm), list_elem_of_fmap. naive_solver. }
  rewrite bool_decide_eq_false_2 by done. cbn [andb negb].
  rewrite (measured_mmap _ _ _ Hm). cbn [mbind result_bind]. f_equal.
  rewrite zip_measured_flip, forallb_forall. intros [x e] Hin%list_elem_of_In.
  apply list_elem_of_fmap in Hin as (e' & [= -> ->] & He). cbn [fst snd].
  pose proof (mv_range _ _ _ Hm e' (measure_of measured e') He ltac:(by eapply measured_get)).
  rewrite andb_true_iff, !Z.leb_le. lia.
Qed.

Lemma snapshot_eta snapshot : Snapshot (snap_other snapshot) (budget_states snapshot) (pool_states snapshot)
  (budget_events snapshot) = snapshot.
Proof. by destruct snapshot. Qed.

(** Committing an open operation moves every budget it reserved. *)
Lemma commit_run snapshot op g measured evidence :
  ledger_inv (maps_of snapshot) -> op <> "" -> evidence_ok evidence -> evidence <> [] ->
  reservations_of (budget_events snapshot) op <> [] ->
  operation_open (maps_of snapshot) op g -> measured_exactly (maps_of snapshot) op g measured ->
  exists s', commit_participant_resource_reservation snapshot op g measured evidence = Ok (Applied true s' []) /\
    ledger_inv (maps_of s') /\ snap_other s' = snap_other snapshot /\
    usage_moves (maps_of snapshot) (maps_of s')
      (fun r => (fun e => (- ev_requested e, measure_of measured e)) <$> reservation_on (budget_events snapshot) op r) /\
    (forall e, e ∈ reservations_of (budget_events s') op <-> e ∈ reservations_of (budget_events snapshot) op) /\
    (forall e, e ∈ reservations_of (budget_events snapshot) op ->
       commit_id op (ev_budget_state_ref e) ∈ dict_keys (budget_events s')).
Proof.
  intros Hinv Hop Hev Hevn Hne Hopen Hm. pose proof (li_events _ Hinv) as Hok. cbn [mx_events maps_of] in Hok.
  assert (vector_ready op g (fun _ => True) (maps_of snapshot)
    ((fun e => (e, measure_of measured e)) <$> reservations_of (budget_events snapshot) op)) as Hready.
  { apply (operation_open_ready (maps_of snapshot)); [done..| |done]. intros e He.
    pose proof (measured_get _ _ _ _ (me_vector _ _ _ _ Hm) He) as Hx.
    split; [by apply (mv_range _ _ _ (me_vector _ _ _ _ Hm))|]. intros R U. by apply (me_room _ _ _ _ Hm). }
  destruct (settle_loop op g commit_id (fun _ => True) (commit_reservation snapshot op g evidence) (or_introl eq_refl) _
    (commit_step_spec snapshot op g evidence Hop Hev) _ Hinv Hready)
    as (m' & Hrun & Hinv' & Hmoved & Hkept & Hres & Hkeys).
  exists (Snapshot (snap_other snapshot) (mx_states m') (mx_pool_states m') (mx_events m')).
  assert (maps_of (Snapshot (snap_other snapshot) (mx_states m') (mx_pool_states m') (mx_events m')) = m') as Hmaps
    by (by destruct m').
  rewrite Hmaps. split_and!; [|done|done| | |].
  - unfold commit_participant_resource_reservation. rewrite operation_reservations_ok by done. cbn [mbind result_bind].
    destruct (reservations_of (budget_events snapshot) op) as [|e0 l] eqn:EL; [done|]. rewrite <-EL.
    pose proof (valid_measurement_vector_ok (maps_of snapshot) op measured evidence (me_vector _ _ _ _ Hm) Hevn) as Hvalid.
    pose proof (measured_mmap (maps_of snapshot) op measured (me_vector _ _ _ _ Hm)) as Hmmap. cbn [mx_events maps_of] in Hvalid, Hmmap.
    rewrite Hvalid. cbn [mbind result_bind negb].
    rewrite Hmmap. cbn [mbind result_bind].
    rewrite zip_measured, EL, Hrun. cbn [mbind result_bind snd fst]. by rewrite with_maps_ok.
  - intros r. cbn [budget_events]. destruct (reservation_on (budget_events snapshot) op r) as [e|] eqn:E; cbn [fmap option_fmap option_map].
    + apply reservation_on_Some in E as [He <-]; [|done]. destruct (Hopen e He) as (_ & _ & _ & R & U & Hu).
      rewrite Hu. cbn. rewrite (Hmoved e (measure_of measured e) R U); [done| |done].
      apply list_elem_of_fmap. by exists e.
    + apply reservation_on_None in E; [|done]. apply Hkept. by rewrite pair_fst.
  - intros e. cbn [budget_events]. rewrite !elem_of_reservations by (done || apply (li_events _ Hinv')).
    split; intros (Hget & ? & Ht); (split; [|done]); by apply Hres.
  - intros e He. cbn [budget_events]. apply Hkeys. right. exists e, (measure_of measured e). split; [|done].
    apply list_elem_of_fmap. by exists e.
Qed.

(** Committing again changes nothing. *)
Lemma commit_again snapshot op g measured evidence :
  ledger_inv (maps_of snapshot) -> evidence <> [] -> reservations_of (budget_events snapshot) op <> [] ->
  measured_vector (maps_of snapshot) op measured ->
  (forall e, e ∈ reservations_of (budget_events snapshot) op ->
     commit_id op (ev_budget_state_ref e) ∈ dict_keys (budget_events snapshot)) ->
  commit_participant_resource_reservation snapshot op g measured evidence = Ok (Applied true snapshot []).
Proof.
  intros Hinv Hev Hne Hm Hdone. pose proof (li_events _ Hinv) as Hok. cbn [mx_events maps_of] in Hok.
  unfold commit_participant_resource_reservation. rewrite operation_reservations_ok by done. cbn [mbind result_bind].
  pose proof (valid_measurement_vector_ok (maps_of snapshot) op measured evidence Hm Hev) as Hvalid.
  pose proof (measured_mmap (maps_of snapshot) op measured Hm) as Hmmap. cbn [mx_events maps_of] in Hvalid, Hmmap.
  destruct (reservations_of (budget_events snapshot) op) as [|e0 l] eqn:EL; [done|]. rewrite <-EL in *.
  rewrite Hvalid. cbn [mbind result_bind negb]. rewrite Hmmap. cbn [mbind result_bind]. rewrite zip_measured.
  assert (forall l, (forall e, e ∈ l -> commit_id op (ev_budget_state_ref e) ∈ dict_keys (budget_events snapshot)) ->
    until_some (commit_reservation snapshot op g evidence) (maps_of snapshot) ((fun e => (e, measure_of measured e)) <$> l)
      = Ok (maps_of snapshot, None)) as Hskip.
  { clear. induction l as [|e l IH]; intros Hl; [done|]. cbn [fmap list_fmap until_some commit_reservation].
    fold (commit_id op (ev_budget_state_ref e)). rewrite decide_True by (apply (Hl e); left).
    cbn [mbind result_bind fst snd]. apply IH. intros e' He'. apply Hl. by right. }
  rewrite Hskip by done. cbn [mbind result_bind fst snd]. rewrite with_maps_ok by done. cbn. by rewrite snapshot_eta.
Qed.

Lemma until_some_fmap {A B S} (h : A -> B) (f : S -> B -> result (S * option (ApplyResult O))) l : forall s,
  until_some f s (h <$> l) = until_some (fun s a => f s (h a)) s l.
Proof.
  induction l as [|a l IH]; intros s; [done|]. cbn [fmap list_fmap until_some].
  destruct (f s (h a)) as [[s' [r|]]|]; cbn; auto.
Qed.

Lemma release_step_spec snapshot op g evidence :
  op <> "" -> evidence_ok evidence ->
  settle_step_spec op g release_id (fun x => x = 0) (fun m ex => release_reservation snapshot op g evidence m ex.1).
Proof.
  intros Hop Hev m e0 x s Hinv Hse Hs Hg _ _ ->.
  destruct (release_reservation_step snapshot m op g evidence e0 s) as (m' & e & ? & ? & ? & Ht & Hu); [done..|].
  exists m', e. rewrite Ht, Z.add_0_r. done.
Qed.

(** Releasing an open operation gives back what it reserved. *)
Lemma release_run snapshot op g evidence :
  ledger_inv (maps_of snapshot) -> op <> "" -> evidence_ok evidence -> operation_open (maps_of snapshot) op g ->
  exists s', release_participant_resource_reservation snapshot op g evidence = Ok (Applied true s' []) /\
    ledger_inv (maps_of s') /\ snap_other s' = snap_other snapshot /\
    usage_moves (maps_of snapshot) (maps_of s')
      (fun r => (fun e => (- ev_requested e, 0)) <$> reservation_on (budget_events snapshot) op r).
Proof.
  intros Hinv Hop Hev Hopen. pose proof (li_events _ Hinv) as Hok. cbn [mx_events maps_of] in Hok.
  unfold release_participant_resource_reservation. rewrite operation_reservations_ok by done. cbn [mbind result_bind].
  assert (vector_ready op g (fun x => x = 0) (maps_of snapshot)
    ((fun e => (e, 0)) <$> reservations_of (budget_events snapshot) op)) as Hready.
  { apply (operation_open_ready (maps_of snapshot) op g (fun x => x = 0) (fun _ => 0)); [done..| |done]. intros e He.
    apply elem_of_reservations in He as (Hget & _ & _); [|done].
    destruct (eo_valid _ Hok _ _ Hget) as [Hv _]. apply validated_nonneg in Hv. split; [lia|].
    intros R U Hu. unfold usage_of in Hu. apply fmap_Some in Hu as (s & Hs & [= _ -> ->]).
    destruct (li_state _ Hinv _ _ Hs) as (_ & _ & (_ & _ & _ & ? & _) & _). lia. }
  destruct (settle_loop op g release_id (fun x => x = 0)
    (fun m ex => release_reservation snapshot op g evidence m ex.1) (or_intror eq_refl) _
    (release_step_spec snapshot op g evidence Hop Hev) _ Hinv Hready) as (m' & Hrun & Hinv' & Hmoved & Hkept & _ & _).
  rewrite until_some_fmap in Hrun. cbn [fst] in Hrun.
  exists (Snapshot (snap_other snapshot) (mx_states m') (mx_pool_states m') (mx_events m')).
  assert (maps_of (Snapshot (snap_other snapshot) (mx_states m') (mx_pool_states m') (mx_events m')) = m') as Hmaps
    by (by destruct m').
  rewrite Hmaps. split_and!; [|done|done|].
  - destruct (reservations_of (budget_events snapshot) op) as [|e0 l] eqn:EL.
    + cbn in Hrun. injection Hrun as <-. cbn. by rewrite snapshot_eta.
    + change (fun (s : BudgetMaps) a => release_reservation snapshot op g evidence s a)
        with (release_reservation snapshot op g evidence) in Hrun.
      rewrite Hrun. cbn [mbind result_bind snd fst]. by rewrite with_maps_ok.
  - intros r. destruct (reservation_on (budget_events snapshot) op r) as [e|] eqn:E; cbn [fmap option_fmap option_map].
    + apply reservation_on_Some in E as [He <-]; [|done]. destruct (Hopen e He) as (_ & _ & _ & R & U & Hu).
      rewrite Hu. cbn. rewrite (Hmoved e 0 R U); [done| |done].
      apply list_elem_of_fmap. by exists e.
    + apply reservation_on_None in E; [|done]. apply Hkept. by rewrite pair_fst.
Qed.
End settle.
