(* ===== verification/ResourceRun.v ===== *)
(** The runs of the ledger's operations: reservation, reconciliation of a
    generation, and initialization. *)
From S2P Require Import Prelude.
From S2P Require Import Contracts.
From S2P Require Import ResourceTypes.
From S2P Require Import ResourceModel.
From S2P Require Import ResourceLedger.
From S2P Require Import ResourceReservation.
From S2P Require Import ResourceAccounting.
From S2P Require Import ResourceFacts.
From S2P Require Import ResourceInvariant.
From S2P Require Import ResourceSteps.
From S2P Require Import ResourceSettle.
From stdpp Require Import pretty.
From Stdlib Require Import Ascii.
Local Open Scope string_scope.
Local Open Scope list_scope.
Local Open Scope Z_scope.

Definition demand_ref (policy : ResourcePolicy) (d : ResourceDemand) : string :=
  participant_resource_budget_state_ref (pol_address policy) (rd_budget_id d).

(** What a request asks of a demand. *)
Definition asked (requested : option (dict string Z)) (d : ResourceDemand) : Z :=
  match requested with
  | Some quantities => default (rd_reservation d) (quantities !! rd_budget_id d)
  | None => rd_reservation d
  end.

Lemma requested_amount_ok d requested : 0 <= asked requested d -> requested_amount d requested = Ok (asked requested d).
Proof. intros H. unfold requested_amount. fold (asked requested d). rewrite (proj2 (Z.ltb_ge _ _)) by lia. done. Qed.

(** Requests over distinct budgets in distinct pools, whose operation
    reserved the whole vector before or nothing of it. *)
Record request_formed (m : BudgetMaps) (policy : ResourcePolicy) (op : string) : Prop := {
  ro_operation : op <> "";
  ro_policy : pol_address policy <> "";
  ro_budget d : d ∈ pol_resource_demands policy -> rd_budget_id d <> "";
  ro_refs : NoDup (demand_ref policy <$> pol_resource_demands policy);
  ro_pools d1 d2 s1 s2 : d1 ∈ pol_resource_demands policy -> d2 ∈ pol_resource_demands policy ->
    mx_states m !! demand_ref policy d1 = Some s1 -> mx_states m !! demand_ref policy d2 = Some s2 ->
    pool_ref_for_state s1 = pool_ref_for_state s2 -> demand_ref policy d1 = demand_ref policy d2;
  ro_atomic : (forall d, d ∈ pol_resource_demands policy -> event_id_of op (demand_ref policy d) ∉ dict_keys (mx_events m)) \/
    (forall d, d ∈ pol_resource_demands policy -> event_id_of op (demand_ref policy d) ∈ dict_keys (mx_events m));
}.

(** An amount no event can carry. *)
Definition out_of_range (amount : Z) : Prop := amount < 0 \/ max_amount < amount.

(** Such a request whose amounts an event can carry. *)
Definition request_ok (m : BudgetMaps) (policy : ResourcePolicy) (op : string) (requested : option (dict string Z)) : Prop :=
  request_formed m policy op /\
  forall d, d ∈ pol_resource_demands policy -> 0 <= asked requested d <= max_amount.

Lemma requested_amount_negative d requested :
  asked requested d < 0 -> exists message, requested_amount d requested = Raise (ValueError message).
Proof. intros H. unfold requested_amount. fold (asked requested d). rewrite (proj2 (Z.ltb_lt _ _)) by lia. by eexists. Qed.

Section reserve_run.
Context {O : Type} (q : ReservationRequest O).

(** A failure that at most counts a throttled attempt. *)
Definition harmless (failure : ApplyResult O) : Prop :=
  success failure = false /\ ledger_inv (maps_of (ar_snapshot failure)) /\
  snap_other (ar_snapshot failure) = snap_other (rq_snapshot q) /\
  pool_states (ar_snapshot failure) = pool_states (rq_snapshot q) /\
  forall r, usage_of (maps_of (ar_snapshot failure)) r = usage_of (maps_of (rq_snapshot q)) r.

Lemma reservation_failure_harmless code message :
  ledger_inv (maps_of (rq_snapshot q)) -> harmless (reservation_failure q code message).
Proof. intros H. by split_and!. Qed.

Lemma set_counters_same a : set_counters a (pa_generation a) (pa_reserved a) (pa_current_use a) (pa_cumulative_use a) = a.
Proof. by destruct a. Qed.

Lemma set_allocations_same p : set_allocations p (ps_allocations p) = p.
Proof. by destruct p. Qed.

Lemma throttled_harmless d s amount b :
  let m := maps_of (rq_snapshot q) in
  ledger_inv m -> mx_states m !! bs_state_ref s = Some s -> bs_generation s = rq_execution_generation q ->
  bs_state_ref s = demand_ref (rq_policy q) d -> 0 <= amount <= max_amount ->
  rq_operation_id q <> "" -> pol_address (rq_policy q) <> "" -> rd_budget_id d <> "" ->
  exists failure, throttled_result q m d s amount b = Ok failure /\ harmless failure.
Proof.
  intros m Hinv Hs Hg Href Ham Hop Hpol Hbud.
  destruct (li_state _ Hinv _ _ Hs) as (_ & Hstatic & Huse & Hcur & Hcolon & Hul & Huc).
  destruct (li_mirror _ Hinv _ _ Hs) as (p & a & Hp & Ha & (Hmg & Hmr & Hmc & Hmu) & _).
  destruct (li_pool _ Hinv _ _ Hp) as [Hpref ((Hps & Hpa & Hpt) & Hpwf & Hpu)].
  destruct (state_named s Hstatic) as (? & ? & ? & ? & ? & ? & ?).
  pose proof Huse as (Hug & Hur & Hucu & Hucum & Hut & Hul' & Hue & Hulim & Hucap).
  set (id := throttle_id (rq_operation_id q) (bs_state_ref s)).
  set (e := BudgetEvent id (rq_operation_id q) (bs_state_ref s) (rd_budget_id d) (pol_address (rq_policy q))
    (bs_owner_ref s) (bs_pool_ref s) (rq_execution_generation q) t_throttle (EVENT_DISPOSITION t_throttle) amount None
    (bs_resource_kind s) (bs_unit s) (bs_meter_profile_ref s) (Some (bs_last_event_ref s)) []).
  assert (validate_budget_event e = Ok e) as He.
  { apply validate_budget_event_ok; try done; try lia; [by apply append_ne|]. split; constructor. }
  assert (ledger_inv (Maps (<[bs_state_ref s := set_usage s (bs_generation s) (bs_reserved s) (bs_current_use s)
      (bs_cumulative_use s) (bs_throttled s + 1) (bs_reconciliation_status s) id (bs_evidence_refs s)]> (mx_states m))
      (mx_pool_states m) (<[id := e]> (mx_events m)))) as Hinv'.
  { rewrite <-(dict_set_same _ _ _ Hp), <-(set_allocations_same p) at 1.
    rewrite <-(dict_set_same _ _ _ Ha), <-(set_counters_same a) at 1. rewrite Hmg, Hmr, Hmc, Hmu.
    apply (ledger_inv_write _ _ (mx_events m)); try done.
    - unfold usage_ok. split_and!; try done; try lia; [by apply append_ne|apply Hue..].
    - rewrite allocation_use_set. unfold allocation_use. rewrite Hmr, Hmc, Hmu. case_decide; lia.
    - unfold unprotected_use. cbn [pa_protected set_counters]. rewrite allocation_use_set.
      unfold allocation_use. rewrite Hmr, Hmc, Hmu. destruct (pa_protected a); [lia|]. case_decide; lia.
    - apply events_ok_set_other; try done; [apply (li_events _ Hinv)|apply throttle_id_foreign].
    - rewrite outstanding_set_other; try done; [|apply (li_events _ Hinv)|apply throttle_id_foreign].
      symmetry. by apply (li_reserved _ Hinv).
    - intros r g' _. rewrite outstanding_set_other; try done; [apply (li_events _ Hinv)|apply throttle_id_foreign].
    - intros k e'. rewrite dict_get_set. case_decide; [intros [= <-] ?; done|by left]. }
  eexists. split.
  - unfold throttled_result. fold (throttle_id (rq_operation_id q) (bs_state_ref s)). fold id. unfold budget_event.
    change (validate_budget_event _) with (validate_budget_event e). rewrite He. cbn [mbind result_bind].
    rewrite with_maps_ok by done. cbn [mbind result_bind]. done.
  - split_and!; try done. intros r. unfold usage_of. cbn [ar_snapshot maps_of mx_states budget_states].
    rewrite dict_get_set. case_decide as Hr; [|done]. subst r. unfold m in Hs. cbn [maps_of mx_states] in Hs. by rewrite Hs.
Qed.

(** A throttled attempt above the largest amount has no event. *)
Lemma throttled_raises m d s amount b :
  max_amount < amount -> exists message, throttled_result q m d s amount b = Raise (ValueError message).
Proof.
  intros Ham. unfold throttled_result, budget_event, validate_budget_event. cbv zeta.
  match goal with |- context [require_fields ?fields] => destruct (checks_require_fields fields) as [[H _]|[_ (message & ->)]] end.
  - rewrite !Forall_cons in H. cbn [snd] in H. destruct H as (_ & _ & _ & _ & _ & _ & _ & _ & H & _).
    apply in_range_true in H. cbn [ev_requested] in H. lia.
  - by exists message.
Qed.

(** ** One demand *)

(** Why a demand is refused. *)
Definition refused (m : BudgetMaps) (d : ResourceDemand) (amount : Z) : Prop :=
  forall s p, bs_state_ref s = demand_ref (rq_policy q) d -> ~ grantable q m s p amount.

Lemma check_reservation_cases d requested :
  let m := maps_of (rq_snapshot q) in
  ledger_inv m -> d ∈ pol_resource_demands (rq_policy q) ->
  request_formed m (rq_policy q) (rq_operation_id q) ->
  (exists s p, bs_state_ref s = demand_ref (rq_policy q) d /\ grantable q m s p (asked requested d) /\
     check_reservation q m d (demand_ref (rq_policy q) d) requested =
       Ok (Checked d (Some s) (Some p) (asked requested d) None)) \/
  (refused m d (asked requested d) /\
   exists c failure, check_reservation q m d (demand_ref (rq_policy q) d) requested = Ok c /\
     ck_failure c = Some failure /\ harmless failure) \/
  (out_of_range (asked requested d) /\
   exists message, check_reservation q m d (demand_ref (rq_policy q) d) requested = Raise (ValueError message)).
Proof.
  intros m Hinv Hd Hreq. pose proof (ro_budget _ _ _ Hreq d Hd) as Hbud.
  unfold check_reservation, budget_state_check.
  destruct (mx_states m !! demand_ref (rq_policy q) d) as [s|] eqn:Hs; cbn [mbind result_bind].
  2:{ right; left. split.
      - intros s p Href Hg. rewrite <-Href, (gr_state _ _ _ _ _ Hg) in Hs. done.
      - eexists _, _. split; [done|]. split; [done|]. by apply reservation_failure_harmless. }
  destruct (li_state _ Hinv _ _ Hs) as (Hkey & Hstatic & Huse & _).
  assert (validate_budget_state s = Ok s) as -> by (by apply validate_budget_state_Ok). cbn [mbind result_bind].
  case_decide as Hg; cbn [fst snd].
  { right; left. split.
    - intros s' p Href Hg'. pose proof (gr_state _ _ _ _ _ Hg') as Hs'. rewrite Href, Hs in Hs'. injection Hs' as <-.
      by apply Hg, (gr_generation _ _ _ _ _ Hg').
    - eexists _, _. split; [done|]. split; [done|]. by apply reservation_failure_harmless. }
  assert (bs_generation s = rq_execution_generation q) as Hgen by (destruct (decide (bs_generation s = rq_execution_generation q)); tauto).
  destruct (li_mirror _ Hinv _ _ Hs) as (p & a & Hp & Ha & Hm & _). destruct (li_pool _ Hinv _ _ Hp) as [Hpref Hpok].
  unfold pool_state_check. destruct (Z.lt_ge_cases (asked requested d) 0) as [Hneg|Hpos].
  { right; right. split; [by left|]. destruct (requested_amount_negative d requested Hneg) as (message & ->). by exists message. }
  rewrite requested_amount_ok by lia. cbn [mbind result_bind]. rewrite Hp.
  assert (validate_pool_state p = Ok p) as -> by (by apply validate_pool_state_Ok; split; [|apply Hpok]).
  cbn [mbind result_bind fst snd]. unfold capacity_failure. rewrite Hkey in Ha.
  destruct (can_reserve_spec p (bs_state_ref s) (asked requested d) a Ha) as (b & Hcan & Hb). rewrite <-Hkey in Hcan.
  destruct (Z.lt_ge_cases max_amount (asked requested d)) as [Hbig|Hmax].
  { right; right. split; [by right|]. destruct Hstatic as (_ & Hlim & _). destruct Huse as (_ & Hur & Hucu & Hucum & _).
    rewrite (proj2 (Z.leb_gt _ _)) by (unfold used_capacity; case_decide; lia). cbn [mbind result_bind].
    destruct (throttled_raises m d s (asked requested d) false Hbig) as (message & ->). by exists message. }
  assert (forall b', (exists failure, throttled_result q m d s (asked requested d) b' = Ok failure /\ harmless failure)) as Hthr.
  { intros b'. apply throttled_harmless; try done; [by rewrite <-Hkey|apply (ro_operation _ _ _ Hreq)|apply (ro_policy _ _ _ Hreq)]. }
  destruct (used_capacity s + asked requested d <=? Z.min (bs_limit s) (bs_configured_capacity s)) eqn:Eb.
  - rewrite Z.leb_le in Eb. rewrite Hcan. cbn [mbind result_bind]. destruct b.
    + left. destruct (proj1 Hb eq_refl) as [Htot Hpr]. exists s, p. split; [done|]. split; [|done].
      constructor; try done; try lia; [by rewrite <-Hkey|]. intros a' Ha'. congruence.
    + right; left. split.
      * intros s' p' Href Hg'. assert (s' = s /\ p' = p) as [-> ->].
        { pose proof (gr_state _ _ _ _ _ Hg') as Hs'. rewrite Href, Hs in Hs'. injection Hs' as <-.
          pose proof (gr_pool _ _ _ _ _ Hg') as Hp'. split; congruence. }
        assert (false = true); [|done]. apply Hb. split; [apply Hg'|]. by apply (gr_protected _ _ _ _ _ Hg').
      * destruct (Hthr true) as (failure & Ht & Hh). rewrite Ht. cbn [mbind result_bind]. by eexists _, failure.
  - rewrite Z.leb_gt in Eb. cbn [mbind result_bind]. right; left. split.
    + intros s' p' Href Hg'. pose proof (gr_state _ _ _ _ _ Hg') as Hs'. rewrite Href, Hs in Hs'. injection Hs' as <-.
      pose proof (gr_limit _ _ _ _ _ Hg'). pose proof (gr_configured _ _ _ _ _ Hg'). lia.
    + destruct (Hthr false) as (failure & Ht & Hh). rewrite Ht. cbn [mbind result_bind]. by eexists _, failure.
Qed.

(** ** The vector *)

(** A checked demand with the budget and pool it was checked against. *)
Record grant : Type := Grant {
  gd_demand : ResourceDemand;
  gd_state : ParticipantResourceBudgetState;
  gd_pool : ParticipantResourcePoolState;
}.

Definition grant_check (requested : option (dict string Z)) (w : grant) : ReservationCheck O :=
  Checked (gd_demand w) (Some (gd_state w)) (Some (gd_pool w)) (asked requested (gd_demand w)) None.

Definition granted (m : BudgetMaps) (requested : option (dict string Z)) (w : grant) : Prop :=
  bs_state_ref (gd_state w) = demand_ref (rq_policy q) (gd_demand w) /\
  grantable q m (gd_state w) (gd_pool w) (asked requested (gd_demand w)).

Lemma check_all_cases requested demands : forall checked,
  let m := maps_of (rq_snapshot q) in
  ledger_inv m -> demands ⊆ pol_resource_demands (rq_policy q) ->
  request_formed m (rq_policy q) (rq_operation_id q) ->
  (exists work, gd_demand <$> work = demands /\ Forall (granted m requested) work /\
     check_all q m requested (zip demands (demand_ref (rq_policy q) <$> demands)) checked =
       Ok (checked ++ (grant_check requested <$> work), None)) \/
  (exists d, d ∈ demands /\ refused m d (asked requested d) /\
   exists done failure, check_all q m requested (zip demands (demand_ref (rq_policy q) <$> demands)) checked =
     Ok (done, Some failure) /\ harmless failure) \/
  (exists d, d ∈ demands /\ out_of_range (asked requested d) /\
   exists message, check_all q m requested (zip demands (demand_ref (rq_policy q) <$> demands)) checked =
     Raise (ValueError message)).
Proof.
  induction demands as [|d demands IH]; intros checked m Hinv Hsub Hreq.
  - left. exists []. split_and!; [done|constructor|]. cbn. by rewrite app_nil_r.
  - cbn [fmap list_fmap zip_with check_all].
    destruct (check_reservation_cases d requested Hinv) as [(s & p & Href & Hg & Hc)|[(Hr & c & failure & Hc & Hf & Hh)|(Hr & message & Hc)]];
      [apply Hsub; left|done|..]; fold m in Hc; rewrite Hc; cbn [mbind result_bind].
    + cbn [ck_failure]. destruct (IH (checked ++ [grant_check requested (Grant d s p)]) Hinv) as [(work & Hw & HF & Hrun)|[(d' & Hd' & Hr & rest)|(d' & Hd' & Hr & rest)]];
        [set_solver|done|left|right; left|right; right].
      * exists (Grant d s p :: work). split_and!; [cbn; by rewrite Hw|by constructor|]. fold m in Hrun.
        unfold grant_check in Hrun at 1. cbn [gd_demand gd_state gd_pool] in Hrun. rewrite Hrun.
        by rewrite <-app_assoc.
      * exists d'. split; [by right|]. by split.
      * exists d'. split; [by right|]. by split.
    + right; left. exists d. rewrite Hf. split; [left|]. split; [done|]. by exists checked, failure.
    + right; right. exists d. split; [left|]. split; [done|]. by exists message.
Qed.

(** Amount a vector of grants asks of a budget. *)
Fixpoint granted_on (requested : option (dict string Z)) (work : list grant) (r : string) : option (Z * Z) :=
  match work with
  | [] => None
  | w :: work => if decide (bs_state_ref (gd_state w) = r) then Some (asked requested (gd_demand w), 0)
                 else granted_on requested work r
  end.

Lemma granted_on_None requested work r :
  r ∉ ((fun w => bs_state_ref (gd_state w)) <$> work) -> granted_on requested work r = None.
Proof.
  induction work as [|w work IH]; [done|]. cbn [fmap list_fmap granted_on]. intros [Hne Hnin]%not_elem_of_cons.
  rewrite decide_False by done. by apply IH.
Qed.

Lemma apply_all_run requested work : forall m,
  ledger_inv m -> Forall (granted m requested) work ->
  rq_operation_id q <> "" -> pol_address (rq_policy q) <> "" ->
  Forall (fun w => rd_budget_id (gd_demand w) <> "") work ->
  NoDup ((fun w => bs_state_ref (gd_state w)) <$> work) ->
  NoDup ((fun w => pool_ref_for_state (gd_state w)) <$> work) ->
  Forall (fun w => reserve_event_id q (gd_state w) ∉ dict_keys (mx_events m)) work ->
  exists m', mfold (apply_reservation q) m (grant_check requested <$> work) = Ok m' /\ ledger_inv m' /\
    usage_moves m m' (granted_on requested work) /\
    (forall k, k ∈ dict_keys (mx_events m) \/ k ∈ ((fun w => reserve_event_id q (gd_state w)) <$> work) ->
       k ∈ dict_keys (mx_events m')).
Proof.
  induction work as [|[d s p] work IH]; intros m Hinv HG Hop Hpol HB HN HP HE.
  - exists m. split_and!; [done|done|by intros r|]. intros k [|[]%not_elem_of_nil]; done.
  - apply Forall_cons in HG as [[Href Hg] HG], HB as [Hb HB], HE as [He HE].
    cbn [gd_demand gd_state gd_pool fmap list_fmap] in *.
    apply NoDup_cons in HN as [Hn HN], HP as [Hp HP].
    destruct (apply_reservation_step q m d s p (asked requested d)) as (p' & e & Hrun & Hinv'); try done.
    assert (forall w, w ∈ work -> bs_state_ref (gd_state w) <> bs_state_ref s) as Hne.
    { intros w Hw Heq. apply Hn. apply list_elem_of_fmap. by exists w. }
    set (m1 := Maps _ _ _) in Hinv', Hrun. destruct (IH m1) as (m' & Hrun' & Hinv'' & Hmoves & Hkeys); try done.
    + apply Forall_forall. intros w Hw. rewrite Forall_forall in HG. destruct (HG w Hw) as [Hrw [Hs Hpw]].
      split; [done|]. constructor; try done; cbn [m1 mx_states mx_pool_states]; rewrite dict_get_set_ne; try done.
      * intros Heq. by apply (Hne w).
      * intros Heq. apply Hp. apply list_elem_of_fmap. by exists w.
    + apply Forall_forall. intros w Hw. rewrite Forall_forall in HE. cbn [m1 mx_events]. rewrite elem_of_dict_keys_set.
      intros [Heq|]; [|by apply (HE w)]. apply event_id_inj in Heq. by apply (Hne w).
    + exists m'. split_and!; [|done| |].
      * change (mfold (apply_reservation q) m
          (Checked d (Some s) (Some p) (asked requested d) None :: (grant_check requested <$> work)) = Ok m').
        cbn [mfold]. rewrite Hrun. cbn [mbind result_bind]. done.
      * intros r. rewrite (Hmoves r). cbn [granted_on gd_state gd_demand].
        unfold m1. rewrite usage_of_set. case_decide as Hr.
        -- subst r. rewrite granted_on_None by done. cbn [usage_of fmap option_fmap option_map].
           unfold usage_of. rewrite (gr_state _ _ _ _ _ Hg). cbn. rewrite Z.add_0_r. done.
        -- by destruct m.
      * intros k [Hk|Hk]; apply Hkeys; cbn [m1 mx_events]; rewrite elem_of_dict_keys_set; [by left; right|].
        cbn [fmap list_fmap gd_state] in Hk. apply elem_of_cons in Hk as [->|Hk]; [by left; left|by right].
Qed.
End reserve_run.

(** The demand of a policy on a budget. *)
Definition demand_on (policy : ResourcePolicy) (demands : list ResourceDemand) (r : string) : option ResourceDemand :=
  head (base.filter (fun d => demand_ref policy d = r) demands).

Lemma granted_on_demands {O} (q : ReservationRequest O) m requested work r :
  Forall (granted q m requested) work ->
  granted_on requested work r =
    (fun d => (asked requested d, 0)) <$> demand_on (rq_policy q) (gd_demand <$> work) r.
Proof.
  unfold demand_on. induction 1 as [|w work [Href _] _ IH]; [done|].
  cbn [granted_on fmap list_fmap]. rewrite Href, filter_cons. case_decide; [done|]. by rewrite IH.
Qed.

Section reserve_outcome.
Context {O : Type}.
Implicit Types (snapshot : RuntimeSnapshot O).

(** The operation reserved its vector before. *)
Definition reserved_before (m : BudgetMaps) (policy : ResourcePolicy) (op : string) : Prop :=
  pol_resource_demands policy <> [] /\
  forall d, d ∈ pol_resource_demands policy -> event_id_of op (demand_ref policy d) ∈ dict_keys (mx_events m).

Lemma reserve_cases snapshot policy op g requested :
  let q := Request snapshot policy op g in
  let m := maps_of snapshot in
  ledger_inv m -> request_formed m policy op ->
  (~ reserved_before m policy op /\
    (exists d, d ∈ pol_resource_demands policy /\ out_of_range (asked requested d)) /\
    exists message, reserve_participant_resources snapshot policy op g requested = Raise (ValueError message)) \/
  exists r, reserve_participant_resources snapshot policy op g requested = Ok r /\
    ((reserved_before m policy op /\ r = Applied true snapshot []) \/
     (~ reserved_before m policy op /\
      (forall d, d ∈ pol_resource_demands policy ->
         exists s p, bs_state_ref s = demand_ref policy d /\ grantable q m s p (asked requested d)) /\
      success r = true /\ diagnostics r = [] /\ ledger_inv (maps_of (ar_snapshot r)) /\
      snap_other (ar_snapshot r) = snap_other snapshot /\
      usage_moves m (maps_of (ar_snapshot r))
        (fun ref => (fun d => (asked requested d, 0)) <$> demand_on policy (pol_resource_demands policy) ref) /\
      (forall d, d ∈ pol_resource_demands policy ->
         event_id_of op (demand_ref policy d) ∈ dict_keys (budget_events (ar_snapshot r)))) \/
     (~ reserved_before m policy op /\
      (exists d, d ∈ pol_resource_demands policy /\ refused q m d (asked requested d)) /\ harmless q r)).
Proof.
  intros q m Hinv Hreq. unfold reserve_participant_resources.
  change ((fun d => participant_resource_budget_state_ref (pol_address policy) (rd_budget_id d))
    <$> pol_resource_demands policy) with (demand_ref policy <$> pol_resource_demands policy).
  cbv zeta. destruct (negb _ && _) eqn:Ebefore.
  - apply andb_true_iff in Ebefore as [Hne Hall]. right. eexists. split; [done|]. left. split; [|done]. split.
    + rewrite negb_true_iff, bool_decide_eq_false in Hne. intros Hnil. by rewrite Hnil in Hne.
    + intros d Hd. rewrite forallb_forall in Hall. eapply (bool_decide_eq_true _), Hall. apply list_elem_of_In.
      apply list_elem_of_fmap. exists (demand_ref policy d). split; [done|]. apply list_elem_of_fmap. by exists d.
  - assert (~ reserved_before m policy op) as Hnot.
    { intros [Hne Hall]. apply andb_false_iff in Ebefore as [Hf|Hf].
      - rewrite negb_false_iff, bool_decide_eq_true in Hf. by destruct (pol_resource_demands policy).
      - enough (false = true) by done. rewrite <-Hf. apply forallb_forall. intros e He%list_elem_of_In.
        apply bool_decide_eq_true. apply list_elem_of_fmap in He as (ref & -> & (d & -> & Hd)%list_elem_of_fmap). by apply Hall. }
    assert (forall d, d ∈ pol_resource_demands policy -> event_id_of op (demand_ref policy d) ∉ dict_keys (mx_events m)) as Hfresh.
    { intros d Hd. destruct (ro_atomic _ _ _ Hreq) as [H|H]; [by apply H|]. exfalso. apply Hnot. split; [|done].
      intros Hnil. by rewrite Hnil in Hd; apply not_elem_of_nil in Hd. }
    fold q m. destruct (check_all_cases q requested (pol_resource_demands policy) [] Hinv (reflexivity _) Hreq)
      as [(work & Hw & HF & Hrun)|[(d & Hd & Hr & dn & failure & Hrun & Hh)|(d & Hd & Hr & message & Hrun)]];
      change (rq_policy q) with policy in Hrun; change (maps_of (rq_snapshot q)) with m in Hrun;
      rewrite Hrun; cbn [mbind result_bind fst snd app].
    + right. destruct (apply_all_run q requested work m Hinv HF) as (m' & Hap & Hinv' & Hmoves & Hkeys).
      * apply Hreq.
      * apply Hreq.
      * apply Forall_forall. intros w Hwin. apply (ro_budget _ _ _ Hreq). rewrite <-Hw. apply list_elem_of_fmap. by exists w.
      * pose proof (ro_refs _ _ _ Hreq) as Hnd. rewrite <-Hw, <-list_fmap_compose in Hnd.
        erewrite list_fmap_ext; [exact Hnd|]. intros i w Hi. apply list_elem_of_lookup_2 in Hi.
        rewrite Forall_forall in HF. by destruct (HF w Hi) as [-> _].
      * pose proof (ro_refs _ _ _ Hreq) as Hnd. rewrite <-Hw, <-list_fmap_compose in Hnd.
        apply NoDup_alt. intros i j x Hi Hj. rewrite list_lookup_fmap in Hi, Hj.
        apply fmap_Some in Hi as (wi & Hi & ->), Hj as (wj & Hj & Heq).
        apply (NoDup_lookup (demand_ref policy ∘ gd_demand <$> work) i j (demand_ref policy (gd_demand wi))); [done|by rewrite list_lookup_fmap, Hi|].
        rewrite list_lookup_fmap, Hj. cbn. f_equal. unfold compose. rewrite Forall_forall in HF.
        destruct (HF wi) as [Hri [Hsi _ _ _ _ _ _ _]]; [by eapply list_elem_of_lookup_2|].
        destruct (HF wj) as [Hrj [Hsj _ _ _ _ _ _ _]]; [by eapply list_elem_of_lookup_2|].
        cbn [rq_policy q] in Hri, Hrj. rewrite Hri in Hsi. rewrite Hrj in Hsj.
        symmetry. apply (ro_pools _ _ _ Hreq (gd_demand wi) (gd_demand wj) (gd_state wi) (gd_state wj)); try done;
          rewrite <-Hw; apply list_elem_of_fmap; eexists; split; try done; by eapply list_elem_of_lookup_2.
      * apply Forall_forall. intros w Hwin. rewrite Forall_forall in HF. destruct (HF w Hwin) as [Href _].
        unfold reserve_event_id. cbn [rq_operation_id rq_policy q] in *. rewrite Href. apply Hfresh. rewrite <-Hw.
        apply list_elem_of_fmap. by exists w.
      * rewrite Hap. cbn [mbind result_bind]. rewrite with_maps_ok by done. cbn [mbind result_bind].
        eexists. split; [done|]. right; left. split; [done|]. cbn [success diagnostics ar_snapshot snap_other budget_events].
        assert (maps_of (Snapshot (snap_other snapshot) (mx_states m') (mx_pool_states m') (mx_events m')) = m') as ->
          by (by destruct m').
        split_and!; try done.
        -- intros d Hd. rewrite <-Hw in Hd. apply list_elem_of_fmap in Hd as (w & -> & Hwin).
           rewrite Forall_forall in HF. destruct (HF w Hwin) as [Href Hg]. by exists (gd_state w), (gd_pool w).
        -- intros ref. rewrite (Hmoves ref), (granted_on_demands q m requested work ref HF), Hw. done.
        -- intros d Hd. apply Hkeys. right. rewrite <-Hw in Hd. apply list_elem_of_fmap in Hd as (w & -> & Hwin).
           apply list_elem_of_fmap. exists w. split; [|done]. rewrite Forall_forall in HF. destruct (HF w Hwin) as [Href _].
           unfold reserve_event_id. by rewrite Href.
    + right. eexists. split; [done|]. right; right. split; [done|]. split; [|done]. by exists d.
    + left. split; [done|]. split; [by exists d|by exists message].
Qed.

(** A request of amounts in range is always answered. *)
Lemma reserve_run snapshot policy op g requested :
  let q := Request snapshot policy op g in
  let m := maps_of snapshot in
  ledger_inv m -> request_ok m policy op requested ->
  exists r, reserve_participant_resources snapshot policy op g requested = Ok r /\
    ((reserved_before m policy op /\ r = Applied true snapshot []) \/
     (success r = true /\ ledger_inv (maps_of (ar_snapshot r))) \/ harmless q r).
Proof.
  intros q m Hinv [Hreq Hamounts].
  destruct (reserve_cases snapshot policy op g requested Hinv Hreq) as [(_ & (d & Hd & Hr) & _)|(r & Hr & Ho)].
  - exfalso. specialize (Hamounts d Hd). unfold out_of_range in Hr. lia.
  - exists r. split; [done|]. naive_solver.
Qed.
End reserve_outcome.

Definition reconcile_id (policy_address : string) (generation : Z) (state_ref : string) : string :=
  "reconcile:" +:+ policy_address +:+ ":" +:+ pretty generation +:+ ":" +:+ state_ref.

Lemma reconcile_id_app pol g ref :
  reconcile_id pol g ref = ("reconcile:" +:+ pol +:+ ":" +:+ pretty g +:+ ":") +:+ ref.
Proof. unfold reconcile_id. by rewrite !string_app_assoc. Qed.

Lemma outstanding_zero events ref g :
  (forall k e, events !! k = Some e -> ev_transition e = t_reserve -> ev_budget_state_ref e = ref ->
     ev_execution_generation e <> g) ->
  dict_wf events -> outstanding events ref g = 0.
Proof.
  intros H Hwf. unfold outstanding. rewrite (dict_sum_ext _ (fun _ => 0)).
  - unfold dict_sum. induction (dict_values events); [done|]. done.
  - intros k e Hin. apply (dict_get_Some k) in Hin; [|done]. unfold live_amount. rewrite decide_False; [done|].
    intros (Ht & Href & Hg & _). by apply (H k e).
Qed.

(** Cumulative use after a boundary. *)
Definition carried (s : ParticipantResourceBudgetState) (boundary : string) : Z :=
  if bool_decide (reset_mode_str (bs_reset s) = boundary) then 0 else bs_cumulative_use s.

Section reconcile_run.
Context (policy_address : string) (current next : Z) (boundary : string) (evidence : list string).
Hypothesis advances : current < next.
Hypothesis evidence_valid : evidence_ok evidence.

Lemma reconcile_budget_step m s :
  ledger_inv m -> mx_states m !! bs_state_ref s = Some s -> bs_generation s = current ->
  bs_policy_address s = policy_address ->
  exists m', reconcile_budget policy_address next boundary evidence m (bs_state_ref s, s) = Ok m' /\ ledger_inv m' /\
    (forall r, r <> bs_state_ref s -> mx_states m' !! r = mx_states m !! r) /\
    usage_of m' (bs_state_ref s) = Some (next, 0, carried s boundary).
Proof.
  intros Hinv Hs Hg Hpol. destruct m as [S P E]. cbn [mx_states] in *.
  destruct (li_state _ Hinv _ _ Hs) as (_ & Hstatic & Huse & Hcur & Hcolon & Hul & Huc).
  destruct (li_mirror _ Hinv _ _ Hs) as (p & a & Hp & Ha & (Hmg & Hmr & Hmc & Hmu) & _). cbn [mx_pool_states] in Hp.
  destruct (li_pool _ Hinv _ _ Hp) as [Hpref Hpok].
  destruct (state_named s Hstatic) as (? & ? & ? & ? & ? & ? & ?).
  pose proof Huse as (Hug & Hur & Hucu & Hucum & Hut & Hul' & [Hue Hund] & Hulim & Hucap).
  destruct evidence_valid as [Hevn Hevd].
  destruct Hstatic as (Hnames & Hlim & Hcfg & Hrej & Hq & Hcanon).
  set (id := reconcile_id policy_address next (bs_state_ref s)).
  assert (foreign_key id) as Hid.
  { unfold id. rewrite reconcile_id_app, Hcanon. by apply reconcile_id_foreign. }
  set (e := BudgetEvent id ("reconcile:" +:+ policy_address +:+ ":" +:+ pretty next) (bs_state_ref s) (bs_budget_id s)
    policy_address (bs_owner_ref s) (bs_pool_ref s) next t_reconcile d_reconciled 0 (Some 0) (bs_resource_kind s)
    (bs_unit s) (bs_meter_profile_ref s) (Some (bs_last_event_ref s)) evidence).
  assert (validate_budget_event e = Ok e) as He.
  { apply validate_budget_event_ok; try done; try (unfold max_amount; lia); [by rewrite <-Hpol|..|by rewrite <-Hpol].
    intros x [= <-]. unfold max_amount. lia. }
  assert (0 <= carried s boundary <= bs_cumulative_use s) as Hcar by (unfold carried; case_bool_decide; lia).
  destruct (pool_bounds_shrink p a next 0 0 (carried s boundary) Hpok) as [Htot Hun]; [lia..|].
  set (s' := set_usage s next 0 0 (carried s boundary) (bs_throttled s) st_reconciled id
    (py_dedupe (bs_evidence_refs s ++ evidence))).
  set (p' := set_allocations p (<[bs_state_ref s := set_counters a next 0 0 (carried s boundary)]> (ps_allocations p))).
  exists (Maps (<[bs_state_ref s := s']> S) (<[pool_ref_for_state s := p']> P) (<[id := e]> E)).
  assert (ledger_inv (Maps (<[bs_state_ref s := s']> S) (<[pool_ref_for_state s := p']> P) (<[id := e]> E))) as Hinv'.
  { apply (ledger_inv_write S P E); try done.
    - unfold usage_ok. split_and!; try done; try lia; try (unfold max_amount; lia); by apply evidence_dedupe.
    - rewrite used_capacity_set. unfold used_capacity in *. case_decide; lia.
    - rewrite used_capacity_set. unfold used_capacity in *. case_decide; lia.
    - lia.
    - apply events_ok_set_other; try done. apply (li_events _ Hinv).
    - rewrite outstanding_set_other; try done; [|apply (li_events _ Hinv)].
      apply outstanding_zero; [|apply (li_events _ Hinv)]. intros k e' Hk Ht Href Hge.
      destruct (li_reservation _ Hinv _ _ Hk Ht) as (s0 & Hs0 & Hle). cbn [mx_states] in Hs0.
      rewrite Href, Hs in Hs0. injection Hs0 as <-. lia.
    - intros r g' _. rewrite outstanding_set_other; try done. apply (li_events _ Hinv).
    - intros k e'. rewrite dict_get_set. case_decide; [intros [= <-] ?; done|by left]. }
  split_and!; [|done| |].
  - unfold reconcile_budget. fold (reconcile_id policy_address next (bs_state_ref s)). fold id. cbv zeta.
    change (validate_budget_event _) with (validate_budget_event e). rewrite He. cbn [mbind result_bind mx_pool_states mx_states mx_events].
    unfold dict_index. rewrite Hp. cbn [mbind result_bind].
    assert (validate_pool_state p = Ok p) as -> by (by apply validate_pool_state_Ok; split; [|apply Hpok]).
    cbn [mbind result_bind]. unfold reconcile_pool_allocation, dict_index. rewrite Ha. cbn [mbind result_bind].
    unfold s', p', carried. rewrite Hmc, Hmu, Hcur. by case_bool_decide.
  - intros r Hr. cbn [mx_states]. by rewrite dict_get_set_ne.
  - unfold usage_of. cbn [mx_states]. by rewrite dict_get_set_eq.
Qed.

Lemma reconcile_loop work : forall m,
  ledger_inv m -> NoDup work.*1 ->
  (forall r s, (r, s) ∈ work -> r = bs_state_ref s /\ mx_states m !! r = Some s /\ bs_generation s = current /\
     bs_policy_address s = policy_address) ->
  exists m', mfold (reconcile_budget policy_address next boundary evidence) m work = Ok m' /\ ledger_inv m' /\
    (forall r s, (r, s) ∈ work -> usage_of m' r = Some (next, 0, carried s boundary)) /\
    (forall r, r ∉ work.*1 -> usage_of m' r = usage_of m r).
Proof.
  induction work as [|[r0 s0] work IH]; intros m Hinv Hnd Hw.
  - exists m. split_and!; [done|done|by intros ? ? ?%not_elem_of_nil|done].
  - destruct (Hw r0 s0) as (-> & Hs & Hg & Hpol); [by left|].
    cbn [fmap list_fmap fst] in Hnd. apply NoDup_cons in Hnd as [Hn Hnd].
    destruct (reconcile_budget_step m s0 Hinv Hs Hg Hpol) as (m1 & Hrun & Hinv1 & Hother & Hu).
    destruct (IH m1 Hinv1 Hnd) as (m' & Hrun' & Hinv' & Hin & Hout).
    { intros r s Hin. destruct (Hw r s) as (Hr & Hsr & ?); [by right|]. split_and!; try tauto.
      rewrite Hother; [done|]. intros ->. apply Hn. apply list_elem_of_fmap. by exists (bs_state_ref s0, s). }
    exists m'. split_and!; [|done| |].
    + cbn [mfold]. rewrite Hrun. cbn [mbind result_bind]. done.
    + intros r s [[= -> ->]|Hin']%elem_of_cons; [|by apply Hin]. by rewrite Hout.
    + intros r. cbn [fmap list_fmap fst]. intros [Hr1 Hr2]%not_elem_of_cons. rewrite Hout by done.
      unfold usage_of. by rewrite Hother.
Qed.

(** The budgets a policy owns, in the order of the snapshot. *)
Definition owned (states : dict string ParticipantResourceBudgetState)
    : list (string * ParticipantResourceBudgetState) :=
  base.filter (fun kv => bs_policy_address kv.2 = policy_address) (dict_items states).

Lemma reconcile_run {O} (snapshot : RuntimeSnapshot O) :
  ledger_inv (maps_of snapshot) ->
  exists r, reconcile_participant_resource_budgets snapshot policy_address current next boundary evidence = Ok r /\
    (((exists ref s, budget_states snapshot !! ref = Some s /\ bs_policy_address s = policy_address /\
         bs_generation s <> current) /\ success r = false /\ ar_snapshot r = snapshot) \/
     ((forall ref s, budget_states snapshot !! ref = Some s -> bs_policy_address s = policy_address ->
         bs_generation s = current) /\
      success r = true /\ ledger_inv (maps_of (ar_snapshot r)) /\ snap_other (ar_snapshot r) = snap_other snapshot /\
      forall ref, usage_of (maps_of (ar_snapshot r)) ref =
        match budget_states snapshot !! ref with
        | Some s => if decide (bs_policy_address s = policy_address) then Some (next, 0, carried s boundary)
                    else Some (bs_generation s, bs_reserved s, bs_cumulative_use s)
        | None => None
        end)).
Proof.
  intros Hinv. pose proof (li_states_wf _ Hinv) as Hwf. cbn [maps_of mx_states] in Hwf.
  unfold reconcile_participant_resource_budgets. rewrite (proj2 (raise_if_Ok _ _ tt)) by (apply Z.leb_gt; lia).
  cbn [mbind result_bind]. fold (owned (budget_states snapshot)).
  assert (forall ref s, (ref, s) ∈ owned (budget_states snapshot) <->
    budget_states snapshot !! ref = Some s /\ bs_policy_address s = policy_address) as Howned.
  { intros ref s. unfold owned. rewrite list_elem_of_filter, dict_get_Some by done. naive_solver. }
  assert (mmap (fun kv => s ← validate_budget_state kv.2; Ok (fst kv, s)) (owned (budget_states snapshot))
    = Ok (owned (budget_states snapshot))) as ->.
  { rewrite (mmap_Ok_Forall (fun kv => kv)); [by rewrite list_fmap_id|]. intros [ref s] [Hs _]%Howned.
    destruct (li_state _ Hinv _ _ Hs) as (_ & ? & ? & _). cbn [snd fst].
    assert (validate_budget_state s = Ok s) as -> by (by apply validate_budget_state_Ok). done. }
  cbn [mbind result_bind]. destruct (base.filter _ _) as [|[ref s] l] eqn:Ef.
  - assert (forall ref s, budget_states snapshot !! ref = Some s -> bs_policy_address s = policy_address ->
      bs_generation s = current) as Hall.
    { intros ref s Hs Hpol. destruct (decide (bs_generation s = current)) as [|Hne]; [done|]. exfalso.
      assert ((ref, s) ∈ base.filter (fun kv => bs_generation (snd kv) <> current) (owned (budget_states snapshot))) as Hin.
      { rewrite list_elem_of_filter. split; [done|]. by apply Howned. }
      rewrite Ef in Hin. by apply not_elem_of_nil in Hin. }
    destruct (reconcile_loop (owned (budget_states snapshot)) (maps_of snapshot) Hinv) as (m' & Hrun & Hinv' & Hin & Hout).
    + unfold owned. pose proof (dict_filter_keys_NoDup (fun _ s => bool_decide (bs_policy_address s = policy_address))
        (budget_states snapshot) Hwf) as Hnd.
      unfold dict_wf, dict_keys, dict_filter in Hnd. cbn [dict_items] in Hnd.
      erewrite list_filter_iff; [exact Hnd|]. intros [ref s]. cbn [snd]. by rewrite bool_decide_eq_true.
    + intros ref s [Hs Hpol]%Howned. destruct (li_state _ Hinv _ _ Hs) as (? & _).
      split_and!; [done|done|by apply (Hall ref)|done].
    + rewrite Hrun. cbn [mbind result_bind]. rewrite with_maps_ok by done. cbn [mbind result_bind]. eexists. split; [done|].
      right. cbn [success ar_snapshot snap_other].
      assert (maps_of (Snapshot (snap_other snapshot) (mx_states m') (mx_pool_states m') (mx_events m')) = m') as ->
        by (by destruct m').
      split_and!; try done. intros ref. destruct (budget_states snapshot !! ref) as [s|] eqn:Hs.
      * case_decide as Hpol; [by apply Hin, Howned|]. rewrite Hout; [unfold usage_of; cbn [maps_of mx_states]; by rewrite Hs|].
        intros ([ref' s'] & Href & Hin')%list_elem_of_fmap. cbn [fst] in Href. subst ref'. apply Howned in Hin' as [Hs' ?]. congruence.
      * rewrite Hout; [unfold usage_of; cbn [maps_of mx_states]; by rewrite Hs|].
        intros ([ref' s'] & Href & Hin')%list_elem_of_fmap. cbn [fst] in Href. subst ref'. apply Howned in Hin' as [Hs' ?]. congruence.
  - eexists. split; [done|]. left. split; [|done].
    assert ((ref, s) ∈ base.filter (fun kv => bs_generation (snd kv) <> current) (owned (budget_states snapshot))) as Hin
      by (rewrite Ef; left).
    rewrite list_elem_of_filter in Hin. destruct Hin as [Hne Hin]. apply Howned in Hin as [Hs Hpol].
    by exists ref, s.
Qed.
End reconcile_run.

(** ** Configured pools *)

Definition pool_of (c : ParticipantResourcePoolCapacity) : ParticipantResourcePoolState :=
  PoolState (pool_state_ref c) (pc_pool_ref c) (pc_owner_kind c) (pc_owner_ref c) (pc_resource_kind c) (pc_unit c)
    (pc_accounting_mode c) (pc_meter_profile_ref c) (pc_capacity c) (pc_protected_capacity c) (pc_fairness_policy c)
    (pc_priority_classes c) (pc_borrowing c) (pc_reclaim c) (pc_max_queue_ticks c) (pc_starvation_bound_ticks c) (Dict []).

#[local] Opaque require_fields require_quantity_semantics.

Lemma pool_state_ref_ne c : nonempty (pool_state_ref c) = true.
Proof. apply nonempty_true. unfold pool_state_ref, participant_resource_pool_state_ref. done. Qed.

Lemma pool_of_ok c : validate_pool_capacity c = Ok c -> pool_ok (pool_of c).
Proof.
  unfold validate_pool_capacity. rewrite !bind_unit, !raise_if_Ok, require_fields_Ok, require_quantity_semantics_Ok, ltb_false.
  rewrite !Forall_cons. cbn [snd]. rewrite !in_range_true.
  intros (HF & Hq & Hp & _). destruct_and!. pose proof (pool_state_ref_ne c).
  assert (pool_total (pool_of c) = 0 /\ pool_unprotected (pool_of c) = 0) as [Ht Hu] by done.
  assert (dict_wf (ps_allocations (pool_of c))) as Hwf by constructor.
  unfold pool_ok, pool_valid. rewrite Ht, Hu. unfold pool_static. cbn [pool_of ps_pool_state_ref ps_pool_ref ps_owner_kind
    ps_owner_ref ps_resource_kind ps_unit ps_accounting_mode ps_meter_profile_ref ps_capacity ps_protected_capacity
    ps_fairness_policy ps_priority_classes ps_borrowing ps_reclaim ps_max_queue_ticks ps_starvation_bound_ticks
    ps_allocations dict_items].
  split_and!; done || lia.
Qed.

(** Every materialized pool is the configured one with its allocations. *)
Definition pools_configured (configured : list ParticipantResourcePoolCapacity)
    (pools : dict string ParticipantResourcePoolState) : Prop :=
  forall c p, c ∈ configured -> pools !! pool_state_ref c = Some p -> p = set_allocations (pool_of c) (ps_allocations p).

(** A compiled policy: named, with valid fairness and demands. *)
Record policy_ok (policy : ResourcePolicy) : Prop := {
  po_address : pol_address policy <> "";
  po_fairness : validate_fairness (pol_resource_fairness policy) = Ok (pol_resource_fairness policy);
  po_demand d : d ∈ pol_resource_demands policy ->
    rd_budget_id d <> "" /\ (":"%char ∉ chars (rd_budget_id d)) /\ 1 <= rd_limit d <= max_amount;
}.

(** The fairness a pool requires of the policies it serves. *)
Definition fairness_fits (f : ParticipantResourceFairness) (c : ParticipantResourcePoolCapacity) : Prop :=
  f_priority_class f ∈ pc_priority_classes c /\ f_borrowing f = pc_borrowing c /\ f_reclaim f = pc_reclaim c /\
  pc_max_queue_ticks c <= f_max_queue_ticks f /\ pc_starvation_bound_ticks c <= f_starvation_bound_ticks f.

Definition configuration_ok (configured : list ParticipantResourcePoolCapacity) : Prop :=
  NoDup (pool_state_ref <$> configured) /\ forall c, c ∈ configured -> validate_pool_capacity c = Ok c.

Lemma matching_pool_Some d configured c :
  matching_pool d configured = Some c -> c ∈ configured /\
    pc_pool_ref c = rd_pool_ref d /\ pc_owner_kind c = rd_owner_kind d /\ pc_owner_ref c = rd_owner_address d /\
    pc_resource_kind c = rd_resource_kind d /\ pc_unit c = rd_unit d /\
    pc_accounting_mode c = rd_accounting_mode d /\ pc_meter_profile_ref c = rd_meter_profile_ref d.
Proof.
  unfold matching_pool. destruct (base.filter _ configured) as [|c' l] eqn:E; [done|]. intros [= <-].
  assert (c' ∈ base.filter (fun p => pool_matches d p = true) configured) as Hin by (rewrite E; left).
  apply list_elem_of_filter in Hin as [Hm Hin]. split; [done|]. unfold pool_matches in Hm.
  rewrite !andb_true_iff, !bool_decide_eq_true in Hm. tauto.
Qed.

(** ** A fresh budget *)

Definition fresh_budget (policy : ResourcePolicy) (d : ResourceDemand) (c : ParticipantResourcePoolCapacity) (g : Z)
    : ParticipantResourceBudgetState :=
  let ref := demand_ref policy d in
  BudgetState ref (rd_budget_id d) (pol_address policy) (rd_owner_kind d) (rd_owner_address d) (rd_pool_ref d)
    (rd_resource_kind d) (rd_unit d) (rd_accounting_mode d) (rd_meter_profile_ref d) (rd_reset d) g (rd_limit d)
    (pc_capacity c) 0 0 0 0 0 st_reconciled ("initial:" +:+ ref) [].

Definition fresh_allocation (policy : ResourcePolicy) (d : ResourceDemand) (g : Z) : ParticipantResourcePoolAllocation :=
  let f := pol_resource_fairness policy in
  PoolAllocation (demand_ref policy d) (pol_address policy) (rd_budget_id d) g (f_priority_class f) (f_weight f)
    (f_protected f) (f_borrowing f) (f_reclaim f) (f_max_queue_ticks f) (f_starvation_bound_ticks f) 0 0 0.

Lemma demand_ref_ne policy d : demand_ref policy d <> "".
Proof. unfold demand_ref, participant_resource_budget_state_ref. by destruct (pol_address policy). Qed.

Section fresh.
Context (policy : ResourcePolicy) (d : ResourceDemand) (c : ParticipantResourcePoolCapacity) (g : Z)
  (configured : list ParticipantResourcePoolCapacity).
Context (Hpolicy : policy_ok policy) (Hd : d ∈ pol_resource_demands policy) (Hg : 0 <= g)
  (Hconf : configuration_ok configured) (Hmatch : matching_pool d configured = Some c)
  (Hfits : fairness_fits (pol_resource_fairness policy) c).

Lemma fresh_budget_ok : budget_ok (fresh_budget policy d c g).
Proof.
  destruct (matching_pool_Some _ _ _ Hmatch) as (Hin & Hpr & Hok & Hor & Hrk & Hu & Ham & Hmp).
  destruct (pool_of_ok c (proj2 Hconf c Hin)) as ((((_ & ? & ? & ? & ? & [? ?] & _) & Hq & _) & _) & _).
  destruct (po_demand _ Hpolicy d Hd) as (? & ? & ? & ?). pose proof (demand_ref_ne policy d).
  pose proof (po_address _ Hpolicy). cbn in *. rewrite !nonempty_true in *.
  unfold budget_ok, state_static, state_usage_ok, usage_ok, used_capacity. cbn. rewrite !nonempty_true.
  rewrite <-Hpr, <-Hor, <-Hrk, <-Hu, <-Ham, <-Hmp.
  split_and!; try done; try lia; try constructor; try (unfold max_amount; lia); case_decide; lia.
Qed.

Lemma fresh_allocation_ok : validate_pool_allocation (fresh_allocation policy d g) = Ok (fresh_allocation policy d g).
Proof.
  apply validate_pool_allocation_Ok. split; [done|]. pose proof (po_fairness _ Hpolicy) as Hf.
  unfold validate_fairness in Hf. rewrite bind_unit, require_fields_Ok, !Forall_cons in Hf. cbn [snd] in Hf.
  rewrite !in_range_true in Hf. destruct Hf as [Hf _]. destruct_and!.
  destruct (po_demand _ Hpolicy d Hd) as (? & ? & ? & ?). pose proof (demand_ref_ne policy d).
  pose proof (po_address _ Hpolicy).
  unfold allocation_static, allocation_counters_ok, counters_ok. cbn. rewrite !nonempty_true in *.
  split_and!; try done; try lia; unfold max_amount; lia.
Qed.

(** Adding the budget to a ledger without it. *)
Lemma ledger_inv_add S P E p :
  ledger_inv (Maps S P E) -> pools_configured configured P ->
  S !! demand_ref policy d = None ->
  (P !! pool_state_ref c = Some p \/ P !! pool_state_ref c = None /\ p = pool_of c) ->
  ps_allocations p !! demand_ref policy d = None /\
  let p' := set_allocations p (<[demand_ref policy d := fresh_allocation policy d g]> (ps_allocations p)) in
  ledger_inv (Maps (<[demand_ref policy d := fresh_budget policy d c g]> S) (<[pool_state_ref c := p']> P) E) /\
  pools_configured configured (<[pool_state_ref c := p']> P).
Proof.
  intros Hinv Hpc Hnone Hp. destruct (matching_pool_Some _ _ _ Hmatch) as (Hin & Hpr & Hokd & Hor & Hrk & Hu & Ham & Hmp).
  assert (p = set_allocations (pool_of c) (ps_allocations p) /\ pool_ok p /\ ps_allocations p !! demand_ref policy d = None)
    as (Hpc' & Hpok & Hna).
  { destruct Hp as [Hp|[Hp ->]].
    - split; [by apply Hpc|]. split; [by apply (li_pool _ Hinv _ _ Hp)|].
      destruct (ps_allocations p !! demand_ref policy d) as [a|] eqn:E0; [|done].
      destruct (li_allocated _ Hinv _ _ _ _ Hp E0) as (s & Hs & _). cbn [mx_states] in Hs. congruence.
    - split; [done|]. split; [|done]. apply pool_of_ok. by apply Hconf. }
  split; [done|]. intros p'. pose proof fresh_budget_ok as Hbok.
  assert (ps_pool_state_ref p = pool_state_ref c /\ ps_accounting_mode p = pc_accounting_mode c /\
    ps_priority_classes p = pc_priority_classes c /\ ps_borrowing p = pc_borrowing c /\ ps_reclaim p = pc_reclaim c /\
    ps_max_queue_ticks p = pc_max_queue_ticks c /\ ps_starvation_bound_ticks p = pc_starvation_bound_ticks c)
    as (Hp1 & Hp2 & Hp3 & Hp4 & Hp5 & Hp6 & Hp7) by (by rewrite Hpc').
  assert (pool_ref_for_state (fresh_budget policy d c g) = pool_state_ref c) as Href.
  { unfold pool_ref_for_state, pool_state_ref. cbn. by rewrite Hpr, Hokd, Hor, Hrk, Hu, Ham, Hmp. }
  assert (pool_ok p') as Hpok'.
  { destruct Hpok as ((Hst & Hall & Htot) & Hwf & Hun). split_and!.
    - split_and!; [done| |].
      + apply dict_Forall_set; [done|]. destruct Hfits as (? & ? & ? & ? & ?).
        pose proof fresh_allocation_ok as [_ ?]%validate_pool_allocation_Ok. split; [done|].
        unfold allocation_fits. cbn. rewrite Hp3, Hp4, Hp5, Hp6, Hp7. done.
      + unfold pool_total in *. cbn [ps_allocations set_allocations ps_accounting_mode ps_capacity p'].
        rewrite dict_sum_set, Hna. cbn [fmap option_fmap option_map default from_option].
        unfold allocation_use at 2. cbn. case_decide; lia.
    - by apply dict_wf_set.
    - unfold pool_unprotected in *. cbn [ps_allocations set_allocations ps_capacity ps_protected_capacity p'].
      rewrite dict_sum_set, Hna. cbn [fmap option_fmap option_map default from_option].
      change (unprotected_use p') with (unprotected_use p).
      assert (unprotected_use p (fresh_allocation policy d g) = 0) as ->; [|lia].
      unfold unprotected_use, allocation_use. cbn. destruct (f_protected _); [done|]. by case_decide. }
  split.
  - constructor; cbn [mx_states mx_pool_states mx_events].
    + apply dict_wf_set, (li_states_wf _ Hinv).
    + apply dict_wf_set, (li_pools_wf _ Hinv).
    + apply (li_events _ Hinv).
    + intros r s. rewrite dict_get_set. case_decide as Hr; [|apply (li_state _ Hinv)]. by intros [= <-].
    + intros r p0. rewrite dict_get_set. case_decide as Hr; [|apply (li_pool _ Hinv)]. intros [= <-].
      split; [|done]. cbn. by rewrite Hp1.
    + intros r s. rewrite dict_get_set. case_decide as Hr.
      * intros [= <-]. subst r. rewrite Href. eexists p', _. rewrite dict_get_set_eq. split; [done|].
        split; [apply dict_get_set_eq|]. split; [done|]. cbn. by rewrite Hp2, Ham.
      * intros Hs. destruct (li_mirror _ Hinv _ _ Hs) as (p0 & a0 & Hp0 & Ha0 & Hm & Hmode). cbn [mx_pool_states] in Hp0.
        rewrite dict_get_set. case_decide as Hpr'; [|by exists p0, a0]. eexists p', a0. split; [done|].
        rewrite <-Hpr' in Hp0. destruct Hp as [Hp|[Hp _]]; [|congruence]. rewrite Hp in Hp0. injection Hp0 as <-.
        split; [|done]. cbn [p' ps_allocations set_allocations]. by rewrite dict_get_set_ne.
    + intros k p0 r a0 Hp0 Ha0. rewrite dict_get_set in Hp0. rewrite dict_get_set. case_decide as Hk.
      * injection Hp0 as <-. cbn [p' ps_allocations set_allocations] in Ha0. rewrite dict_get_set in Ha0.
        case_decide as Hr; [eexists; split; [done|by rewrite Href]|]. subst k.
        destruct Hp as [Hp|[Hp Hpe]]; [by apply (li_allocated _ Hinv _ p r a0)|]. by subst p.
      * destruct (li_allocated _ Hinv _ _ _ _ Hp0 Ha0) as (s & Hs & Hks). cbn [mx_states] in Hs.
        case_decide as Hr; [congruence|]. by exists s.
    + intros r s. rewrite dict_get_set. case_decide as Hr; [|apply (li_reserved _ Hinv)]. intros [= <-]. subst r.
      cbn [bs_reserved bs_generation fresh_budget]. symmetry. apply outstanding_zero; [|apply (li_events _ Hinv)].
      intros k e Hk Ht Hr. destruct (li_reservation _ Hinv _ _ Hk Ht) as (s & Hs & _). cbn [mx_states] in Hs. congruence.
    + intros k e Hk Ht. destruct (li_reservation _ Hinv _ _ Hk Ht) as (s & Hs & Hle). cbn [mx_states] in Hs.
      rewrite dict_get_set. case_decide as Hr; [congruence|]. by exists s.
  - intros c' p0 Hc' Hp0. rewrite dict_get_set in Hp0. case_decide as Hk; [|by apply Hpc].
    injection Hp0 as <-. assert (c' = c) as ->; [|unfold p'; by rewrite Hpc' at 1].
    apply list_elem_of_lookup in Hin as [i Hi], Hc' as [j Hj]. assert (i = j) as ->; [|congruence].
    apply (NoDup_lookup (pool_state_ref <$> configured) i j (pool_state_ref c)); [apply Hconf|..];
      rewrite list_lookup_fmap; [by rewrite Hi|by rewrite Hj; cbn; f_equal].
Qed.
End fresh.

(** ** The whole request *)

Section initialize_run.
Context {O : Type} (snapshot : RuntimeSnapshot O) (g : Z) (configured : list ParticipantResourcePoolCapacity).
Context (Hg : 0 <= g) (Hconf : configuration_ok configured).

(** A policy whose fairness fits every pool its demands match. *)
Definition policy_fits (policy : ResourcePolicy) : Prop :=
  policy_ok policy /\ forall d c, d ∈ pol_resource_demands policy -> matching_pool d configured = Some c ->
    fairness_fits (pol_resource_fairness policy) c.

(** What initialization needs of a demand: an exact pool with the protected
    capacity, and no budget left in another generation. *)
Definition initializable (policy : ResourcePolicy) (d : ResourceDemand) : Prop :=
  exists c, matching_pool d configured = Some c /\
    (f_protected (pol_resource_fairness policy) = true -> rd_reservation d <= pc_protected_capacity c) /\
    forall s, budget_states snapshot !! demand_ref policy d = Some s -> bs_generation s = g.

Definition init_maps (m : InitializationMutation) : BudgetMaps :=
  Maps (im_states m) (im_pool_states m) (budget_events snapshot).

Record init_inv (m : InitializationMutation) : Prop := {
  ii_ledger : ledger_inv (init_maps m);
  ii_configured : pools_configured configured (im_pool_states m);
  ii_kept r s : budget_states snapshot !! r = Some s -> im_states m !! r = Some s;
  ii_added r s : im_states m !! r = Some s -> budget_states snapshot !! r = None ->
    bs_generation s = g /\ bs_reserved s = 0 /\ bs_cumulative_use s = 0;
}.

Lemma initialize_demand_step policy d m :
  policy_fits policy -> d ∈ pol_resource_demands policy -> init_inv m ->
  (initializable policy d /\ exists m', initialize_demand snapshot g configured policy m d = Ok (m', None) /\ init_inv m' /\
     (exists s, im_states m' !! demand_ref policy d = Some s /\ bs_generation s = g) /\
     forall r s, im_states m !! r = Some s -> im_states m' !! r = Some s) \/
  (~ initializable policy d /\ exists failure, initialize_demand snapshot g configured policy m d = Ok (m, Some failure) /\
     success failure = false /\ ar_snapshot failure = snapshot).
Proof.
  intros [Hpol Hfit] Hd Hinv. unfold initialize_demand, initializable.
  destruct (matching_pool d configured) as [c|] eqn:Hmatch.
  2:{ right. split; [by intros (? & ? & _)|]. by eexists. }
  destruct (f_protected (pol_resource_fairness policy) && (pc_protected_capacity c <? rd_reservation d)) eqn:Hprot.
  { right. apply andb_true_iff in Hprot as [Hp Hlt%Z.ltb_lt]. split; [|by eexists].
    intros (c' & [= <-] & Hle & _). specialize (Hle Hp). lia. }
  assert (f_protected (pol_resource_fairness policy) = true -> rd_reservation d <= pc_protected_capacity c) as Hle.
  { intros Hp. rewrite Hp in Hprot. cbn [andb] in Hprot. by apply Z.ltb_ge in Hprot. }
  fold (demand_ref policy d). unfold existing_budget_failure.
  destruct (im_states m !! demand_ref policy d) as [s|] eqn:Hs.
  - destruct (li_state _ (ii_ledger _ Hinv) _ _ Hs) as (_ & Hst & Huse & _).
    assert (validate_budget_state s = Ok s) as -> by (by apply validate_budget_state_Ok). cbn [mbind result_bind fst snd].
    destruct (decide (bs_generation s <> g)) as [Hne|Hgen].
    + right. split; [|by eexists]. intros (c' & [= <-] & _ & Hgen). apply Hne.
      destruct (budget_states snapshot !! demand_ref policy d) as [s0|] eqn:Hs0.
      * pose proof (ii_kept _ Hinv _ _ Hs0) as Hk. rewrite Hs in Hk. injection Hk as <-. by apply Hgen.
      * by destruct (ii_added _ Hinv _ _ Hs Hs0).
    + left. assert (bs_generation s = g) as Hgeq by (destruct (decide (bs_generation s = g)); tauto). split.
      * exists c. split_and!; [done|done|]. intros s0 Hs0. pose proof (ii_kept _ Hinv _ _ Hs0). congruence.
      * exists m. split_and!; [done|done|by exists s|done].
  - left. split.
    { exists c. split_and!; [done|done|]. intros s0 Hs0. pose proof (ii_kept _ Hinv _ _ Hs0). congruence. }
    cbn [mbind result_bind fst snd]. unfold initialize_new_budget.
    destruct (fresh_budget_ok policy d c g configured Hpol Hd Hg Hconf Hmatch) as (Hst & Huse & _).
    assert (new_budget_state policy d c g = Ok (fresh_budget policy d c g)) as ->.
    { unfold new_budget_state. by apply validate_budget_state_Ok. }
    cbn [mbind result_bind].
    destruct (matching_pool_Some _ _ _ Hmatch) as (Hin & _).
    assert (exists p, (match im_pool_states m !! pool_state_ref c with None => new_pool_state c
        | Some existing => validate_pool_state existing end) = Ok p /\
      (im_pool_states m !! pool_state_ref c = Some p \/ im_pool_states m !! pool_state_ref c = None /\ p = pool_of c))
      as (p & -> & Hp).
    { destruct (im_pool_states m !! pool_state_ref c) as [p|] eqn:Hp.
      - exists p. split; [|by left]. destruct (li_pool _ (ii_ledger _ Hinv) _ _ Hp) as (_ & ? & _).
        by apply validate_pool_state_Ok.
      - exists (pool_of c). split; [|by right]. unfold new_pool_state. fold (pool_of c). apply validate_pool_state_Ok.
        split; [done|]. by destruct (pool_of_ok c (proj2 Hconf c Hin)). }
    cbn [mbind result_bind].
    destruct (ledger_inv_add policy d c g configured Hpol Hd Hg Hconf Hmatch (Hfit d c Hd Hmatch) _ _ _ p
      (ii_ledger _ Hinv) (ii_configured _ Hinv) Hs Hp) as (Hna & Hinv' & Hpc').
    unfold ensure_allocation. cbn [bs_state_ref fresh_budget]. rewrite Hna. fold (fresh_allocation policy d g).
    cbn [bs_policy_address bs_budget_id bs_generation fresh_budget].
    change (PoolAllocation _ _ _ _ _ _ _ _ _ _ _ _ _ _) with (fresh_allocation policy d g).
    rewrite (fresh_allocation_ok policy d g Hpol Hd Hg). cbn [mbind result_bind]. eexists. split; [done|]. split_and!.
    + constructor; cbn [im_states im_pool_states init_maps]; try done.
      * intros r s0 Hs0. pose proof (ii_kept _ Hinv _ _ Hs0) as Hk. rewrite dict_get_set.
        case_decide as Hr; [congruence|done].
      * intros r s0. rewrite dict_get_set. case_decide as Hr; [by intros [= <-]|by apply (ii_added _ Hinv)].
    + exists (fresh_budget policy d c g). split; [|done]. apply dict_get_set_eq.
    + intros r s0 Hs0. cbn [im_states]. rewrite dict_get_set. case_decide; [congruence|done].
Qed.

(** The outcome of a loop of initializations over [ds]. *)
Definition init_outcome (wanted : list (ResourcePolicy * ResourceDemand)) (m : InitializationMutation)
    (r : InitializationMutation * option (ApplyResult O)) : Prop :=
  match r.2 with
  | None => init_inv r.1 /\ (forall r0 s, im_states m !! r0 = Some s -> im_states r.1 !! r0 = Some s) /\
      forall policy d, (policy, d) ∈ wanted ->
        initializable policy d /\ exists s, im_states r.1 !! demand_ref policy d = Some s /\ bs_generation s = g
  | Some failure => (exists policy d, (policy, d) ∈ wanted /\ ~ initializable policy d) /\
      success failure = false /\ ar_snapshot failure = snapshot
  end.

Lemma initialize_demands_run policy ds : forall m,
  policy_fits policy -> ds ⊆ pol_resource_demands policy -> init_inv m ->
  exists r, until_some (initialize_demand snapshot g configured policy) m ds = Ok r /\
    init_outcome (pair policy <$> ds) m r.
Proof.
  induction ds as [|d ds IH]; intros m Hpol Hsub Hinv.
  - eexists. split; [done|]. split_and!; [done|done|]. by intros ? ? ?%not_elem_of_nil.
  - cbn [until_some].
    destruct (initialize_demand_step policy d m Hpol) as [(Hi & m' & -> & Hinv' & (s & Hs & Hgen) & Hkeep)|(Hn & failure & -> & Hf)];
      [apply Hsub; left|done|..]; cbn [mbind result_bind fst snd].
    + destruct (IH m') as ([m2 [failure|]] & Hrun & Ho); [done|set_solver|done|..]; rewrite Hrun; eexists; (split; [done|]);
        unfold init_outcome in *; cbn [fst snd] in *.
      * destruct Ho as ((p' & d' & Hin & Hnot) & Hf). split; [|done]. exists p', d'. split; [by right|done].
      * destruct Ho as (Hinv2 & Hkeep2 & Hall). split_and!; [done|eauto|].
        intros p' d' [[= -> ->]|Hin]%elem_of_cons; [|by apply Hall]. split; [done|]. exists s. split; [by apply Hkeep2|done].
    + eexists. split; [done|]. split; [|done]. exists policy, d. split; [left|done].
Qed.

Definition wanted_demands (policies : list ResourcePolicy) : list (ResourcePolicy * ResourceDemand) :=
  policies ≫= fun policy => pair policy <$> pol_resource_demands policy.

Lemma initialize_policies_run policies : forall m,
  (forall policy, policy ∈ policies -> policy_fits policy) -> init_inv m ->
  exists r, until_some (fun m policy => until_some (initialize_demand snapshot g configured policy) m
      (pol_resource_demands policy)) m policies = Ok r /\ init_outcome (wanted_demands policies) m r.
Proof.
  induction policies as [|policy policies IH]; intros m Hpol Hinv.
  - eexists. split; [done|]. split_and!; [done|done|]. by intros ? ? ?%not_elem_of_nil.
  - cbn [until_some wanted_demands mbind list_bind].
    destruct (initialize_demands_run policy (pol_resource_demands policy) m) as ([m' [failure|]] & -> & Ho);
      [apply Hpol; left|done|done|..]; cbn [mbind result_bind fst snd]; unfold init_outcome in *; cbn [fst snd] in *.
    + eexists. split; [done|]. cbn [fst snd]. destruct Ho as ((p' & d' & Hin & Hnot) & Hf). split; [|done].
      exists p', d'. split; [|done]. apply elem_of_app. by left.
    + destruct Ho as (Hinv1 & Hkeep1 & Hall1).
      destruct (IH m') as ([m2 [failure|]] & Hrun & Ho); [intros; apply Hpol; by right|done|..]; rewrite Hrun;
        eexists; (split; [done|]); cbn [fst snd] in *.
      * destruct Ho as ((p' & d' & Hin & Hnot) & Hf). split; [|done]. exists p', d'. split; [|done]. apply elem_of_app. by right.
      * destruct Ho as (Hinv2 & Hkeep2 & Hall2). split_and!; [done|eauto|].
        intros p' d' [Hin|Hin]%elem_of_app; [|by apply Hall2]. destruct (Hall1 p' d' Hin) as (Hi & s & Hs & Hgen).
        split; [done|]. exists s. split; [by apply Hkeep2|done].
Qed.

Lemma initialize_run policies :
  ledger_inv (maps_of snapshot) -> pools_configured configured (pool_states snapshot) ->
  (forall policy, policy ∈ policies -> policy_fits policy) ->
  exists r, initialize_participant_resource_budgets snapshot policies configured g = Ok r /\
    (((exists policy d, (policy, d) ∈ wanted_demands policies /\ ~ initializable policy d) /\
      success r = false /\ ar_snapshot r = snapshot) \/
     (success r = true /\ ledger_inv (maps_of (ar_snapshot r)) /\
      pools_configured configured (pool_states (ar_snapshot r)) /\ snap_other (ar_snapshot r) = snap_other snapshot /\
      (forall policy d, (policy, d) ∈ wanted_demands policies -> initializable policy d /\
         exists s, budget_states (ar_snapshot r) !! demand_ref policy d = Some s /\ bs_generation s = g) /\
      forall ref, match budget_states snapshot !! ref with
        | Some s => budget_states (ar_snapshot r) !! ref = Some s
        | None => forall u, usage_of (maps_of (ar_snapshot r)) ref = Some u -> u = (g, 0, 0)
        end)).
Proof.
  intros Hinv Hpc Hpol. unfold initialize_participant_resource_budgets.
  destruct (initialize_policies_run policies (InitMutation (budget_states snapshot) (pool_states snapshot)))
    as ([m' [failure|]] & -> & Ho); [done| |cbn [mbind result_bind fst snd]..].
  { constructor; cbn [init_maps im_states im_pool_states]; try done. congruence. }
  - eexists. split; [done|]. by left.
  - destruct Ho as (Hinv' & Hkeep & Hall). cbn [fst snd] in *.
    pose proof (with_maps_ok snapshot _ (ii_ledger _ Hinv')) as Hw. unfold with_maps, init_maps in Hw. cbn [mx_states mx_pool_states mx_events] in Hw.
    rewrite Hw. cbn [mbind result_bind]. eexists. split; [done|]. right. cbn [success ar_snapshot snap_other pool_states budget_states].
    split_and!; [done|apply (ii_ledger _ Hinv')|apply (ii_configured _ Hinv')|done|done|].
    intros ref. destruct (budget_states snapshot !! ref) as [s|] eqn:Hs; [by apply (ii_kept _ Hinv')|].
    intros u Hu. unfold usage_of in Hu. apply fmap_Some in Hu as (s & Hs' & ->). cbn [maps_of mx_states budget_states] in Hs'.
    destruct (ii_added _ Hinv' _ _ Hs' Hs) as (-> & -> & ->). done.
Qed.
End initialize_run.

(** The empty snapshot is a well-formed ledger. *)
Lemma ledger_inv_empty : ledger_inv (Maps (Dict []) (Dict []) (Dict [])).
Proof.
  assert (events_ok (Dict [])) as Hok.
  { constructor; [constructor|done..|]. intros s [H|H]; by apply not_elem_of_nil in H. }
  constructor; cbn [mx_states mx_pool_states mx_events]; done || constructor.
Qed.
