(* ===== verification/ResourceSpec.v ===== *)
(** What the participant resource ledger promises: capacity safety over every
    sequence of operations, and the exact effect of each operation. *)
From S2P Require Import Prelude.
From S2P Require Import Contracts.
From S2P Require Import Sha256.
From S2P Require Import ResourceTypes.
From S2P Require Import ResourceModel.
From S2P Require Import ResourceLedger.
From S2P Require Import ResourceReservation.
From S2P Require Import ResourceAccounting.
From S2P Require Import ResourceFacts.
From S2P Require Import ResourceInvariant.
From S2P Require Import ResourceSteps.
From S2P Require Import ResourceSettle.
From S2P Require Import ResourceRun.
From stdpp Require Import pretty.
From Stdlib Require Import Ascii.
Local Open Scope string_scope.
Local Open Scope list_scope.
Local Open Scope Z_scope.

(** ** Sequences of operations *)

(** One operation of the ledger, called as its callers call it: a vector is
    settled once, in the generation it was reserved in. *)
Inductive ledger_step {O : Type} : RuntimeSnapshot O -> RuntimeSnapshot O -> Prop :=
| step_initialize s policies configured g r :
    0 <= g -> configuration_ok configured -> pools_configured configured (pool_states s) ->
    (forall policy, policy ∈ policies -> policy_fits configured policy) ->
    initialize_participant_resource_budgets s policies configured g = Ok r -> ledger_step s (ar_snapshot r)
| step_reserve s policy op g requested r :
    request_ok (maps_of s) policy op requested ->
    reserve_participant_resources s policy op g requested = Ok r -> ledger_step s (ar_snapshot r)
| step_commit s op g measured evidence r :
    op <> "" -> evidence_ok evidence -> evidence <> [] -> operation_open (maps_of s) op g ->
    measured_exactly (maps_of s) op g measured -> reservations_of (budget_events s) op <> [] ->
    commit_participant_resource_reservation s op g measured evidence = Ok r -> ledger_step s (ar_snapshot r)
| step_release s op g evidence r :
    op <> "" -> evidence_ok evidence -> operation_open (maps_of s) op g ->
    release_participant_resource_reservation s op g evidence = Ok r -> ledger_step s (ar_snapshot r)
| step_reconcile s policy_address current next boundary evidence r :
    current < next -> evidence_ok evidence ->
    reconcile_participant_resource_budgets s policy_address current next boundary evidence = Ok r ->
    ledger_step s (ar_snapshot r).

Lemma ledger_step_inv {O} (s s' : RuntimeSnapshot O) :
  ledger_step s s' -> ledger_inv (maps_of s) -> ledger_inv (maps_of s').
Proof.
  intros Hstep Hinv. destruct Hstep as [s policies configured g r Hg Hc Hp Hf Hrun|s policy op g requested r Hreq Hrun
    |s op g measured evidence r Hop Hev Hne Hopen Hm Hres Hrun|s op g evidence r Hop Hev Hopen Hrun
    |s pol cur next boundary evidence r Hlt Hev Hrun].
  - destruct (initialize_run s g configured Hg Hc policies Hinv Hp Hf) as (r' & Hr & Ho).
    rewrite Hrun in Hr. injection Hr as <-. destruct Ho as [(_ & _ & ->)|(_ & Ho & _)]; done.
  - destruct (reserve_run s policy op g requested Hinv Hreq) as (r' & Hr & Ho). rewrite Hrun in Hr. injection Hr as <-.
    destruct Ho as [(_ & ->)|[(_ & Ho)|(_ & Ho & _)]]; done.
  - destruct (commit_run s op g measured evidence) as (s' & Hr & Ho & _); [done..|]. rewrite Hrun in Hr. by injection Hr as ->.
  - destruct (release_run s op g evidence) as (s' & Hr & Ho & _); [done..|]. rewrite Hrun in Hr. by injection Hr as ->.
  - destruct (reconcile_run pol cur next boundary evidence Hlt Hev s Hinv) as (r' & Hr & Ho). rewrite Hrun in Hr.
    injection Hr as <-. destruct Ho as [(_ & _ & ->)|(_ & _ & Ho & _)]; done.
Qed.

Definition ledger_empty {O} (s : RuntimeSnapshot O) : Prop :=
  budget_states s = Dict [] /\ pool_states s = Dict [] /\ budget_events s = Dict [].

Lemma ledger_reachable_inv {O} (s0 s : RuntimeSnapshot O) :
  ledger_empty s0 -> rtc ledger_step s0 s -> ledger_inv (maps_of s).
Proof.
  intros (H1 & H2 & H3) Hrtc. assert (ledger_inv (maps_of s0)) as H0.
  { unfold maps_of. rewrite H1, H2, H3. apply ledger_inv_empty. }
  clear H1 H2 H3. induction Hrtc as [|s1 s2 s3 Hstep _ IH]; [done|]. by apply IH, (ledger_step_inv s1).
Qed.

(** ** Sample configuration *)

Definition sample_pool (ref : string) (kind : resource_kind) (mode : accounting_mode) (capacity protected : Z)
    : ParticipantResourcePoolCapacity :=
  PoolCapacity ref participant "participant.alice" kind (RESOURCE_UNIT kind) mode "meter/v1" capacity tenant_partitioned
    "sha256:0123456789abcdef0123456789abcdef0123456789abcdef0123456789abcdef" "bounded" ["standard"] "none" "none"
    0 1 protected ["evidence/v1"].

Definition sample_configuration : list ParticipantResourcePoolCapacity :=
  [sample_pool "actions" action_rate windowed_counter 10 2;
   sample_pool "tokens" inference_tokens cumulative_counter 1000 100].

Definition sample_demand (budget ref : string) (kind : resource_kind) (mode : accounting_mode)
    (limit reservation : Z) : ResourceDemand :=
  Demand budget "alice" participant "participant.alice" ref kind (RESOURCE_UNIT kind) mode "meter/v1" limit reservation
    time_segment None None [] authored.

Definition sample_policy : ResourcePolicy :=
  Policy "policy.alice" "participant-autonomous-execution/v3"
    [sample_demand "rate" "actions" action_rate windowed_counter 8 2;
     sample_demand "tokens" "tokens" inference_tokens cumulative_counter 900 300]
    (Fairness "bounded" "standard" 1 false "none" "none" 0 1).

Definition ok_snapshot (r : result (ApplyResult unit)) : RuntimeSnapshot unit :=
  match r with Ok a => ar_snapshot a | Raise _ => Snapshot tt (Dict []) (Dict []) (Dict []) end.

Definition sample_start : RuntimeSnapshot unit := Snapshot tt (Dict []) (Dict []) (Dict []).

Definition sample_ready : RuntimeSnapshot unit := Eval vm_compute in
  ok_snapshot (initialize_participant_resource_budgets sample_start [sample_policy] sample_configuration 0).

Definition sample_reserved : RuntimeSnapshot unit := Eval vm_compute in
  ok_snapshot (reserve_participant_resources sample_ready sample_policy "act-1" 0 None).

Definition rate_ref : string := "policy.alice.resource-budget-state.rate".
Definition tokens_ref : string := "policy.alice.resource-budget-state.tokens".

Example sample_reserved_usage :
  (usage_of (maps_of sample_reserved) rate_ref, usage_of (maps_of sample_reserved) tokens_ref) =
  (Some (0, 2, 0), Some (0, 300, 0)).
Proof. vm_compute. reflexivity. Qed.

Lemma sample_configuration_ok : configuration_ok sample_configuration.
Proof.
  split.
  - apply (bool_decide_unpack _). vm_compute. exact I.
  - intros c Hc. unfold sample_configuration in Hc. rewrite !elem_of_cons in Hc.
    destruct Hc as [-> |[-> |Hc]]; [vm_compute; reflexivity..|]. by apply not_elem_of_nil in Hc.
Qed.

Lemma sample_demands d :
  d ∈ pol_resource_demands sample_policy ->
  d = sample_demand "rate" "actions" action_rate windowed_counter 8 2 \/
  d = sample_demand "tokens" "tokens" inference_tokens cumulative_counter 900 300.
Proof.
  intros Hd. cbn [pol_resource_demands sample_policy] in Hd. rewrite !elem_of_cons in Hd.
  destruct Hd as [|[|Hd]]; [by left|by right|]. by apply not_elem_of_nil in Hd.
Qed.

Lemma sample_policy_fits : policy_fits sample_configuration sample_policy.
Proof.
  split.
  - constructor; [done|vm_compute; reflexivity|]. intros d Hd.
    destruct (sample_demands d Hd) as [-> | ->]; (split_and!; [done|vm_decide|vm_compute; done..]).
  - intros d c Hd Hc. destruct (matching_pool_Some _ _ _ Hc) as (Hin & _). unfold sample_configuration in Hin.
    rewrite !elem_of_cons in Hin. destruct Hin as [-> |[-> |Hin]]; [| |by apply not_elem_of_nil in Hin];
      (split_and!; [left|done..]).
Qed.

Lemma sample_initialized :
  initialize_participant_resource_budgets sample_start [sample_policy] sample_configuration 0 =
  Ok (Applied true sample_ready []).
Proof. vm_compute. reflexivity. Qed.

Lemma applied_snapshot {O} b (s : RuntimeSnapshot O) d : ar_snapshot (Applied b s d) = s.
Proof. done. Qed.

Lemma sample_step_initialize : ledger_step sample_start sample_ready.
Proof.
  rewrite <-(applied_snapshot true sample_ready []).
  apply (step_initialize sample_start [sample_policy] sample_configuration 0 (Applied true sample_ready [])); [done|..].
  - exact sample_configuration_ok.
  - intros c p _ Hp. done.
  - intros policy Hp. apply list_elem_of_singleton in Hp as ->. exact sample_policy_fits.
  - exact sample_initialized.
Qed.

Lemma sample_ready_inv : ledger_inv (maps_of sample_ready).
Proof.
  apply (ledger_reachable_inv sample_start); [done|]. apply rtc_once, sample_step_initialize.
Qed.

Definition sample_rate : ParticipantResourceBudgetState := Eval vm_compute in
  fresh_budget sample_policy (sample_demand "rate" "actions" action_rate windowed_counter 8 2)
    (sample_pool "actions" action_rate windowed_counter 10 2) 0.
Definition sample_tokens : ParticipantResourceBudgetState := Eval vm_compute in
  fresh_budget sample_policy (sample_demand "tokens" "tokens" inference_tokens cumulative_counter 900 300)
    (sample_pool "tokens" inference_tokens cumulative_counter 1000 100) 0.

Lemma sample_states : budget_states sample_ready = Dict [(rate_ref, sample_rate); (tokens_ref, sample_tokens)].
Proof. reflexivity. Qed.

Lemma sample_pools_differ : pool_ref_for_state sample_rate <> pool_ref_for_state sample_tokens.
Proof. apply String.eqb_neq. vm_compute. reflexivity. Qed.

Lemma sample_request_ok op :
  op <> "" -> (forall d, d ∈ pol_resource_demands sample_policy ->
    event_id_of op (demand_ref sample_policy d) ∉ dict_keys (budget_events sample_ready)) ->
  request_ok (maps_of sample_ready) sample_policy op None.
Proof.
  intros Hop Hfresh. split.
  2:{ intros d Hd. destruct (sample_demands d Hd) as [-> | ->]; (vm_compute; split; discriminate). }
  constructor; [done|done|..].
  - intros d Hd. by destruct (sample_demands d Hd) as [-> | ->].
  - vm_decide.
  - intros d1 d2 s1 s2 Hd1 Hd2. destruct (sample_demands d1 Hd1) as [-> | ->], (sample_demands d2 Hd2) as [-> | ->];
      intros H1 H2 Heq; [done| | |done]; exfalso; apply sample_pools_differ;
      injection H1 as <-; injection H2 as <-; [exact Heq|symmetry; exact Heq].
  - by left.
Qed.

(** C6: on a well-formed ledger ([ledger_inv]), a request of distinct budgets in
    distinct pools, under an operation that reserved all of them before or none,
    is all or nothing. A repeated operation changes nothing. Otherwise the call
    succeeds exactly when every demand can be granted, and then each of its
    budgets reserves what is asked of it and no other budget moves; when it is
    refused, one demand cannot be granted, no pool changes, and no budget's
    generation, reservation or use moves. It raises, a ValueError and for a new
    operation only, only when some demand asks a negative amount or one above the
    largest an event can carry. *)
Theorem reserve_all_or_nothing {O} (s : RuntimeSnapshot O) policy op g requested :
  ledger_inv (maps_of s) -> request_formed (maps_of s) policy op ->
  match reserve_participant_resources s policy op g requested with
  | Ok r =>
      (reserved_before (maps_of s) policy op /\ r = Applied true s []) \/
      (~ reserved_before (maps_of s) policy op /\ success r = true /\
       (forall d, d ∈ pol_resource_demands policy -> exists b p, bs_state_ref b = demand_ref policy d /\
          grantable (Request s policy op g) (maps_of s) b p (asked requested d)) /\
       usage_moves (maps_of s) (maps_of (ar_snapshot r))
         (fun ref => (fun d => (asked requested d, 0)) <$> demand_on policy (pol_resource_demands policy) ref)) \/
      (~ reserved_before (maps_of s) policy op /\ success r = false /\
       (exists d, d ∈ pol_resource_demands policy /\ refused (Request s policy op g) (maps_of s) d (asked requested d)) /\
       pool_states (ar_snapshot r) = pool_states s /\
       forall ref, usage_of (maps_of (ar_snapshot r)) ref = usage_of (maps_of s) ref)
  | Raise e =>
      (exists message, e = ValueError message) /\ ~ reserved_before (maps_of s) policy op /\
      exists d, d ∈ pol_resource_demands policy /\ out_of_range (asked requested d)
  end.
Proof.
  intros Hinv Hreq. destruct (reserve_cases s policy op g requested Hinv Hreq) as [(? & ? & message & ->)|(r & -> & Ho)].
  - split; [by exists message|done].
  - destruct Ho as [?|[(? & ? & ? & _ & _ & _ & ? & _)|(? & ? & (? & _ & _ & ? & ?))]]; tauto.
Qed.

(** A request that asks a negative amount of one of its budgets. *)
Definition sample_negative : option (dict string Z) := Some (Dict [("tokens", -1)]).

(** A granted request, and one that raises. *)
Lemma reserve_all_or_nothing_witness :
  (match reserve_participant_resources sample_ready sample_policy "act-1" 0 None with
  | Ok r =>
      (reserved_before (maps_of sample_ready) sample_policy "act-1" /\ r = Applied true sample_ready []) \/
      (~ reserved_before (maps_of sample_ready) sample_policy "act-1" /\ success r = true /\
       (forall d, d ∈ pol_resource_demands sample_policy -> exists b p, bs_state_ref b = demand_ref sample_policy d /\
          grantable (Request sample_ready sample_policy "act-1" 0) (maps_of sample_ready) b p (asked None d)) /\
       usage_moves (maps_of sample_ready) (maps_of (ar_snapshot r))
         (fun ref => (fun d => (asked None d, 0)) <$> demand_on sample_policy (pol_resource_demands sample_policy) ref)) \/
      (~ reserved_before (maps_of sample_ready) sample_policy "act-1" /\ success r = false /\
       (exists d, d ∈ pol_resource_demands sample_policy /\ refused (Request sample_ready sample_policy "act-1" 0) (maps_of sample_ready) d (asked None d)) /\
       pool_states (ar_snapshot r) = pool_states sample_ready /\
       forall ref, usage_of (maps_of (ar_snapshot r)) ref = usage_of (maps_of sample_ready) ref)
  | Raise e =>
      (exists message, e = ValueError message) /\ ~ reserved_before (maps_of sample_ready) sample_policy "act-1" /\
      exists d, d ∈ pol_resource_demands sample_policy /\ out_of_range (asked None d)
  end) /\
  (match reserve_participant_resources sample_ready sample_policy "act-1" 0 sample_negative with
  | Ok r =>
      (reserved_before (maps_of sample_ready) sample_policy "act-1" /\ r = Applied true sample_ready []) \/
      (~ reserved_before (maps_of sample_ready) sample_policy "act-1" /\ success r = true /\
       (forall d, d ∈ pol_resource_demands sample_policy -> exists b p, bs_state_ref b = demand_ref sample_policy d /\
          grantable (Request sample_ready sample_policy "act-1" 0) (maps_of sample_ready) b p (asked sample_negative d)) /\
       usage_moves (maps_of sample_ready) (maps_of (ar_snapshot r))
         (fun ref => (fun d => (asked sample_negative d, 0)) <$> demand_on sample_policy (pol_resource_demands sample_policy) ref)) \/
      (~ reserved_before (maps_of sample_ready) sample_policy "act-1" /\ success r = false /\
       (exists d, d ∈ pol_resource_demands sample_policy /\ refused (Request sample_ready sample_policy "act-1" 0) (maps_of sample_ready) d (asked sample_negative d)) /\
       pool_states (ar_snapshot r) = pool_states sample_ready /\
       forall ref, usage_of (maps_of (ar_snapshot r)) ref = usage_of (maps_of sample_ready) ref)
  | Raise e =>
      (exists message, e = ValueError message) /\ ~ reserved_before (maps_of sample_ready) sample_policy "act-1" /\
      exists d, d ∈ pol_resource_demands sample_policy /\ out_of_range (asked sample_negative d)
  end).
Proof.
  assert (request_formed (maps_of sample_ready) sample_policy "act-1") as Hreq.
  { apply sample_request_ok; [done|]. intros d Hd. vm_decide. }
  split.
  - apply (reserve_all_or_nothing sample_ready sample_policy "act-1" 0 None sample_ready_inv Hreq).
  - apply (reserve_all_or_nothing sample_ready sample_policy "act-1" 0 sample_negative sample_ready_inv Hreq).
Defined.

(** The negative amount does raise. *)
Example sample_negative_raises :
  reserve_participant_resources sample_ready sample_policy "act-1" 0 sample_negative =
  Raise (ValueError "requested participant resource quantities must be non-negative").
Proof. vm_compute. reflexivity. Qed.

Lemma sample_step_reserve : ledger_step sample_ready sample_reserved.
Proof.
  rewrite <-(applied_snapshot true sample_reserved []).
  apply (step_reserve sample_ready sample_policy "act-1" 0 None (Applied true sample_reserved [])).
  - apply sample_request_ok; [done|]. intros d Hd. by intros ?%not_elem_of_nil.
  - vm_compute. reflexivity.
Qed.

Lemma sample_reserved_inv : ledger_inv (maps_of sample_reserved).
Proof.
  apply (ledger_reachable_inv sample_start); [done|].
  eapply rtc_l; [exact sample_step_initialize|]. apply rtc_once, sample_step_reserve.
Qed.

Lemma sample_operation_open : operation_open (maps_of sample_reserved) "act-1" 0.
Proof.
  intros e He. apply list_elem_of_filter in He as [_ He].
  cbn [maps_of mx_events budget_events sample_reserved dict_values dict_items snd fmap list_fmap] in He.
  rewrite !elem_of_cons in He.
  destruct He as [-> |[-> |He]]; [| |by apply not_elem_of_nil in He];
    (split; [done|]; split; [vm_decide|]; split; [vm_decide|]; by eexists _, _).
Qed.

Definition sample_measures : dict string Z := Dict [(rate_ref, 1); (tokens_ref, 250)].

Lemma sample_measured : measured_exactly (maps_of sample_reserved) "act-1" 0 sample_measures.
Proof.
  assert (reservations_of (budget_events sample_reserved) "act-1" = dict_values (budget_events sample_reserved)) as Hres
    by (vm_compute; reflexivity).
  assert (forall e x, e ∈ reservations_of (budget_events sample_reserved) "act-1" ->
    sample_measures !! ev_budget_state_ref e = Some x -> 0 <= x <= ev_requested e /\
    forall R U, usage_of (maps_of sample_reserved) (ev_budget_state_ref e) = Some (0, R, U) -> U = 0 /\ x <= 300) as Hall.
  { rewrite Hres. intros e x He.
    cbn [budget_events sample_reserved dict_values dict_items snd fmap list_fmap] in He. rewrite !elem_of_cons in He.
    destruct He as [-> |[-> |He]]; [| |by apply not_elem_of_nil in He]; intros Hx; vm_compute in Hx; injection Hx as <-;
      (split; [cbn [ev_requested]; lia|]); intros R U Hu; vm_compute in Hu; injection Hu as _ <-; lia. }
  constructor; [constructor|]; cbn [maps_of mx_events].
  - intros r. rewrite Hres.
    assert (dict_keys sample_measures = ev_budget_state_ref <$> dict_values (budget_events sample_reserved)) as ->
      by (vm_compute; reflexivity).
    rewrite list_elem_of_fmap. split; intros (e & ? & ?); exists e; split; congruence.
  - intros e x He Hx. by apply Hall.
  - intros e x R U He Hx Hu. destruct (Hall e x He Hx) as [_ Hr]. destruct (Hr R U Hu) as [-> ?]. unfold max_amount. lia.
Qed.

Definition sample_settled : RuntimeSnapshot unit := Eval vm_compute in
  ok_snapshot (commit_participant_resource_reservation sample_reserved "act-1" 0 sample_measures ["evidence:1"]).

Lemma sample_step_commit : ledger_step sample_reserved sample_settled.
Proof.
  rewrite <-(applied_snapshot true sample_settled []).
  apply (step_commit sample_reserved "act-1" 0 sample_measures ["evidence:1"] (Applied true sample_settled [])).
  - done.
  - split; vm_decide.
  - done.
  - exact sample_operation_open.
  - exact sample_measured.
  - vm_decide.
  - vm_compute. reflexivity.
Qed.

(** C5: over any sequence of ledger operations that keeps the callers' protocol,
    starting from an empty ledger, no pool is allocated beyond its capacity,
    allocations without protection stay clear of the protected capacity, no budget
    exceeds its limit, and what a budget reserves is the sum of its reservations
    that are neither committed nor released. The protocol ([ledger_step]): valid
    capacities and policies are initialized, again only with the same capacities;
    a reservation asks amounts of distinct budgets in distinct pools, under an
    operation that reserved all of them before or none; an operation is settled
    while it is open, that is once, and in the generation it reserved in; a commit
    measures every reservation, by no more than was reserved and within the
    largest use a budget can count; evidence references are non-empty and
    distinct, a commit has some; and a reconciliation moves to a later generation.
    Outside the protocol the bounds can fail ([release_after_commit_undercounts]). *)
Theorem ledger_capacity_safe {O} (s0 s : RuntimeSnapshot O) :
  ledger_empty s0 -> rtc ledger_step s0 s ->
  (forall ref p, pool_states s !! ref = Some p ->
     pool_allocated_total p <= ps_capacity p /\ pool_unprotected p <= ps_capacity p - ps_protected_capacity p) /\
  (forall ref b, budget_states s !! ref = Some b ->
     used_capacity b <= bs_limit b /\ used_capacity b <= bs_configured_capacity b /\
     bs_reserved b = outstanding (budget_events s) ref (bs_generation b)).
Proof.
  intros H0 Hrtc. pose proof (ledger_reachable_inv s0 s H0 Hrtc) as Hinv. split.
  - intros ref p Hp. by destruct (li_pool _ Hinv _ _ Hp) as (_ & (_ & _ & ?) & _ & ?).
  - intros ref b Hb. destruct (li_state _ Hinv _ _ Hb) as (_ & _ & _ & _ & _ & ? & ?).
    split_and!; [done|done|]. by apply (li_reserved _ Hinv).
Qed.

(** A run that initializes, reserves and commits. *)
Lemma ledger_capacity_safe_witness :
  (forall ref p, pool_states sample_settled !! ref = Some p ->
     pool_allocated_total p <= ps_capacity p /\ pool_unprotected p <= ps_capacity p - ps_protected_capacity p) /\
  (forall ref b, budget_states sample_settled !! ref = Some b ->
     used_capacity b <= bs_limit b /\ used_capacity b <= bs_configured_capacity b /\
     bs_reserved b = outstanding (budget_events sample_settled) ref (bs_generation b)).
Proof.
  apply (ledger_capacity_safe sample_start sample_settled); [done|].
  eapply rtc_l; [exact sample_step_initialize|]. eapply rtc_l; [exact sample_step_reserve|]. apply rtc_once, sample_step_commit.
Defined.

(** C7: committing an open operation with an exact measurement vector takes
    its reservations off its budgets, adds the measured use and touches no
    other budget; committing it again changes nothing. *)
Theorem commit_exactly_once {O} (s : RuntimeSnapshot O) op g measured evidence :
  ledger_inv (maps_of s) -> op <> "" -> evidence_ok evidence -> evidence <> [] ->
  reservations_of (budget_events s) op <> [] ->
  operation_open (maps_of s) op g -> measured_exactly (maps_of s) op g measured ->
  exists s', commit_participant_resource_reservation s op g measured evidence = Ok (Applied true s' []) /\
    usage_moves (maps_of s) (maps_of s')
      (fun ref => (fun e => (- ev_requested e, measure_of measured e)) <$> reservation_on (budget_events s) op ref) /\
    commit_participant_resource_reservation s' op g measured evidence = Ok (Applied true s' []).
Proof.
  intros Hinv Hop Hev Hne Hres Hopen Hm.
  destruct (commit_run s op g measured evidence) as (s' & Hrun & Hinv' & _ & Hmoves & Hsame & Hdone); [done..|].
  exists s'. split_and!; [done|done|]. apply commit_again; [done|done| | |].
  - destruct (reservations_of (budget_events s) op) as [|e l] eqn:E; [done|]. intros Hnil.
    assert (e ∈ reservations_of (budget_events s') op) as Hin by (apply Hsame; left).
    rewrite Hnil in Hin. by apply not_elem_of_nil in Hin.
  - constructor; cbn [maps_of mx_events].
    + intros r. rewrite (mv_keys _ _ _ (me_vector _ _ _ _ Hm)). cbn [maps_of mx_events]. by setoid_rewrite Hsame.
    + intros e x He Hx. apply Hsame in He. by apply (mv_range _ _ _ (me_vector _ _ _ _ Hm)).
  - intros e He. apply Hdone. by apply Hsame.
Qed.

Lemma commit_exactly_once_witness :
  exists s', commit_participant_resource_reservation sample_reserved "act-1" 0 sample_measures ["evidence:1"] =
      Ok (Applied true s' []) /\
    usage_moves (maps_of sample_reserved) (maps_of s')
      (fun ref => (fun e => (- ev_requested e, measure_of sample_measures e)) <$>
         reservation_on (budget_events sample_reserved) "act-1" ref) /\
    commit_participant_resource_reservation s' "act-1" 0 sample_measures ["evidence:1"] = Ok (Applied true s' []).
Proof.
  apply (commit_exactly_once sample_reserved "act-1" 0 sample_measures ["evidence:1"]).
  - exact sample_reserved_inv.
  - done.
  - split; vm_decide.
  - done.
  - vm_decide.
  - exact sample_operation_open.
  - exact sample_measured.
Defined.

(** Releasing an open operation gives back exactly what it reserved. *)
Theorem release_exact {O} (s : RuntimeSnapshot O) op g evidence :
  ledger_inv (maps_of s) -> op <> "" -> evidence_ok evidence -> operation_open (maps_of s) op g ->
  exists s', release_participant_resource_reservation s op g evidence = Ok (Applied true s' []) /\
    ledger_inv (maps_of s') /\
    usage_moves (maps_of s) (maps_of s')
      (fun ref => (fun e => (- ev_requested e, 0)) <$> reservation_on (budget_events s) op ref).
Proof.
  intros Hinv Hop Hev Hopen. destruct (release_run s op g evidence Hinv Hop Hev Hopen) as (s' & ? & ? & _ & ?). eauto.
Qed.

Lemma release_exact_witness :
  exists s', release_participant_resource_reservation sample_reserved "act-1" 0 ["evidence:1"] = Ok (Applied true s' []) /\
    ledger_inv (maps_of s') /\
    usage_moves (maps_of sample_reserved) (maps_of s')
      (fun ref => (fun e => (- ev_requested e, 0)) <$> reservation_on (budget_events sample_reserved) "act-1" ref).
Proof.
  apply (release_exact sample_reserved "act-1" 0 ["evidence:1"]).
  - exact sample_reserved_inv.
  - done.
  - split; vm_decide.
  - exact sample_operation_open.
Defined.

(** a generation reset refuses a stale generation without a change;
    otherwise every budget of the policy moves to the new generation, drops
    its reservations and clears its use exactly when its reset mode is the
    boundary, and no other budget moves. *)
Theorem generation_reset_exact {O} (s : RuntimeSnapshot O) policy_address current next boundary evidence :
  ledger_inv (maps_of s) -> current < next -> evidence_ok evidence ->
  exists r, reconcile_participant_resource_budgets s policy_address current next boundary evidence = Ok r /\
    (((exists ref b, budget_states s !! ref = Some b /\ bs_policy_address b = policy_address /\ bs_generation b <> current) /\
      success r = false /\ ar_snapshot r = s) \/
     (success r = true /\
      forall ref, usage_of (maps_of (ar_snapshot r)) ref =
        match budget_states s !! ref with
        | Some b => if decide (bs_policy_address b = policy_address) then Some (next, 0, carried b boundary)
                    else Some (bs_generation b, bs_reserved b, bs_cumulative_use b)
        | None => None
        end)).
Proof.
  intros Hinv Hlt Hev.
  destruct (reconcile_run policy_address current next boundary evidence Hlt Hev s Hinv) as (r & Hr & Ho).
  exists r. split; [done|]. destruct Ho as [?|(_ & ? & _ & _ & ?)]; [by left|by right].
Qed.

Lemma generation_reset_exact_witness :
  exists r, reconcile_participant_resource_budgets sample_reserved "policy.alice" 0 1 "time_segment" ["evidence:reset"] = Ok r /\
    (((exists ref b, budget_states sample_reserved !! ref = Some b /\ bs_policy_address b = "policy.alice" /\
        bs_generation b <> 0) /\ success r = false /\ ar_snapshot r = sample_reserved) \/
     (success r = true /\
      forall ref, usage_of (maps_of (ar_snapshot r)) ref =
        match budget_states sample_reserved !! ref with
        | Some b => if decide (bs_policy_address b = "policy.alice") then Some (1, 0, carried b "time_segment")
                    else Some (bs_generation b, bs_reserved b, bs_cumulative_use b)
        | None => None
        end)).
Proof.
  apply (generation_reset_exact sample_reserved "policy.alice" 0 1 "time_segment" ["evidence:reset"]).
  - exact sample_reserved_inv.
  - lia.
  - split; vm_decide.
Defined.

(** Initialization never raises on admissible policies; it succeeds
    exactly when every demand has an exact pool with its protected capacity and
    no budget of another generation, adding empty budgets only; a refusal
    leaves the snapshot as it was. *)
Theorem initialize_exact {O} (s : RuntimeSnapshot O) policies configured g :
  0 <= g -> configuration_ok configured -> ledger_inv (maps_of s) -> pools_configured configured (pool_states s) ->
  (forall policy, policy ∈ policies -> policy_fits configured policy) ->
  exists r, initialize_participant_resource_budgets s policies configured g = Ok r /\
    (((exists policy d, (policy, d) ∈ wanted_demands policies /\ ~ initializable s g configured policy d) /\
      success r = false /\ ar_snapshot r = s) \/
     (success r = true /\ ledger_inv (maps_of (ar_snapshot r)) /\
      (forall policy d, (policy, d) ∈ wanted_demands policies -> initializable s g configured policy d /\
         exists b, budget_states (ar_snapshot r) !! demand_ref policy d = Some b /\ bs_generation b = g) /\
      forall ref, match budget_states s !! ref with
        | Some b => budget_states (ar_snapshot r) !! ref = Some b
        | None => forall u, usage_of (maps_of (ar_snapshot r)) ref = Some u -> u = (g, 0, 0)
        end)).
Proof.
  intros Hg Hc Hinv Hp Hf. destruct (initialize_run s g configured Hg Hc policies Hinv Hp Hf) as (r & Hr & Ho).
  exists r. split; [done|]. destruct Ho as [?|(? & ? & _ & _ & ? & ?)]; [by left|by right].
Qed.

Lemma initialize_exact_witness :
  exists r, initialize_participant_resource_budgets sample_start [sample_policy] sample_configuration 0 = Ok r /\
    (((exists policy d, (policy, d) ∈ wanted_demands [sample_policy] /\
        ~ initializable sample_start 0 sample_configuration policy d) /\
      success r = false /\ ar_snapshot r = sample_start) \/
     (success r = true /\ ledger_inv (maps_of (ar_snapshot r)) /\
      (forall policy d, (policy, d) ∈ wanted_demands [sample_policy] ->
         initializable sample_start 0 sample_configuration policy d /\
         exists b, budget_states (ar_snapshot r) !! demand_ref policy d = Some b /\ bs_generation b = 0) /\
      forall ref, match budget_states sample_start !! ref with
        | Some b => budget_states (ar_snapshot r) !! ref = Some b
        | None => forall u, usage_of (maps_of (ar_snapshot r)) ref = Some u -> u = (0, 0, 0)
        end)).
Proof.
  apply (initialize_exact sample_start [sample_policy] sample_configuration 0).
  - lia.
  - exact sample_configuration_ok.
  - exact ledger_inv_empty.
  - intros c p _ Hp. discriminate Hp.
  - intros policy Hp. apply list_elem_of_singleton in Hp as ->. exact sample_policy_fits.
Defined.

(** ** Pool identity *)

Lemma owner_kind_str_inj k1 k2 : owner_kind_str k1 = owner_kind_str k2 -> k1 = k2.
Proof. by destruct k1, k2. Qed.

Lemma resource_kind_str_inj k1 k2 : resource_kind_str k1 = resource_kind_str k2 -> k1 = k2.
Proof. by destruct k1, k2. Qed.

Lemma accounting_mode_str_inj m1 m2 : accounting_mode_str m1 = accounting_mode_str m2 -> m1 = m2.
Proof. by destruct m1, m2. Qed.

(** the reference of a physical pool identifies it: budgets of two
    policies are charged to one pool only when the pool name, owner, resource,
    unit, accounting mode and meter agree, unless two canonical texts collide
    under SHA-256. *)
Theorem pool_ref_identifies (s1 s2 : ParticipantResourceBudgetState) :
  pool_ref_for_state s1 = pool_ref_for_state s2 ->
  (bs_pool_ref s1 = bs_pool_ref s2 /\ bs_owner_kind s1 = bs_owner_kind s2 /\ bs_owner_ref s1 = bs_owner_ref s2 /\
   bs_resource_kind s1 = bs_resource_kind s2 /\ bs_unit s1 = bs_unit s2 /\
   bs_accounting_mode s1 = bs_accounting_mode s2 /\ bs_meter_profile_ref s1 = bs_meter_profile_ref s2) \/
  exists t1 t2, t1 <> t2 /\ sha256_hex t1 = sha256_hex t2.
Proof.
  unfold pool_ref_for_state, participant_resource_pool_state_ref. intros H%string_app_inj_l.
  match type of H with sha256_hex ?a = sha256_hex ?b => destruct (decide (a = b)) as [He|]; [left|right; by exists a, b] end.
  apply json_strings_injective in He. injection He as ? Ho ? Hk ? Hm ?.
  split_and!; [done|by apply owner_kind_str_inj|done|by apply resource_kind_str_inj|done|
    by apply accounting_mode_str_inj|done].
Qed.

Lemma pool_ref_identifies_witness :
  (bs_pool_ref sample_rate = bs_pool_ref sample_rate /\ bs_owner_kind sample_rate = bs_owner_kind sample_rate /\
   bs_owner_ref sample_rate = bs_owner_ref sample_rate /\
   bs_resource_kind sample_rate = bs_resource_kind sample_rate /\ bs_unit sample_rate = bs_unit sample_rate /\
   bs_accounting_mode sample_rate = bs_accounting_mode sample_rate /\
   bs_meter_profile_ref sample_rate = bs_meter_profile_ref sample_rate) \/
  exists t1 t2, t1 <> t2 /\ sha256_hex t1 = sha256_hex t2.
Proof. apply (pool_ref_identifies sample_rate sample_rate). reflexivity. Defined.

(** ** Releasing after a commit *)

Definition sample_reserved_twice : RuntimeSnapshot unit := Eval vm_compute in
  ok_snapshot (reserve_participant_resources sample_reserved sample_policy "act-2" 0 None).

Definition sample_committed : RuntimeSnapshot unit := Eval vm_compute in
  ok_snapshot (commit_participant_resource_reservation sample_reserved_twice "act-1" 0 sample_measures ["evidence:1"]).

Definition sample_released : RuntimeSnapshot unit := Eval vm_compute in
  ok_snapshot (release_participant_resource_reservation sample_committed "act-1" 0 ["evidence:2"]).

(** release does not exclude an operation that was committed: it takes
    the committed reservation off the budget a second time, so the outstanding
    reservation of another operation is no longer counted. *)
Theorem release_after_commit_undercounts :
  release_participant_resource_reservation sample_committed "act-1" 0 ["evidence:2"] =
    Ok (Applied true sample_released []) /\
  usage_of (maps_of sample_committed) rate_ref = Some (0, 2, 1) /\
  usage_of (maps_of sample_released) rate_ref = Some (0, 0, 1) /\
  outstanding (budget_events sample_released) rate_ref 0 = 2.
Proof. split_and!; vm_compute; reflexivity. Qed.
