(* ===== verification/ResourcePolicySpec.v ===== *)
(** What an accepted budget policy guarantees: complete, resolved, acyclic,
    within its parents' limits and free of aliases; and nothing else is
    refused. *)
From S2P Require Import Prelude.
From S2P Require Import Contracts.
From S2P Require Import ResourceTypes.
From S2P Require Import ResourceModel.
From S2P Require Import ResourcePolicy.
Local Open Scope string_scope.
Local Open Scope list_scope.
Local Open Scope Z_scope.

(** ** The specification *)

(** [d] names [p] as its parent. *)
Definition parent_of (demands : list ParticipantResourceBudgetDemand) (x y : string) : Prop :=
  exists d, d ∈ demands /\ bd_budget_id d = x /\ bd_parent_budget_ref d = Some y.

Definition children_of (demands : list ParticipantResourceBudgetDemand) (p : string)
    : list ParticipantResourceBudgetDemand :=
  base.filter (fun d => bd_parent_budget_ref d = Some p) demands.

Definition within_parent (d p : ParticipantResourceBudgetDemand) : Prop :=
  quantity_identity (bd_quantity d) = quantity_identity (bd_quantity p) /\ bd_limit d <= bd_limit p.

Record budget_policy_ok (owners : list ParticipantResourceOwner) (demands : list ParticipantResourceBudgetDemand)
    (required : list resource_kind) : Prop := {
  bpo_owner_ids : NoDup (owner_id <$> owners);
  bpo_budget_ids : NoDup (bd_budget_id <$> demands);
  bpo_complete k : k ∈ required -> exists d, d ∈ demands /\ q_resource_kind (bd_quantity d) = k;
  bpo_owned d : d ∈ demands -> bd_owner d ∈ owners;
  bpo_parents d p : d ∈ demands -> bd_parent_budget_ref d = Some p ->
    exists pd, pd ∈ demands /\ bd_budget_id pd = p /\ within_parent d pd;
  bpo_acyclic : acyclic (parent_of demands);
  bpo_siblings pd : pd ∈ demands -> children_of demands (bd_budget_id pd) <> [] ->
    py_sum (bd_limit <$> children_of demands (bd_budget_id pd)) <= bd_limit pd;
  bpo_pools : NoDup (demand_pool_key <$> demands);
}.

(** ** The walk to the root *)

Section walk.
Context (demands : dict string ParticipantResourceBudgetDemand).
Hypothesis closed : forall x d p, demands !! x = Some d -> bd_parent_budget_ref d = Some p -> p ∈ dict_keys demands.

Definition steps_to (x y : string) : Prop :=
  exists d, demands !! x = Some d /\ bd_parent_budget_ref d = Some y.

(** The parents of [x] end at a root, each within its parent. *)
Inductive rooted : string -> Prop :=
| rooted_root x d : demands !! x = Some d -> bd_parent_budget_ref d = None -> rooted x
| rooted_child x d p pd : demands !! x = Some d -> bd_parent_budget_ref d = Some p -> demands !! p = Some pd ->
    within_parent d pd -> rooted p -> rooted x.

Lemma rooted_parent x d p : demands !! x = Some d -> bd_parent_budget_ref d = Some p -> rooted x ->
  exists pd, demands !! p = Some pd /\ within_parent d pd /\ rooted p.
Proof. intros Hd Hp Hr. inversion Hr; simplify_eq. eauto. Qed.

Lemma rooted_no_cycle x : rooted x -> ~ tc steps_to x x.
Proof.
  assert (forall x y, rooted x -> tc steps_to x y -> rooted y) as Hmove.
  { clear x. intros x y Hr Htc. induction Htc as [x y (d & Hd & Hp)|x y z (d & Hd & Hp) _ IH];
      destruct (rooted_parent x d y Hd Hp Hr) as (? & _ & _ & ?); auto. }
  induction 1 as [x d Hd Hp|x d p pd Hd Hp Hpd Hw Hr IH]; intros Htc; inversion Htc as [? ? (d' & Hd' & Hp')|? y ? (d' & Hd' & Hp') Hyx]; simplify_eq.
  - apply IH. apply tc_once. by exists d.
  - apply IH. eapply tc_r; [done|]. by exists d.
Qed.

Lemma visit_demand_spec fuel : forall x vi ve,
  x ∈ dict_keys demands -> (forall v, v ∈ vi -> v ∈ dict_keys demands /\ tc steps_to v x) ->
  (forall v, v ∈ ve -> rooted v) -> (length (dict_keys demands) <= fuel + size vi)%nat -> dict_wf demands ->
  (rooted x /\ exists ve', visit_demand fuel demands x (vi, ve) = Ok (vi, ve') /\ (forall v, v ∈ ve' -> rooted v)) \/
  (~ rooted x /\ exists message, visit_demand fuel demands x (vi, ve) = Raise (ValueError message)).
Proof.
  induction fuel as [|fuel IH]; intros x vi ve Hx Hvi Hve Hfuel Hwf; cbn [visit_demand];
    (destruct (decide (x ∈ vi)) as [Hin|Hin];
      [right; split; [intros Hr; apply (rooted_no_cycle x Hr), Hvi, Hin|by eexists]|]);
    (destruct (decide (x ∈ ve)) as [Hdone|Hdone]; [left; eauto|]).
  - exfalso. assert (size ({[x]} ∪ vi) <= length (dict_keys demands))%nat as Hsize.
    { rewrite <-(size_list_to_set (C := gset string) (dict_keys demands)) by done. apply subseteq_size.
      intros v. rewrite elem_of_union, elem_of_singleton, elem_of_list_to_set. intros [->|Hv]; [done|].
      by destruct (Hvi v Hv). }
    rewrite size_union, size_singleton in Hsize by set_solver. lia.
  - destruct (proj2 (dict_get_is_Some x demands) Hx) as [d Hd].
    rewrite (proj2 (dict_index_Ok demands x d) Hd). cbn [mbind result_bind].
    destruct (bd_parent_budget_ref d) as [p|] eqn:Hp; cbn [mbind result_bind fst snd].
    2:{ left. split; [by eapply rooted_root|]. eexists. split; [do 2 f_equal; set_solver|].
        intros v [->%elem_of_singleton|Hv]%elem_of_union; [by eapply rooted_root|by apply Hve]. }
    pose proof (closed x d p Hd Hp) as Hpk. destruct (proj2 (dict_get_is_Some p demands) Hpk) as [pd Hpd].
    rewrite (proj2 (dict_index_Ok demands p pd) Hpd). cbn [mbind result_bind].
    assert (forall P : Prop, ~ within_parent d pd -> ~ (rooted x /\ P)) as Hbad.
    { intros P Hw [Hr _]. destruct (rooted_parent x d p Hd Hp Hr) as (pd' & Hpd' & Hw' & _). congruence. }
    case_bool_decide as Hq; cbn [raise_if mbind result_bind].
    { right. split; [|by eexists]. intros Hr. by apply (Hbad True); [intros [? _]|]. }
    destruct (bd_limit pd <? bd_limit d) eqn:Hl; cbn [raise_if mbind result_bind].
    { right. split; [|by eexists]. intros Hr. apply (Hbad True); [intros [_ ?]; lia|done]. }
    assert (within_parent d pd) as Hw by (split; [by destruct (decide (quantity_identity (bd_quantity d) = quantity_identity (bd_quantity pd)))|lia]).
    destruct (IH p ({[x]} ∪ vi) ve) as [(Hr & ve' & Hrun & Hve')|(Hr & msg & Hrun)]; [done| |done| |done|..].
    + intros v. rewrite elem_of_union, elem_of_singleton. intros [->|Hv].
      * split; [done|]. apply tc_once. by exists d.
      * destruct (Hvi v Hv) as [? Hvx]. split; [done|]. eapply tc_r; [done|]. by exists d.
    + rewrite size_union, size_singleton by set_solver. lia.
    + rewrite Hrun. cbn [mbind result_bind fst snd].
      assert (rooted x) as Hrx by by eapply rooted_child. left. split; [done|]. eexists.
      split; [do 2 f_equal; set_solver|]. intros v [->%elem_of_singleton|Hv]%elem_of_union; [done|by apply Hve'].
    + rewrite Hrun. right. split; [|by eexists]. intros Hrx. by destruct (rooted_parent x d p Hd Hp Hrx) as (_ & _ & _ & ?).
Qed.
End walk.

(** ** The checks over all demands *)

Section all_demands.
Context (demands : dict string ParticipantResourceBudgetDemand).
Hypothesis closed : forall x d p, demands !! x = Some d -> bd_parent_budget_ref d = Some p -> p ∈ dict_keys demands.
Hypothesis demands_wf : dict_wf demands.

Lemma visit_all_spec l : forall ve, l ⊆ dict_keys demands -> (forall v, v ∈ ve -> rooted demands v) ->
  ((forall x, x ∈ l -> rooted demands x) /\
   exists st, mfold (fun st x => visit_demand (length (dict_keys demands)) demands x st) (∅, ve) l = Ok st) \/
  (~ (forall x, x ∈ l -> rooted demands x) /\
   exists message, mfold (fun st x => visit_demand (length (dict_keys demands)) demands x st) (∅, ve) l =
     Raise (ValueError message)).
Proof.
  induction l as [|x l IH]; intros ve Hl Hve; cbn [mfold].
  - left. split; [by intros x ?%not_elem_of_nil|by eexists].
  - destruct (visit_demand_spec demands closed (length (dict_keys demands)) x ∅ ve)
      as [(Hr & ve' & -> & Hve')|(Hr & msg & ->)]; [set_solver|set_solver|done|lia|done|..]; cbn [mbind result_bind].
    + destruct (IH ve') as [(Hall & st & ->)|(Hall & msg & ->)]; [set_solver|done|left|right].
      * split; [|by eexists]. intros y [->|Hy]%elem_of_cons; [done|by apply Hall].
      * split; [|by eexists]. intros H. apply Hall. intros y Hy. apply H. by right.
    + right. split; [|by eexists]. intros H. apply Hr, H. left.
Qed.

(** Every chain of parents is rooted exactly when the parents are acyclic and
    every demand stays within its parent. *)
Lemma rooted_all :
  (forall x, x ∈ dict_keys demands -> rooted demands x) <->
  acyclic (steps_to demands) /\
  (forall x d p pd, demands !! x = Some d -> bd_parent_budget_ref d = Some p -> demands !! p = Some pd -> within_parent d pd).
Proof.
  split.
  - intros Hall. split.
    + intros x Hx. assert (x ∈ dict_keys demands) as Hk.
      { apply dict_get_is_Some. inversion Hx as [? ? (d & Hd & _)|? ? ? (d & Hd & _) _]; by exists d. }
      by apply (rooted_no_cycle demands x); [apply Hall|].
    + intros x d p pd Hd Hp Hpd. assert (x ∈ dict_keys demands) as Hk by (apply dict_get_is_Some; by exists d).
      destruct (rooted_parent demands x d p Hd Hp (Hall x Hk)) as (pd' & ? & ? & _). congruence.
  - intros [Hac Hw]. assert (forall l, l ⊆ dict_keys demands ->
      exists X : list string, forall x, x ∈ X <-> x ∈ l /\ ~ rooted demands x) as HX.
    { induction l as [|x l IH]; intros Hl; [exists []; set_solver|]. destruct IH as [X HX]; [set_solver|].
      destruct (visit_demand_spec demands closed (length (dict_keys demands)) x ∅ ∅) as [(Hr & _)|(Hr & _)];
        [set_solver|set_solver|set_solver|lia|done|exists X|exists (x :: X)]; intros y; rewrite ?elem_of_cons, HX; naive_solver. }
    destruct (HX (dict_keys demands)) as [X HXs]; [done|]. intros x Hx.
    destruct (visit_demand_spec demands closed (length (dict_keys demands)) x ∅ ∅) as [(Hr & _)|(Hr & _)];
      [done|set_solver|set_solver|lia|done|done|].
    exfalso. apply (acyclic_minimal (steps_to demands) X Hac).
    { intros ->. destruct (HXs x) as [_ HXx]. by destruct (not_elem_of_nil x (HXx (conj Hx Hr))). }
    intros y [Hy Hny]%HXs. destruct (proj2 (dict_get_is_Some y demands) Hy) as [d Hd].
    destruct (bd_parent_budget_ref d) as [p|] eqn:Hp; [|by destruct Hny; eapply rooted_root].
    pose proof (closed y d p Hd Hp) as Hpk. destruct (proj2 (dict_get_is_Some p demands) Hpk) as [pd Hpd].
    exists p. split; [apply HXs; split; [done|]|by exists d].
    intros Hrp. apply Hny. eapply rooted_child; eauto.
Qed.
End all_demands.

(** ** Children *)

Lemma children_get l p kids :
  group_by bd_parent_budget_ref l !! p = Some kids <-> kids = children_of l p /\ children_of l p <> [].
Proof. rewrite group_by_get. unfold children_of. destruct (base.filter _ l); naive_solver. Qed.

(** ** Policies *)

Section policy.
Context (owners : list ParticipantResourceOwner) (demands : list ParticipantResourceBudgetDemand).

Abbreviation by_id := (dict_of_list ((fun d => (bd_budget_id d, d)) <$> demands)).

Section named.
Hypothesis ids : NoDup (bd_budget_id <$> demands).

Lemma by_id_keys : ((fun d => (bd_budget_id d, d)) <$> demands).*1 = bd_budget_id <$> demands.
Proof. by rewrite <-list_fmap_compose. Qed.

Lemma by_id_get x d : by_id !! x = Some d <-> d ∈ demands /\ bd_budget_id d = x.
Proof.
  rewrite dict_get_Some by apply dict_wf_of_list. rewrite dict_of_list_items by by rewrite by_id_keys.
  rewrite list_elem_of_fmap. naive_solver.
Qed.

Lemma by_id_values : dict_values by_id = demands.
Proof.
  unfold dict_values. rewrite dict_of_list_items by by rewrite by_id_keys.
  rewrite <-list_fmap_compose. apply list_fmap_id.
Qed.

Lemma by_id_key x : x ∈ dict_keys by_id <-> exists d, d ∈ demands /\ bd_budget_id d = x.
Proof. rewrite <-dict_get_is_Some. unfold is_Some. by setoid_rewrite by_id_get. Qed.

Hypothesis parents_named : forall d p, d ∈ demands -> bd_parent_budget_ref d = Some p -> p ∈ dict_keys by_id.

Lemma validate_parent_limits_checks :
  checks (validate_parent_limits by_id)
    (acyclic (parent_of demands) /\
     (forall d p, d ∈ demands -> bd_parent_budget_ref d = Some p ->
        exists pd, pd ∈ demands /\ bd_budget_id pd = p /\ within_parent d pd) /\
     (forall pd, pd ∈ demands -> children_of demands (bd_budget_id pd) <> [] ->
        py_sum (bd_limit <$> children_of demands (bd_budget_id pd)) <= bd_limit pd)) tt.
Proof.
  assert (forall x d p, by_id !! x = Some d -> bd_parent_budget_ref d = Some p -> p ∈ dict_keys by_id) as Hclosed.
  { intros x d p [Hd _]%by_id_get. by apply parents_named. }
  assert (forall x y, parent_of demands x y <-> steps_to by_id x y) as Hstep.
  { intros x y. unfold parent_of, steps_to. setoid_rewrite by_id_get. naive_solver. }
  unfold validate_parent_limits.
  destruct (visit_all_spec by_id Hclosed (dict_wf_of_list _) (dict_keys by_id) ∅) as [(Hall & st & ->)|(Hall & msg & ->)];
    [done|set_solver|..]; rewrite (rooted_all by_id Hclosed (dict_wf_of_list _)) in Hall; cbn [mbind result_bind].
  2:{ right. split; [|by eexists]. intros (Hac & Hw & _). apply Hall. split.
      - intros x Hx. apply (Hac x). by apply (tc_iff _ _ Hstep).
      - intros x d p pd [Hd _]%by_id_get Hp Hpd. destruct (Hw d p Hd Hp) as (pd' & Hin & Hid & ?).
        assert (by_id !! p = Some pd') as Hpd' by by apply by_id_get. congruence. }
  destruct Hall as [Hac Hw].
  assert (checks (mfold (fun _ kv => parent ← dict_index by_id kv.1;
      raise_if (bd_limit parent <? py_sum (bd_limit <$> kv.2))
        (ValueError "resource-budget sibling limits cannot exceed their parent limit"))
      tt (dict_items (children_by_parent by_id)))
    (forall kv, kv ∈ dict_items (children_by_parent by_id) ->
       forall pd, by_id !! kv.1 = Some pd -> py_sum (bd_limit <$> kv.2) <= bd_limit pd) tt) as Hloop.
  { apply checks_fold. intros [p l] Hkv. cbn [fst snd].
    apply (dict_get_Some p l _ (group_by_wf _ _)) in Hkv. rewrite by_id_values, children_get in Hkv.
    destruct Hkv as [-> Hne].
    assert (p ∈ dict_keys by_id) as Hp.
    { destruct (children_of demands p) as [|c cs] eqn:E; [done|].
      assert (c ∈ children_of demands p) as [Hc Hcin]%list_elem_of_filter by (rewrite E; left).
      by apply (parents_named c). }
    destruct (proj2 (dict_get_is_Some p by_id) Hp) as [pd Hpd].
    rewrite (proj2 (dict_index_Ok by_id p pd) Hpd). cbn [mbind result_bind].
    eapply checks_iff; [|apply checks_raise_if]. rewrite Z.ltb_ge, Hpd. naive_solver. }
  eapply checks_iff; [|exact Hloop]. split.
  - intros Hs. split_and!.
    + intros x Hx. apply (Hac x). by apply (tc_iff _ _ Hstep).
    + intros d p Hd Hp. destruct (proj2 (dict_get_is_Some p by_id) (parents_named d p Hd Hp)) as [pd Hpd].
      exists pd. pose proof (proj1 (by_id_get p pd) Hpd) as [? ?]. split_and!; [done|done|].
      apply (Hw (bd_budget_id d) d p pd); [by apply by_id_get|done|done].
    + intros pd Hpd Hne. apply (Hs (bd_budget_id pd, children_of demands (bd_budget_id pd))); [|by apply by_id_get].
      apply (dict_get_Some _ _ _ (group_by_wf _ _)). by rewrite by_id_values, children_get.
  - intros (_ & _ & Hsib) [p l] Hkv pd Hpd. cbn [fst snd] in *.
    apply (dict_get_Some p l _ (group_by_wf _ _)) in Hkv. rewrite by_id_values, children_get in Hkv.
    destruct Hkv as [-> Hne].
    apply by_id_get in Hpd as [Hin <-]. by apply Hsib.
Qed.
End named.
End policy.

Lemma missing_kinds_nil required demands :
  missing_kinds required demands = [] <->
  forall k, k ∈ required -> exists d, d ∈ demands /\ q_resource_kind (bd_quantity d) = k.
Proof.
  unfold missing_kinds. rewrite py_sorted_nil. split.
  - intros Hnil%fmap_nil_inv k Hk. destruct (decide (k ∈ (fun d => q_resource_kind (bd_quantity d)) <$> demands)) as [Hin|Hnin].
    + apply list_elem_of_fmap in Hin as (d & -> & ?). by exists d.
    + exfalso. eapply (not_elem_of_nil (A := resource_kind)). rewrite <-Hnil. by apply list_elem_of_filter.
  - intros Hall. destruct (base.filter _ required) as [|k l] eqn:E; [done|exfalso].
    assert (k ∈ k :: l) as Hk by left. rewrite <-E in Hk. apply list_elem_of_filter in Hk as [Hno Hk].
    destruct (Hall k Hk) as (d & Hd & <-). apply Hno. apply list_elem_of_fmap. by exists d.
Qed.

Lemma owners_get (owners : list ParticipantResourceOwner) o :
  NoDup (owner_id <$> owners) ->
  dict_of_list ((fun o => (owner_id o, o)) <$> owners) !! owner_id o = Some o <-> o ∈ owners.
Proof.
  intros Hnd. rewrite dict_get_Some by apply dict_wf_of_list.
  rewrite dict_of_list_items by by rewrite <-list_fmap_compose. rewrite list_elem_of_fmap. naive_solver.
Qed.

Lemma validate_budget_policy_checks owners demands required :
  checks (validate_budget_policy owners demands required) (budget_policy_ok owners demands required) tt.
Proof.
  set (owned := forall d, d ∈ demands -> bd_owner d ∈ owners).
  set (named := forall d p, d ∈ demands -> bd_parent_budget_ref d = Some p ->
    exists pd, pd ∈ demands /\ bd_budget_id pd = p).
  set (limits := acyclic (parent_of demands) /\
     (forall d p, d ∈ demands -> bd_parent_budget_ref d = Some p ->
        exists pd, pd ∈ demands /\ bd_budget_id pd = p /\ within_parent d pd) /\
     (forall pd, pd ∈ demands -> children_of demands (bd_budget_id pd) <> [] ->
        py_sum (bd_limit <$> children_of demands (bd_budget_id pd)) <= bd_limit pd)).
  apply (checks_iff _ (NoDup (owner_id <$> owners) /\ NoDup (bd_budget_id <$> demands) /\
    missing_kinds required demands = [] /\ (owned /\ named) /\ limits /\ NoDup (demand_pool_key <$> demands))).
  { rewrite missing_kinds_nil. split.
    - intros (? & ? & ? & (? & _) & (? & ? & ?) & ?). by constructor.
    - intros []. split_and!; try done. intros d p Hd Hp. destruct (bpo_parents0 d p Hd Hp) as (pd & ? & ? & _). eauto. }
  unfold validate_budget_policy.
  apply checks_and; [eapply checks_iff; [|apply checks_raise_if]; rewrite negb_false_iff; apply py_unique_true|intros Howners].
  apply checks_and; [eapply checks_iff; [|apply checks_raise_if]; rewrite negb_false_iff; apply py_unique_true|intros Hids].
  apply checks_and; [eapply checks_iff; [|apply checks_raise_if]; rewrite bool_decide_eq_false; destruct (missing_kinds required demands); naive_solver|intros Hmissing].
  apply checks_and; [|intros [_ Hnamed]].
  { eapply checks_iff; [|apply (checks_fold _ (fun d => bd_owner d ∈ owners /\
        forall p, bd_parent_budget_ref d = Some p -> exists pd, pd ∈ demands /\ bd_budget_id pd = p))]; [unfold owned, named; naive_solver|].
    intros d Hd. unfold require_resolved. apply checks_and.
    - eapply checks_iff; [|apply checks_raise_if]. rewrite bool_decide_eq_false, <-owners_get by done.
      split; [|tauto]. intros H. by destruct (decide (dict_of_list ((fun o => (owner_id o, o)) <$> owners) !! owner_id (bd_owner d) = Some (bd_owner d))).
    - intros _. eapply checks_iff; [|apply checks_raise_if]. destruct (bd_parent_budget_ref d) as [p|]; [|naive_solver].
      rewrite bool_decide_eq_false, by_id_key by done. split.
      + intros H q [= <-]. destruct (decide (Exists (fun pd => bd_budget_id pd = p) demands)) as [He|He].
        * by apply Exists_exists in He as (pd & ? & ?); exists pd.
        * exfalso. apply H. intros (pd & ? & ?). apply He, Exists_exists. eauto.
      + intros H Hn. by apply Hn, H. }
  apply checks_and; [|intros _].
  { apply validate_parent_limits_checks; [done|]. intros d p Hd Hp. apply by_id_key; [done|]. by apply (Hnamed d p). }
  eapply checks_iff; [|apply checks_raise_if]. rewrite negb_false_iff. apply bool_decide_eq_true.
Qed.

(** C8: validation of a budget policy accepts exactly the policies whose
    identifiers are unique, that demand every required resource, whose owners
    and parents resolve, whose parents are acyclic with limits that cover each
    child and the sum of the children, and that never charge one pool twice;
    any other policy is refused with a [ValueError] and no walk runs out of
    steps. *)
Theorem budget_policy_exact owners demands required :
  (budget_policy_ok owners demands required /\ validate_budget_policy owners demands required = Ok tt) \/
  (~ budget_policy_ok owners demands required /\
   exists message, validate_budget_policy owners demands required = Raise (ValueError message)).
Proof. apply validate_budget_policy_checks. Qed.

(** ** A parent and two children, and a cycle *)

Definition sample_owner : ParticipantResourceOwner := Owner "alice" participant "participant.alice".

Definition sample_budget (id pool : string) (limit : Z) (parent : option string) : ParticipantResourceBudgetDemand :=
  BudgetDemand id sample_owner pool (Quantity inference_tokens "tokens" cumulative_counter "meter/v1" limit) limit 1
    episode None parent [] authored.

Example sample_tree :
  validate_budget_policy [sample_owner]
    [sample_budget "team" "p0" 10 None; sample_budget "a" "p1" 6 (Some "team"); sample_budget "b" "p2" 4 (Some "team")]
    [inference_tokens] = Ok tt.
Proof. vm_compute. reflexivity. Qed.

Example sample_overcommitted :
  validate_budget_policy [sample_owner]
    [sample_budget "team" "p0" 10 None; sample_budget "a" "p1" 6 (Some "team"); sample_budget "b" "p2" 5 (Some "team")]
    [inference_tokens] = Raise (ValueError "resource-budget sibling limits cannot exceed their parent limit").
Proof. vm_compute. reflexivity. Qed.

Example sample_cyclic :
  validate_budget_policy [sample_owner]
    [sample_budget "a" "p1" 6 (Some "b"); sample_budget "b" "p2" 6 (Some "a")]
    [inference_tokens] = Raise (ValueError "resource-budget policy parent graph must be acyclic").
Proof. vm_compute. reflexivity. Qed.
