(* ===== verification/ResourceAdmission.v ===== *)
(** Backend admission of resource-governed policies
    ([raes_backend_protocols/participant_resource_admission.py]): the gaps
    between what compiled policies demand and what a backend declares. *)
From S2P Require Import Prelude.
From S2P Require Import Contracts.
From S2P Require Import ResourceTypes.
From S2P Require Import ResourceModel.
From S2P Require Import ResourcePolicy.
From S2P Require Import ResourceLedger.
From stdpp Require Import pretty.
Local Open Scope string_scope.
Local Open Scope list_scope.
Local Open Scope Z_scope.

Definition support_strength_str (s : support_strength) : string :=
  match s with
  | unsupported => "unsupported"
  | disclosed_weak => "disclosed_weak"
  | bounded => "bounded"
  | exact => "exact"
  end.

(** The identity of a physical pool. *)
Definition pool_key : Type := string * owner_kind * string * resource_kind * string * accounting_mode * string.

Definition key_of_pool (p : ParticipantResourcePoolCapacity) : pool_key :=
  (pc_pool_ref p, pc_owner_kind p, pc_owner_ref p, pc_resource_kind p, pc_unit p, pc_accounting_mode p,
   pc_meter_profile_ref p).

Record AdmissionState : Type := Admission {
  ad_gaps : list string;
  ad_limits : dict pool_key Z;
  ad_protected : dict pool_key Z;
  ad_pools : dict pool_key ParticipantResourcePoolCapacity;
}.

Definition required_manifest_contracts : list string :=
  ["participant-resource-budget-policy-v1"; "participant-resource-pool-capacity-v1";
   "participant-resource-budget-state-v1"; "participant-resource-budget-event-v1"].

Definition required_realization_contracts : list string :=
  ["participant-resource-budget-state-v1"; "participant-resource-budget-event-v1"].

(** [sorted(required - declared)]. *)
Definition missing_contracts (required declared : list string) : list string :=
  py_sorted (base.filter (fun c => c ∉ declared) required).

(** One gap when [bad], none otherwise. *)
Definition gap_if (bad : bool) (gap : string) : list string := if bad then [gap] else [].

Definition capability_gaps (contracts : list string) (budgets : ParticipantResourceBudgetCapabilities) : list string :=
  gap_if (bool_decide (cap_support_strength budgets ∉ [bounded; exact]))
    ("participant resource budgets require bounded or exact support; backend declares "
     +:+ support_strength_str (cap_support_strength budgets))
  ++ (let missing := missing_contracts required_manifest_contracts contracts in
      gap_if (bool_decide (missing <> []))
        ("participant resource budgets missing manifest contracts: " +:+ join_comma missing))
  ++ (let missing := missing_contracts required_realization_contracts (cap_realization_contract_ids budgets) in
      gap_if (bool_decide (missing <> []))
        ("participant resource budgets missing realization contracts: " +:+ join_comma missing)).

Definition parent_limit_gaps (policy : ResourcePolicy) : list string :=
  let demands_by_id := dict_of_list ((fun d => (rd_budget_id d, d)) <$> pol_resource_demands policy) in
  let children := group_by rd_parent_budget_ref (pol_resource_demands policy) in
  mjoin ((fun kv =>
    gap_if match demands_by_id !! kv.1 with
           | None => true
           | Some parent => rd_limit parent <? py_sum (rd_limit <$> kv.2)
           end
      ("participant resource budget parent " +:+ kv.1 +:+ " is missing or overcommitted by child limits"))
    <$> dict_items children).

Definition unsupported_attributes (demand : ResourceDemand) (budgets : ParticipantResourceBudgetCapabilities)
    : list string :=
  gap_if (bool_decide (rd_owner_kind demand ∉ cap_owner_kinds budgets))
    ("owner kind " +:+ owner_kind_str (rd_owner_kind demand))
  ++ gap_if (bool_decide (rd_resource_kind demand ∉ cap_resource_kinds budgets))
    ("resource kind " +:+ resource_kind_str (rd_resource_kind demand))
  ++ gap_if (bool_decide (rd_accounting_mode demand ∉ cap_accounting_modes budgets))
    ("accounting mode " +:+ accounting_mode_str (rd_accounting_mode demand))
  ++ gap_if (bool_decide (rd_reset demand ∉ cap_reset_modes budgets))
    ("reset mode " +:+ reset_mode_str (rd_reset demand)).

Definition pool_policy_gaps (demand : ResourceDemand) (fairness : ParticipantResourceFairness)
    (pool : ParticipantResourcePoolCapacity) : list string :=
  let prefix := "participant resource budget " +:+ rd_budget_id demand +:+ " ("
                +:+ resource_kind_str (rd_resource_kind demand) +:+ ")" in
  gap_if (pc_capacity pool <? rd_limit demand)
    (prefix +:+ " requires capacity " +:+ pretty (rd_limit demand) +:+ "; configured capacity is "
     +:+ pretty (pc_capacity pool))
  ++ gap_if (bool_decide (pc_fairness_policy pool <> f_policy fairness))
    (prefix +:+ " requires fairness " +:+ f_policy fairness +:+ "; configured pool declares "
     +:+ pc_fairness_policy pool)
  ++ gap_if (bool_decide (f_priority_class fairness ∉ pc_priority_classes pool))
    (prefix +:+ " requires priority class " +:+ f_priority_class fairness)
  ++ gap_if (bool_decide (pc_borrowing pool <> f_borrowing fairness) || bool_decide (pc_reclaim pool <> f_reclaim fairness))
    (prefix +:+ " fairness borrowing/reclaim does not match configured pool")
  ++ gap_if ((f_max_queue_ticks fairness <? pc_max_queue_ticks pool)
             || (f_starvation_bound_ticks fairness <? pc_starvation_bound_ticks pool))
    (prefix +:+ " configured fairness queue/starvation bounds are weaker than required")
  ++ gap_if (f_protected fairness && (pc_protected_capacity pool <? rd_reservation demand))
    (prefix +:+ " lacks protected capacity").

Definition add_gaps (gaps : list string) (st : AdmissionState) : AdmissionState :=
  Admission (ad_gaps st ++ gaps) (ad_limits st) (ad_protected st) (ad_pools st).

(** [totals[key] = totals.get(key, 0) + amount]. *)
Definition add_amount (key : pool_key) (amount : Z) (totals : dict pool_key Z) : dict pool_key Z :=
  <[key := default 0 (totals !! key) + amount]> totals.

Definition assess_demand (policy : ResourcePolicy) (budgets : ParticipantResourceBudgetCapabilities)
    (s : list pool_key * AdmissionState) (demand : ResourceDemand) : list pool_key * AdmissionState :=
  let '(policy_pool_keys, st) := s in
  match unsupported_attributes demand budgets with
  | (_ :: _) as unsupported =>
      (policy_pool_keys,
       add_gaps ["participant resource budget " +:+ rd_budget_id demand +:+ " unsupported: "
                 +:+ join_comma unsupported] st)
  | [] =>
      match matching_pool demand (cap_configured_pools budgets) with
      | None =>
          (policy_pool_keys,
           add_gaps ["participant resource budget " +:+ rd_budget_id demand +:+ " ("
                     +:+ resource_kind_str (rd_resource_kind demand)
                     +:+ ") has no exact configured owner/unit/accounting/meter capacity"] st)
      | Some pool =>
          let key := key_of_pool pool in
          if decide (key ∈ policy_pool_keys) then
            (policy_pool_keys,
             add_gaps ["participant policy " +:+ pol_address policy +:+ " aliases canonical resource pool "
                       +:+ pc_pool_ref pool] st)
          else
            (key :: policy_pool_keys,
             Admission (ad_gaps st ++ pool_policy_gaps demand (pol_resource_fairness policy) pool)
               (add_amount key (rd_limit demand) (ad_limits st))
               (if f_protected (pol_resource_fairness policy)
                then add_amount key (rd_limit demand) (ad_protected st) else ad_protected st)
               (<[key := pool]> (ad_pools st)))
      end
  end.

Definition assess_policy (budgets : ParticipantResourceBudgetCapabilities) (st : AdmissionState)
    (policy : ResourcePolicy) : AdmissionState :=
  let fairness := pol_resource_fairness policy in
  let st := add_gaps (gap_if (bool_decide (f_policy fairness ∉ cap_fairness_policies budgets))
    ("unsupported participant resource fairness policy: " +:+ f_policy fairness)) st in
  let st := add_gaps (parent_limit_gaps policy) st in
  (foldl (assess_demand policy budgets) ([], st) (pol_resource_demands policy)).2.

Definition aggregate_pool_gap (st : AdmissionState) (item : pool_key * Z) : result (list string) :=
  let '(key, required) := item in
  match ad_pools st !! key with
  | None => Raise (KeyError key.1.1.1.1.1.1)
  | Some pool =>
      let protected := default 0 (ad_protected st !! key) in
      Ok (gap_if (pc_capacity pool <? required)
            ("participant resource pool " +:+ pc_pool_ref pool +:+ " aggregate policy limits require "
             +:+ pretty required +:+ "; configured capacity is " +:+ pretty (pc_capacity pool))
          ++ gap_if (pc_protected_capacity pool <? protected)
            ("participant resource pool " +:+ pc_pool_ref pool +:+ " protected policy limits require "
             +:+ pretty protected +:+ "; configured protected capacity is " +:+ pretty (pc_protected_capacity pool)))
  end.

Definition aggregate_pool_gaps (st : AdmissionState) : result (list string) :=
  gaps ← mmap (aggregate_pool_gap st) (dict_items (ad_limits st));
  Ok (mjoin (gaps : list (list string))).

Definition RESOURCE_GOVERNED_PROFILE : string := "participant-autonomous-execution/v3".

Definition governed_policies (policies : list ResourcePolicy) : list ResourcePolicy :=
  base.filter (fun p => pol_profile p = RESOURCE_GOVERNED_PROFILE) policies.

(** [contracts] is the manifest's [supported_contract_versions] and
    [resource_budgets] the capability's. *)
Definition participant_resource_budget_gaps (contracts : list string)
    (resource_budgets : option ParticipantResourceBudgetCapabilities) (policies : list ResourcePolicy)
    : result (list string) :=
  let governed := governed_policies policies in
  if bool_decide (governed = []) then Ok []
  else
    match resource_budgets with
    | None => Ok ["participant-autonomous-execution/v3 requires resource-budget capabilities"]
    | Some budgets =>
        let st := foldl (assess_policy budgets)
          (Admission (capability_gaps contracts budgets) (Dict []) (Dict []) (Dict [])) governed in
        aggregate ← aggregate_pool_gaps st;
        Ok (ad_gaps st ++ aggregate)
    end.
