(* ===== verification/ResourceAdmissionSpec.v ===== *)
(** Admission decides exactly whether a backend can govern the policies, and
    what it admits initializes. *)
From S2P Require Import Prelude.
From S2P Require Import Contracts.
From S2P Require Import ResourceTypes.
From S2P Require Import ResourceModel.
From S2P Require Import ResourcePolicy.
From S2P Require Import ResourceLedger.
From S2P Require Import ResourceReservation.
From S2P Require Import ResourceFacts.
From S2P Require Import ResourceInvariant.
From S2P Require Import ResourceSteps.
From S2P Require Import ResourceSettle.
From S2P Require Import ResourceRun.
From S2P Require Import ResourceAdmission.
From S2P Require Import ResourceSpec.
Local Open Scope string_scope.
Local Open Scope list_scope.
Local Open Scope Z_scope.

(** ** The specification *)

Definition key_of_demand (d : ResourceDemand) : pool_key :=
  (rd_pool_ref d, rd_owner_kind d, rd_owner_address d, rd_resource_kind d, rd_unit d, rd_accounting_mode d,
   rd_meter_profile_ref d).

(** What the demands [ds] ask of the pool [key] altogether. *)
Definition key_total (key : pool_key) (ds : list ResourceDemand) : Z :=
  py_sum (rd_limit <$> base.filter (fun d => key_of_demand d = key) ds).

Record pool_serves (fairness : ParticipantResourceFairness) (d : ResourceDemand) (c : ParticipantResourcePoolCapacity)
    : Prop := {
  psv_capacity : rd_limit d <= pc_capacity c;
  psv_policy : pc_fairness_policy c = f_policy fairness;
  psv_fits : fairness_fits fairness c;
  psv_protected : f_protected fairness = true -> rd_reservation d <= pc_protected_capacity c;
}.

Record demand_served (budgets : ParticipantResourceBudgetCapabilities) (fairness : ParticipantResourceFairness)
    (d : ResourceDemand) : Prop := {
  ds_owner : rd_owner_kind d ∈ cap_owner_kinds budgets;
  ds_resource : rd_resource_kind d ∈ cap_resource_kinds budgets;
  ds_accounting : rd_accounting_mode d ∈ cap_accounting_modes budgets;
  ds_reset : rd_reset d ∈ cap_reset_modes budgets;
  ds_pool : exists c, matching_pool d (cap_configured_pools budgets) = Some c /\ pool_serves fairness d c;
}.

(** Every named parent exists and covers its children. *)
Definition parents_cover (policy : ResourcePolicy) : Prop :=
  forall p, let kids := base.filter (fun d => rd_parent_budget_ref d = Some p) (pol_resource_demands policy) in
  kids <> [] ->
  exists parent, dict_of_list ((fun d => (rd_budget_id d, d)) <$> pol_resource_demands policy) !! p = Some parent /\
    py_sum (rd_limit <$> kids) <= rd_limit parent.

Record policy_served (budgets : ParticipantResourceBudgetCapabilities) (policy : ResourcePolicy) : Prop := {
  pls_fairness : f_policy (pol_resource_fairness policy) ∈ cap_fairness_policies budgets;
  pls_parents : parents_cover policy;
  pls_demands d : d ∈ pol_resource_demands policy -> demand_served budgets (pol_resource_fairness policy) d;
  pls_distinct : NoDup (key_of_demand <$> pol_resource_demands policy);
}.

Definition protected_policies (policies : list ResourcePolicy) : list ResourcePolicy :=
  base.filter (fun p => f_protected (pol_resource_fairness p) = true) policies.

Definition all_demands (policies : list ResourcePolicy) : list ResourceDemand :=
  mjoin (pol_resource_demands <$> policies).

Record backend_serves (contracts : list string) (budgets : ParticipantResourceBudgetCapabilities)
    (policies : list ResourcePolicy) : Prop := {
  bs_strength : cap_support_strength budgets = bounded \/ cap_support_strength budgets = exact;
  bs_contracts : required_manifest_contracts ⊆ contracts;
  bs_realization : required_realization_contracts ⊆ cap_realization_contract_ids budgets;
  bs_policies policy : policy ∈ policies -> policy_served budgets policy;
  bs_capacity d c : d ∈ all_demands policies -> matching_pool d (cap_configured_pools budgets) = Some c ->
    key_total (key_of_demand d) (all_demands policies) <= pc_capacity c /\
    key_total (key_of_demand d) (all_demands (protected_policies policies)) <= pc_protected_capacity c;
}.

Definition admissible (contracts : list string) (resource_budgets : option ParticipantResourceBudgetCapabilities)
    (policies : list ResourcePolicy) : Prop :=
  governed_policies policies = [] \/
  exists budgets, resource_budgets = Some budgets /\ backend_serves contracts budgets (governed_policies policies).

(** ** Single gaps *)

Lemma gap_if_nil b g : gap_if b g = [] <-> b = false.
Proof. destruct b; done. Qed.

Lemma missing_contracts_nil required declared : missing_contracts required declared = [] <-> required ⊆ declared.
Proof.
  unfold missing_contracts. rewrite py_sorted_nil. split.
  - intros Hn x Hx. destruct (decide (x ∈ declared)) as [|Hno]; [done|exfalso].
    apply (not_elem_of_nil x). rewrite <-Hn. by apply list_elem_of_filter.
  - intros Hs. destruct (base.filter _ required) as [|x l] eqn:E; [done|exfalso].
    assert (x ∈ x :: l) as Hx by left. rewrite <-E in Hx. apply list_elem_of_filter in Hx as [Hno Hx].
    by apply Hno, Hs.
Qed.

Lemma capability_gaps_nil contracts budgets :
  capability_gaps contracts budgets = [] <->
  (cap_support_strength budgets = bounded \/ cap_support_strength budgets = exact) /\
  required_manifest_contracts ⊆ contracts /\ required_realization_contracts ⊆ cap_realization_contract_ids budgets.
Proof.
  unfold capability_gaps. rewrite !app_nil, !gap_if_nil, !bool_decide_not_false, !missing_contracts_nil.
  by rewrite !elem_of_cons, elem_of_nil; tauto.
Qed.

Lemma unsupported_attributes_nil d budgets :
  unsupported_attributes d budgets = [] <->
  rd_owner_kind d ∈ cap_owner_kinds budgets /\ rd_resource_kind d ∈ cap_resource_kinds budgets /\
  rd_accounting_mode d ∈ cap_accounting_modes budgets /\ rd_reset d ∈ cap_reset_modes budgets.
Proof. unfold unsupported_attributes. by rewrite !app_nil, !gap_if_nil, !bool_decide_not_false. Qed.

Lemma pool_policy_gaps_nil d fairness c :
  pool_policy_gaps d fairness c = [] <-> pool_serves fairness d c.
Proof.
  unfold pool_policy_gaps. rewrite !app_nil, !gap_if_nil, !orb_false_iff, andb_false_iff, !Z.ltb_ge,
    !bool_decide_not_false.
  split.
  - intros (? & ? & ? & [? ?] & [? ?] & Hp). constructor; [done|done|by split_and!|].
    intros Ht. destruct Hp; [congruence|done].
  - intros [? ? (? & ? & ? & ? & ?) Hp]. split_and!; try done. destruct (f_protected fairness); [right; by apply Hp|by left].
Qed.

Lemma parent_limit_gaps_nil policy : parent_limit_gaps policy = [] <-> parents_cover policy.
Proof.
  unfold parent_limit_gaps, parents_cover. set (l := pol_resource_demands policy). rewrite mjoin_nil.
  setoid_rewrite list_elem_of_fmap.
  assert (forall p kids, (p, kids) ∈ dict_items (group_by rd_parent_budget_ref l) <->
    kids = base.filter (fun d => rd_parent_budget_ref d = Some p) l /\ kids <> []) as Hkids.
  { intros p kids. rewrite <-dict_get_Some by apply group_by_wf. rewrite group_by_get.
    destruct (base.filter _ l); naive_solver. }
  split.
  - intros H p Hk. specialize (H _ (ex_intro _ (p, _) (conj eq_refl (proj2 (Hkids p _) (conj eq_refl Hk))))).
    apply gap_if_nil in H. cbn [fst snd] in H. destruct (dict_of_list _ !! p) as [parent|]; [|done].
    exists parent. split; [done|]. by apply Z.ltb_ge.
  - intros H x ([p kids] & -> & [-> Hk]%Hkids). apply gap_if_nil. cbn [fst snd].
    destruct (H p Hk) as (parent & -> & ?). by apply Z.ltb_ge.
Qed.

(** ** One demand after the other *)

Lemma matching_key d configured c : matching_pool d configured = Some c -> key_of_pool c = key_of_demand d.
Proof.
  intros (_ & ? & ? & ? & ? & ? & ? & ?)%matching_pool_Some. unfold key_of_pool, key_of_demand. congruence.
Qed.

(** Demands with one key match the same pool. *)
Lemma matching_same_key d d' configured :
  key_of_demand d = key_of_demand d' -> matching_pool d configured = matching_pool d' configured.
Proof.
  unfold key_of_demand. intros [= H1 H2 H3 H4 H5 H6 H7]. unfold matching_pool, pool_matches.
  by rewrite H1, H2, H3, H4, H5, H6, H7.
Qed.

Lemma key_total_snoc key ds d :
  key_total key (ds ++ [d]) = key_total key ds + (if decide (key_of_demand d = key) then rd_limit d else 0).
Proof.
  unfold key_total. rewrite filter_app, filter_cons, fmap_app, py_sum_app.
  case_decide; cbn [fmap list_fmap]; rewrite ?filter_nil; unfold py_sum; simpl; lia.
Qed.

(** The totals an admission holds after the demands [ds], of which [prot] are
    those of protected policies. *)
Record totals_of (configured : list ParticipantResourcePoolCapacity) (ds prot : list ResourceDemand)
    (st : AdmissionState) : Prop := {
  to_wf : dict_wf (ad_limits st);
  to_keys key : key ∈ dict_keys (ad_limits st) <-> exists d, d ∈ ds /\ key_of_demand d = key;
  to_limits key : default 0 (ad_limits st !! key) = key_total key ds;
  to_protected key : default 0 (ad_protected st !! key) = key_total key prot;
  to_pools d : d ∈ ds -> exists c, matching_pool d configured = Some c /\ ad_pools st !! key_of_demand d = Some c;
}.

Section assess.
Context (budgets : ParticipantResourceBudgetCapabilities).
Abbreviation configured := (cap_configured_pools budgets).

Lemma totals_add_gaps ds prot gaps st : totals_of configured ds prot st -> totals_of configured ds prot (add_gaps gaps st).
Proof. intros []. by constructor. Qed.

Definition protected_part (policy : ResourcePolicy) (ds : list ResourceDemand) : list ResourceDemand :=
  if f_protected (pol_resource_fairness policy) then ds else [].

Lemma totals_write policy ds prot d c gaps st :
  matching_pool d configured = Some c -> totals_of configured ds prot st ->
  totals_of configured (ds ++ [d]) (prot ++ protected_part policy [d])
    (Admission gaps (add_amount (key_of_pool c) (rd_limit d) (ad_limits st))
       (if f_protected (pol_resource_fairness policy)
        then add_amount (key_of_pool c) (rd_limit d) (ad_protected st) else ad_protected st)
       (<[key_of_pool c := c]> (ad_pools st))).
Proof.
  intros Hc [Hwf Hkeys Hlim Hprot Hpools]. rewrite (matching_key d configured c Hc).
  assert (forall key totals, default 0 (add_amount (key_of_demand d) (rd_limit d) totals !! key) =
    default 0 (totals !! key) + (if decide (key_of_demand d = key) then rd_limit d else 0)) as Hadd.
  { intros key totals. unfold add_amount. rewrite dict_get_set. case_decide; [subst key|]; simpl; lia. }
  constructor; cbn [ad_limits ad_protected ad_pools].
  - by apply dict_wf_set.
  - intros key. unfold add_amount. rewrite elem_of_dict_keys_set, Hkeys. setoid_rewrite elem_of_app.
    setoid_rewrite list_elem_of_singleton. naive_solver.
  - intros key. by rewrite Hadd, key_total_snoc, Hlim.
  - intros key. unfold protected_part. destruct (f_protected _); [by rewrite Hadd, key_total_snoc, Hprot|].
    by rewrite app_nil_r, Hprot.
  - intros d' [Hd'| ->%list_elem_of_singleton]%elem_of_app; [|exists c; by rewrite dict_get_set_eq].
    destruct (Hpools d' Hd') as (c' & Hc' & Hget). exists c'. split; [done|]. rewrite dict_get_set.
    case_decide as Hk; [|done]. by rewrite <-Hc, <-Hc', (matching_same_key d d').
Qed.

(** A demand either adds no gap and is counted, or adds a gap. *)
Lemma assess_demand_cases policy keys st d ds prot :
  totals_of configured ds prot st ->
  let fairness := pol_resource_fairness policy in
  let '(keys', st') := assess_demand policy budgets (keys, st) d in
  (demand_served budgets fairness d /\ (key_of_demand d ∉ keys) /\ keys' = key_of_demand d :: keys /\
   ad_gaps st' = ad_gaps st /\ totals_of configured (ds ++ [d]) (prot ++ protected_part policy [d]) st') \/
  (~ (demand_served budgets fairness d /\ (key_of_demand d ∉ keys)) /\ ad_gaps st' <> []).
Proof.
  intros Htot fairness. unfold assess_demand.
  destruct (unsupported_attributes d budgets) as [|u us] eqn:Hu.
  2:{ right. split; [|intros []%app_nil; done]. intros [[] _]. assert (u :: us = []) as Hn; [|done].
      rewrite <-Hu. by apply unsupported_attributes_nil. }
  apply unsupported_attributes_nil in Hu as (? & ? & ? & ?).
  destruct (matching_pool d configured) as [c|] eqn:Hc.
  2:{ right. split; [|intros []%app_nil; done]. intros [[? ? ? ? (c & Hc' & _)] _]. congruence. }
  rewrite (matching_key d configured c Hc). case_decide as Hk.
  { right. split; [by intros [_ ?]|intros []%app_nil; done]. }
  destruct (pool_policy_gaps d fairness c) as [|g gs] eqn:Hg; [left|right].
  - split_and!; [|done|done|cbn [ad_gaps]; fold fairness; by rewrite Hg, app_nil_r|].
    + constructor; try done. exists c. split; [done|]. by apply pool_policy_gaps_nil.
    + rewrite <-(matching_key d configured c Hc). by apply totals_write.
  - split.
    + intros [[? ? ? ? (c' & Hc' & Hs)] _]. rewrite Hc in Hc'. injection Hc' as <-.
      apply pool_policy_gaps_nil in Hs. congruence.
    + cbn [ad_gaps]. fold fairness. rewrite Hg. intros []%app_nil; done.
Qed.

Lemma assess_demand_gaps policy s d : ad_gaps s.2 <> [] -> ad_gaps (assess_demand policy budgets s d).2 <> [].
Proof.
  destruct s as [keys st]. cbn [snd]. intros Hg. unfold assess_demand.
  destruct (unsupported_attributes d budgets); [|intros []%app_nil; done].
  destruct (matching_pool d configured); [case_decide|]; intros []%app_nil; done.
Qed.

Lemma assess_demands_gaps policy l s : ad_gaps s.2 <> [] -> ad_gaps (foldl (assess_demand policy budgets) s l).2 <> [].
Proof. revert s; induction l as [|d l IH]; intros s Hg; [done|]. by apply IH, assess_demand_gaps. Qed.

Lemma assess_demands_cases policy l : forall keys st ds prot,
  totals_of configured ds prot st -> ad_gaps st = [] ->
  let served := (forall d, d ∈ l -> demand_served budgets (pol_resource_fairness policy) d) /\
    NoDup (key_of_demand <$> l) /\ (forall d, d ∈ l -> key_of_demand d ∉ keys) in
  let st' := (foldl (assess_demand policy budgets) (keys, st) l).2 in
  (served /\ ad_gaps st' = [] /\ totals_of configured (ds ++ l) (prot ++ protected_part policy l) st') \/
  (~ served /\ ad_gaps st' <> []).
Proof.
  induction l as [|d l IH]; intros keys st ds prot Htot Hg; cbn [foldl].
  - left. assert (protected_part policy [] = []) as -> by (unfold protected_part; by destruct (f_protected _)).
    rewrite !app_nil_r. split_and!; [by intros ? ?%not_elem_of_nil|constructor|by intros ? ?%not_elem_of_nil|done|done].
  - pose proof (assess_demand_cases policy keys st d ds prot Htot) as Hd. cbn zeta in Hd.
    destruct (assess_demand policy budgets (keys, st) d) as [keys' st1] eqn:E.
    destruct Hd as [(Hs & Hk & -> & Hg1 & Htot1)|(Hbad & Hg1)].
    + rewrite Hg in Hg1. destruct (IH (key_of_demand d :: keys) st1 _ _ Htot1 Hg1) as [((Hl & Hnd & Hks) & Hg' & Htot')|(Hbad & Hg')].
      * left. split_and!; [|rewrite fmap_cons; apply NoDup_cons; split; [|done]| |done|].
        -- intros x [->|Hx]%elem_of_cons; [done|by apply Hl].
        -- intros (x & Hx & Hin)%list_elem_of_fmap. apply (Hks x Hin). rewrite Hx. left.
        -- intros x [->|Hx]%elem_of_cons; [done|]. intros Hin. apply (Hks x Hx). by right.
        -- rewrite <-!app_assoc in Htot'. cbn [app] in Htot'.
           assert (protected_part policy [d] ++ protected_part policy l = protected_part policy (d :: l)) as <-
             by (unfold protected_part; by destruct (f_protected _)). done.
      * right. split; [|done]. intros (Hl & Hnd & Hks). apply Hbad. rewrite fmap_cons in Hnd.
        apply NoDup_cons in Hnd as [Hn Hnd]. split_and!; [intros x Hx; apply Hl; by right|done|].
        intros x Hx [Heq|Hin]%elem_of_cons; [|by apply (Hks x); [right|]].
        apply Hn, list_elem_of_fmap. by exists x.
    + right. split; [|by apply assess_demands_gaps]. intros (Hl & _ & Hks). apply Hbad. split; [apply Hl|apply Hks]; left.
Qed.

Lemma assess_policy_gaps st policy : ad_gaps st <> [] -> ad_gaps (assess_policy budgets st policy) <> [].
Proof. intros Hg. apply assess_demands_gaps. cbn. rewrite <-app_assoc. intros []%app_nil; done. Qed.

Lemma assess_policies_gaps l st : ad_gaps st <> [] -> ad_gaps (foldl (assess_policy budgets) st l) <> [].
Proof. revert st; induction l as [|p l IH]; intros st Hg; [done|]. by apply IH, assess_policy_gaps. Qed.

Lemma assess_policy_cases st policy ds prot :
  totals_of configured ds prot st -> ad_gaps st = [] ->
  let st' := assess_policy budgets st policy in
  (policy_served budgets policy /\ ad_gaps st' = [] /\
   totals_of configured (ds ++ pol_resource_demands policy)
     (prot ++ protected_part policy (pol_resource_demands policy)) st') \/
  (~ policy_served budgets policy /\ ad_gaps st' <> []).
Proof.
  intros Htot Hg. unfold assess_policy. cbn zeta.
  set (g1 := gap_if _ _). destruct g1 as [|g gs] eqn:Hg1.
  2:{ right. split; [|apply assess_demands_gaps; cbn; rewrite Hg; done]. intros [Hf _ _ _].
      assert (g1 = []) as Hn; [|congruence]. by apply gap_if_nil, bool_decide_not_false. }
  apply gap_if_nil, bool_decide_not_false in Hg1.
  destruct (parent_limit_gaps policy) as [|g gs] eqn:Hg2.
  2:{ right. split; [|apply assess_demands_gaps; cbn; by rewrite Hg]. intros [_ Hp _ _].
      apply parent_limit_gaps_nil in Hp. congruence. }
  apply parent_limit_gaps_nil in Hg2.
  destruct (assess_demands_cases policy (pol_resource_demands policy) [] (add_gaps [] (add_gaps [] st)) ds prot)
    as [((Hl & Hnd & _) & Hg' & Htot')|(Hbad & Hg')]; [by repeat apply totals_add_gaps|cbn; by rewrite Hg|left|right].
  - split; [by constructor|done].
  - split; [|done]. intros []. apply Hbad. split_and!; [done|done|]. intros d _. by intros ?%not_elem_of_nil.
Qed.

Lemma protected_demands_cons policy l :
  all_demands (protected_policies (policy :: l)) =
  protected_part policy (pol_resource_demands policy) ++ all_demands (protected_policies l).
Proof. unfold protected_policies, protected_part. rewrite filter_cons. case_decide as H; [by rewrite H|]. by destruct (f_protected _). Qed.

Lemma assess_policies_cases l : forall st ds prot,
  totals_of configured ds prot st -> ad_gaps st = [] ->
  let st' := foldl (assess_policy budgets) st l in
  ((forall policy, policy ∈ l -> policy_served budgets policy) /\ ad_gaps st' = [] /\
   totals_of configured (ds ++ all_demands l) (prot ++ all_demands (protected_policies l)) st') \/
  (~ (forall policy, policy ∈ l -> policy_served budgets policy) /\ ad_gaps st' <> []).
Proof.
  induction l as [|policy l IH]; intros st ds prot Htot Hg; cbn [foldl].
  - left. change (all_demands []) with (@nil ResourceDemand).
    change (all_demands (protected_policies [])) with (@nil ResourceDemand). rewrite !app_nil_r.
    split_and!; [by intros ? ?%not_elem_of_nil|done|done].
  - destruct (assess_policy_cases st policy ds prot Htot Hg) as [(Hp & Hg1 & Htot1)|(Hp & Hg1)].
    + destruct (IH _ _ _ Htot1 Hg1) as [(Hl & Hg' & Htot')|(Hl & Hg')]; [left|right].
      * split_and!; [by intros x [->|Hx]%elem_of_cons; [|apply Hl]|done|].
        rewrite protected_demands_cons. by rewrite <-!app_assoc in Htot'.
      * split; [|done]. intros H. apply Hl. intros x Hx. apply H. by right.
    + right. split; [|by apply assess_policies_gaps]. intros H. apply Hp, H. left.
Qed.

(** Every pool with a total is recorded, whatever the gaps. *)
Definition pools_recorded (st : AdmissionState) : Prop :=
  forall key, key ∈ dict_keys (ad_limits st) -> is_Some (ad_pools st !! key).

Lemma assess_demand_recorded policy s d : pools_recorded s.2 -> pools_recorded (assess_demand policy budgets s d).2.
Proof.
  destruct s as [keys st]. cbn [snd]. intros Hr. unfold assess_demand.
  destruct (unsupported_attributes d budgets); [|done]. destruct (matching_pool d configured); [|done].
  case_decide; [done|]. intros key. cbn [snd ad_limits ad_pools]. unfold add_amount.
  rewrite elem_of_dict_keys_set, dict_get_set. case_decide; [done|]. intros [->|Hk]; [done|by apply Hr].
Qed.

Lemma assess_policies_recorded l st : pools_recorded st -> pools_recorded (foldl (assess_policy budgets) st l).
Proof.
  assert (forall policy ds s, pools_recorded s.2 -> pools_recorded (foldl (assess_demand policy budgets) s ds).2) as Hds.
  { intros policy ds. induction ds as [|d ds IH]; intros s Hs; [done|]. by apply IH, assess_demand_recorded. }
  revert st; induction l as [|policy l IH]; intros st Hst; [done|]. by apply IH, Hds.
Qed.

Lemma aggregate_recorded st : pools_recorded st -> exists gaps, aggregate_pool_gaps st = Ok gaps.
Proof.
  intros Hr. unfold aggregate_pool_gaps.
  assert (forall items, (forall key z, (key, z) ∈ items -> is_Some (ad_pools st !! key)) ->
    exists gs, mmap (aggregate_pool_gap st) items = Ok gs) as Hall.
  { induction items as [|[key z] items IH]; intros Hi; [by eexists|]. cbn [mmap].
    assert (exists g, aggregate_pool_gap st (key, z) = Ok g) as [g ->].
    { unfold aggregate_pool_gap. destruct (Hi key z) as [c ->]; [left|]. by eexists. }
    cbn [mbind result_bind]. destruct IH as [gs ->]; [|by eexists]. intros k' z' Hin. apply (Hi k' z'). by right. }
  destruct (Hall (dict_items (ad_limits st))) as [gs ->]; [|by eexists].
  intros key z Hin. apply Hr, list_elem_of_fmap. by exists (key, z).
Qed.

Lemma assess_covered_gaps l st :
  ad_limits st = Dict [] ->
  let st' := foldl (assess_policy budgets) st l in
  exists gaps, aggregate_pool_gaps st' = Ok gaps.
Proof.
  intros Hst st'. apply aggregate_recorded, assess_policies_recorded. intros key Hk. rewrite Hst in Hk.
  by apply not_elem_of_nil in Hk.
Qed.

(** ** Aggregates *)

Lemma aggregate_pool_gaps_cases ds prot st :
  totals_of configured ds prot st ->
  exists gaps, aggregate_pool_gaps st = Ok gaps /\
    (gaps = [] <-> forall d c, d ∈ ds -> matching_pool d configured = Some c ->
       key_total (key_of_demand d) ds <= pc_capacity c /\ key_total (key_of_demand d) prot <= pc_protected_capacity c).
Proof.
  intros [Hwf Hkeys Hlim Hprot Hpools]. unfold aggregate_pool_gaps.
  set (gap := fun item : pool_key * Z => match ad_pools st !! item.1 with
    | Some pool => gap_if (pc_capacity pool <? item.2)
            ("participant resource pool " +:+ pc_pool_ref pool +:+ " aggregate policy limits require "
             +:+ pretty.pretty item.2 +:+ "; configured capacity is " +:+ pretty.pretty (pc_capacity pool))
          ++ gap_if (pc_protected_capacity pool <? default 0 (ad_protected st !! item.1))
            ("participant resource pool " +:+ pc_pool_ref pool +:+ " protected policy limits require "
             +:+ pretty.pretty (default 0 (ad_protected st !! item.1)) +:+ "; configured protected capacity is "
             +:+ pretty.pretty (pc_protected_capacity pool))
    | None => [] end).
  rewrite (mmap_Ok_Forall gap).
  2:{ intros [key z] Hin. unfold aggregate_pool_gap, gap. cbn [fst snd].
      assert (key ∈ dict_keys (ad_limits st)) as (d & Hd & <-)%Hkeys by (apply list_elem_of_fmap; by exists (key, z)).
      destruct (Hpools d Hd) as (c & _ & ->). done. }
  cbn [mbind result_bind]. eexists. split; [done|]. rewrite mjoin_nil. setoid_rewrite list_elem_of_fmap.
  assert (forall d c, matching_pool d configured = Some c -> d ∈ ds ->
    (gap (key_of_demand d, key_total (key_of_demand d) ds) = [] <->
     key_total (key_of_demand d) ds <= pc_capacity c /\ key_total (key_of_demand d) prot <= pc_protected_capacity c)) as Hgap.
  { intros d c Hc Hd. unfold gap. cbn [fst snd]. destruct (Hpools d Hd) as (c' & Hc' & ->).
    rewrite Hc in Hc'. injection Hc' as <-. by rewrite app_nil, !gap_if_nil, !Z.ltb_ge, Hprot. }
  assert (forall key z, (key, z) ∈ dict_items (ad_limits st) ->
    exists d, d ∈ ds /\ key_of_demand d = key /\ z = key_total key ds) as Hitems.
  { intros key z Hin. assert (key ∈ dict_keys (ad_limits st)) as (d & Hd & Hk)%Hkeys by (apply list_elem_of_fmap; by exists (key, z)).
    exists d. split_and!; [done|done|]. rewrite <-Hlim. apply (dict_get_Some _ _ _ Hwf) in Hin. by rewrite Hin. }
  split.
  - intros H d c Hd Hc. apply (Hgap d c Hc Hd). apply H. eexists. split; [done|].
    assert (key_of_demand d ∈ dict_keys (ad_limits st)) as Hk by (apply Hkeys; eauto).
    apply dict_get_is_Some in Hk as [z Hz]. rewrite <-Hlim, Hz. by apply dict_get_Some_in.
  - intros H x ([key z] & -> & Hin). destruct (Hitems key z Hin) as (d & Hd & <- & ->).
    destruct (Hpools d Hd) as (c & Hc & _). apply (Hgap d c Hc Hd). by apply H.
Qed.
End assess.

(** ** The whole check *)

Lemma totals_start configured gaps : totals_of configured [] [] (Admission gaps (Dict []) (Dict []) (Dict [])).
Proof.
  constructor; cbn; [constructor|..]; try done; [|by intros d ?%not_elem_of_nil].
  intros key. split; [by intros ?%not_elem_of_nil|intros (d & ?%not_elem_of_nil & _); done].
Qed.

Lemma participant_resource_budget_gaps_run contracts resource_budgets policies :
  exists gaps, participant_resource_budget_gaps contracts resource_budgets policies = Ok gaps /\
    (gaps = [] <-> admissible contracts resource_budgets policies).
Proof.
  unfold participant_resource_budget_gaps, admissible.
  case_bool_decide as Hgov; [exists []; split; [done|tauto]|].
  destruct resource_budgets as [budgets|].
  2:{ eexists. split; [done|]. split; [done|]. intros [?|(b & ? & _)]; done. }
  set (governed := governed_policies policies) in *.
  assert ((governed = [] \/ exists b, Some budgets = Some b /\ backend_serves contracts b governed) <->
    backend_serves contracts budgets governed) as Heq by naive_solver. setoid_rewrite Heq. clear Heq.
  destruct (capability_gaps contracts budgets) as [|g gs] eqn:Hcap.
  - apply capability_gaps_nil in Hcap as (Hs & Hm & Hr).
    destruct (assess_policies_cases budgets governed (Admission [] (Dict []) (Dict []) (Dict [])) [] [])
      as [(Hp & Hg & Htot)|(Hp & Hg)]; [apply totals_start|done|..]; cbn [app] in *.
    + destruct (aggregate_pool_gaps_cases budgets _ _ _ Htot) as (gaps & -> & Hagg). cbn [mbind result_bind].
      eexists. split; [done|]. rewrite Hg. cbn [app]. rewrite Hagg. split; [by constructor|by intros []].
    + destruct (assess_covered_gaps budgets governed (Admission [] (Dict []) (Dict []) (Dict []))) as (gaps & ->);
        [done|]. eexists. split; [done|]. split; [by intros []%app_nil|]. intros []. by destruct Hp.
  - destruct (assess_covered_gaps budgets governed (Admission (g :: gs) (Dict []) (Dict []) (Dict []))) as (gaps & ->);
      [done|]. eexists. split; [done|]. split; [|intros [? ? ? _ _]].
    + intros [Hn _]%app_nil. by apply (assess_policies_gaps budgets governed (Admission (g :: gs) (Dict []) (Dict []) (Dict []))) in Hn.
    + assert (g :: gs = []) as Hn; [|done]. rewrite <-Hcap. by apply capability_gaps_nil.
Qed.

(** Admission always returns its gaps, and there are none exactly when
    the backend serves the governed policies: declared contracts and
    attributes, covered parents, for every demand an exact pool that fits its
    limit, fairness and protection, no pool charged twice by one policy, and
    in every pool the limits of all policies together within its capacity and
    those of protected policies within its protected capacity. *)
Theorem admission_exact contracts resource_budgets policies :
  exists gaps, participant_resource_budget_gaps contracts resource_budgets policies = Ok gaps /\
    (gaps = [] <-> admissible contracts resource_budgets policies).
Proof. apply participant_resource_budget_gaps_run. Qed.

(** ** Admitted policies initialize *)

Lemma elem_of_wanted_demands policies policy d :
  (policy, d) ∈ wanted_demands policies <-> policy ∈ policies /\ d ∈ pol_resource_demands policy.
Proof.
  unfold wanted_demands. rewrite list_elem_of_bind. split.
  - intros (p & (d' & [= -> ->] & ?)%list_elem_of_fmap & ?). done.
  - intros [? ?]. exists policy. split; [|done]. apply list_elem_of_fmap. by exists d.
Qed.

Lemma served_policy_fits budgets policy :
  policy_served budgets policy -> policy_ok policy -> policy_fits (cap_configured_pools budgets) policy.
Proof.
  intros Hs Hok. split; [done|]. intros d c Hd Hc.
  destruct (ds_pool _ _ _ (pls_demands _ _ Hs d Hd)) as (c' & Hc' & Hsv). rewrite Hc in Hc'. injection Hc' as <-.
  apply Hsv.
Qed.

Lemma served_initializable {O} (s : RuntimeSnapshot O) g budgets policy d :
  policy_served budgets policy -> d ∈ pol_resource_demands policy ->
  (forall b, budget_states s !! demand_ref policy d = Some b -> bs_generation b = g) ->
  initializable s g (cap_configured_pools budgets) policy d.
Proof.
  intros Hs Hd Hgen. destruct (ds_pool _ _ _ (pls_demands _ _ Hs d Hd)) as (c & Hc & Hsv). exists c.
  split_and!; [done| |done]. apply Hsv.
Qed.

(** What admission accepts initializes: with no gaps, initializing the
    governed policies on a ledger without budgets of another generation
    succeeds and gives every demand an empty budget. *)
Theorem admitted_policies_initialize {O} (s : RuntimeSnapshot O) contracts budgets policies g :
  participant_resource_budget_gaps contracts (Some budgets) policies = Ok [] ->
  0 <= g -> configuration_ok (cap_configured_pools budgets) ->
  (forall policy, policy ∈ policies -> policy_ok policy) ->
  ledger_inv (maps_of s) -> pools_configured (cap_configured_pools budgets) (pool_states s) ->
  (forall ref b, budget_states s !! ref = Some b -> bs_generation b = g) ->
  exists r, initialize_participant_resource_budgets s (governed_policies policies) (cap_configured_pools budgets) g = Ok r /\
    success r = true /\ ledger_inv (maps_of (ar_snapshot r)) /\
    forall policy d, policy ∈ governed_policies policies -> d ∈ pol_resource_demands policy ->
      is_Some (budget_states (ar_snapshot r) !! demand_ref policy d).
Proof.
  intros Hgaps Hg Hconf Hpol Hinv Hpc Hgen.
  destruct (participant_resource_budget_gaps_run contracts (Some budgets) policies) as (gaps & Hrun & Hiff).
  rewrite Hgaps in Hrun. injection Hrun as <-. destruct (proj1 Hiff eq_refl) as [Hnone|(b & Hb & Hserves)].
  { rewrite Hnone. exists (Applied true s []).
    unfold initialize_participant_resource_budgets. cbn [until_some mbind result_bind snd fst im_states im_pool_states].
    change (with_budgets s (budget_states s) (pool_states s) (budget_events s)) with (with_maps s (maps_of s)).
    rewrite with_maps_ok by done. cbn [maps_of mx_states mx_pool_states mx_events]. rewrite snapshot_eta.
    split_and!; [done|done|done|by intros ? ? ?%not_elem_of_nil]. }
  injection Hb as <-.
  assert (forall policy, policy ∈ governed_policies policies -> policy_served budgets policy /\ policy_ok policy) as Hall.
  { intros policy Hin. split; [by apply (bs_policies _ _ _ Hserves)|]. apply Hpol.
    by apply list_elem_of_filter in Hin as [_ ?]. }
  destruct (initialize_run s g (cap_configured_pools budgets) Hg Hconf (governed_policies policies) Hinv Hpc)
    as (r & Hr & [(Hbad & _ & _)|(Hok & Hinv' & _ & _ & Hgot & _)]).
  { intros policy Hin. destruct (Hall policy Hin). by apply served_policy_fits. }
  - exfalso. destruct Hbad as (policy & d & Hin & Hno). apply Hno. apply elem_of_wanted_demands in Hin as [Hp Hd].
    apply served_initializable; [by apply Hall|done|]. intros b. apply Hgen.
  - exists r. split_and!; [done|done|done|]. intros policy d Hp Hd.
    destruct (Hgot policy d) as [_ (b & -> & _)]; [by apply elem_of_wanted_demands|done].
Qed.

(** ** Headroom in the pools *)

Definition pool_ref_for_demand (d : ResourceDemand) : string :=
  participant_resource_pool_state_ref (rd_pool_ref d) (rd_owner_kind d) (rd_owner_address d) (rd_resource_kind d)
    (rd_unit d) (rd_accounting_mode d) (rd_meter_profile_ref d).

(** The budgets of a ledger belong to the demands of [policies]. *)
Definition budgets_of (policies : list ResourcePolicy) (m : BudgetMaps) : Prop :=
  forall ref b, mx_states m !! ref = Some b -> exists policy d, (policy, d) ∈ wanted_demands policies /\
    ref = demand_ref policy d /\ bs_limit b = rd_limit d /\ pool_ref_for_state b = pool_ref_for_demand d.

(** No two demands name the same budget. *)
Definition refs_distinct (policies : list ResourcePolicy) : Prop :=
  NoDup ((fun pd => demand_ref pd.1 pd.2) <$> wanted_demands policies).

Lemma all_demands_wanted policies : all_demands policies = snd <$> wanted_demands policies.
Proof.
  unfold all_demands, wanted_demands. induction policies as [|p l IH]; [done|].
  cbn [fmap list_fmap mjoin list_join mbind list_bind]. rewrite fmap_app, <-list_fmap_compose. f_equal; [|exact IH].
  symmetry. apply list_fmap_id.
Qed.

Lemma py_sum_submseteq l1 l2 : l1 ⊆+ l2 -> (forall z, z ∈ l2 -> 0 <= z) -> py_sum l1 <= py_sum l2.
Proof.
  intros [k Hk]%submseteq_Permutation H. rewrite (py_sum_perm _ _ Hk), py_sum_app.
  assert (0 <= py_sum k); [|lia]. apply py_sum_nonneg, Forall_forall. intros z Hz. apply H. rewrite Hk. set_solver.
Qed.

Lemma py_sum_le {A} (f g : A -> Z) l : (forall x, x ∈ l -> f x <= g x) -> py_sum (f <$> l) <= py_sum (g <$> l).
Proof.
  induction l as [|x l IH]; intros H; [done|]. rewrite !fmap_cons, !py_sum_cons.
  apply Z.add_le_mono; [apply H; left|]. apply IH. intros y Hy. apply H. by right.
Qed.

Lemma mirrored_use s a : mirrored s a -> allocation_use (bs_accounting_mode s) a = used_capacity s.
Proof. intros (_ & H1 & H2 & H3). unfold allocation_use, used_capacity. rewrite H1, H2, H3. done. Qed.

Lemma NoDup_fmap_inj_in {A B} (f : A -> B) l x y : NoDup (f <$> l) -> x ∈ l -> y ∈ l -> f x = f y -> x = y.
Proof.
  intros Hnd [i Hi]%list_elem_of_lookup [j Hj]%list_elem_of_lookup Hf.
  assert (i = j) as ->; [|congruence]. apply (NoDup_lookup (f <$> l) i j (f x) Hnd); rewrite list_lookup_fmap; [by rewrite Hi|].
  rewrite Hj. cbn. by rewrite Hf.
Qed.

Section headroom.
Context (contracts : list string) (budgets : ParticipantResourceBudgetCapabilities) (policies : list ResourcePolicy).
Abbreviation configured := (cap_configured_pools budgets).
Context (Hserves : backend_serves contracts budgets policies) (Hconf : configuration_ok configured).
Context (Hok : forall policy, policy ∈ policies -> policy_ok policy) (Hrefs : refs_distinct policies).
Context (m : BudgetMaps) (Hinv : ledger_inv m) (Hof : budgets_of policies m).

Lemma wanted_matches policy d : (policy, d) ∈ wanted_demands policies ->
  exists c, matching_pool d configured = Some c /\ c ∈ configured /\ pool_state_ref c = pool_ref_for_demand d.
Proof.
  intros [Hp Hd]%elem_of_wanted_demands.
  destruct (ds_pool _ _ _ (pls_demands _ _ (bs_policies _ _ _ Hserves policy Hp) d Hd)) as (c & Hc & _). exists c.
  destruct (matching_pool_Some _ _ _ Hc) as (Hin & H1 & H2 & H3 & H4 & H5 & H6 & H7).
  split_and!; [done|done|]. unfold pool_state_ref, pool_ref_for_demand. by rewrite H1, H2, H3, H4, H5, H6, H7.
Qed.

(** Demands charged to one pool state ask for one pool. *)
Lemma wanted_same_pool p1 d1 p2 d2 :
  (p1, d1) ∈ wanted_demands policies -> (p2, d2) ∈ wanted_demands policies ->
  pool_ref_for_demand d1 = pool_ref_for_demand d2 -> key_of_demand d1 = key_of_demand d2.
Proof.
  intros H1 H2 Heq. destruct (wanted_matches _ _ H1) as (c1 & Hc1 & Hi1 & Hr1).
  destruct (wanted_matches _ _ H2) as (c2 & Hc2 & Hi2 & Hr2).
  assert (c1 = c2) as ->.
  { apply (NoDup_fmap_inj_in pool_state_ref configured); [apply Hconf|done|done|congruence]. }
  by rewrite <-(matching_key _ _ _ Hc1), <-(matching_key _ _ _ Hc2).
Qed.

Definition limit_at (ref : string) : Z := match mx_states m !! ref with Some b => bs_limit b | None => 0 end.

Lemma limit_at_demand policy d : (policy, d) ∈ wanted_demands policies -> 0 <= limit_at (demand_ref policy d) <= rd_limit d.
Proof.
  intros Hpd. unfold limit_at. pose proof (proj1 (elem_of_wanted_demands _ _ _) Hpd) as [Hp Hd].
  destruct (po_demand _ (Hok policy Hp) d Hd) as (_ & _ & Hlim).
  destruct (mx_states m !! demand_ref policy d) as [b|] eqn:Hb; [|lia].
  destruct (Hof _ _ Hb) as (p' & d' & Hpd' & Href & -> & _).
  assert ((policy, d) = (p', d')) as [= <- <-]; [|lia].
  by apply (NoDup_fmap_inj_in _ _ _ _ Hrefs).
Qed.

(** What a pool allocates, with [amount] more for the budget of [d], stays
    within the limits of the demands on it. *)
Lemma pool_total_within policy d b p a amount :
  (policy, d) ∈ wanted_demands policies -> mx_states m !! demand_ref policy d = Some b ->
  mx_pool_states m !! pool_ref_for_state b = Some p -> ps_allocations p !! demand_ref policy d = Some a ->
  used_capacity b + amount <= bs_limit b ->
  pool_total p + amount <= key_total (key_of_demand d) (all_demands policies).
Proof.
  intros Hpd Hb Hp Ha Hamount. set (ref := demand_ref policy d) in *. set (mode := ps_accounting_mode p).
  destruct (li_pool _ Hinv _ _ Hp) as (_ & (_ & Hentries & _) & Hwf & _). rewrite Forall_forall in Hentries.
  assert (forall r x, ps_allocations p !! r = Some x ->
    pa_budget_state_ref x = r /\ exists s, mx_states m !! r = Some s /\ pool_ref_for_state s = pool_ref_for_state b /\
      allocation_use mode x = used_capacity s) as Hstate.
  { intros r x Hx. split; [symmetry; apply (Hentries _ (dict_get_Some_in _ _ _ Hx))|].
    destruct (li_allocated _ Hinv _ _ _ _ Hp Hx) as (s & Hs & Hsk). exists s. split_and!; [done|done|].
    destruct (li_mirror _ Hinv _ _ Hs) as (p' & a' & Hp' & Ha' & Hm & Hmode). rewrite Hsk, Hp in Hp'. injection Hp' as <-.
    rewrite Hx in Ha'. injection Ha' as <-. unfold mode. rewrite Hmode. by apply mirrored_use. }
  set (h := fun x => allocation_use mode x + (if decide (pa_budget_state_ref x = ref) then amount else 0)).
  set (g := fun x => limit_at (pa_budget_state_ref x)).
  assert (dict_sum h (ps_allocations p) = pool_total p + amount) as <-.
  { pose proof (dict_sum_change (allocation_use mode) h ref a (ps_allocations p) Hwf Ha) as Hch.
    destruct (Hstate ref a Ha) as [Hr _]. assert (h a = allocation_use mode a + amount) as Hha by (unfold h; by rewrite decide_True).
    unfold pool_total. fold mode. rewrite Hha in Hch. rewrite <-Z.add_opp_r in *.
    assert (dict_sum (allocation_use mode) (ps_allocations p) - allocation_use mode a =
      dict_sum h (ps_allocations p) - (allocation_use mode a + amount)); [|lia]. apply Hch.
    intros k v Hk Hne. unfold h. destruct (Hstate k v Hk) as [-> _]. rewrite decide_False by done. lia. }
  assert (dict_sum h (ps_allocations p) <= dict_sum g (ps_allocations p)) as Hle.
  { apply dict_sum_le. intros k v Hin. apply dict_get_Some in Hin; [|done].
    destruct (Hstate k v Hin) as [Hk (s & Hs & _ & Huse)]. unfold h, g. rewrite Hk. unfold limit_at. rewrite Hs, Huse.
    destruct (li_state _ Hinv _ _ Hs) as (_ & _ & _ & _ & _ & Hlim & _).
    case_decide as Hd; [|lia]. rewrite Hd, Hb in Hs. injection Hs as <-. lia. }
  etrans; [exact Hle|]. clear Hle.
  assert (dict_sum g (ps_allocations p) = py_sum (limit_at <$> dict_keys (ps_allocations p))) as ->.
  { unfold dict_sum, dict_values, dict_keys. f_equal. rewrite <-!list_fmap_compose. apply Forall_fmap_ext_1, Forall_forall.
    intros [k v] Hin. unfold compose, g. cbn [fst snd]. apply dict_get_Some in Hin; [|done].
    by destruct (Hstate k v Hin) as [-> _]. }
  set (L := base.filter (fun pd => key_of_demand pd.2 = key_of_demand d) (wanted_demands policies)).
  assert (key_total (key_of_demand d) (all_demands policies) = py_sum ((fun pd => rd_limit pd.2) <$> L)) as ->.
  { unfold key_total. rewrite all_demands_wanted. unfold L. f_equal. clear.
    induction (wanted_demands policies) as [|[p x] l IH]; [done|]. rewrite fmap_cons, !filter_cons. cbn [fst snd].
    case_decide; [by rewrite !fmap_cons, IH|done]. }
  transitivity (py_sum (limit_at <$> ((fun pd => demand_ref pd.1 pd.2) <$> L))).
  - apply py_sum_submseteq.
    + apply fmap_submseteq, NoDup_submseteq; [done|]. intros r Hr. apply dict_get_is_Some in Hr as [x Hx].
      destruct (Hstate r x Hx) as [_ (s & Hs & Hsp & _)]. destruct (Hof _ _ Hs) as (p' & d' & Hpd' & -> & _ & Hpr).
      apply list_elem_of_fmap. exists (p', d'). split; [done|]. apply list_elem_of_filter. split; [|done]. cbn [snd].
      apply (wanted_same_pool p' d' policy d); [done|done|]. rewrite <-Hpr, Hsp.
      destruct (Hof _ _ Hb) as (p'' & d'' & Hpd'' & Href & _ & ->).
      assert ((policy, d) = (p'', d'')) as [= <- <-]; [|done]. by apply (NoDup_fmap_inj_in _ _ _ _ Hrefs).
    + intros z (r & -> & ([p' d'] & -> & [_ Hin]%list_elem_of_filter)%list_elem_of_fmap)%list_elem_of_fmap.
      by apply (limit_at_demand p' d').
  - rewrite <-list_fmap_compose. apply py_sum_le. intros [p' d'] Hin. apply list_elem_of_filter in Hin as [_ Hin].
    by apply limit_at_demand.
Qed.
End headroom.

(** once admitted, a protected policy is limited by its own budgets only:
    in every ledger reached, a request that fits a budget of it is granted by
    the shared pool, however much the other policies hold. *)
Theorem admitted_protected_headroom contracts budgets policies m policy d b p amount :
  participant_resource_budget_gaps contracts (Some budgets) policies = Ok [] ->
  configuration_ok (cap_configured_pools budgets) -> (forall policy, policy ∈ policies -> policy_ok policy) ->
  refs_distinct (governed_policies policies) ->
  ledger_inv m -> budgets_of (governed_policies policies) m -> pools_configured (cap_configured_pools budgets) (mx_pool_states m) ->
  policy ∈ governed_policies policies -> d ∈ pol_resource_demands policy ->
  mx_states m !! demand_ref policy d = Some b -> mx_pool_states m !! pool_ref_for_state b = Some p ->
  (exists a, ps_allocations p !! demand_ref policy d = Some a /\ pa_protected a = true) ->
  used_capacity b + amount <= bs_limit b ->
  can_reserve p (demand_ref policy d) amount = Ok true.
Proof.
  intros Hgaps Hconf Hok Hrefs Hinv Hof Hpc Hp Hd Hb Hpool (a & Ha & Hprot) Hamount.
  destruct (participant_resource_budget_gaps_run contracts (Some budgets) policies) as (gaps & Hrun & Hiff).
  rewrite Hgaps in Hrun. injection Hrun as <-. destruct (proj1 Hiff eq_refl) as [Hnone|(b' & Hb' & Hserves)].
  { rewrite Hnone in Hp. by apply not_elem_of_nil in Hp. }
  injection Hb' as <-. assert ((policy, d) ∈ wanted_demands (governed_policies policies)) as Hpd by by apply elem_of_wanted_demands.
  assert (forall policy, policy ∈ governed_policies policies -> policy_ok policy) as Hok'.
  { intros q [_ Hq]%list_elem_of_filter. by apply Hok. }
  destruct (can_reserve_spec p (demand_ref policy d) amount a Ha) as (r & -> & Hr). f_equal. apply Hr.
  split; [|by left].
  pose proof (pool_total_within contracts budgets _ Hserves Hconf Hok' Hrefs m Hinv Hof policy d b p a amount Hpd Hb Hpool Ha Hamount) as Hle.
  destruct (wanted_matches contracts budgets _ Hserves policy d Hpd) as (c & Hc & Hcin & Hcref).
  destruct (bs_capacity _ _ _ Hserves d c) as [Hcap _]; [|done|].
  { rewrite all_demands_wanted. apply list_elem_of_fmap. by exists (policy, d). }
  destruct (Hof _ _ Hb) as (p'' & d'' & Hpd'' & Href & _ & Hpref).
  assert ((policy, d) = (p'', d'')) as [= <- <-] by by apply (NoDup_fmap_inj_in _ _ _ _ Hrefs).
  rewrite Hpref, <-Hcref in Hpool. assert (ps_capacity p = pc_capacity c) as ->; [by rewrite (Hpc c p Hcin Hpool)|lia].
Qed.

(** ** Samples *)

Definition guarded_configuration : list ParticipantResourcePoolCapacity :=
  [sample_pool "actions" action_rate windowed_counter 10 10].

Definition sample_capabilities (configured : list ParticipantResourcePoolCapacity) : ParticipantResourceBudgetCapabilities :=
  BudgetCapabilities bounded [participant] [action_rate; inference_tokens] [windowed_counter; cumulative_counter]
    [time_segment] ["bounded"] [tenant_partitioned] configured required_realization_contracts [].

Definition guarded_demand : ResourceDemand := sample_demand "rate" "actions" action_rate windowed_counter 8 2.

Definition guarded_policy : ResourcePolicy :=
  Policy "policy.guarded" RESOURCE_GOVERNED_PROFILE [guarded_demand]
    (Fairness "bounded" "standard" 1 true "none" "none" 0 1).

Example sample_admitted :
  participant_resource_budget_gaps required_manifest_contracts (Some (sample_capabilities sample_configuration))
    [sample_policy] = Ok [].
Proof. vm_compute. reflexivity. Qed.

(** Two policies that fit alone but not together. *)
Example sample_oversubscribed :
  participant_resource_budget_gaps required_manifest_contracts (Some (sample_capabilities guarded_configuration))
    [guarded_policy; Policy "policy.other" RESOURCE_GOVERNED_PROFILE [guarded_demand] (pol_resource_fairness guarded_policy)] =
  Ok ["participant resource pool actions aggregate policy limits require 16; configured capacity is 10";
      "participant resource pool actions protected policy limits require 16; configured protected capacity is 10"].
Proof. vm_compute. reflexivity. Qed.

Lemma admitted_policies_initialize_witness :
  exists r, initialize_participant_resource_budgets sample_start (governed_policies [sample_policy])
      (cap_configured_pools (sample_capabilities sample_configuration)) 0 = Ok r /\
    success r = true /\ ledger_inv (maps_of (ar_snapshot r)) /\
    forall policy d, policy ∈ governed_policies [sample_policy] -> d ∈ pol_resource_demands policy ->
      is_Some (budget_states (ar_snapshot r) !! demand_ref policy d).
Proof.
  apply (admitted_policies_initialize sample_start required_manifest_contracts
    (sample_capabilities sample_configuration) [sample_policy] 0).
  - exact sample_admitted.
  - lia.
  - exact sample_configuration_ok.
  - intros policy Hp. apply list_elem_of_singleton in Hp as ->. exact (proj1 sample_policy_fits).
  - exact ledger_inv_empty.
  - intros c p _ Hp. discriminate Hp.
  - intros ref b Hb. discriminate Hb.
Defined.

Lemma guarded_configuration_ok : configuration_ok guarded_configuration.
Proof.
  split; [apply NoDup_singleton|]. intros c Hc. apply list_elem_of_singleton in Hc as ->. vm_compute. reflexivity.
Qed.

Lemma guarded_policy_ok : policy_ok guarded_policy.
Proof.
  constructor; [done|vm_compute; reflexivity|]. intros d Hd. apply list_elem_of_singleton in Hd as ->.
  split_and!; [done|vm_decide|vm_compute; done..].
Qed.

Definition guarded_ready : RuntimeSnapshot unit := Eval vm_compute in
  ok_snapshot (initialize_participant_resource_budgets sample_start [guarded_policy] guarded_configuration 0).

Lemma guarded_initialized :
  initialize_participant_resource_budgets sample_start [guarded_policy] guarded_configuration 0 =
  Ok (Applied true guarded_ready []).
Proof. vm_compute. reflexivity. Qed.

Lemma guarded_ready_inv : ledger_inv (maps_of guarded_ready).
Proof.
  apply (ledger_reachable_inv sample_start); [done|]. apply rtc_once.
  rewrite <-(applied_snapshot true guarded_ready []).
  apply (step_initialize sample_start [guarded_policy] guarded_configuration 0 (Applied true guarded_ready [])); [done|..].
  - exact guarded_configuration_ok.
  - intros c p _ Hp. done.
  - intros policy Hp. apply list_elem_of_singleton in Hp as ->. split; [exact guarded_policy_ok|].
    intros d c _ Hc. destruct (matching_pool_Some _ _ _ Hc) as (Hin & _). apply list_elem_of_singleton in Hin as ->.
    split_and!; [left|done..].
  - exact guarded_initialized.
Qed.

Definition guarded_budget : ParticipantResourceBudgetState := Eval vm_compute in
  fresh_budget guarded_policy guarded_demand (sample_pool "actions" action_rate windowed_counter 10 10) 0.

Definition guarded_pool : ParticipantResourcePoolState := Eval vm_compute in
  default (pool_of (sample_pool "actions" action_rate windowed_counter 10 10))
    (pool_states guarded_ready !! pool_ref_for_state guarded_budget).

Lemma admitted_protected_headroom_witness :
  can_reserve guarded_pool (demand_ref guarded_policy guarded_demand) 8 = Ok true.
Proof.
  apply (admitted_protected_headroom required_manifest_contracts (sample_capabilities guarded_configuration)
    [guarded_policy] (maps_of guarded_ready) guarded_policy guarded_demand guarded_budget guarded_pool 8).
  - vm_compute. reflexivity.
  - exact guarded_configuration_ok.
  - intros policy Hp. apply list_elem_of_singleton in Hp as ->. exact guarded_policy_ok.
  - apply NoDup_singleton.
  - exact guarded_ready_inv.
  - intros ref b Hb. exists guarded_policy, guarded_demand.
    change (mx_states (maps_of guarded_ready)) with (Dict [(demand_ref guarded_policy guarded_demand, guarded_budget)]) in Hb.
    unfold lookup, dict_lookup in Hb. cbn [dict_items items_get fst snd] in Hb. case_decide as Hr; [|done].
    injection Hb as <-. split_and!; [left|by symmetry|done|done].
  - intros c p Hc Hp. apply list_elem_of_singleton in Hc as ->. vm_compute in Hp. injection Hp as <-. vm_compute. reflexivity.
  - left.
  - left.
  - reflexivity.
  - vm_compute. reflexivity.
  - eexists. split; [vm_compute; reflexivity|reflexivity].
  - vm_compute. discriminate.
Defined.
