(* ===== verification/DepGraph.v ===== *)
(** Dependency-graph semantics of planned resources
    ([raes_processor/semantics/planner.py]): graph normalisation, the stable
    topological order, refresh impact and the reconciliation of a resource
    set against a snapshot. *)
From S2P Require Import Prelude.
From S2P Require Import Addressing.
Local Open Scope string_scope.
Local Open Scope list_scope.

Inductive dependency_kind : Type := ORDERING | REFRESH.

Inductive reconciliation_action : Type := CREATE | UPDATE | DELETE | UNCHANGED.

#[export] Instance dependency_kind_eq_dec : EqDecision dependency_kind.
Proof. solve_decision. Defined.
#[export] Instance reconciliation_action_eq_dec : EqDecision reconciliation_action.
Proof. solve_decision. Defined.

Record dependency_edge : Type := DependencyEdge {
  edge_source : string;
  edge_target : string;
  edge_kind : dependency_kind;
}.

(** The duck-typed shape of a resource the graph functions accept. *)
Class SupportsDependencySemantics (R : Type) : Type := {
  ordering_dependencies : R -> list string;
  refresh_dependencies : R -> list string;
}.

Abbreviation graph := (dict string (list string)).

(** The sort key of an address; the singleton tuple compares as its member. *)
Definition canonical_resource_identity (address : string) : result string :=
  require_compiled_address "address" address.

(** [sorted(nodes, key=canonical_resource_identity)]: every key is computed
    before anything is compared. *)
Definition sorted_by_identity (nodes : list string) : result (list string) :=
  _ ← mmap canonical_resource_identity nodes; Ok (py_sorted nodes).

Definition dependency_graph (deps : graph) : graph :=
  dict_map (base.filter (fun d => d ∈ dict_keys deps)) deps.

Definition dependency_graph_from_edges (edges : list dependency_edge) (known_nodes : list string) : graph :=
  dependency_graph
    (foldl (fun g e =>
       match g !! edge_source e with
       | Some ts => <[edge_source e := ts ++ [edge_target e]]> g
       | None => g
       end)
     (dict_of_list ((fun n => (n, [])) <$> known_nodes)) edges).

Section resources.
Context {R : Type} `{!SupportsDependencySemantics R}.
Implicit Type resources : dict string R.

Definition dependencies_of (kind : dependency_kind) (r : R) : list string :=
  match kind with
  | ORDERING => ordering_dependencies r
  | REFRESH => refresh_dependencies r
  end.

Definition dependency_edges resources (kind : dependency_kind) : result (list dependency_edge) :=
  sources ← sorted_by_identity (dict_keys resources);
  mfold (fun edges source =>
    resource ← dict_index resources source;
    Ok (edges ++
        ((fun target => DependencyEdge source target kind) <$>
           base.filter (fun target => target ∈ dict_keys resources)
             (dependencies_of kind resource))))
    [] sources.

Definition dependency_graph_for_resources resources (kind : dependency_kind) : result graph :=
  edges ← dependency_edges resources kind;
  Ok (dependency_graph_from_edges edges (dict_keys resources)).
End resources.

(** ** Topological order *)

(** [dependents[dependency].append(node); indegree[node] += 1]. *)
Definition count_dependency (node : string) (st : graph * dict string Z) (dependency : string)
    : result (graph * dict string Z) :=
  ds ← dict_index st.1 dependency;
  degree ← dict_index st.2 node;
  Ok (<[dependency := ds ++ [node]]> st.1, <[node := (degree + 1)%Z]> st.2).

Definition build_dependents (g : graph) : result (graph * dict string Z) :=
  mfold (fun st kv => mfold (count_dependency kv.1) st kv.2)
    (dict_map (fun _ => []) g, dict_map (fun _ => 0%Z) g) (dict_items g).

(** [indegree[dependent] -= 1], queueing the dependent when it reaches 0. *)
Definition release_dependent (st : dict string Z * list string) (dependent : string)
    : result (dict string Z * list string) :=
  degree ← dict_index st.1 dependent;
  let degree := (degree - 1)%Z in
  Ok (<[dependent := degree]> st.1,
      if decide (degree = 0%Z) then st.2 ++ [dependent] else st.2).

Fixpoint kahn_loop (fuel : nat) (dependents : graph) (indegree : dict string Z)
    (queue order : list string) : result (list string) :=
  match queue with
  | [] => Ok order
  | current :: queue =>
      match fuel with
      | 0 => Raise OutOfFuel
      | S fuel =>
          ds ← dict_index dependents current;
          ds ← sorted_by_identity ds;
          st ← mfold release_dependent (indegree, queue) ds;
          kahn_loop fuel dependents st.1 st.2 (order ++ [current])
      end
  end.

Definition zero_degree_nodes (indegree : dict string Z) : list string :=
  dict_keys (dict_filter (fun _ degree => bool_decide (degree = 0%Z)) indegree).

Definition residual_nodes (g : graph) (order : list string) : list string :=
  base.filter (fun n => n ∉ order) (dict_keys g).

Definition topological_dependency_order (deps : graph) : result (list string) :=
  let g := dependency_graph deps in
  st ← build_dependents g;
  queue ← sorted_by_identity (zero_degree_nodes st.2);
  order ← kahn_loop (length (dict_keys g)) st.1 st.2 queue [];
  if decide (length order = length (dict_keys g)) then Ok order
  else residual ← sorted_by_identity (residual_nodes g order); Ok (order ++ residual).

Definition reverse_delete_order (deps : graph) : result (list string) :=
  order ← topological_dependency_order deps; Ok (reverse order).

Section resource_orders.
Context {R : Type} `{!SupportsDependencySemantics R}.
Implicit Type resources : dict string R.

Definition resource_topological_order resources : result (list string) :=
  g ← dependency_graph_for_resources resources ORDERING;
  topological_dependency_order g.

Definition resource_delete_order resources : result (list string) :=
  order ← resource_topological_order resources; Ok (reverse order).

(** ** Refresh impact *)

(** The [for dependent in ...] body: skip what already changed or is known. *)
Definition mark_impacted (changed : list string) (st : list string * list string)
    (dependent : string) : list string * list string :=
  if decide (dependent ∈ changed \/ dependent ∈ st.1) then st
  else (st.1 ++ [dependent], st.2 ++ [dependent]).

Fixpoint impact_loop (fuel : nat) (dependents : graph) (changed : list string)
    (impacted queue : list string) : result (list string) :=
  match queue with
  | [] => Ok impacted
  | dependency :: queue =>
      match fuel with
      | 0 => Raise OutOfFuel
      | S fuel =>
          ds ← sorted_by_identity (default [] (dependents !! dependency));
          let st := foldl (mark_impacted changed) (impacted, queue) ds in
          impact_loop fuel dependents changed st.1 st.2
      end
  end.

(** [dependents.setdefault(dependency, []).append(address)]. *)
Definition add_dependent (address : string) (dependents : graph) (dependency : string) : graph :=
  <[dependency := default [] (dependents !! dependency) ++ [address]]> dependents.

Definition reverse_graph (g : graph) : graph :=
  foldl (fun m kv => foldl (add_dependent kv.1) m kv.2) (dict_map (fun _ => []) g) (dict_items g).

Definition refresh_impacted_nodes resources (changed_nodes : list string) : result (list string) :=
  let changed := py_dedupe changed_nodes in
  g ← dependency_graph_for_resources resources REFRESH;
  queue ← sorted_by_identity changed;
  impacted ← impact_loop (length changed + length (dict_keys g)) (reverse_graph g) changed [] queue;
  refresh_order ← topological_dependency_order g;
  Ok (base.filter (fun address => address ∈ impacted) refresh_order).
End resource_orders.

(** ** Reconciliation *)

Section reconcile.
Context {R S D : Type} `{!SupportsDependencySemantics D}.
Context (resource_dependencies : R -> D) (matches : S -> R -> bool).
Implicit Types (resources : dict string R) (snapshot : dict string S).

Definition initial_action snapshot (address : string) (resource : R) : reconciliation_action :=
  match snapshot !! address with
  | None => CREATE
  | Some existing => if matches existing resource then UNCHANGED else UPDATE
  end.

Definition resource_actions resources snapshot : dict string reconciliation_action :=
  dict_of_list ((fun kv => (kv.1, initial_action snapshot kv.1 kv.2)) <$> dict_items resources).

Definition deleted_snapshot_entries resources snapshot : dict string S :=
  dict_filter (fun address _ => bool_decide (address ∉ dict_keys resources)) snapshot.

Definition delete_actions (deleted : dict string S) (actions : dict string reconciliation_action) :=
  foldl (fun acts address => <[address := DELETE]> acts) actions (dict_keys deleted).

Definition changed_addresses (actions : dict string reconciliation_action) : list string :=
  dict_keys (dict_filter (fun _ action => bool_decide (action = CREATE \/ action = UPDATE)) actions).

Definition refresh_action (actions : dict string reconciliation_action) (address : string)
    : result (dict string reconciliation_action) :=
  action ← dict_index actions address;
  Ok (if decide (action = UNCHANGED) then <[address := UPDATE]> actions else actions).

Definition reconcile_resource_actions resources snapshot
    : result (dict string reconciliation_action * dict string S) :=
  let deleted := deleted_snapshot_entries resources snapshot in
  let actions := delete_actions deleted (resource_actions resources snapshot) in
  impacted ← refresh_impacted_nodes (dict_map resource_dependencies resources) (changed_addresses actions);
  actions ← mfold refresh_action actions impacted;
  Ok (actions, deleted).
End reconcile.
