(* ===== verification/DepGraphFacts.v ===== *)
(** Correctness of the dependency-graph functions of [DepGraph]. *)
From S2P Require Import Prelude.
From S2P Require Import Addressing.
From S2P Require Import DepGraph.
Local Open Scope string_scope.
Local Open Scope list_scope.

Lemma mmap_identity l l' : mmap canonical_resource_identity l = Ok l' -> addresses_ok l /\ l' = l.
Proof.
  revert l'; induction l as [|a l IH]; simpl; intros l' H; inv_result; [by split; [constructor|]|].
  unfold canonical_resource_identity in E. apply require_compiled_address_Ok in E as [-> Ha].
  destruct (IH _ E0) as [Hl ->]. split; [by constructor|done].
Qed.

Lemma canonical_resource_identity_ok a :
  compiled_address_ok a = true -> canonical_resource_identity a = Ok a.
Proof. intros. by apply require_compiled_address_Ok. Qed.

Lemma mmap_identity_ok l : addresses_ok l -> mmap canonical_resource_identity l = Ok l.
Proof.
  induction 1 as [|a l Ha _ IH]; simpl; [done|].
  rewrite canonical_resource_identity_ok by done; simpl. by rewrite IH.
Qed.

Lemma sorted_by_identity_Ok l l' :
  sorted_by_identity l = Ok l' <-> addresses_ok l /\ l' = py_sorted l.
Proof.
  unfold sorted_by_identity. split.
  - intros H. inv_result. apply mmap_identity in E as [? ->]. done.
  - intros [Hl ->]. by rewrite mmap_identity_ok.
Qed.

Lemma sorted_by_identity_ok l : addresses_ok l -> sorted_by_identity l = Ok (py_sorted l).
Proof. intros. by apply sorted_by_identity_Ok. Qed.

(** ** Normalised graphs *)

Lemma dependency_graph_keys deps : dict_keys (dependency_graph deps) = dict_keys deps.
Proof. apply dict_map_keys. Qed.

Lemma dependency_graph_lookup deps n :
  dependency_graph deps !! n = base.filter (fun d => d ∈ dict_keys deps) <$> deps !! n.
Proof. apply dict_map_get. Qed.

(** Every dependency is a known node, as in the graphs the code builds. *)
Definition graph_closed (g : graph) : Prop :=
  forall n ds d, g !! n = Some ds -> d ∈ ds -> d ∈ dict_keys g.

Lemma dependency_graph_closed deps : graph_closed (dependency_graph deps).
Proof.
  intros n ds d. rewrite dependency_graph_lookup, dependency_graph_keys, fmap_Some.
  intros (ds' & _ & ->). rewrite list_elem_of_filter. naive_solver.
Qed.

Lemma dependency_graph_wf deps : dict_wf deps -> dict_wf (dependency_graph deps).
Proof. unfold dict_wf. by rewrite dependency_graph_keys. Qed.

Lemma filter_id {A} (P : A -> Prop) `{forall x, Decision (P x)} (l : list A) :
  (forall x, x ∈ l -> P x) -> base.filter P l = l.
Proof.
  induction l as [|x l IH]; intros HP; [done|].
  rewrite filter_cons_True by (apply HP; left). f_equal. apply IH. set_solver.
Qed.

(** Direct dependency in a graph. *)
Definition depends (g : graph) (n d : string) : Prop := exists ds, g !! n = Some ds /\ d ∈ ds.

Lemma depends_dependency_graph deps n d :
  depends (dependency_graph deps) n d <-> depends deps n d /\ d ∈ dict_keys deps.
Proof.
  unfold depends. rewrite dependency_graph_lookup. setoid_rewrite fmap_Some. split.
  - intros (? & (ds & ? & ->) & Hd). apply list_elem_of_filter in Hd. naive_solver.
  - intros [(ds & Hds & Hd) ?]. eexists. split; [by exists ds|]. by apply list_elem_of_filter.
Qed.

Lemma depends_keys g n d : graph_closed g -> depends g n d -> n ∈ dict_keys g /\ d ∈ dict_keys g.
Proof.
  intros Hc (ds & Hds & Hd). split; [|by eapply Hc]. apply dict_get_is_Some. by eexists.
Qed.

(** ** Graphs of resources *)

Definition edges_from (n : string) (edges : list dependency_edge) : list string :=
  edge_target <$> base.filter (fun e => edge_source e = n) edges.

Lemma edges_from_app n l1 l2 : edges_from n (l1 ++ l2) = edges_from n l1 ++ edges_from n l2.
Proof. unfold edges_from. by rewrite filter_app, fmap_app. Qed.

Lemma edges_from_block n m kind (ts : list string) :
  edges_from n ((fun t => DependencyEdge m t kind) <$> ts) = if decide (m = n) then ts else [].
Proof.
  induction ts as [|t ts IH]; [by case_decide|]. unfold edges_from in *. rewrite fmap_cons.
  case_decide as Hm.
  - rewrite filter_cons_True by done. rewrite fmap_cons. by f_equal.
  - by rewrite filter_cons_False.
Qed.

Definition add_edge (g : graph) (e : dependency_edge) : graph :=
  match g !! edge_source e with
  | Some ts => <[edge_source e := ts ++ [edge_target e]]> g
  | None => g
  end.

Lemma add_edges_lookup edges : forall (g : graph) n,
  foldl add_edge g edges !! n = (fun ts => ts ++ edges_from n edges) <$> g !! n.
Proof.
  induction edges as [|e edges IH]; intros g n; simpl.
  - destruct (g !! n); simpl; [by rewrite app_nil_r|done].
  - rewrite IH. unfold add_edge. destruct (g !! edge_source e) as [ts|] eqn:E.
    + rewrite dict_get_set. unfold edges_from at 2. case_decide as Hn.
      * rewrite filter_cons_True by done. subst. rewrite E; simpl. by rewrite <-app_assoc.
      * by rewrite filter_cons_False.
    + destruct (decide (edge_source e = n)) as [<-|Hn]; [by rewrite E|].
      unfold edges_from at 2. by rewrite filter_cons_False.
Qed.

Lemma add_edges_keys edges : forall (g : graph), dict_keys (foldl add_edge g edges) = dict_keys g.
Proof.
  induction edges as [|e edges IH]; intros g; simpl; [done|]. rewrite IH. unfold add_edge.
  destruct (g !! edge_source e) eqn:E; [|done]. rewrite dict_keys_set, decide_True; [done|].
  apply dict_get_is_Some. eauto.
Qed.

Section resource_graph.
Context {R : Type} `{!SupportsDependencySemantics R}.
Implicit Type resources : dict string R.

(** The dependencies of a resource that are resources themselves. *)
Definition known_dependencies resources (kind : dependency_kind) (r : R) : list string :=
  base.filter (fun t => t ∈ dict_keys resources) (dependencies_of kind r).

Lemma dependency_edges_spec resources kind :
  dict_wf resources -> addresses_ok (dict_keys resources) ->
  exists edges, dependency_edges resources kind = Ok edges /\
    forall n, edges_from n edges = default [] (known_dependencies resources kind <$> resources !! n).
Proof.
  intros Hwf Hok. unfold dependency_edges. rewrite sorted_by_identity_ok by done. simpl.
  destruct (mfold_prefix
    (fun pre edges => forall n, edges_from n edges =
       if decide (n ∈ pre) then default [] (known_dependencies resources kind <$> resources !! n) else [])
    (fun edges source => resource ← dict_index resources source;
       Ok (edges ++ ((fun target => DependencyEdge source target kind) <$>
           base.filter (fun target => target ∈ dict_keys resources) (dependencies_of kind resource))))
    (py_sorted (dict_keys resources)) []) as (edges & -> & He).
  - intros pre x suf edges Hl Hpre.
    assert (NoDup (pre ++ x :: suf)) as Hnd by (rewrite <-Hl; by apply NoDup_py_sorted).
    assert (x ∈ dict_keys resources) as [r Hr]%dict_get_is_Some.
    { apply elem_of_py_sorted. rewrite Hl. set_solver. }
    unfold dict_index. rewrite Hr; simpl. eexists. split; [done|]. intros n.
    rewrite edges_from_app, Hpre, edges_from_block.
    apply NoDup_app in Hnd as (_ & Hx & _). specialize (Hx x).
    destruct (decide (x = n)) as [<-|Hn].
    + rewrite decide_False by set_solver. rewrite decide_True by set_solver. by rewrite Hr.
    + rewrite app_nil_r. do 2 case_decide; set_solver.
  - intros n. by rewrite decide_False by set_solver.
  - exists edges. split; [done|]. intros n. rewrite He. case_decide as Hn; [done|].
    rewrite elem_of_py_sorted in Hn. apply dict_get_None in Hn. by rewrite Hn.
Qed.

Lemma nil_graph_lookup (l : list string) n :
  NoDup l -> dict_of_list ((fun n => (n, [] : list string)) <$> l) !! n = if decide (n ∈ l) then Some [] else None.
Proof.
  intros Hl. rewrite dict_get_of_list; [|by rewrite <-list_fmap_compose, list_fmap_id].
  clear Hl. induction l as [|m l IH]; [by rewrite decide_False by set_solver|].
  rewrite fmap_cons. cbn [items_get fst snd]. rewrite IH. destruct (decide (m = n)) as [->|Hm].
  - by rewrite decide_True by left.
  - do 2 case_decide; set_solver.
Qed.

Lemma nil_graph_keys (l : list string) :
  NoDup l -> dict_keys (dict_of_list ((fun n => (n, [] : list string)) <$> l)) = l.
Proof.
  intros. unfold dict_keys. rewrite dict_of_list_items; rewrite <-list_fmap_compose; by rewrite list_fmap_id.
Qed.

(** The normalised graph of a resource set: one node per resource, its known
    dependencies in declaration order. *)
Lemma dependency_graph_for_resources_spec resources kind :
  dict_wf resources -> addresses_ok (dict_keys resources) ->
  exists g, dependency_graph_for_resources resources kind = Ok g /\
    dict_keys g = dict_keys resources /\ graph_closed g /\
    forall n, g !! n = known_dependencies resources kind <$> resources !! n.
Proof.
  intros Hwf Hok. destruct (dependency_edges_spec resources kind Hwf Hok) as (edges & HE & He).
  unfold dependency_graph_for_resources. rewrite HE; simpl. eexists. split; [done|].
  set (g0 := dict_of_list ((fun n => (n, [] : list string)) <$> dict_keys resources)).
  set (g := foldl add_edge g0 edges).
  change (dependency_graph_from_edges edges (dict_keys resources)) with (dependency_graph g).
  assert (dict_keys g = dict_keys resources) as Hkeys.
  { unfold g. rewrite add_edges_keys. by apply nil_graph_keys. }
  split_and!.
  - by rewrite dependency_graph_keys.
  - apply dependency_graph_closed.
  - intros n. rewrite dependency_graph_lookup, Hkeys. unfold g. rewrite add_edges_lookup.
    unfold g0. rewrite nil_graph_lookup by done. rewrite He.
    case_decide as Hn; [apply dict_get_is_Some in Hn as [r Hr]|apply dict_get_None in Hn as Hr]; rewrite Hr; simpl; [|done].
    f_equal. apply filter_id. intros d. unfold known_dependencies. rewrite list_elem_of_filter. naive_solver.
Qed.
End resource_graph.

(** ** Kahn's algorithm *)

Definition deps_of (g : graph) (n : string) : list string := default [] (g !! n).

Lemma count_dependency_step (st : graph * dict string Z) node dependency :
  dependency ∈ dict_keys st.1 -> node ∈ dict_keys st.2 ->
  exists st', count_dependency node st dependency = Ok st' /\
    dict_keys st'.1 = dict_keys st.1 /\ dict_keys st'.2 = dict_keys st.2 /\
    (forall c ds', st'.1 !! c = Some ds' -> exists ds, st.1 !! c = Some ds /\
       forall n, occ n ds' = (occ n ds + if decide (c = dependency /\ n = node) then 1 else 0)%Z) /\
    (forall n z', st'.2 !! n = Some z' -> exists z, st.2 !! n = Some z /\
       z' = (z + if decide (n = node) then 1 else 0)%Z).
Proof.
  intros [ds Hds]%dict_get_is_Some [z Hz]%dict_get_is_Some.
  unfold count_dependency, dict_index. rewrite Hds; simpl. rewrite Hz; simpl.
  eexists. split; [done|]. simpl. rewrite !dict_keys_set.
  rewrite !decide_True by (apply dict_get_is_Some; eauto). split_and!; [done|done| |].
  - intros c ds'. rewrite dict_get_set. case_decide as Hc; intros Heq; simplify_eq.
    + eexists. split; [done|]. intros n. rewrite occ_app; simpl.
      destruct (decide (node = n)); case_decide; naive_solver lia.
    + eexists. split; [done|]. intros n. rewrite decide_False by naive_solver. lia.
  - intros n z'. rewrite dict_get_set. case_decide; intros Heq; simplify_eq; eexists; (split; [done|]);
      case_decide; naive_solver lia.
Qed.

(** Recording all the dependencies of one node. *)
Lemma count_dependencies (st : graph * dict string Z) node deps :
  (forall d, d ∈ deps -> d ∈ dict_keys st.1) -> node ∈ dict_keys st.2 ->
  exists st', mfold (count_dependency node) st deps = Ok st' /\
    dict_keys st'.1 = dict_keys st.1 /\ dict_keys st'.2 = dict_keys st.2 /\
    (forall c ds', st'.1 !! c = Some ds' -> exists ds, st.1 !! c = Some ds /\
       forall n, occ n ds' = (occ n ds + if decide (n = node) then occ c deps else 0)%Z) /\
    (forall n z', st'.2 !! n = Some z' -> exists z, st.2 !! n = Some z /\
       z' = (z + if decide (n = node) then Z.of_nat (length deps) else 0)%Z).
Proof.
  revert st; induction deps as [|d deps IH]; intros st Hd Hn; simpl.
  - eexists. split_and!; [done..| |]; intros ?? Hx; eexists; (split; [done|]); intros; case_decide; lia.
  - destruct (count_dependency_step st node d) as (st1 & -> & K1 & K2 & H1 & H2); [apply Hd; left|done|]; simpl.
    destruct (IH st1) as (st2 & -> & K1' & K2' & H1' & H2').
    { intros d' Hd'. rewrite K1. apply Hd. by right. } { by rewrite K2. }
    exists st2. split_and!; [done|congruence|congruence| |].
    + intros c ds' Hc. destruct (H1' c ds' Hc) as (ds & Hc' & Hocc).
      destruct (H1 c ds Hc') as (ds0 & Hc0 & Hocc0). exists ds0. split; [done|]. intros n.
      rewrite Hocc, Hocc0. repeat case_decide; naive_solver lia.
    + intros n z' Hz. destruct (H2' n z' Hz) as (z & Hz' & ->).
      destruct (H2 n z Hz') as (z0 & Hz0 & ->). exists z0. split; [done|]. case_decide; lia.
Qed.

(** What the two tables hold once every edge has been recorded. *)
Record dependents_ok (g : graph) (st : graph * dict string Z) : Prop := {
  dependents_keys : dict_keys st.1 = dict_keys g;
  indegree_keys : dict_keys st.2 = dict_keys g;
  dependents_occ c ds n : st.1 !! c = Some ds -> occ n ds = occ c (deps_of g n);
  indegree_count n z : st.2 !! n = Some z -> z = Z.of_nat (length (deps_of g n));
}.

Lemma deps_of_item (g : graph) n ds : dict_wf g -> (n, ds) ∈ dict_items g -> deps_of g n = ds.
Proof. intros Hwf Hin. unfold deps_of. by rewrite (proj2 (dict_get_Some n ds g Hwf) Hin). Qed.

Lemma build_dependents_spec (g : graph) :
  dict_wf g -> graph_closed g -> exists st, build_dependents g = Ok st /\ dependents_ok g st.
Proof.
  intros Hwf Hc. unfold build_dependents.
  destruct (mfold_prefix
    (fun pre st => dict_keys st.1 = dict_keys g /\ dict_keys st.2 = dict_keys g /\
       (forall c ds n, st.1 !! c = Some ds -> occ n ds = if decide (n ∈ pre.*1) then occ c (deps_of g n) else 0%Z) /\
       (forall n z, st.2 !! n = Some z -> z = if decide (n ∈ pre.*1) then Z.of_nat (length (deps_of g n)) else 0%Z))
    (fun st kv => mfold (count_dependency kv.1) st kv.2)
    (dict_items g) (dict_map (fun _ => []) g, dict_map (fun _ => 0%Z) g)) as (st & -> & K1 & K2 & H1 & H2).
  - intros pre [node deps] suf st Hl (K1 & K2 & H1 & H2); simpl.
    assert ((node, deps) ∈ dict_items g) as Hin by (rewrite Hl; set_solver).
    assert (node ∉ pre.*1) as Hnew.
    { unfold dict_wf, dict_keys in Hwf. rewrite Hl, fmap_app in Hwf. apply NoDup_app in Hwf as (_ & Hx & _).
      intros Hx'. apply (Hx _ Hx'). left. }
    apply deps_of_item in Hin as Hdeps; [|done].
    destruct (count_dependencies st node deps) as (st' & -> & K1' & K2' & H1' & H2').
    { intros d Hd. rewrite K1. eapply Hc; [by apply dict_get_Some|done]. }
    { rewrite K2. apply list_elem_of_fmap. by exists (node, deps). }
    exists st'. split_and!; [done|congruence|congruence| |].
    + intros c ds n Hds. destruct (H1' c ds Hds) as (ds0 & Hds0 & ->). rewrite (H1 c ds0 n Hds0).
      rewrite fmap_app. cbn [fmap list_fmap fst]. destruct (decide (n = node)) as [->|Hn].
      * rewrite decide_False by done. rewrite decide_True by set_solver. by rewrite Hdeps.
      * do 2 case_decide; [lia|set_solver|set_solver|lia].
    + intros n z' Hz. destruct (H2' n z' Hz) as (z & Hz0 & ->). rewrite (H2 n z Hz0).
      rewrite fmap_app. cbn [fmap list_fmap fst]. destruct (decide (n = node)) as [->|Hn].
      * rewrite decide_False by done. rewrite decide_True by set_solver. by rewrite Hdeps.
      * do 2 case_decide; [lia|set_solver|set_solver|lia].
  - cbn [fst snd]. rewrite !dict_map_keys. split_and!; [done|done| |].
    + intros c ds n. rewrite dict_map_get, fmap_Some. intros (? & _ & ->). by rewrite decide_False by set_solver.
    + intros n z. rewrite dict_map_get, fmap_Some. intros (? & _ & ->). by rewrite decide_False by set_solver.
  - exists st. split; [done|]. split; [done|done| |].
    + intros c ds n Hds. rewrite (H1 c ds n Hds). case_decide as Hn; [done|].
      unfold deps_of. by rewrite (proj2 (dict_get_None n g) Hn).
    + intros n z Hz. rewrite (H2 n z Hz). case_decide as Hn; [done|].
      unfold deps_of. by rewrite (proj2 (dict_get_None n g) Hn).
Qed.

Lemma release_dependent_ok (indegree : dict string Z) queue x z :
  indegree !! x = Some z ->
  release_dependent (indegree, queue) x =
    Ok (<[x := (z - 1)%Z]> indegree, if decide (z - 1 = 0)%Z then queue ++ [x] else queue).
Proof. intros Hz. unfold release_dependent, dict_index. cbn [fst snd]. by rewrite Hz. Qed.

(** Decrementing a batch of counters: each node of the batch loses its number
    of occurrences, and exactly those reaching zero are queued, once. *)
Lemma release_dependents (ds : list string) : forall (indegree : dict string Z) (queue : list string),
  (forall n, n ∈ ds -> exists z, indegree !! n = Some z /\ (occ n ds <= z)%Z) ->
  exists indegree' news, mfold release_dependent (indegree, queue) ds = Ok (indegree', queue ++ news) /\
    (forall n, indegree' !! n = (fun z => z - occ n ds)%Z <$> indegree !! n) /\
    NoDup news /\ (forall n, n ∈ news <-> n ∈ ds /\ indegree !! n = Some (occ n ds)).
Proof.
  induction ds as [|x ds IH]; intros indegree queue Hds; cbn [mfold].
  - exists indegree, []. rewrite app_nil_r. split_and!; [done| |constructor|set_solver].
    intros n. simpl. destruct (indegree !! n); simpl; [by rewrite Z.sub_0_r|done].
  - destruct (Hds x) as (z & Hz & Hzx); [left|]. simpl in Hzx. rewrite decide_True in Hzx by done.
    rewrite (release_dependent_ok _ _ _ _ Hz). cbn [mbind result_bind].
    set (queue1 := if decide _ then _ else _).
    destruct (IH (<[x := (z - 1)%Z]> indegree) queue1) as (indegree' & news & -> & Hin & Hnd & Hnews).
    { intros n Hn. destruct (Hds n) as (zn & Hzn & Hle); [by right|]. simpl in Hle. rewrite dict_get_set.
      case_decide; [|by eauto]. subst. rewrite Hz in Hzn. simplify_eq. eexists. split; [done|]. lia. }
    exists indegree', ((if decide (z - 1 = 0)%Z then [x] else []) ++ news). split_and!.
    + f_equal. f_equal. unfold queue1. case_decide; [by rewrite <-app_assoc|done].
    + intros n. rewrite Hin, dict_get_set. cbn [occ]. case_decide; simpl.
      * subst. rewrite Hz; simpl. f_equal. lia.
      * destruct (indegree !! n); simpl; [f_equal; lia|done].
    + case_decide as H0; [|done]. apply NoDup_cons. split; [|done]. rewrite Hnews, <-occ_pos.
      pose proof (occ_nonneg x ds). lia.
    + intros n. rewrite elem_of_app, Hnews, elem_of_cons. cbn [occ].
      rewrite dict_get_set. destruct (decide (x = n)) as [<-|Hn].
      * rewrite Hz. pose proof (occ_nonneg x ds). pose proof (occ_pos x ds) as Hpos.
        assert (x ∈ (if decide (z - 1 = 0)%Z then [x] else []) <-> z = 1%Z) as ->.
        { case_decide; [rewrite list_elem_of_singleton|]; set_solver by lia. }
        split.
        -- intros [->|[Hx [= Heq]]]; (split; [by left|f_equal; lia]).
        -- intros [_ [= Heq]]. destruct (decide (occ x ds = 0%Z)); [left; lia|right].
           split; [apply Hpos; lia|f_equal; lia].
      * rewrite Z.add_0_l. case_decide; set_solver.
Qed.

Section kahn.
Context (g : graph) (Hwf : dict_wf g) (Hclosed : graph_closed g) (Haddr : addresses_ok (dict_keys g)).

(** How many dependencies of [n] are still missing from [order]. *)
Definition pending (order : list string) (n : string) : Z :=
  Z.of_nat (length (base.filter (fun d => d ∉ order) (deps_of g n))).

Lemma pending_snoc order c n :
  c ∉ order -> pending (order ++ [c]) n = (pending order n - occ c (deps_of g n))%Z.
Proof.
  intros Hc. unfold pending. induction (deps_of g n) as [|d ds IH]; [done|].
  cbn [occ]. destruct (decide (d = c)) as [->|Hd].
  - rewrite filter_cons_False by set_solver. rewrite filter_cons_True by done. simpl. lia.
  - destruct (decide (d ∈ order)).
    + rewrite !filter_cons_False by set_solver. lia.
    + rewrite !filter_cons_True by set_solver. simpl. lia.
Qed.

Lemma pending_zero order n : pending order n = 0%Z <-> deps_of g n ⊆ order.
Proof.
  unfold pending. split.
  - intros H d Hd. destruct (decide (d ∈ order)) as [|Hn]; [done|]. exfalso.
    assert (d ∈ base.filter (fun d => d ∉ order) (deps_of g n)) as Hf by (by apply list_elem_of_filter).
    destruct (base.filter _ _); [set_solver|simpl in H; lia].
  - intros H. destruct (base.filter _ _) as [|d l] eqn:E; [done|].
    assert (d ∈ base.filter (fun d => d ∉ order) (deps_of g n)) as Hf by (rewrite E; left).
    apply list_elem_of_filter in Hf. set_solver.
Qed.

Lemma pending_occ order c n : c ∉ order -> (occ c (deps_of g n) <= pending order n)%Z.
Proof. intros Hc. pose proof (pending_snoc order c n Hc). unfold pending in *. lia. Qed.

(** Every emitted node comes after all of its dependencies. *)
Definition ordered_prefix (order : list string) : Prop :=
  forall l1 n l2, order = l1 ++ n :: l2 -> deps_of g n ⊆ l1.

Record kahn_inv (indegree : dict string Z) (queue order : list string) : Prop := {
  kahn_NoDup : NoDup (order ++ queue);
  kahn_nodes : order ++ queue ⊆ dict_keys g;
  kahn_indegree n : n ∈ dict_keys g -> indegree !! n = Some (pending order n);
  kahn_ready n : n ∈ dict_keys g -> n ∈ order ++ queue <-> pending order n = 0%Z;
  kahn_ordered : ordered_prefix order;
}.

Lemma deps_of_keys n d : d ∈ deps_of g n -> n ∈ dict_keys g /\ d ∈ dict_keys g.
Proof.
  unfold deps_of. destruct (g !! n) as [ds|] eqn:E; simpl; [|set_solver].
  intros Hd. split; [apply dict_get_is_Some; eauto|by eapply Hclosed].
Qed.

Lemma ordered_prefix_snoc order c :
  ordered_prefix order -> deps_of g c ⊆ order -> ordered_prefix (order ++ [c]).
Proof.
  intros Ho Hc l1 n l2 Heq. destruct l2 as [|y l2 _] using rev_ind.
  - apply app_inj_tail in Heq as [-> ->]. done.
  - rewrite app_comm_cons, app_assoc in Heq. apply app_inj_tail in Heq as [-> _]. by eapply Ho.
Qed.

Context (st : graph * dict string Z) (Hst : dependents_ok g st).

Lemma dependents_lookup c :
  c ∈ dict_keys g -> exists ds, st.1 !! c = Some ds /\ addresses_ok ds /\
    (forall n, occ n ds = occ c (deps_of g n)) /\ (forall n, n ∈ ds -> n ∈ dict_keys g).
Proof.
  intros Hc. rewrite <-(dependents_keys _ _ Hst) in Hc. apply dict_get_is_Some in Hc as [ds Hds].
  assert (forall n, n ∈ ds -> n ∈ dict_keys g) as Hsub.
  { intros n Hn. apply occ_pos in Hn. rewrite (dependents_occ _ _ Hst _ _ n Hds) in Hn.
    apply occ_pos, deps_of_keys in Hn as [Hn _]. exact Hn. }
  exists ds. split_and!; [done| |intros n; by apply (dependents_occ _ _ Hst)|done].
  by apply (addresses_ok_subset _ (dict_keys g)).
Qed.

(** One iteration emits the head of the queue and keeps the invariant. *)
Lemma kahn_step indegree current queue order :
  kahn_inv indegree (current :: queue) order ->
  exists indegree' news ds, st.1 !! current = Some ds /\ addresses_ok ds /\
    mfold release_dependent (indegree, queue) (py_sorted ds) = Ok (indegree', queue ++ news) /\
    kahn_inv indegree' (queue ++ news) (order ++ [current]).
Proof.
  intros [Hnd Hsub Hin Hready Hord].
  assert (current ∈ dict_keys g) as Hcur by (apply Hsub; set_solver).
  assert (current ∉ order) as Hnew.
  { apply NoDup_app in Hnd as (_ & Hx & _). intros Hx'. apply (Hx _ Hx'). left. }
  destruct (dependents_lookup current Hcur) as (ds & Hds & Hok & Hocc & Hdk).
  destruct (release_dependents (py_sorted ds) indegree queue) as (indegree' & news & Hrun & Hin' & Hnd' & Hnews).
  { intros n Hn. rewrite elem_of_py_sorted in Hn. exists (pending order n).
    split; [by auto|]. rewrite (occ_perm _ _ _ (py_sorted_perm ds)), Hocc. by apply pending_occ. }
  assert (forall n, n ∈ dict_keys g -> n ∈ news <-> occ n ds <> 0%Z /\ pending (order ++ [current]) n = 0%Z) as Hnews'.
  { intros n Hn. rewrite Hnews, elem_of_py_sorted, Hin, (occ_perm _ _ _ (py_sorted_perm ds)), pending_snoc by done.
    rewrite <-Hocc, <-occ_pos. pose proof (occ_nonneg n ds). split.
    - intros [? [= ?]]. lia.
    - intros []. split; [lia|f_equal; lia]. }
  exists indegree', news, ds. split_and!; [done..|]. split.
  - rewrite <-app_assoc. simpl. rewrite app_comm_cons, app_assoc. apply NoDup_app. split_and!; [done| |done].
    intros n Hn Hn'. assert (n ∈ dict_keys g) as Hng by (by apply Hsub).
    apply Hready in Hn; [|done]. apply Hnews' in Hn'; [|done]. rewrite pending_snoc, <-Hocc in Hn' by done.
    pose proof (occ_nonneg n ds). lia.
  - intros n. rewrite !elem_of_app, list_elem_of_singleton. intros [[Hn| ->]|[Hn|Hn]];
      [apply Hsub; rewrite elem_of_app; tauto|done|apply Hsub; rewrite elem_of_app, elem_of_cons; tauto|].
    apply Hnews in Hn as [Hn _]. apply Hdk. by apply elem_of_py_sorted.
  - intros n Hn. rewrite Hin', Hin by done. simpl. f_equal.
    by rewrite (occ_perm _ _ _ (py_sorted_perm ds)), Hocc, pending_snoc.
  - intros n Hn. pose proof (Hready n Hn) as Hr. specialize (Hnews' n Hn).
    rewrite pending_snoc, <-Hocc in * by done. pose proof (occ_nonneg n ds).
    pose proof (pending_occ order current n Hnew) as Hle. rewrite <-Hocc in Hle.
    rewrite elem_of_app, elem_of_cons in Hr. rewrite !elem_of_app, list_elem_of_singleton.
    destruct (decide (occ n ds = 0%Z)) as [H0|H0].
    + assert (n ∉ news) by (rewrite Hnews'; tauto).
      replace (pending order n - occ n ds)%Z with (pending order n) by lia. rewrite <-Hr. tauto.
    + assert (pending order n <> 0%Z) as Hp by lia. rewrite <-Hr in Hp. tauto.
  - apply ordered_prefix_snoc; [done|]. apply pending_zero, Hready; [done|]. set_solver.
Qed.

Lemma kahn_loop_spec fuel : forall indegree queue order,
  kahn_inv indegree queue order -> length (dict_keys g) <= fuel + length order ->
  exists indegree' order', kahn_loop fuel st.1 indegree queue order = Ok order' /\ kahn_inv indegree' [] order'.
Proof.
  induction fuel as [|fuel IH]; intros indegree [|current queue] order Hinv Hfuel; simpl; [by eauto| |by eauto|].
  - exfalso. pose proof (NoDup_submseteq _ _ (kahn_NoDup _ _ _ Hinv) (kahn_nodes _ _ _ Hinv)) as Hlen.
    apply submseteq_length in Hlen. rewrite length_app in Hlen. simpl in *. lia.
  - destruct (kahn_step _ _ _ _ Hinv) as (indegree' & news & ds & Hds & Hok & Hrun & Hinv').
    rewrite (proj2 (dict_index_Ok _ _ _) Hds). cbn [mbind result_bind].
    rewrite sorted_by_identity_ok by done. cbn [mbind result_bind]. rewrite Hrun. cbn [mbind result_bind fst snd].
    apply IH; [done|]. rewrite length_app; simpl. lia.
Qed.

Lemma elem_of_zero_degree_nodes n :
  n ∈ zero_degree_nodes st.2 <-> n ∈ dict_keys g /\ deps_of g n = [].
Proof.
  assert (dict_wf st.2) as Hwf2 by (unfold dict_wf; by rewrite (indegree_keys _ _ Hst)).
  unfold zero_degree_nodes. rewrite elem_of_dict_filter_keys by done. split.
  - intros (z & Hz & ->%bool_decide_eq_true). split; [rewrite <-(indegree_keys _ _ Hst); apply dict_get_is_Some; eauto|].
    apply (indegree_count _ _ Hst) in Hz. apply length_zero_iff_nil. lia.
  - intros [Hn Hd]. rewrite <-(indegree_keys _ _ Hst) in Hn. apply dict_get_is_Some in Hn as [z Hz].
    exists z. split; [done|]. apply bool_decide_eq_true. rewrite (indegree_count _ _ Hst _ _ Hz). by rewrite Hd.
Qed.

Lemma kahn_init : kahn_inv st.2 (py_sorted (zero_degree_nodes st.2)) [].
Proof.
  assert (dict_wf st.2) as Hwf2 by (unfold dict_wf; by rewrite (indegree_keys _ _ Hst)).
  split.
  - simpl. apply NoDup_py_sorted. by apply dict_filter_keys_NoDup.
  - simpl. intros n. rewrite elem_of_py_sorted, elem_of_zero_degree_nodes. by intros [].
  - intros n Hn. rewrite <-(indegree_keys _ _ Hst) in Hn. apply dict_get_is_Some in Hn as [z Hz].
    rewrite Hz, (indegree_count _ _ Hst _ _ Hz). unfold pending. by rewrite filter_id by set_solver.
  - intros n Hn. simpl. rewrite elem_of_py_sorted, elem_of_zero_degree_nodes, pending_zero. split.
    + intros [_ ->]. done.
    + intros Hsub. split; [done|]. destruct (deps_of g n); [done|set_solver].
  - intros l1 n l2 Heq. by destruct l1.
Qed.
End kahn.

(** ** The order as a whole *)

(** What a run returns on any graph: the emitted nodes in dependency order,
    then the residual nodes, each waiting for another residual node. *)
Record order_spec (g : graph) (order emitted residual : list string) : Prop := {
  order_split : order = emitted ++ residual;
  order_perm : order ≡ₚ dict_keys g;
  order_emitted : ordered_prefix g emitted;
  order_residual n : n ∈ residual -> exists d, d ∈ residual /\ depends g n d;
  order_sorted : StronglySorted String.le residual;
}.

Lemma elem_of_deps_of g n d : d ∈ deps_of g n <-> depends g n d.
Proof.
  unfold deps_of, depends. destruct (g !! n) as [ds|]; simpl; [naive_solver|].
  split; [by intros ?%not_elem_of_nil|naive_solver].
Qed.

Lemma topological_dependency_order_spec deps :
  dict_wf deps -> addresses_ok (dict_keys deps) ->
  exists order emitted residual, topological_dependency_order deps = Ok order /\
    order_spec (dependency_graph deps) order emitted residual.
Proof.
  intros Hwf0 Haddr0. unfold topological_dependency_order. set (g := dependency_graph deps).
  assert (dict_wf g) as Hwf by (by apply dependency_graph_wf).
  assert (addresses_ok (dict_keys g)) as Haddr by (unfold g; by rewrite dependency_graph_keys).
  pose proof (dependency_graph_closed deps) as Hc. fold g in Hc.
  destruct (build_dependents_spec g Hwf Hc) as (st & -> & Hst). cbn [mbind result_bind].
  pose proof (kahn_init g Hwf Hc Haddr st Hst) as Hinit.
  rewrite sorted_by_identity_ok.
  2:{ eapply addresses_ok_subset; [|exact Haddr]. intros n Hn. by apply (elem_of_zero_degree_nodes g Hwf st Hst) in Hn as []. }
  cbn [mbind result_bind].
  destruct (kahn_loop_spec g Hwf Hc Haddr st Hst (length (dict_keys g)) _ _ _ Hinit)
    as (indegree' & order & -> & Hinv); [lia|]. cbn [mbind result_bind].
  pose proof (kahn_NoDup _ _ _ _ Hinv) as Hnd. pose proof (kahn_nodes _ _ _ _ Hinv) as Hsub.
  pose proof (kahn_ready _ _ _ _ Hinv) as Hready. rewrite app_nil_r in *.
  pose proof (NoDup_submseteq _ _ Hnd Hsub) as Hsm.
  case_decide as Hlen.
  - exists order, order, []. split; [done|]. split; [by rewrite app_nil_r| |apply Hinv| |constructor].
    + by apply submseteq_length_Permutation; [|lia].
    + by intros n ?%not_elem_of_nil.
  - set (res := residual_nodes g order). rewrite sorted_by_identity_ok.
    2:{ eapply addresses_ok_subset; [|exact Haddr]. intros n. unfold res, residual_nodes.
        rewrite list_elem_of_filter. by intros []. }
    cbn [mbind result_bind]. exists (order ++ py_sorted res), order, (py_sorted res). split; [done|].
    assert (forall n, n ∈ res <-> (n ∉ order) /\ (n ∈ dict_keys g)) as Hres.
    { intros n. unfold res, residual_nodes. by rewrite list_elem_of_filter. }
    split; [done| |apply Hinv| |apply py_sorted_sorted].
    + apply NoDup_Permutation; [|done|].
      * apply NoDup_app. split_and!; [done| |apply NoDup_py_sorted, NoDup_filter; done].
        intros n Hn. rewrite elem_of_py_sorted, Hres. tauto.
      * intros n. rewrite elem_of_app, elem_of_py_sorted, Hres. split; [intros [Hn|[_ Hn]]; [by apply Hsub|done]|].
        intros Hn. destruct (decide (n ∈ order)); [by left|by right].
    + intros n. rewrite elem_of_py_sorted, Hres. intros [Hn Hk]. rewrite Hready, pending_zero in Hn by done.
      assert (exists d, d ∈ deps_of g n /\ d ∉ order) as (d & Hd & Hdo).
      { destruct (base.filter (fun d => d ∉ order) (deps_of g n)) as [|d l] eqn:E.
        - destruct Hn. intros d Hd. destruct (decide (d ∈ order)); [done|].
          assert (d ∈ base.filter (fun d => d ∉ order) (deps_of g n)) as Hf by (by apply list_elem_of_filter).
          rewrite E in Hf. by apply not_elem_of_nil in Hf.
        - assert (d ∈ base.filter (fun d => d ∉ order) (deps_of g n)) as Hf by (rewrite E; left).
          apply list_elem_of_filter in Hf as []. by exists d. }
      exists d. rewrite elem_of_py_sorted, Hres, <-elem_of_deps_of. split; [split|]; [done| |done].
      by apply (deps_of_keys g Hwf Hc Haddr) in Hd as [].
Qed.

Lemma acyclic_residual g order emitted residual :
  acyclic (depends g) -> order_spec g order emitted residual -> residual = [].
Proof.
  intros Hac Hspec. destruct residual as [|x l] eqn:E; [done|]. exfalso. rewrite <-E in Hspec.
  apply (acyclic_minimal (depends g) residual Hac); [by rewrite E|]. apply (order_residual _ _ _ _ Hspec).
Qed.

Lemma ordered_prefix_before g order n d :
  ordered_prefix g order -> n ∈ order -> depends g n d -> before d n order.
Proof.
  intros Ho (l1 & l2 & ->)%list_elem_of_split Hd. apply elem_of_deps_of in Hd.
  apply (Ho l1 n l2 eq_refl) in Hd as (l1a & l1b & ->)%list_elem_of_split.
  exists l1a, l1b, l2. by rewrite <-app_assoc.
Qed.
