(* ===== verification/ReconcileFacts.v ===== *)
(** Facts about refresh impact, reconciliation and graph equivalence. *)
From S2P Require Import Prelude.
From S2P Require Import Addressing.
From S2P Require Import DepGraph.
From S2P Require Import DepGraphFacts.
Local Open Scope string_scope.
Local Open Scope list_scope.

(** ** Refresh impact *)

Lemma elem_of_add_dependent (m : graph) address dependency c a :
  a ∈ default [] (add_dependent address m dependency !! c) <->
  a ∈ default [] (m !! c) \/ (a = address /\ c = dependency).
Proof.
  unfold add_dependent. rewrite dict_get_set. case_decide as Hc; simpl.
  - subst. rewrite elem_of_app, list_elem_of_singleton. naive_solver.
  - naive_solver.
Qed.

Lemma elem_of_add_dependents address ds : forall (m : graph) c a,
  a ∈ default [] (foldl (add_dependent address) m ds !! c) <->
  a ∈ default [] (m !! c) \/ (a = address /\ c ∈ ds).
Proof.
  induction ds as [|d ds IH]; intros m c a; simpl.
  - split; [by left|]. intros [?|[_ ?%not_elem_of_nil]]; done.
  - rewrite IH, elem_of_add_dependent, elem_of_cons. naive_solver.
Qed.

Lemma elem_of_reverse_graph (g : graph) c a :
  dict_wf g -> a ∈ default [] (reverse_graph g !! c) <-> depends g a c.
Proof.
  intros Hwf. unfold reverse_graph.
  assert (forall l (m : graph), a ∈ default [] (foldl (fun m kv => foldl (add_dependent kv.1) m kv.2) m l !! c) <->
     a ∈ default [] (m !! c) \/ exists ds, (a, ds) ∈ l /\ c ∈ ds) as Hfold.
  { induction l as [|[a' ds] l IH]; intros m; simpl.
    - split; [by left|]. intros [?|(ds & Hin & _)]; [done|]. by apply not_elem_of_nil in Hin.
    - rewrite IH, elem_of_add_dependents. setoid_rewrite elem_of_cons. naive_solver. }
  rewrite Hfold, dict_map_get. unfold depends. setoid_rewrite (dict_get_Some a _ g Hwf). split.
  - intros [Hn|?]; [|done]. by destruct (g !! c); apply not_elem_of_nil in Hn.
  - by right.
Qed.

(** Marking a batch of dependents adds the new ones, once each, to both the
    impacted set and the queue. *)
Lemma mark_impacted_fold changed ds : forall impacted queue,
  exists news, foldl (mark_impacted changed) (impacted, queue) ds = (impacted ++ news, queue ++ news) /\
    NoDup news /\ (forall n, n ∈ news <-> (n ∈ ds) /\ (n ∉ changed) /\ (n ∉ impacted)).
Proof.
  induction ds as [|d ds IH]; intros impacted queue; simpl.
  - exists []. rewrite !app_nil_r. split_and!; [done|constructor|set_solver].
  - unfold mark_impacted at 2. cbn [fst snd]. case_decide as Hd.
    + destruct (IH impacted queue) as (news & Hrun & Hnd & Hnews). exists news.
      split_and!; [done|done|]. intros n. rewrite Hnews, elem_of_cons. naive_solver.
    + destruct (IH (impacted ++ [d]) (queue ++ [d])) as (news & Hrun & Hnd & Hnews). exists (d :: news).
      rewrite Hrun, <-!app_assoc. split_and!; [done| |].
      * apply NoDup_cons. split; [|done]. rewrite Hnews. set_solver.
      * intros n. rewrite elem_of_cons, Hnews, elem_of_cons, elem_of_app, list_elem_of_singleton.
        destruct (decide (n = d)) as [->|]; tauto.
Qed.

Section impact.
Context (g : graph) (Hwf : dict_wf g) (Hclosed : graph_closed g) (Haddr : addresses_ok (dict_keys g)).
Context (changed : list string) (Hchanged : NoDup changed).

(** A changed node is reached through dependencies. *)
Definition impacted_by (a : string) : Prop := exists c, c ∈ changed /\ tc (depends g) a c.

Record impact_inv (processed impacted queue : list string) : Prop := {
  impact_NoDup : NoDup (changed ++ impacted);
  impact_keys : impacted ⊆ dict_keys g;
  impact_perm : processed ++ queue ≡ₚ changed ++ impacted;
  impact_sound a : a ∈ impacted -> impacted_by a;
  impact_closed a c : c ∈ processed -> depends g a c -> a ∈ changed ++ impacted;
}.

Lemma impact_step processed dependency queue impacted :
  impact_inv processed impacted (dependency :: queue) ->
  exists news,
    foldl (mark_impacted changed) (impacted, queue)
      (py_sorted (default [] (reverse_graph g !! dependency))) = (impacted ++ news, queue ++ news) /\
    impact_inv (processed ++ [dependency]) (impacted ++ news) (queue ++ news).
Proof.
  intros [Hnd Hk Hp Hs Hc].
  destruct (mark_impacted_fold changed (py_sorted (default [] (reverse_graph g !! dependency))) impacted queue)
    as (news & Hrun & Hnd' & Hnews).
  setoid_rewrite elem_of_py_sorted in Hnews. setoid_rewrite (elem_of_reverse_graph g dependency) in Hnews; [|done].
  exists news. split; [done|]. split.
  - rewrite app_assoc. apply NoDup_app. split_and!; [done| |done]. intros n. rewrite Hnews, elem_of_app. tauto.
  - intros n. rewrite elem_of_app. intros [Hn|Hn]; [by apply Hk|]. apply Hnews in Hn as [Hn _].
    by apply (depends_keys g) in Hn as [].
  - rewrite <-app_assoc, (app_assoc changed), <-Hp. simpl. by rewrite <-app_assoc, app_comm_cons.
  - intros a. rewrite elem_of_app. intros [Ha|Ha]; [by apply Hs|]. apply Hnews in Ha as [Ha _].
    assert (dependency ∈ changed ++ impacted) as Hdep by (rewrite <-Hp, elem_of_app; right; left).
    apply elem_of_app in Hdep as [Hdep|Hdep]; [by exists dependency; eauto using tc_once|].
    destruct (Hs dependency Hdep) as (c & ? & ?). exists c. split; [done|]. by eapply tc_l.
  - intros a c. rewrite elem_of_app, list_elem_of_singleton, app_assoc, elem_of_app. intros [Hcp| ->] Hdep.
    + left. by eapply Hc.
    + destruct (decide (a ∈ changed ++ impacted)) as [|Hn]; [by left|right]. apply Hnews.
      rewrite elem_of_app in Hn. tauto.
Qed.

Lemma impact_loop_spec fuel : forall processed impacted queue,
  impact_inv processed impacted queue ->
  length changed + length (dict_keys g) <= fuel + length processed ->
  exists impacted' processed', impact_loop fuel (reverse_graph g) changed impacted queue = Ok impacted' /\
    impact_inv processed' impacted' [].
Proof.
  induction fuel as [|fuel IH]; intros processed impacted [|dependency queue] Hinv Hfuel; simpl; [by eauto| |by eauto|].
  - exfalso. pose proof (Permutation_length (impact_perm _ _ _ Hinv)) as Hlen.
    rewrite !length_app in Hlen. simpl in Hlen.
    pose proof (impact_NoDup _ _ _ Hinv) as (_ & _ & Hndi)%NoDup_app.
    pose proof (submseteq_length _ _ (NoDup_submseteq _ _ Hndi (impact_keys _ _ _ Hinv))). lia.
  - destruct (impact_step _ _ _ _ Hinv) as (news & Hrun & Hinv').
    rewrite sorted_by_identity_ok.
    2:{ apply (addresses_ok_subset _ (dict_keys g)); [|done]. intros a. rewrite elem_of_reverse_graph by done.
        by intros []%(depends_keys g). }
    cbn [mbind result_bind]. rewrite Hrun. cbn [fst snd]. eapply IH; [done|]. rewrite length_app. simpl. lia.
Qed.

Lemma impact_complete processed impacted :
  impact_inv processed impacted [] -> forall a, a ∈ impacted <-> (a ∉ changed) /\ impacted_by a.
Proof.
  intros [Hnd Hk Hp Hs Hc] a. rewrite app_nil_r in Hp. split.
  - intros Ha. split; [|by apply Hs]. apply NoDup_app in Hnd as (_ & Hd & _). intros Ha'. by apply (Hd a).
  - intros [Hnc (c & Hcc & Htc)].
    assert (forall x y, tc (depends g) x y -> y ∈ changed ++ impacted -> x ∈ changed ++ impacted) as Hclosure.
    { intros x y. induction 1 as [x y Hxy|x y z Hxy _ IHtc]; intros Hin.
      - apply (Hc x y); [by rewrite Hp|done].
      - apply (Hc x y); [|done]. rewrite Hp. by apply IHtc. }
    assert (a ∈ changed ++ impacted) as [?|?]%elem_of_app; [|done|done].
    eapply Hclosure; [done|]. rewrite elem_of_app. by left.
Qed.
End impact.

(** The impacted nodes, in refresh order. *)
Lemma refresh_impacted_nodes_spec {R} `{!SupportsDependencySemantics R} (resources : dict string R) (changed : list string) :
  dict_wf resources -> addresses_ok (dict_keys resources) -> addresses_ok changed ->
  exists g impacted, dependency_graph_for_resources resources REFRESH = Ok g /\
    refresh_impacted_nodes resources changed = Ok impacted /\ NoDup impacted /\
    forall a, a ∈ impacted <-> (a ∉ changed) /\ exists c, c ∈ changed /\ tc (depends g) a c.
Proof.
  intros Hwf Hok Hch.
  destruct (dependency_graph_for_resources_spec resources REFRESH Hwf Hok) as (g & Hg & Hkeys & Hclosed & Hlook).
  assert (dict_wf g) as Hwfg by (unfold dict_wf; by rewrite Hkeys).
  assert (addresses_ok (dict_keys g)) as Hokg by (by rewrite Hkeys).
  unfold refresh_impacted_nodes. rewrite Hg. cbn [mbind result_bind].
  assert (addresses_ok (py_dedupe changed)) as Hd.
  { eapply addresses_ok_subset; [|exact Hch]. intros a. by rewrite elem_of_py_dedupe. }
  rewrite sorted_by_identity_ok by done. cbn [mbind result_bind].
  destruct (impact_loop_spec g Hwfg Hclosed Hokg (py_dedupe changed)
     (length (py_dedupe changed) + length (dict_keys g)) [] [] (py_sorted (py_dedupe changed)))
    as (impacted & processed & -> & Hinv); [|simpl; lia|].
  { split; [by rewrite app_nil_r; apply NoDup_py_dedupe|set_solver| | |].
    - rewrite app_nil_r. apply py_sorted_perm.
    - by intros a ?%not_elem_of_nil.
    - by intros a c ?%not_elem_of_nil. }
  cbn [mbind result_bind].
  destruct (topological_dependency_order_spec g Hwfg Hokg) as (order & em & res & -> & Hspec). cbn [mbind result_bind].
  pose proof (order_perm _ _ _ _ Hspec) as Hperm. rewrite dependency_graph_keys in Hperm.
  exists g. eexists. split_and!; [done|done| |].
  - apply NoDup_filter. by rewrite Hperm.
  - intros a. rewrite list_elem_of_filter, (impact_complete g _ _ _ Hinv), Hperm. unfold impacted_by.
    setoid_rewrite elem_of_py_dedupe. split; [tauto|]. intros [Ha (c & Hc & Htc)].
    split; [eauto|]. by inversion Htc as [? ? Hd'|? ? ? Hd']; subst; apply (depends_keys g) in Hd' as [].
Qed.

(** ** Reconciliation *)

Section reconcile_facts.
Context {R S D : Type} `{!SupportsDependencySemantics D}.
Context (resource_dependencies : R -> D) (matches : S -> R -> bool).
Context (resources : dict string R) (snapshot : dict string S).
Context (Hwf : dict_wf resources) (Hwfs : dict_wf snapshot).

(** The action of an address before refresh impact is propagated. *)
Definition base_action (a : string) : option reconciliation_action :=
  match resources !! a with
  | Some r => Some (initial_action matches snapshot a r)
  | None => if decide (a ∈ dict_keys snapshot) then Some DELETE else None
  end.

Lemma resource_actions_lookup a :
  resource_actions matches resources snapshot !! a = initial_action matches snapshot a <$> resources !! a.
Proof.
  unfold resource_actions. rewrite dict_get_of_list.
  - unfold lookup, dict_lookup. induction (dict_items resources) as [|[k r] l IH]; simpl; [done|].
    case_decide; [by subst|done].
  - rewrite <-list_fmap_compose. exact Hwf.
Qed.

Lemma deleted_lookup a :
  deleted_snapshot_entries resources snapshot !! a =
    if decide (a ∈ dict_keys resources) then None else snapshot !! a.
Proof.
  apply option_eq. intros s. unfold deleted_snapshot_entries.
  rewrite dict_filter_get by done. rewrite bool_decide_eq_true. case_decide; naive_solver.
Qed.

Lemma delete_actions_lookup (l : list string) : forall (acts : dict string reconciliation_action) a,
  foldl (fun acts address => <[address := DELETE]> acts) acts l !! a = if decide (a ∈ l) then Some DELETE else acts !! a.
Proof.
  induction l as [|x l IH]; intros acts a; cbn [foldl]; [by rewrite decide_False by set_solver|].
  rewrite IH, dict_get_set. destruct (decide (x = a)) as [->|].
  - rewrite (decide_True (P := a ∈ a :: l)) by left. by case_decide.
  - do 2 case_decide; set_solver.
Qed.

Definition base_actions : dict string reconciliation_action :=
  delete_actions (deleted_snapshot_entries resources snapshot) (resource_actions matches resources snapshot).

Lemma base_actions_lookup a : base_actions !! a = base_action a.
Proof.
  unfold base_actions, delete_actions, base_action. rewrite delete_actions_lookup, resource_actions_lookup.
  destruct (resources !! a) as [r|] eqn:E; simpl.
  - rewrite decide_False; [done|]. rewrite <-dict_get_is_Some, deleted_lookup.
    rewrite decide_True by (apply dict_get_is_Some; eauto). by intros [].
  - assert (a ∈ dict_keys (deleted_snapshot_entries resources snapshot) <-> a ∈ dict_keys snapshot) as Hiff.
    { rewrite <-!dict_get_is_Some, deleted_lookup. by rewrite decide_False by (by apply dict_get_None). }
    destruct (decide (a ∈ dict_keys snapshot)); [by rewrite decide_True by tauto|by rewrite decide_False by tauto].
Qed.

Lemma base_actions_wf : dict_wf base_actions.
Proof.
  unfold base_actions, delete_actions.
  assert (forall l (acts : dict string reconciliation_action), dict_wf acts ->
    dict_wf (foldl (fun acts address => <[address := DELETE]> acts) acts l)) as H.
  { induction l; simpl; auto using dict_wf_set. }
  apply H, dict_wf_of_list.
Qed.

Lemma elem_of_changed_addresses a :
  a ∈ changed_addresses base_actions <-> base_action a = Some CREATE \/ base_action a = Some UPDATE.
Proof.
  unfold changed_addresses. rewrite elem_of_dict_filter_keys by apply base_actions_wf.
  setoid_rewrite base_actions_lookup. setoid_rewrite bool_decide_eq_true. naive_solver.
Qed.

Lemma changed_is_resource a : a ∈ changed_addresses base_actions -> a ∈ dict_keys resources.
Proof.
  rewrite elem_of_changed_addresses, <-dict_get_is_Some. unfold base_action.
  destruct (resources !! a); [done|]. case_decide; naive_solver.
Qed.

Lemma refresh_action_ok (acts : dict string reconciliation_action) x act :
  acts !! x = Some act ->
  refresh_action acts x = Ok (if decide (act = UNCHANGED) then <[x := UPDATE]> acts else acts).
Proof. intros H. unfold refresh_action, dict_index. by rewrite H. Qed.

Lemma refresh_actions_fold (l : list string) : forall (acts : dict string reconciliation_action),
  NoDup l -> (forall a, a ∈ l -> a ∈ dict_keys acts) ->
  exists acts', mfold refresh_action acts l = Ok acts' /\
    forall a, acts' !! a = if decide (a ∈ l /\ acts !! a = Some UNCHANGED) then Some UPDATE else acts !! a.
Proof.
  induction l as [|x l IH]; intros acts Hnd Hin; cbn [mfold].
  - exists acts. split; [done|]. intros a. rewrite decide_False; [done|]. by intros [?%not_elem_of_nil _].
  - apply NoDup_cons in Hnd as [Hx Hnd]. assert (x ∈ dict_keys acts) as [act Hact]%dict_get_is_Some by (apply Hin; left).
    rewrite (refresh_action_ok _ _ _ Hact). cbn [mbind result_bind].
    destruct (IH (if decide (act = UNCHANGED) then <[x := UPDATE]> acts else acts) Hnd) as (acts' & -> & Hacts).
    { intros a Ha. case_decide; [apply elem_of_dict_keys_set; right|]; apply Hin; by right. }
    exists acts'. split; [done|]. intros a. rewrite Hacts. destruct (decide (a = x)) as [->|Hne].
    + rewrite decide_False by naive_solver. rewrite Hact. case_decide as Hu.
      * rewrite dict_get_set_eq, decide_True; [done|]. subst. split; [left|done].
      * rewrite Hact, decide_False; [done|]. naive_solver.
    + assert ((if decide (act = UNCHANGED) then <[x:=UPDATE]> acts else acts) !! a = acts !! a) as ->.
      { case_decide; [by rewrite dict_get_set_ne|done]. }
      assert (a ∈ x :: l <-> a ∈ l) as Hiff by (rewrite elem_of_cons; tauto).
      repeat case_decide; try done; exfalso; tauto.
Qed.
End reconcile_facts.

(** ** Graph equivalence *)

(** The same nodes with permuted dependency lists: the graphs a rearranged
    scenario produces. *)
Definition graph_equiv (g1 g2 : graph) : Prop :=
  forall n, option_Forall2 Permutation (g1 !! n) (g2 !! n).

#[export] Instance graph_equiv_equivalence : Equivalence graph_equiv.
Proof.
  split.
  - intros g n. destruct (g !! n); by constructor.
  - intros g1 g2 H n. destruct (H n); by constructor.
  - intros g1 g2 g3 H12 H23 n. specialize (H12 n). specialize (H23 n).
    destruct H12; inversion H23; subst; constructor. by etrans.
Qed.

Lemma graph_equiv_keys g1 g2 n : graph_equiv g1 g2 -> n ∈ dict_keys g1 <-> n ∈ dict_keys g2.
Proof.
  intros H. rewrite <-!dict_get_is_Some. destruct (H n); [|done]. split; eauto.
Qed.

Lemma graph_equiv_keys_perm g1 g2 :
  dict_wf g1 -> dict_wf g2 -> graph_equiv g1 g2 -> dict_keys g1 ≡ₚ dict_keys g2.
Proof. intros. apply NoDup_Permutation; [done..|]. intros n. by apply graph_equiv_keys. Qed.

Lemma filter_perm_iff (P Q : string -> Prop) `{forall x, Decision (P x)} `{forall x, Decision (Q x)} (l1 l2 : list string) :
  (forall x, P x <-> Q x) -> l1 ≡ₚ l2 -> base.filter P l1 ≡ₚ base.filter Q l2.
Proof. intros HPQ ->. rewrite (list_filter_iff P Q) by done. done. Qed.

#[export] Instance dependency_graph_Proper : Proper (graph_equiv ==> graph_equiv) dependency_graph.
Proof.
  intros g1 g2 H n. rewrite !dependency_graph_lookup. destruct (H n) as [ds1 ds2 Hp|]; simpl; constructor.
  apply filter_perm_iff; [|done]. intros d. by apply graph_equiv_keys.
Qed.

Lemma graph_equiv_deps_of g1 g2 n : graph_equiv g1 g2 -> deps_of g1 n ≡ₚ deps_of g2 n.
Proof. intros H. unfold deps_of. by destruct (H n). Qed.

(** The tables built from equivalent graphs agree. *)
Lemma build_dependents_equiv g1 g2 st1 st2 :
  dict_wf g1 -> dict_wf g2 -> graph_equiv g1 g2 ->
  dependents_ok g1 st1 -> dependents_ok g2 st2 ->
  graph_equiv st1.1 st2.1 /\ (forall n, st1.2 !! n = st2.2 !! n).
Proof.
  intros Hwf1 Hwf2 Hequiv H1 H2. split.
  - intros c. destruct (st1.1 !! c) as [d1|] eqn:E1, (st2.1 !! c) as [d2|] eqn:E2; [constructor|exfalso|exfalso|constructor].
    + apply occ_eq_perm. intros n. rewrite (dependents_occ _ _ H1 _ _ n E1), (dependents_occ _ _ H2 _ _ n E2).
      by apply occ_perm, graph_equiv_deps_of.
    + apply dict_get_None in E2. rewrite (dependents_keys _ _ H2), <-graph_equiv_keys in E2 by done.
      rewrite <-(dependents_keys _ _ H1) in E2. apply dict_get_None in E2. congruence.
    + apply dict_get_None in E1. rewrite (dependents_keys _ _ H1), graph_equiv_keys in E1 by done.
      rewrite <-(dependents_keys _ _ H2) in E1. apply dict_get_None in E1. congruence.
  - intros n. destruct (decide (n ∈ dict_keys g1)) as [Hn|Hn].
    + assert (n ∈ dict_keys g2) as Hn2 by (by eapply graph_equiv_keys).
      rewrite <-(indegree_keys _ _ H1) in Hn. rewrite <-(indegree_keys _ _ H2) in Hn2.
      apply dict_get_is_Some in Hn as [z1 Hz1]. apply dict_get_is_Some in Hn2 as [z2 Hz2].
      rewrite Hz1, Hz2, (indegree_count _ _ H1 _ _ Hz1), (indegree_count _ _ H2 _ _ Hz2).
      by rewrite (graph_equiv_deps_of g1 g2 n Hequiv).
    + assert (n ∉ dict_keys g2) as Hn2 by (by rewrite <-graph_equiv_keys).
      rewrite <-(indegree_keys _ _ H1) in Hn. rewrite <-(indegree_keys _ _ H2) in Hn2.
      apply dict_get_None in Hn, Hn2. congruence.
Qed.

Lemma release_dependents_ext (l : list string) : forall (i1 i2 : dict string Z) queue,
  (forall n, i1 !! n = i2 !! n) ->
  match mfold release_dependent (i1, queue) l, mfold release_dependent (i2, queue) l with
  | Ok (i1', q1), Ok (i2', q2) => (forall n, i1' !! n = i2' !! n) /\ q1 = q2
  | Raise e1, Raise e2 => e1 = e2
  | _, _ => False
  end.
Proof.
  induction l as [|x l IH]; intros i1 i2 queue Hi; cbn [mfold]; [done|].
  destruct (i1 !! x) as [z|] eqn:E1.
  - assert (i2 !! x = Some z) as E2 by (by rewrite <-Hi).
    rewrite (release_dependent_ok _ _ _ _ E1), (release_dependent_ok _ _ _ _ E2). cbn [mbind result_bind].
    apply IH. intros n. rewrite !dict_get_set. case_decide; [done|apply Hi].
  - assert (i2 !! x = None) as E2 by (by rewrite <-Hi).
    unfold release_dependent, dict_index. cbn [fst snd]. by rewrite E1, E2.
Qed.

Lemma mmap_identity_raise l e :
  mmap canonical_resource_identity l = Raise e -> e = ValueError "address must be a canonical compiled address".
Proof.
  induction l as [|a l IH]; cbn [mmap]; [done|]. destruct (compiled_address_ok a) eqn:Ha.
  - rewrite canonical_resource_identity_ok by done. cbn [mbind result_bind].
    destruct (mmap _ l) eqn:E; cbn [mbind result_bind]; [done|]. intros [= ->]. by apply IH.
  - unfold canonical_resource_identity, require_compiled_address. rewrite Ha. by intros [= <-].
Qed.

#[export] Instance sorted_by_identity_Proper : Proper (Permutation ==> eq) sorted_by_identity.
Proof.
  intros l1 l2 HP. unfold sorted_by_identity. rewrite (py_sorted_proper _ _ HP).
  destruct (mmap _ l1) as [l1'|e1] eqn:E1, (mmap _ l2) as [l2'|e2] eqn:E2; simpl; [done| | |].
  - apply mmap_identity in E1 as [Hok _]. rewrite (addresses_ok_perm _ _ HP) in Hok.
    by rewrite mmap_identity_ok in E2.
  - apply mmap_identity in E2 as [Hok _]. rewrite <-(addresses_ok_perm _ _ HP) in Hok.
    by rewrite mmap_identity_ok in E1.
  - apply mmap_identity_raise in E1, E2. congruence.
Qed.

Lemma kahn_loop_ext fuel : forall (d1 d2 : graph) (i1 i2 : dict string Z) queue order,
  graph_equiv d1 d2 -> (forall n, i1 !! n = i2 !! n) ->
  kahn_loop fuel d1 i1 queue order = kahn_loop fuel d2 i2 queue order.
Proof.
  induction fuel as [|fuel IH]; intros d1 d2 i1 i2 [|current queue] order Hd Hi; simpl; try done.
  unfold dict_index. destruct (Hd current) as [ds1 ds2 Hp|]; [|done]. cbn [mbind result_bind].
  rewrite <-Hp. destruct (sorted_by_identity ds1) as [ds|e]; [|done]. cbn [mbind result_bind].
  pose proof (release_dependents_ext ds i1 i2 queue Hi) as Hr.
  destruct (mfold _ (i1, queue) ds) as [[i1' q1]|], (mfold _ (i2, queue) ds) as [[i2' q2]|]; [|done|done|by subst].
  destruct Hr as [Hi' ->]. simpl. by apply IH.
Qed.

(** ** Runs of the two entry points *)

(** The refresh dependencies of a resource set, as a relation. *)
Definition refreshes {R} `{!SupportsDependencySemantics R} (resources : dict string R) (n d : string) : Prop :=
  exists r, resources !! n = Some r /\ d ∈ refresh_dependencies r /\ d ∈ dict_keys resources.

Lemma refreshes_depends {R} `{!SupportsDependencySemantics R} (resources : dict string R) g :
  dict_wf resources -> addresses_ok (dict_keys resources) ->
  dependency_graph_for_resources resources REFRESH = Ok g ->
  forall n d, depends g n d <-> refreshes resources n d.
Proof.
  intros Hwf Haddr Hg n d.
  destruct (dependency_graph_for_resources_spec resources REFRESH Hwf Haddr) as (g' & Hg' & _ & _ & Hlook).
  rewrite Hg in Hg'. injection Hg' as <-. unfold depends, refreshes. rewrite Hlook.
  setoid_rewrite fmap_Some. unfold known_dependencies. split.
  - intros (ds & (r & Hr & ->) & Hd). apply list_elem_of_filter in Hd. naive_solver.
  - intros (r & Hr & Hd & Hk). eexists. split; [by exists r|]. by apply list_elem_of_filter.
Qed.

(** The refresh closure, against the relation of the resources. *)
Lemma refresh_impact_run {R} `{!SupportsDependencySemantics R} (resources : dict string R) (changed : list string) :
  dict_wf resources -> addresses_ok (dict_keys resources) -> addresses_ok changed ->
  exists impacted, refresh_impacted_nodes resources changed = Ok impacted /\ NoDup impacted /\
    forall a, a ∈ impacted <-> (a ∉ changed) /\ exists c, c ∈ changed /\ tc (refreshes resources) a c.
Proof.
  intros Hwf Haddr Hch.
  destruct (refresh_impacted_nodes_spec resources changed Hwf Haddr Hch) as (g & impacted & Hg & Hrun & Hnd & Hiff).
  exists impacted. split_and!; [done|done|]. intros a. rewrite Hiff.
  by setoid_rewrite (tc_iff _ _ (refreshes_depends resources g Hwf Haddr Hg)).
Qed.

Section reconcile_spec.
Context {R S D : Type} `{!SupportsDependencySemantics D}.
Context (resource_dependencies : R -> D) (matches : S -> R -> bool).

(** What reconciliation should decide for one address, given which addresses
    the refresh closure reaches. *)
Definition expected_action (resources : dict string R) (snapshot : dict string S)
    (impacted : string -> Prop) (a : string) (action : option reconciliation_action) : Prop :=
  match resources !! a, snapshot !! a with
  | Some _, None => action = Some CREATE
  | Some r, Some s =>
      if matches s r then (impacted a -> action = Some UPDATE) /\ (~ impacted a -> action = Some UNCHANGED)
      else action = Some UPDATE
  | None, Some _ => action = Some DELETE
  | None, None => action = None
  end.

(** An address changed by itself: new, or different from its snapshot entry. *)
Definition changed_by_itself (resources : dict string R) (snapshot : dict string S) (a : string) : Prop :=
  exists r, resources !! a = Some r /\
    match snapshot !! a with Some s => matches s r = false | None => True end.
End reconcile_spec.

(** One run of reconciliation. *)
Lemma reconcile_actions_run {R S D} `{!SupportsDependencySemantics D}
    (resource_dependencies : R -> D) (matches : S -> R -> bool)
    (resources : dict string R) (snapshot : dict string S) :
  dict_wf resources -> dict_wf snapshot -> addresses_ok (dict_keys resources) ->
  exists actions deleted,
    reconcile_resource_actions resource_dependencies matches resources snapshot = Ok (actions, deleted) /\
    (forall a, deleted !! a = if decide (a ∈ dict_keys resources) then None else snapshot !! a) /\
    (forall a, expected_action matches resources snapshot
       (fun a => exists c, changed_by_itself matches resources snapshot c /\
          tc (refreshes (dict_map resource_dependencies resources)) a c)
       a (actions !! a)).
Proof.
  intros Hwf Hwfs Haddr. unfold reconcile_resource_actions.
  fold (base_actions matches resources snapshot). set (acts := base_actions matches resources snapshot).
  assert (dict_wf (dict_map resource_dependencies resources)) as Hwf' by (unfold dict_wf; by rewrite dict_map_keys).
  assert (forall a, a ∈ changed_addresses acts <-> changed_by_itself matches resources snapshot a) as Hch.
  { intros a. unfold acts. rewrite elem_of_changed_addresses by done. unfold base_action, initial_action, changed_by_itself.
    destruct (resources !! a) as [r|]; [|case_decide; naive_solver].
    destruct (snapshot !! a) as [s|]; [destruct (matches s r) eqn:Em|].
    - split; [by intros [[=]|[=]]|]. intros (? & [= <-] & ?). congruence.
    - split; [by exists r|by right].
    - split; [by exists r|by left]. }
  destruct (refresh_impact_run (dict_map resource_dependencies resources) (changed_addresses acts))
    as (impacted & -> & Hnd & Himp); [done|by rewrite dict_map_keys| |].
  { apply (addresses_ok_subset _ (dict_keys resources)); [|done]. intros a. by apply changed_is_resource. }
  setoid_rewrite Hch in Himp. cbn [mbind result_bind].
  assert (forall a, a ∈ impacted -> a ∈ dict_keys resources) as Hres.
  { intros a (_ & c & _ & Htc)%Himp.
    inversion Htc as [? ? Hd|? ? ? Hd]; subst; destruct Hd as (r & Hr & _);
      rewrite <-(dict_map_keys resource_dependencies); apply dict_get_is_Some; eauto. }
  destruct (refresh_actions_fold impacted acts) as (acts' & -> & Hacts); [done| |].
  { intros a [r Hr]%Hres%dict_get_is_Some. apply dict_get_is_Some. unfold acts.
    rewrite base_actions_lookup by done. unfold base_action. rewrite Hr. eauto. }
  cbn [mbind result_bind]. eexists _, _. split_and!; [done|intros a; by apply deleted_lookup|].
  intros a. rewrite Hacts. unfold acts. rewrite base_actions_lookup by done. unfold expected_action, base_action, initial_action.
  specialize (Himp a).
  destruct (resources !! a) as [r|] eqn:Er, (snapshot !! a) as [s|] eqn:Es.
  - destruct (matches s r) eqn:Em; [|by rewrite decide_False by (by intros [_ [=]])].
    assert (~ changed_by_itself matches resources snapshot a) as Hself.
    { intros (r' & Hr' & Hm). rewrite Es in Hm. congruence. }
    split; intros Hi; [rewrite decide_True by tauto|rewrite decide_False by tauto]; done.
  - by rewrite decide_False by (by intros [_ [=]]).
  - rewrite (decide_True (P := a ∈ _)) by (apply dict_get_is_Some; eauto).
    by rewrite decide_False by (by intros [_ [=]]).
  - rewrite (decide_False (P := a ∈ _)) by (by apply dict_get_None).
    by rewrite decide_False by (by intros [_ [=]]).
Qed.
