(* ===== verification/DepGraphSpec.v ===== *)
(** What the planner's graph semantics promises: stable topological orders,
    delete orders, exact refresh impact and exact reconciliation actions. *)
From S2P Require Import Prelude.
From S2P Require Import Addressing.
From S2P Require Import DepGraph.
From S2P Require Import DepGraphFacts.
From S2P Require Import ReconcileFacts.
Local Open Scope string_scope.
Local Open Scope list_scope.

(** The deps of [web] are [net] twice and an unknown node. *)
Definition sample_graph : graph :=
  Dict [("provision.web", ["provision.net"; "provision.db"; "provision.net"]);
        ("provision.db", ["provision.net"; "provision.gone"]);
        ("provision.net", [])].

Definition sample_rank (n : string) : nat :=
  if decide (n = "provision.web") then 2 else if decide (n = "provision.db") then 1 else 0.

Lemma sample_depends_rank g n d :
  (forall kv, kv ∈ dict_items g -> Forall (fun d => sample_rank d < sample_rank kv.1) kv.2) ->
  depends g n d -> sample_rank d < sample_rank n.
Proof.
  intros H (ds & Hds%dict_get_Some_in & Hd). specialize (H _ Hds). simpl in H.
  rewrite Forall_forall in H. by apply H.
Qed.

Lemma sample_acyclic : acyclic (depends (dependency_graph sample_graph)).
Proof.
  apply (acyclic_rank _ sample_rank). intros n d. apply sample_depends_rank.
  apply Forall_forall. vm_compute. repeat constructor.
Qed.

(** C1: on an acyclic graph the topological order returns every node exactly
    once, each after all of its known dependencies. *)
Theorem topological_order_sound deps :
  dict_wf deps -> addresses_ok (dict_keys deps) -> acyclic (depends (dependency_graph deps)) ->
  exists order, topological_dependency_order deps = Ok order /\ order ≡ₚ dict_keys deps /\
    forall n d, depends deps n d -> d ∈ dict_keys deps -> before d n order.
Proof.
  intros Hwf Haddr Hac.
  destruct (topological_dependency_order_spec deps Hwf Haddr) as (order & em & res & -> & Hspec).
  pose proof (acyclic_residual _ _ _ _ Hac Hspec) as ->.
  destruct Hspec as [-> Hperm Hord _ _]. rewrite app_nil_r in *. rewrite dependency_graph_keys in Hperm.
  exists em. split_and!; [done|done|]. intros n d Hd Hk.
  apply (ordered_prefix_before (dependency_graph deps)); [done| |by apply depends_dependency_graph].
  rewrite Hperm. destruct Hd as (ds & Hds & _). apply dict_get_is_Some. eauto.
Qed.

Lemma topological_order_sound_witness :
  exists order, topological_dependency_order sample_graph = Ok order /\ order ≡ₚ dict_keys sample_graph /\
    forall n d, depends sample_graph n d -> d ∈ dict_keys sample_graph -> before d n order.
Proof.
  apply (topological_order_sound sample_graph).
  - vm_decide.
  - repeat constructor.
  - exact sample_acyclic.
Defined.

(** On any graph, cyclic or not, the order terminates with a permutation
    of the nodes: first nodes in dependency order, then the residue, sorted,
    in which every node waits for another node of the residue. *)
Theorem topological_order_total deps :
  dict_wf deps -> addresses_ok (dict_keys deps) ->
  exists emitted residual, topological_dependency_order deps = Ok (emitted ++ residual) /\
    emitted ++ residual ≡ₚ dict_keys deps /\
    (forall l1 n l2 d, emitted = l1 ++ n :: l2 -> depends deps n d -> d ∈ dict_keys deps -> d ∈ l1) /\
    (forall n, n ∈ residual -> exists d, d ∈ residual /\ depends deps n d) /\
    StronglySorted String.le residual.
Proof.
  intros Hwf Haddr.
  destruct (topological_dependency_order_spec deps Hwf Haddr) as (order & em & res & Hrun & Hspec).
  destruct Hspec as [-> Hperm Hord Hres Hsort]. rewrite dependency_graph_keys in Hperm.
  exists em, res. split_and!; [done|done| | |done].
  - intros l1 n l2 d Hem Hd Hk. apply (Hord l1 n l2 Hem). apply elem_of_deps_of.
    by apply depends_dependency_graph.
  - intros n Hn. destruct (Hres n Hn) as (d & ? & Hd). exists d. split; [done|].
    by apply depends_dependency_graph in Hd as [].
Qed.

Definition sample_cycle : graph :=
  Dict [("provision.b", ["provision.a"]); ("provision.a", ["provision.b"]); ("provision.z", []);
        ("provision.c", ["provision.z"])].

Example sample_cycle_order :
  topological_dependency_order sample_cycle = Ok ["provision.z"; "provision.c"; "provision.a"; "provision.b"].
Proof. vm_compute. reflexivity. Qed.

Lemma topological_order_total_witness :
  exists emitted residual, topological_dependency_order sample_cycle = Ok (emitted ++ residual) /\
    emitted ++ residual ≡ₚ dict_keys sample_cycle /\
    (forall l1 n l2 d, emitted = l1 ++ n :: l2 -> depends sample_cycle n d -> d ∈ dict_keys sample_cycle -> d ∈ l1) /\
    (forall n, n ∈ residual -> exists d, d ∈ residual /\ depends sample_cycle n d) /\
    StronglySorted String.le residual.
Proof.
  apply (topological_order_total sample_cycle).
  - vm_decide.
  - repeat constructor.
Defined.

(** the order depends only on the graph, not on how the scenario
    enumerates its nodes or lists their dependencies. *)
Theorem topological_order_stable g1 g2 :
  dict_wf g1 -> dict_wf g2 -> graph_equiv g1 g2 ->
  topological_dependency_order g1 = topological_dependency_order g2.
Proof.
  intros Hwf1 Hwf2 Heq0. unfold topological_dependency_order.
  assert (graph_equiv (dependency_graph g1) (dependency_graph g2)) as Heq by (by rewrite Heq0).
  pose proof (dependency_graph_closed g1) as Hc1. pose proof (dependency_graph_closed g2) as Hc2.
  apply dependency_graph_wf in Hwf1, Hwf2.
  set (h1 := dependency_graph g1) in *. set (h2 := dependency_graph g2) in *.
  destruct (build_dependents_spec h1 Hwf1 Hc1) as (st1 & -> & Hst1).
  destruct (build_dependents_spec h2 Hwf2 Hc2) as (st2 & -> & Hst2). cbn [mbind result_bind].
  destruct (build_dependents_equiv h1 h2 st1 st2) as [Hd Hi]; [done..|].
  pose proof (graph_equiv_keys_perm _ _ Hwf1 Hwf2 Heq) as Hkeys.
  assert (zero_degree_nodes st1.2 ≡ₚ zero_degree_nodes st2.2) as ->.
  { assert (dict_wf st1.2) by (unfold dict_wf; by rewrite (indegree_keys _ _ Hst1)).
    assert (dict_wf st2.2) by (unfold dict_wf; by rewrite (indegree_keys _ _ Hst2)).
    apply NoDup_Permutation; [by apply dict_filter_keys_NoDup..|]. intros n. unfold zero_degree_nodes.
    rewrite !elem_of_dict_filter_keys by done. by setoid_rewrite Hi. }
  destruct (sorted_by_identity _) as [queue|]; [|done]. cbn [mbind result_bind].
  rewrite (Permutation_length Hkeys), (kahn_loop_ext _ st1.1 st2.1 st1.2 st2.2) by done.
  destruct (kahn_loop _ _ _ _ _) as [order|]; [|done]. cbn [mbind result_bind].
  case_decide; [done|]. unfold residual_nodes. by rewrite Hkeys.
Qed.

Lemma topological_order_stable_witness :
  topological_dependency_order sample_graph =
  topological_dependency_order
    (Dict [("provision.db", ["provision.net"; "provision.gone"]); ("provision.net", []);
           ("provision.web", ["provision.db"; "provision.net"; "provision.net"])]).
Proof.
  apply topological_order_stable.
  - vm_decide.
  - vm_decide.
  - intros n. unfold lookup, dict_lookup. simpl. repeat case_decide; subst; try discriminate; constructor; try done.
    apply occ_eq_perm. intros x. simpl. repeat case_decide; lia.
Defined.

(** Resources of the samples: their ordering and refresh dependencies. *)
#[local] Instance pair_dependencies : SupportsDependencySemantics (list string * list string) :=
  {| ordering_dependencies r := r.1; refresh_dependencies r := r.2 |}.

Definition sample_resources : dict string (list string * list string) :=
  Dict [("provision.web", (["provision.net"], ["provision.db"]));
        ("provision.db", (["provision.net"], ["provision.net"]));
        ("provision.net", ([], []))].

(** Resources are deleted in an order in which every dependent goes before
    the resources it depends on. *)
Theorem delete_order_sound {R} `{!SupportsDependencySemantics R} (resources : dict string R) :
  dict_wf resources -> addresses_ok (dict_keys resources) ->
  acyclic (fun n d => exists r, resources !! n = Some r /\ d ∈ ordering_dependencies r /\ d ∈ dict_keys resources) ->
  exists order, resource_delete_order resources = Ok order /\ order ≡ₚ dict_keys resources /\
    forall n d r, resources !! n = Some r -> d ∈ ordering_dependencies r -> d ∈ dict_keys resources ->
      before n d order.
Proof.
  intros Hwf Haddr Hac. unfold resource_delete_order, resource_topological_order.
  destruct (dependency_graph_for_resources_spec resources ORDERING Hwf Haddr) as (g & -> & Hkeys & Hclosed & Hlook).
  cbn [mbind result_bind].
  assert (forall n d, depends g n d <-> exists r, resources !! n = Some r /\ d ∈ ordering_dependencies r /\ d ∈ dict_keys resources) as Hdep.
  { intros n d. unfold depends. rewrite Hlook. setoid_rewrite fmap_Some. unfold known_dependencies. split.
    - intros (ds & (r & Hr & ->) & Hd). apply list_elem_of_filter in Hd. naive_solver.
    - intros (r & Hr & Hd & Hk). eexists. split; [by exists r|]. by apply list_elem_of_filter. }
  destruct (topological_dependency_order_spec g) as (order & em & res & -> & Hspec);
    [by unfold dict_wf; rewrite Hkeys|by rewrite Hkeys|].
  assert (acyclic (depends (dependency_graph g))) as Hac'.
  { intros x Hx. apply (Hac x). revert Hx. apply tc_subrel. intros n d Hnd.
    apply depends_dependency_graph in Hnd as [? _]. by apply Hdep. }
  pose proof (acyclic_residual _ _ _ _ Hac' Hspec) as ->.
  destruct Hspec as [-> Hperm Hord _ _]. rewrite app_nil_r in *. rewrite dependency_graph_keys, Hkeys in Hperm.
  exists (reverse em). split_and!; [done|by rewrite reverse_Permutation|].
  intros n d r Hr Hd Hk. apply before_reverse. rewrite reverse_involutive.
  apply (ordered_prefix_before (dependency_graph g)); [done| |].
  - rewrite Hperm. apply dict_get_is_Some. eauto.
  - apply depends_dependency_graph. rewrite Hkeys. split; [|done]. apply Hdep. eauto.
Qed.

Lemma delete_order_sound_witness :
  exists order, resource_delete_order sample_resources = Ok order /\ order ≡ₚ dict_keys sample_resources /\
    forall n d r, sample_resources !! n = Some r -> d ∈ ordering_dependencies r -> d ∈ dict_keys sample_resources ->
      before n d order.
Proof.
  apply (delete_order_sound sample_resources).
  - vm_decide.
  - repeat constructor.
  - apply (acyclic_rank _ sample_rank). intros n d (r & Hr%dict_get_Some_in & Hd & _).
    assert (Forall (fun kv => Forall (fun d => sample_rank d < sample_rank kv.1) kv.2.1) (dict_items sample_resources)) as HF.
    { vm_compute. repeat constructor. }
    rewrite Forall_forall in HF. specialize (HF _ Hr). rewrite Forall_forall in HF. by apply HF.
Defined.

(** C2: the refresh closure is exact: a node is impacted iff it did not change
    itself and reaches a changed node through refresh dependencies; every
    impacted node is reported once. *)
Theorem refresh_impact_exact {R} `{!SupportsDependencySemantics R} (resources : dict string R) (changed : list string) :
  dict_wf resources -> addresses_ok (dict_keys resources) -> addresses_ok changed ->
  exists impacted, refresh_impacted_nodes resources changed = Ok impacted /\ NoDup impacted /\
    forall a, a ∈ impacted <-> (a ∉ changed) /\ exists c, c ∈ changed /\ tc (refreshes resources) a c.
Proof. apply refresh_impact_run. Qed.

Lemma refresh_impact_exact_witness :
  refresh_impacted_nodes sample_resources ["provision.net"] = Ok ["provision.db"; "provision.web"] /\
  exists impacted, refresh_impacted_nodes sample_resources ["provision.net"] = Ok impacted /\ NoDup impacted /\
    forall a, a ∈ impacted <-> (a ∉ ["provision.net"]) /\
      exists c, c ∈ ["provision.net"] /\ tc (refreshes sample_resources) a c.
Proof.
  split; [vm_compute; reflexivity|].
  apply (refresh_impact_exact sample_resources); [vm_decide|repeat constructor..].
Defined.

(** C3: reconciliation never raises on canonical addresses and decides every
    address exactly: new resources are created, vanished entries deleted and
    returned, changed resources and those refreshing from a changed one
    updated, all others left unchanged. *)
Theorem reconcile_exact {R S D} `{!SupportsDependencySemantics D}
    (resource_dependencies : R -> D) (matches : S -> R -> bool)
    (resources : dict string R) (snapshot : dict string S) :
  dict_wf resources -> dict_wf snapshot -> addresses_ok (dict_keys resources) ->
  exists actions deleted,
    reconcile_resource_actions resource_dependencies matches resources snapshot = Ok (actions, deleted) /\
    (forall a, deleted !! a = if decide (a ∈ dict_keys resources) then None else snapshot !! a) /\
    (forall a, expected_action matches resources snapshot
       (fun a => exists c, changed_by_itself matches resources snapshot c /\
          tc (refreshes (dict_map resource_dependencies resources)) a c)
       a (actions !! a)).
Proof. apply reconcile_actions_run. Qed.

(** A snapshot in which [net] differs, [db] matches and [old] has vanished. *)
Definition sample_snapshot : dict string (list string * list string) :=
  Dict [("provision.db", (["provision.net"], ["provision.net"]));
        ("provision.old", ([], []));
        ("provision.net", (["provision.db"], []))].

Definition sample_matches (s r : list string * list string) : bool := bool_decide (s = r).

Lemma reconcile_exact_witness :
  reconcile_resource_actions id sample_matches sample_resources sample_snapshot =
    Ok (Dict [("provision.web", CREATE); ("provision.db", UPDATE); ("provision.net", UPDATE); ("provision.old", DELETE)],
        Dict [("provision.old", ([], []))]) /\
  exists actions deleted,
    reconcile_resource_actions id sample_matches sample_resources sample_snapshot = Ok (actions, deleted) /\
    (forall a, deleted !! a = if decide (a ∈ dict_keys sample_resources) then None else sample_snapshot !! a) /\
    (forall a, expected_action sample_matches sample_resources sample_snapshot
       (fun a => exists c, changed_by_itself sample_matches sample_resources sample_snapshot c /\
          tc (refreshes (dict_map id sample_resources)) a c)
       a (actions !! a)).
Proof.
  split; [vm_compute; reflexivity|].
  apply (reconcile_exact id sample_matches sample_resources sample_snapshot); [vm_decide|vm_decide|repeat constructor].
Defined.

(** Planning against a snapshot that already realises every resource is a
    no-op: nothing is deleted and every action is [UNCHANGED]. *)
Theorem reconcile_noop {R S D} `{!SupportsDependencySemantics D}
    (resource_dependencies : R -> D) (matches : S -> R -> bool)
    (resources : dict string R) (snapshot : dict string S) :
  dict_wf resources -> dict_wf snapshot -> addresses_ok (dict_keys resources) ->
  (forall a r, resources !! a = Some r -> exists s, snapshot !! a = Some s /\ matches s r = true) ->
  (forall a, a ∈ dict_keys snapshot -> a ∈ dict_keys resources) ->
  exists actions deleted,
    reconcile_resource_actions resource_dependencies matches resources snapshot = Ok (actions, deleted) /\
    (forall a, deleted !! a = None) /\
    (forall a, actions !! a = (fun _ => UNCHANGED) <$> resources !! a).
Proof.
  intros Hwf Hwfs Haddr Hmatch Hkeys.
  destruct (reconcile_actions_run resource_dependencies matches resources snapshot Hwf Hwfs Haddr)
    as (actions & deleted & -> & Hdel & Hact).
  exists actions, deleted. split_and!; [done| |]; intros a.
  - rewrite Hdel. case_decide as Hk; [done|]. apply dict_get_None. by intros ?%Hkeys.
  - specialize (Hact a). unfold expected_action in Hact. destruct (resources !! a) as [r|] eqn:Er; simpl.
    + destruct (Hmatch a r Er) as (s & Es & Em). rewrite Es, Em in Hact. apply Hact.
      intros (c & (r' & Hr' & Hc) & _). destruct (Hmatch c r' Hr') as (s' & Es' & Em').
      rewrite Es' in Hc. congruence.
    + destruct (snapshot !! a) eqn:Es; [|done].
      assert (a ∈ dict_keys resources) as [r Hr]%dict_get_is_Some; [|congruence].
      apply Hkeys, dict_get_is_Some. eauto.
Qed.

Lemma reconcile_noop_witness :
  exists actions deleted,
    reconcile_resource_actions id sample_matches sample_resources sample_resources = Ok (actions, deleted) /\
    (forall a, deleted !! a = None) /\
    (forall a, actions !! a = (fun _ => UNCHANGED) <$> sample_resources !! a).
Proof.
  apply (reconcile_noop id sample_matches sample_resources sample_resources); [vm_decide|vm_decide|repeat constructor| |done].
  intros a r Hr. exists r. split; [done|]. by apply bool_decide_eq_true.
Defined.
