(* ===== verification/DepCycles.v ===== *)
(** The cycle report of dependency graphs ([dependency_cycles] of
    [raes_processor/semantics/planner.py]): Tarjan's strongly connected
    components, driven from an explicit stack of frames. *)
From S2P Require Import Prelude.
From S2P Require Import Addressing.
From S2P Require Import DepGraph.
Local Open Scope string_scope.
Local Open Scope list_scope.

(** The variables the nested functions share. A Python list that is used as a
    stack is kept top first. *)
Record Tarjan : Type := TarjanState {
  next_index : Z;
  indices : gmap string Z;
  lowlinks : gmap string Z;
  stack : list string;
  on_stack : gset string;
  cycles : list (list string);
}.

(** [m[k]]. *)
Definition map_index {V} (m : gmap string V) (k : string) : result V :=
  match m !! k with Some v => Ok v | None => Raise (KeyError k) end.

Definition visit (node : string) (t : Tarjan) : Tarjan :=
  TarjanState (next_index t + 1) (<[node := next_index t]> (indices t)) (<[node := next_index t]> (lowlinks t))
    (node :: stack t) ({[node]} ∪ on_stack t) (cycles t).

(** Pop members until [node] has been popped. *)
Fixpoint pop_component (node : string) (stack : list string) (on_stack : gset string) (component : list string)
    : result (list string * gset string * list string) :=
  match stack with
  | [] => Ok ([], on_stack, component)
  | member :: stack =>
      if decide (member ∈ on_stack) then
        let on_stack := on_stack ∖ {[member]} in
        let component := component ++ [member] in
        if decide (member = node) then Ok (stack, on_stack, component) else pop_component node stack on_stack component
      else Raise (KeyError member)
  end.

Definition close_component (g : graph) (node : string) (t : Tarjan) : result Tarjan :=
  popped ← pop_component node (stack t) (on_stack t) [];
  let '(stack, on_stack, component) := popped in
  let component := py_sorted component in
  is_cycle ← (if decide (1 < length component) then Ok true
              else match component with
                   | [] => Raise (IndexError "list index out of range")
                   | first :: _ => deps ← dict_index g first; Ok (bool_decide (first ∈ deps))
                   end);
  Ok (TarjanState (next_index t) (indices t) (lowlinks t) stack on_stack
        (if is_cycle : bool then cycles t ++ [component] else cycles t)).

Definition set_lowlink (node : string) (low : Z) (t : Tarjan) : Tarjan :=
  TarjanState (next_index t) (indices t) (<[node := low]> (lowlinks t)) (stack t) (on_stack t) (cycles t).

(** The [for dependency in dependencies] loop of a frame: it stops with a
    dependency to descend into and what is left of the iterator. *)
Fixpoint scan_dependencies (node : string) (dependencies : list string) (t : Tarjan)
    : result (Tarjan * option (string * list string)) :=
  match dependencies with
  | [] => Ok (t, None)
  | dependency :: rest =>
      if decide (dependency ∈ dom (indices t)) then
        if decide (dependency ∈ on_stack t) then
          low ← map_index (lowlinks t) node;
          index ← map_index (indices t) dependency;
          scan_dependencies node rest (set_lowlink node (Z.min low index) t)
        else scan_dependencies node rest t
      else Ok (visit dependency t, Some (dependency, rest))
  end.

Abbreviation frame := (string * list string)%type.

(** The frame of [node] is exhausted and has been popped. *)
Definition finish_node (g : graph) (node : string) (below : list frame) (t : Tarjan) : result Tarjan :=
  t ← (match below with
       | [] => Ok t
       | (parent, _) :: _ =>
           low_parent ← map_index (lowlinks t) parent;
           low_node ← map_index (lowlinks t) node;
           Ok (set_lowlink parent (Z.min low_parent low_node) t)
       end);
  low ← map_index (lowlinks t) node;
  index ← map_index (indices t) node;
  if decide (low = index) then close_component g node t else Ok t.

Fixpoint connect_loop (fuel : nat) (g : graph) (frames : list frame) (t : Tarjan) : result Tarjan :=
  match frames with
  | [] => Ok t
  | (node, dependencies) :: below =>
      match fuel with
      | O => Raise OutOfFuel
      | S fuel =>
          scanned ← scan_dependencies node dependencies t;
          match scanned.2 with
          | Some (dependency, rest) =>
              deps ← dict_index g dependency;
              connect_loop fuel g ((dependency, deps) :: (node, rest) :: below) scanned.1
          | None => t ← finish_node g node below scanned.1; connect_loop fuel g below t
          end
      end
  end.

(** Each iteration enters a node for the first time or leaves one for good. *)
Definition connect_fuel (g : graph) : nat := 2 * length (dict_keys g).

Definition strongconnect (g : graph) (root : string) (t : Tarjan) : result Tarjan :=
  deps ← dict_index g root;
  connect_loop (connect_fuel g) g [(root, deps)] (visit root t).

Definition connect_unvisited (g : graph) (t : Tarjan) (node : string) : result Tarjan :=
  if decide (node ∈ dom (indices t)) then Ok t else strongconnect g node t.

(** The order of tuples of strings. *)
Fixpoint tuple_le (a b : list string) : Prop :=
  match a, b with
  | [], _ => True
  | _ :: _, [] => False
  | x :: a, y :: b => (x = y /\ tuple_le a b) \/ (x <> y /\ String.le x y)
  end.
#[export] Instance tuple_le_dec : RelDecision tuple_le.
Proof.
  intros a. induction a as [|x a IH]; intros [|y b]; [left; exact I|left; exact I|right; intros []|].
  cbn [tuple_le]. destruct (IH b); apply _.
Defined.

(** [sorted(cycles, key=...)]: the key of every node is computed first. *)
Definition sorted_cycles (l : list (list string)) : result (list (list string)) :=
  _ ← mmap (mmap canonical_resource_identity) l; Ok (merge_sort tuple_le l).

Definition dependency_cycles (deps : graph) : result (list (list string)) :=
  let g := dependency_graph deps in
  match dict_keys g with
  | [] => Ok []
  | _ =>
      nodes ← sorted_by_identity (dict_keys g);
      t ← mfold (connect_unvisited g) (TarjanState 0 ∅ ∅ [] ∅ []) nodes;
      sorted_cycles (cycles t)
  end.

Definition resource_dependency_cycles {R} `{!SupportsDependencySemantics R} (resources : dict string R)
    : result (list (list string)) :=
  g ← dependency_graph_for_resources resources ORDERING; dependency_cycles g.

(** A chain with a two-cycle and a self-loop. *)
Example dependency_cycles_sample :
  dependency_cycles (Dict [("a.x", ["b.x"]); ("b.x", ["c.x"; "d.x"]); ("c.x", ["b.x"]); ("d.x", ["d.x"]); ("e.x", ["a.x"])])
    = Ok [["b.x"; "c.x"]; ["d.x"]].
Proof. vm_compute. reflexivity. Qed.
