(* ===== verification/DepCyclesSpec.v ===== *)
(** What the cycle report promises: it lists the strongly connected components
    that lie on a cycle, each once, sorted, in tuple order, and always returns;
    and the invariant of its search, kept by each of its steps. *)
From S2P Require Import Prelude.
From S2P Require Import Addressing.
From S2P Require Import DepGraph.
From S2P Require Import DepGraphFacts.
From S2P Require Import DepCycles.
Local Open Scope string_scope.
Local Open Scope list_scope.

Section tarjan.
Context (g : graph) (Hwf : dict_wf g) (Hclosed : graph_closed g).
Abbreviation E := (depends g).
Abbreviation reach := (rtc (depends g)).

(** A node that lies on a cycle, and its strongly connected component as the
    report lists it. *)
Definition on_cycle (n : string) : Prop := exists m, E n m /\ reach m n.
Definition component_of (n : string) (c : list string) : Prop :=
  c = py_sorted c /\ NoDup c /\ forall m, m ∈ c <-> reach n m /\ reach m n.

Definition num (t : Tarjan) (x : string) : Z := default 0%Z (indices t !! x).
Definition seen (t : Tarjan) (x : string) : Prop := x ∈ dom (indices t).

(** The dependencies of [x] that its frame has consumed; all of them when it has
    no frame. *)
Definition processed (frames : list frame) (x y : string) : Prop :=
  E x y /\ forall rest, (x, rest) ∈ frames -> exists consumed, g !! x = Some (consumed ++ rest) /\ y ∈ consumed.

(** [n] is the last open node that was entered no later than [x]. *)
Definition owned (frames : list frame) (t : Tarjan) (n x : string) : Prop :=
  (num t n <= num t x)%Z /\ forall n', n' ∈ frames.*1 -> (num t n' <= num t x)%Z -> (num t n' <= num t n)%Z.

Record searching (frames : list frame) (t : Tarjan) : Prop := {
  ti_fresh : forall x i, indices t !! x = Some i -> (i < next_index t)%Z;
  ti_known : forall x, seen t x -> x ∈ dict_keys g;
  ti_stack : forall x, x ∈ stack t -> seen t x;
  ti_sorted : StronglySorted (fun a b => num t b < num t a)%Z (stack t);
  ti_on : forall x, x ∈ on_stack t <-> x ∈ stack t;
  ti_closed : forall x y, seen t x -> x ∉ stack t -> E x y -> seen t y /\ (y ∉ stack t);
  ti_frames : StronglySorted (fun a b => num t b < num t a)%Z frames.*1;
  ti_open : forall n, n ∈ frames.*1 -> n ∈ stack t;
  ti_rest : forall n rest, (n, rest) ∈ frames ->
    exists consumed, g !! n = Some (consumed ++ rest) /\ forall y, y ∈ consumed -> seen t y;
  ti_black : forall x, x ∈ stack t -> x ∉ frames.*1 ->
    (forall y, E x y -> seen t y) /\ exists y, (y ∈ stack t) /\ (num t y < num t x)%Z /\ reach x y;
  ti_reach : forall n x, n ∈ frames.*1 -> x ∈ stack t -> (num t n <= num t x)%Z -> reach n x;
  ti_low : forall n, n ∈ frames.*1 ->
    exists m, (m ∈ stack t) /\ lowlinks t !! n = Some (num t m) /\ (num t m <= num t n)%Z /\ reach n m;
  ti_lower : forall n x y low, n ∈ frames.*1 -> lowlinks t !! n = Some low -> x ∈ stack t -> owned frames t n x ->
    processed frames x y -> y ∈ stack t -> (low <= num t y)%Z;
  ti_cycles : forall c, c ∈ cycles t <-> exists n, seen t n /\ (n ∉ stack t) /\ on_cycle n /\ component_of n c;
  ti_NoDup : NoDup (cycles t);
  ti_listed : forall x, seen t x -> x ∉ stack t -> on_cycle x -> exists c, (c ∈ cycles t) /\ x ∈ c;
}.

Lemma num_seen t x : seen t x -> indices t !! x = Some (num t x).
Proof. unfold seen, num. rewrite elem_of_dom. by intros [i ->]. Qed.

Lemma sorted_num_inj t l x y :
  StronglySorted (fun a b => num t b < num t a)%Z l -> x ∈ l -> y ∈ l -> num t x = num t y -> x = y.
Proof.
  induction 1 as [|a l Hl IH Ha]; [by intros ?%not_elem_of_nil|]. rewrite Forall_forall in Ha.
  intros [->|Hx]%elem_of_cons [->|Hy]%elem_of_cons Heq; [done|apply Ha in Hy; lia|apply Ha in Hx; lia|auto].
Qed.

Lemma sorted_num_NoDup t l : StronglySorted (fun a b => num t b < num t a)%Z l -> NoDup l.
Proof.
  induction 1 as [|a l Hl IH Ha]; constructor; [|done]. intros Hin. rewrite Forall_forall in Ha. apply Ha in Hin. lia.
Qed.

(** ** Components *)

Lemma component_of_unique n c1 c2 : component_of n c1 -> component_of n c2 -> c1 = c2.
Proof.
  intros (-> & Hn1 & Hm1) (-> & Hn2 & Hm2). apply py_sorted_proper, NoDup_Permutation; [by apply NoDup_py_sorted..|].
  intros x. rewrite <-(elem_of_py_sorted x c1), <-(elem_of_py_sorted x c2). by rewrite Hm1, Hm2.
Qed.

Lemma component_of_sorted n l :
  NoDup l -> (forall m, m ∈ l <-> reach n m /\ reach m n) -> component_of n (py_sorted l).
Proof.
  intros Hnd Hl. split; [|split; [by apply NoDup_py_sorted|intros m; by rewrite elem_of_py_sorted]].
  apply py_sorted_proper. by rewrite py_sorted_perm.
Qed.

Lemma component_of_member n m c : reach n m -> reach m n -> component_of m c -> component_of n c.
Proof.
  intros Hnm Hmn (Hs & Hnd & Hc). split_and!; [done..|]. intros x. rewrite Hc.
  split; intros [H1 H2]; split; by first [transitivity n; done|transitivity m; done].
Qed.

Lemma on_cycle_member n m : reach n m -> reach m n -> on_cycle m -> on_cycle n.
Proof.
  intros Hnm Hmn (x & Hmx & Hxm). destruct (rtc_inv _ _ Hnm) as [<-|(z & Hnz & Hzm)]; [by exists x|].
  exists z. split; [done|]. by transitivity m.
Qed.

Lemma on_cycle_other n m : n <> m -> reach n m -> reach m n -> on_cycle n.
Proof. intros Hne Hnm Hmn. destruct (rtc_inv _ _ Hnm) as [?|(z & ? & ?)]; [done|]. exists z. split; [done|]. by transitivity m. Qed.

(** ** Entering a node *)

Lemma num_visit d t x : num (visit d t) x = if decide (d = x) then next_index t else num t x.
Proof. unfold num, visit. cbn [indices]. rewrite lookup_insert. by case_decide. Qed.

Lemma seen_visit d t x : seen (visit d t) x <-> x = d \/ seen t x.
Proof. unfold seen, visit. cbn [indices]. rewrite dom_insert. set_solver. Qed.

Lemma num_fresh frames t x : searching frames t -> seen t x -> (num t x < next_index t)%Z.
Proof. intros H Hx. eapply ti_fresh; [done|]. by apply num_seen. Qed.

Lemma sorted_num_visit d t l :
  ~ seen t d -> (forall x, x ∈ l -> seen t x) -> StronglySorted (fun a b => num t b < num t a)%Z l ->
  StronglySorted (fun a b => num (visit d t) b < num (visit d t) a)%Z l.
Proof.
  intros Hd Hl. induction 1 as [|a l Hs IH Ha]; [constructor|].
  assert (forall x, x ∈ a :: l -> num (visit d t) x = num t x) as Hsame.
  { intros x Hx. rewrite num_visit, decide_False; [done|]. intros <-. by apply Hd, Hl. }
  constructor; [apply IH; intros x Hx; apply Hl; by right|]. rewrite Forall_forall in Ha |- *. intros b Hb.
  rewrite !Hsame by (by left || by right). by apply Ha.
Qed.

Lemma sorted_num_push d t l :
  (forall x, x ∈ l -> seen t x /\ (num t x < next_index t)%Z) -> ~ seen t d -> StronglySorted (fun a b => num t b < num t a)%Z l ->
  StronglySorted (fun a b => num (visit d t) b < num (visit d t) a)%Z (d :: l).
Proof.
  intros Hl Hd Hs. constructor; [apply sorted_num_visit; [done|by intros; apply Hl|done]|].
  apply Forall_forall. intros x Hx. destruct (Hl x Hx) as [Hseen Hn]. rewrite !num_visit, (decide_True (P := d = d)), decide_False; [done|by intros <-|done].
Qed.

Lemma enter_node frames t d deps :
  searching frames t -> g !! d = Some deps -> ~ seen t d -> (forall n, n ∈ frames.*1 -> reach n d) ->
  searching ((d, deps) :: frames) (visit d t).
Proof.
  intros H Hd Hnew Hreach.
  assert (forall x, seen t x -> num (visit d t) x = num t x) as Hsame.
  { intros x Hx. rewrite num_visit, decide_False; [done|]. by intros <-. }
  assert (num (visit d t) d = next_index t) as Hnum by by rewrite num_visit, decide_True.
  assert (forall x, x ∈ stack t -> seen t x /\ (num t x < next_index t)%Z) as Hst.
  { intros x Hx. pose proof (ti_stack _ _ H x Hx) as Hs. split; [done|]. by eapply num_fresh. }
  assert (forall n, n ∈ frames.*1 -> seen t n /\ (num t n < next_index t)%Z) as Hfr by (intros n Hn; by apply Hst, (ti_open _ _ H)).
  assert (d ∉ stack t) as Hnot by by intros [? _]%Hst.
  constructor; cbn [visit next_index indices lowlinks stack on_stack cycles fmap list_fmap fst].
  - intros x i. rewrite lookup_insert. case_decide; [intros [= <-]; lia|]. intros Hi%(ti_fresh _ _ H). lia.
  - intros x [->|Hx]%seen_visit; [|by apply (ti_known _ _ H)]. by apply dict_get_is_Some; eauto.
  - intros x [->|Hx]%elem_of_cons; apply seen_visit; [by left|right; by apply Hst].
  - apply sorted_num_push; [done..|apply H].
  - intros x. rewrite elem_of_union, elem_of_singleton, elem_of_cons, (ti_on _ _ H). done.
  - intros x y Hx Hns Hxy. rewrite not_elem_of_cons in Hns. destruct Hns as [Hne Hns]. apply seen_visit in Hx as [->|Hx]; [done|].
    destruct (ti_closed _ _ H x y Hx Hns Hxy) as [Hy Hyn]. split; [apply seen_visit; by right|].
    rewrite not_elem_of_cons. split; [|done]. by intros ->.
  - apply (sorted_num_push d t frames.*1); [done..|apply H].
  - intros n [->|Hn]%elem_of_cons; [left|right; by apply (ti_open _ _ H)].
  - intros n rest [[= -> ->]|Hn]%elem_of_cons.
    + exists []. split; [done|]. by intros y ?%not_elem_of_nil.
    + destruct (ti_rest _ _ H n rest Hn) as (consumed & Hg & Hy). exists consumed. split; [done|]. intros y ?. apply seen_visit. auto.
  - intros x Hx Hnf. rewrite not_elem_of_cons in Hnf. destruct Hnf as [Hne Hnf]. apply elem_of_cons in Hx as [->|Hx]; [done|].
    destruct (ti_black _ _ H x Hx Hnf) as (Hy & y & Hys & Hlt & Hr). split; [intros z ?; apply seen_visit; auto|].
    exists y. split; [by right|]. by rewrite !Hsame by by apply Hst.
  - intros n x [->|Hn]%elem_of_cons [->|Hx]%elem_of_cons Hle; [done| | |].
    + rewrite Hnum, Hsame in Hle by by apply Hst. destruct (Hst x Hx). lia.
    + by apply Hreach.
    + rewrite !Hsame in Hle by first [by apply Hst|by apply Hfr]. by apply (ti_reach _ _ H).
  - intros n [->|Hn]%elem_of_cons.
    + exists d. rewrite lookup_insert, decide_True, Hnum by done. split_and!; [left|done|lia|done].
    + destruct (ti_low _ _ H n Hn) as (m & Hm & Hl & Hle & Hr). exists m. rewrite lookup_insert, decide_False by (intros <-; by apply Hfr in Hn as [? _]).
      rewrite !Hsame by first [by apply Hst|by apply Hfr]. split_and!; [by right|done..].
  - intros n x y low Hn Hlow Hx [Hown1 Hown2] [Hxy Hproc] Hy. apply elem_of_cons in Hn as [->|Hn].
    + apply elem_of_cons in Hx as [->|Hx].
      * destruct (Hproc deps) as (consumed & Hg & Hin); [left|]. rewrite Hd in Hg. injection Hg as Hg.
        assert (consumed = []) as -> by (apply (app_inv_tail deps); done). by apply not_elem_of_nil in Hin.
      * rewrite Hnum, Hsame in Hown1 by by apply Hst. destruct (Hst x Hx). lia.
    + rewrite lookup_insert, decide_False in Hlow by (intros <-; by apply Hfr in Hn as [? _]).
      destruct (ti_low _ _ H n Hn) as (m & Hm & Hl & Hle & _). rewrite Hlow in Hl. injection Hl as ->.
      apply elem_of_cons in Hx as [->|Hx].
      { specialize (Hown2 d). rewrite Hnum, Hsame in Hown2 by by apply Hfr. destruct (Hfr n Hn).
        assert (next_index t <= num t n)%Z by (apply Hown2; [left|lia]). lia. }
      apply elem_of_cons in Hy as [->|Hy]; [rewrite Hnum; destruct (Hfr n Hn); lia|].
      rewrite Hsame by by apply Hst. apply (ti_lower _ _ H n x y); try done.
      * rewrite !Hsame in Hown1 by first [by apply Hst|by apply Hfr]. split; [done|]. intros n' Hn' Hle'.
        specialize (Hown2 n'). rewrite !Hsame in Hown2 by first [by apply Hst|by apply Hfr]. apply Hown2; [by right|done].
      * split; [done|]. intros rest Hr. apply Hproc. by right.
  - intros c. rewrite (ti_cycles _ _ H). split; intros (n & Hs & Hns & Hrest); exists n.
    + split; [apply seen_visit; by right|]. split; [|done]. rewrite not_elem_of_cons. split; [by intros ->|done].
    + rewrite not_elem_of_cons in Hns. destruct Hns. apply seen_visit in Hs as [->|Hs]; [done|]. done.
  - apply H.
  - intros x [->|Hx]%seen_visit Hns; rewrite not_elem_of_cons in Hns; destruct Hns; [done|]. by apply (ti_listed _ _ H).
Qed.

(** ** Lowering a link *)

Lemma lower_link frames t n low m :
  searching frames t -> n ∈ frames.*1 -> m ∈ stack t -> reach n m -> (num t m <= num t n)%Z ->
  lowlinks t !! n = Some low -> (num t m <= low)%Z ->
  searching frames (set_lowlink n (num t m) t).
Proof.
  intros H Hn Hm Hr Hle Hlow Hml. constructor; try apply H.
  - intros n' Hn'. change (num (set_lowlink n (num t m) t)) with (num t). unfold set_lowlink. cbn [lowlinks stack].
    destruct (decide (n = n')) as [<-|Hne].
    + exists m. by rewrite lookup_insert, decide_True.
    + rewrite lookup_insert_ne by done. by apply (ti_low _ _ H).
  - intros n' x y low' Hn' Hlow' Hx Hown Hproc Hy. change (num (set_lowlink n (num t m) t)) with (num t).
    unfold set_lowlink in Hlow'. cbn [lowlinks] in Hlow'. rewrite lookup_insert in Hlow'. case_decide as Heq.
    + injection Hlow' as <-. subst n'. etrans; [exact Hml|]. by apply (ti_lower _ _ H n x y).
    + by apply (ti_lower _ _ H n' x y).
Qed.

(** ** Consuming a dependency *)

Lemma frame_unique frames t n rest1 rest2 : searching frames t -> (n, rest1) ∈ frames -> (n, rest2) ∈ frames -> rest1 = rest2.
Proof.
  intros H H1 H2. pose proof (sorted_num_NoDup t _ (ti_frames _ _ H)) as Hnd.
  apply list_elem_of_lookup in H1 as [i Hi], H2 as [j Hj].
  assert (i = j) as ->; [|congruence]. apply (NoDup_lookup frames.*1 _ _ n); [done| |]; rewrite list_lookup_fmap, ?Hi, ?Hj; done.
Qed.

Lemma consume_dependency above n d rest below t :
  searching (above ++ (n, d :: rest) :: below) t -> seen t d ->
  (forall low, lowlinks t !! n = Some low -> d ∈ stack t -> (low <= num t d)%Z) ->
  searching (above ++ (n, rest) :: below) t.
Proof.
  intros H Hd Hlow. set (frames := above ++ (n, d :: rest) :: below) in *. set (frames' := above ++ (n, rest) :: below).
  assert (frames'.*1 = frames.*1) as Hkeys by (unfold frames', frames; by rewrite !fmap_app).
  assert ((n, d :: rest) ∈ frames) as Hin by (unfold frames; set_solver).
  assert (forall n' rest', (n', rest') ∈ frames' -> (n', rest') ∈ frames \/ (n' = n /\ rest' = rest)) as Hsub.
  { intros n' rest'. unfold frames', frames. rewrite !elem_of_app, !elem_of_cons. naive_solver. }
  destruct (ti_rest _ _ H n (d :: rest) Hin) as (consumed & Hg & Hseen).
  constructor; rewrite ?Hkeys; try apply H.
  - intros n' rest' [Hin'|[-> ->]]%Hsub; [by apply (ti_rest _ _ H)|].
    exists (consumed ++ [d]). split; [by rewrite <-app_assoc|]. intros y [?| ->%list_elem_of_singleton]%elem_of_app; auto.
  - intros n' x y low Hn' Hl Hx Hown [Hxy Hproc] Hy.
    assert (owned frames t n' x) as Hown' by (unfold owned in *; by rewrite Hkeys in Hown).
    assert (processed frames x y \/ (x = n /\ y = d)) as [Hp|[-> ->]].
    { destruct (decide (x = n)) as [->|Hx'].
      - destruct (Hproc rest) as (consumed' & Hg' & Hy'); [unfold frames'; set_solver|].
        assert (consumed' = consumed ++ [d]) as ->.
        { apply (app_inv_tail rest). rewrite Hg in Hg'. injection Hg' as Hg'. by rewrite <-Hg', <-app_assoc. }
        apply elem_of_app in Hy' as [Hy'| ->%list_elem_of_singleton]; [|by right]. left. split; [done|]. intros rest' Hr.
        rewrite (frame_unique _ _ _ _ _ H Hr Hin). by exists consumed.
      - left. split; [done|]. intros rest' Hr. apply Hproc. unfold frames', frames in *.
        rewrite !elem_of_app, !elem_of_cons in *. naive_solver. }
    + by apply (ti_lower _ _ H n' x y).
    + assert (n ∈ frames.*1) as Hnf by (apply list_elem_of_fmap; by exists (n, d :: rest)).
      assert (n' = n) as ->; [|by apply Hlow].
      apply (sorted_num_inj t (stack t)); [apply H|by apply (ti_open _ _ H)|done|]. destruct Hown' as [H1 H2]. specialize (H2 n Hnf). lia.
Qed.

(** ** The scan of a frame *)

Lemma scan_dependencies_run n deps below t :
  searching ((n, deps) :: below) t ->
  exists t' next, scan_dependencies n deps t = Ok (t', next) /\
    match next with
    | None => searching ((n, []) :: below) t' /\ indices t' = indices t
    | Some (d, rest) => exists deps', g !! d = Some deps' /\ searching ((d, deps') :: (n, rest) :: below) t' /\
        ~ seen t d /\ dom (indices t') = {[d]} ∪ dom (indices t)
    end.
Proof.
  revert t. induction deps as [|d rest IH]; intros t H; cbn [scan_dependencies].
  { exists t, None. by split_and!. }
  assert (n ∈ ((n, d :: rest) :: below).*1) as Hn by left.
  destruct (ti_rest _ _ H n (d :: rest)) as (consumed & Hg & _); [left|].
  assert (E n d) as Hnd by (eexists; split; [done|]; set_solver).
  assert (d ∈ dict_keys g) as Hkey by by apply (depends_keys g n d).
  destruct (ti_low _ _ H n Hn) as (m & Hm & Hlow & Hle & Hr).
  destruct (decide (d ∈ dom (indices t))) as [Hseen|Hnew].
  - destruct (decide (d ∈ on_stack t)) as [Hon|Hoff].
    + apply (ti_on _ _ H) in Hon. unfold map_index. rewrite Hlow, (num_seen t d Hseen). cbn [mbind result_bind].
      assert (searching ((n, d :: rest) :: below) (set_lowlink n (num t m `min` num t d) t)) as H'.
      { destruct (Z.min_spec (num t m) (num t d)) as [[Hlt ->]|[Hge ->]].
        - by eapply lower_link; [done..| |].
        - eapply lower_link; [done..|by apply rtc_once|lia|done|lia]. }
      apply (consume_dependency []) in H'; [|done|].
      * destruct (IH _ H') as (t' & next & Hrun & Hcase). exists t', next. split; [exact Hrun|exact Hcase].
      * cbn [set_lowlink lowlinks]. intros low. rewrite lookup_insert, decide_True by done. intros [= <-] _.
        change (num (set_lowlink n (num t m `min` num t d) t) d) with (num t d). lia.
    + apply (consume_dependency []) in H; [by apply IH|done|]. intros low _ Hst. by rewrite (ti_on _ _ H) in Hoff.
  - pose proof Hkey as Hkey'. apply dict_get_is_Some in Hkey' as [deps' Hdeps].
    assert (searching ((d, deps') :: (n, d :: rest) :: below) (visit d t)) as H'.
    { apply enter_node; [done..|]. intros n' Hn'. apply rtc_r with n; [|done]. apply (ti_reach _ _ H); [done|by apply (ti_open _ _ H)|].
      apply elem_of_cons in Hn' as [->|Hn']; [done|]. pose proof (ti_frames _ _ H) as Hs. cbn [fmap list_fmap fst] in Hs.
      apply StronglySorted_inv in Hs as [_ Hs]. rewrite Forall_forall in Hs. apply Hs in Hn'. cbn beta in Hn'. lia. }
    apply (consume_dependency [(d, deps')]) in H'; [|apply seen_visit; by left|].
    * exists (visit d t), (Some (d, rest)). split; [done|]. exists deps'. split_and!; [done|done|done|]. cbn [visit indices]. by rewrite dom_insert_L.
    * cbn [visit lowlinks]. intros low. rewrite lookup_insert, decide_False by (intros ->; by apply Hnew, (ti_stack _ _ H), (ti_open _ _ H)).
      rewrite Hlow. intros [= <-] _. rewrite num_visit, decide_True by done.
      pose proof (num_fresh _ _ m H (ti_stack _ _ H m Hm)). lia.
Qed.

(** ** Leaving a node *)

Section leave.
Context (n : string) (below : list frame) (t : Tarjan).
Context (H : searching ((n, []) :: below) t).

Lemma leave_top : n ∈ ((n, []) :: below).*1.
Proof. left. Qed.

Lemma leave_in : n ∈ stack t.
Proof. apply (ti_open _ _ H), leave_top. Qed.

Lemma leave_below p : p ∈ below.*1 -> (num t p < num t n)%Z.
Proof.
  intros Hp. pose proof (ti_frames _ _ H) as Hs. cbn [fmap list_fmap fst] in Hs. apply StronglySorted_inv in Hs as [_ Hs].
  rewrite Forall_forall in Hs. by apply Hs in Hp.
Qed.

Lemma leave_consumed deps : g !! n = Some deps -> forall y, y ∈ deps -> seen t y.
Proof.
  intros Hg. destruct (ti_rest _ _ H n []) as (consumed & Hg' & Hy); [left|]. rewrite Hg in Hg'. injection Hg' as ->.
  by rewrite app_nil_r.
Qed.

Lemma leave_processed x y : processed below x y -> processed ((n, []) :: below) x y.
Proof.
  intros [Hxy Hp]. split; [done|]. intros rest [[= -> ->]|Hr]%elem_of_cons; [|by apply Hp].
  destruct Hxy as (deps & Hg & Hy). exists deps. by rewrite app_nil_r.
Qed.

(** The frame's node passes its link to its parent. *)
Lemma pass_link p rest below' low_parent low_node :
  below = (p, rest) :: below' -> lowlinks t !! p = Some low_parent -> lowlinks t !! n = Some low_node ->
  searching ((n, []) :: below) (set_lowlink p (Z.min low_parent low_node) t).
Proof.
  intros Hb Hp Hn. assert (p ∈ below.*1) as Hpb by (rewrite Hb; left).
  pose proof (leave_below p Hpb) as Hlt. assert (p ∈ ((n, []) :: below).*1) as Hpf by by right.
  destruct (ti_low _ _ H p Hpf) as (mp & Hmp & Hlp & Hlep & Hrp).
  destruct (ti_low _ _ H n leave_top) as (mn & Hmn & Hln & Hlen & Hrn).
  rewrite Hp in Hlp. injection Hlp as ->. rewrite Hn in Hln. injection Hln as ->.
  destruct (Z.min_spec (num t mp) (num t mn)) as [[? ->]|[? ->]].
  - by eapply lower_link.
  - eapply lower_link; [done|done|exact Hmn| |lia|exact Hp|done].
    transitivity n; [|done]. apply (ti_reach _ _ H); [done|apply leave_in|lia].
Qed.

(** Ownership after the frame is gone. *)
Lemma leave_owned p x : p ∈ below.*1 -> owned below t p x ->
  owned ((n, []) :: below) t p x \/
  (owned ((n, []) :: below) t n x /\ forall p', p' ∈ below.*1 -> (num t p' <= num t p)%Z).
Proof.
  intros Hp [H1 H2]. destruct (Z.le_gt_cases (num t n) (num t x)) as [Hle|Hgt].
  - right. split.
    + split; [done|]. intros n' [->|Hn']%elem_of_cons _; [done|]. apply leave_below in Hn'. lia.
    + intros p' Hp'. apply H2; [done|]. apply leave_below in Hp'. lia.
  - left. split; [done|]. intros n' [->|Hn']%elem_of_cons Hle; [cbn [fst] in *; lia|by apply H2].
Qed.

(** The node stays on the stack: it reaches an earlier one. *)
Lemma leave_open low :
  lowlinks t !! n = Some low -> low <> num t n ->
  (forall p rest below' low_parent, below = (p, rest) :: below' -> lowlinks t !! p = Some low_parent -> (low_parent <= low)%Z) ->
  searching below t.
Proof.
  intros Hlow Hne Hparent. destruct (ti_low _ _ H n leave_top) as (m & Hm & Hl & Hle & Hr).
  rewrite Hlow in Hl. injection Hl as ->. constructor; try apply H.
  - pose proof (ti_frames _ _ H) as Hs. cbn [fmap list_fmap fst] in Hs. by apply StronglySorted_inv in Hs as [Hs _].
  - intros p Hp. apply (ti_open _ _ H). by right.
  - intros p rest Hp. apply (ti_rest _ _ H). by right.
  - intros x Hx Hnb. destruct (decide (x = n)) as [->|Hxn].
    + split; [intros y (deps & Hg & Hy); by apply (leave_consumed deps)|]. exists m. split; [done|]. split; [lia|done].
    + apply (ti_black _ _ H); [done|]. by intros [->|?]%elem_of_cons.
  - intros p x Hp. apply (ti_reach _ _ H). by right.
  - intros p Hp. apply (ti_low _ _ H). by right.
  - intros p x y low_parent Hp Hlp Hx Hown Hproc%leave_processed Hy. assert (p ∈ ((n, []) :: below).*1) as Hpf by by right.
    destruct (leave_owned p x Hp Hown) as [Hown'|[Hown' Htop]]; [by apply (ti_lower _ _ H p x y)|].
    etrans; [|by apply (ti_lower _ _ H n x y _ leave_top Hlow Hx Hown' Hproc Hy)].
    destruct below as [|[p' rest] below']; [by apply not_elem_of_nil in Hp|].
    assert (p = p') as ->; [|by eapply Hparent]. assert (p' ∈ ((p', rest) :: below').*1) as Hp' by left.
    apply (sorted_num_inj t (stack t)); [apply H|by apply (ti_open _ _ H)|apply (ti_open _ _ H); by right|].
    specialize (Htop p' Hp'). apply elem_of_cons in Hp as [->|Hp]; [done|]. pose proof (ti_frames _ _ H) as Hs.
    cbn [fmap list_fmap fst] in Hs. apply StronglySorted_inv in Hs as [Hs _]. apply StronglySorted_inv in Hs as [_ Hs].
    rewrite Forall_forall in Hs. apply Hs in Hp. cbn beta in Hp. lia.
Qed.

(** ** Closing a component *)

Section close.
Context (Hroot : lowlinks t !! n = Some (num t n)).
Context (members rest : list string) (Hstack : stack t = members ++ n :: rest).

Lemma close_split x : x ∈ stack t -> (x ∈ members ++ [n] /\ (num t n <= num t x)%Z) \/ (x ∈ rest /\ (num t x < num t n)%Z).
Proof.
  pose proof (ti_sorted _ _ H) as Hs. rewrite Hstack in *. apply StronglySorted_app in Hs as (Hc & _ & Hs).
  apply StronglySorted_inv in Hs as [_ Hs]. rewrite Forall_forall in Hs.
  intros [Hx|[->|Hx]%elem_of_cons]%elem_of_app.
  - left. split; [apply elem_of_app; by left|]. assert (num t n < num t x)%Z by (apply (Hc x n); [done|left]). lia.
  - left. split; [apply elem_of_app; right; left|lia].
  - right. split; [done|]. by apply Hs in Hx.
Qed.

Lemma close_component_in x : x ∈ members ++ [n] -> x ∈ stack t /\ (num t n <= num t x)%Z.
Proof.
  intros Hx. assert (x ∈ stack t) as Hin.
  { rewrite Hstack. apply elem_of_app in Hx as [?| ->%list_elem_of_singleton]; apply elem_of_app; [by left|right; left]. }
  split; [done|]. destruct (close_split x Hin) as [[_ ?]|[Hr _]]; [done|]. exfalso.
  pose proof (sorted_num_NoDup t _ (ti_sorted _ _ H)) as Hnd. rewrite Hstack in Hnd. apply NoDup_app in Hnd as (_ & Hd & Hnd).
  apply elem_of_app in Hx as [Hx| ->%list_elem_of_singleton]; [apply (Hd x); [done|by right]|]. by apply NoDup_cons in Hnd as [? _].
Qed.

(** Edges of the component stay inside it or lead to closed nodes. *)
Lemma close_edges x y : x ∈ members ++ [n] -> E x y -> seen t y /\ y ∉ rest.
Proof.
  intros Hx Hxy. destruct (close_component_in x Hx) as [Hin Hle].
  assert (x ∉ below.*1) as Hnb by (intros Hb%leave_below; lia).
  assert (seen t y) as Hy.
  { destruct (decide (x = n)) as [->|Hne].
    - destruct Hxy as (deps & Hg & Hy). by apply (leave_consumed deps).
    - apply (ti_black _ _ H x Hin); [|done]. by intros [->|?]%elem_of_cons. }
  split; [done|]. intros Hyr.
  assert (y ∈ stack t) as Hys by (rewrite Hstack; apply elem_of_app; right; by right).
  assert (num t n <= num t y)%Z.
  { apply (ti_lower _ _ H n x y _ leave_top Hroot Hin); [|apply leave_processed; split; [done|]|done].
    - split; [done|]. intros n' [->|Hn']%elem_of_cons _; [done|]. apply leave_below in Hn'. lia.
    - intros rest' Hr. exfalso. apply Hnb, list_elem_of_fmap. by exists (x, rest'). }
  destruct (close_split y Hys) as [[Hyc _]|[_ ?]]; [|lia].
  pose proof (sorted_num_NoDup t _ (ti_sorted _ _ H)) as Hnd. rewrite Hstack in Hnd. apply NoDup_app in Hnd as (_ & Hd & Hnd).
  apply elem_of_app in Hyc as [Hyc| ->%list_elem_of_singleton]; [apply (Hd y); [done|by right]|]. by apply NoDup_cons in Hnd as [? _].
Qed.

(** What the component reaches is in it or closed. *)
Lemma close_reach x y : reach x y -> x ∈ members ++ [n] \/ (seen t x /\ (x ∉ stack t)) ->
  y ∈ members ++ [n] \/ (seen t y /\ (y ∉ stack t)).
Proof.
  induction 1 as [x|x y z Hxy _ IH]; [done|]. intros Hx. apply IH. destruct Hx as [Hx|[Hs Hx]].
  - destruct (close_edges x y Hx Hxy) as [Hy Hyr]. destruct (decide (y ∈ stack t)) as [Hin|Hin]; [|by right].
    destruct (close_split y Hin) as [[? _]|[? _]]; [by left|done].
  - right. by apply (ti_closed _ _ H x).
Qed.

Lemma closed_reach x y : reach x y -> seen t x -> x ∉ stack t -> seen t y /\ (y ∉ stack t).
Proof. induction 1 as [x|x y z Hxy _ IH]; [done|]. intros Hs Hx. apply IH; by apply (ti_closed _ _ H x). Qed.

Lemma close_back x : x ∈ members ++ [n] -> reach x n.
Proof.
  intros Hx. destruct (close_component_in x Hx) as [Hin Hle]. remember (Z.to_nat (num t x - num t n)) as k eqn:Hk.
  revert x Hx Hin Hle Hk. induction k as [k IH] using lt_wf_ind. intros x Hx Hin Hle Hk.
  destruct (decide (x = n)) as [->|Hne]; [done|].
  destruct (ti_black _ _ H x Hin) as (_ & y & Hy & Hlt & Hr).
  { intros [->|Hb%leave_below]%elem_of_cons; [done|lia]. }
  destruct (close_reach x y Hr) as [Hyc|[_ ?]]; [by left| |done].
  destruct (close_component_in y Hyc) as [_ Hley]. transitivity y; [done|]. apply (IH (Z.to_nat (num t y - num t n))); try done. lia.
Qed.

(** The popped members are the component of [n]. *)
Lemma close_members m : m ∈ members ++ [n] <-> reach n m /\ reach m n.
Proof.
  split.
  - intros Hm. split; [|by apply close_back]. destruct (close_component_in m Hm). by apply (ti_reach _ _ H n m leave_top).
  - intros [Hnm Hmn]. assert (n ∈ members ++ [n]) as Hn by (apply elem_of_app; right; left).
    destruct (close_reach n m Hnm (or_introl Hn)) as [?|[Hs Hm]]; [done|].
    destruct (closed_reach m n Hmn Hs Hm) as [_ Hout]. by destruct (Hout leave_in).
Qed.

Lemma close_NoDup : NoDup (members ++ [n]) /\ n ∉ rest.
Proof.
  pose proof (sorted_num_NoDup t _ (ti_sorted _ _ H)) as Hnd. rewrite Hstack, cons_middle, app_assoc in Hnd.
  apply NoDup_app in Hnd as (Hnd & Hd & _). split; [done|]. apply Hd, elem_of_app. right. left.
Qed.

(** The test for a cycle. *)
Lemma close_is_cycle : exists b,
  (if decide (1 < length (py_sorted (members ++ [n]))) then Ok true
   else match py_sorted (members ++ [n]) with
        | [] => Raise (IndexError "list index out of range")
        | first :: _ => deps ← dict_index g first; Ok (bool_decide (first ∈ deps))
        end) = Ok b /\ (b = true <-> on_cycle n).
Proof.
  pose proof close_members as Hc. destruct close_NoDup as [Hnd _]. revert Hc Hnd. generalize members as l. intros [|m l] Hc Hnd.
  - change (py_sorted ([] ++ [n])) with [n]. rewrite decide_False by (cbn; lia).
    destruct (ti_rest _ _ H n []) as (deps & Hg & _); [left|]. rewrite app_nil_r in Hg.
    unfold dict_index. rewrite Hg. cbn [mbind result_bind]. eexists. split; [done|]. rewrite bool_decide_eq_true. split.
    + intros Hin. exists n. split; [by exists deps|done].
    + intros (m & (deps' & Hg' & Hm) & Hr). rewrite Hg in Hg'. injection Hg' as <-.
      assert (m ∈ [] ++ [n]) as ->%list_elem_of_singleton; [|done].
      apply Hc. split; [apply rtc_once; by exists deps|done].
  - rewrite length_py_sorted, length_app, decide_True by (cbn; lia). exists true. split; [done|]. split; [intros _|done].
    cbn [app] in Hnd. apply NoDup_cons in Hnd as [Hnm _].
    assert (reach n m /\ reach m n) as [] by (apply Hc; left).
    apply (on_cycle_other n m); [|done..]. intros <-. apply Hnm, elem_of_app. right. left.
Qed.

(** The state once the component is popped and, if it is a cycle, reported. *)
Lemma close_searching on_stack' b :
  (forall x, x ∈ on_stack' <-> x ∈ rest) -> (b = true <-> on_cycle n) ->
  searching below (TarjanState (next_index t) (indices t) (lowlinks t) rest on_stack'
    (if b : bool then cycles t ++ [py_sorted (members ++ [n])] else cycles t)).
Proof.
  intros Hon Hb. set (t' := TarjanState _ _ _ _ _ _).
  destruct close_NoDup as [Hnd Hnr].
  assert (forall x, x ∈ rest -> x ∈ stack t /\ (num t x < num t n)%Z) as Hrest.
  { intros x Hx. assert (x ∈ stack t) as Hs by (rewrite Hstack; apply elem_of_app; right; by right). split; [done|].
    destruct (close_split x Hs) as [[Hm _]|[_ ?]]; [|done]. exfalso.
    pose proof (sorted_num_NoDup t _ (ti_sorted _ _ H)) as Hd. rewrite Hstack, cons_middle, app_assoc in Hd.
    apply NoDup_app in Hd as (_ & Hd & _). by apply (Hd x). }
  assert (forall x, x ∈ stack t -> (num t x < num t n)%Z -> x ∈ rest) as Hback.
  { intros x Hx Hlt. destruct (close_split x Hx) as [[_ ?]|[? _]]; [lia|done]. }
  assert (component_of n (py_sorted (members ++ [n]))) as Hcomp by (apply component_of_sorted; [done|apply close_members]).
  constructor.
  - apply H.
  - apply H.
  - intros x [Hx _]%Hrest. exact (ti_stack _ _ H x Hx).
  - pose proof (ti_sorted _ _ H) as Hs. rewrite Hstack in Hs. apply StronglySorted_app in Hs as (_ & _ & Hs).
    by apply StronglySorted_inv in Hs as [Hs _].
  - exact Hon.
  - intros x y Hx Hxr Hxy. destruct (decide (x ∈ stack t)) as [Hin|Hin].
    + destruct (close_split x Hin) as [[Hm _]|[? _]]; [|done]. by apply (close_edges x).
    + destruct (ti_closed _ _ H x y Hx Hin Hxy) as [Hy Hys]. split; [done|]. by intros [? _]%Hrest.
  - pose proof (ti_frames _ _ H) as Hs. cbn [fmap list_fmap fst] in Hs. by apply StronglySorted_inv in Hs as [Hs _].
  - intros p Hp. apply Hback; [apply (ti_open _ _ H); by right|by apply leave_below].
  - intros p r Hp. apply (ti_rest _ _ H). by right.
  - intros x [Hx Hlt]%Hrest Hnb. destruct (ti_black _ _ H x Hx) as (Hseen & y & Hy & Hlty & Hr).
    { intros [->|?]%elem_of_cons; [cbn [fst] in Hlt; lia|done]. }
    split; [done|]. exists y. split; [|done]. apply Hback; [done|lia].
  - intros p x Hp [Hx _]%Hrest. apply (ti_reach _ _ H); [by right|done].
  - intros p Hp. destruct (ti_low _ _ H p) as (m & Hm & Hl & Hle & Hr); [by right|].
    exists m. split_and!; [|done..]. apply Hback; [done|]. apply leave_below in Hp. lia.
  - intros p x y low Hp Hl [Hx Hlt]%Hrest Hown Hproc%leave_processed [Hy _]%Hrest.
    destruct (leave_owned p x Hp Hown) as [Hown'|[[Hle _] _]]; [|change (num t' x) with (num t x) in *; lia].
    apply (ti_lower _ _ H p x y); [by right|done..].
  - intros c. transitivity (c ∈ cycles t \/ (on_cycle n /\ component_of n c)).
    + cbn [t' cycles]. destruct b.
      * rewrite elem_of_app, list_elem_of_singleton. split; (intros [?|Hc]; [by left|right]).
        -- split; [by apply Hb|by rewrite Hc].
        -- destruct Hc as [_ Hc]. by apply (component_of_unique n).
      * split; [by left|]. by intros [?|[Hcy%Hb _]].
    + rewrite (ti_cycles _ _ H). split.
      * intros [(m & Hs & Hm & Hrest')|[Hcy Hc]]; [exists m; split_and!; try apply Hrest'; [done|by intros [? _]%Hrest]|].
        exists n. split_and!; try done. apply (ti_stack _ _ H), leave_in.
      * intros (m & Hs & Hm & Hcy & Hc). destruct (decide (m ∈ stack t)) as [Hin|Hin]; [|left; by exists m].
        destruct (close_split m Hin) as [[Hmem _]|[? _]]; [|done]. apply close_members in Hmem as [Hnm Hmn].
        right. split; [by apply (on_cycle_member n m)|by apply (component_of_member n m)].
  - cbn [t' cycles]. destruct b; [|apply H]. apply NoDup_app. split_and!; [apply H| |apply NoDup_singleton].
    intros c Hc ->%list_elem_of_singleton. apply (ti_cycles _ _ H) in Hc as (m & Hs & Hm & _ & _ & _ & Hmem).
    assert (reach m n) as Hr by (apply Hmem, elem_of_py_sorted, elem_of_app; right; left).
    destruct (closed_reach m n Hr Hs Hm) as [_ Hout]. by destruct (Hout leave_in).
  - intros x Hx Hxr Hcy. cbn [t' cycles]. destruct (decide (x ∈ stack t)) as [Hin|Hin].
    + destruct (close_split x Hin) as [[Hm _]|[? _]]; [|done]. pose proof Hm as [Hnx Hxn]%close_members.
      replace b with true by (symmetry; apply Hb, (on_cycle_member n x); done).
      exists (py_sorted (members ++ [n])). split; [apply elem_of_app; right; left|by apply elem_of_py_sorted].
    + destruct (ti_listed _ _ H x Hx Hin Hcy) as (c & Hc & Hxc). exists c. split; [|done]. destruct b; [|done].
      apply elem_of_app. by left.
Qed.
End close.
End leave.

(** ** Finishing a node *)

Lemma pop_run n members rest on component :
  NoDup (members ++ n :: rest) -> (forall x, x ∈ on <-> x ∈ members ++ n :: rest) ->
  exists on', pop_component n (members ++ n :: rest) on component = Ok (rest, on', component ++ members ++ [n]) /\
    forall x, x ∈ on' <-> x ∈ rest.
Proof.
  revert on component. induction members as [|m members IH]; intros on component Hnd Hon; cbn [app pop_component] in *;
    apply NoDup_cons in Hnd as [Hm Hnd]; rewrite decide_True by (apply Hon; left).
  - rewrite decide_True by done. exists (on ∖ {[n]}). split; [done|]. intros x.
    rewrite elem_of_difference, elem_of_singleton, Hon, elem_of_cons. split; [by intros [[] ?]|]. intros Hx. split; [by right|by intros ->].
  - rewrite decide_False by (intros ->; apply Hm, elem_of_app; right; left).
    destruct (IH (on ∖ {[m]}) (component ++ [m]) Hnd) as (on' & Hrun & Hon').
    { intros x. rewrite elem_of_difference, elem_of_singleton, Hon, elem_of_cons. split; [by intros [[] ?]|]. intros Hx. split; [by right|by intros ->]. }
    exists on'. split; [|done]. by rewrite Hrun, <-app_assoc.
Qed.

Lemma close_run n below t :
  searching ((n, []) :: below) t -> lowlinks t !! n = Some (num t n) ->
  exists t', close_component g n t = Ok t' /\ searching below t' /\ indices t' = indices t.
Proof.
  intros H Hroot. destruct (list_elem_of_split _ _ (leave_in n below t H)) as (members & rest & Hst).
  destruct (pop_run n members rest (on_stack t) []) as (on' & Hpop & Hon).
  { rewrite <-Hst. apply (sorted_num_NoDup t), H. }
  { intros x. rewrite <-Hst. apply H. }
  destruct (close_is_cycle n below t H Hroot members rest Hst) as (b & Hb & Hcy).
  unfold close_component. rewrite Hst, Hpop. cbn [mbind result_bind app]. setoid_rewrite Hb. cbn [mbind result_bind].
  eexists. split; [done|]. split; [|done]. by apply close_searching.
Qed.

Lemma finish_run n below t :
  searching ((n, []) :: below) t -> exists t', finish_node g n below t = Ok t' /\ searching below t' /\ indices t' = indices t.
Proof.
  intros H. destruct (ti_low _ _ H n (leave_top n below)) as (m & Hm & Hlow & Hle & Hr).
  pose proof (num_seen t n (ti_stack _ _ H n (leave_in n below t H))) as Hidx.
  unfold finish_node. set (after := match below with [] => _ | _ => _ end).
  assert (exists t1, after = Ok t1 /\ searching ((n, []) :: below) t1 /\ indices t1 = indices t /\
    lowlinks t1 !! n = Some (num t m) /\
    forall p rest below' low, below = (p, rest) :: below' -> lowlinks t1 !! p = Some low -> (low <= num t m)%Z)
    as (t1 & -> & H1 & Hind & Hlow1 & Hparent).
  { subst after. destruct below as [|[p rest] below'] eqn:Hbelow; [by exists t|].
    destruct (ti_low _ _ H p) as (mp & _ & Hlp & _); [right; left|]. unfold map_index. rewrite Hlp, Hlow. cbn [mbind result_bind].
    eexists. split; [done|]. split; [by eapply pass_link|]. split; [done|]. cbn [set_lowlink lowlinks].
    assert (p <> n) as Hne. { intros ->. assert (num t n < num t n)%Z; [|lia]. eapply leave_below; [done|left]. }
    rewrite lookup_insert_ne by done. split; [done|]. intros p' rest' below'' low [= -> -> ->].
    rewrite lookup_insert, decide_True by done. intros [= <-]. lia. }
  cbn [mbind result_bind]. unfold map_index. rewrite Hlow1, Hind, Hidx. cbn [mbind result_bind].
  assert (num t1 = num t) as Hnum by (unfold num; by rewrite Hind).
  case_decide as Heq.
  - destruct (close_run n below t1 H1) as (t' & Hrun & H' & Hi); [by rewrite Hnum, <-Heq|].
    exists t'. by rewrite Hrun, Hi, Hind.
  - exists t1. split; [done|]. split; [|done]. eapply leave_open; [done|exact Hlow1|by rewrite Hnum|done].
Qed.

(** ** The search *)

Definition unseen (t : Tarjan) : nat := size ((list_to_set (dict_keys g) : gset string) ∖ dom (indices t)).

Lemma connect_run fuel frames t :
  searching frames t -> 2 * unseen t + length frames <= fuel ->
  exists t', connect_loop fuel g frames t = Ok t' /\ searching [] t' /\ forall x, seen t x -> seen t' x.
Proof.
  revert frames t. induction fuel as [|fuel IH]; intros [|[n deps] below] t H Hfuel; cbn [connect_loop length] in *; try lia; [by exists t..|].
  destruct (scan_dependencies_run n deps below t H) as (t1 & next & Hscan & Hcase). rewrite Hscan. cbn [mbind result_bind snd fst].
  destruct next as [[d rest]|].
  - destruct Hcase as (deps' & Hd & H1 & Hnew & Hdom). unfold dict_index. rewrite Hd. cbn [mbind result_bind].
    destruct (IH _ t1 H1) as (t' & Hrun & H' & Hs).
    + enough (unseen t1 < unseen t) by (cbn [length]; lia). unfold unseen. apply subset_size. rewrite Hdom.
      assert (d ∈ dict_keys g) as Hkey by (apply dict_get_is_Some; by eexists).
      unfold seen in Hnew. split; [set_solver|]. intros Hsub. specialize (Hsub d). set_solver.
    + exists t'. split_and!; [done|done|]. intros x Hx. apply Hs. unfold seen in *. rewrite Hdom. set_solver.
  - destruct Hcase as [H1 Hi]. destruct (finish_run n below t1 H1) as (t2 & Hfin & H2 & Hi2). rewrite Hfin. cbn [mbind result_bind].
    assert (dom (indices t2) = dom (indices t)) as Hdom by by rewrite Hi2, Hi.
    destruct (IH below t2 H2) as (t' & Hrun & H' & Hs); [unfold unseen in *; rewrite Hdom; lia|].
    exists t'. split_and!; [done|done|]. intros x Hx. apply Hs. unfold seen in *. by rewrite Hdom.
Qed.

(** Nothing is left on the stack once no frame is. *)
Lemma searching_stack_nil t : searching [] t -> stack t = [].
Proof.
  intros H. destruct (stack t) as [|a l _] eqn:Hs using rev_ind; [done|exfalso].
  destruct (ti_black _ _ H a) as (_ & y & Hy & Hlt & _); [rewrite Hs; apply elem_of_app; right; left|by intros ?%not_elem_of_nil|].
  pose proof (ti_sorted _ _ H) as Hsort. rewrite Hs in *. apply StronglySorted_app in Hsort as (Hc & _ & _).
  apply elem_of_app in Hy as [Hy| ->%list_elem_of_singleton]; [|lia]. specialize (Hc y a Hy). cbn beta in Hc.
  assert (num t a < num t y)%Z by (apply Hc; left). lia.
Qed.

Lemma connect_unvisited_run t node :
  searching [] t -> node ∈ dict_keys g ->
  exists t', connect_unvisited g t node = Ok t' /\ searching [] t' /\ seen t' node /\ forall x, seen t x -> seen t' x.
Proof.
  intros H Hkey. unfold connect_unvisited. case_decide as Hseen; [by exists t|].
  pose proof Hkey as Hdeps. apply dict_get_is_Some in Hdeps as [deps Hdeps].
  unfold strongconnect, dict_index. rewrite Hdeps. cbn [mbind result_bind].
  assert (searching [(node, deps)] (visit node t)) as H1 by (apply enter_node; [done..|by intros n ?%not_elem_of_nil]).
  destruct (connect_run (connect_fuel g) _ _ H1) as (t' & Hrun & H' & Hs).
  - unfold connect_fuel, unseen. cbn [length visit indices]. rewrite dom_insert_L.
    assert (size ((list_to_set (dict_keys g) : gset string) ∖ ({[node]} ∪ dom (indices t))) < length (dict_keys g)); [|lia].
    eapply Nat.lt_le_trans; [apply (subset_size _ (list_to_set (dict_keys g)))|].
    + split; [set_solver|]. intros Hsub. specialize (Hsub node). set_solver.
    + rewrite size_list_to_set; [done|]. by apply Hwf.
  - exists t'. split_and!; [done|done|apply Hs, seen_visit; by left|]. intros x Hx. apply Hs, seen_visit. by right.
Qed.

Lemma searching_start : searching [] (TarjanState 0 ∅ ∅ [] ∅ []).
Proof.
  constructor; cbn; unfold seen, num; cbn; try (intros; set_solver); constructor.
Qed.

Lemma connect_all nodes t :
  searching [] t -> (forall x, x ∈ nodes -> x ∈ dict_keys g) ->
  exists t', mfold (connect_unvisited g) t nodes = Ok t' /\ searching [] t' /\
    (forall x, x ∈ nodes -> seen t' x) /\ forall x, seen t x -> seen t' x.
Proof.
  revert t. induction nodes as [|x nodes IH]; intros t H Hk; cbn [mfold].
  { exists t. split_and!; [done|done|by intros x ?%not_elem_of_nil|done]. }
  destruct (connect_unvisited_run t x H) as (t1 & Hrun & H1 & Hx & Hs1); [apply Hk; left|]. rewrite Hrun. cbn [mbind result_bind].
  destruct (IH t1 H1) as (t' & Hrun' & H' & Hn & Hs'); [intros y ?; apply Hk; by right|].
  exists t'. split_and!; [done|done| |auto]. intros y [->|Hy]%elem_of_cons; auto.
Qed.
End tarjan.

(** ** The order of the report *)

Lemma tuple_le_trans : Transitive tuple_le.
Proof.
  intros a. induction a as [|x a IH]; intros [|y b] [|z c]; cbn [tuple_le]; try done.
  intros [[-> Hab]|[Hxy Hle]] [[-> Hbc]|[Hyz Hle']]; [left|by right|by right|right].
  - split; [done|]. by apply (IH b).
  - split; [|by transitivity y]. intros ->. apply Hxy. by apply (anti_symm String.le).
Qed.

Lemma tuple_le_total : Total tuple_le.
Proof.
  intros a. induction a as [|x a IH]; intros [|y b]; cbn [tuple_le]; auto.
  destruct (decide (x = y)) as [->|Hne]; [destruct (IH b); auto|]. destruct (total String.le x y); [left|right]; right; auto.
Qed.
#[local] Existing Instance tuple_le_trans.
#[local] Existing Instance tuple_le_total.

Lemma mmap_identities_ok l :
  (forall c, c ∈ l -> addresses_ok c) -> exists keys, mmap (mmap canonical_resource_identity) l = Ok keys.
Proof.
  induction l as [|c l IH]; intros Hl; cbn [mmap]; [by eexists|]. rewrite mmap_identity_ok by (apply Hl; left).
  cbn [mbind result_bind]. destruct IH as [keys ->]; [intros c' ?; apply Hl; by right|]. by eexists.
Qed.

Lemma component_addresses g n c :
  graph_closed g -> addresses_ok (dict_keys g) -> on_cycle g n -> component_of g n c -> addresses_ok c.
Proof.
  intros Hclosed Haddr (m & Hnm & _) (_ & _ & Hc). apply Forall_forall. intros x Hx. apply Hc in Hx as [_ Hx].
  unfold addresses_ok in Haddr. rewrite Forall_forall in Haddr. apply Haddr.
  destruct (rtc_inv _ _ Hx) as [->|(y & Hxy & _)]; [by apply (depends_keys g n m)|by apply (depends_keys g x y)].
Qed.

Lemma on_cycle_tc g n : on_cycle g n <-> tc (depends g) n n.
Proof.
  split.
  - intros (m & Hnm & Hmn). by eapply tc_rtc_r; [apply tc_once|].
  - intros Htc. inversion Htc as [? ? Hn|? m ? Hnm Hmn]; subst; [exists n; by split|exists m]. split; [done|]. by apply tc_rtc.
Qed.

(** The whole search, from the empty state. *)
Lemma cycle_search_run g :
  dict_wf g -> graph_closed g -> addresses_ok (dict_keys g) ->
  exists t, mfold (connect_unvisited g) (TarjanState 0 ∅ ∅ [] ∅ []) (py_sorted (dict_keys g)) = Ok t /\
    NoDup (cycles t) /\
    (forall c, c ∈ cycles t <-> exists n, on_cycle g n /\ component_of g n c) /\
    (forall n, on_cycle g n -> exists c, (c ∈ cycles t) /\ n ∈ c).
Proof.
  intros Hwf Hclosed Haddr.
  destruct (connect_all g Hwf Hclosed (py_sorted (dict_keys g)) _ (searching_start g Hwf Hclosed)) as (t & Hrun & H & Hall & _).
  { intros x. apply elem_of_py_sorted. }
  pose proof (searching_stack_nil g t H) as Hst.
  assert (forall n, on_cycle g n -> seen t n) as Hseen.
  { intros n (m & Hnm & _). apply Hall, elem_of_py_sorted. by apply (depends_keys g n m). }
  assert (forall n, n ∉ stack t) as Hout by (intros n; rewrite Hst; apply not_elem_of_nil).
  exists t. split_and!; [exact Hrun|apply H| |].
  - intros c. rewrite (ti_cycles _ _ _ H). split; intros (n & Hrest); exists n; [by split_and!; apply Hrest|].
    destruct Hrest as [Hcy Hc]. split_and!; auto.
  - intros n Hcy. apply (ti_listed _ _ _ H); auto.
Qed.

(** C4: the cycle report of a graph with canonical addresses always returns. It
    lists, each once and in tuple order, exactly the strongly connected
    components of the nodes that lie on a cycle of the known dependencies, every
    such node is listed, and the report is empty exactly on acyclic graphs. *)
Theorem dependency_cycles_exact deps :
  dict_wf deps -> addresses_ok (dict_keys deps) ->
  let g := dependency_graph deps in
  exists report, dependency_cycles deps = Ok report /\ StronglySorted tuple_le report /\ NoDup report /\
    (forall c, c ∈ report <-> exists n, on_cycle g n /\ component_of g n c) /\
    (forall n, on_cycle g n -> exists c, (c ∈ report) /\ n ∈ c) /\
    (report = [] <-> acyclic (depends g)).
Proof.
  intros Hdict Haddr g.
  pose proof (dependency_graph_wf deps Hdict : dict_wf g) as Hwf.
  pose proof (dependency_graph_closed deps : graph_closed g) as Hclosed.
  assert (addresses_ok (dict_keys g)) as Hkeys by (unfold g; by rewrite dependency_graph_keys).
  destruct (cycle_search_run g Hwf Hclosed Hkeys) as (t & Hrun & Hnd & Hcycles & Hlisted).
  destruct (mmap_identities_ok (cycles t)) as [keys Hids].
  { intros c (n & Hcy & Hc)%Hcycles. by apply (component_addresses g n). }
  exists (merge_sort tuple_le (cycles t)). pose proof (merge_sort_Permutation tuple_le (cycles t)) as Hperm.
  assert (forall c, c ∈ merge_sort tuple_le (cycles t) <-> c ∈ cycles t) as Hin by (intros c; by rewrite Hperm).
  split_and!.
  - unfold dependency_cycles. fold g. rewrite sorted_by_identity_ok by done. cbn [mbind result_bind]. rewrite Hrun. cbn [mbind result_bind].
    unfold sorted_cycles. rewrite Hids. cbn [mbind result_bind].
    destruct (dict_keys g) as [|k ks] eqn:Hks; [|done]. vm_compute in Hrun. injection Hrun as <-. done.
  - apply StronglySorted_merge_sort; apply _.
  - by rewrite Hperm.
  - intros c. by rewrite Hin.
  - intros n (c & Hc & Hn)%Hlisted. exists c. by rewrite Hin.
  - split.
    + intros Hnil n Hcy%on_cycle_tc%Hlisted. destruct Hcy as (c & Hc & _). rewrite <-Hin, Hnil in Hc. by apply not_elem_of_nil in Hc.
    + intros Hac. destruct (merge_sort tuple_le (cycles t)) as [|c l]; [done|]. exfalso.
      destruct (proj1 (Hcycles c)) as (n & Hcy & _); [apply Hin; left|]. by apply (Hac n), on_cycle_tc.
Qed.

(** A chain into a two-cycle, and a self-dependency. *)
Definition cyclic_sample : graph :=
  Dict [("a.x", ["b.x"; "gone.x"]); ("b.x", ["c.x"; "d.x"]); ("c.x", ["b.x"]); ("d.x", ["d.x"]); ("e.x", ["a.x"])].

Lemma dependency_cycles_exact_witness :
  dependency_cycles cyclic_sample = Ok [["b.x"; "c.x"]; ["d.x"]] /\
  exists n, on_cycle (dependency_graph cyclic_sample) n /\ component_of (dependency_graph cyclic_sample) n ["b.x"; "c.x"].
Proof.
  destruct (dependency_cycles_exact cyclic_sample) as (report & Hrun & _ & _ & Hcs & _ & _).
  - vm_decide.
  - repeat constructor.
  - assert (dependency_cycles cyclic_sample = Ok [["b.x"; "c.x"]; ["d.x"]]) as Heq by (vm_compute; reflexivity).
    split; [exact Heq|]. apply Hcs. rewrite Hrun in Heq. injection Heq as ->. left.
Defined.
