(* ===== verification/ExploitModel.v ===== *)
(** Contracts of the exploit-path analysis ([raes_contracts/exploit_path.py]):
    the normalized attack graph, the query, and the evidence an analysis
    returns. Single-valued tags are left out of the records. [validate_X] is
    the field constraints of the model, then its validator. *)
From S2P Require Import Prelude.
From S2P Require Import Contracts.
From S2P Require Import Sha256.
From S2P Require Import Diagnostics.
From Stdlib Require Import Ascii.
Local Open Scope string_scope.
Local Open Scope list_scope.

Definition MAX_EXPLOIT_PATH_BLOCKED_TRANSITIONS : nat := 256.
Definition MAX_EXPLOIT_PATH_DIAGNOSTICS : nat := 64.
Definition MAX_EXPLOIT_PATH_EXPLORED_STATES : nat := 4096.
Definition MAX_EXPLOIT_PATH_IMPOSSIBLE_TRANSITIONS : nat := 512.

Inductive AttackStateFactKind : Type :=
  fact_access | fact_capability | fact_data_state | fact_execution | fact_observation | fact_objective_state.

Inductive AttackTransitionKind : Type := exploit_step | observation_step | postcondition_step.

Inductive ExploitPathOutcome : Type := VALID_PATH | INVALID_PATH | UNSUPPORTED.
#[export] Instance ExploitPathOutcome_eq_dec : EqDecision ExploitPathOutcome.
Proof. solve_decision. Defined.

(** A lower-case letter followed by characters of [rest]. *)
Definition lower_then (rest : ascii -> bool) (s : string) : bool :=
  match chars s with
  | c :: l => lower_char c && forallb rest l
  | [] => false
  end.

Definition one_of (l : list ascii) (c : ascii) : bool := bool_decide (c ∈ l).

(** [ExploitPathId]. *)
Definition exploit_path_id (s : string) : bool :=
  lower_then (fun c => word_char c || one_of ["."; "_"; ":"; "-"]%char c) s && max_length 256 s.

(** [JsonPointer]. *)
Definition json_pointer (s : string) : bool := json_pointer_ok s && max_length 4096 s.

(** A bounded nonempty line. *)
Definition one_line (n : nat) (s : string) : bool :=
  nonempty s && forallb (fun c => negb (one_of [ascii_of_nat 13; ascii_of_nat 10] c)) (chars s) && max_length n s.

Definition hyphenated (n : nat) (s : string) : bool :=
  lower_then (fun c => word_char c || one_of ["-"%char] c) s && max_length n s.

(** A hyphenated name, "/v" and a number. *)
Definition versioned_name (n : nat) (s : string) : bool :=
  match split_on "/"%char (chars s) with
  | [name; "v"%char :: (_ :: _) as digits] =>
      lower_then (fun c => word_char c || one_of ["-"%char] c) (String.string_of_list_ascii name)
      && forallb digit_char (tail digits) && max_length n s
  | _ => false
  end.

Definition bounded_tuple {A} (lo hi : nat) (valid : A -> bool) (l : list A) : bool :=
  Nat.leb lo (length l) && Nat.leb (length l) hi && forallb valid l.

Definition require_sorted_unique (values : list string) (label : string) : result unit :=
  raise_if (bool_decide (values <> py_sorted (py_dedupe values))) (ValueError (label +:+ " must be unique and sorted")).

Record AttackStateFact : Type := StateFact {
  fact_id : string;
  fact_kind : AttackStateFactKind;
  fact_subject : string;
  fact_object_ref : string;
}.

Definition validate_state_fact (f : AttackStateFact) : result AttackStateFact :=
  _ ← require_fields [("fact_id", exploit_path_id (fact_id f)); ("subject", one_line 256 (fact_subject f));
                      ("object_ref", json_pointer (fact_object_ref f))];
  Ok f.

Record AttackObservation : Type := Observation {
  observation_id : string;
  observation_kind : string;
  observation_source : string;
}.

Definition validate_observation (o : AttackObservation) : result AttackObservation :=
  _ ← require_fields [("observation_id", exploit_path_id (observation_id o));
                      ("kind", hyphenated 128 (observation_kind o));
                      ("source_address", json_pointer (observation_source o))];
  Ok o.

Record AttackTransition : Type := Transition {
  transition_id : string;
  transition_kind : AttackTransitionKind;
  transition_semantics : string;
  prerequisites : list string;
  effects : list string;
  observations : list AttackObservation;
}.

Definition validate_transition (t : AttackTransition) : result AttackTransition :=
  _ ← mmap validate_observation (observations t);
  _ ← require_fields
    [("transition_id", exploit_path_id (transition_id t)); ("semantics", versioned_name 128 (transition_semantics t));
     ("prerequisites", bounded_tuple 0 64 exploit_path_id (prerequisites t));
     ("effects", bounded_tuple 0 64 exploit_path_id (effects t));
     ("observations", Nat.leb (length (observations t)) 64)];
  _ ← require_sorted_unique (prerequisites t) "transition prerequisites";
  _ ← require_sorted_unique (effects t) "transition effects";
  _ ← require_sorted_unique (observation_id <$> observations t) "transition observations";
  Ok t.

Inductive target_kind : Type := target_state_fact | target_transition.
#[export] Instance target_kind_eq_dec : EqDecision target_kind.
Proof. solve_decision. Defined.

Definition target_kind_str (k : target_kind) : string :=
  match k with target_state_fact => "state-fact" | target_transition => "transition" end.

Record AttackGraphBinding : Type := Binding {
  binding_id : string;
  binding_concept_kind : string;
  binding_raes_address : string;
  binding_target_kind : target_kind;
  binding_target_id : string;
}.

Definition validate_binding (b : AttackGraphBinding) : result AttackGraphBinding :=
  _ ← require_fields
    [("binding_id", exploit_path_id (binding_id b)); ("concept_kind", hyphenated 128 (binding_concept_kind b));
     ("raes_address", json_pointer (binding_raes_address b)); ("target_id", exploit_path_id (binding_target_id b))];
  Ok b.

Record NormalizedAttackGraph : Type := AttackGraph {
  graph_snapshot_digest : string;
  state_facts : list AttackStateFact;
  transitions : list AttackTransition;
  bindings : list AttackGraphBinding;
}.

Definition validate_graph (g : NormalizedAttackGraph) : result NormalizedAttackGraph :=
  _ ← mmap validate_state_fact (state_facts g);
  _ ← mmap validate_transition (transitions g);
  _ ← mmap validate_binding (bindings g);
  _ ← require_fields
    [("snapshot_digest", prefixed_digest (graph_snapshot_digest g));
     ("state_facts", Nat.leb 1 (length (state_facts g)) && Nat.leb (length (state_facts g)) 512);
     ("transitions", Nat.leb (length (transitions g)) 512); ("bindings", Nat.leb (length (bindings g)) 1024)];
  let fact_ids := fact_id <$> state_facts g in
  _ ← require_sorted_unique fact_ids "state facts";
  _ ← require_sorted_unique (transition_id <$> transitions g) "transitions";
  _ ← require_sorted_unique (binding_id <$> bindings g) "bindings";
  _ ← mfold (fun _ t =>
        mfold (fun _ f =>
          raise_if (bool_decide (f ∉ fact_ids))
            (ValueError "transition prerequisites and effects must reference declared state facts"))
          tt (prerequisites t ++ effects t)) tt (transitions g);
  Ok g.

Record ExploitPathQuery : Type := PathQuery {
  query_id : string;
  participant_perspective : string;
  start_facts : list string;
  goal_facts : list string;
  allowed_transition_semantics : list string;
  max_depth : nat;
}.

Definition validate_query (q : ExploitPathQuery) : result ExploitPathQuery :=
  _ ← require_fields
    [("query_id", exploit_path_id (query_id q)); ("participant_perspective", one_line 256 (participant_perspective q));
     ("start_facts", bounded_tuple 1 64 exploit_path_id (start_facts q));
     ("goal_facts", bounded_tuple 1 64 exploit_path_id (goal_facts q));
     ("allowed_transition_semantics", bounded_tuple 1 16 (fun _ => true) (allowed_transition_semantics q));
     ("max_depth", Nat.leb (max_depth q) 64)];
  _ ← require_sorted_unique (start_facts q) "start facts";
  _ ← require_sorted_unique (goal_facts q) "goal facts";
  _ ← require_sorted_unique (allowed_transition_semantics q) "allowed transition semantics";
  Ok q.

Record ExploitPathStep : Type := PathStep {
  step_index : nat;
  step_transition_id : string;
  state_before_digest : string;
  satisfied_prerequisites : list string;
  applied_effects : list string;
  emitted_observations : list string;
  state_after_digest : string;
}.

Definition validate_step (s : ExploitPathStep) : result ExploitPathStep :=
  _ ← require_fields
    [("step_index", Nat.leb (step_index s) 64); ("transition_id", exploit_path_id (step_transition_id s));
     ("state_before_digest", prefixed_digest (state_before_digest s));
     ("satisfied_prerequisites", bounded_tuple 0 64 exploit_path_id (satisfied_prerequisites s));
     ("applied_effects", bounded_tuple 0 64 exploit_path_id (applied_effects s));
     ("emitted_observations", bounded_tuple 0 64 exploit_path_id (emitted_observations s));
     ("state_after_digest", prefixed_digest (state_after_digest s))];
  _ ← require_sorted_unique (satisfied_prerequisites s) "satisfied prerequisites";
  _ ← require_sorted_unique (applied_effects s) "applied effects";
  _ ← require_sorted_unique (emitted_observations s) "emitted observations";
  Ok s.

(** [rfc8785.dumps], a third-party serializer, of a tuple of strings. *)
Section digests.
Context (rfc8785_dumps : list string -> string).

Definition canonical_state_digest (state_facts : list string) : string :=
  "sha256:" +:+ sha256_hex (rfc8785_dumps state_facts).

Record ValidPathWitness : Type := PathWitness {
  initial_state : list string;
  witness_goal_facts : list string;
  witness_steps : list ExploitPathStep;
  final_state : list string;
  final_state_digest : string;
}.

Definition validate_witness (w : ValidPathWitness) : result ValidPathWitness :=
  _ ← require_fields
    [("initial_state", bounded_tuple 1 512 exploit_path_id (initial_state w));
     ("goal_facts", bounded_tuple 1 64 exploit_path_id (witness_goal_facts w));
     ("steps", Nat.leb (length (witness_steps w)) 64);
     ("final_state", bounded_tuple 1 512 exploit_path_id (final_state w));
     ("final_state_digest", prefixed_digest (final_state_digest w))];
  _ ← require_sorted_unique (initial_state w) "initial state";
  _ ← require_sorted_unique (witness_goal_facts w) "goal facts";
  _ ← require_sorted_unique (final_state w) "final state";
  _ ← raise_if (bool_decide (final_state_digest w <> canonical_state_digest (final_state w)))
    (ValueError "final_state_digest must bind the final state");
  _ ← raise_if (existsb (fun fact => bool_decide (fact ∉ final_state w)) (witness_goal_facts w))
    (ValueError "valid path witness final state must satisfy the goal");
  Ok w.
End digests.

Record BlockedTransition : Type := Blocked {
  blocked_transition_id : string;
  blocked_state_digest : string;
  missing_prerequisites : list string;
}.

Definition validate_blocked (b : BlockedTransition) : result BlockedTransition :=
  _ ← require_fields
    [("transition_id", exploit_path_id (blocked_transition_id b));
     ("state_digest", prefixed_digest (blocked_state_digest b));
     ("missing_prerequisites", bounded_tuple 1 64 exploit_path_id (missing_prerequisites b))];
  _ ← require_sorted_unique (missing_prerequisites b) "missing prerequisites";
  Ok b.

Record InvalidPathEvidence : Type := InvalidPath {
  explored_state_count : nat;
  evidence_exhausted_depth : bool;
  blocked_transitions : list BlockedTransition;
  impossible_transitions : list string;
  unsatisfied_goal : list string;
}.

Definition validate_invalid_path (e : InvalidPathEvidence) : result InvalidPathEvidence :=
  _ ← require_fields
    [("explored_state_count", Nat.leb 1 (explored_state_count e)
        && Nat.leb (explored_state_count e) MAX_EXPLOIT_PATH_EXPLORED_STATES);
     ("blocked_transitions", Nat.leb (length (blocked_transitions e)) MAX_EXPLOIT_PATH_BLOCKED_TRANSITIONS);
     ("impossible_transitions",
        bounded_tuple 0 MAX_EXPLOIT_PATH_IMPOSSIBLE_TRANSITIONS exploit_path_id (impossible_transitions e));
     ("unsatisfied_goal", bounded_tuple 1 64 exploit_path_id (unsatisfied_goal e))];
  _ ← require_sorted_unique (impossible_transitions e) "impossible transitions";
  _ ← require_sorted_unique (unsatisfied_goal e) "unsatisfied goal";
  Ok e.

Record UnsupportedAnalysis : Type := UnsupportedPath { reason_codes : list string }.

Definition validate_unsupported (u : UnsupportedAnalysis) : result UnsupportedAnalysis :=
  _ ← require_fields [("reason_codes", bounded_tuple 1 64 (fun _ => true) (reason_codes u))];
  _ ← require_sorted_unique (reason_codes u) "unsupported reason codes";
  Ok u.
