(* ===== verification/ExploitSearch.v ===== *)
(** Diagnostics and breadth-first search of the exploit-path analysis
    ([raes_processor/exploit_path/_diagnostics.py] and [_search.py]). *)
From S2P Require Import Prelude.
From S2P Require Import Contracts.
From S2P Require Import Diagnostics.
From S2P Require Import ExploitModel.
Local Open Scope string_scope.
Local Open Scope list_scope.

(** ** Diagnostics *)

Definition SUPPORTED_TRANSITION_SEMANTICS : string := "monotonic-additive/v1".
Definition BOUND_EXCEEDED_CODE : string := "exploit-path.analysis-bound-exceeded".
Definition BINDING_AMBIGUOUS_CODE : string := "exploit-path.binding-ambiguous".
Definition BINDING_MISSING_CODE : string := "exploit-path.binding-missing".
Definition BINDING_TARGET_DANGLING_CODE : string := "exploit-path.binding-target-dangling".
Definition MISSING_PREREQUISITE_CODE : string := "exploit-path.missing-prerequisite".
Definition IMPOSSIBLE_TRANSITION_CODE : string := "exploit-path.impossible-transition".
Definition QUERY_DANGLING_FACT_CODE : string := "exploit-path.query-dangling-fact".
Definition UNSATISFIED_GOAL_CODE : string := "exploit-path.unsatisfied-goal".
Definition UNSUPPORTED_SEMANTICS_CODE : string := "exploit-path.unsupported-semantics".

Definition FAIL_CLOSED_CODES : list string :=
  [BOUND_EXCEEDED_CODE; BINDING_AMBIGUOUS_CODE; BINDING_MISSING_CODE; BINDING_TARGET_DANGLING_CODE;
   QUERY_DANGLING_FACT_CODE; UNSUPPORTED_SEMANTICS_CODE].

Definition diagnostic (code address message : string) : result DiagnosticModel :=
  validate_diagnostic_model (DiagModel code "exploit-path" address message ERROR).

Definition diagnostic_key (d : DiagnosticModel) : string * string := (dm_address d, dm_code d).

Definition dedupe_diagnostics (items : list DiagnosticModel) : list DiagnosticModel :=
  sorted_by diagnostic_key (dict_values (dict_of_list ((fun d => (diagnostic_key d, d)) <$> items))).

Definition bounded_fail_closed_diagnostics (items : list DiagnosticModel) : result (list DiagnosticModel) :=
  let diagnostics := dedupe_diagnostics items in
  if Nat.leb (length diagnostics) MAX_EXPLOIT_PATH_DIAGNOSTICS then Ok diagnostics
  else
    d ← diagnostic BOUND_EXCEEDED_CODE "/diagnostics"
      "The analysis produced more fail-closed diagnostics than the evidence contract can carry.";
    Ok [d].

(** ** Search *)

Section search.
Context (rfc8785_dumps : list string -> string).
(** The order in which a Python set of states is iterated. *)
Context (set_order : list (gset string) -> list (gset string)).

Abbreviation state_digest := (canonical_state_digest rfc8785_dumps).

Record SearchResult : Type := Searched {
  sr_outcome : ExploitPathOutcome;
  sr_witness : option ValidPathWitness;
  sr_failure : option InvalidPathEvidence;
  sr_unsupported : option UnsupportedAnalysis;
  sr_diagnostics : list DiagnosticModel;
}.

(** [visited] lists the members of the set in the order they were added. *)
Record SearchAccumulator : Type := Accumulator {
  visited : list (gset string);
  queue : list (gset string * list ExploitPathStep);
  blocked : dict (string * string) BlockedTransition;
  impossible : list string;
  exhausted_depth : bool;
}.

Record SearchContext : Type := SearchIn {
  sc_query : ExploitPathQuery;
  sc_transitions : list AttackTransition;
  sc_goal : gset string;
  sc_initial : gset string;
}.

(** [tuple(sorted(s))]. *)
Definition sorted_facts (s : gset string) : list string := py_sorted (elements s).

Definition unsupported_search_result (address message : string) : result SearchResult :=
  d ← diagnostic BOUND_EXCEEDED_CODE address message;
  u ← validate_unsupported (UnsupportedPath [BOUND_EXCEEDED_CODE]);
  Ok (Searched UNSUPPORTED None None (Some u) [d]).

Definition witness (query_goal : list string) (initial : gset string) (steps : list ExploitPathStep)
    (final : gset string) : result ValidPathWitness :=
  let state := sorted_facts final in
  validate_witness rfc8785_dumps
    (PathWitness (sorted_facts initial) (py_sorted query_goal) steps state (state_digest state)).

Definition valid_search_result (query : ExploitPathQuery) (initial : gset string) (steps : list ExploitPathStep)
    (final : gset string) : result SearchResult :=
  w ← witness (goal_facts query) initial steps final;
  Ok (Searched VALID_PATH (Some w) None None []).

Definition allowed_transitions (g : NormalizedAttackGraph) (query : ExploitPathQuery) : list AttackTransition :=
  base.filter (fun t => transition_semantics t ∈ allowed_transition_semantics query) (transitions g).

Definition search_context (g : NormalizedAttackGraph) (query : ExploitPathQuery) : SearchContext :=
  SearchIn query (allowed_transitions g query) (list_to_set (goal_facts query)) (list_to_set (start_facts query)).

Definition initial_goal_result (c : SearchContext) : result (option SearchResult) :=
  if decide (sc_goal c ⊆ sc_initial c) then
    r ← valid_search_result (sc_query c) (sc_initial c) [] (sc_initial c); Ok (Some r)
  else Ok None.

Definition make_step (t : AttackTransition) (index : nat) (before_digest : string) (next_state : gset string)
    (applied : list string) : result ExploitPathStep :=
  validate_step
    (PathStep index (transition_id t) before_digest (py_sorted (prerequisites t)) applied
       (py_sorted (observation_id <$> observations t)) (state_digest (sorted_facts next_state))).

Definition record_blocked_transition (acc : SearchAccumulator) (t : AttackTransition) (before_digest : string)
    (missing : list string) : result (SearchAccumulator * option SearchResult) :=
  let key := (transition_id t, before_digest) in
  if decide (key ∈ dict_keys (blocked acc)) then Ok (acc, None)
  else if Nat.leb MAX_EXPLOIT_PATH_BLOCKED_TRANSITIONS (length (dict_keys (blocked acc))) then
    r ← unsupported_search_result "/search/blocked_transitions"
      "The bounded search produced more blocked-transition evidence than the contract can carry.";
    Ok (acc, Some r)
  else
    b ← validate_blocked (Blocked (transition_id t) before_digest missing);
    Ok (Accumulator (visited acc) (queue acc) (<[key := b]> (blocked acc)) (impossible acc) (exhausted_depth acc), None).

Definition record_impossible_transition (acc : SearchAccumulator) (id : string)
    : result (SearchAccumulator * option SearchResult) :=
  if decide (id ∈ impossible acc) then Ok (acc, None)
  else if Nat.leb MAX_EXPLOIT_PATH_IMPOSSIBLE_TRANSITIONS (length (impossible acc)) then
    r ← unsupported_search_result "/search/impossible_transitions"
      "The bounded search produced more impossible-transition evidence than the contract can carry.";
    Ok (acc, Some r)
  else
    Ok (Accumulator (visited acc) (queue acc) (blocked acc) (impossible acc ++ [id]) (exhausted_depth acc), None).

Definition queue_next_state (acc : SearchAccumulator) (next_state : gset string) (next_steps : list ExploitPathStep)
    : result (SearchAccumulator * option SearchResult) :=
  if Nat.leb MAX_EXPLOIT_PATH_EXPLORED_STATES (length (visited acc)) then
    r ← unsupported_search_result "/search/explored_state_count"
      "The bounded search reached more attack states than the evidence contract can carry.";
    Ok (acc, Some r)
  else
    Ok (Accumulator (visited acc ++ [next_state]) (queue acc ++ [(next_state, next_steps)]) (blocked acc)
          (impossible acc) (exhausted_depth acc), None).

Definition record_transition_progress (c : SearchContext) (t : AttackTransition) (acc : SearchAccumulator)
    (state : gset string) (steps : list ExploitPathStep) (before_digest : string) (applied : list string)
    : result (SearchAccumulator * option SearchResult) :=
  let next_state := state ∪ list_to_set (effects t) in
  step ← make_step t (length steps) before_digest next_state applied;
  let next_steps := steps ++ [step] in
  if decide (sc_goal c ⊆ next_state) then
    r ← valid_search_result (sc_query c) (sc_initial c) next_steps next_state; Ok (acc, Some r)
  else if decide (next_state ∈ visited acc) then Ok (acc, None)
  else queue_next_state acc next_state next_steps.

Definition advance_transition (c : SearchContext) (state : gset string) (steps : list ExploitPathStep)
    (acc : SearchAccumulator) (t : AttackTransition) : result (SearchAccumulator * option SearchResult) :=
  let before_digest := state_digest (sorted_facts state) in
  let missing := sorted_facts (list_to_set (prerequisites t) ∖ state) in
  match missing with
  | _ :: _ => record_blocked_transition acc t before_digest missing
  | [] =>
      let applied := sorted_facts (list_to_set (effects t) ∖ state) in
      match applied with
      | [] => record_impossible_transition acc (transition_id t)
      | _ :: _ => record_transition_progress c t acc state steps before_digest applied
      end
  end.

Definition advance_from_state (c : SearchContext) (acc : SearchAccumulator) (state : gset string)
    (steps : list ExploitPathStep) : result (SearchAccumulator * option SearchResult) :=
  until_some (advance_transition c state steps) acc (sc_transitions c).

Definition diagnostic_cap_result (acc : SearchAccumulator) : result (option SearchResult) :=
  if Nat.ltb MAX_EXPLOIT_PATH_DIAGNOSTICS (length (dict_keys (blocked acc)) + length (impossible acc) + 1) then
    r ← unsupported_search_result "/diagnostics"
      "The bounded search produced more diagnostics than the evidence contract can carry.";
    Ok (Some r)
  else Ok None.

(** Every turn removes one queued state, and at most
    [MAX_EXPLOIT_PATH_EXPLORED_STATES] states are ever queued. *)
Fixpoint run_bounded_search (fuel : nat) (c : SearchContext) (acc : SearchAccumulator)
    : result (SearchAccumulator * option SearchResult) :=
  match queue acc with
  | [] => r ← diagnostic_cap_result acc; Ok (acc, r)
  | (state, steps) :: rest =>
      match fuel with
      | O => Raise OutOfFuel
      | S fuel =>
          let acc := Accumulator (visited acc) rest (blocked acc) (impossible acc) (exhausted_depth acc) in
          if Nat.leb (max_depth (sc_query c)) (length steps) then
            run_bounded_search fuel c (Accumulator (visited acc) (queue acc) (blocked acc) (impossible acc) true)
          else
            r ← advance_from_state c acc state steps;
            match snd r with
            | Some outcome => Ok (fst r, Some outcome)
            | None => run_bounded_search fuel c r.1
            end
      end
  end.

(** [max(states, key=len)]: the first of the largest. *)
Definition max_by_len (states : list (gset string)) : result (gset string) :=
  match states with
  | [] => Raise (ValueError "max() iterable argument is empty")
  | s :: rest => Ok (foldl (fun best s => if Nat.ltb (size best) (size s) then s else best) s rest)
  end.

Definition goal_left (goal : gset string) (states : list (gset string)) : result (list string) :=
  match sorted_facts (goal ∖ ⋃ states) with
  | [] => largest ← max_by_len (set_order states); Ok (sorted_facts (goal ∖ largest))
  | unsatisfied => Ok unsatisfied
  end.

Definition invalid_path_diagnostics (acc : SearchAccumulator) : result (list DiagnosticModel) :=
  blocked_diagnostics ← mmap (fun item =>
    diagnostic MISSING_PREREQUISITE_CODE
      ("/normalized_graph/transitions/" +:+ escape_pointer (blocked_transition_id item))
      "A transition was blocked because at least one prerequisite was absent from the reached state.")
    (dict_values (blocked acc));
  impossible_diagnostics ← mmap (fun id =>
    diagnostic IMPOSSIBLE_TRANSITION_CODE ("/normalized_graph/transitions/" +:+ escape_pointer id)
      "A transition could not advance the attack state under monotonic-additive semantics.")
    (py_sorted (impossible acc));
  unsatisfied ← diagnostic UNSATISFIED_GOAL_CODE "/query/goal_facts"
    "The search exhausted the bounded transition space without satisfying the goal.";
  Ok (blocked_diagnostics ++ impossible_diagnostics ++ [unsatisfied]).

Definition blocked_key (b : BlockedTransition) : string * string := (blocked_transition_id b, blocked_state_digest b).

Definition invalid_search_result (goal : gset string) (acc : SearchAccumulator) : result SearchResult :=
  diagnostics ← invalid_path_diagnostics acc;
  unsatisfied ← goal_left goal (visited acc);
  failure ← validate_invalid_path
    (InvalidPath (length (visited acc)) (exhausted_depth acc) (sorted_by blocked_key (dict_values (blocked acc)))
       (py_sorted (impossible acc)) unsatisfied);
  Ok (Searched INVALID_PATH None (Some failure) None (dedupe_diagnostics diagnostics)).

Definition search_start (c : SearchContext) : SearchAccumulator :=
  Accumulator [sc_initial c] [(sc_initial c, [])] (Dict []) [] false.

Definition search (g : NormalizedAttackGraph) (query : ExploitPathQuery) : result SearchResult :=
  let c := search_context g query in
  initial ← initial_goal_result c;
  match initial : option SearchResult with
  | Some r => Ok r
  | None =>
      r ← run_bounded_search (S MAX_EXPLOIT_PATH_EXPLORED_STATES) c (search_start c);
      match snd r : option SearchResult with
      | Some outcome => Ok outcome
      | None => invalid_search_result (sc_goal c) (fst r)
      end
  end.
End search.
