(* ===== verification/ExploitAnalysis.v ===== *)
(** Fail-closed preflight of an exploit-path request and the analysis that
    composes it with the search ([raes_processor/exploit_path/_preflight.py]
    and [_service.py]). *)
From S2P Require Import Prelude.
From S2P Require Import Contracts.
From S2P Require Import Diagnostics.
From S2P Require Import ExploitModel.
From S2P Require Import ExploitSearch.
From Stdlib Require Import Ascii.
Local Open Scope string_scope.
Local Open Scope list_scope.
Local Open Scope Z_scope.

(** ** JSON pointers *)

Inductive json : Type :=
| JNull
| JBool (b : bool)
| JInt (z : Z)
| JFloat (repr : string)
| JString (s : string)
| JList (items : list json)
| JObject (members : list (string * json)).

Definition space_char (c : ascii) : bool :=
  let n := nat_of_ascii c in (Nat.leb 9 n && Nat.leb n 13) || (Nat.leb 28 n && Nat.leb n 32)
                             || Nat.eqb n 133 || Nat.eqb n 160.

Fixpoint skip_spaces (s : list ascii) : list ascii :=
  match s with
  | c :: s' => if space_char c then skip_spaces s' else s
  | [] => []
  end.

(** Decimal digits, with single underscores between them. *)
Fixpoint int_digits (value : Z) (s : list ascii) : option Z :=
  match s with
  | [] => Some value
  | c :: s' =>
      if digit_char c then int_digits (10 * value + Z.of_nat (nat_of_ascii c - 48)) s'
      else if Ascii.eqb c "_"%char then
        match s' with
        | d :: s'' => if digit_char d then int_digits (10 * value + Z.of_nat (nat_of_ascii d - 48)) s'' else None
        | [] => None
        end
      else None
  end.

Definition unsigned_int (s : list ascii) : option Z :=
  match s with
  | c :: _ => if digit_char c then int_digits 0 s else None
  | [] => None
  end.

(** Python's [int] of a decimal string. *)
Definition py_int (s : list ascii) : option Z :=
  let s := rev (skip_spaces (rev (skip_spaces s))) in
  match s with
  | "-"%char :: digits => Z.opp <$> unsigned_int digits
  | "+"%char :: digits => unsigned_int digits
  | digits => unsigned_int digits
  end.

(** [items[i]] of a Python list: a negative index counts from the end. *)
Definition list_index {A} (items : list A) (i : Z) : result A :=
  let i := if i <? 0 then i + Z.of_nat (length items) else i in
  if i <? 0 then Raise (IndexError "list index out of range")
  else match items !! Z.to_nat i with Some a => Ok a | None => Raise (IndexError "list index out of range") end.

Definition descend (current : json) (raw_part : list ascii) : result json :=
  let part := String.string_of_list_ascii (unescape_tilde (unescape_slash raw_part)) in
  match current with
  | JObject members => dict_index (Dict members) part
  | JList items =>
      match py_int (chars part) with
      | Some i => list_index items i
      | None => Raise (ValueError ("invalid literal for int() with base 10: " +:+ part))
      end
  | _ => Raise (TypeError "pointer cannot descend into scalar")
  end.

Definition resolve_pointer (payload : json) (pointer_value : string) : result json :=
  if bool_decide (pointer_value = "") then Ok payload
  else mfold descend payload (tail (split_on "/"%char (chars pointer_value))).

Definition pointer_resolves (payload : json) (pointer_value : string) : bool := is_ok (resolve_pointer payload pointer_value).

(** ** Preflight *)

(** A request: the snapshot is the JSON dump of its scenario. *)
Record AnalysisInput : Type := AnalyzePath {
  in_snapshot : json;
  in_graph : NormalizedAttackGraph;
  in_query : ExploitPathQuery;
}.

Definition graph_target : Type := string * string.

Definition binding_target (b : AttackGraphBinding) : graph_target :=
  (target_kind_str (binding_target_kind b), binding_target_id b).

Definition graph_targets (request : AnalysisInput) : list string * list graph_target :=
  let fact_ids := fact_id <$> state_facts (in_graph request) in
  (fact_ids, (pair "state-fact" <$> fact_ids)
             ++ ((fun t => ("transition", transition_id t)) <$> transitions (in_graph request))).

(** [[f() for x in l if p(x)]]-style collection of the diagnostics a check adds. *)
Definition diagnose_if (bad : bool) (d : result DiagnosticModel) : result (list DiagnosticModel) :=
  if bad then d ← d; Ok [d] else Ok [].

Definition collect {A} (f : A -> result (list DiagnosticModel)) (l : list A) : result (list DiagnosticModel) :=
  ds ← mmap f l; Ok (mjoin (ds : list (list DiagnosticModel))).

Definition binding_diagnostics (request : AnalysisInput) (expected_targets : list graph_target)
    : result (list DiagnosticModel) :=
  collect (fun b =>
    dangling ← diagnose_if (bool_decide (binding_target b ∉ expected_targets))
      (diagnostic BINDING_TARGET_DANGLING_CODE
         ("/normalized_graph/bindings/" +:+ escape_pointer (binding_id b) +:+ "/target_id")
         "The binding target does not resolve in the normalized attack graph.");
    missing ← diagnose_if (negb (pointer_resolves (in_snapshot request) (binding_raes_address b)))
      (diagnostic BINDING_MISSING_CODE
         ("/normalized_graph/bindings/" +:+ escape_pointer (binding_id b) +:+ "/raes_address")
         "The binding address does not resolve in the admitted scenario snapshot.");
    Ok (dangling ++ missing)) (bindings (in_graph request)).

Definition binding_targets (request : AnalysisInput) : dict graph_target (list string) :=
  foldl (fun d b => dict_append (binding_target b) (binding_id b) d) (Dict []) (bindings (in_graph request)).

Definition required_binding_diagnostics (expected_targets : list graph_target)
    (targets : dict graph_target (list string)) : result (list DiagnosticModel) :=
  collect (fun target =>
    match default [] (targets !! target) with
    | [] =>
        diagnose_if true (diagnostic BINDING_MISSING_CODE
          ("/normalized_graph/" +:+ fst target +:+ "s/" +:+ escape_pointer target.2)
          "The normalized graph target lacks a governed RAES binding.")
    | [_] => Ok []
    | first :: _ :: _ =>
        diagnose_if true (diagnostic BINDING_AMBIGUOUS_CODE
          ("/normalized_graph/bindings/" +:+ escape_pointer first)
          "The normalized graph target has multiple governed RAES bindings.")
    end) (sorted_by (fun t => t) expected_targets).

Definition semantics_diagnostics (query : ExploitPathQuery) (ts : list AttackTransition) : result (list DiagnosticModel) :=
  requested ← diagnose_if
    (existsb (fun s => bool_decide (s <> SUPPORTED_TRANSITION_SEMANTICS)) (allowed_transition_semantics query))
    (diagnostic UNSUPPORTED_SEMANTICS_CODE "/query/allowed_transition_semantics"
       "The query requests transition semantics outside the analysis profile.");
  declared ← collect (fun t =>
    diagnose_if (bool_decide (transition_semantics t <> SUPPORTED_TRANSITION_SEMANTICS))
      (diagnostic UNSUPPORTED_SEMANTICS_CODE
         ("/normalized_graph/transitions/" +:+ escape_pointer (transition_id t) +:+ "/semantics")
         "The normalized graph contains transition semantics outside the analysis profile.")) ts;
  Ok (requested ++ declared).

Definition query_fact_diagnostics (query : ExploitPathQuery) (fact_ids : list string) : result (list DiagnosticModel) :=
  collect (fun f =>
    diagnose_if (bool_decide (f ∉ fact_ids))
      (diagnostic QUERY_DANGLING_FACT_CODE ("/query/facts/" +:+ escape_pointer f)
         "The query references a state fact outside the normalized graph."))
    (start_facts query ++ goal_facts query).

Definition preflight_diagnostics (request : AnalysisInput) : result (list DiagnosticModel) :=
  let targets := graph_targets request in
  binding ← binding_diagnostics request targets.2;
  required ← required_binding_diagnostics targets.2 (binding_targets request);
  semantics ← semantics_diagnostics (in_query request) (transitions (in_graph request));
  facts ← query_fact_diagnostics (in_query request) targets.1;
  Ok (dedupe_diagnostics (binding ++ required ++ semantics ++ facts)).

(** ** Analysis *)

Section analysis.
Context (rfc8785_dumps : list string -> string) (set_order : list (gset string) -> list (gset string)).

(** The result part of the evidence; its identity and digest fields are copied
    from the request. *)
Definition validate_outcome_payload (e : SearchResult) : result unit :=
  let selected := match sr_outcome e with
                  | VALID_PATH => bool_decide (is_Some (sr_witness e))
                  | INVALID_PATH => bool_decide (is_Some (sr_failure e))
                  | UNSUPPORTED => bool_decide (is_Some (sr_unsupported e))
                  end in
  let present (b : bool) : nat := if b then 1%nat else 0%nat in
  let count := (present (bool_decide (is_Some (sr_witness e))) + present (bool_decide (is_Some (sr_failure e)))
                + present (bool_decide (is_Some (sr_unsupported e))))%nat in
  raise_if (negb selected || negb (Nat.eqb count 1)) (ValueError "outcome must select exactly one matching payload").

Definition validate_unsupported_reasons (e : SearchResult) : result unit :=
  match sr_unsupported e with
  | None => Ok tt
  | Some u =>
      raise_if (bool_decide (reason_codes u <> py_sorted (py_dedupe (dm_code <$> sr_diagnostics e))))
        (ValueError "unsupported reason codes must match diagnostic codes")
  end.

Definition validate_evidence (e : SearchResult) : result SearchResult :=
  _ ← require_fields [("diagnostics", Nat.leb (length (sr_diagnostics e)) MAX_EXPLOIT_PATH_DIAGNOSTICS)];
  _ ← validate_outcome_payload e;
  _ ← validate_unsupported_reasons e;
  Ok e.

Definition analyze_exploit_path_input (request : AnalysisInput) : result SearchResult :=
  diagnostics ← preflight_diagnostics request;
  fail_closed ← bounded_fail_closed_diagnostics (base.filter (fun d => dm_code d ∈ FAIL_CLOSED_CODES) diagnostics);
  match fail_closed : list DiagnosticModel with
  | [] =>
      found ← search rfc8785_dumps set_order (in_graph request) (in_query request);
      validate_evidence found
  | _ :: _ =>
      u ← validate_unsupported (UnsupportedPath (py_sorted (py_dedupe (dm_code <$> fail_closed))));
      validate_evidence (Searched UNSUPPORTED None None (Some u) (sorted_by diagnostic_key fail_closed))
  end.
End analysis.
