(* ===== verification/ExploitFacts.v ===== *)
(** The evidence an exploit-path search builds from a valid request is valid:
    identifiers, digests, sorted tuples and diagnostics; and the paths of the
    attack graph along which it builds them. *)
From S2P Require Import Prelude.
From S2P Require Import Contracts.
From S2P Require Import Diagnostics.
From S2P Require Import Sha256.
From S2P Require Import ExploitModel.
From S2P Require Import ExploitSearch.
From Stdlib Require Import Ascii.
Local Open Scope string_scope.
Local Open Scope list_scope.

#[local] Opaque require_fields.

(** ** Digests *)

Lemma hex_digit_char d : (0 <= d < 16)%Z -> hex_char (hex_digit d) = true.
Proof.
  intros Hd. assert (d = 0 \/ d = 1 \/ d = 2 \/ d = 3 \/ d = 4 \/ d = 5 \/ d = 6 \/ d = 7 \/ d = 8 \/ d = 9 \/ d = 10
    \/ d = 11 \/ d = 12 \/ d = 13 \/ d = 14 \/ d = 15)%Z as H by lia.
  repeat destruct H as [-> |H]; [vm_compute; reflexivity..|subst d; vm_compute; reflexivity].
Qed.

Lemma prefixed_sha256 s : prefixed_digest ("sha256:" +:+ sha256_hex s) = true.
Proof.
  destruct (sha256_hex_shape hex_char s hex_digit_char) as [Hlen Hhex]. unfold prefixed_digest, digest_of. rewrite chars_app.
  change (chars "sha256:") with ["s"; "h"; "a"; "2"; "5"; "6"; ":"]%char. cbn [length app take drop].
  rewrite !drop_0, take_0, Hhex, Hlen. rewrite bool_decide_true by done. done.
Qed.

Lemma canonical_state_digest_ok dumps l : prefixed_digest (canonical_state_digest dumps l) = true.
Proof. apply prefixed_sha256. Qed.

(** ** Sorted tuples *)

Lemma py_dedupe_nodup l : NoDup l -> py_dedupe l = l.
Proof.
  intros Hl. unfold py_dedupe, dict_keys. rewrite dict_of_list_items by by rewrite <-list_fmap_compose, list_fmap_id.
  by rewrite <-list_fmap_compose, list_fmap_id.
Qed.

Lemma require_sorted_unique_sorted l label : NoDup l -> require_sorted_unique (py_sorted l) label = Ok tt.
Proof.
  intros Hl. apply raise_if_Ok, bool_decide_not_false. rewrite py_dedupe_nodup by by apply NoDup_py_sorted.
  apply py_sorted_proper. symmetry. apply py_sorted_perm.
Qed.

Lemma require_sorted_unique_Ok l label u : require_sorted_unique l label = Ok u -> NoDup l /\ py_sorted l = l.
Proof.
  intros H%raise_if_Ok%bool_decide_not_false. assert (NoDup l) as Hnd.
  { rewrite H. apply NoDup_py_sorted, NoDup_py_dedupe. }
  split; [done|]. rewrite py_dedupe_nodup in H by done. by symmetry.
Qed.

Lemma bounded_tuple_true {A} lo hi (valid : A -> bool) l :
  bounded_tuple lo hi valid l = true <-> lo <= length l <= hi /\ forall x, x ∈ l -> valid x = true.
Proof.
  unfold bounded_tuple. rewrite !andb_true_iff, !Nat.leb_le, forallb_forall. setoid_rewrite <-list_elem_of_In. tauto.
Qed.

Lemma elem_of_sorted_facts x s : x ∈ sorted_facts s <-> x ∈ s.
Proof. unfold sorted_facts. by rewrite elem_of_py_sorted, elem_of_elements. Qed.

Lemma length_sorted_facts s : length (sorted_facts s) = size s.
Proof. unfold sorted_facts. by rewrite length_py_sorted. Qed.

Lemma sorted_facts_nil s : sorted_facts s = [] <-> s = ∅.
Proof.
  unfold sorted_facts. rewrite py_sorted_nil. rewrite elements_empty_iff. split; [by intros ?%leibniz_equiv|by intros ->].
Qed.

Lemma sorted_facts_unique s label : require_sorted_unique (sorted_facts s) label = Ok tt.
Proof. apply require_sorted_unique_sorted, NoDup_elements. Qed.

Lemma size_le_list (s : gset string) l : (forall x, x ∈ s -> x ∈ l) -> size s <= length l.
Proof.
  intros H. rewrite <-length_sorted_facts. apply submseteq_length, NoDup_submseteq.
  - apply NoDup_py_sorted, NoDup_elements.
  - intros x Hx. apply H. by apply elem_of_sorted_facts.
Qed.

(** ** Diagnostics *)

Lemma length_chars s : String.length s = length (chars s).
Proof. induction s as [|c s IH]; [done|]. simpl. by rewrite IH. Qed.

Lemma max_length_true n s : max_length n s = true <-> length (chars s) <= n.
Proof. unfold max_length. by rewrite Nat.leb_le, length_chars. Qed.

Lemma exploit_path_id_length s : exploit_path_id s = true -> length (chars s) <= 256.
Proof. intros [_ H]%andb_true_iff. by apply max_length_true. Qed.

Lemma tildes_escaped_app l1 l2 : tildes_escaped l1 = true -> tildes_escaped (l1 ++ l2) = tildes_escaped l2.
Proof.
  assert (forall n l1, length l1 <= n -> tildes_escaped l1 = true -> tildes_escaped (l1 ++ l2) = tildes_escaped l2) as H.
  { clear l1. induction n as [|n IH]; intros [|c l1] Hn; cbn [length] in Hn; try done; [lia|]. cbn [app tildes_escaped].
    destruct (Ascii.eqb c "~"%char); [|apply IH; lia]. destruct l1 as [|e l1]; [done|]. cbn [app length] in *.
    intros [-> Ht]%andb_true_iff. apply IH; [lia|done]. }
  by apply (H (length l1)).
Qed.

(** A pointer of fixed tokens around one escaped identifier. *)
Lemma json_pointer_around prefix s suffix :
  json_pointer_ok prefix = true -> prefix <> "" -> tildes_escaped (chars suffix) = true ->
  json_pointer_ok (prefix +:+ escape_pointer s +:+ suffix) = true.
Proof.
  unfold json_pointer_ok. rewrite !chars_app, chars_escape_pointer. intros Hp Hne Hs.
  destruct (chars prefix) as [|c l] eqn:E; [destruct Hne; by apply chars_inj|]. cbn [app].
  apply andb_true_iff in Hp as [-> Hp]. cbn [andb].
  change (c :: l ++ ?x) with ((c :: l) ++ x). rewrite tildes_escaped_app by done. by rewrite tildes_escaped_escape.
Qed.

Definition diagnostic_fits (code address message : string) : Prop :=
  diagnostic_code_ok code && max_length 128 code = true /\ json_pointer_ok address = true /\
  length (chars address) <= 4096 /\ nonempty message && max_length 512 message = true.

Lemma diagnostic_ok code address message :
  diagnostic_fits code address message ->
  diagnostic code address message = Ok (DiagModel code "exploit-path" address message ERROR).
Proof.
  intros (Hc & Hp & Hl & Hm). unfold diagnostic, validate_diagnostic_model.
  assert (diagnostic_domain_ok "exploit-path" && max_length 64 "exploit-path" = true) as Hd by (vm_compute; reflexivity).
  cbn [dm_code dm_domain dm_address dm_message].
  rewrite (proj2 (require_fields_Ok _ tt)); [done|]. rewrite !Forall_cons. cbn [snd].
  rewrite Hp, (proj2 (max_length_true 4096 address)) by done. done.
Qed.

(** Diagnostics about an identifier of the graph. *)
Lemma diagnostic_fits_id code prefix s suffix message :
  diagnostic_code_ok code && max_length 128 code = true ->
  json_pointer_ok prefix = true -> prefix <> "" -> tildes_escaped (chars suffix) = true ->
  nonempty message && max_length 512 message = true ->
  length (chars prefix) <= 1000 -> length (chars suffix) <= 1000 -> length (chars s) <= 256 ->
  diagnostic_fits code (prefix +:+ escape_pointer s +:+ suffix) message.
Proof.
  intros Hc Hp Hne Hs Hm Hlp Hls Hid. split_and!; [done|by apply json_pointer_around| |done].
  rewrite !chars_app, !length_app, chars_escape_pointer. pose proof (length_escape (chars s)). lia.
Qed.

(** ** What validation establishes *)

Lemma mmap_Ok_in {A B} (f : A -> result B) l l' x : mmap f l = Ok l' -> x ∈ l -> exists y, f x = Ok y.
Proof.
  revert l'; induction l as [|a l IH]; intros l' H; [by intros ?%not_elem_of_nil|]. cbn [mmap] in H.
  apply bind_Ok in H as (y & Hy & H). apply bind_Ok in H as (ys & Hys & _).
  intros [->|Hx]%elem_of_cons; [by exists y|by apply (IH ys)].
Qed.

(** A canonical tuple of at most 64 identifiers. *)
Definition ids_ok (l : list string) : Prop :=
  length l <= 64 /\ NoDup l /\ forall x, x ∈ l -> exploit_path_id x = true.

Record transition_ok (t : AttackTransition) : Prop := {
  tok_id : exploit_path_id (transition_id t) = true;
  tok_prerequisites : ids_ok (prerequisites t);
  tok_effects : ids_ok (effects t);
  tok_observations : ids_ok (observation_id <$> observations t);
}.

Record graph_ok (g : NormalizedAttackGraph) : Prop := {
  gok_facts : NoDup (fact_id <$> state_facts g);
  gok_fact_ids f : f ∈ fact_id <$> state_facts g -> exploit_path_id f = true;
  gok_size : length (state_facts g) <= 512;
  gok_transition t : t ∈ transitions g -> transition_ok t;
  gok_transition_ids : NoDup (transition_id <$> transitions g);
  gok_resolved t f : t ∈ transitions g -> f ∈ prerequisites t ++ effects t -> f ∈ fact_id <$> state_facts g;
  gok_binding b : b ∈ bindings g -> exploit_path_id (binding_id b) = true;
}.

Record query_ok (q : ExploitPathQuery) : Prop := {
  qok_start : ids_ok (start_facts q);
  qok_started : start_facts q <> [];
  qok_goal : ids_ok (goal_facts q);
  qok_goals : goal_facts q <> [];
  qok_depth : max_depth q <= 64;
}.

Lemma require_fields_in fields u n b : require_fields fields = Ok u -> (n, b) ∈ fields -> b = true.
Proof. rewrite require_fields_Ok, Forall_forall. intros H Hin. by apply (H (n, b)). Qed.

Lemma nodup_of_sorted_unique l label u : require_sorted_unique l label = Ok u -> NoDup l.
Proof. by intros [? _]%require_sorted_unique_Ok. Qed.

Lemma ids_ok_of l label u lo :
  bounded_tuple lo 64 exploit_path_id l = true -> require_sorted_unique l label = Ok u -> ids_ok l.
Proof. intros [[_ ?] ?]%bounded_tuple_true ?%nodup_of_sorted_unique. done. Qed.

Lemma validate_transition_ok t t' : validate_transition t = Ok t' -> transition_ok t.
Proof.
  unfold validate_transition. intros H. inv_result.
  match goal with H : require_fields _ = Ok _ |- _ => rename H into HF end.
  apply require_fields_Ok in HF. rewrite !Forall_cons in HF. cbn [snd] in HF. destruct_and!.
  constructor; [done|by eapply ids_ok_of..|]. split_and!.
  - rewrite length_fmap. by apply Nat.leb_le.
  - by eapply nodup_of_sorted_unique.
  - intros x (o & -> & Ho)%list_elem_of_fmap.
    match goal with H : mmap validate_observation _ = Ok _ |- _ => destruct (mmap_Ok_in _ _ _ o H Ho) as [y Hy] end.
    unfold validate_observation in Hy. inv_result.
    match goal with H : require_fields _ = Ok _ |- _ => apply (require_fields_in _ _ "observation_id" _ H) end. left.
Qed.

Lemma mfold_unit_in {A} (f : unit -> A -> result unit) l u x : mfold f tt l = Ok u -> x ∈ l -> f tt x = Ok tt.
Proof. rewrite mfold_checks, Forall_forall. auto. Qed.

Lemma validate_graph_ok g g' : validate_graph g = Ok g' -> graph_ok g.
Proof.
  unfold validate_graph. intros H. inv_result.
  match goal with H : require_fields _ = Ok _ |- _ => rename H into HF end.
  match goal with H : mmap validate_state_fact _ = Ok _ |- _ => rename H into Hfacts end.
  match goal with H : mmap validate_transition _ = Ok _ |- _ => rename H into Hts end.
  match goal with H : mmap validate_binding _ = Ok _ |- _ => rename H into Hbs end.
  match goal with H : mfold _ tt (transitions _) = Ok _ |- _ => rename H into Hres end.
  apply require_fields_Ok in HF. rewrite !Forall_cons in HF. cbn [snd] in HF.
  rewrite !andb_true_iff, !Nat.leb_le in HF. destruct_and!.
  constructor.
  - by eapply nodup_of_sorted_unique.
  - intros f (x & -> & Hx)%list_elem_of_fmap. destruct (mmap_Ok_in _ _ _ x Hfacts Hx) as [y Hy].
    unfold validate_state_fact in Hy. inv_result.
    match goal with H : require_fields _ = Ok _ |- _ => apply (require_fields_in _ _ "fact_id" _ H) end. left.
  - done.
  - intros t Ht. destruct (mmap_Ok_in _ _ _ t Hts Ht) as [y Hy]. by eapply validate_transition_ok.
  - by eapply nodup_of_sorted_unique.
  - intros t f Ht Hf. pose proof (mfold_unit_in _ _ _ t Hres Ht) as Hl. pose proof (mfold_unit_in _ _ _ f Hl Hf) as Hr.
    cbn beta in Hr. by apply raise_if_Ok, bool_decide_not_false in Hr.
  - intros b Hb. destruct (mmap_Ok_in _ _ _ b Hbs Hb) as [y Hy]. unfold validate_binding in Hy. inv_result.
    match goal with H : require_fields _ = Ok _ |- _ => apply (require_fields_in _ _ "binding_id" _ H) end. left.
Qed.

Lemma validate_query_ok q q' : validate_query q = Ok q' -> query_ok q.
Proof.
  unfold validate_query. intros H. inv_result.
  match goal with H : require_fields _ = Ok _ |- _ => rename H into HF end.
  apply require_fields_Ok in HF. rewrite !Forall_cons in HF. cbn [snd] in HF. rewrite Nat.leb_le in HF. destruct_and!.
  assert (forall l, bounded_tuple 1 64 exploit_path_id l = true -> l <> []) as Hne.
  { intros l [[Hl _] _]%bounded_tuple_true ->. simpl in Hl. lia. }
  constructor; [by eapply ids_ok_of|by apply Hne|by eapply ids_ok_of|by apply Hne|done].
Qed.

#[local] Opaque require_fields require_sorted_unique.

(** A state after a transition, and whether the transition applies. *)
Definition enabled (t : AttackTransition) (s : gset string) : Prop := list_to_set (prerequisites t) ⊆ s.
Definition after (t : AttackTransition) (s : gset string) : gset string := s ∪ list_to_set (effects t).

#[export] Instance enabled_dec t s : Decision (enabled t s).
Proof. unfold enabled. apply _. Defined.

(** States reached in exactly [n] allowed transitions. *)
Inductive path (c : SearchContext) : nat -> gset string -> Prop :=
| path_start : path c 0 (sc_initial c)
| path_step n s t : path c n s -> t ∈ sc_transitions c -> enabled t s -> path c (S n) (after t s).

Section evidence.
Context (dumps : list string -> string).
Abbreviation state_digest := (canonical_state_digest dumps).

Definition digest_of_state (s : gset string) : string := state_digest (sorted_facts s).

Lemma digest_of_state_ok s : prefixed_digest (digest_of_state s) = true.
Proof. unfold digest_of_state. apply canonical_state_digest_ok. Qed.

(** The witness step of taking [t] in [s] as step [n]. *)
Definition step_of (t : AttackTransition) (n : nat) (s : gset string) : ExploitPathStep :=
  PathStep n (transition_id t) (digest_of_state s) (py_sorted (prerequisites t))
    (sorted_facts (list_to_set (effects t) ∖ s)) (py_sorted (observation_id <$> observations t))
    (digest_of_state (after t s)).

(** [steps] replays from [s] to [s']: each step is an allowed transition whose
    prerequisites hold and that adds a fact. *)
Inductive replay (c : SearchContext) (s : gset string) : list ExploitPathStep -> gset string -> Prop :=
| replay_done : replay c s [] s
| replay_step steps s' t : replay c s steps s' -> t ∈ sc_transitions c -> enabled t s' ->
    ~ list_to_set (effects t) ⊆ s' -> replay c s (steps ++ [step_of t (length steps) s']) (after t s').

Definition missing_facts (t : AttackTransition) (s : gset string) : list string :=
  sorted_facts (list_to_set (prerequisites t) ∖ s).

Definition blocked_of (t : AttackTransition) (s : gset string) : BlockedTransition :=
  Blocked (transition_id t) (digest_of_state s) (missing_facts t s).

Definition witness_of (c : SearchContext) (steps : list ExploitPathStep) (s : gset string) : ValidPathWitness :=
  PathWitness (sorted_facts (sc_initial c)) (py_sorted (goal_facts (sc_query c))) steps (sorted_facts s)
    (digest_of_state s).

Definition unsupported_at (address message : string) : SearchResult :=
  Searched UNSUPPORTED None None (Some (UnsupportedPath [BOUND_EXCEEDED_CODE]))
    [DiagModel BOUND_EXCEEDED_CODE "exploit-path" address message ERROR].

Lemma unsupported_search_result_ok address message :
  diagnostic_fits BOUND_EXCEEDED_CODE address message ->
  unsupported_search_result address message = Ok (unsupported_at address message).
Proof.
  intros Hd. unfold unsupported_search_result. rewrite diagnostic_ok by done. cbn [mbind result_bind].
  assert (validate_unsupported (UnsupportedPath [BOUND_EXCEEDED_CODE]) = Ok (UnsupportedPath [BOUND_EXCEEDED_CODE])) as ->
    by (vm_compute; reflexivity). done.
Qed.

Section request.
Context (g : NormalizedAttackGraph) (query : ExploitPathQuery).
Context (Hg : graph_ok g) (Hq : query_ok query).
Context (Hstart : forall f, f ∈ start_facts query -> f ∈ fact_id <$> state_facts g).
Abbreviation c := (search_context g query).
Abbreviation fact_ids := (fact_id <$> state_facts g).

Lemma allowed_ok t : t ∈ sc_transitions c -> transition_ok t /\ t ∈ transitions g.
Proof. intros [_ Ht]%list_elem_of_filter. split; [by apply (gok_transition _ Hg)|done]. Qed.

Lemma path_facts n s : path c n s -> sc_initial c ⊆ s /\ forall f, f ∈ s -> f ∈ fact_ids.
Proof.
  induction 1 as [|n s t _ [IH1 IH2] Ht _].
  - split; [done|]. intros f Hf. cbn [sc_initial search_context] in Hf. apply Hstart. by apply elem_of_list_to_set in Hf.
  - split; [unfold after; set_solver|]. intros f. unfold after. rewrite elem_of_union, elem_of_list_to_set. intros [Hf|Hf]; [by apply IH2|].
    apply (gok_resolved _ Hg t); [by apply allowed_ok|]. apply elem_of_app. by right.
Qed.

Lemma initial_nonempty : sc_initial c <> ∅.
Proof.
  cbn [sc_initial search_context]. destruct (start_facts query) as [|f l] eqn:E; [by destruct (qok_started _ Hq)|].
  intros H. assert (f ∈ (∅ : gset string)) as Hf; [|set_solver]. rewrite <-H. set_solver.
Qed.

Lemma path_state_tuple n s : path c n s -> bounded_tuple 1 512 exploit_path_id (sorted_facts s) = true.
Proof.
  intros Hp. destruct (path_facts n s Hp) as [Hi Hf]. apply bounded_tuple_true. rewrite length_sorted_facts. split.
  - split.
    + assert (size s <> 0); [|lia]. intros Hz. apply size_empty_inv in Hz. apply initial_nonempty. set_solver.
    + etrans; [by apply (size_le_list _ fact_ids)|]. rewrite length_fmap. apply Hg.
  - intros x Hx. apply (gok_fact_ids _ Hg), Hf. by apply elem_of_sorted_facts.
Qed.

(** Facts among those of a tuple form a tuple. *)
Lemma facts_tuple (s : gset string) l :
  ids_ok l -> (forall x, x ∈ s -> x ∈ l) -> bounded_tuple 0 64 exploit_path_id (sorted_facts s) = true.
Proof.
  intros (Hlen & _ & Hids) Hs. apply bounded_tuple_true. rewrite length_sorted_facts. split.
  - pose proof (size_le_list s l Hs). lia.
  - intros x Hx. apply Hids, Hs. by apply elem_of_sorted_facts.
Qed.

Lemma sorted_tuple l : ids_ok l -> bounded_tuple 0 64 exploit_path_id (py_sorted l) = true.
Proof.
  intros (Hlen & _ & Hids). apply bounded_tuple_true. rewrite length_py_sorted. split; [lia|].
  intros x Hx. apply Hids. by apply elem_of_py_sorted.
Qed.

Lemma make_step_ok t n s :
  t ∈ sc_transitions c -> n <= 64 ->
  make_step dumps t n (digest_of_state s) (after t s) (sorted_facts (list_to_set (effects t) ∖ s)) = Ok (step_of t n s).
Proof.
  intros [Ht _]%allowed_ok Hn. unfold make_step. fold (digest_of_state (after t s)). fold (step_of t n s).
  unfold validate_step. rewrite (proj2 (require_fields_Ok _ tt)).
  - cbn [mbind result_bind step_of satisfied_prerequisites applied_effects emitted_observations].
    rewrite sorted_facts_unique, !require_sorted_unique_sorted; [done|apply (tok_prerequisites _ Ht)|apply (tok_observations _ Ht)].
  - rewrite !Forall_cons. cbn [snd step_of step_index step_transition_id state_before_digest satisfied_prerequisites
      applied_effects emitted_observations state_after_digest].
    split_and!; [by apply Nat.leb_le|apply Ht|apply digest_of_state_ok|apply sorted_tuple, Ht| |apply sorted_tuple, Ht
      |apply digest_of_state_ok|constructor].
    apply (facts_tuple _ (effects t)); [apply Ht|]. set_solver.
Qed.

Lemma witness_ok n s steps :
  path c n s -> list_to_set (goal_facts query) ⊆ s -> length steps <= 64 ->
  valid_search_result dumps query (sc_initial c) steps s = Ok (Searched VALID_PATH (Some (witness_of c steps s)) None None []).
Proof.
  intros Hp Hgoal Hn. unfold valid_search_result, witness. change (PathWitness _ _ _ _ _) with (witness_of c steps s).
  unfold validate_witness. rewrite (proj2 (require_fields_Ok _ tt)).
  - cbn [mbind result_bind witness_of initial_state witness_goal_facts final_state final_state_digest].
    rewrite !sorted_facts_unique. rewrite require_sorted_unique_sorted by apply (qok_goal _ Hq). cbn [mbind result_bind].
    rewrite bool_decide_false by (unfold digest_of_state; tauto). cbn [raise_if mbind result_bind].
    assert (existsb (fun fact => bool_decide (fact ∉ sorted_facts s)) (py_sorted (goal_facts (sc_query c))) = false) as ->; [|done].
    apply not_true_iff_false. rewrite existsb_exists. intros (f & Hf%list_elem_of_In & Hb%bool_decide_eq_true).
    apply Hb, elem_of_sorted_facts, Hgoal, elem_of_list_to_set. rewrite elem_of_py_sorted in Hf. exact Hf.
  - rewrite !Forall_cons. cbn [snd witness_of initial_state witness_goal_facts witness_steps final_state final_state_digest].
    split_and!; [apply (path_state_tuple 0), path_start| |by apply Nat.leb_le|by apply (path_state_tuple n)
      |apply digest_of_state_ok|constructor].
    destruct (qok_goal _ Hq) as (Hlen & _ & Hids). apply bounded_tuple_true. rewrite length_py_sorted. split.
    + split; [|done]. pose proof (qok_goals _ Hq) as Hne. cbn [sc_query search_context]. destruct (goal_facts query); [done|simpl; lia].
    + intros x Hx. apply Hids. rewrite elem_of_py_sorted in Hx. exact Hx.
Qed.

Lemma blocked_ok t s :
  t ∈ sc_transitions c -> missing_facts t s <> [] -> validate_blocked (blocked_of t s) = Ok (blocked_of t s).
Proof.
  intros [Ht _]%allowed_ok Hm. unfold validate_blocked. rewrite (proj2 (require_fields_Ok _ tt)).
  - cbn [mbind result_bind blocked_of missing_prerequisites]. unfold missing_facts. by rewrite sorted_facts_unique.
  - rewrite !Forall_cons. cbn [snd blocked_of blocked_transition_id blocked_state_digest missing_prerequisites].
    split_and!; [apply Ht|apply digest_of_state_ok| |constructor].
    assert (bounded_tuple 0 64 exploit_path_id (missing_facts t s) = true) as [[_ ?] ?]%bounded_tuple_true.
    { apply (facts_tuple _ (prerequisites t)); [apply Ht|set_solver]. }
    apply bounded_tuple_true. split; [|done]. split; [|done]. destruct (missing_facts t s); [done|simpl; lia].
Qed.

Lemma missing_facts_nil t s : missing_facts t s = [] <-> enabled t s.
Proof.
  unfold missing_facts, enabled. rewrite sorted_facts_nil.
  split; [apply empty_difference_subseteq_L|apply subseteq_empty_difference_L].
Qed.

Lemma replay_path s steps : replay c (sc_initial c) steps s -> path c (length steps) s.
Proof.
  induction 1 as [|steps s' t _ IH Ht He _]; [apply path_start|]. rewrite length_app, Nat.add_1_r. by apply path_step.
Qed.
End request.
End evidence.
