(* ===== verification/ExploitOutcome.v ===== *)
(** The breadth-first search: its invariant, what its outcome means for the paths
    of the attack graph, and the preflight before it. *)
From S2P Require Import Prelude.
From S2P Require Import Contracts.
From S2P Require Import Diagnostics.
From S2P Require Import ExploitModel.
From S2P Require Import ExploitSearch.
From S2P Require Import ExploitAnalysis.
From S2P Require Import ExploitFacts.
Local Open Scope string_scope.
Local Open Scope list_scope.

#[local] Opaque require_fields require_sorted_unique MAX_EXPLOIT_PATH_EXPLORED_STATES
  MAX_EXPLOIT_PATH_BLOCKED_TRANSITIONS MAX_EXPLOIT_PATH_IMPOSSIBLE_TRANSITIONS MAX_EXPLOIT_PATH_DIAGNOSTICS.

Section bfs.
Context (dumps : list string -> string).
Context (g : NormalizedAttackGraph) (query : ExploitPathQuery).
Context (Hg : graph_ok g) (Hq : query_ok query).
Context (Hstart : forall f, f ∈ start_facts query -> f ∈ fact_id <$> state_facts g).
Abbreviation c := (search_context g query).
Abbreviation queued acc := ((queue acc).*1).

(** The state being expanded, with the transitions not tried yet. *)
Definition pending (cur : option (gset string * list AttackTransition)) (acc : SearchAccumulator)
    (s : gset string) (t : AttackTransition) : Prop :=
  s ∈ queued acc \/ exists rest, cur = Some (s, rest) /\ t ∈ rest.

(** ** The bounds of the search, on the graph *)

(** States, transitions blocked in a state, and transitions without effect, which
    a search of depth [k] meets. *)
Definition state_at (k : nat) (s : gset string) : Prop := exists n, path c n s /\ n <= k.

Definition blocked_at (k : nat) (key : string * string) : Prop :=
  exists n s t, path c n s /\ n < k /\ t ∈ sc_transitions c /\ ~ enabled t s /\
    key = (transition_id t, digest_of_state dumps s).

Definition impossible_at (k : nat) (id : string) : Prop :=
  exists n s t, path c n s /\ n < k /\ t ∈ sc_transitions c /\ enabled t s /\ list_to_set (effects t) ⊆ s /\
    id = transition_id t.

Definition more_than {A} (bound : nat) (P : A -> Prop) : Prop :=
  exists l, NoDup l /\ bound < length l /\ forall x, x ∈ l -> P x.

(** A search of depth [k] meets more than the evidence can carry. *)
Definition overflows (k : nat) : Prop :=
  more_than MAX_EXPLOIT_PATH_EXPLORED_STATES (state_at k) \/
  more_than MAX_EXPLOIT_PATH_BLOCKED_TRANSITIONS (blocked_at k) \/
  more_than MAX_EXPLOIT_PATH_IMPOSSIBLE_TRANSITIONS (impossible_at k).

(** The evidence of the whole search, one item for the goal included, is more
    than the diagnostics can carry. *)
Definition diagnostics_overflow : Prop :=
  exists lb li, NoDup lb /\ NoDup li /\ MAX_EXPLOIT_PATH_DIAGNOSTICS < length lb + length li + 1 /\
    (forall key, key ∈ lb -> blocked_at (max_depth query) key) /\
    (forall id, id ∈ li -> impossible_at (max_depth query) id).

(** No path shorter than [k] reaches the goal. *)
Definition goal_distance (k : nat) : Prop := forall n s, path c n s -> sc_goal c ⊆ s -> k <= n.

Definition out_of_reach : Prop := goal_distance (S (max_depth query)).

(** A bound is exceeded before the goal is reached. *)
Definition bound_exceeded : Prop :=
  (exists k, k <= max_depth query /\ overflows k /\ goal_distance k) \/
  (diagnostics_overflow /\ out_of_reach).

Lemma not_more_than {A} bound (P : A -> Prop) l :
  (forall x, P x -> x ∈ l) -> length l <= bound -> ~ more_than bound P.
Proof.
  intros HP Hl (l' & Hnd & Hlen & Hall). assert (length l' <= length l); [|lia].
  apply submseteq_length, NoDup_submseteq; [done|]. auto.
Qed.

(** The recorded evidence is about expanded states. *)
Definition met (L : nat) (D : gset string -> nat) (acc : SearchAccumulator) (s : gset string) : Prop :=
  s ∈ visited acc /\ D s <= L /\ D s < max_depth query.

Definition blocked_sound (L : nat) (D : gset string -> nat) (acc : SearchAccumulator) : Prop :=
  dict_wf (blocked acc) /\ length (dict_keys (blocked acc)) <= MAX_EXPLOIT_PATH_BLOCKED_TRANSITIONS /\
  forall k b, (k, b) ∈ dict_items (blocked acc) -> k = blocked_key b /\
    exists s t, met L D acc s /\ t ∈ sc_transitions c /\ ~ enabled t s /\ b = blocked_of dumps t s.

Definition impossible_sound (L : nat) (D : gset string -> nat) (acc : SearchAccumulator) : Prop :=
  NoDup (impossible acc) /\ length (impossible acc) <= MAX_EXPLOIT_PATH_IMPOSSIBLE_TRANSITIONS /\
  forall id, id ∈ impossible acc -> exists s t, met L D acc s /\ t ∈ sc_transitions c /\ enabled t s /\
    list_to_set (effects t) ⊆ s /\ id = transition_id t.

(** The evidence of trying a transition in a state is recorded. *)
Definition recorded (acc : SearchAccumulator) (s : gset string) (t : AttackTransition) : Prop :=
  (~ enabled t s -> (transition_id t, digest_of_state dumps s) ∈ dict_keys (blocked acc)) /\
  (enabled t s -> list_to_set (effects t) ⊆ s -> transition_id t ∈ impossible acc).

(** [D] is the depth at which a state was visited; queued states lie one or
    two levels deep from [L], the level the search has reached. *)
Record search_inv (L : nat) (cur : option (gset string * list AttackTransition)) (D : gset string -> nat)
    (acc : SearchAccumulator) : Prop := {
  sv_nodup : NoDup (visited acc);
  sv_initial : sc_initial c ∈ visited acc /\ D (sc_initial c) = 0;
  sv_path s : s ∈ visited acc -> path c (D s) s;
  sv_goal s : s ∈ visited acc -> ~ sc_goal c ⊆ s;
  sv_count : length (visited acc) <= MAX_EXPLOIT_PATH_EXPLORED_STATES;
  sv_queue s steps : (s, steps) ∈ queue acc -> s ∈ visited acc /\ length steps = D s /\
    replay dumps c (sc_initial c) steps s /\ L <= D s;
  sv_queue_nodup : NoDup (queued acc);
  sv_sorted : StronglySorted le (D <$> queued acc);
  sv_depth s : s ∈ visited acc -> D s <= S L;
  sv_popped s : s ∈ visited acc -> s ∉ queued acc -> D s <= L;
  sv_expanded s t : s ∈ visited acc -> t ∈ sc_transitions c -> enabled t s -> D s < max_depth query ->
    pending cur acc s t \/ (after t s ∈ visited acc /\ D (after t s) <= S (D s));
  sv_exhausted s : exhausted_depth acc = false -> s ∈ visited acc -> s ∉ queued acc -> D s < max_depth query;
  sv_blocked : blocked_sound L D acc;
  sv_impossible : impossible_sound L D acc;
  sv_recorded s t : s ∈ visited acc -> t ∈ sc_transitions c -> D s < max_depth query ->
    pending cur acc s t \/ recorded acc s t;
}.

(** ** Levels *)

(** Below the pending level everything reachable has been visited. *)
Lemma levels L cur D acc n s k :
  search_inv L cur D acc -> (forall s t, s ∈ visited acc -> pending cur acc s t -> k <= D s) -> k <= max_depth query ->
  path c n s -> n <= k -> s ∈ visited acc /\ D s <= n.
Proof.
  intros Hinv Hpend Hk. induction 1 as [|n s t _ IH Ht He]; intros Hn.
  - destruct (sv_initial _ _ _ _ Hinv) as [? ->]. done.
  - destruct IH as [Hs HD]; [lia|]. destruct (sv_expanded _ _ _ _ Hinv s t Hs Ht He) as [Hp|[Hv HD']]; [lia| |].
    + apply Hpend in Hp; [lia|done].
    + split; [done|lia].
Qed.

Lemma no_goal_below L cur D acc n s k :
  search_inv L cur D acc -> (forall s t, s ∈ visited acc -> pending cur acc s t -> k <= D s) -> k <= max_depth query ->
  path c n s -> sc_goal c ⊆ s -> k < n.
Proof.
  intros Hinv Hpend Hk Hp Hgoal. destruct (decide (n <= k)) as [Hn|]; [|lia]. exfalso.
  destruct (levels L cur D acc n s k) as [Hs _]; [done..|]. by apply (sv_goal _ _ _ _ Hinv s).
Qed.

(** ** The bounds below the pending level *)

(** What the search has recorded covers the levels it has completed. *)
Lemma recorded_below L cur D acc k :
  search_inv L cur D acc -> (forall s t, s ∈ visited acc -> pending cur acc s t -> k <= D s) -> k <= max_depth query ->
  (forall s, state_at k s -> s ∈ visited acc) /\
  (forall key, blocked_at k key -> key ∈ dict_keys (blocked acc)) /\
  (forall id, impossible_at k id -> id ∈ impossible acc).
Proof.
  intros Hinv Hpend Hk.
  assert (forall n s t, path c n s -> n < k -> t ∈ sc_transitions c -> recorded acc s t) as Hrec.
  { intros n s t Hp Hn Ht. destruct (levels L cur D acc n s k) as [Hs HD]; [done..|lia|].
    destruct (sv_recorded _ _ _ _ Hinv s t Hs Ht) as [Hpen|]; [lia| |done]. apply Hpend in Hpen; [lia|done]. }
  split_and!.
  - intros s (n & Hp & Hn). by destruct (levels L cur D acc n s k).
  - intros key (n & s & t & Hp & Hn & Ht & He & ->). by apply (Hrec n s t).
  - intros id (n & s & t & Hp & Hn & Ht & He & Hsub & ->). by apply (Hrec n s t).
Qed.

Lemma no_overflow_below L cur D acc k :
  search_inv L cur D acc -> (forall s t, s ∈ visited acc -> pending cur acc s t -> k <= D s) -> k <= max_depth query ->
  ~ overflows k.
Proof.
  intros Hinv Hpend Hk. destruct (recorded_below L cur D acc k Hinv Hpend Hk) as (Hv & Hb & Hi).
  intros [H|[H|H]]; revert H.
  - apply (not_more_than _ _ _ Hv), Hinv.
  - apply (not_more_than _ _ _ Hb), Hinv.
  - apply (not_more_than _ _ _ Hi), Hinv.
Qed.

(** What it has recorded lies within the depth it has reached. *)
Lemma met_path L cur D acc s : search_inv L cur D acc -> met L D acc s -> path c (D s) s /\ D s < S L /\ D s < max_depth query.
Proof. intros Hinv (Hs & ? & ?). split_and!; [by apply (sv_path _ _ _ _ Hinv)|lia|done]. Qed.

Lemma recorded_blocked_at L cur D acc key k :
  search_inv L cur D acc -> key ∈ dict_keys (blocked acc) -> S L `min` max_depth query <= k -> blocked_at k key.
Proof.
  intros Hinv Hkey Hk. destruct (sv_blocked _ _ _ _ Hinv) as (_ & _ & Hall).
  apply list_elem_of_fmap in Hkey as ([key' b] & -> & Hin). destruct (Hall key' b Hin) as (-> & s & t & Hm & Ht & He & ->).
  destruct (met_path L cur D acc s Hinv Hm) as (Hp & H1 & H2). exists (D s), s, t. split_and!; [done|lia|done..].
Qed.

Lemma recorded_impossible_at L cur D acc id k :
  search_inv L cur D acc -> id ∈ impossible acc -> S L `min` max_depth query <= k -> impossible_at k id.
Proof.
  intros Hinv Hid Hk. destruct (sv_impossible _ _ _ _ Hinv) as (_ & _ & Hall).
  destruct (Hall id Hid) as (s & t & Hm & Ht & He & Hsub & ->).
  destruct (met_path L cur D acc s Hinv Hm) as (Hp & H1 & H2). exists (D s), s, t. split_and!; [done|lia|done..].
Qed.

(** ** Outcomes found during the search *)

Inductive found : SearchResult -> Prop :=
| found_valid steps s : replay dumps c (sc_initial c) steps s -> sc_goal c ⊆ s -> length steps <= max_depth query ->
    goal_distance (length steps) -> (forall k, k < length steps -> ~ overflows k) ->
    found (Searched VALID_PATH (Some (witness_of dumps c steps s)) None None [])
| found_unsupported address message :
    diagnostic_fits BOUND_EXCEEDED_CODE address message -> bound_exceeded -> found (unsupported_at address message).

Ltac fixed_diagnostic := split_and!; [vm_compute; reflexivity..|apply Nat.leb_le; vm_compute; reflexivity|vm_compute; reflexivity].

Lemma unsupported_found address message :
  diagnostic_fits BOUND_EXCEEDED_CODE address message -> bound_exceeded ->
  exists r, unsupported_search_result address message = Ok r /\ found r.
Proof. intros H Hb. eexists. split; [by apply unsupported_search_result_ok|]. by constructor. Qed.

(** A turn leaves the room between queue and visited states as it is. *)
Definition room (acc acc' : SearchAccumulator) : Prop :=
  length (visited acc') + length (queue acc) = length (visited acc) + length (queue acc').

Section expand.
Context (L : nat) (state : gset string) (steps : list ExploitPathStep).
Context (HL : L < max_depth query) (Hlen : length steps = L) (Hreplay : replay dumps c (sc_initial c) steps state).

Definition expanding (rest : list AttackTransition) (D : gset string -> nat) (acc : SearchAccumulator) : Prop :=
  search_inv L (Some (state, rest)) D acc /\ state ∈ visited acc /\ (state ∉ queued acc) /\ D state = L.

Lemma expanding_pending rest D acc s t :
  expanding rest D acc -> s ∈ visited acc -> pending (Some (state, rest)) acc s t -> L <= D s.
Proof.
  intros (Hinv & _ & _ & HD) Hs [Hin|(r & [= -> ->] & _)]; [|lia].
  apply list_elem_of_fmap in Hin as ([s' st] & -> & Hin). by apply (sv_queue _ _ _ _ Hinv) in Hin as (_ & _ & _ & ?).
Qed.

(** No goal lies in the levels being expanded. *)
Lemma expanding_distance rest D acc : expanding rest D acc -> goal_distance (S L).
Proof.
  intros Hex n s Hp Hgoal. pose proof Hex as (Hinv & _).
  apply (no_goal_below L (Some (state, rest)) D acc n s L); try done; [|lia].
  intros s0 t0. by apply expanding_pending.
Qed.

Lemma expanding_exceeded rest D acc : expanding rest D acc -> overflows (S L) -> bound_exceeded.
Proof. intros Hex Ho. left. exists (S L). split_and!; [lia|done|by eapply expanding_distance]. Qed.

(** Dropping a transition that needs no successor. *)
Lemma expanding_skip t rest D acc acc' :
  visited acc' = visited acc -> queue acc' = queue acc -> exhausted_depth acc' = exhausted_depth acc ->
  blocked_sound L D acc' -> impossible_sound L D acc' ->
  dict_keys (blocked acc) ⊆ dict_keys (blocked acc') -> impossible acc ⊆ impossible acc' -> recorded acc' state t ->
  (enabled t state -> after t state ∈ visited acc /\ D (after t state) <= S L) ->
  expanding (t :: rest) D acc -> expanding rest D acc'.
Proof.
  intros Hv Hqu Hx Hb Hi Hkb Hki Hrec Hdone (Hinv & Hs & Hns & HD). unfold expanding. rewrite Hv, Hqu.
  split_and!; [|done|done|done]. destruct Hinv. constructor; rewrite ?Hv, ?Hqu, ?Hx; try done.
  - intros s t' Hs' Ht' He HD'. destruct (sv_expanded0 s t' Hs' Ht' He HD') as [[Hp|(r & [= -> <-] & [->|Hr]%elem_of_cons)]|Hp].
    + left. left. by rewrite Hqu.
    + right. rewrite HD. by apply Hdone.
    + left. right. eauto.
    + by right.
  - intros s t' Hs' Ht' HD'. destruct (sv_recorded0 s t' Hs' Ht' HD') as [[Hp|(r & [= -> <-] & [->|Hr]%elem_of_cons)]|[Hp1 Hp2]].
    + left. left. by rewrite Hqu.
    + by right.
    + left. right. eauto.
    + right. split; [intros He; by apply Hkb, Hp1|intros He Hsub; by apply Hki, Hp2].
Qed.

Lemma expanding_met rest D acc : expanding rest D acc -> met L D acc state /\ path c L state.
Proof.
  intros (Hinv & Hs & _ & HD). split; [split_and!; [done|lia|lia]|]. rewrite <-HD at 1. by apply (sv_path _ _ _ _ Hinv).
Qed.

(** One more item of evidence than a bound allows. *)
Lemma expanding_over_blocked rest D acc t :
  expanding rest D acc -> t ∈ sc_transitions c -> ~ enabled t state ->
  (transition_id t, digest_of_state dumps state) ∉ dict_keys (blocked acc) ->
  MAX_EXPLOIT_PATH_BLOCKED_TRANSITIONS <= length (dict_keys (blocked acc)) -> overflows (S L).
Proof.
  intros Hex Ht He Hk Hle. pose proof Hex as (Hinv & _). destruct (expanding_met rest D acc Hex) as [_ Hp]. right; left.
  exists ((transition_id t, digest_of_state dumps state) :: dict_keys (blocked acc)). split_and!.
  - constructor; [done|]. by destruct (sv_blocked _ _ _ _ Hinv) as (? & _).
  - cbn [length]. lia.
  - intros key [->|Hkey]%elem_of_cons; [|by apply (recorded_blocked_at _ _ _ _ _ _ Hinv Hkey); lia].
    exists L, state, t. split_and!; [done|lia|done..].
Qed.

Lemma expanding_over_impossible rest D acc t :
  expanding rest D acc -> t ∈ sc_transitions c -> enabled t state -> list_to_set (effects t) ⊆ state ->
  transition_id t ∉ impossible acc -> MAX_EXPLOIT_PATH_IMPOSSIBLE_TRANSITIONS <= length (impossible acc) -> overflows (S L).
Proof.
  intros Hex Ht He Hsub Hk Hle. pose proof Hex as (Hinv & _). destruct (expanding_met rest D acc Hex) as [_ Hp]. right; right.
  exists (transition_id t :: impossible acc). split_and!.
  - constructor; [done|]. apply (sv_impossible _ _ _ _ Hinv).
  - cbn [length]. lia.
  - intros id [->|Hid]%elem_of_cons; [|by apply (recorded_impossible_at _ _ _ _ _ _ Hinv Hid); lia].
    exists L, state, t. split_and!; [done|lia|done..].
Qed.

Lemma expanding_over_states rest D acc t :
  expanding rest D acc -> t ∈ sc_transitions c -> enabled t state -> after t state ∉ visited acc ->
  MAX_EXPLOIT_PATH_EXPLORED_STATES <= length (visited acc) -> overflows (S L).
Proof.
  intros Hex Ht He Hk Hle. pose proof Hex as (Hinv & _). destruct (expanding_met rest D acc Hex) as [_ Hp]. left.
  exists (after t state :: visited acc). split_and!.
  - constructor; [done|]. apply Hinv.
  - cbn [length]. lia.
  - intros s [->|Hs]%elem_of_cons.
    + exists (S L). split; [by apply path_step|lia].
    + exists (D s). split; [by apply (sv_path _ _ _ _ Hinv)|by apply (sv_depth _ _ _ _ Hinv)].
Qed.

Lemma record_blocked_step t rest D acc :
  expanding (t :: rest) D acc -> t ∈ sc_transitions c -> missing_facts t state <> [] ->
  exists acc' r, record_blocked_transition acc t (digest_of_state dumps state) (missing_facts t state) = Ok (acc', r) /\
    ((r = None /\ expanding rest D acc' /\ room acc acc') \/ (exists out, r = Some out /\ found out)).
Proof.
  intros Hex Ht Hm. pose proof Hex as (Hinv & Hs & _ & _). unfold record_blocked_transition.
  assert (~ enabled t state) as Hne by by rewrite <-missing_facts_nil.
  destruct (decide _) as [Hk|Hk].
  - eexists _, _. split; [done|]. left. split_and!; [done| |done].
    apply (expanding_skip t rest D acc); [done..|apply Hinv|apply Hinv|done|done| |done|done]. by split.
  - destruct (Nat.leb _ _) eqn:Hle.
    + destruct (unsupported_found "/search/blocked_transitions"
        "The bounded search produced more blocked-transition evidence than the contract can carry.") as (r & -> & Hr);
        [fixed_diagnostic|by apply Nat.leb_le in Hle; eapply expanding_exceeded, expanding_over_blocked; eauto|]. eexists _, _. split; [done|]. right. eauto.
    + fold (blocked_of dumps t state). rewrite (blocked_ok dumps g query) by done.
      eexists _, _. split; [done|]. left. split_and!; [done| |done].
      destruct (sv_blocked _ _ _ _ Hinv) as (Hwf & Hlen' & Hall). apply Nat.leb_gt in Hle.
      apply (expanding_skip t rest D acc); [done..| |apply Hinv| |done| |done|done]; cbn [blocked].
      2:{ intros key. rewrite elem_of_dict_keys_set. by right. }
      2:{ split; [|done]. intros _. cbn [blocked]. rewrite elem_of_dict_keys_set. by left. }
      split_and!; cbn [blocked visited].
      * by apply dict_wf_set.
      * rewrite dict_keys_set, decide_False by done. rewrite length_app. cbn [length]. lia.
      * intros k b Hkb. apply dict_get_Some in Hkb; [|by apply dict_wf_set]. rewrite dict_get_set in Hkb.
        case_decide as Hk'; [|by apply Hall, dict_get_Some]. injection Hkb as <-. split; [by rewrite <-Hk'|].
        exists state, t. split_and!; [|done..]. apply (expanding_met _ _ _ Hex).
Qed.

Lemma record_impossible_step t rest D acc :
  expanding (t :: rest) D acc -> t ∈ sc_transitions c -> enabled t state -> list_to_set (effects t) ⊆ state ->
  exists acc' r, record_impossible_transition acc (transition_id t) = Ok (acc', r) /\
    ((r = None /\ expanding rest D acc' /\ room acc acc') \/ (exists out, r = Some out /\ found out)).
Proof.
  intros Hex Ht He Hsub. pose proof Hex as (Hinv & Hs & _ & HD). unfold record_impossible_transition.
  assert (after t state = state) as Hafter by (unfold after; set_solver).
  destruct (decide _) as [Hk|Hk].
  - eexists _, _. split; [done|]. left. split_and!; [done| |done].
    apply (expanding_skip t rest D acc); [done..|apply Hinv|apply Hinv|done|done|by split| |done].
    rewrite Hafter. split; [done|lia].
  - destruct (Nat.leb _ _) eqn:Hle.
    + destruct (unsupported_found "/search/impossible_transitions"
        "The bounded search produced more impossible-transition evidence than the contract can carry.") as (r & -> & Hr);
        [fixed_diagnostic|by apply Nat.leb_le in Hle; eapply expanding_exceeded, expanding_over_impossible; eauto|]. eexists _, _. split; [done|]. right. eauto.
    + eexists _, _. split; [done|]. left. split_and!; [done| |done].
      apply (expanding_skip t rest D acc);
        [done..|apply Hinv| |done| | |rewrite Hafter; split; [done|lia]|done]; cbn [impossible].
      2:{ intros id Hid. apply elem_of_app. by left. }
      2:{ split; [done|]. intros _ _. cbn [impossible]. apply elem_of_app. right. by apply list_elem_of_singleton. }
      destruct (sv_impossible _ _ _ _ Hinv) as (Hnd & Hlen' & Hall). apply Nat.leb_gt in Hle. split_and!; cbn [impossible visited].
      * apply NoDup_app. split_and!; [done| |apply NoDup_singleton]. intros x Hx ->%list_elem_of_singleton. done.
      * rewrite length_app. cbn [length]. lia.
      * intros id [Hid| ->%list_elem_of_singleton]%elem_of_app; [by apply Hall|]. exists state, t. split_and!; [|done..].
        apply (expanding_met _ _ _ Hex).
Qed.

Lemma StronglySorted_snoc l x : StronglySorted le l -> (forall y, y ∈ l -> y <= x) -> StronglySorted le (l ++ [x]).
Proof.
  induction 1 as [|y l _ IH Hy]; intros Hx; cbn [app]; [repeat constructor|]. constructor.
  - apply IH. intros z Hz. apply Hx. by right.
  - apply Forall_app. split; [done|]. constructor; [apply Hx; left|constructor].
Qed.

(** Queueing a new state. *)
Lemma expanding_push t rest D acc :
  let next := after t state in
  let acc' := Accumulator (visited acc ++ [next]) (queue acc ++ [(next, steps ++ [step_of dumps t (length steps) state])])
    (blocked acc) (impossible acc) (exhausted_depth acc) in
  expanding (t :: rest) D acc -> t ∈ sc_transitions c -> enabled t state -> ~ list_to_set (effects t) ⊆ state ->
  ~ sc_goal c ⊆ next -> next ∉ visited acc -> length (visited acc) < MAX_EXPLOIT_PATH_EXPLORED_STATES ->
  expanding rest (<[next := S L]> D) acc'.
Proof.
  intros next acc' (Hinv & Hs & Hns & HD) Ht He Hprog Hgoal Hnew Hcount.
  assert (forall s, s ∈ visited acc -> <[next := S L]> D s = D s) as Hold.
  { intros s Hv. apply fn_lookup_insert_ne. by intros <-. }
  assert (<[next := S L]> D next = S L) as Hnext by apply fn_lookup_insert.
  assert (forall s, s ∈ queued acc -> s ∈ visited acc) as Hqv.
  { intros s ([s' st] & -> & Hin)%list_elem_of_fmap. by apply (sv_queue _ _ _ _ Hinv) in Hin as (? & _). }
  assert (forall s, s ∈ visited acc' <-> s ∈ visited acc \/ s = next) as Hv'.
  { intros s. cbn [acc' visited]. by rewrite elem_of_app, list_elem_of_singleton. }
  assert (queued acc' = queued acc ++ [next]) as Hq' by (cbn [acc' queue]; by rewrite fmap_app).
  assert (forall s, s ∈ queued acc' <-> s ∈ queued acc \/ s = next) as Hq''.
  { intros s. by rewrite Hq', elem_of_app, list_elem_of_singleton. }
  assert (forall s, met L D acc s -> met L (<[next := S L]> D) acc' s) as Hmet.
  { intros s (Hvs & ? & ?). unfold met. rewrite Hv', Hold by done. auto. }
  split_and!; [constructor|rewrite Hv'; by left|rewrite Hq''; intros [?|Heq]; [done|by rewrite Heq in Hs]|by rewrite Hold].
  - cbn [acc' visited]. apply NoDup_app. split_and!; [apply Hinv| |apply NoDup_singleton].
    intros x Hx ->%list_elem_of_singleton. done.
  - destruct (sv_initial _ _ _ _ Hinv) as [Hi HDi]. rewrite Hv', Hold by done. auto.
  - intros s [Hvs| ->]%Hv'; [rewrite Hold by done; by apply (sv_path _ _ _ _ Hinv)|]. rewrite Hnext.
    apply path_step; [|done|done]. rewrite <-HD. by apply (sv_path _ _ _ _ Hinv).
  - intros s [Hvs| ->]%Hv'; [by apply (sv_goal _ _ _ _ Hinv)|done].
  - cbn [acc' visited]. rewrite length_app. cbn [length]. lia.
  - intros s st [Hin|[= -> ->]%list_elem_of_singleton]%elem_of_app.
    + apply (sv_queue _ _ _ _ Hinv) in Hin as (Hvs & ? & ? & ?). rewrite Hv', Hold by done. auto.
    + rewrite Hv', Hnext. split_and!; [by right|rewrite length_app, Hlen; simpl; lia|by constructor|lia].
  - rewrite Hq'. apply NoDup_app. split_and!; [apply Hinv| |apply NoDup_singleton].
    intros x Hx ->%list_elem_of_singleton. by apply Hnew, Hqv.
  - rewrite Hq', fmap_app. cbn [fmap list_fmap]. rewrite Hnext.
    assert (<[next := S L]> D <$> queued acc = D <$> queued acc) as ->.
    { apply Forall_fmap_ext_1, Forall_forall. intros s Hin. by apply Hold, Hqv. }
    apply StronglySorted_snoc; [apply Hinv|]. intros d (s & -> & Hin)%list_elem_of_fmap.
    by apply (sv_depth _ _ _ _ Hinv), Hqv.
  - intros s [Hvs| ->]%Hv'; [rewrite Hold by done; by apply (sv_depth _ _ _ _ Hinv)|by rewrite Hnext].
  - intros s [Hvs| ->]%Hv'; rewrite Hq''; [|tauto]. intros Hn. rewrite Hold by done. apply (sv_popped _ _ _ _ Hinv); tauto.
  - intros s t' [Hvs| ->]%Hv' Ht' He'; [|by left; left; rewrite Hq''; right].
    rewrite Hold by done. intros HDs. destruct (sv_expanded _ _ _ _ Hinv s t' Hvs Ht' He' HDs)
      as [[Hp|(r & [= -> <-] & [->|Hr]%elem_of_cons)]|[Hp HDp]].
    + left. left. rewrite Hq''. by left.
    + right. fold next. rewrite Hv', Hnext, HD. auto.
    + left. right. eauto.
    + right. rewrite Hv', Hold by done. auto.
  - intros s Hx [Hvs| ->]%Hv'; rewrite Hq''; [|tauto]. intros Hn. rewrite Hold by done.
    apply (sv_exhausted _ _ _ _ Hinv); [done|done|tauto].
  - destruct (sv_blocked _ _ _ _ Hinv) as (? & ? & Hall). split_and!; [done|done|]. intros k b Hkb.
    destruct (Hall k b Hkb) as (? & s & t' & ? & ?). split; [done|]. exists s, t'. split; [by apply Hmet|done].
  - destruct (sv_impossible _ _ _ _ Hinv) as (? & ? & Hall). split_and!; [done|done|]. intros id Hid.
    destruct (Hall id Hid) as (s & t' & ? & ?). exists s, t'. split; [by apply Hmet|done].
  - intros s t' [Hvs| ->]%Hv' Ht'; [|by left; left; rewrite Hq''; right]. rewrite Hold by done. intros HDs.
    destruct (sv_recorded _ _ _ _ Hinv s t' Hvs Ht' HDs) as [[Hp|(r & [= -> <-] & [->|Hr]%elem_of_cons)]|Hp].
    + left. left. rewrite Hq''. by left.
    + right. by split.
    + left. right. eauto.
    + by right.
Qed.

Lemma record_progress_step t rest D acc :
  expanding (t :: rest) D acc -> t ∈ sc_transitions c -> enabled t state -> ~ list_to_set (effects t) ⊆ state ->
  exists acc' r, record_transition_progress dumps c t acc state steps (digest_of_state dumps state)
      (sorted_facts (list_to_set (effects t) ∖ state)) = Ok (acc', r) /\
    ((r = None /\ (exists D', expanding rest D' acc') /\ room acc acc') \/ (exists out, r = Some out /\ found out)).
Proof.
  intros Hex Ht He Hprog. pose proof Hex as (Hinv & Hs & _ & HD). unfold record_transition_progress.
  fold (after t state). pose proof (qok_depth _ Hq) as Hdepth.
  rewrite (make_step_ok dumps g query) by (done || lia). cbn [mbind result_bind].
  assert (path c (S L) (after t state)) as Hpath.
  { apply path_step; [|done|done]. rewrite <-HD. by apply (sv_path _ _ _ _ Hinv). }
  destruct (decide (sc_goal c ⊆ after t state)) as [Hgoal|Hgoal].
  - rewrite (witness_ok dumps g query Hg Hq Hstart (S L)) by (done || (rewrite length_app; simpl; lia)).
    cbn [mbind result_bind]. eexists _, _. split; [done|]. right. eexists. split; [done|]. constructor.
    + by constructor.
    + done.
    + rewrite length_app. simpl. lia.
    + rewrite length_app. cbn [length]. rewrite Hlen, Nat.add_1_r. by eapply expanding_distance.
    + intros k. rewrite length_app. cbn [length]. intros Hk.
      apply (no_overflow_below L (Some (state, t :: rest)) D acc k Hinv); [|lia].
      intros s0 t0 Hs0 Hp0. pose proof (expanding_pending _ _ _ _ _ Hex Hs0 Hp0). lia.
  - destruct (decide (after t state ∈ visited acc)) as [Hv|Hv].
    + eexists _, _. split; [done|]. left. split_and!; [done| |done]. exists D.
      apply (expanding_skip t rest D acc); [done..|apply Hinv|apply Hinv|done|done|by split| |done].
      intros _. split; [done|]. by apply (sv_depth _ _ _ _ Hinv).
    + unfold queue_next_state. destruct (Nat.leb _ _) eqn:Hle.
      * destruct (unsupported_found "/search/explored_state_count"
          "The bounded search reached more attack states than the evidence contract can carry.") as (r & -> & Hr);
          [fixed_diagnostic|by apply Nat.leb_le in Hle; eapply expanding_exceeded, expanding_over_states; eauto|]. eexists _, _. split; [done|]. right. eauto.
      * apply Nat.leb_gt in Hle. eexists _, _. split; [done|]. left. split_and!; [done| |].
        -- eexists. by apply expanding_push.
        -- unfold room. cbn [visited queue]. rewrite !length_app. simpl. lia.
Qed.

Lemma advance_transition_step t rest D acc :
  expanding (t :: rest) D acc -> t ∈ sc_transitions c ->
  exists acc' r, advance_transition dumps c state steps acc t = Ok (acc', r) /\
    ((r = None /\ (exists D', expanding rest D' acc') /\ room acc acc') \/ (exists out, r = Some out /\ found out)).
Proof.
  intros Hex Ht. unfold advance_transition. fold (missing_facts t state). fold (digest_of_state dumps state).
  destruct (missing_facts t state) as [|m ms] eqn:Hm.
  - apply missing_facts_nil in Hm. destruct (sorted_facts _) as [|a l] eqn:Ha.
    + apply sorted_facts_nil, empty_difference_subseteq_L in Ha.
      destruct (record_impossible_step t rest D acc Hex Ht Hm Ha) as (acc' & r & -> & H). eexists _, _. split; [done|].
      destruct H as [(? & ? & ?)|?]; eauto.
    + rewrite <-Ha. apply (record_progress_step t rest D acc); [done..|]. intros Hsub%subseteq_empty_difference_L.
      apply sorted_facts_nil in Hsub. congruence.
  - rewrite <-Hm. destruct (record_blocked_step t rest D acc Hex Ht) as (acc' & r & -> & H); [by rewrite Hm|].
    eexists _, _. split; [done|]. destruct H as [(? & ? & ?)|?]; eauto.
Qed.

Lemma advance_from_state_run l : forall D acc,
  l ⊆ sc_transitions c -> expanding l D acc ->
  exists acc' r, until_some (advance_transition dumps c state steps) acc l = Ok (acc', r) /\
    ((r = None /\ (exists D', expanding [] D' acc') /\ room acc acc') \/ (exists out, r = Some out /\ found out)).
Proof.
  induction l as [|t l IH]; intros D acc Hsub Hex; cbn [until_some].
  - eexists _, _. split; [done|]. left. split_and!; [done|by exists D|done].
  - destruct (advance_transition_step t l D acc) as (acc1 & r1 & -> & H); [done|set_solver|]. cbn [mbind result_bind fst snd].
    destruct H as [(-> & (D1 & Hex1) & Hroom1)|(out & -> & Hout)]; [|eexists _, _; split; [done|]; right; eauto].
    destruct (IH D1 acc1) as (acc2 & r2 & -> & H2); [set_solver|done|]. eexists _, _. split; [done|].
    destruct H2 as [(-> & HD2 & Hroom2)|H2]; [left|by right]. split_and!; [done|done|]. unfold room in *. lia.
Qed.
End expand.

(** ** The loop *)

Lemma expanding_done L state D acc : expanding L state [] D acc -> search_inv L None D acc.
Proof.
  intros (Hinv & _). destruct Hinv. constructor; try done.
  - intros s t Hs Ht He HD. destruct (sv_expanded0 s t Hs Ht He HD) as [[Hp|(r & [= -> <-] & Hin)]|Hp];
      [by left; left|by apply not_elem_of_nil in Hin|by right].
  - intros s t Hs Ht HD. destruct (sv_recorded0 s t Hs Ht HD) as [[Hp|(r & [= -> <-] & Hin)]|Hp];
      [by left; left|by apply not_elem_of_nil in Hin|by right].
Qed.

Lemma pop_state L D acc state steps rest :
  search_inv L None D acc -> queue acc = (state, steps) :: rest ->
  let acc' := fun x => Accumulator (visited acc) rest (blocked acc) (impossible acc) x in
  length steps = D state /\ replay dumps c (sc_initial c) steps state /\
  (max_depth query <= length steps -> search_inv (length steps) None D (acc' true)) /\
  (length steps < max_depth query ->
     expanding (length steps) state (sc_transitions c) D (acc' (exhausted_depth acc))).
Proof.
  intros Hinv Hq' acc'. destruct (sv_queue _ _ _ _ Hinv state steps) as (Hs & Hlen & Hr & HL); [rewrite Hq'; left|].
  pose proof (sv_queue_nodup _ _ _ _ Hinv) as Hnd. pose proof (sv_sorted _ _ _ _ Hinv) as Hsort.
  rewrite Hq' in Hnd, Hsort. cbn [fmap list_fmap fst] in Hnd, Hsort. apply NoDup_cons in Hnd as [Hnot Hnd].
  apply StronglySorted_inv in Hsort as [Hsort Hle]. rewrite Forall_fmap, Forall_fmap, Forall_forall in Hle.
  assert (forall s, s ∈ queued acc <-> s = state \/ s ∈ rest.*1) as Hqueued.
  { intros s. rewrite Hq'. cbn [fmap list_fmap fst]. by rewrite elem_of_cons. }
  assert (forall cur x, (forall s t, s ∈ visited acc -> t ∈ sc_transitions c -> D s < max_depth query ->
      s = state -> pending cur (acc' x) s t) ->
    (x = false -> exhausted_depth acc = false /\ D state < max_depth query) ->
    search_inv (length steps) cur D (acc' x)) as Hgen.
  { intros cur x Hcur Hx. constructor; cbn [acc' visited queue]; try apply Hinv; try done.
    - intros s st Hin. destruct (sv_queue _ _ _ _ Hinv s st) as (? & ? & ? & _); [rewrite Hq'; by right|].
      split_and!; [done|done|done|]. rewrite Hlen. by apply (Hle (s, st)).
    - intros s Hv. pose proof (sv_depth _ _ _ _ Hinv s Hv). lia.
    - intros s Hv Hn. destruct (decide (s = state)) as [->|Hne]; [lia|].
      assert (D s <= L); [|lia]. apply (sv_popped _ _ _ _ Hinv); [done|]. rewrite Hqueued. tauto.
    - intros s t Hv Ht He HD. destruct (decide (s = state)) as [Heq|Hne]; [left; by apply Hcur|].
      destruct (sv_expanded _ _ _ _ Hinv s t Hv Ht He HD) as [[Hp|(r & [=] & _)]|Hp]; [|by right].
      left. left. cbn [acc' queue]. rewrite Hqueued in Hp. tauto.
    - intros s Hxf Hv Hn. destruct (Hx Hxf) as [Hex HD]. destruct (decide (s = state)) as [->|Hne]; [done|].
      apply (sv_exhausted _ _ _ _ Hinv); [done|done|]. rewrite Hqueued. tauto.
    - destruct (sv_blocked _ _ _ _ Hinv) as (? & ? & Hall). split_and!; [done|done|]. intros k b Hkb.
      destruct (Hall k b Hkb) as (? & s & t & (? & ? & ?) & ?). split; [done|]. exists s, t. split; [|done].
      split_and!; [done|lia|done].
    - destruct (sv_impossible _ _ _ _ Hinv) as (? & ? & Hall). split_and!; [done|done|]. intros id Hid.
      destruct (Hall id Hid) as (s & t & (? & ? & ?) & ?). exists s, t. split; [|done]. split_and!; [done|lia|done].
    - intros s t Hv Ht HD. destruct (decide (s = state)) as [Heq|Hne]; [left; by apply Hcur|].
      destruct (sv_recorded _ _ _ _ Hinv s t Hv Ht HD) as [[Hp|(r & [=] & _)]|Hp]; [|by right].
      left. left. cbn [acc' queue]. rewrite Hqueued in Hp. tauto. }
  split_and!; [done|done| |].
  - intros Hmax. apply Hgen; [|done]. intros s t _ _ HD ->. lia.
  - intros Hmax. split_and!; [|done|done|done]. apply Hgen; [|intros ?; split; [done|lia]].
    intros s t _ Ht _ ->. right. eauto.
Qed.

Definition finished (acc : SearchAccumulator) : Prop :=
  (exists L D, search_inv L None D acc) /\ queue acc = [] /\
  length (dict_keys (blocked acc)) + length (impossible acc) + 1 <= MAX_EXPLOIT_PATH_DIAGNOSTICS.

Lemma emptied_pending L D acc k s t :
  search_inv L None D acc -> queue acc = [] -> pending None acc s t -> k <= D s.
Proof. intros _ Hqu [Hin|(r & [=] & _)]. rewrite Hqu in Hin. by apply not_elem_of_nil in Hin. Qed.

(** With the queue empty, evidence beyond the diagnostics is that of the whole search. *)
Lemma emptied_exceeded L D acc :
  search_inv L None D acc -> queue acc = [] ->
  MAX_EXPLOIT_PATH_DIAGNOSTICS < length (dict_keys (blocked acc)) + length (impossible acc) + 1 -> bound_exceeded.
Proof.
  intros Hinv Hqu Hcap. right. split.
  - exists (dict_keys (blocked acc)), (impossible acc). split_and!; [apply (sv_blocked _ _ _ _ Hinv)|
      apply (sv_impossible _ _ _ _ Hinv)|done| |].
    + intros key Hk. apply (recorded_blocked_at _ _ _ _ _ _ Hinv Hk). lia.
    + intros id Hk. apply (recorded_impossible_at _ _ _ _ _ _ Hinv Hk). lia.
  - intros n s Hp Hgoal. apply (no_goal_below L None D acc n s (max_depth query)); try done.
    intros s0 t0 _ Hp0. by apply (emptied_pending L D acc _ s0 t0).
Qed.

(** A finished search met no bound. *)
Lemma finished_unbounded acc : finished acc -> ~ bound_exceeded.
Proof.
  intros ((L & D & Hinv) & Hqu & Hcap).
  assert (forall k s t, s ∈ visited acc -> pending None acc s t -> k <= D s) as Hpend.
  { intros k s t _ Hp. by apply (emptied_pending L D acc k s t). }
  intros [(k & Hk & Ho & _)|((lb & li & Hnb & Hni & Hlen & Hb & Hi) & _)].
  - by apply (no_overflow_below L None D acc k Hinv (Hpend k) Hk).
  - destruct (recorded_below L None D acc (max_depth query) Hinv (Hpend _) (le_n _)) as (_ & Hrb & Hri).
    assert (length lb <= length (dict_keys (blocked acc))) by (apply submseteq_length, NoDup_submseteq; auto).
    assert (length li <= length (impossible acc)) by (apply submseteq_length, NoDup_submseteq; auto). lia.
Qed.

Lemma run_bounded_search_run fuel : forall L D acc,
  search_inv L None D acc -> length (queue acc) + MAX_EXPLOIT_PATH_EXPLORED_STATES <= fuel + length (visited acc) ->
  exists acc' r, run_bounded_search dumps fuel c acc = Ok (acc', r) /\
    ((r = None /\ finished acc') \/ (exists out, r = Some out /\ found out)).
Proof.
  induction fuel as [|fuel IH]; intros L D acc Hinv Hfuel; cbn [run_bounded_search];
    (destruct (queue acc) as [|[state steps] rest] eqn:Hqu;
      [unfold diagnostic_cap_result; destruct (Nat.ltb _ _) eqn:Hcap;
        [destruct (unsupported_found "/diagnostics"
           "The bounded search produced more diagnostics than the evidence contract can carry.") as (r & -> & Hr);
           [fixed_diagnostic|by apply Nat.ltb_lt in Hcap; eapply emptied_exceeded; eauto|]; eexists _, _; split; [done|]; right; by eexists
        |apply Nat.ltb_ge in Hcap; eexists _, _; split; [done|]; left; split; [done|]; split_and!; [by exists L, D|done|done]]|]).
  - cbn [length] in Hfuel. pose proof (sv_count _ _ _ _ Hinv). lia.
  - destruct (pop_state L D acc state steps rest Hinv Hqu) as (Hlen & Hr & Hdeep & Hshallow).
    cbn [length] in Hfuel. cbn [visited queue blocked impossible exhausted_depth sc_query search_context].
    destruct (Nat.leb _ _) eqn:Hmax.
    + apply Nat.leb_le in Hmax. apply (IH (length steps) D); [by apply Hdeep|]. cbn [queue visited]. lia.
    + apply Nat.leb_gt in Hmax. unfold advance_from_state.
      destruct (advance_from_state_run (length steps) state steps Hmax eq_refl Hr (sc_transitions c) D
        (Accumulator (visited acc) rest (blocked acc) (impossible acc) (exhausted_depth acc)))
        as (acc1 & r1 & -> & H1); [done|by apply Hshallow|]. cbn [mbind result_bind fst snd].
      destruct H1 as [(-> & (D1 & Hex%expanding_done) & Hroom)|(out & -> & Hout)]; [|eexists _, _; split; [done|]; right; eauto].
      apply (IH (length steps) D1 acc1 Hex). unfold room in Hroom. cbn [visited queue] in Hroom. lia.
Qed.

Lemma search_start_inv : ~ sc_goal c ⊆ sc_initial c -> search_inv 0 None (fun _ => 0) (search_start c).
Proof.
  intros Hgoal. assert (forall s, s ∈ visited (search_start c) <-> s = sc_initial c) as Hv.
  { intros s. cbn [visited search_start]. apply list_elem_of_singleton. }
  assert (1 <= MAX_EXPLOIT_PATH_EXPLORED_STATES) as Hmax by (apply Nat.leb_le; vm_compute; reflexivity).
  constructor; cbn [search_start visited queue exhausted_depth]; try done.
  - apply NoDup_singleton.
  - split; [left|done].
  - intros s ->%list_elem_of_singleton. apply path_start.
  - by intros s ->%list_elem_of_singleton.
  - intros s steps [= -> ->]%list_elem_of_singleton. split_and!; [left|done|constructor|done].
  - apply NoDup_singleton.
  - repeat constructor.
  - intros s _. lia.
  - intros s t ->%list_elem_of_singleton _ _ _. left. left. left.
  - split_and!; [constructor|cbn; lia|by intros k b ?%not_elem_of_nil].
  - split_and!; [constructor|cbn; lia|by intros k ?%not_elem_of_nil].
  - intros s t ->%list_elem_of_singleton _ _. left. left. left.
Qed.
End bfs.

#[local] Opaque require_fields require_sorted_unique MAX_EXPLOIT_PATH_EXPLORED_STATES
  MAX_EXPLOIT_PATH_BLOCKED_TRANSITIONS MAX_EXPLOIT_PATH_IMPOSSIBLE_TRANSITIONS MAX_EXPLOIT_PATH_DIAGNOSTICS.

Lemma length_dict_of_list {K V} `{EqDecision K} (l : list (K * V)) :
  length (dict_items (dict_of_list l)) <= length l.
Proof.
  induction l as [|[k v] l IH] using rev_ind; [done|]. rewrite dict_of_list_snoc, length_app. cbn [length].
  assert (length (dict_items (<[k := v]> (dict_of_list l))) <= S (length (dict_items (dict_of_list l)))); [|lia].
  rewrite <-(length_fmap fst), <-(length_fmap fst (dict_items (dict_of_list l))).
  change (length (dict_keys (<[k := v]> (dict_of_list l))) <= S (length (dict_keys (dict_of_list l)))).
  rewrite dict_keys_set. case_decide; [lia|]. rewrite length_app. simpl. lia.
Qed.

Lemma length_dedupe_diagnostics l : length (dedupe_diagnostics l) <= length l.
Proof.
  unfold dedupe_diagnostics. rewrite sorted_by_perm. unfold dict_values. rewrite length_fmap.
  etrans; [apply length_dict_of_list|]. by rewrite length_fmap.
Qed.

Lemma mmap_ok {A B} (f : A -> result B) (P : B -> Prop) l :
  (forall x, x ∈ l -> exists y, f x = Ok y /\ P y) -> exists ys, mmap f l = Ok ys /\ Forall P ys /\ length ys = length l.
Proof.
  induction l as [|x l IH]; intros H; [by exists []|]. cbn [mmap]. destruct (H x) as (y & -> & Hy); [left|].
  destruct IH as (ys & -> & ? & Hl); [intros z Hz; apply H; by right|]. cbn [mbind result_bind].
  eexists. split; [done|]. split; [by constructor|]. simpl. by rewrite Hl.
Qed.

Section max_by_len.
Implicit Types (states : list (gset string)).

Lemma max_by_len_in states s : max_by_len states = Ok s -> s ∈ states.
Proof.
  destruct states as [|x states]; [done|]. cbn [max_by_len]. intros [= <-].
  assert (forall l b, foldl (fun best s => if Nat.ltb (size (best : gset string)) (size (s : gset string)) then s else best) b l = b \/
    foldl (fun best s => if Nat.ltb (size (best : gset string)) (size (s : gset string)) then s else best) b l ∈ l) as H.
  { induction l as [|y l IH]; intros b; [by left|]. cbn [foldl]. destruct (Nat.ltb _ _); [right|].
    - destruct (IH y) as [->|?]; [left|by right].
    - destruct (IH b) as [->|?]; [by left|right; by right]. }
  destruct (H states x) as [->|?]; [left|by right].
Qed.

Lemma max_by_len_total states : states <> [] -> exists s, max_by_len states = Ok s.
Proof. destruct states as [|x states]; [done|]. by eexists. Qed.
End max_by_len.

Section outcome.
Context (dumps : list string -> string) (set_order : list (gset string) -> list (gset string)).
Context (Horder : forall l, set_order l ≡ₚ l).
Context (g : NormalizedAttackGraph) (query : ExploitPathQuery).
Context (Hg : graph_ok g) (Hq : query_ok query).
Context (Hstart : forall f, f ∈ start_facts query -> f ∈ fact_id <$> state_facts g).
Abbreviation c := (search_context g query).

(** Some visited state lacks each of these facts of the goal. *)
Definition goal_left_ok (acc : SearchAccumulator) (unsatisfied : list string) : Prop :=
  unsatisfied <> [] /\ NoDup unsatisfied /\ py_sorted unsatisfied = unsatisfied /\
  forall f, f ∈ unsatisfied -> f ∈ goal_facts query /\ exists s, s ∈ visited acc /\ f ∉ s.

Lemma sorted_facts_canonical s : NoDup (sorted_facts s) /\ py_sorted (sorted_facts s) = sorted_facts s.
Proof.
  split; [apply NoDup_py_sorted, NoDup_elements|]. unfold sorted_facts. apply py_sorted_proper, py_sorted_perm.
Qed.

Lemma goal_left_run L D acc :
  search_inv dumps g query L None D acc -> queue acc = [] ->
  exists u, goal_left set_order (sc_goal c) (visited acc) = Ok u /\ goal_left_ok acc u.
Proof.
  intros Hinv Hqu. unfold goal_left.
  assert (forall s, s ∈ visited acc -> sorted_facts (sc_goal c ∖ s) <> [] /\
    forall f, f ∈ sorted_facts (sc_goal c ∖ s) -> f ∈ goal_facts query /\ exists s, s ∈ visited acc /\ f ∉ s) as Hone.
  { intros s Hs. split.
    - intros Hn%sorted_facts_nil%empty_difference_subseteq_L. by apply (sv_goal _ _ _ _ _ _ _ Hinv s).
    - intros f Hf. apply elem_of_sorted_facts, elem_of_difference in Hf as [Hf Hn]. apply elem_of_list_to_set in Hf.
      split; [done|]. by exists s. }
  destruct (sorted_facts (sc_goal c ∖ ⋃ visited acc)) as [|f l] eqn:E.
  - destruct (max_by_len_total (set_order (visited acc))) as [s Hs].
    { intros Hn. assert (visited acc = []) as Hv by (apply Permutation_nil; by rewrite <-Hn, Horder).
      destruct (sv_initial _ _ _ _ _ _ _ Hinv) as [Hi _]. rewrite Hv in Hi. by apply not_elem_of_nil in Hi. }
    rewrite Hs. cbn [mbind result_bind]. eexists. split; [done|]. apply max_by_len_in in Hs. rewrite Horder in Hs.
    destruct (Hone s Hs) as [? ?], (sorted_facts_canonical (sc_goal c ∖ s)). done.
  - eexists. split; [done|]. rewrite <-E. destruct (sorted_facts_canonical (sc_goal c ∖ ⋃ visited acc)).
    split_and!; [by rewrite E|done|done|]. intros f' Hf'. apply elem_of_sorted_facts, elem_of_difference in Hf' as [Hf' Hn].
    apply elem_of_list_to_set in Hf'. split; [done|]. exists (sc_initial c).
    destruct (sv_initial _ _ _ _ _ _ _ Hinv) as [Hi _]. split; [done|]. intros Hin. apply Hn, elem_of_union_list. eauto.
Qed.

Lemma transition_diagnostic_fits code id message :
  diagnostic_code_ok code && max_length 128 code = true -> nonempty message && max_length 512 message = true ->
  exploit_path_id id = true ->
  diagnostic_fits code ("/normalized_graph/transitions/" +:+ escape_pointer id) message.
Proof.
  intros Hc Hm Hid. pose proof (diagnostic_fits_id code "/normalized_graph/transitions/" id "" message) as H.
  assert (forall s, s +:+ "" = s) as Hnil by (intros s; apply chars_inj; rewrite chars_app; apply app_nil_r).
  rewrite Hnil in H. apply H; [done|vm_compute; reflexivity|done|done|done|apply Nat.leb_le; vm_compute; reflexivity|simpl; lia|].
  by apply exploit_path_id_length.
Qed.

Lemma allowed_transition_id t : t ∈ sc_transitions c -> exploit_path_id (transition_id t) = true.
Proof. intros Ht. apply (tok_id _). by apply (allowed_ok g query). Qed.

(** The evidence of a finished search. *)
Definition evidence_of (acc : SearchAccumulator) (unsatisfied : list string) : InvalidPathEvidence :=
  InvalidPath (length (visited acc)) (exhausted_depth acc) (sorted_by blocked_key (dict_values (blocked acc)))
    (py_sorted (impossible acc)) unsatisfied.

Lemma impossible_ids acc L D id :
  search_inv dumps g query L None D acc -> id ∈ impossible acc -> exploit_path_id id = true.
Proof.
  intros Hinv Hid. destruct (sv_impossible _ _ _ _ _ _ _ Hinv) as (_ & _ & Hall).
  destruct (Hall id Hid) as (s & t & Hs & Ht & _ & _ & ->). by apply allowed_transition_id.
Qed.

Lemma blocked_ids acc L D b :
  search_inv dumps g query L None D acc -> b ∈ dict_values (blocked acc) -> exploit_path_id (blocked_transition_id b) = true.
Proof.
  intros Hinv ([k b'] & -> & Hin)%list_elem_of_fmap. destruct (sv_blocked _ _ _ _ _ _ _ Hinv) as (_ & _ & Hall).
  destruct (Hall k b' Hin) as (_ & s & t & Hs & Ht & _ & ->). by apply allowed_transition_id.
Qed.

Lemma invalid_path_diagnostics_run acc L D :
  search_inv dumps g query L None D acc ->
  exists ds, invalid_path_diagnostics acc = Ok ds /\
    length ds = length (dict_keys (blocked acc)) + length (impossible acc) + 1.
Proof.
  intros Hinv. unfold invalid_path_diagnostics.
  destruct (mmap_ok (fun item => diagnostic MISSING_PREREQUISITE_CODE
    ("/normalized_graph/transitions/" +:+ escape_pointer (blocked_transition_id item))
    "A transition was blocked because at least one prerequisite was absent from the reached state.")
    (fun _ => True) (dict_values (blocked acc))) as (bs & -> & _ & Hb).
  { intros b Hb. eexists. split; [|done]. apply diagnostic_ok.
    apply transition_diagnostic_fits; [vm_compute; reflexivity..|]. by apply (blocked_ids acc L D). }
  cbn [mbind result_bind].
  destruct (mmap_ok (fun id => diagnostic IMPOSSIBLE_TRANSITION_CODE
    ("/normalized_graph/transitions/" +:+ escape_pointer id)
    "A transition could not advance the attack state under monotonic-additive semantics.")
    (fun _ => True) (py_sorted (impossible acc))) as (xs & -> & _ & Hi).
  { intros id Hid. rewrite elem_of_py_sorted in Hid. eexists. split; [|done]. apply diagnostic_ok.
    apply transition_diagnostic_fits; [vm_compute; reflexivity..|]. by apply (impossible_ids acc L D). }
  cbn [mbind result_bind]. rewrite diagnostic_ok.
  - cbn [mbind result_bind]. eexists. split; [done|]. rewrite !length_app, Hb, Hi, length_py_sorted.
    unfold dict_values, dict_keys. rewrite !length_fmap. simpl. lia.
  - split_and!; [vm_compute; reflexivity..|apply Nat.leb_le; vm_compute; reflexivity|vm_compute; reflexivity].
Qed.

Lemma evidence_ok acc L D u :
  search_inv dumps g query L None D acc -> goal_left_ok acc u -> validate_invalid_path (evidence_of acc u) = Ok (evidence_of acc u).
Proof.
  intros Hinv (Hne & Hnd & Hsort & Hgoal). unfold validate_invalid_path.
  destruct (sv_blocked _ _ _ _ _ _ _ Hinv) as (_ & Hbl & _). destruct (sv_impossible _ _ _ _ _ _ _ Hinv) as (Hind & Hil & _).
  rewrite (proj2 (require_fields_Ok _ tt)).
  - cbn [mbind result_bind evidence_of impossible_transitions unsatisfied_goal].
    rewrite <-Hsort, !require_sorted_unique_sorted by done. done.
  - rewrite !Forall_cons. cbn [snd evidence_of explored_state_count blocked_transitions impossible_transitions unsatisfied_goal].
    split_and!; [| | | |constructor].
    + rewrite andb_true_iff, !Nat.leb_le. split; [|apply Hinv]. destruct (sv_initial _ _ _ _ _ _ _ Hinv) as [Hi _].
      destruct (visited acc); [by apply not_elem_of_nil in Hi|simpl; lia].
    + apply Nat.leb_le. rewrite sorted_by_perm. unfold dict_values, dict_keys in *. by rewrite !length_fmap in *.
    + apply bounded_tuple_true. rewrite length_py_sorted. split; [lia|]. intros x Hx. rewrite elem_of_py_sorted in Hx.
      by apply (impossible_ids acc L D).
    + apply bounded_tuple_true. split.
      * split; [destruct u; [done|simpl; lia]|]. etrans; [|apply (qok_goal _ Hq)].
        apply submseteq_length, NoDup_submseteq; [done|]. intros f Hf. by apply Hgoal.
      * intros f Hf. destruct (qok_goal _ Hq) as (_ & _ & Hids). by apply Hids, Hgoal.
Qed.

(** What a search returns. *)
Inductive search_outcome : SearchResult -> Prop :=
| outcome_found r : found dumps g query r -> search_outcome r
| outcome_invalid acc u ds : finished dumps g query acc -> goal_left_ok acc u -> length ds <= MAX_EXPLOIT_PATH_DIAGNOSTICS ->
    search_outcome (Searched INVALID_PATH None (Some (evidence_of acc u)) None ds).

Lemma search_run : exists r, search dumps set_order g query = Ok r /\ search_outcome r.
Proof.
  unfold search, initial_goal_result. destruct (decide (sc_goal c ⊆ sc_initial c)) as [Hgoal|Hgoal].
  - cbn [sc_query search_context]. rewrite (witness_ok dumps g query Hg Hq Hstart 0) by (done || (simpl; lia) || apply path_start).
    cbn [mbind result_bind]. eexists. split; [done|]. apply outcome_found. constructor; [constructor|done|simpl; lia|intros n s _ _; simpl; lia|simpl; lia].
  - cbn [mbind result_bind].
    destruct (run_bounded_search_run dumps g query Hg Hq Hstart (S MAX_EXPLOIT_PATH_EXPLORED_STATES) 0 (fun _ => 0)
      (search_start c)) as (acc & r & -> & H); [by apply search_start_inv|cbn [search_start queue visited length]; lia|].
    cbn [mbind result_bind fst snd].
    destruct H as [(-> & Hfin)|(out & -> & Hout)]; [|eexists; split; [done|by constructor]].
    pose proof Hfin as ((L & D & Hinv) & Hqu & Hcap). unfold invalid_search_result.
    destruct (invalid_path_diagnostics_run acc L D Hinv) as (ds & -> & Hds). cbn [mbind result_bind].
    destruct (goal_left_run L D acc Hinv Hqu) as (u & -> & Hu). cbn [mbind result_bind].
    fold (evidence_of acc u). rewrite (evidence_ok acc L D u Hinv Hu). cbn [mbind result_bind].
    eexists. split; [done|]. apply outcome_invalid; [done|done|]. etrans; [apply length_dedupe_diagnostics|]. lia.
Qed.
End outcome.

(** ** Collected diagnostics *)

(** A check that returns fail-closed diagnostics, none exactly when [P]. *)
Definition diagnoses (r : result (list DiagnosticModel)) (P : Prop) : Prop :=
  exists ds, r = Ok ds /\ (ds = [] <-> P) /\ Forall (fun d => dm_code d ∈ FAIL_CLOSED_CODES) ds.

Lemma diagnoses_iff r P Q : (P <-> Q) -> diagnoses r P -> diagnoses r Q.
Proof. intros HPQ (ds & ? & ? & ?). exists ds. split_and!; [done|by rewrite <-HPQ|done]. Qed.

Lemma diagnoses_if bad code address message :
  diagnostic_fits code address message -> code ∈ FAIL_CLOSED_CODES ->
  diagnoses (diagnose_if bad (diagnostic code address message)) (bad = false).
Proof.
  intros Hd Hc. unfold diagnose_if. destruct bad.
  - rewrite diagnostic_ok by done. eexists. split; [done|]. split; [done|]. by constructor.
  - exists []. split; [done|]. split; [done|constructor].
Qed.

Lemma diagnoses_app r (k : list DiagnosticModel -> result (list DiagnosticModel)) s P Q :
  diagnoses r P -> diagnoses s Q -> (forall ds1, k ds1 = (ds2 ← s; Ok (ds1 ++ ds2))) -> diagnoses (r ≫= k) (P /\ Q).
Proof.
  intros (ds1 & -> & HP & Hc1) (ds2 & -> & HQ & Hc2) Hk. cbn [mbind result_bind]. rewrite Hk. cbn [mbind result_bind].
  eexists. split; [done|]. split; [by rewrite app_nil, HP, HQ|]. by apply Forall_app.
Qed.

Lemma diagnoses_collect {A} (f : A -> result (list DiagnosticModel)) (P : A -> Prop) l :
  (forall x, x ∈ l -> diagnoses (f x) (P x)) -> diagnoses (collect f l) (forall x, x ∈ l -> P x).
Proof.
  unfold collect. induction l as [|x l IH]; intros H.
  - exists []. split; [done|]. split; [|constructor]. split; [by intros _ ? ?%not_elem_of_nil|done].
  - cbn [mmap]. destruct (H x) as (ds & -> & Hx & Hc); [left|]. destruct IH as (ds' & Hl & Hds & Hc'); [intros y Hy; apply H; by right|].
    cbn [mbind result_bind]. apply bind_Ok in Hl as (dss & -> & [= <-]). cbn [mbind result_bind].
    eexists. split; [done|]. cbn [mjoin list_join]. split; [|by apply Forall_app]. rewrite app_nil, Hx, Hds. set_solver.
Qed.

(** ** Admissible requests *)

Record admissible (request : AnalysisInput) : Prop := {
  adm_bound t : t ∈ snd (graph_targets request) ->
    exists b, base.filter (fun b => binding_target b = t) (bindings (in_graph request)) = [b];
  adm_target b : b ∈ bindings (in_graph request) -> binding_target b ∈ snd (graph_targets request);
  adm_address b : b ∈ bindings (in_graph request) -> exists v, resolve_pointer (in_snapshot request) (binding_raes_address b) = Ok v;
  adm_requested s : s ∈ allowed_transition_semantics (in_query request) -> s = SUPPORTED_TRANSITION_SEMANTICS;
  adm_declared t : t ∈ transitions (in_graph request) -> transition_semantics t = SUPPORTED_TRANSITION_SEMANTICS;
  adm_facts f : f ∈ start_facts (in_query request) ++ goal_facts (in_query request) -> f ∈ fst (graph_targets request);
}.

Lemma append_fold_get {A K V} `{EqDecision K} (key : A -> K) (val : A -> V) l k :
  foldl (fun d a => dict_append (key a) (val a) d) (Dict []) l !! k =
    match val <$> base.filter (fun a => key a = k) l with [] => None | vs => Some vs end.
Proof.
  induction l as [|a l IH] using rev_ind; [done|]. rewrite foldl_app, filter_app, filter_cons. cbn [foldl].
  unfold dict_append at 1. rewrite dict_get_set. destruct (decide (key a = k)) as [Heq|Hne].
  - rewrite Heq, IH, fmap_app. by destruct (val <$> _).
  - by rewrite IH, filter_nil, app_nil_r.
Qed.

Lemma dict_of_list_incl {K V} `{EqDecision K} (l : list (K * V)) k v : (k, v) ∈ dict_items (dict_of_list l) -> (k, v) ∈ l.
Proof.
  induction l as [|[k' v'] l IH] using rev_ind; [by intros ?%not_elem_of_nil|]. rewrite dict_of_list_snoc.
  intros Hin%dict_get_Some; [|apply dict_wf_set, dict_wf_of_list]. rewrite dict_get_set in Hin. rewrite elem_of_app.
  case_decide as Hk; [right; rewrite list_elem_of_singleton; congruence|]. left. apply IH, dict_get_Some; [apply dict_wf_of_list|done].
Qed.

Section preflight.
Context (request : AnalysisInput) (Hg : graph_ok (in_graph request)) (Hq : query_ok (in_query request)).
Abbreviation targets := (snd (graph_targets request)).

Ltac fits_id := apply diagnostic_fits_id; [vm_compute; reflexivity|vm_compute; reflexivity|done|vm_compute; reflexivity
  |vm_compute; reflexivity|apply Nat.leb_le; vm_compute; reflexivity|apply Nat.leb_le; vm_compute; reflexivity
  |apply exploit_path_id_length].
Ltac fail_closed := by apply (bool_decide_unpack _); vm_compute.

Lemma string_app_nil (s : string) : s +:+ "" = s.
Proof. apply chars_inj. rewrite chars_app. apply app_nil_r. Qed.

Lemma fits_id_end code prefix s message :
  diagnostic_code_ok code && max_length 128 code = true ->
  json_pointer_ok prefix = true -> prefix <> "" -> nonempty message && max_length 512 message = true ->
  length (chars prefix) <= 1000 -> exploit_path_id s = true ->
  diagnostic_fits code (prefix +:+ escape_pointer s) message.
Proof.
  intros. rewrite <-(string_app_nil (escape_pointer s)). apply diagnostic_fits_id; try done; [simpl; lia|].
  by apply exploit_path_id_length.
Qed.

Ltac fits_end := apply fits_id_end; [vm_compute; reflexivity|vm_compute; reflexivity|done|vm_compute; reflexivity
  |apply Nat.leb_le; vm_compute; reflexivity|].

Lemma binding_diagnostics_run :
  diagnoses (binding_diagnostics request targets) (forall b, b ∈ bindings (in_graph request) ->
    binding_target b ∈ targets /\ exists v, resolve_pointer (in_snapshot request) (binding_raes_address b) = Ok v).
Proof.
  apply (diagnoses_collect _ (fun b => binding_target b ∈ targets /\
    exists v, resolve_pointer (in_snapshot request) (binding_raes_address b) = Ok v)). intros b Hb. pose proof (gok_binding _ Hg b Hb).
  eapply diagnoses_app; [| |intros ds1; reflexivity].
  - eapply diagnoses_iff; [|apply diagnoses_if; [fits_id|fail_closed]]; [|done]. rewrite bool_decide_eq_false.
    split; [apply dec_stable|auto].
  - eapply diagnoses_iff; [|apply diagnoses_if; [fits_id|fail_closed]]; [|done]. rewrite negb_false_iff.
    unfold pointer_resolves. destruct (resolve_pointer _ _); [split; [by eexists|done]|split; [done|by intros [? ?]]].
Qed.

Lemma target_ids t : t ∈ targets -> exploit_path_id (snd t) = true /\ (fst t = "state-fact" \/ fst t = "transition").
Proof.
  cbn [graph_targets snd]. intros [(f & -> & Hf)%list_elem_of_fmap|(x & -> & Hx)%list_elem_of_fmap]%elem_of_app.
  - split; [by apply (gok_fact_ids _ Hg)|by left].
  - split; [by apply (tok_id _), (gok_transition _ Hg)|by right].
Qed.

Lemma required_binding_diagnostics_run :
  diagnoses (required_binding_diagnostics targets (binding_targets request)) (forall t, t ∈ targets ->
    exists b, base.filter (fun b => binding_target b = t) (bindings (in_graph request)) = [b]).
Proof.
  unfold required_binding_diagnostics.
  eapply diagnoses_iff; [|apply (diagnoses_collect _ (fun t => exists b,
    base.filter (fun b => binding_target b = t) (bindings (in_graph request)) = [b]))].
  - split; intros H t Ht; apply H; by rewrite (sorted_by_perm (fun t => t)) in *.
  - intros t Ht. rewrite (sorted_by_perm (fun t => t)) in Ht. destruct (target_ids t Ht) as [Hid Hkind].
    unfold binding_targets. rewrite append_fold_get.
    destruct (base.filter (fun b => binding_target b = t) _) as [|b [|b' l]] eqn:E; cbn [fmap list_fmap default].
    + eapply diagnoses_iff; [|apply diagnoses_if; [|fail_closed]].
      * split; [done|by intros [? ?]].
      * destruct t as [k id]. cbn [fst snd] in *. destruct Hkind as [-> | ->];
          [change ("/normalized_graph/" +:+ "state-fact" +:+ "s/" +:+ escape_pointer id)
             with ("/normalized_graph/state-facts/" +:+ escape_pointer id)
          |change ("/normalized_graph/" +:+ "transition" +:+ "s/" +:+ escape_pointer id)
             with ("/normalized_graph/transitions/" +:+ escape_pointer id)]; by fits_end.
    + exists []. split; [done|]. split; [|constructor]. split; [by eexists|done].
    + eapply diagnoses_iff; [|apply diagnoses_if; [fits_end|fail_closed]].
      * split; [done|by intros [? ?]].
      * apply (gok_binding _ Hg). match type of E with ?l = _ => assert (b ∈ l) as Hb by (rewrite E; left) end.
        by apply list_elem_of_filter in Hb as [_ Hb].
Qed.

Lemma semantics_diagnostics_run :
  diagnoses (semantics_diagnostics (in_query request) (transitions (in_graph request)))
    ((forall s, s ∈ allowed_transition_semantics (in_query request) -> s = SUPPORTED_TRANSITION_SEMANTICS) /\
     (forall t, t ∈ transitions (in_graph request) -> transition_semantics t = SUPPORTED_TRANSITION_SEMANTICS)).
Proof.
  eapply diagnoses_app; [| |intros ds1; reflexivity].
  - eapply diagnoses_iff; [|apply diagnoses_if; [|fail_closed]].
    + rewrite <-not_true_iff_false, existsb_exists. split.
      * intros H s Hs. apply dec_stable. intros Hne. apply H. exists s. split; [by apply list_elem_of_In|by apply bool_decide_eq_true].
      * intros H (s & Hs%list_elem_of_In & Hb%bool_decide_eq_true). by apply Hb, H.
    + split_and!; [vm_compute; reflexivity..|apply Nat.leb_le; vm_compute; reflexivity|vm_compute; reflexivity].
  - apply (diagnoses_collect _ (fun t => transition_semantics t = SUPPORTED_TRANSITION_SEMANTICS)). intros t Ht.
    eapply diagnoses_iff; [|apply diagnoses_if; [fits_id|fail_closed]]; [apply bool_decide_not_false|].
    by apply (tok_id _), (gok_transition _ Hg).
Qed.

Lemma query_fact_diagnostics_run :
  diagnoses (query_fact_diagnostics (in_query request) (fst (graph_targets request)))
    (forall f, f ∈ start_facts (in_query request) ++ goal_facts (in_query request) -> f ∈ fst (graph_targets request)).
Proof.
  apply (diagnoses_collect _ (fun f => f ∈ fst (graph_targets request))). intros f Hf.
  eapply diagnoses_iff; [|apply diagnoses_if; [fits_end|fail_closed]].
  - rewrite bool_decide_eq_false. split; [apply dec_stable|auto].
  - destruct (qok_start _ Hq) as (_ & _ & Hs), (qok_goal _ Hq) as (_ & _ & Hgl). apply elem_of_app in Hf as [Hf|Hf]; auto.
Qed.

Lemma dedupe_diagnostics_incl ds d : d ∈ dedupe_diagnostics ds -> d ∈ ds.
Proof.
  unfold dedupe_diagnostics. rewrite sorted_by_perm. unfold dict_values. intros ([k d'] & -> & Hin)%list_elem_of_fmap.
  apply dict_of_list_incl, list_elem_of_fmap in Hin as (x & [= -> ->] & Hx). done.
Qed.

Lemma dedupe_diagnostics_nil ds : dedupe_diagnostics ds = [] <-> ds = [].
Proof.
  split; [|by intros ->]. destruct ds as [|d ds] using rev_ind; [done|]. intros H. exfalso. unfold dedupe_diagnostics in H.
  assert (d ∈ sorted_by diagnostic_key (dict_values (dict_of_list ((fun d => (diagnostic_key d, d)) <$> (ds ++ [d]))))) as Hd;
    [|rewrite H in Hd; by apply not_elem_of_nil in Hd].
  rewrite sorted_by_perm, fmap_app. cbn [fmap list_fmap]. rewrite dict_of_list_snoc. unfold dict_values.
  apply list_elem_of_fmap. exists (diagnostic_key d, d). split; [done|].
  apply dict_get_Some; [apply dict_wf_set, dict_wf_of_list|]. by rewrite dict_get_set, decide_True.
Qed.

Lemma preflight_run : diagnoses (preflight_diagnostics request) (admissible request).
Proof.
  destruct binding_diagnostics_run as (bs & Hbs & Hb & Hbc), required_binding_diagnostics_run as (rs & Hrs & Hr & Hrc),
    semantics_diagnostics_run as (ss & Hss & Hs & Hsc), query_fact_diagnostics_run as (fs & Hfs & Hf & Hfc).
  unfold preflight_diagnostics. rewrite Hbs, Hrs, Hss, Hfs. cbn [mbind result_bind]. eexists. split; [done|]. split.
  - rewrite dedupe_diagnostics_nil, !app_nil, Hb, Hr, Hs, Hf. split.
    + intros (H1 & H2 & [H3 H4] & H5). constructor; [done|by apply H1|by apply H1|done..].
    + intros []. split_and!; auto.
  - apply Forall_forall. intros d Hd%dedupe_diagnostics_incl. revert d Hd. by apply Forall_forall; rewrite !Forall_app.
Qed.
End preflight.
