(* ===== verification/ExploitSpec.v ===== *)
(** What the exploit-path analysis promises: it always returns evidence, a
    valid path is a shortest replayable one, an invalid outcome excludes every
    bounded path, and the preflight admits exactly the well-bound requests. *)
From S2P Require Import Prelude.
From S2P Require Import Contracts.
From S2P Require Import Sha256.
From S2P Require Import Diagnostics.
From S2P Require Import ExploitModel.
From S2P Require Import ExploitSearch.
From S2P Require Import ExploitAnalysis.
From S2P Require Import ExploitFacts.
From S2P Require Import ExploitOutcome.
From Stdlib Require Import Ascii.
Local Open Scope string_scope.
Local Open Scope list_scope.

Lemma py_sorted_dedupe_canonical l : NoDup (py_sorted (py_dedupe l)).
Proof. apply NoDup_py_sorted, NoDup_py_dedupe. Qed.

Lemma length_py_dedupe l : length (py_dedupe l) <= length l.
Proof.
  apply submseteq_length, NoDup_submseteq; [apply NoDup_py_dedupe|]. intros x. by rewrite elem_of_py_dedupe.
Qed.

Section analysis.
Context (dumps : list string -> string) (set_order : list (gset string) -> list (gset string)).
Context (Horder : forall l, set_order l ≡ₚ l).

(** Evidence whose reasons are the codes of its diagnostics validates. *)
Lemma unsupported_evidence_ok ds :
  ds <> [] -> length ds <= MAX_EXPLOIT_PATH_DIAGNOSTICS ->
  let u := UnsupportedPath (py_sorted (py_dedupe (dm_code <$> ds))) in
  let e := Searched UNSUPPORTED None None (Some u) (sorted_by diagnostic_key ds) in
  validate_unsupported u = Ok u /\ validate_evidence e = Ok e.
Proof.
  intros Hne Hlen u e. split.
  - unfold validate_unsupported, u. cbn [reason_codes]. rewrite (proj2 (require_fields_Ok _ tt)).
    + cbn [mbind result_bind]. by rewrite require_sorted_unique_sorted by apply NoDup_py_dedupe.
    + repeat constructor. cbn [snd]. apply bounded_tuple_true. rewrite length_py_sorted. split; [|done]. split.
      * destruct (py_dedupe (dm_code <$> ds)) as [|x l] eqn:E; [|simpl; lia]. destruct ds as [|d ds]; [done|].
        assert (dm_code d ∈ py_dedupe (dm_code <$> d :: ds)) as Hin by (apply elem_of_py_dedupe; left).
        rewrite E in Hin. by apply not_elem_of_nil in Hin.
      * etrans; [apply length_py_dedupe|]. by rewrite length_fmap.
  - unfold validate_evidence, e. rewrite (proj2 (require_fields_Ok _ tt)).
    + cbn [mbind result_bind]. unfold validate_unsupported_reasons. cbn [sr_unsupported sr_diagnostics u reason_codes].
      rewrite bool_decide_false; [done|]. intros H. apply H. apply py_sorted_proper.
      apply NoDup_Permutation; [apply NoDup_py_dedupe..|]. intros x. rewrite !elem_of_py_dedupe.
      by rewrite (sorted_by_perm diagnostic_key).
    + repeat constructor. cbn [snd sr_diagnostics]. rewrite sorted_by_perm. by apply Nat.leb_le.
Qed.

Lemma search_evidence_ok g query e : search_outcome dumps g query e -> validate_evidence e = Ok e.
Proof.
  intros H. unfold validate_evidence. assert (length (sr_diagnostics e) <= MAX_EXPLOIT_PATH_DIAGNOSTICS) as Hlen.
  { destruct H as [r []|]; [simpl; lia|by apply Nat.leb_le; vm_compute|done]. }
  rewrite (proj2 (require_fields_Ok _ tt)) by (repeat constructor; cbn [snd]; by apply Nat.leb_le).
  cbn [mbind result_bind]. destruct H as [r []|]; [done|vm_compute; done|done].
Qed.

(** What an analysis returns. *)
Inductive analysis_outcome (request : AnalysisInput) : SearchResult -> Prop :=
| analysis_refused u ds : ~ admissible request -> ds <> [] -> length ds <= MAX_EXPLOIT_PATH_DIAGNOSTICS ->
    Forall (fun d => dm_code d ∈ FAIL_CLOSED_CODES) ds ->
    analysis_outcome request (Searched UNSUPPORTED None None (Some u) ds)
| analysis_searched e : admissible request -> search_outcome dumps (in_graph request) (in_query request) e ->
    analysis_outcome request e.

Section request.
Context (request : AnalysisInput).
Context (Hg : validate_graph (in_graph request) = Ok (in_graph request)).
Context (Hq : validate_query (in_query request) = Ok (in_query request)).

Lemma admissible_start f : admissible request -> f ∈ start_facts (in_query request) ->
  f ∈ fact_id <$> state_facts (in_graph request).
Proof. intros Ha Hf. apply (adm_facts _ Ha). apply elem_of_app. by left. Qed.

Lemma bounded_fail_closed_run ds :
  ds <> [] -> Forall (fun d => dm_code d ∈ FAIL_CLOSED_CODES) ds ->
  exists ds', bounded_fail_closed_diagnostics ds = Ok ds' /\ ds' <> [] /\ length ds' <= MAX_EXPLOIT_PATH_DIAGNOSTICS /\
    Forall (fun d => dm_code d ∈ FAIL_CLOSED_CODES) ds'.
Proof.
  intros Hne Hc. unfold bounded_fail_closed_diagnostics. destruct (Nat.leb _ _) eqn:Hle.
  - apply Nat.leb_le in Hle. eexists. split; [done|]. split_and!; [by rewrite dedupe_diagnostics_nil|done|].
    apply Forall_forall. intros d Hd%dedupe_diagnostics_incl. by apply (proj1 (Forall_forall _ _) Hc).
  - rewrite diagnostic_ok by (split_and!; [vm_compute; reflexivity..|apply Nat.leb_le; vm_compute; reflexivity|vm_compute; reflexivity]).
    cbn [mbind result_bind]. eexists. split; [done|]. split_and!; [done|by apply Nat.leb_le; vm_compute|].
    constructor; [|constructor]. by apply (bool_decide_unpack _); vm_compute.
Qed.

Lemma analysis_run : exists e, analyze_exploit_path_input dumps set_order request = Ok e /\ analysis_outcome request e.
Proof.
  pose proof (validate_graph_ok _ _ Hg) as Hg'. pose proof (validate_query_ok _ _ Hq) as Hq'.
  destruct (preflight_run request Hg' Hq') as (ds & Hds & Hnil & Hc). unfold analyze_exploit_path_input. rewrite Hds.
  cbn [mbind result_bind]. assert (base.filter (fun d => dm_code d ∈ FAIL_CLOSED_CODES) ds = ds) as ->.
  { clear -Hc. induction Hc as [|d ds Hd _ IH]; [done|]. by rewrite filter_cons, decide_True, IH. }
  destruct ds as [|d ds].
  - change (bounded_fail_closed_diagnostics []) with (Ok (@nil DiagnosticModel)). cbn [mbind result_bind].
    assert (admissible request) as Ha by by apply Hnil.
    destruct (search_run dumps set_order Horder (in_graph request) (in_query request) Hg' Hq') as (e & -> & He).
    { intros f. by apply admissible_start. }
    cbn [mbind result_bind]. rewrite (search_evidence_ok _ _ e He). eexists. split; [done|]. by apply analysis_searched.
  - destruct (bounded_fail_closed_run (d :: ds)) as (ds' & -> & Hne & Hlen & Hc'); [done..|]. cbn [mbind result_bind].
    destruct (unsupported_evidence_ok ds' Hne Hlen) as [Hu He]. destruct ds' as [|d' ds']; [done|]. rewrite Hu. cbn [mbind result_bind].
    rewrite He. eexists. split; [done|]. apply analysis_refused; [by intros ?%Hnil| | |].
    + intros Hn. apply Hne. apply Permutation_nil. by rewrite <-Hn, sorted_by_perm.
    + by rewrite sorted_by_perm.
    + by rewrite sorted_by_perm.
Qed.
End request.
End analysis.

(** ** Paths a finished search excludes *)

Section finished.
Context (dumps : list string -> string) (g : NormalizedAttackGraph) (query : ExploitPathQuery).
Abbreviation c := (search_context g query).

Lemma finished_bounded acc n s :
  finished dumps g query acc -> path c n s -> sc_goal c ⊆ s -> max_depth query < n.
Proof.
  intros ((L & D & Hinv) & Hqu & _) Hp Hgoal. apply (no_goal_below dumps g query L None D acc n s); try done.
  intros s' t _ [Hin|(r & [=] & _)]. rewrite Hqu in Hin. by apply not_elem_of_nil in Hin.
Qed.

Lemma finished_exhaustive acc n s :
  finished dumps g query acc -> exhausted_depth acc = false -> path c n s -> s ∈ visited acc /\ ~ sc_goal c ⊆ s.
Proof.
  intros ((L & D & Hinv) & Hqu & _) Hex Hp. assert (s ∈ visited acc) as Hs.
  { induction Hp as [|n s t _ IH Ht He]; [apply Hinv|].
    destruct (sv_expanded _ _ _ _ _ _ _ Hinv s t IH Ht He) as [[Hin|(r & [=] & _)]|[Hv _]]; [| |done].
    - apply (sv_exhausted _ _ _ _ _ _ _ Hinv s Hex IH). rewrite Hqu. apply not_elem_of_nil.
    - rewrite Hqu in Hin. by apply not_elem_of_nil in Hin. }
  split; [done|]. by apply (sv_goal _ _ _ _ _ _ _ Hinv).
Qed.

(** The recorded evidence is about states a path reaches. *)
Lemma finished_evidence acc u :
  finished dumps g query acc ->
  (forall b, b ∈ blocked_transitions (evidence_of acc u) -> exists n s t, path c n s /\ t ∈ sc_transitions c /\
     ~ enabled t s /\ b = blocked_of dumps t s) /\
  (forall id, id ∈ impossible_transitions (evidence_of acc u) -> exists n s t, path c n s /\ t ∈ sc_transitions c /\
     enabled t s /\ list_to_set (effects t) ⊆ s /\ id = transition_id t).
Proof.
  intros ((L & D & Hinv) & _ & _). split.
  - intros b. cbn [evidence_of blocked_transitions]. rewrite (sorted_by_perm blocked_key). unfold dict_values.
    intros ([k b'] & -> & Hin)%list_elem_of_fmap. destruct (sv_blocked _ _ _ _ _ _ _ Hinv) as (_ & _ & Hall).
    destruct (Hall k b' Hin) as (_ & s & t & (Hs & _) & ? & ? & ?). exists (D s), s, t. split; [by apply (sv_path _ _ _ _ _ _ _ Hinv)|done].
  - intros id. cbn [evidence_of impossible_transitions]. rewrite elem_of_py_sorted. intros Hin.
    destruct (sv_impossible _ _ _ _ _ _ _ Hinv) as (_ & _ & Hall).
    destruct (Hall id Hin) as (s & t & (Hs & _) & ? & ? & ? & ?). exists (D s), s, t.
    split; [by apply (sv_path _ _ _ _ _ _ _ Hinv)|done].
Qed.

Lemma finished_goal_left acc u :
  finished dumps g query acc -> goal_left_ok query acc u ->
  u <> [] /\ forall f, f ∈ u -> f ∈ goal_facts query /\ exists n s, path c n s /\ f ∉ s.
Proof.
  intros ((L & D & Hinv) & _ & _) (Hne & _ & _ & Hall). split; [done|]. intros f Hf.
  destruct (Hall f Hf) as (? & s & Hs & ?). split; [done|]. exists (D s), s. split; [by apply (sv_path _ _ _ _ _ _ _ Hinv)|done].
Qed.
End finished.

(** ** A request used by the witnesses *)

Module Sample.
Definition fact (id : string) : AttackStateFact := StateFact id fact_access "participant" "/nodes".
Definition step (id from to : string) : AttackTransition :=
  Transition id exploit_step SUPPORTED_TRANSITION_SEMANTICS [from] [to] [].
Definition bound (kind : target_kind) (id : string) : AttackGraphBinding := Binding ("bind-" +:+ id) "node" "" kind id.

Definition snapshot : json := JObject [("nodes", JList [JString "web"])].

Definition graph : NormalizedAttackGraph :=
  AttackGraph ("sha256:" +:+ sha256_hex "") [fact "a"; fact "b"; fact "c"] [step "to-b" "a" "b"; step "to-c" "a" "c"]
    [bound target_state_fact "a"; bound target_state_fact "b"; bound target_state_fact "c";
     bound target_transition "to-b"; bound target_transition "to-c"].

(** From "a" to the goal, in one step. *)
Definition request (goal : list string) : AnalysisInput :=
  AnalyzePath snapshot graph (PathQuery "query" "attacker" ["a"] goal [SUPPORTED_TRANSITION_SEMANTICS] 1).

Lemma graph_valid : validate_graph graph = Ok graph.
Proof. vm_compute. reflexivity. Qed.

Lemma query_valid : validate_query (in_query (request ["c"])) = Ok (in_query (request ["c"])) /\
  validate_query (in_query (request ["b"; "c"])) = Ok (in_query (request ["b"; "c"])).
Proof. split; vm_compute; reflexivity. Qed.

Abbreviation analyze order goal := (analyze_exploit_path_input json_strings order (request goal)).

Lemma reaches_c : exists e, analyze (fun l => l) ["c"] = Ok e /\ sr_outcome e = VALID_PATH.
Proof. eexists. split; vm_compute; reflexivity. Qed.

Lemma misses_both : exists e, analyze (fun l => l) ["b"; "c"] = Ok e /\ sr_outcome e = INVALID_PATH.
Proof. eexists. split; vm_compute; reflexivity. Qed.
End Sample.

(** ** Pointers *)

(** Members of nested objects, outermost first. *)
Fixpoint member_path (payload : json) (keys : list string) : result json :=
  match keys with
  | [] => Ok payload
  | k :: keys =>
      match payload with
      | JObject members => v ← dict_index (Dict members) k; member_path v keys
      | _ => Raise (TypeError "not an object")
      end
  end.

Definition pointer_of (keys : list string) : string := String.concat "" ((fun k => "/" +:+ escape_pointer k) <$> keys).

Lemma pointer_of_cons k keys :
  chars (pointer_of (k :: keys)) = "/"%char :: (flat_map escape_char (chars k) ++ chars (pointer_of keys)).
Proof.
  unfold pointer_of. cbn [fmap list_fmap]. destruct ((fun k => "/" +:+ escape_pointer k) <$> keys) as [|x l].
  - change (String.concat "" ["/" +:+ escape_pointer k]) with ("/" +:+ escape_pointer k).
    rewrite chars_app, chars_escape_pointer. change (chars (String.concat "" [])) with (@nil ascii). by rewrite app_nil_r.
  - change (String.concat "" (("/" +:+ escape_pointer k) :: x :: l))
      with (("/" +:+ escape_pointer k) +:+ String.concat "" (x :: l)).
    by rewrite !chars_app, chars_escape_pointer.
Qed.

Lemma pointer_tokens keys : forall pre, "/"%char ∉ pre ->
  split_on "/"%char (pre ++ chars (pointer_of keys)) = pre :: ((fun k => flat_map escape_char (chars k)) <$> keys).
Proof.
  induction keys as [|k keys IH]; intros pre Hpre.
  - rewrite app_nil_r. by apply split_on_last.
  - rewrite pointer_of_cons, split_on_app, IH by (done || apply escape_no_slash). done.
Qed.

Lemma descend_key members k : descend (JObject members) (flat_map escape_char (chars k)) = dict_index (Dict members) k.
Proof.
  unfold descend. rewrite unescape_escape. f_equal. apply String.string_of_list_ascii_of_string.
Qed.

Lemma resolve_member_path keys : forall payload v,
  member_path payload keys = v -> (forall message, v <> Raise (TypeError message)) ->
  mfold descend payload ((fun k => flat_map escape_char (chars k)) <$> keys) = v.
Proof.
  induction keys as [|k keys IH]; intros payload v; cbn [member_path fmap list_fmap mfold]; [done|].
  destruct payload as [| | | | | |members]; try (intros <- H; by destruct (H "not an object")).
  rewrite descend_key. destruct (dict_index (Dict members) k) as [x|err]; cbn [mbind result_bind]; [apply IH|done].
Qed.

(** Escaping then resolving a pointer is the identity on member paths:
    the pointer whose tokens are the escaped names of a path, tildes and
    slashes included, resolves to exactly the member the path names, and is
    refused with the missing name when there is none. *)
Theorem pointer_round_trip payload keys :
  (forall v, member_path payload keys = Ok v -> resolve_pointer payload (pointer_of keys) = Ok v) /\
  (forall k, member_path payload keys = Raise (KeyError k) -> resolve_pointer payload (pointer_of keys) = Raise (KeyError k)).
Proof.
  assert (forall r, member_path payload keys = r -> (forall message, r <> Raise (TypeError message)) ->
    resolve_pointer payload (pointer_of keys) = r) as H; [|by split; intros ? ?%H].
  intros r Hr Hty. unfold resolve_pointer. destruct keys as [|k keys]; [done|].
  pose proof (pointer_tokens (k :: keys) [] (not_elem_of_nil _)) as Ht. cbn [app] in Ht. rewrite Ht. cbn [tail].
  case_bool_decide as He; [|by apply resolve_member_path]. by rewrite He in Ht.
Qed.

(** List items are addressed by Python integers, so spellings outside the
    pointer grammar of array indices resolve as well. *)
Example pointer_negative_index :
  resolve_pointer (JList [JBool true; JBool false]) "/-1" = Ok (JBool false) /\
  resolve_pointer (JList [JBool true; JBool false]) "/+0_1" = Ok (JBool false).
Proof. by split; vm_compute. Qed.

(** ** Properties *)

Section properties.
Context (dumps : list string -> string) (set_order : list (gset string) -> list (gset string)).
Context (request : AnalysisInput).
Abbreviation g := (in_graph request).
Abbreviation query := (in_query request).
Abbreviation c := (search_context g query).
Abbreviation goal := (list_to_set (goal_facts query) : gset string).

(** C9: A VALID_PATH outcome carries a witness that replays: its steps are
    allowed transitions whose prerequisites hold in the state they start
    from, they lead from the start facts to a final state that satisfies the
    goal within the depth of the query, and no path of the attack graph
    reaches the goal in fewer transitions. *)
Theorem valid_path_shortest e :
  (forall l, set_order l ≡ₚ l) -> validate_graph g = Ok g -> validate_query query = Ok query ->
  analyze_exploit_path_input dumps set_order request = Ok e -> sr_outcome e = VALID_PATH ->
  exists w s, sr_witness e = Some w /\ replay dumps c (sc_initial c) (witness_steps w) s /\ goal ⊆ s /\
    final_state w = sorted_facts s /\ length (witness_steps w) <= max_depth query /\
    forall n s', path c n s' -> goal ⊆ s' -> length (witness_steps w) <= n.
Proof.
  intros Horder Hg Hq He Ho. destruct (analysis_run dumps set_order Horder request Hg Hq) as (e' & He' & Hout).
  rewrite He in He'. injection He' as <-. destruct Hout as [| e _ [r [steps s Hr Hgoal Hlen Hmin|]|]]; try done.
  exists (witness_of dumps c steps s), s. done.
Qed.

(** C10: An INVALID_PATH outcome excludes every bounded attack: no path of at
    most [max_depth] transitions reaches the goal, and none of any length when
    the search did not exhaust its depth. Its evidence is about reached
    states: the blocked transitions lack exactly the prerequisites listed, the
    impossible ones add nothing, and each unsatisfied goal fact is missing
    from a reached state. *)
Theorem invalid_path_exhaustive e :
  (forall l, set_order l ≡ₚ l) -> validate_graph g = Ok g -> validate_query query = Ok query ->
  analyze_exploit_path_input dumps set_order request = Ok e -> sr_outcome e = INVALID_PATH ->
  exists f, sr_failure e = Some f /\
    (forall n s, path c n s -> goal ⊆ s -> max_depth query < n) /\
    (evidence_exhausted_depth f = false -> forall n s, path c n s -> ~ goal ⊆ s) /\
    (forall b, b ∈ blocked_transitions f -> exists n s t, path c n s /\ t ∈ sc_transitions c /\
       ~ enabled t s /\ b = blocked_of dumps t s) /\
    (forall id, id ∈ impossible_transitions f -> exists n s t, path c n s /\ t ∈ sc_transitions c /\
       enabled t s /\ list_to_set (effects t) ⊆ s /\ id = transition_id t) /\
    unsatisfied_goal f <> [] /\
    (forall x, x ∈ unsatisfied_goal f -> x ∈ goal_facts query /\ exists n s, path c n s /\ x ∉ s).
Proof.
  intros Horder Hg Hq He Ho. destruct (analysis_run dumps set_order Horder request Hg Hq) as (e' & He' & Hout).
  rewrite He in He'. injection He' as <-. destruct Hout as [| e _ [r []|acc u ds Hfin Hu _]]; try done.
  exists (evidence_of acc u). split; [done|]. destruct (finished_evidence dumps g query acc u Hfin) as [Hb Hi].
  split_and!; [| |done|done|apply (finished_goal_left dumps g query acc u Hfin Hu)..].
  - intros n s. by apply (finished_bounded dumps g query acc n s).
  - intros Hex n s Hp. by apply (finished_exhaustive dumps g query acc n s).
Qed.

(** C11: On every valid request the analysis returns evidence, never an error:
    exactly one payload, matching the outcome, and at most 64 diagnostics. A
    request the preflight refuses is UNSUPPORTED. An admitted one is UNSUPPORTED,
    with the bound code as its only diagnostic, only when a bound is really
    exceeded ([bound_exceeded]): within some depth at which the goal is not yet
    reached, the graph has more than 4096 states, 256 distinct blocked transitions
    or 512 ineffective transitions, or the goal is out of reach and the evidence is
    more than 64 diagnostics. When the goal is out of reach within the depth of the
    query, the outcome is UNSUPPORTED exactly when the preflight refuses or a bound
    is exceeded, and INVALID_PATH exactly otherwise; and it is VALID_PATH only when
    the levels before the last step of the witness exceed no bound. *)
Theorem analysis_returns :
  (forall l, set_order l ≡ₚ l) -> validate_graph g = Ok g -> validate_query query = Ok query ->
  exists e, analyze_exploit_path_input dumps set_order request = Ok e /\
    length (sr_diagnostics e) <= MAX_EXPLOIT_PATH_DIAGNOSTICS /\
    (sr_outcome e = INVALID_PATH <-> admissible request /\ ~ bound_exceeded dumps g query /\ out_of_reach g query) /\
    (out_of_reach g query -> (sr_outcome e = UNSUPPORTED <-> ~ admissible request \/ bound_exceeded dumps g query)) /\
    match sr_outcome e with
    | VALID_PATH => admissible request /\ sr_failure e = None /\ sr_unsupported e = None /\
        exists w, sr_witness e = Some w /\ forall k, k < length (witness_steps w) -> ~ overflows dumps g query k
    | INVALID_PATH => sr_witness e = None /\ is_Some (sr_failure e) /\ sr_unsupported e = None
    | UNSUPPORTED => sr_witness e = None /\ sr_failure e = None /\ is_Some (sr_unsupported e) /\
        (admissible request -> dm_code <$> sr_diagnostics e = [BOUND_EXCEEDED_CODE] /\ bound_exceeded dumps g query)
    end.
Proof.
  intros Horder Hg Hq. destruct (analysis_run dumps set_order Horder request Hg Hq) as (e & He & Hout).
  exists e. split; [done|].
  destruct Hout as [u ds Hna Hne Hlen Hc|e Ha [r [steps s Hr Hs Hlen Hdist Hover|address message Hfits Hex]|acc u ds Hfin Hu Hds]];
    cbn [sr_outcome sr_witness sr_failure sr_unsupported sr_diagnostics unsupported_at].
  - split; [done|]. split; [by split; [|tauto]|]. split; [by split; [left|]|]. by split_and!.
  - assert (~ out_of_reach g query) as Hreach.
    { intros Hno. specialize (Hno _ _ (replay_path dumps g query s steps Hr) Hs). lia. }
    split; [simpl; lia|]. split; [by split; [|tauto]|]. split; [done|]. split_and!; [done..|].
    by exists (witness_of dumps c steps s).
  - split; [by apply Nat.leb_le; vm_compute|]. split; [by split; [|tauto]|]. split; [by split; [right|]|]. by split_and!.
  - assert (~ bound_exceeded dumps g query) as Hb by by apply (finished_unbounded dumps g query acc).
    split; [done|]. split; [|split; [intros _; split; [done|tauto]|by split_and!]]. split; [|done]. intros _.
    split; [done|]. split; [done|]. intros n s. by apply (finished_bounded dumps g query acc n s).
Qed.

End properties.

Lemma reverse_order {A} (l : list A) : rev l ≡ₚ l.
Proof. symmetry. apply Permutation_rev. Qed.

(** The evidence of an unreachable goal depends on the order in which a
    Python set is iterated, which differs between processes: on one admitted
    request two orders of the same visited states report different unsatisfied
    goal facts. *)
Theorem unsatisfied_goal_depends_on_order :
  exists e1 e2 f1 f2,
    analyze_exploit_path_input json_strings (fun l => l) (Sample.request ["b"; "c"]) = Ok e1 /\
    analyze_exploit_path_input json_strings (fun l => rev l) (Sample.request ["b"; "c"]) = Ok e2 /\
    (forall l : list (gset string), rev l ≡ₚ l) /\
    sr_failure e1 = Some f1 /\ sr_failure e2 = Some f2 /\ unsatisfied_goal f1 = ["c"] /\ unsatisfied_goal f2 <> ["c"].
Proof.
  eexists _, _, _, _. split; [vm_compute; reflexivity|]. split; [vm_compute; reflexivity|].
  split; [intros l; apply reverse_order|]. split; [reflexivity|]. split; [reflexivity|]. split; [reflexivity|done].
Qed.

(** ** Witnesses *)

Lemma valid_path_shortest_witness :
  exists e w s, analyze_exploit_path_input json_strings (fun l => l) (Sample.request ["c"]) = Ok e /\
    replay json_strings (search_context Sample.graph (in_query (Sample.request ["c"])))
      (sc_initial (search_context Sample.graph (in_query (Sample.request ["c"])))) (witness_steps w) s.
Proof.
  destruct Sample.reaches_c as (e & He & Ho). exists e.
  destruct (valid_path_shortest json_strings (fun l => l) (Sample.request ["c"]) e) as (w & s & _ & Hr & _);
    [done|apply Sample.graph_valid|apply Sample.query_valid|exact He|exact Ho|].
  exists w, s. split; [exact He|exact Hr].
Defined.

Lemma invalid_path_exhaustive_witness :
  exists e f, analyze_exploit_path_input json_strings (fun l => l) (Sample.request ["b"; "c"]) = Ok e /\
    sr_failure e = Some f /\ unsatisfied_goal f <> [].
Proof.
  destruct Sample.misses_both as (e & He & Ho). exists e.
  destruct (invalid_path_exhaustive json_strings (fun l => l) (Sample.request ["b"; "c"]) e)
    as (f & Hf & _ & _ & _ & _ & Hu & _);
    [done|apply Sample.graph_valid|apply Sample.query_valid|exact He|exact Ho|].
  exists f. split; [exact He|]. split; [exact Hf|exact Hu].
Defined.

Lemma analysis_returns_witness :
  exists e, analyze_exploit_path_input json_strings (fun l => l) (Sample.request ["c"]) = Ok e /\
    length (sr_diagnostics e) <= MAX_EXPLOIT_PATH_DIAGNOSTICS.
Proof.
  destruct (analysis_returns json_strings (fun l => l) (Sample.request ["c"])) as (e & He & Hd & _);
    [done|apply Sample.graph_valid|apply Sample.query_valid|]. exists e. split; [exact He|exact Hd].
Defined.

