(* ===== verification/TimeModel.v ===== *)
(** Shared-time contracts ([raes_contracts/contracts/time_model.py]): the
    portable declaration with its reference checks, the observable clock state
    with its append-only history, and the checks that bind a state to a
    declaration and to its predecessor. [validate_X] is the field constraints
    of the model, then its validator. The constructors take instances, which
    pydantic does not validate again, so a model checks its own fields only. *)
From S2P Require Import Prelude.
From S2P Require Import Contracts.
From S2P Require Import Addressing.
From S2P Require Import Sha256.
From Stdlib Require Import Ascii.
Local Open Scope string_scope.
Local Open Scope list_scope.
Local Open Scope Z_scope.

(** ** Closed vocabularies *)

Inductive TimeDomainKind : Type := wall_clock | monotonic | simulated | logical | domain_external.
#[export] Instance TimeDomainKind_eq_dec : EqDecision TimeDomainKind.
Proof. solve_decision. Defined.
Inductive TimeDomainVisibility : Type := runtime_only | participant_visible | evidence_only.
#[export] Instance TimeDomainVisibility_eq_dec : EqDecision TimeDomainVisibility.
Proof. solve_decision. Defined.
Inductive TimeEpochKind : Type := epoch_unix | scenario_start | run_start | unanchored | epoch_external.
#[export] Instance TimeEpochKind_eq_dec : EqDecision TimeEpochKind.
Proof. solve_decision. Defined.
Inductive ClockAuthorityKind : Type := authority_runtime | authority_backend | authority_system | authority_external.
#[export] Instance ClockAuthorityKind_eq_dec : EqDecision ClockAuthorityKind.
Proof. solve_decision. Defined.
Inductive ClockMonotonicity : Type := strict | non_decreasing | may_jump.
#[export] Instance ClockMonotonicity_eq_dec : EqDecision ClockMonotonicity.
Proof. solve_decision. Defined.
Inductive TimeMappingKind : Type := identity_mapping | affine_rational.
#[export] Instance TimeMappingKind_eq_dec : EqDecision TimeMappingKind.
Proof. solve_decision. Defined.
Inductive TimeAdvancementMode : Type := real_time | dilated | stepped | event_driven | externally_paced.
#[export] Instance TimeAdvancementMode_eq_dec : EqDecision TimeAdvancementMode.
Proof. solve_decision. Defined.
Inductive TimeSynchronizationMode : Type := sync_none | sync_authority | sync_barrier | sync_conservative.
#[export] Instance TimeSynchronizationMode_eq_dec : EqDecision TimeSynchronizationMode.
Proof. solve_decision. Defined.
Inductive TimeResetBehavior : Type := reset_unsupported | new_segment_zero | new_segment_preserve_value.
#[export] Instance TimeResetBehavior_eq_dec : EqDecision TimeResetBehavior.
Proof. solve_decision. Defined.
Inductive TimeReplayBehavior : Type := replay_unsupported | restart_from_anchor | restore_recorded_advances.
#[export] Instance TimeReplayBehavior_eq_dec : EqDecision TimeReplayBehavior.
Proof. solve_decision. Defined.
Inductive TemporalConstraintKind : Type := precedence | duration | window | deadline | cadence.
#[export] Instance TemporalConstraintKind_eq_dec : EqDecision TemporalConstraintKind.
Proof. solve_decision. Defined.
Inductive ClockLifecycleState : Type := RUNNING | PAUSED.
#[export] Instance ClockLifecycleState_eq_dec : EqDecision ClockLifecycleState.
Proof. solve_decision. Defined.
Inductive ClockTransitionKind : Type := INITIALIZE | ADVANCE | PAUSE | RESUME | JUMP | RESET | REPLAY.
#[export] Instance ClockTransitionKind_eq_dec : EqDecision ClockTransitionKind.
Proof. solve_decision. Defined.

(** ** Declarations *)

Definition address_field (name address : string) : string * bool := (name, compiled_address_ok address).
Definition optional {A} (valid : A -> bool) (a : option A) : bool := match a with Some a => valid a | None => true end.

Record ExactRatio : Type := Ratio { numerator : Z; denominator : Z }.
#[export] Instance ExactRatio_eq_dec : EqDecision ExactRatio.
Proof. solve_decision. Defined.
Definition unit_ratio : ExactRatio := Ratio 1 1.

Definition validate_ratio (r : ExactRatio) : result ExactRatio :=
  _ ← require_fields [("numerator", at_least 1 (numerator r)); ("denominator", at_least 1 (denominator r))];
  _ ← raise_if (bool_decide (Z.gcd (numerator r) (denominator r) <> 1)) (ValueError "exact ratios must be reduced");
  Ok r.

Record TimeCoordinate : Type := Coordinate { segment : Z; tick : Z; microstep : Z }.
#[export] Instance TimeCoordinate_eq_dec : EqDecision TimeCoordinate.
Proof. solve_decision. Defined.

Definition validate_coordinate (t : TimeCoordinate) : result TimeCoordinate :=
  _ ← require_fields [("segment", at_least 0 (segment t)); ("microstep", at_least 0 (microstep t))];
  Ok t.

(** Comparison of the tuples of tick and microstep, and of all three. *)
Definition within_ltb (a b : TimeCoordinate) : bool :=
  (tick a <? tick b) || (tick a =? tick b) && (microstep a <? microstep b).
Definition coordinate_ltb (a b : TimeCoordinate) : bool :=
  (segment a <? segment b) || (segment a =? segment b) && within_ltb a b.

Record TimeDomainDeclaration : Type := Domain {
  domain_address : string;
  domain_kind : TimeDomainKind;
  tick_period_seconds : ExactRatio;
  epoch : TimeEpochKind;
  visibility : TimeDomainVisibility;
  domain_description : string;
}.
#[export] Instance TimeDomainDeclaration_eq_dec : EqDecision TimeDomainDeclaration.
Proof. solve_decision. Defined.

Definition validate_domain (d : TimeDomainDeclaration) : result TimeDomainDeclaration :=
  _ ← require_fields [address_field "address" (domain_address d); ("description", nonempty (domain_description d))];
  _ ← raise_if (bool_decide (domain_kind d = wall_clock) && bool_decide (epoch d <> epoch_unix))
    (ValueError "wall_clock time domains require the unix epoch");
  _ ← raise_if (bool_decide (domain_kind d = monotonic) && bool_decide (epoch d = epoch_unix))
    (ValueError "monotonic time domains cannot use the unix epoch");
  Ok d.

Record ClockDeclaration : Type := Clock {
  clock_address : string;
  time_domain_address : string;
  authority_kind : ClockAuthorityKind;
  authority_ref : string;
  monotonicity : ClockMonotonicity;
  supports_pause : bool;
  supports_reset : bool;
  supports_jump : bool;
  clock_description : string;
}.
#[export] Instance ClockDeclaration_eq_dec : EqDecision ClockDeclaration.
Proof. solve_decision. Defined.

Definition validate_clock (c : ClockDeclaration) : result ClockDeclaration :=
  _ ← require_fields
    [address_field "address" (clock_address c); address_field "time_domain_address" (time_domain_address c);
     ("authority_ref", nonempty (authority_ref c)); ("description", nonempty (clock_description c))];
  _ ← raise_if (bool_decide (monotonicity c = may_jump) && negb (supports_jump c))
    (ValueError "may_jump clocks must declare supports_jump");
  _ ← raise_if (bool_decide (monotonicity c <> may_jump) && supports_jump c)
    (ValueError "supports_jump requires may_jump monotonicity");
  Ok c.

Record TimeDomainMapping : Type := Mapping {
  mapping_address : string;
  source_domain_address : string;
  target_domain_address : string;
  mapping_kind : TimeMappingKind;
  mapping_scale : ExactRatio;
  offset_ticks : Z;
  mapping_description : string;
}.
#[export] Instance TimeDomainMapping_eq_dec : EqDecision TimeDomainMapping.
Proof. solve_decision. Defined.

Definition validate_mapping (m : TimeDomainMapping) : result TimeDomainMapping :=
  _ ← require_fields
    [address_field "address" (mapping_address m); address_field "source_domain_address" (source_domain_address m);
     address_field "target_domain_address" (target_domain_address m); ("description", nonempty (mapping_description m))];
  Ok m.

Record TimeProgressionPolicy : Type := ProgressionPolicy {
  policy_address : string;
  policy_clock_address : string;
  advancement_mode : TimeAdvancementMode;
  pacing_ratio : ExactRatio;
  synchronization_mode : TimeSynchronizationMode;
  step_ticks : option Z;
  drift_bound_ticks : option Z;
  reset_behavior : TimeResetBehavior;
  replay_behavior : TimeReplayBehavior;
  policy_description : string;
}.
#[export] Instance TimeProgressionPolicy_eq_dec : EqDecision TimeProgressionPolicy.
Proof. solve_decision. Defined.

Definition validate_progression_policy (p : TimeProgressionPolicy) : result TimeProgressionPolicy :=
  _ ← require_fields
    [address_field "address" (policy_address p); address_field "clock_address" (policy_clock_address p);
     ("step_ticks", optional (at_least 1) (step_ticks p)); ("drift_bound_ticks", optional (at_least 0) (drift_bound_ticks p));
     ("description", nonempty (policy_description p))];
  _ ← raise_if (bool_decide (advancement_mode p = stepped) && bool_decide (step_ticks p = None))
    (ValueError "stepped progression requires step_ticks");
  _ ← raise_if (bool_decide (advancement_mode p <> stepped) && bool_decide (step_ticks p <> None))
    (ValueError "step_ticks is valid only for stepped progression");
  _ ← raise_if (bool_decide (advancement_mode p ∉ [real_time; dilated]) && bool_decide (pacing_ratio p <> unit_ratio))
    (ValueError "non-unit pacing_ratio is valid only for real_time or dilated progression");
  Ok p.

Record TemporalConstraint : Type := Constraint {
  constraint_address : string;
  constraint_kind : TemporalConstraintKind;
  constraint_clock_address : string;
  subject_addresses : list string;
  constraint_start : option TimeCoordinate;
  constraint_end : option TimeCoordinate;
  duration_ticks : option Z;
  cadence_ticks : option Z;
  constraint_description : string;
}.
#[export] Instance TemporalConstraint_eq_dec : EqDecision TemporalConstraint.
Proof. solve_decision. Defined.

(** [required_by_kind[self.kind]]. *)
Definition required_by_kind (c : TemporalConstraint) : bool * string :=
  match constraint_kind c with
  | precedence => (Nat.eqb (length (subject_addresses c)) 2, "exactly two subjects")
  | duration => (bool_decide (is_Some (duration_ticks c)), "duration_ticks")
  | window => (bool_decide (is_Some (constraint_start c)) && bool_decide (is_Some (constraint_end c)), "start and end")
  | deadline => (bool_decide (is_Some (constraint_end c)), "end")
  | cadence => (bool_decide (is_Some (cadence_ticks c)), "cadence_ticks")
  end.

Definition constraint_kind_str (k : TemporalConstraintKind) : string :=
  match k with
  | precedence => "precedence"
  | duration => "duration"
  | window => "window"
  | deadline => "deadline"
  | cadence => "cadence"
  end.

Definition validate_constraint (c : TemporalConstraint) : result TemporalConstraint :=
  _ ← require_fields
    [address_field "address" (constraint_address c); address_field "clock_address" (constraint_clock_address c);
     ("subject_addresses", Nat.leb 1 (length (subject_addresses c)) && forallb compiled_address_ok (subject_addresses c));
     ("duration_ticks", optional (at_least 1) (duration_ticks c)); ("cadence_ticks", optional (at_least 1) (cadence_ticks c));
     ("description", nonempty (constraint_description c))];
  _ ← raise_if (negb (py_unique (subject_addresses c)))
    (ValueError "temporal constraint subject_addresses must be unique");
  let required := required_by_kind c in
  _ ← raise_if (negb required.1)
    (ValueError (constraint_kind_str (constraint_kind c) +:+ " temporal constraint requires " +:+ required.2));
  _ ← match constraint_start c, constraint_end c with
      | Some start, Some end_ =>
          raise_if (coordinate_ltb end_ start) (ValueError "temporal constraint start must not follow end")
      | _, _ => Ok tt
      end;
  Ok c.

(** ** References within a declaration *)

(** [_validate_address_map]. *)
Definition validate_address_map {V} (label : string) (address : V -> string) (values : dict string V) : result unit :=
  mfold (fun _ kv => raise_if (bool_decide (kv.1 <> address kv.2))
           (ValueError (label +:+ " map key must equal embedded address"))) tt (dict_items values).

Section acyclic_mappings.
(** The order in which a Python set of addresses is iterated. *)
Context (set_order : list string -> list string).

(** [graph.setdefault(source, set()).add(target)]. *)
Definition mapping_graph (mappings : dict string TimeDomainMapping) : dict string (list string) :=
  foldl (fun graph m =>
    let targets := default [] (graph !! source_domain_address m) in
    <[source_domain_address m :=
        if decide (target_domain_address m ∈ targets) then targets else targets ++ [target_domain_address m]]> graph)
    (Dict []) (dict_values mappings).

(** [visiting] and [visited] are the two sets of the closure; the recursion is
    at most as deep as there are domains with mappings, and one more. *)
Fixpoint visit_domain (fuel : nat) (graph : dict string (list string)) (st : gset string * gset string) (domain : string)
    : result (gset string * gset string) :=
  if decide (domain ∈ st.1) then Raise (ValueError "time-domain mapping graph must be acyclic")
  else if decide (domain ∈ st.2) then Ok st
  else
    match fuel with
    | O => Raise OutOfFuel
    | S fuel =>
        st' ← mfold (visit_domain fuel graph) ({[domain]} ∪ st.1, st.2) (set_order (default [] (graph !! domain)));
        Ok (fst st' ∖ {[domain]}, {[domain]} ∪ snd st')
    end.

Definition validate_acyclic_mappings (mappings : dict string TimeDomainMapping) : result unit :=
  let graph := mapping_graph mappings in
  _ ← mfold (visit_domain (S (length (dict_keys graph))) graph) (∅, ∅) (dict_keys graph);
  Ok tt.

(** ** The declaration *)

Record TimeModelDeclaration : Type := TimeDeclaration {
  domains : dict string TimeDomainDeclaration;
  clocks : dict string ClockDeclaration;
  mappings : dict string TimeDomainMapping;
  progression_policies : dict string TimeProgressionPolicy;
  temporal_constraints : dict string TemporalConstraint;
}.

Definition validate_identity_mapping (m : TimeDomainMapping) (domains : dict string TimeDomainDeclaration) : result unit :=
  if bool_decide (mapping_kind m <> identity_mapping) then Ok tt
  else
    source ← dict_index domains (source_domain_address m);
    target ← dict_index domains (target_domain_address m);
    _ ← raise_if (bool_decide (tick_period_seconds source <> tick_period_seconds target)
                  || bool_decide (epoch source <> epoch target))
      (ValueError "identity mappings require matching tick periods and epochs");
    raise_if (bool_decide (mapping_scale m <> unit_ratio) || bool_decide (offset_ticks m <> 0))
      (ValueError "identity mappings require unit scale and zero offset").

Definition validate_clock_references (d : TimeModelDeclaration) : result unit :=
  mfold (fun _ c =>
    raise_if (bool_decide (time_domain_address c ∉ dict_keys (domains d)))
      (ValueError ("clock '" +:+ clock_address c +:+ "' references an unknown time domain"))) tt (dict_values (clocks d)).

Definition validate_mapping_references (d : TimeModelDeclaration) : result unit :=
  _ ← mfold (fun _ m =>
        _ ← raise_if (bool_decide (source_domain_address m ∉ dict_keys (domains d))
                      || bool_decide (target_domain_address m ∉ dict_keys (domains d)))
          (ValueError ("mapping '" +:+ mapping_address m +:+ "' references an unknown time domain"));
        _ ← raise_if (bool_decide (source_domain_address m = target_domain_address m))
          (ValueError "time-domain mappings must connect distinct domains");
        validate_identity_mapping m (domains d)) tt (dict_values (mappings d));
  validate_acyclic_mappings (mappings d).

Definition validate_policy_references (d : TimeModelDeclaration) : result unit :=
  policy_clocks ← mmap (fun p =>
    match clocks d !! policy_clock_address p with
    | None => Raise (ValueError ("progression policy '" +:+ policy_address p +:+ "' references an unknown clock"))
    | Some clock =>
        _ ← raise_if (bool_decide (reset_behavior p <> reset_unsupported) && negb (supports_reset clock))
          (ValueError "progression reset behavior requires clock reset support");
        _ ← raise_if (bool_decide (replay_behavior p <> replay_unsupported) && negb (supports_reset clock))
          (ValueError "progression replay behavior requires clock reset support");
        Ok (policy_clock_address p)
    end) (dict_values (progression_policies d));
  raise_if (negb (py_unique policy_clocks)) (ValueError "a clock may have at most one progression policy").

Definition validate_constraint_references (d : TimeModelDeclaration) : result unit :=
  let known_subjects := dict_keys (domains d) ++ dict_keys (clocks d) ++ dict_keys (progression_policies d) in
  mfold (fun _ c =>
    _ ← raise_if (bool_decide (constraint_clock_address c ∉ dict_keys (clocks d)))
      (ValueError ("temporal constraint '" +:+ constraint_address c +:+ "' references an unknown clock"));
    raise_if (existsb (fun s => negb (String.prefix "sdl." s) && bool_decide (s ∉ known_subjects)) (subject_addresses c))
      (ValueError ("temporal constraint '" +:+ constraint_address c +:+ "' references an unknown subject")))
    tt (dict_values (temporal_constraints d)).

Definition keys_ok {V} (d : dict string V) : bool := forallb compiled_address_ok (dict_keys d).

Definition validate_time_model (d : TimeModelDeclaration) : result TimeModelDeclaration :=
  _ ← require_fields
    [("domains", Nat.leb 1 (length (dict_keys (domains d))) && keys_ok (domains d));
     ("clocks", Nat.leb 1 (length (dict_keys (clocks d))) && keys_ok (clocks d)); ("mappings", keys_ok (mappings d));
     ("progression_policies", keys_ok (progression_policies d)); ("temporal_constraints", keys_ok (temporal_constraints d))];
  _ ← validate_address_map "domains" domain_address (domains d);
  _ ← validate_address_map "clocks" clock_address (clocks d);
  _ ← validate_address_map "mappings" mapping_address (mappings d);
  _ ← validate_address_map "progression_policies" policy_address (progression_policies d);
  _ ← validate_address_map "temporal_constraints" constraint_address (temporal_constraints d);
  _ ← validate_clock_references d;
  _ ← validate_mapping_references d;
  _ ← validate_policy_references d;
  _ ← validate_constraint_references d;
  Ok d.
End acyclic_mappings.

(** ** Runtime clock state *)

Record ClockTransitionEvent : Type := ClockTransition {
  ct_sequence : Z;
  ct_kind : ClockTransitionKind;
  previous : option TimeCoordinate;
  resulting : TimeCoordinate;
  resulting_state : ClockLifecycleState;
}.
#[export] Instance ClockTransitionEvent_eq_dec : EqDecision ClockTransitionEvent.
Proof. solve_decision. Defined.

Definition validate_transition_event (e : ClockTransitionEvent) : result ClockTransitionEvent :=
  _ ← require_fields [("sequence", at_least 0 (ct_sequence e))]; Ok e.

Record RuntimeClockState : Type := ClockState {
  cs_clock_address : string;
  cs_time_domain_address : string;
  cs_progression_policy_address : option string;
  cs_authority_kind : ClockAuthorityKind;
  cs_authority_ref : string;
  cs_state : ClockLifecycleState;
  cs_coordinate : TimeCoordinate;
  cs_sequence : Z;
  cs_history : list ClockTransitionEvent;
}.
#[export] Instance RuntimeClockState_eq_dec : EqDecision RuntimeClockState.
Proof. solve_decision. Defined.

(** [_validate_transition]. *)
Definition check_transition (before event : ClockTransitionEvent) : result unit :=
  let prior := resulting before in
  match ct_kind event with
  | ADVANCE =>
      _ ← raise_if (negb (segment (resulting event) =? segment prior)) (ValueError "advance must remain in the current segment");
      raise_if (negb (within_ltb prior (resulting event))) (ValueError "advance must increase the superdense coordinate")
  | PAUSE | RESUME =>
      raise_if (bool_decide (resulting event <> prior)) (ValueError "pause and resume must preserve the coordinate")
  | JUMP | RESET | REPLAY =>
      raise_if (negb (segment (resulting event) =? segment prior + 1))
        (ValueError "jump, reset, and replay must create exactly one new segment")
  | INITIALIZE => Raise (ValueError "initialize may appear only as the first clock event")
  end.

(** The loop of [_validate_history]; the events after the first have a prior. *)
Definition check_event (st : Z * option ClockTransitionEvent) (event : ClockTransitionEvent)
    : result (Z * option ClockTransitionEvent) :=
  _ ← raise_if (negb (ct_sequence event =? st.1)) (ValueError "clock history sequence values must be contiguous from zero");
  _ ← match st.2 with
      | None => Ok tt
      | Some prior =>
          _ ← raise_if (bool_decide (previous event <> Some (resulting prior)))
            (ValueError "clock transition previous coordinate must match prior result");
          check_transition prior event
      end;
  Ok (st.1 + 1, Some event).

Definition validate_history (c : RuntimeClockState) : result unit :=
  match cs_history c with
  | [] => Raise (IndexError "list index out of range")
  | first :: _ =>
      _ ← raise_if (bool_decide (ct_kind first <> INITIALIZE) || bool_decide (previous first <> None))
        (ValueError "clock history must begin with initialize and no previous coordinate");
      _ ← mfold check_event (0, None) (cs_history c);
      let final := List.last (cs_history c) first in
      raise_if (negb (cs_sequence c =? ct_sequence final) || bool_decide (cs_coordinate c <> resulting final)
                || bool_decide (cs_state c <> resulting_state final))
        (ValueError "runtime clock state must equal the final history event")
  end.

Definition validate_clock_state (c : RuntimeClockState) : result RuntimeClockState :=
  _ ← require_fields
    [address_field "clock_address" (cs_clock_address c); address_field "time_domain_address" (cs_time_domain_address c);
     ("progression_policy_address", optional compiled_address_ok (cs_progression_policy_address c));
     ("authority_ref", nonempty (cs_authority_ref c)); ("sequence", at_least 0 (cs_sequence c));
     ("history", Nat.leb 1 (length (cs_history c)))];
  _ ← validate_history c;
  Ok c.

Record TimeRuntimeState : Type := TimeState {
  declaration_digest : string;
  state_clocks : dict string RuntimeClockState;
}.

Definition lower_hex_char (c : ascii) : bool :=
  digit_char c || let n := nat_of_ascii c in Nat.leb 97 n && Nat.leb n 102.

(** ["^sha256:"] and 64 lower-case hexadecimal digits. *)
Definition sha256_digest (s : string) : bool :=
  let l := chars s in
  bool_decide (take 7 l = chars "sha256:") && forallb lower_hex_char (drop 7 l) && Nat.eqb (length (drop 7 l)) 64.

Definition validate_time_state (s : TimeRuntimeState) : result TimeRuntimeState :=
  _ ← require_fields
    [("declaration_digest", sha256_digest (declaration_digest s));
     ("clocks", Nat.leb 1 (length (dict_keys (state_clocks s))) && keys_ok (state_clocks s))];
  _ ← mfold (fun _ kv => raise_if (bool_decide (kv.1 <> cs_clock_address kv.2))
        (ValueError "runtime clock-state map key must equal clock_address")) tt (dict_items (state_clocks s));
  Ok s.

(** Equality of the key sets of two dictionaries. *)
Definition same_keys {A B} (d1 : dict string A) (d2 : dict string B) : bool :=
  bool_decide ((list_to_set (dict_keys d1) : gset string) = list_to_set (dict_keys d2)).

Section digests.
(** [json.dumps(model_dump(mode="json"), sort_keys=True, ...)]: pydantic's
    rendering of a declaration. *)
Context (model_json : TimeModelDeclaration -> string).

Definition canonical_digest (d : TimeModelDeclaration) : string := "sha256:" +:+ sha256_hex (model_json d).

Definition validate_time_runtime_state (d : TimeModelDeclaration) (s : TimeRuntimeState) : result unit :=
  _ ← raise_if (bool_decide (declaration_digest s <> canonical_digest d))
    (ValueError "runtime time state declaration_digest does not match the admitted model");
  _ ← raise_if (negb (same_keys (state_clocks s) (clocks d)))
    (ValueError "runtime time state must cover exactly the admitted clock set");
  let policies_by_clock :=
    dict_of_list ((fun p => (policy_clock_address p, policy_address p)) <$> dict_values (progression_policies d)) in
  mfold (fun _ kv =>
    declared ← dict_index (clocks d) kv.1;
    let changed what := ValueError ("runtime clock '" +:+ kv.1 +:+ "' changed its declared " +:+ what) in
    _ ← raise_if (bool_decide (cs_time_domain_address kv.2 <> time_domain_address declared)) (changed "time domain");
    _ ← raise_if (bool_decide (cs_authority_kind kv.2 <> authority_kind declared)) (changed "authority kind");
    _ ← raise_if (bool_decide (cs_authority_ref kv.2 <> authority_ref declared)) (changed "authority reference");
    raise_if (bool_decide (cs_progression_policy_address kv.2 <> policies_by_clock !! kv.1)) (changed "progression policy"))
    tt (dict_items (state_clocks s)).
End digests.

Definition validate_time_runtime_transition (before next : option TimeRuntimeState) : result unit :=
  match before, next with
  | None, _ => Ok tt
  | Some _, None => Raise (ValueError "runtime transition removed initialized shared-time state")
  | Some before, Some next =>
      _ ← raise_if (bool_decide (declaration_digest before <> declaration_digest next))
        (ValueError "runtime transition changed the admitted time-model digest");
      _ ← raise_if (negb (same_keys (state_clocks before) (state_clocks next)))
        (ValueError "runtime transition changed the admitted clock set");
      mfold (fun _ kv =>
        next_clock ← dict_index (state_clocks next) kv.1;
        let kept := length (cs_history kv.2) in
        _ ← raise_if (Nat.ltb (length (cs_history next_clock)) kept)
          (ValueError ("runtime clock '" +:+ kv.1 +:+ "' truncated append-only history"));
        raise_if (bool_decide (take kept (cs_history next_clock) <> cs_history kv.2))
          (ValueError ("runtime clock '" +:+ kv.1 +:+ "' rewrote append-only history")))
        tt (dict_items (state_clocks before))
  end.
