(* ===== verification/TimeCompiled.v ===== *)
(** Compiled time models ([raes_processor/models/time_model.py]) and their
    projection to and from the portable declaration
    ([raes_processor/compiler/time_model.py]). The compiler writes the string
    tags from the closed vocabularies, whose types the records use. *)
From S2P Require Import Prelude.
From S2P Require Import Contracts.
From S2P Require Import Addressing.
From S2P Require Import TimeModel.
Local Open Scope string_scope.
Local Open Scope list_scope.
Local Open Scope Z_scope.

(** ** Compiled records, with the checks of their constructors *)

Record CompiledTimeDomain : Type := CDomain {
  cd_address : string;
  cd_kind : TimeDomainKind;
  cd_tick_period_numerator : Z;
  cd_tick_period_denominator : Z;
  cd_epoch : TimeEpochKind;
  cd_visibility : TimeDomainVisibility;
  cd_description : string;
}.

Definition compiled_domain (d : CompiledTimeDomain) : result CompiledTimeDomain :=
  _ ← require_compiled_address "address" (cd_address d); Ok d.

Record CompiledClock : Type := CClock {
  cc_address : string;
  cc_time_domain_address : string;
  cc_authority_kind : ClockAuthorityKind;
  cc_authority_ref : string;
  cc_monotonicity : ClockMonotonicity;
  cc_supports_pause : bool;
  cc_supports_reset : bool;
  cc_supports_jump : bool;
  cc_description : string;
}.

Definition compiled_clock (c : CompiledClock) : result CompiledClock :=
  _ ← require_compiled_address "address" (cc_address c);
  _ ← require_compiled_address "time domain address" (cc_time_domain_address c);
  Ok c.

Record CompiledTimeDomainMapping : Type := CMapping {
  cm_address : string;
  cm_source_domain_address : string;
  cm_target_domain_address : string;
  cm_mapping_kind : TimeMappingKind;
  cm_scale_numerator : Z;
  cm_scale_denominator : Z;
  cm_offset_ticks : Z;
  cm_description : string;
}.

Definition compiled_mapping (m : CompiledTimeDomainMapping) : result CompiledTimeDomainMapping :=
  _ ← require_compiled_address "address" (cm_address m);
  _ ← require_compiled_address "source domain address" (cm_source_domain_address m);
  _ ← require_compiled_address "target domain address" (cm_target_domain_address m);
  Ok m.

Record CompiledTimeProgressionPolicy : Type := CPolicy {
  cp_address : string;
  cp_clock_address : string;
  cp_advancement_mode : TimeAdvancementMode;
  cp_pacing_numerator : Z;
  cp_pacing_denominator : Z;
  cp_synchronization_mode : TimeSynchronizationMode;
  cp_step_ticks : option Z;
  cp_drift_bound_ticks : option Z;
  cp_reset_behavior : TimeResetBehavior;
  cp_replay_behavior : TimeReplayBehavior;
  cp_description : string;
}.

Definition compiled_policy (p : CompiledTimeProgressionPolicy) : result CompiledTimeProgressionPolicy :=
  _ ← require_compiled_address "address" (cp_address p);
  _ ← require_compiled_address "clock address" (cp_clock_address p);
  Ok p.

Record CompiledTemporalConstraint : Type := CConstraint {
  ck_address : string;
  ck_kind : TemporalConstraintKind;
  ck_clock_address : string;
  ck_subject_addresses : list string;
  ck_start_tick : option Z;
  ck_start_microstep : option Z;
  ck_end_tick : option Z;
  ck_end_microstep : option Z;
  ck_duration_ticks : option Z;
  ck_cadence_ticks : option Z;
  ck_description : string;
}.

Definition compiled_constraint (c : CompiledTemporalConstraint) : result CompiledTemporalConstraint :=
  _ ← require_compiled_address "address" (ck_address c);
  _ ← require_compiled_address "clock address" (ck_clock_address c);
  _ ← mmap (require_compiled_address "temporal subject address") (ck_subject_addresses c);
  Ok c.

Record CompiledTimeModel : Type := CModel {
  cm_domains : list CompiledTimeDomain;
  cm_clocks : list CompiledClock;
  cm_mappings : list CompiledTimeDomainMapping;
  cm_policies : list CompiledTimeProgressionPolicy;
  cm_constraints : list CompiledTemporalConstraint;
}.

Definition compiled_addresses (m : CompiledTimeModel) : list string :=
  (cd_address <$> cm_domains m) ++ (cc_address <$> cm_clocks m) ++ (cm_address <$> cm_mappings m)
  ++ (cp_address <$> cm_policies m) ++ (ck_address <$> cm_constraints m).

Definition compiled_model (m : CompiledTimeModel) : result CompiledTimeModel :=
  _ ← raise_if (negb (py_unique (compiled_addresses m))) (ValueError "compiled time-model addresses must be unique");
  Ok m.

(** ** To the portable contract *)

(** [{item.address: Model(...) for item in items}]. *)
Definition keyed {A B} (key : A -> string) (build : A -> result B) (l : list A) : result (dict string B) :=
  items ← mmap (fun a => b ← build a; Ok (key a, b)) l;
  Ok (dict_of_list items).

Definition domain_contract (d : CompiledTimeDomain) : result TimeDomainDeclaration :=
  period ← validate_ratio (Ratio (cd_tick_period_numerator d) (cd_tick_period_denominator d));
  validate_domain (Domain (cd_address d) (cd_kind d) period (cd_epoch d) (cd_visibility d) (cd_description d)).

Definition clock_contract (c : CompiledClock) : result ClockDeclaration :=
  validate_clock
    (Clock (cc_address c) (cc_time_domain_address c) (cc_authority_kind c) (cc_authority_ref c) (cc_monotonicity c)
       (cc_supports_pause c) (cc_supports_reset c) (cc_supports_jump c) (cc_description c)).

Definition mapping_contract (m : CompiledTimeDomainMapping) : result TimeDomainMapping :=
  scale ← validate_ratio (Ratio (cm_scale_numerator m) (cm_scale_denominator m));
  validate_mapping
    (Mapping (cm_address m) (cm_source_domain_address m) (cm_target_domain_address m) (cm_mapping_kind m) scale
       (cm_offset_ticks m) (cm_description m)).

Definition policy_contract (p : CompiledTimeProgressionPolicy) : result TimeProgressionPolicy :=
  pacing ← validate_ratio (Ratio (cp_pacing_numerator p) (cp_pacing_denominator p));
  validate_progression_policy
    (ProgressionPolicy (cp_address p) (cp_clock_address p) (cp_advancement_mode p) pacing (cp_synchronization_mode p)
       (cp_step_ticks p) (cp_drift_bound_ticks p) (cp_reset_behavior p) (cp_replay_behavior p) (cp_description p)).

(** A coordinate in segment zero, when there is a tick; [microstep or 0]. *)
Definition coordinate_contract (tick microstep : option Z) : result (option TimeCoordinate) :=
  match tick with
  | None => Ok None
  | Some tick => t ← validate_coordinate (Coordinate 0 tick (default 0 microstep)); Ok (Some t)
  end.

Definition constraint_contract (c : CompiledTemporalConstraint) : result TemporalConstraint :=
  start ← coordinate_contract (ck_start_tick c) (ck_start_microstep c);
  end_ ← coordinate_contract (ck_end_tick c) (ck_end_microstep c);
  validate_constraint
    (Constraint (ck_address c) (ck_kind c) (ck_clock_address c) (ck_subject_addresses c) start end_
       (ck_duration_ticks c) (ck_cadence_ticks c) (ck_description c)).

Definition time_model_contract_model (set_order : list string -> list string) (m : CompiledTimeModel)
    : result (option TimeModelDeclaration) :=
  match cm_domains m, cm_clocks m with
  | [], [] => Ok None
  | _, _ =>
      domains ← keyed cd_address domain_contract (cm_domains m);
      clocks ← keyed cc_address clock_contract (cm_clocks m);
      mappings ← keyed cm_address mapping_contract (cm_mappings m);
      policies ← keyed cp_address policy_contract (cm_policies m);
      constraints ← keyed ck_address constraint_contract (cm_constraints m);
      d ← validate_time_model set_order (TimeDeclaration domains clocks mappings policies constraints);
      Ok (Some d)
  end.

(** ** From the portable contract *)

Definition compiled_of_domain (d : TimeDomainDeclaration) : CompiledTimeDomain :=
  CDomain (domain_address d) (domain_kind d) (numerator (tick_period_seconds d)) (denominator (tick_period_seconds d))
    (epoch d) (visibility d) (domain_description d).

Definition compiled_of_clock (c : ClockDeclaration) : CompiledClock :=
  CClock (clock_address c) (time_domain_address c) (authority_kind c) (authority_ref c) (monotonicity c)
    (supports_pause c) (supports_reset c) (supports_jump c) (clock_description c).

Definition compiled_of_mapping (m : TimeDomainMapping) : CompiledTimeDomainMapping :=
  CMapping (mapping_address m) (source_domain_address m) (target_domain_address m) (mapping_kind m)
    (numerator (mapping_scale m)) (denominator (mapping_scale m)) (offset_ticks m) (mapping_description m).

Definition compiled_of_policy (p : TimeProgressionPolicy) : CompiledTimeProgressionPolicy :=
  CPolicy (policy_address p) (policy_clock_address p) (advancement_mode p) (numerator (pacing_ratio p))
    (denominator (pacing_ratio p)) (synchronization_mode p) (step_ticks p) (drift_bound_ticks p) (reset_behavior p)
    (replay_behavior p) (policy_description p).

Definition compiled_of_constraint (c : TemporalConstraint) : CompiledTemporalConstraint :=
  CConstraint (constraint_address c) (constraint_kind c) (constraint_clock_address c) (subject_addresses c)
    (tick <$> constraint_start c) (microstep <$> constraint_start c) (tick <$> constraint_end c)
    (microstep <$> constraint_end c) (duration_ticks c) (cadence_ticks c) (constraint_description c).

Definition compiled_time_model_from_contract (d : TimeModelDeclaration) : result CompiledTimeModel :=
  domains ← mmap (fun x => compiled_domain (compiled_of_domain x)) (dict_values (domains d));
  clocks ← mmap (fun x => compiled_clock (compiled_of_clock x)) (dict_values (clocks d));
  mappings ← mmap (fun x => compiled_mapping (compiled_of_mapping x)) (dict_values (mappings d));
  policies ← mmap (fun x => compiled_policy (compiled_of_policy x)) (dict_values (progression_policies d));
  constraints ← mmap (fun x => compiled_constraint (compiled_of_constraint x)) (dict_values (temporal_constraints d));
  compiled_model (CModel domains clocks mappings policies constraints).
