(* ===== verification/TimeCoordinator.v ===== *)
(** The reference coordinator of the shared time lifecycle and the portable
    runtime around it ([raes_runtime/time_coordinator.py]). A snapshot keeps
    its time state next to the carriers no time operation touches. *)
From S2P Require Import Prelude.
From S2P Require Import Contracts.
From S2P Require Import Addressing.
From S2P Require Import Diagnostics.
From S2P Require Import TimeModel.
From S2P Require Import TimeCompiled.
From Stdlib Require Import QArith.
Local Open Scope string_scope.
Local Open Scope list_scope.
Local Open Scope Z_scope.

Record ClockReading : Type := Reading {
  rd_clock_address : string;
  rd_segment : Z;
  rd_tick : Z;
  rd_microstep : Z;
}.

(** [RuntimeSnapshot], as far as the time operations read and replace it. *)
Record TimedSnapshot (O : Type) : Type := Timed {
  ts_other : O;
  time_model_state : option TimeRuntimeState;
}.
Arguments Timed {O} ts_other time_model_state.
Arguments ts_other {O} t.
Arguments time_model_state {O} t.

(** [snapshot.with_entries(snapshot.entries, time_model_state=state)]. *)
Definition with_time_state {O} (s : TimedSnapshot O) (state : TimeRuntimeState) : TimedSnapshot O :=
  Timed (ts_other s) (Some state).

Definition policy_by_clock (m : CompiledTimeModel) : result (dict string CompiledTimeProgressionPolicy) :=
  mfold (fun policies p =>
    _ ← raise_if (bool_decide (cp_clock_address p ∈ dict_keys policies))
      (ValueError "a clock may have at most one compiled progression policy");
    Ok (<[cp_clock_address p := p]> policies)) (Dict []) (cm_policies m).

Definition clock_by_address (m : CompiledTimeModel) : dict string CompiledClock :=
  dict_of_list ((fun c => (cc_address c, c)) <$> cm_clocks m).

Definition coordinate_of (r : ClockReading) : TimeCoordinate := Coordinate (rd_segment r) (rd_tick r) (rd_microstep r).

Definition transition (sequence : Z) (kind : ClockTransitionKind) (current : ClockReading) (previous : option ClockReading)
    : result ClockTransitionEvent :=
  previous_coordinate ← match previous with
                        | None => Ok None
                        | Some p => t ← validate_coordinate (coordinate_of p); Ok (Some t)
                        end;
  resulting ← validate_coordinate (coordinate_of current);
  validate_transition_event
    (ClockTransition sequence kind previous_coordinate resulting (if decide (kind = PAUSE) then PAUSED else RUNNING)).

Section coordinator.
Context {O : Type}.
Context (model_json : TimeModelDeclaration -> string) (set_order : list string -> list string).

Record TimeCoordinator : Type := Coordinator {
  co_time_model : CompiledTimeModel;
  co_declaration : TimeModelDeclaration;
  co_clocks : dict string CompiledClock;
  co_policies : dict string CompiledTimeProgressionPolicy;
}.

(** [TimeCoordinator(time_model)]. *)
Definition new_coordinator (m : CompiledTimeModel) : result TimeCoordinator :=
  declaration ← time_model_contract_model set_order m;
  match declaration : option TimeModelDeclaration with
  | None => Raise (ValueError "TimeCoordinator requires a non-empty compiled time model")
  | Some declaration =>
      policies ← policy_by_clock m;
      Ok (Coordinator m declaration (clock_by_address m) policies)
  end.

Definition initial_clock (co : TimeCoordinator) (address : string) (c : CompiledClock) : result RuntimeClockState :=
  initial ← transition 0 INITIALIZE (Reading address 0 0 0) None;
  validate_clock_state
    (ClockState address (cc_time_domain_address c) (cp_address <$> co_policies co !! address) (cc_authority_kind c)
       (cc_authority_ref c) RUNNING (resulting initial) 0 [initial]).

Definition initialize (co : TimeCoordinator) (s : TimedSnapshot O) : result (TimedSnapshot O) :=
  _ ← raise_if (bool_decide (is_Some (time_model_state s))) (ValueError "shared time model is already initialized");
  contexts ← mfold (fun contexts kv => c ← initial_clock co kv.1 kv.2; Ok (<[kv.1 := c]> contexts))
               (Dict []) (dict_items (co_clocks co));
  state ← validate_time_state (TimeState (canonical_digest model_json (co_declaration co)) contexts);
  Ok (with_time_state s state).

Definition clock_of (co : TimeCoordinator) (address : string) : result CompiledClock :=
  match co_clocks co !! address with
  | Some c => Ok c
  | None => Raise (KeyError ("unknown compiled clock '" +:+ address +:+ "'"))
  end.

Definition mapping_of (co : TimeCoordinator) (address : string) : result CompiledTimeDomainMapping :=
  match list_find (fun m => cm_address m = address) (cm_mappings (co_time_model co)) with
  | Some (_, m) => Ok m
  | None => Raise (KeyError ("unknown compiled time-domain mapping '" +:+ address +:+ "'"))
  end.

Definition context_of (co : TimeCoordinator) (s : TimedSnapshot O) (address : string) : result RuntimeClockState :=
  _ ← clock_of co address;
  let missing := KeyError ("clock '" +:+ address +:+ "' is not initialized") in
  match time_model_state s with
  | None => Raise missing
  | Some state =>
      match state_clocks state !! address with
      | None => Raise missing
      | Some context =>
          _ ← raise_if (bool_decide (cs_clock_address context <> address))
            (ValueError "runtime time context key disagrees with clock_address");
          Ok context
      end
  end.

Definition reading (co : TimeCoordinator) (s : TimedSnapshot O) (address : string) : result ClockReading :=
  context ← context_of co s address;
  let t := cs_coordinate context in
  Ok (Reading address (segment t) (tick t) (microstep t)).

Definition replace_context (co : TimeCoordinator) (s : TimedSnapshot O) (context : RuntimeClockState)
    (kind : ClockTransitionKind) (next : ClockReading) (state : ClockLifecycleState) : result (TimedSnapshot O) :=
  previous ← reading co s (rd_clock_address next);
  let sequence := cs_sequence context + 1 in
  event ← transition sequence kind next (Some previous);
  coordinate ← validate_coordinate (coordinate_of next);
  next_clock ← validate_clock_state
    (ClockState (cs_clock_address context) (cs_time_domain_address context) (cs_progression_policy_address context)
       (cs_authority_kind context) (cs_authority_ref context) state coordinate sequence (cs_history context ++ [event]));
  match time_model_state s with
  | None => Raise (AssertionError "")
  | Some current =>
      next_state ← validate_time_state
        (TimeState (declaration_digest current) (<[rd_clock_address next := next_clock]> (state_clocks current)));
      Ok (with_time_state s next_state)
  end.

Definition advance (co : TimeCoordinator) (s : TimedSnapshot O) (address : string) (ticks micro : Z)
    : result (TimedSnapshot O) :=
  _ ← raise_if ((ticks <? 0) || (micro <? 0)) (ValueError "clock advance must be non-negative");
  context ← context_of co s address;
  _ ← raise_if (bool_decide (cs_state context <> RUNNING)) (ValueError "a paused clock cannot advance");
  match co_policies co !! address with
  | None => Raise (ValueError "clock advancement requires a compiled progression policy")
  | Some policy =>
      _ ← raise_if (bool_decide (cp_advancement_mode policy = stepped) && bool_decide (Some ticks <> cp_step_ticks policy))
        (ValueError "stepped clock advances must equal the declared step_ticks");
      previous ← reading co s address;
      let next_tick := rd_tick previous + ticks in
      let next_microstep := if negb (ticks =? 0) then micro else rd_microstep previous + micro in
      _ ← raise_if ((ticks =? 0) && (micro =? 0)) (ValueError "clock advance must change tick or microstep");
      replace_context co s context ADVANCE
        (Reading (rd_clock_address previous) (rd_segment previous) next_tick next_microstep) RUNNING
  end.

Definition pause (co : TimeCoordinator) (s : TimedSnapshot O) (address : string) : result (TimedSnapshot O) :=
  clock ← clock_of co address;
  _ ← raise_if (negb (cc_supports_pause clock)) (ValueError "clock does not support pause");
  context ← context_of co s address;
  _ ← raise_if (bool_decide (cs_state context <> RUNNING)) (ValueError "only a running clock may be paused");
  r ← reading co s address;
  replace_context co s context PAUSE r PAUSED.

Definition resume (co : TimeCoordinator) (s : TimedSnapshot O) (address : string) : result (TimedSnapshot O) :=
  context ← context_of co s address;
  _ ← raise_if (bool_decide (cs_state context <> PAUSED)) (ValueError "only a paused clock may be resumed");
  r ← reading co s address;
  replace_context co s context RESUME r RUNNING.

Definition jump (co : TimeCoordinator) (s : TimedSnapshot O) (address : string) (tick micro : Z) : result (TimedSnapshot O) :=
  clock ← clock_of co address;
  _ ← raise_if (negb (cc_supports_jump clock)) (ValueError "clock does not support jumps");
  context ← context_of co s address;
  r ← reading co s address;
  replace_context co s context JUMP (Reading (rd_clock_address r) (rd_segment r + 1) tick micro) (cs_state context).

(** Whether the behavior a reset or replay follows is unsupported, and whether
    it is the one that preserves the value, which no replay behavior is. *)
Definition lifecycle_behavior (policy : CompiledTimeProgressionPolicy) (replay : bool) : bool * bool :=
  if replay then (bool_decide (cp_replay_behavior policy = replay_unsupported), false)
  else (bool_decide (cp_reset_behavior policy = reset_unsupported),
        bool_decide (cp_reset_behavior policy = new_segment_preserve_value)).

Definition reset (co : TimeCoordinator) (s : TimedSnapshot O) (address : string) (replay : bool) : result (TimedSnapshot O) :=
  clock ← clock_of co address;
  _ ← raise_if (negb (cc_supports_reset clock)) (ValueError "clock does not support reset");
  match co_policies co !! address with
  | None => Raise (ValueError "clock reset requires a compiled progression policy")
  | Some policy =>
      let behavior := lifecycle_behavior policy replay in
      _ ← raise_if behavior.1 (ValueError "clock policy does not support the requested lifecycle operation");
      context ← context_of co s address;
      r ← reading co s address;
      replace_context co s context (if replay then REPLAY else RESET)
        (Reading (rd_clock_address r) (rd_segment r + 1) (if behavior.2 then rd_tick r else 0)
           (if behavior.2 then rd_microstep r else 0)) RUNNING
  end.

(** [Fraction(n, d)] is in lowest terms. *)
Definition fraction (n d : Z) : Q := Qred (n # Z.to_pos d).

Definition convert_tick (co : TimeCoordinator) (mapping_address : string) (tick : Z) : result Q :=
  m ← mapping_of co mapping_address;
  Ok (Qred (fraction (tick * cm_scale_numerator m) (cm_scale_denominator m) + inject_Z (cm_offset_ticks m))%Q).

(** ** The portable runtime *)

Record TimeApplyResult : Type := TimeApplied {
  tr_success : bool;
  tr_snapshot : TimedSnapshot O;
  tr_diagnostics : list Diagnostic;
  tr_changed_addresses : list string;
}.

(** The constructor checks the changed addresses. *)
Definition apply_result (success : bool) (s : TimedSnapshot O) (ds : list Diagnostic) (changed : list string)
    : result TimeApplyResult :=
  _ ← mmap (require_compiled_address "changed address") changed;
  _ ← raise_if (negb (py_unique changed)) (ValueError "changed addresses must be unique");
  Ok (TimeApplied success s ds changed).

(** Both fields are empty until the runtime is initialized. *)
Record TimeRuntime : Type := ReferenceTimeRuntime {
  rt_declaration : option TimeModelDeclaration;
  rt_coordinator : option TimeCoordinator;
}.

(** The fields are assigned before the snapshot is, so they survive a refusal. *)
Definition runtime_initialize (rt : TimeRuntime) (d : TimeModelDeclaration) (s : TimedSnapshot O)
    : TimeRuntime * result TimeApplyResult :=
  match m ← compiled_time_model_from_contract d; new_coordinator m with
  | Raise e => (ReferenceTimeRuntime (Some d) (rt_coordinator rt), Raise e)
  | Ok co =>
      (ReferenceTimeRuntime (Some d) (Some co),
       next ← initialize co s; apply_result true next [] (py_sorted (dict_keys (clocks d))))
  end.

Definition require_coordinator (rt : TimeRuntime) : result TimeCoordinator :=
  match rt_coordinator rt, rt_declaration rt with
  | Some co, Some _ => Ok co
  | _, _ => Raise (ValueError "shared-time runtime is not initialized")
  end.

Definition runtime_result (next : result (TimedSnapshot O)) (address : string) : result TimeApplyResult :=
  s ← next; apply_result true s [] [address].

Definition runtime_advance (rt : TimeRuntime) (address : string) (ticks micro : Z) (s : TimedSnapshot O) :=
  co ← require_coordinator rt; runtime_result (advance co s address ticks micro) address.
Definition runtime_pause (rt : TimeRuntime) (address : string) (s : TimedSnapshot O) :=
  co ← require_coordinator rt; runtime_result (pause co s address) address.
Definition runtime_resume (rt : TimeRuntime) (address : string) (s : TimedSnapshot O) :=
  co ← require_coordinator rt; runtime_result (resume co s address) address.
Definition runtime_jump (rt : TimeRuntime) (address : string) (tick micro : Z) (s : TimedSnapshot O) :=
  co ← require_coordinator rt; runtime_result (jump co s address tick micro) address.
Definition runtime_reset (rt : TimeRuntime) (address : string) (replay : bool) (s : TimedSnapshot O) :=
  co ← require_coordinator rt; runtime_result (reset co s address replay) address.

Record ParticipantEpisodeResetRequest : Type := EpisodeReset {
  er_participant_address : string;
  er_episode_id : option string;
  er_reason : string;
}.

(** [participant_runtime.reset_many]: the backend's participant reset. *)
Definition reset_with_participants (reset_many : list ParticipantEpisodeResetRequest -> TimedSnapshot O -> result TimeApplyResult)
    (rt : TimeRuntime) (address : string) (replay : bool) (requests : list ParticipantEpisodeResetRequest)
    (s : TimedSnapshot O) : result TimeApplyResult :=
  time_result ← runtime_reset rt address replay s;
  participant_result ← reset_many requests (tr_snapshot time_result);
  let ds := tr_diagnostics time_result ++ tr_diagnostics participant_result in
  if negb (tr_success participant_result) then
    apply_result false s
      (ds ++ [Diag "runtime.coordinated-reset-aborted" "participant" address
                "Coordinated time and participant reset aborted before commit." ERROR]) []
  else
    apply_result true (tr_snapshot participant_result) ds
      (py_dedupe (tr_changed_addresses time_result ++ tr_changed_addresses participant_result)).

Definition runtime_state (rt : TimeRuntime) (s : TimedSnapshot O) : result TimeRuntimeState :=
  _ ← require_coordinator rt;
  match time_model_state s with
  | None => Raise (ValueError "shared-time runtime state is not initialized")
  | Some state => Ok state
  end.
End coordinator.
