(* ===== verification/TimeFacts.v ===== *)
(** Lemmas on time models: coordinates, readings, digests and validators, the
    projections between compiled models and the portable declaration, and the
    coordinator built from a compiled model. *)
From S2P Require Import Prelude.
From S2P Require Import Contracts.
From S2P Require Import Addressing.
From S2P Require Import Sha256.
From S2P Require Import TimeModel.
From S2P Require Import TimeCompiled.
From S2P Require Import TimeCoordinator.
From Stdlib Require Import Ascii.
Local Open Scope string_scope.
Local Open Scope list_scope.
Local Open Scope Z_scope.

#[local] Opaque require_fields.

(** ** Digests *)

Lemma hex_digit_lower d : 0 <= d < 16 -> lower_hex_char (hex_digit d) = true.
Proof.
  intros Hd. assert (d = 0 \/ d = 1 \/ d = 2 \/ d = 3 \/ d = 4 \/ d = 5 \/ d = 6 \/ d = 7 \/ d = 8 \/ d = 9 \/ d = 10
    \/ d = 11 \/ d = 12 \/ d = 13 \/ d = 14 \/ d = 15) as H by lia.
  repeat destruct H as [-> |H]; [vm_compute; reflexivity..|subst d; vm_compute; reflexivity].
Qed.

Lemma canonical_digest_ok dump d : sha256_digest (canonical_digest dump d) = true.
Proof.
  unfold sha256_digest, canonical_digest. destruct (sha256_hex_shape lower_hex_char (dump d) hex_digit_lower) as [Hlen Hhex].
  rewrite chars_app. change (chars "sha256:") with ["s"; "h"; "a"; "2"; "5"; "6"; ":"]%char. cbn [app take drop].
  rewrite drop_0, take_0, Hhex, Hlen. by rewrite bool_decide_true.
Qed.

(** ** Coordinates *)

Definition coordinate_ok (t : TimeCoordinate) : Prop := 0 <= segment t /\ 0 <= microstep t.

Lemma validate_coordinate_checks t : checks (validate_coordinate t) (coordinate_ok t) t.
Proof.
  apply checks_fields. rewrite !Forall_cons. cbn [snd]. rewrite !at_least_true. unfold coordinate_ok. naive_solver.
Qed.

Lemma validate_transition_event_ok e : 0 <= ct_sequence e -> validate_transition_event e = Ok e.
Proof.
  intros H. apply (checks_Ok _ (0 <= ct_sequence e)); [|done]. apply checks_fields.
  rewrite !Forall_cons. cbn [snd]. rewrite at_least_true. naive_solver.
Qed.

(** ** Histories *)

Lemma check_event_step st e st' : check_event st e = Ok st' ->
  st' = (fst st + 1, Some e) /\ ct_sequence e = fst st /\
  forall prior, snd st = Some prior -> previous e = Some (resulting prior) /\ check_transition prior e = Ok tt.
Proof.
  unfold check_event. intros H. apply bind_Ok in H as ([] & H1%raise_if_Ok & H). apply bind_Ok in H as ([] & H2 & [= <-]).
  split; [done|]. split; [by apply negb_false_iff, Z.eqb_eq in H1|]. intros prior Hp. rewrite Hp in H2.
  apply bind_Ok in H2 as ([] & H2%raise_if_Ok & H3). split; [|done]. by apply bool_decide_not_false in H2.
Qed.

Lemma check_event_ok st e prior :
  snd st = Some prior -> ct_sequence e = fst st -> previous e = Some (resulting prior) -> check_transition prior e = Ok tt ->
  check_event st e = Ok (fst st + 1, Some e).
Proof.
  intros Hp Hs Hprev Ht. unfold check_event. rewrite Hp, Hs, Z.eqb_refl. cbn [negb raise_if mbind result_bind].
  rewrite bool_decide_false by tauto. cbn [raise_if mbind result_bind]. by rewrite Ht.
Qed.

(** The state of the loop after a history. *)
Lemma check_events_run h st : mfold check_event (0, None) h = Ok st ->
  st = (Z.of_nat (length h), last h) /\ forall e, last h = Some e -> ct_sequence e = Z.of_nat (length h) - 1.
Proof.
  revert st. induction h as [|e h IH] using rev_ind; intros st; [intros [= <-]; done|].
  rewrite mfold_app, last_snoc, length_app. cbn [mfold length]. intros H.
  apply bind_Ok in H as (st1 & H1 & H2). apply bind_Ok in H2 as (st2 & H2 & [= <-]).
  destruct (IH st1 H1) as [-> _]. apply check_event_step in H2 as (-> & Hs & _). cbn [fst] in *.
  split; [f_equal; lia|]. intros e' [= <-]. lia.
Qed.

(** The history of a valid state, with its first and last events. *)
Record history_ok (c : RuntimeClockState) (h : list ClockTransitionEvent) (final : ClockTransitionEvent) : Prop := {
  ho_first : exists first rest, h = first :: rest /\ ct_kind first = INITIALIZE /\ previous first = None;
  ho_events : mfold check_event (0, None) h = Ok (Z.of_nat (length h), Some final);
  ho_sequence : cs_sequence c = ct_sequence final /\ ct_sequence final = Z.of_nat (length h) - 1;
  ho_coordinate : cs_coordinate c = resulting final;
  ho_state : cs_state c = resulting_state final;
}.

Lemma stdlib_last {A} (l : list A) d x : last l = Some x -> List.last l d = x.
Proof.
  destruct l as [|y l] using rev_ind; [done|]. rewrite last_snoc, List.last_last. by intros [= ->].
Qed.

Lemma validate_history_ok c : validate_history c = Ok tt <-> exists final, history_ok c (cs_history c) final.
Proof.
  unfold validate_history. destruct (cs_history c) as [|first rest] eqn:Eh.
  - split; [done|]. intros (final & [(f & r & [=] & _)]).
  - split.
    + intros H. apply bind_Ok in H as ([] & H1%raise_if_Ok & H). apply bind_Ok in H as (st & H2 & H3%raise_if_Ok).
      apply orb_false_iff in H1 as [Hk%bool_decide_not_false Hp%bool_decide_not_false].
      destruct (check_events_run _ _ H2) as [-> Hseq]. destruct (last (first :: rest)) as [final|] eqn:El;
        [|by destruct rest using rev_ind; [|rewrite app_comm_cons, last_snoc in El]].
      exists final. rewrite (stdlib_last _ first final El) in H3.
      apply orb_false_iff in H3 as [H3 Hst%bool_decide_not_false]. apply orb_false_iff in H3 as [Hs Hc%bool_decide_not_false].
      apply negb_false_iff, Z.eqb_eq in Hs. constructor; [by exists first, rest|done|by split; [|apply Hseq]|done|done].
    + intros (final & [(f & r & [= <- <-] & Hk & Hp) Hev [Hs Hs'] Hc Hst]).
      rewrite (bool_decide_false (ct_kind first <> _)), (bool_decide_false (previous first <> _)) by tauto. cbn [orb raise_if mbind result_bind]. rewrite Hev. cbn [mbind result_bind].
      destruct (check_events_run _ _ Hev) as [[=El] _]. rewrite (stdlib_last _ first final) by done.
      rewrite Hs, Z.eqb_refl, !bool_decide_false by tauto. done.
Qed.

(** ** Appending a transition *)

(** How each kind of transition moves the coordinate. *)
Definition moves (kind : ClockTransitionKind) (from to : TimeCoordinate) : Prop :=
  match kind with
  | ADVANCE => segment to = segment from /\ within_ltb from to = true
  | PAUSE | RESUME => to = from
  | JUMP | RESET | REPLAY => segment to = segment from + 1
  | INITIALIZE => False
  end.

Lemma check_transition_ok before e :
  check_transition before e = Ok tt <-> moves (ct_kind e) (resulting before) (resulting e).
Proof.
  unfold check_transition, moves. destruct (ct_kind e); try done.
  - split.
    + intros H. apply bind_Ok in H as ([] & H1%raise_if_Ok%negb_false_iff%Z.eqb_eq & H2%raise_if_Ok%negb_false_iff). done.
    + intros [-> ->]. by rewrite Z.eqb_refl.
  - rewrite raise_if_Ok. apply bool_decide_not_false.
  - rewrite raise_if_Ok. apply bool_decide_not_false.
  - by rewrite raise_if_Ok, negb_false_iff, Z.eqb_eq.
  - by rewrite raise_if_Ok, negb_false_iff, Z.eqb_eq.
  - by rewrite raise_if_Ok, negb_false_iff, Z.eqb_eq.
Qed.

Definition state_after (kind : ClockTransitionKind) : ClockLifecycleState := if decide (kind = PAUSE) then PAUSED else RUNNING.

Definition event_of (c : RuntimeClockState) (kind : ClockTransitionKind) (t : TimeCoordinate) : ClockTransitionEvent :=
  ClockTransition (cs_sequence c + 1) kind (Some (cs_coordinate c)) t (state_after kind).

Definition push (c : RuntimeClockState) (kind : ClockTransitionKind) (t : TimeCoordinate) (state : ClockLifecycleState)
    : RuntimeClockState :=
  ClockState (cs_clock_address c) (cs_time_domain_address c) (cs_progression_policy_address c) (cs_authority_kind c)
    (cs_authority_ref c) state t (cs_sequence c + 1) (cs_history c ++ [event_of c kind t]).

Definition clock_fields_ok (c : RuntimeClockState) : Prop :=
  compiled_address_ok (cs_clock_address c) = true /\ compiled_address_ok (cs_time_domain_address c) = true /\
  optional compiled_address_ok (cs_progression_policy_address c) = true /\ cs_authority_ref c <> "" /\
  0 <= cs_sequence c /\ cs_history c <> [].

Lemma validate_clock_state_fields c : clock_fields_ok c -> validate_clock_state c = (_ ← validate_history c; Ok c).
Proof.
  intros (H1 & H2 & H3 & H4 & H5 & H6). unfold validate_clock_state. rewrite (proj2 (require_fields_Ok _ tt)); [done|].
  unfold address_field. rewrite !Forall_cons. cbn [snd]. rewrite H1, H2, H3, nonempty_true, at_least_true.
  split_and!; try done. apply Nat.leb_le. destruct (cs_history c); [done|simpl; lia].
Qed.

Lemma validate_clock_state_ok c c' : validate_clock_state c = Ok c' <-> c' = c /\ clock_fields_ok c /\ validate_history c = Ok tt.
Proof.
  split; [|intros (-> & Hf & Hh); by rewrite validate_clock_state_fields, Hh].
  intros H. assert (clock_fields_ok c) as Hf.
  { unfold validate_clock_state in H. apply bind_Ok in H as ([] & H%require_fields_Ok & _). unfold address_field in H.
    rewrite !Forall_cons in H. cbn [snd] in H. rewrite nonempty_true, at_least_true, Nat.leb_le in H.
    destruct_and!. split_and!; try done. destruct (cs_history c); [simpl in *; lia|done]. }
  rewrite validate_clock_state_fields in H by done. apply bind_Ok in H as ([] & ? & [= <-]). done.
Qed.

Definition clock_ok (c : RuntimeClockState) : Prop := validate_clock_state c = Ok c /\ coordinate_ok (cs_coordinate c).

Lemma push_fields c kind t state : clock_fields_ok c -> clock_fields_ok (push c kind t state).
Proof.
  intros (H1 & H2 & H3 & H4 & H5 & H6). split_and!; try done; cbn [push cs_sequence cs_history]; [lia|].
  by destruct (cs_history c).
Qed.

Lemma push_events c kind t : validate_history c = Ok tt -> moves kind (cs_coordinate c) t ->
  mfold check_event (0, None) (cs_history c ++ [event_of c kind t]) =
    Ok (Z.of_nat (length (cs_history c)) + 1, Some (event_of c kind t)).
Proof.
  intros (final & Hf)%validate_history_ok Hm. destruct Hf as [_ Hev [Hs Hs'] Hc _].
  rewrite mfold_app, Hev. cbn [mbind result_bind mfold].
  rewrite (check_event_ok _ _ final); [done|done| | |].
  - cbn [event_of ct_sequence fst]. lia.
  - cbn [event_of previous]. by rewrite Hc.
  - apply check_transition_ok. cbn [event_of ct_kind resulting]. by rewrite <-Hc.
Qed.

Lemma push_ok c kind t :
  clock_ok c -> coordinate_ok t -> moves kind (cs_coordinate c) t -> clock_ok (push c kind t (state_after kind)).
Proof.
  intros [(_ & Hfields & Hh)%validate_clock_state_ok _] Ht Hm. split; [|done].
  apply validate_clock_state_ok. split; [done|]. split; [by apply push_fields|].
  apply validate_history_ok. exists (event_of c kind t). cbn [push cs_history].
  pose proof (push_events c kind t Hh Hm) as Hev. apply validate_history_ok in Hh as (final & [Hfirst _ [Hs Hs'] _ _]).
  constructor; cbn [push cs_sequence cs_coordinate cs_state event_of ct_sequence resulting resulting_state]; rewrite ?length_app.
  - destruct Hfirst as (f & r & -> & ? & ?). by exists f, (r ++ [event_of c kind t]).
  - rewrite Hev. do 2 f_equal. cbn [length]. lia.
  - split; [done|]. cbn [length]. lia.
  - done.
  - done.
Qed.

(** A state that disagrees with its final event is refused. *)
Lemma push_refused c kind t state :
  clock_ok c -> moves kind (cs_coordinate c) t -> state <> state_after kind ->
  validate_clock_state (push c kind t state) = Raise (ValueError "runtime clock state must equal the final history event").
Proof.
  intros [(_ & Hfields & Hh)%validate_clock_state_ok _] Hm Hstate. rewrite validate_clock_state_fields by by apply push_fields.
  pose proof (push_events c kind t Hh Hm) as Hev. apply validate_history_ok in Hh as (final & [Hfirst _ _ _ _]).
  unfold validate_history. cbn [push cs_history]. destruct Hfirst as (f & r & Hr & Hk & Hp). rewrite Hr in *. cbn [app].
  rewrite (bool_decide_false (ct_kind f <> _)), (bool_decide_false (previous f <> _)) by tauto.
  cbn [orb raise_if mbind result_bind]. cbn [app] in Hev. rewrite Hev. cbn [mbind result_bind].
  rewrite app_comm_cons, List.last_last. cbn [push cs_sequence cs_coordinate cs_state event_of ct_sequence resulting resulting_state].
  rewrite Z.eqb_refl, (bool_decide_false (t <> t)), (bool_decide_true (state <> _)) by tauto. done.
Qed.

(** ** Cycles of the domain mappings *)

Definition maps_to (mappings : dict string TimeDomainMapping) (x y : string) : Prop :=
  exists m, m ∈ dict_values mappings /\ source_domain_address m = x /\ target_domain_address m = y.

Lemma mapping_graph_get mappings x y :
  y ∈ default [] (mapping_graph mappings !! x) <-> maps_to mappings x y.
Proof.
  unfold mapping_graph, maps_to. generalize (dict_values mappings). intros l.
  induction l as [|m l IH] using rev_ind.
  - cbn [foldl]. split; [by intros ?%not_elem_of_nil|by intros (m & ?%not_elem_of_nil & _)].
  - rewrite foldl_app. cbn [foldl]. rewrite dict_get_set. setoid_rewrite elem_of_app. setoid_rewrite list_elem_of_singleton.
    case_decide as Hs.
    + match goal with |- context [default [] (Some ?l)] => change (default [] (Some l)) with l end. subst x. case_decide as Ht; rewrite ?elem_of_app, ?list_elem_of_singleton, IH; split.
      * intros (m' & ? & ? & ?). exists m'. tauto.
      * intros (m' & [?| ->] & ? & ?); [eauto|]. apply IH. congruence.
      * intros [(m' & ? & ? & ?)| ->]; [exists m'|exists m]; tauto.
      * intros (m' & [?| ->] & ? & ?); [left; eauto|by right].
    + rewrite IH. split; intros (m' & Hm & ? & ?); exists m'; [tauto|]. destruct Hm as [?| ->]; [done|congruence].
Qed.

(** The whole check. *)
Lemma acyclic_mappings_checks set_order (Horder : forall l, set_order l ≡ₚ l) mappings :
  checks (validate_acyclic_mappings set_order mappings) (acyclic (maps_to mappings)) tt.
Proof.
  unfold validate_acyclic_mappings. set (graph := mapping_graph mappings).
  assert (forall x y, maps_to mappings x y <-> y ∈ default [] (graph !! x)) as HR by (intros; symmetry; apply mapping_graph_get).
  assert (forall x y, y ∈ set_order (default [] (graph !! x)) <-> maps_to mappings x y) as Hnext by (intros; by rewrite Horder, HR).
  destruct (visit_all (ValueError "time-domain mapping graph must be acyclic") (fun x => set_order (default [] (graph !! x)))
    (visit_domain set_order (S (length (dict_keys graph))) graph) ∅ (dict_keys graph) ∅) as [(Hl & ve & -> & _)|((u & Hc) & ->)].
  - intros x ve Hx Hve. apply (visit_node_run _ (fun x => set_order (default [] (graph !! x))) (dict_keys graph)) with (visit := fun fuel => visit_domain set_order fuel graph); [|done|set_solver|done|].
    + intros y z Hz. rewrite Horder in Hz. apply dict_get_is_Some. destruct (graph !! y); [by eexists|by apply not_elem_of_nil in Hz].
    + pose proof (unstacked_empty (dict_keys graph)). lia.
  - set_solver.
  - left. split; [|done]. intros x Hx. apply (tc_iff _ _ Hnext) in Hx. apply (finite_no_cycle (fun x => set_order (default [] (graph !! x))) x); [|done].
    apply Hl, dict_get_is_Some. destruct (graph !! x) eqn:E; [by eexists|].
    inversion Hx as [? ? H|? ? ? H _]; subst; rewrite Horder, E in H; by apply not_elem_of_nil in H.
  - right. split; [|by eexists]. intros Hac. by apply (Hac u), (tc_iff _ _ Hnext).
Qed.

#[local] Opaque require_fields.

(** ** Dictionaries keyed by address *)

Lemma keyed_items {A B} (key : A -> string) (build : A -> result B) l d :
  NoDup (key <$> l) -> keyed key build l = Ok d ->
  exists ys, mmap build l = Ok ys /\ dict_items d = zip (key <$> l) ys /\ length ys = length l.
Proof.
  intros Hnd H. unfold keyed in H. apply bind_Ok in H as (items & Hm%mmap_Forall2 & [= <-]).
  assert (exists ys, Forall2 (fun x y => build x = Ok y) l ys /\ items = zip (key <$> l) ys) as (ys & Hys & ->).
  { clear Hnd. induction Hm as [|x kv l items Hx _ (ys & Hys & ->)]; [by exists []|].
    apply bind_Ok in Hx as (y & Hy & [= <-]). exists (y :: ys). split; [by constructor|done]. }
  exists ys. split; [by apply mmap_Forall2|]. pose proof (Forall2_length _ _ _ Hys) as Hlen. split; [|done].
  rewrite dict_of_list_items; [done|]. rewrite fst_zip; [done|]. rewrite length_fmap. lia.
Qed.

(** The items of a dictionary keyed by address, with the item each was built from. *)
Lemma keyed_Forall2 {A B} (key : A -> string) (build : A -> result B) l d :
  NoDup (key <$> l) -> keyed key build l = Ok d ->
  dict_wf d /\ dict_keys d = key <$> l /\ Forall2 (fun a kv => fst kv = key a /\ build a = Ok kv.2) l (dict_items d).
Proof.
  intros Hnd H. destruct (keyed_items key build l d Hnd H) as (ys & Hm%mmap_Forall2 & Hd & Hlen).
  assert (dict_keys d = key <$> l) as Hk.
  { unfold dict_keys. rewrite Hd, fst_zip; [done|]. rewrite length_fmap. lia. }
  split_and!; [unfold dict_wf; by rewrite Hk|done|]. rewrite Hd. clear -Hm.
  induction Hm as [|x y l ys Hx _ IH]; cbn [fmap list_fmap zip zip_with]; by constructor.
Qed.

Lemma keyed_get {A B} (key : A -> string) (build : A -> result B) l d a :
  NoDup (key <$> l) -> keyed key build l = Ok d -> a ∈ l -> exists b, d !! key a = Some b /\ build a = Ok b.
Proof.
  intros Hnd H (i & Hi)%list_elem_of_lookup. destruct (keyed_Forall2 key build l d Hnd H) as (Hwf & _ & HF).
  destruct (Forall2_lookup_l _ _ _ _ _ HF Hi) as ([k b] & Hb & Hk & Hbuild). cbn [fst snd] in *. subst k.
  exists b. split; [|done]. apply dict_get_Some; [done|]. by apply (list_elem_of_lookup_2 _ i).
Qed.

Lemma items_get_fmap {A B} (key : A -> string) (val : A -> B) l k :
  items_get k ((fun a => (key a, val a)) <$> l) = val <$> items_get k ((fun a => (key a, a)) <$> l).
Proof. induction l as [|a l IH]; [done|]. cbn [fmap list_fmap items_get fst snd]. by destruct (decide _). Qed.

(** ** Compiled policies and clocks *)

Lemma policy_by_clock_items m d : policy_by_clock m = Ok d ->
  NoDup (cp_clock_address <$> cm_policies m) /\ dict_items d = (fun p => (cp_clock_address p, p)) <$> cm_policies m.
Proof.
  unfold policy_by_clock. generalize (cm_policies m). intros l. revert d.
  induction l as [|p l IH] using rev_ind; intros d; [intros [= <-]; split; [constructor|done]|].
  rewrite mfold_app. intros H. apply bind_Ok in H as (d0 & H0 & H). cbn [mfold] in H.
  apply bind_Ok in H as (d1 & H & [= <-]). apply bind_Ok in H as ([] & Hn%raise_if_Ok & [= <-]).
  apply bool_decide_eq_false in Hn. destruct (IH d0 H0) as [Hnd Hd].
  assert (dict_keys d0 = cp_clock_address <$> l) as Hk by (unfold dict_keys; by rewrite Hd, <-list_fmap_compose).
  rewrite !fmap_app. cbn [fmap list_fmap]. split.
  - apply NoDup_app. split_and!; [done| |apply NoDup_singleton]. intros x Hx ->%list_elem_of_singleton. by rewrite <-Hk in Hx.
  - destruct (dict_items_set (cp_clock_address p) p d0) as [[-> _]|(l1 & v & l2 & _ & Hs & _)]; [by rewrite Hd|].
    exfalso. apply Hn, dict_get_is_Some. by eexists.
Qed.

Lemma clock_by_address_items m : NoDup (cc_address <$> cm_clocks m) ->
  dict_items (clock_by_address m) = (fun c => (cc_address c, c)) <$> cm_clocks m.
Proof. intros Hnd. apply dict_of_list_items. by rewrite <-list_fmap_compose. Qed.

Lemma compiled_unique m : compiled_model m = Ok m ->
  NoDup (cd_address <$> cm_domains m) /\ NoDup (cc_address <$> cm_clocks m) /\ NoDup (cm_address <$> cm_mappings m) /\
  NoDup (cp_address <$> cm_policies m) /\ NoDup (ck_address <$> cm_constraints m).
Proof.
  unfold compiled_model. intros H. apply bind_Ok in H as ([] & Hu%raise_if_Ok & _).
  apply negb_false_iff, bool_decide_eq_true in Hu. unfold compiled_addresses in Hu.
  rewrite !NoDup_app in Hu. destruct_and!. done.
Qed.

(** ** Projected records *)

Lemma validate_ratio_Ok r r' : validate_ratio r = Ok r' -> r' = r.
Proof. unfold validate_ratio. intros H. by inv_result. Qed.

Lemma validate_coordinate_Ok t t' : validate_coordinate t = Ok t' -> t' = t.
Proof. unfold validate_coordinate. intros H. by inv_result. Qed.

Lemma domain_contract_Ok c d : domain_contract c = Ok d -> compiled_of_domain d = c.
Proof.
  unfold domain_contract. intros H. apply bind_Ok in H as (r & ->%validate_ratio_Ok & H).
  unfold validate_domain in H. inv_result. by destruct c.
Qed.

Lemma clock_contract_Ok c d : clock_contract c = Ok d ->
  compiled_of_clock d = c /\ compiled_address_ok (cc_address c) = true /\
  compiled_address_ok (cc_time_domain_address c) = true /\ cc_authority_ref c <> "".
Proof.
  unfold clock_contract, validate_clock. intros H. apply bind_Ok in H as ([] & Hf%require_fields_Ok & H).
  unfold address_field in Hf. rewrite !Forall_cons in Hf. cbn [snd clock_address time_domain_address authority_ref] in Hf.
  rewrite !nonempty_true in Hf. destruct_and!. inv_result. by destruct c.
Qed.

Lemma mapping_contract_Ok c d : mapping_contract c = Ok d ->
  compiled_of_mapping d = c /\ 0 < cm_scale_numerator c /\ 0 < cm_scale_denominator c.
Proof.
  unfold mapping_contract. intros H. apply bind_Ok in H as (r & Hr & H). pose proof (validate_ratio_Ok _ _ Hr) as ->.
  unfold validate_mapping in H. inv_result. split; [by destruct c|].
  unfold validate_ratio in Hr. apply bind_Ok in Hr as ([] & Hf%require_fields_Ok & _).
  rewrite !Forall_cons in Hf. cbn [snd numerator denominator] in Hf. rewrite !at_least_true in Hf. lia.
Qed.

Lemma policy_contract_Ok c d : policy_contract c = Ok d ->
  compiled_of_policy d = c /\ compiled_address_ok (cp_address c) = true.
Proof.
  unfold policy_contract. intros H. apply bind_Ok in H as (r & ->%validate_ratio_Ok & H).
  unfold validate_progression_policy in H. apply bind_Ok in H as ([] & Hf%require_fields_Ok & H).
  unfold address_field in Hf. rewrite !Forall_cons in Hf. cbn [snd policy_address] in Hf. destruct_and!.
  inv_result. by destruct c.
Qed.

(** A microstep is kept with its tick, and is zero when it was absent. *)
Definition filled (tick micro : option Z) : option Z :=
  match tick with None => None | Some _ => Some (default 0 micro) end.

Definition filled_constraint (c : CompiledTemporalConstraint) : CompiledTemporalConstraint :=
  CConstraint (ck_address c) (ck_kind c) (ck_clock_address c) (ck_subject_addresses c) (ck_start_tick c)
    (filled (ck_start_tick c) (ck_start_microstep c)) (ck_end_tick c) (filled (ck_end_tick c) (ck_end_microstep c))
    (ck_duration_ticks c) (ck_cadence_ticks c) (ck_description c).

Lemma coordinate_contract_Ok t mi r : coordinate_contract t mi = Ok r ->
  tick <$> r = t /\ microstep <$> r = filled t mi /\ forall x, r = Some x -> segment x = 0.
Proof.
  unfold coordinate_contract. destruct t as [t|]; [|by intros [= <-]].
  intros H. apply bind_Ok in H as (x & ->%validate_coordinate_Ok & [= <-]). split_and!; [done|done|by intros ? [= <-]].
Qed.

Lemma constraint_contract_Ok c d : constraint_contract c = Ok d -> compiled_of_constraint d = filled_constraint c.
Proof.
  unfold constraint_contract. intros H. apply bind_Ok in H as (s & (Hs1 & Hs2 & _)%coordinate_contract_Ok & H).
  apply bind_Ok in H as (e & (He1 & He2 & _)%coordinate_contract_Ok & H). unfold validate_constraint in H.
  apply bind_Ok in H as ([] & _ & H). apply bind_Ok in H as ([] & _ & H). apply bind_Ok in H as ([] & _ & H).
  apply bind_Ok in H as ([] & _ & [= <-]). unfold compiled_of_constraint, filled_constraint.
  cbn [constraint_address constraint_kind constraint_clock_address subject_addresses constraint_start constraint_end
    duration_ticks cadence_ticks constraint_description]. by rewrite Hs1, Hs2, He1, He2.
Qed.

(** ** The declaration of a compiled model *)

Record declares (set_order : list string -> list string) (m : CompiledTimeModel) (d : TimeModelDeclaration) : Prop := {
  dc_domains : keyed cd_address domain_contract (cm_domains m) = Ok (domains d);
  dc_clocks : keyed cc_address clock_contract (cm_clocks m) = Ok (clocks d);
  dc_mappings : keyed cm_address mapping_contract (cm_mappings m) = Ok (mappings d);
  dc_policies : keyed cp_address policy_contract (cm_policies m) = Ok (progression_policies d);
  dc_constraints : keyed ck_address constraint_contract (cm_constraints m) = Ok (temporal_constraints d);
  dc_valid : validate_time_model set_order d = Ok d;
}.

Lemma validate_time_model_same so d d' : validate_time_model so d = Ok d' -> d' = d.
Proof. unfold validate_time_model. intros H. by inv_result. Qed.

Lemma contract_model_declares so m d : time_model_contract_model so m = Ok (Some d) -> declares so m d.
Proof.
  unfold time_model_contract_model. intros H.
  assert ((domains ← keyed cd_address domain_contract (cm_domains m);
          clocks ← keyed cc_address clock_contract (cm_clocks m);
          mappings ← keyed cm_address mapping_contract (cm_mappings m);
          policies ← keyed cp_address policy_contract (cm_policies m);
          constraints ← keyed ck_address constraint_contract (cm_constraints m);
          d ← validate_time_model so (TimeDeclaration domains clocks mappings policies constraints);
          Ok (Some d)) = Ok (Some d)) as H'.
  { by destruct (cm_domains m), (cm_clocks m). }
  clear H. apply bind_Ok in H' as (ds & ? & H). apply bind_Ok in H as (cs & ? & H). apply bind_Ok in H as (ms & ? & H).
  apply bind_Ok in H as (ps & ? & H). apply bind_Ok in H as (ks & ? & H). apply bind_Ok in H as (d' & Hd & [= ->]).
  pose proof (validate_time_model_same _ _ _ Hd) as ->. by constructor.
Qed.

Lemma keyed_values {A B C} (key : A -> string) (build : A -> result B) (back : B -> C) (f : A -> C) l d :
  NoDup (key <$> l) -> keyed key build l = Ok d -> (forall a b, build a = Ok b -> back b = f a) ->
  back <$> dict_values d = f <$> l.
Proof.
  intros Hnd H Hback. destruct (keyed_Forall2 key build l d Hnd H) as (_ & _ & HF). unfold dict_values.
  clear H Hnd. induction HF as [|a [k b] l kvs [_ Hb] _ IH]; [done|]. cbn [fmap list_fmap fst snd] in *.
  by rewrite (Hback a b Hb), IH.
Qed.

(** ** The coordinator of a compiled model *)

Record coordinator_ok (co : TimeCoordinator) : Prop := {
  cok_wf : dict_wf (co_clocks co);
  cok_nonempty : dict_keys (co_clocks co) <> [];
  cok_clock k c : co_clocks co !! k = Some c -> cc_address c = k /\ compiled_address_ok k = true /\
    compiled_address_ok (cc_time_domain_address c) = true /\ cc_authority_ref c <> "";
  cok_policy k p : co_policies co !! k = Some p -> compiled_address_ok (cp_address p) = true;
  cok_keys : dict_keys (clocks (co_declaration co)) = dict_keys (co_clocks co);
  cok_declared k c : co_clocks co !! k = Some c -> exists d, clocks (co_declaration co) !! k = Some d /\ compiled_of_clock d = c;
  cok_policies k : cp_address <$> co_policies co !! k =
    dict_of_list ((fun p => (policy_clock_address p, policy_address p)) <$> dict_values (progression_policies (co_declaration co))) !! k;
  cok_mapping a m : mapping_of co a = Ok m -> 0 < cm_scale_numerator m /\ 0 < cm_scale_denominator m;
}.

Lemma declared_policies so m d ps k :
  declares so m d -> NoDup (cp_address <$> cm_policies m) -> policy_by_clock m = Ok ps ->
  cp_address <$> ps !! k =
    dict_of_list ((fun p => (policy_clock_address p, policy_address p)) <$> dict_values (progression_policies d)) !! k.
Proof.
  intros Hd Hnd (Hc & Hps)%policy_by_clock_items.
  rewrite (keyed_values cp_address policy_contract (fun p => (policy_clock_address p, policy_address p))
    (fun p => (cp_clock_address p, cp_address p)) _ _ Hnd (dc_policies _ _ _ Hd)).
  2:{ intros a b [<- _]%policy_contract_Ok. done. }
  rewrite dict_get_of_list by (rewrite <-list_fmap_compose; exact Hc).
  unfold lookup at 1, dict_lookup. by rewrite Hps, (items_get_fmap cp_clock_address cp_address).
Qed.

Lemma items_get_key {A} (key : A -> string) l k a :
  items_get k ((fun a => (key a, a)) <$> l) = Some a -> key a = k /\ a ∈ l.
Proof.
  induction l as [|b l IH]; [done|]. cbn [fmap list_fmap items_get fst snd]. destruct (decide _) as [Hk|_].
  - intros [= ->]. split; [done|left].
  - intros [? ?]%IH. split; [done|by right].
Qed.

Lemma new_coordinator_ok so m co :
  compiled_model m = Ok m -> new_coordinator so m = Ok co ->
  coordinator_ok co /\ co_time_model co = m /\ declares so m (co_declaration co).
Proof.
  intros Hu H. unfold new_coordinator in H. apply bind_Ok in H as ([d|] & Hd & H); [apply contract_model_declares in Hd|done].
  apply bind_Ok in H as (ps & Hps & [= <-]). cbn [co_time_model co_declaration]. split; [|done].
  destruct (compiled_unique m Hu) as (_ & Hc & Hm & Hp & _).
  pose proof (clock_by_address_items m Hc) as Hitems.
  destruct (keyed_Forall2 _ _ _ _ Hc (dc_clocks _ _ _ Hd)) as (_ & Hkeys & _).
  assert (dict_keys (clock_by_address m) = cc_address <$> cm_clocks m) as Hck.
  { unfold dict_keys. by rewrite Hitems, <-list_fmap_compose. }
  assert (forall k c, clock_by_address m !! k = Some c -> cc_address c = k /\ c ∈ cm_clocks m) as Hget.
  { intros k c. unfold lookup, dict_lookup. rewrite Hitems. apply items_get_key. }
  assert (forall k c, clock_by_address m !! k = Some c -> exists d', clocks d !! k = Some d' /\ clock_contract c = Ok d') as Hdecl.
  { intros k c [<- Hin]%Hget. by apply (keyed_get cc_address clock_contract (cm_clocks m)); [|apply (dc_clocks _ _ _ Hd)|]. }
  constructor; cbn [co_clocks co_declaration co_policies].
  - apply dict_wf_of_list.
  - rewrite Hck, <-Hkeys. pose proof (dc_valid _ _ _ Hd) as Hv. unfold validate_time_model in Hv.
    apply bind_Ok in Hv as ([] & Hf%require_fields_Ok & _). rewrite !Forall_cons in Hf. cbn [snd] in Hf.
    rewrite !andb_true_iff, !Nat.leb_le in Hf. destruct_and!. intros Hn. rewrite Hn in *. simpl in *. lia.
  - intros k c Hk. destruct (Hdecl k c Hk) as (d' & _ & (_ & Ha & Ht & Hr)%clock_contract_Ok).
    destruct (Hget k c Hk) as [<- _]. done.
  - intros k p Hk. destruct (policy_by_clock_items m ps Hps) as [_ Hpi]. unfold lookup, dict_lookup in Hk. rewrite Hpi in Hk.
    apply items_get_key in Hk as [_ Hin].
    destruct (keyed_get cp_address policy_contract _ _ p Hp (dc_policies _ _ _ Hd) Hin) as (b & _ & [_ ?]%policy_contract_Ok). done.
  - by rewrite Hck.
  - intros k c Hk. destruct (Hdecl k c Hk) as (d' & ? & (? & _)%clock_contract_Ok). eauto.
  - intros k. by eapply declared_policies.
  - intros a x Hx. unfold mapping_of in Hx. cbn [co_time_model] in Hx.
    destruct (list_find _ (cm_mappings m)) as [[i y]|] eqn:Ef; [|done]. injection Hx as ->.
    apply list_find_Some in Ef as (Hi%list_elem_of_lookup_2 & _ & _).
    destruct (keyed_get cm_address mapping_contract _ _ x Hm (dc_mappings _ _ _ Hd) Hi) as (b & _ & (_ & ? & ?)%mapping_contract_Ok). done.
Qed.

(** ** Back to the compiled model *)

Lemma require_compiled_Ok name a : compiled_address_ok a = true -> require_compiled_address name a = Ok a.
Proof. intros H. unfold require_compiled_address. by rewrite H. Qed.

(** The fields a contract requires are those the compiled records check. *)
Ltac fields_of H :=
  apply bind_Ok in H as ([] & H%require_fields_Ok & _); unfold address_field in H; rewrite !Forall_cons in H; cbn [snd] in H.

Lemma domain_contract_compiled c d : domain_contract c = Ok d -> compiled_domain c = Ok c.
Proof.
  unfold domain_contract. intros H. apply bind_Ok in H as (r & _ & H). unfold validate_domain in H. fields_of H.
  unfold compiled_domain. cbn [domain_address] in H. destruct_and!. by rewrite require_compiled_Ok.
Qed.

Lemma clock_contract_compiled c d : clock_contract c = Ok d -> compiled_clock c = Ok c.
Proof. intros (_ & ? & ? & _)%clock_contract_Ok. unfold compiled_clock. by rewrite !require_compiled_Ok. Qed.

Lemma mapping_contract_compiled c d : mapping_contract c = Ok d -> compiled_mapping c = Ok c.
Proof.
  unfold mapping_contract. intros H. apply bind_Ok in H as (r & _ & H). unfold validate_mapping in H. fields_of H.
  cbn [mapping_address source_domain_address target_domain_address] in H. destruct_and!.
  unfold compiled_mapping. by rewrite !require_compiled_Ok.
Qed.

Lemma policy_contract_compiled c d : policy_contract c = Ok d -> compiled_policy c = Ok c.
Proof.
  unfold policy_contract. intros H. apply bind_Ok in H as (r & _ & H). unfold validate_progression_policy in H. fields_of H.
  cbn [policy_address policy_clock_address] in H. destruct_and!. unfold compiled_policy. by rewrite !require_compiled_Ok.
Qed.

Lemma constraint_contract_compiled c d : constraint_contract c = Ok d -> compiled_constraint (filled_constraint c) = Ok (filled_constraint c).
Proof.
  unfold constraint_contract. intros H. apply bind_Ok in H as (s & _ & H). apply bind_Ok in H as (e & _ & H).
  unfold validate_constraint in H. fields_of H. cbn [constraint_address constraint_clock_address subject_addresses] in H. destruct_and!.
  match goal with H : _ && forallb _ _ = true |- _ => apply andb_true_iff in H as [_ Hs] end.
  unfold compiled_constraint. cbn [ck_address ck_clock_address ck_subject_addresses filled_constraint].
  rewrite !require_compiled_Ok by done. cbn [mbind result_bind].
  rewrite (mmap_Ok_Forall (fun a => a)); [done|]. intros a Ha. apply require_compiled_Ok.
  rewrite forallb_forall in Hs. by apply Hs, list_elem_of_In.
Qed.

(** Building back the records of a dictionary keyed by address. *)
Lemma keyed_back {A B} (key : A -> string) (build : A -> result B) (back : B -> A) (check : A -> result A) (f : A -> A) l d :
  NoDup (key <$> l) -> keyed key build l = Ok d -> (forall a b, build a = Ok b -> back b = f a /\ check (f a) = Ok (f a)) ->
  mmap (fun b => check (back b)) (dict_values d) = Ok (f <$> l).
Proof.
  intros Hnd H Hb. destruct (keyed_Forall2 key build l d Hnd H) as (_ & _ & HF). unfold dict_values. clear H Hnd.
  induction HF as [|a [k b] l kvs [_ Hbuild] _ IH]; [done|]. cbn [fmap list_fmap fst snd mmap] in *.
  destruct (Hb a b Hbuild) as [-> ->]. cbn [mbind result_bind]. by rewrite IH.
Qed.

Definition filled_model (m : CompiledTimeModel) : CompiledTimeModel :=
  CModel (cm_domains m) (cm_clocks m) (cm_mappings m) (cm_policies m) (filled_constraint <$> cm_constraints m).

Lemma compiled_addresses_filled m : compiled_addresses (filled_model m) = compiled_addresses m.
Proof. unfold compiled_addresses, filled_model. cbn [cm_domains cm_clocks cm_mappings cm_policies cm_constraints]. by rewrite <-list_fmap_compose. Qed.

Lemma constraint_contract_filled c : constraint_contract (filled_constraint c) = constraint_contract c.
Proof.
  unfold constraint_contract, filled_constraint.
  cbn [ck_address ck_kind ck_clock_address ck_subject_addresses ck_start_tick ck_start_microstep ck_end_tick ck_end_microstep
    ck_duration_ticks ck_cadence_ticks ck_description].
  assert (forall t mi, coordinate_contract t (filled t mi) = coordinate_contract t mi) as H by by intros [t|] mi.
  by rewrite !H.
Qed.

Lemma keyed_filled l : keyed ck_address constraint_contract (filled_constraint <$> l) = keyed ck_address constraint_contract l.
Proof.
  unfold keyed. f_equal. induction l as [|c l IH]; [done|]. cbn [fmap list_fmap mmap]. by rewrite constraint_contract_filled, IH.
Qed.

Lemma contract_round so m d :
  compiled_model m = Ok m -> time_model_contract_model so m = Ok (Some d) ->
  compiled_time_model_from_contract d = Ok (filled_model m) /\ time_model_contract_model so (filled_model m) = Ok (Some d).
Proof.
  intros Hm Hd. pose proof (contract_model_declares so m d Hd) as HD.
  destruct (compiled_unique m Hm) as (Hn1 & Hn2 & Hn3 & Hn4 & Hn5). split.
  - unfold compiled_time_model_from_contract.
    rewrite (keyed_back _ _ compiled_of_domain compiled_domain id _ _ Hn1 (dc_domains _ _ _ HD)).
    2:{ intros a b H. split; [by apply domain_contract_Ok|by eapply domain_contract_compiled]. }
    cbn [mbind result_bind]. rewrite (keyed_back _ _ compiled_of_clock compiled_clock id _ _ Hn2 (dc_clocks _ _ _ HD)).
    2:{ intros a b H. split; [by apply clock_contract_Ok|by eapply clock_contract_compiled]. }
    cbn [mbind result_bind]. rewrite (keyed_back _ _ compiled_of_mapping compiled_mapping id _ _ Hn3 (dc_mappings _ _ _ HD)).
    2:{ intros a b H. split; [by apply mapping_contract_Ok|by eapply mapping_contract_compiled]. }
    cbn [mbind result_bind]. rewrite (keyed_back _ _ compiled_of_policy compiled_policy id _ _ Hn4 (dc_policies _ _ _ HD)).
    2:{ intros a b H. split; [by apply policy_contract_Ok|by eapply policy_contract_compiled]. }
    cbn [mbind result_bind]. rewrite (keyed_back _ _ compiled_of_constraint compiled_constraint filled_constraint _ _ Hn5 (dc_constraints _ _ _ HD)).
    2:{ intros a b H. split; [by apply constraint_contract_Ok|by eapply constraint_contract_compiled]. }
    cbn [mbind result_bind]. rewrite !list_fmap_id. fold (filled_model m). unfold compiled_model in *.
    rewrite compiled_addresses_filled. apply bind_Ok in Hm as ([] & -> & _). done.
  - unfold time_model_contract_model in *. cbn [filled_model cm_domains cm_clocks cm_mappings cm_policies cm_constraints].
    by rewrite keyed_filled.
Qed.
