(* ===== verification/TimeRun.v ===== *)
(** The runs of the coordinator: reading and writing a timed snapshot, and each
    operation on it. *)
From S2P Require Import Prelude.
From S2P Require Import Contracts.
From S2P Require Import Addressing.
From S2P Require Import TimeModel.
From S2P Require Import TimeCompiled.
From S2P Require Import TimeCoordinator.
From S2P Require Import TimeFacts.
Local Open Scope string_scope.
Local Open Scope list_scope.
Local Open Scope Z_scope.

#[local] Opaque require_fields.

Section run.
Context {O : Type} (model_json : TimeModelDeclaration -> string).
Context (co : TimeCoordinator) (Hco : coordinator_ok co).
Implicit Types (s : TimedSnapshot O) (st : TimeRuntimeState) (c : RuntimeClockState).

(** A clock state of the declared clock it is kept for. *)
Record keeps (k : string) (c : RuntimeClockState) : Prop := {
  kp_ok : clock_ok c;
  kp_address : cs_clock_address c = k;
  kp_declared : exists cc, co_clocks co !! k = Some cc /\ cs_time_domain_address c = cc_time_domain_address cc /\
    cs_authority_kind c = cc_authority_kind cc /\ cs_authority_ref c = cc_authority_ref cc;
  kp_policy : cs_progression_policy_address c = cp_address <$> co_policies co !! k;
}.

Record timed_state (st : TimeRuntimeState) : Prop := {
  tst_wf : dict_wf (state_clocks st);
  tst_digest : declaration_digest st = canonical_digest model_json (co_declaration co);
  tst_keys : dict_keys (state_clocks st) = dict_keys (co_clocks co);
  tst_clock k c : state_clocks st !! k = Some c -> keeps k c;
}.

Lemma timed_state_items st k c : timed_state st -> (k, c) ∈ dict_items (state_clocks st) -> keeps k c.
Proof. intros Hst Hin. apply (tst_clock _ Hst), dict_get_Some; [apply Hst|done]. Qed.

Lemma timed_state_valid st : timed_state st -> validate_time_state st = Ok st.
Proof.
  intros Hst. unfold validate_time_state. rewrite (proj2 (require_fields_Ok _ tt)).
  - cbn [mbind result_bind]. rewrite (proj2 (mfold_checks _ _ tt)); [done|]. apply Forall_forall. intros [k c] Hin. cbn [fst snd].
    apply raise_if_Ok, bool_decide_not_false. symmetry. by apply (kp_address _ _ (timed_state_items st k c Hst Hin)).
  - rewrite !Forall_cons. cbn [snd]. split_and!; [|rewrite andb_true_iff; split|constructor].
    + rewrite (tst_digest _ Hst). apply canonical_digest_ok.
    + rewrite (tst_keys _ Hst). apply Nat.leb_le. pose proof (cok_nonempty _ Hco). destruct (dict_keys (co_clocks co)); [done|simpl; lia].
    + unfold keys_ok. rewrite (tst_keys _ Hst). apply forallb_forall. intros k Hk%list_elem_of_In%dict_get_is_Some.
      destruct Hk as [cc Hk]. by apply (cok_clock _ Hco k cc).
Qed.

(** Readback of the state against the declaration. *)
Lemma timed_state_readback st : timed_state st -> validate_time_runtime_state model_json (co_declaration co) st = Ok tt.
Proof.
  intros Hst. unfold validate_time_runtime_state. rewrite bool_decide_false by (rewrite (tst_digest _ Hst); tauto).
  cbn [raise_if mbind result_bind]. unfold same_keys. rewrite (tst_keys _ Hst), (cok_keys _ Hco), bool_decide_true by done.
  cbn [negb raise_if mbind result_bind]. apply mfold_checks, Forall_forall. intros [k c] Hin. cbn [fst snd].
  destruct (timed_state_items st k c Hst Hin) as [_ _ (cc & Hcc & Hd & Hk & Hr) Hp].
  destruct (cok_declared _ Hco k cc Hcc) as (d & Hget & <-). rewrite (proj2 (dict_index_Ok _ _ _) Hget). cbn [mbind result_bind].
  rewrite Hd, Hk, Hr. cbn [compiled_of_clock cc_time_domain_address cc_authority_kind cc_authority_ref].
  rewrite !bool_decide_ne. cbn [raise_if mbind result_bind].
  rewrite Hp, (cok_policies _ Hco). apply raise_if_Ok, bool_decide_not_false. done.
Qed.

(** ** One clock replaced *)

Definition set_clock st (k : string) c : TimeRuntimeState := TimeState (declaration_digest st) (<[k := c]> (state_clocks st)).

Lemma set_clock_timed st k c : timed_state st -> keeps k c -> k ∈ dict_keys (state_clocks st) -> timed_state (set_clock st k c).
Proof.
  intros Hst Hc Hk. constructor; cbn [set_clock state_clocks declaration_digest].
  - apply dict_wf_set, Hst.
  - apply Hst.
  - rewrite dict_keys_set. rewrite decide_True by done. apply Hst.
  - intros k' c'. rewrite dict_get_set. case_decide as Hkk; [intros [= <-]; by rewrite <-Hkk|apply (tst_clock _ Hst)].
Qed.

Lemma push_keeps k c kind t : keeps k c -> coordinate_ok t -> moves kind (cs_coordinate c) t ->
  keeps k (push c kind t (state_after kind)).
Proof. intros [Hok Ha Hd Hp] Ht Hm. constructor; [by apply push_ok|done..]. Qed.

Lemma context_of_Ok s st k c : time_model_state s = Some st -> timed_state st ->
  context_of co s k = Ok c <-> state_clocks st !! k = Some c.
Proof.
  intros Hs Hst. unfold context_of, clock_of. rewrite Hs. split.
  - intros H. apply bind_Ok in H as (cc & _ & H). cbn zeta in H. destruct (state_clocks st !! k) as [c'|]; [|done].
    apply bind_Ok in H as ([] & _ & [= ->]). done.
  - intros Hk. destruct (kp_declared _ _ (tst_clock _ Hst k c Hk)) as (cc & -> & _). cbn [mbind result_bind]. rewrite Hk.
    rewrite bool_decide_false; [done|]. rewrite (kp_address _ _ (tst_clock _ Hst k c Hk)). tauto.
Qed.

Lemma known_clock st k : timed_state st -> (exists cc, co_clocks co !! k = Some cc) <-> exists c, state_clocks st !! k = Some c.
Proof.
  intros Hst. assert (k ∈ dict_keys (co_clocks co) <-> k ∈ dict_keys (state_clocks st)) as H by by rewrite (tst_keys _ Hst).
  by rewrite <-!dict_get_is_Some in H.
Qed.

Lemma context_of_unknown s k : co_clocks co !! k = None -> exists e, context_of co s k = Raise e.
Proof. intros H. unfold context_of, clock_of. rewrite H. by eexists. Qed.

Definition reading_of (k : string) (t : TimeCoordinate) : ClockReading := Reading k (segment t) (tick t) (microstep t).

Lemma coordinate_reading k t : coordinate_of (reading_of k t) = t.
Proof. by destruct t. Qed.

Lemma reading_Ok s st k c : time_model_state s = Some st -> timed_state st -> state_clocks st !! k = Some c ->
  reading co s k = Ok (reading_of k (cs_coordinate c)).
Proof. intros Hs Hst Hk. unfold reading. by rewrite (proj2 (context_of_Ok s st k c Hs Hst) Hk). Qed.

(** The event of a replacement, once the new coordinate is valid. *)
Lemma replace_context_event s st k c kind t state :
  time_model_state s = Some st -> timed_state st -> state_clocks st !! k = Some c -> coordinate_ok t ->
  replace_context co s c kind (reading_of k t) state =
    (next_clock ← validate_clock_state (push c kind t state);
     next_state ← validate_time_state (set_clock st k next_clock);
     Ok (with_time_state s next_state)).
Proof.
  intros Hs Hst Hk Ht. destruct (tst_clock _ Hst k c Hk) as [[Hv Hc] Ha _ _]. unfold replace_context.
  cbn [rd_clock_address reading_of]. rewrite (reading_Ok s st k c Hs Hst Hk). cbn [mbind result_bind]. unfold transition.
  change (Reading k (segment t) (tick t) (microstep t)) with (reading_of k t).
  rewrite !coordinate_reading, (checks_Ok _ _ _ (validate_coordinate_checks (cs_coordinate c)) Hc). cbn [mbind result_bind].
  rewrite !(checks_Ok _ _ _ (validate_coordinate_checks t) Ht). cbn [mbind result_bind].
  rewrite validate_transition_event_ok.
  - cbn [mbind result_bind]. rewrite Hs. done.
  - cbn [ct_sequence]. apply validate_clock_state_ok in Hv as (_ & (_ & _ & _ & _ & ? & _) & _). lia.
Qed.

Lemma replace_context_run s st k c kind t :
  time_model_state s = Some st -> timed_state st -> state_clocks st !! k = Some c -> coordinate_ok t ->
  moves kind (cs_coordinate c) t ->
  let st' := set_clock st k (push c kind t (state_after kind)) in
  replace_context co s c kind (reading_of k t) (state_after kind) = Ok (with_time_state s st') /\ timed_state st'.
Proof.
  intros Hs Hst Hk Ht Hm st'. assert (timed_state st') as Hst'.
  { apply set_clock_timed; [done|apply push_keeps; [by apply Hst|done..]|apply dict_get_is_Some; by eexists]. }
  split; [|done]. rewrite (replace_context_event s st) by done.
  destruct (push_ok c kind t) as [-> _]; [by apply (tst_clock _ Hst k c Hk)|done..|]. cbn [mbind result_bind].
  fold st'. by rewrite timed_state_valid.
Qed.

(** An invalid coordinate is refused before anything is replaced. *)
Lemma replace_context_invalid s st k c kind t state :
  time_model_state s = Some st -> timed_state st -> state_clocks st !! k = Some c -> ~ coordinate_ok t ->
  exists message, replace_context co s c kind (reading_of k t) state = Raise (ValueError message).
Proof.
  intros Hs Hst Hk Ht. destruct (tst_clock _ Hst k c Hk) as [[Hv Hc] Ha _ _]. unfold replace_context.
  cbn [rd_clock_address reading_of]. rewrite (reading_Ok s st k c Hs Hst Hk). cbn [mbind result_bind]. unfold transition.
  change (Reading k (segment t) (tick t) (microstep t)) with (reading_of k t).
  rewrite !coordinate_reading, (checks_Ok _ _ _ (validate_coordinate_checks (cs_coordinate c)) Hc). cbn [mbind result_bind].
  destruct (checks_refused _ _ _ (validate_coordinate_checks t) Ht) as [message ->]. by eexists.
Qed.
End run.

(** ** Operations *)

Inductive clock_op : Type :=
| OpAdvance (k : string) (ticks micro : Z)
| OpPause (k : string)
| OpResume (k : string)
| OpJump (k : string) (to micro : Z)
| OpReset (k : string) (replay : bool).

Definition op_clock (op : clock_op) : string :=
  match op with OpAdvance k _ _ | OpPause k | OpResume k | OpJump k _ _ | OpReset k _ => k end.

Definition op_kind (op : clock_op) : ClockTransitionKind :=
  match op with
  | OpAdvance _ _ _ => ADVANCE
  | OpPause _ => PAUSE
  | OpResume _ => RESUME
  | OpJump _ _ _ => JUMP
  | OpReset _ replay => if replay then REPLAY else RESET
  end.

Definition run_op {O} (co : TimeCoordinator) (op : clock_op) (s : TimedSnapshot O) : result (TimedSnapshot O) :=
  match op with
  | OpAdvance k ticks micro => advance co s k ticks micro
  | OpPause k => pause co s k
  | OpResume k => resume co s k
  | OpJump k to micro => jump co s k to micro
  | OpReset k replay => reset co s k replay
  end.

(** The lifecycle an operation requires of its clock, as it is declared
    ([cc]) and as it stands ([c]). *)
Definition permits (co : TimeCoordinator) (op : clock_op) (cc : CompiledClock) (c : RuntimeClockState) : Prop :=
  match op with
  | OpAdvance k ticks micro =>
      0 <= ticks /\ 0 <= micro /\ 0 < ticks + micro /\ cs_state c = RUNNING /\
      exists p, co_policies co !! k = Some p /\ (cp_advancement_mode p = stepped -> cp_step_ticks p = Some ticks)
  | OpPause k => cc_supports_pause cc = true /\ cs_state c = RUNNING
  | OpResume k => cs_state c = PAUSED
  | OpJump k to micro => cc_supports_jump cc = true /\ cs_state c = RUNNING /\ 0 <= micro
  | OpReset k replay =>
      cc_supports_reset cc = true /\ exists p, co_policies co !! k = Some p /\
        (if replay then cp_replay_behavior p <> replay_unsupported else cp_reset_behavior p <> reset_unsupported)
  end.

(** Where an operation leaves its clock: an advance moves within the segment,
    a pause and a resume stay, a discontinuity opens the next segment. *)
Definition target (co : TimeCoordinator) (op : clock_op) (t : TimeCoordinate) : TimeCoordinate :=
  match op with
  | OpAdvance k ticks micro =>
      Coordinate (segment t) (tick t + ticks) (if decide (ticks = 0) then microstep t + micro else micro)
  | OpPause k | OpResume k => t
  | OpJump k to micro => Coordinate (segment t + 1) to micro
  | OpReset k replay =>
      if decide (replay = false /\ (cp_reset_behavior <$> co_policies co !! k) = Some new_segment_preserve_value)
      then Coordinate (segment t + 1) (tick t) (microstep t)
      else Coordinate (segment t + 1) 0 0
  end.

Lemma target_moves co op cc c : clock_ok c -> permits co op cc c ->
  coordinate_ok (target co op (cs_coordinate c)) /\ moves (op_kind op) (cs_coordinate c) (target co op (cs_coordinate c)).
Proof.
  intros [_ [Hseg Hmi]] Hp. destruct op as [k n m|k|k|k to m|k replay]; cbn [permits target op_kind moves] in *.
  - destruct Hp as (Hn & Hm & Hnm & _). unfold coordinate_ok, within_ltb. cbn [segment tick microstep]. case_decide as Hz.
    + split; [lia|]. split; [done|]. rewrite orb_true_iff, andb_true_iff, !Z.ltb_lt, Z.eqb_eq. lia.
    + split; [lia|]. split; [done|]. rewrite orb_true_iff, Z.ltb_lt. lia.
  - done.
  - done.
  - unfold coordinate_ok. cbn [segment microstep]. lia.
  - unfold coordinate_ok. destruct replay; case_decide; cbn [segment microstep moves]; split; (done || lia).
Qed.

Section ops.
Context {O : Type} (model_json : TimeModelDeclaration -> string).
Context (co : TimeCoordinator) (Hco : coordinator_ok co).
Implicit Types (s : TimedSnapshot O) (st : TimeRuntimeState) (c : RuntimeClockState).
Abbreviation timed := (timed_state model_json co).

Definition moved (op : clock_op) st c : TimeRuntimeState :=
  set_clock st (op_clock op) (push c (op_kind op) (target co op (cs_coordinate c)) (state_after (op_kind op))).

Lemma op_permitted s st op cc c :
  time_model_state s = Some st -> timed st -> co_clocks co !! op_clock op = Some cc -> state_clocks st !! op_clock op = Some c ->
  permits co op cc c -> run_op co op s = Ok (with_time_state s (moved op st c)) /\ timed (moved op st c).
Proof.
  intros Hs Hst Hcc Hc Hp.
  destruct (target_moves co op cc c) as [Ht Hm]; [by apply (tst_clock _ _ _ Hst _ _ Hc)|done|].
  destruct (replace_context_run model_json co Hco s st (op_clock op) c (op_kind op) (target co op (cs_coordinate c)))
    as [Hr Hst']; [done..|]. split; [|exact Hst']. fold (moved op st c) in Hr. rewrite <-Hr. clear Hr Hst'.
  pose proof (proj2 (context_of_Ok model_json co s st (op_clock op) c Hs Hst) Hc) as Hctx.
  pose proof (reading_Ok model_json co s st (op_clock op) c Hs Hst Hc) as Hrd.
  destruct op as [k n m|k|k|k to m|k replay]; cbn [run_op op_clock op_kind target permits] in *.
  - destruct Hp as (Hn & Hmi & Hnm & Hrun & p & Hpol & Hstep). unfold advance.
    assert ((n <? 0) || (m <? 0) = false) as -> by (rewrite orb_false_iff, !Z.ltb_ge; lia).
    cbn [raise_if mbind result_bind]. rewrite Hctx. cbn [mbind result_bind]. rewrite Hrun, bool_decide_ne, Hpol.
    cbn [raise_if mbind result_bind]. assert (bool_decide (cp_advancement_mode p = stepped) && bool_decide (Some n <> cp_step_ticks p) = false) as ->.
    { apply andb_false_iff. destruct (decide (cp_advancement_mode p = stepped)) as [Hst'|Hst'];
        [right; rewrite (Hstep Hst'); apply bool_decide_ne|left; by apply bool_decide_false]. }
    cbn [raise_if mbind result_bind]. rewrite Hrd. cbn [mbind result_bind rd_tick rd_microstep rd_segment rd_clock_address reading_of].
    assert ((n =? 0) && (m =? 0) = false) as -> by (rewrite andb_false_iff, !Z.eqb_neq; lia). cbn [raise_if mbind result_bind].
    unfold reading_of. cbn [segment tick microstep]. destruct (decide (n = 0)) as [->|Hne]; [done|].
    by rewrite (proj2 (Z.eqb_neq n 0) Hne).
  - destruct Hp as [Hsup Hrun]. unfold pause, clock_of. rewrite Hcc. cbn [mbind result_bind]. rewrite Hsup.
    cbn [negb raise_if mbind result_bind]. rewrite Hctx. cbn [mbind result_bind]. rewrite Hrun, bool_decide_ne.
    cbn [raise_if mbind result_bind]. by rewrite Hrd.
  - unfold resume. rewrite Hctx. cbn [mbind result_bind]. rewrite Hp, bool_decide_ne. cbn [raise_if mbind result_bind]. by rewrite Hrd.
  - destruct Hp as (Hsup & Hrun & _). unfold jump, clock_of. rewrite Hcc. cbn [mbind result_bind]. rewrite Hsup.
    cbn [negb raise_if mbind result_bind]. rewrite Hctx. cbn [mbind result_bind]. rewrite Hrd. cbn [mbind result_bind]. by rewrite Hrun.
  - destruct Hp as (Hsup & p & Hpol & Hbeh). unfold reset, clock_of. rewrite Hcc. cbn [mbind result_bind]. rewrite Hsup, Hpol.
    cbn [negb raise_if mbind result_bind]. assert (fst (lifecycle_behavior p replay) = false) as ->.
    { unfold lifecycle_behavior. destruct replay; by apply bool_decide_false. }
    cbn [raise_if mbind result_bind]. rewrite Hctx. cbn [mbind result_bind]. rewrite Hrd.
    cbn [mbind result_bind rd_tick rd_microstep rd_segment rd_clock_address reading_of fmap option_fmap option_map].
    unfold lifecycle_behavior. destruct replay; cbn [snd]; [by rewrite decide_False by naive_solver|].
    destruct (decide (cp_reset_behavior p = new_segment_preserve_value)) as [Hpr|Hpr].
    + rewrite bool_decide_true by done. by rewrite decide_True by (split; [reflexivity|f_equal; exact Hpr]).
    + rewrite bool_decide_false by exact Hpr. by rewrite decide_False by (intros [_ [=]]; by apply Hpr).
Qed.

(** What a returning replacement had to satisfy. *)
Lemma replace_context_inv s st k c kind t state s' :
  time_model_state s = Some st -> timed st -> state_clocks st !! k = Some c ->
  replace_context co s c kind (reading_of k t) state = Ok s' -> moves kind (cs_coordinate c) t ->
  coordinate_ok t /\ state = state_after kind.
Proof.
  intros Hs Hst Hc H Hm. destruct (decide (0 <= segment t /\ 0 <= microstep t)) as [Ht|Ht].
  2:{ destruct (replace_context_invalid model_json co s st k c kind t state Hs Hst Hc Ht) as [message Hr]. by rewrite Hr in H. }
  split; [done|]. destruct (decide (state = state_after kind)) as [|Hne]; [done|exfalso].
  rewrite (replace_context_event model_json co s st) in H by done.
  rewrite (push_refused c kind t state) in H; [done| |done|done]. by apply (tst_clock _ _ _ Hst k c).
Qed.

Lemma op_inv s st op s' :
  time_model_state s = Some st -> timed st -> run_op co op s = Ok s' ->
  exists cc c, co_clocks co !! op_clock op = Some cc /\ state_clocks st !! op_clock op = Some c /\ permits co op cc c.
Proof.
  intros Hs Hst H.
  assert (exists c, context_of co s (op_clock op) = Ok c) as [c Hctx].
  { destruct op; cbn [run_op op_clock] in *; unfold advance, pause, resume, jump, reset in H; inv_result;
      repeat case_match; inv_result; eauto. }
  pose proof (proj1 (context_of_Ok model_json co s st (op_clock op) c Hs Hst) Hctx) as Hc.
  destruct (kp_declared _ _ _ (tst_clock _ _ _ Hst _ c Hc)) as (cc & Hcc & _). exists cc, c. split; [done|]. split; [done|].
  pose proof (reading_Ok model_json co s st (op_clock op) c Hs Hst Hc) as Hrd.
  destruct op as [k n m|k|k|k to m|k replay]; cbn [run_op op_clock permits] in *.
  - unfold advance in H. apply bind_Ok in H as ([] & Hnn%raise_if_Ok & H). rewrite Hctx in H. cbn [mbind result_bind] in H.
    apply bind_Ok in H as ([] & Hrun%raise_if_Ok%bool_decide_not_false & H). destruct (co_policies co !! k) as [p|]; [|done].
    apply bind_Ok in H as ([] & Hstep%raise_if_Ok & H). rewrite Hrd in H. cbn [mbind result_bind] in H.
    apply bind_Ok in H as ([] & Hz%raise_if_Ok & _).
    rewrite orb_false_iff, !Z.ltb_ge in Hnn. rewrite andb_false_iff, !Z.eqb_neq in Hz. rewrite andb_false_iff, bool_decide_not_false in Hstep.
    rewrite bool_decide_eq_false in Hstep. split_and!; [lia|lia|lia|done|]. exists p. split; [done|].
    intros Hs'. destruct Hstep as [?|?]; [done|congruence].
  - unfold pause, clock_of in H. rewrite Hcc in H. cbn [mbind result_bind] in H.
    apply bind_Ok in H as ([] & Hsup%raise_if_Ok%negb_false_iff & H). rewrite Hctx in H. cbn [mbind result_bind] in H.
    by apply bind_Ok in H as ([] & Hrun%raise_if_Ok%bool_decide_not_false & H).
  - unfold resume in H. rewrite Hctx in H. cbn [mbind result_bind] in H.
    by apply bind_Ok in H as ([] & Hrun%raise_if_Ok%bool_decide_not_false & H).
  - unfold jump, clock_of in H. rewrite Hcc in H. cbn [mbind result_bind] in H.
    apply bind_Ok in H as ([] & Hsup%raise_if_Ok%negb_false_iff & H). rewrite Hctx in H. cbn [mbind result_bind] in H.
    rewrite Hrd in H. cbn [mbind result_bind rd_clock_address rd_segment reading_of] in H.
    destruct (replace_context_inv s st k c JUMP (Coordinate (segment (cs_coordinate c) + 1) to m) (cs_state c) s')
      as [[_ Hm] Hstate]; [done..|]. done.
  - unfold reset, clock_of in H. rewrite Hcc in H. cbn [mbind result_bind] in H.
    apply bind_Ok in H as ([] & Hsup%raise_if_Ok%negb_false_iff & H). split; [done|].
    destruct (co_policies co !! k) as [p|]; [|done]. apply bind_Ok in H as ([] & Hb%raise_if_Ok & _). exists p. split; [done|].
    unfold lifecycle_behavior in Hb. destruct replay; by apply bool_decide_eq_false in Hb.
Qed.

(** An operation returns exactly when its clock permits it. *)
Lemma run_op_Ok s st op s' :
  time_model_state s = Some st -> timed st ->
  run_op co op s = Ok s' <->
    exists cc c, co_clocks co !! op_clock op = Some cc /\ state_clocks st !! op_clock op = Some c /\ permits co op cc c /\
      s' = with_time_state s (moved op st c).
Proof.
  intros Hs Hst. split.
  - intros H. destruct (op_inv s st op s' Hs Hst H) as (cc & c & Hcc & Hc & Hp). exists cc, c. split_and!; [done..|].
    destruct (op_permitted s st op cc c Hs Hst Hcc Hc Hp) as [Hr _]. rewrite Hr in H. congruence.
  - intros (cc & c & Hcc & Hc & Hp & ->). by apply (op_permitted s st op cc c).
Qed.

Lemma run_op_timed s st op s' : time_model_state s = Some st -> timed st -> run_op co op s = Ok s' ->
  exists c, state_clocks st !! op_clock op = Some c /\ time_model_state s' = Some (moved op st c) /\ ts_other s' = ts_other s /\
    timed (moved op st c) /\ clock_ok c /\ moves (op_kind op) (cs_coordinate c) (target co op (cs_coordinate c)).
Proof.
  intros Hs Hst H. apply (run_op_Ok s st op s' Hs Hst) in H as (cc & c & Hcc & Hc & Hp & ->). exists c.
  pose proof (kp_ok _ _ _ (tst_clock _ _ _ Hst _ c Hc)). split_and!; try done.
  - by apply (op_permitted s st op cc c).
  - by apply (target_moves co op cc c).
Qed.

(** ** Initialization *)

Lemma initial_clock_ok k cc : co_clocks co !! k = Some cc ->
  exists c, initial_clock co k cc = Ok c /\ keeps co k c /\ cs_state c = RUNNING /\ cs_coordinate c = Coordinate 0 0 0 /\ cs_sequence c = 0.
Proof.
  intros Hk. destruct (cok_clock _ Hco k cc Hk) as (Ha & Hka & Hd & Hr). unfold initial_clock.
  set (e := ClockTransition 0 INITIALIZE None (Coordinate 0 0 0) RUNNING).
  change (transition 0 INITIALIZE (Reading k 0 0 0) None) with (Ok e). cbn [mbind result_bind].
  set (c := ClockState k (cc_time_domain_address cc) (cp_address <$> co_policies co !! k) (cc_authority_kind cc) (cc_authority_ref cc)
    RUNNING (resulting e) 0 [e]).
  assert (validate_clock_state c = Ok c) as Hv.
  { apply validate_clock_state_ok. split; [done|]. split; [|reflexivity].
    split_and!; cbn [c cs_clock_address cs_time_domain_address cs_progression_policy_address cs_authority_ref cs_sequence cs_history]; try done.
    destruct (co_policies co !! k) as [p|] eqn:Ep; [|done]. by apply (cok_policy _ Hco k p). }
  exists c. split; [exact Hv|]. split; [|done]. constructor; [by split|done|by exists cc|done].
Qed.

Lemma time_initialize_run s : time_model_state s = None ->
  exists st, initialize model_json co s = Ok (with_time_state s st) /\ timed st /\
    forall k c, state_clocks st !! k = Some c -> cs_state c = RUNNING /\ cs_coordinate c = Coordinate 0 0 0 /\ cs_sequence c = 0.
Proof.
  intros Hs. unfold initialize. rewrite Hs, bool_decide_false by by intros [? ?]. cbn [raise_if mbind result_bind].
  pose (P := fun (pre : list (string * CompiledClock)) (d : dict string RuntimeClockState) => dict_wf d /\ dict_keys d = pre.*1 /\
    forall k c, d !! k = Some c -> keeps co k c /\ cs_state c = RUNNING /\ cs_coordinate c = Coordinate 0 0 0 /\ cs_sequence c = 0).
  destruct (mfold_prefix P (fun contexts kv => c ← initial_clock co kv.1 kv.2; Ok (<[kv.1 := c]> contexts))
    (dict_items (co_clocks co)) (Dict [])) as (d & -> & Hwf & Hkeys & Hall).
  - intros pre [k cc] suf d Hsplit (Hwf & Hkeys & Hall). cbn [fst snd].
    assert (co_clocks co !! k = Some cc) as Hk.
    { apply dict_get_Some; [apply Hco|]. rewrite Hsplit. apply elem_of_app. right. left. }
    destruct (initial_clock_ok k cc Hk) as (c & -> & Hc). cbn [mbind result_bind]. eexists. split; [done|].
    assert (k ∉ pre.*1) as Hnew.
    { pose proof (cok_wf _ Hco) as Hnd. unfold dict_wf, dict_keys in Hnd. rewrite Hsplit, fmap_app, NoDup_app in Hnd.
      destruct Hnd as (_ & Hd & _). intros Hin. apply (Hd k Hin). left. }
    split_and!.
    + by apply dict_wf_set.
    + rewrite dict_keys_set, Hkeys, decide_False by done. by rewrite fmap_app.
    + intros k' c'. rewrite dict_get_set. case_decide as Hkk; [intros [= <-]; by rewrite <-Hkk|apply Hall].
  - split_and!; [constructor|done|done].
  - cbn [mbind result_bind]. set (st := TimeState (canonical_digest model_json (co_declaration co)) d).
    assert (timed st) as Hst by (constructor; [done|done|done|intros k c Hk; by apply Hall]).
    rewrite (timed_state_valid model_json co Hco st Hst). cbn [mbind result_bind]. exists st. split; [done|]. split; [done|].
    intros k c Hk. by destruct (Hall k c Hk) as [_ ?].
Qed.
End ops.
