(* ===== verification/TimeSpec.v ===== *)
(** What the shared-time coordinator promises: its state is always valid and
    bound to its declaration, clocks never run backwards, every lifecycle
    operation is permitted exactly as declared, and a coordinated reset is
    published as a whole or not at all. *)
From S2P Require Import Prelude.
From S2P Require Import Contracts.
From S2P Require Import Addressing.
From S2P Require Import Diagnostics.
From S2P Require Import TimeModel.
From S2P Require Import TimeCompiled.
From S2P Require Import TimeCoordinator.
From S2P Require Import TimeFacts.
From S2P Require Import TimeRun.
From Stdlib Require Import QArith.
Local Open Scope string_scope.
Local Open Scope list_scope.
Local Open Scope Z_scope.

(** ** Steps *)

(** One operation of a coordinator that returned; a refused one leaves the
    snapshot as it is. *)
Definition time_step {O} (co : TimeCoordinator) (s s' : TimedSnapshot O) : Prop := exists op, run_op co op s = Ok s'.

Definition coordinate_le (a b : TimeCoordinate) : Prop := a = b \/ coordinate_ltb a b = true.

Lemma coordinate_ltb_spec a b : coordinate_ltb a b = true <->
  segment a < segment b \/ segment a = segment b /\ (tick a < tick b \/ tick a = tick b /\ microstep a < microstep b).
Proof.
  unfold coordinate_ltb, within_ltb. rewrite !orb_true_iff, !andb_true_iff, !orb_true_iff, !andb_true_iff, !Z.ltb_lt, !Z.eqb_eq. tauto.
Qed.

#[export] Instance coordinate_le_preorder : PreOrder coordinate_le.
Proof.
  split; [by left|]. intros a b c [->|H1] H2; [done|]. destruct H2 as [<-|H2]; [by right|]. right.
  rewrite coordinate_ltb_spec in *. lia.
Qed.

Lemma moves_le kind a b : moves kind a b -> coordinate_le a b.
Proof.
  destruct kind; cbn [moves]; try done.
  - intros [Hs Hw]. right. unfold coordinate_ltb. by rewrite Hs, Z.eqb_refl, Hw, orb_true_r.
  - by intros ->; left.
  - by intros ->; left.
  - intros Hs. right. apply coordinate_ltb_spec. lia.
  - intros Hs. right. apply coordinate_ltb_spec. lia.
  - intros Hs. right. apply coordinate_ltb_spec. lia.
Qed.

Section steps.
Context {O : Type} (model_json : TimeModelDeclaration -> string).
Context (co : TimeCoordinator) (Hco : coordinator_ok co).
Implicit Types (s : TimedSnapshot O) (st : TimeRuntimeState) (c : RuntimeClockState).
Abbreviation timed := (timed_state model_json co).

(** A later state of the same clocks. *)
Definition continues st st' : Prop :=
  declaration_digest st' = declaration_digest st /\ dict_keys (state_clocks st') = dict_keys (state_clocks st) /\
  forall k c, state_clocks st !! k = Some c -> exists c', state_clocks st' !! k = Some c' /\
    coordinate_le (cs_coordinate c) (cs_coordinate c') /\ cs_history c `prefix_of` cs_history c'.

Lemma continues_refl st : continues st st.
Proof. split_and!; [done|done|]. intros k c Hk. by exists c. Qed.

Lemma continues_trans st1 st2 st3 : continues st1 st2 -> continues st2 st3 -> continues st1 st3.
Proof.
  intros (Hd1 & Hk1 & H1) (Hd2 & Hk2 & H2). split_and!; [by rewrite Hd2|by rewrite Hk2|]. intros k c Hk.
  destruct (H1 k c Hk) as (c1 & Hc1 & ? & ?), (H2 k c1 Hc1) as (c2 & ? & ? & ?). exists c2. split_and!; [done|by etrans|by etrans].
Qed.

Lemma moved_continues op st c : state_clocks st !! op_clock op = Some c ->
  moves (op_kind op) (cs_coordinate c) (target co op (cs_coordinate c)) -> continues st (moved co op st c).
Proof.
  intros Hc Hm. split_and!; [done| |].
  - cbn [moved set_clock state_clocks]. rewrite dict_keys_set, decide_True; [done|]. apply dict_get_is_Some. by eexists.
  - intros k c' Hk. cbn [moved set_clock state_clocks]. rewrite dict_get_set. case_decide as Hkk.
    + subst k. assert (c' = c) as -> by congruence. eexists. split; [done|]. cbn [push cs_coordinate cs_history].
      split; [by eapply moves_le|by eexists].
    + exists c'. split_and!; done.
Qed.

Lemma steps_run s s' : rtc (time_step co) s s' -> forall st, time_model_state s = Some st -> timed st ->
  exists st', time_model_state s' = Some st' /\ timed st' /\ ts_other s' = ts_other s /\ continues st st'.
Proof.
  induction 1 as [s|s s1 s2 (op & Hop) _ IH]; intros st Hs Hst; [exists st; split_and!; [done..|apply continues_refl]|].
  destruct (run_op_timed model_json co Hco s st op s1 Hs Hst Hop) as (c & Hc & Hs1 & Ho & Hst1 & _ & Hm).
  destruct (IH _ Hs1 Hst1) as (st2 & ? & ? & Ho2 & ?). exists st2. split_and!; [done|done|congruence|].
  eapply continues_trans; [by apply moved_continues|done].
Qed.

(** Later readback is accepted as a transition. *)
Lemma continues_transition st st' : dict_wf (state_clocks st) -> continues st st' ->
  validate_time_runtime_transition (Some st) (Some st') = Ok tt.
Proof.
  intros Hwf (Hd & Hk & Hc). unfold validate_time_runtime_transition. rewrite Hd, bool_decide_ne. cbn [raise_if mbind result_bind].
  unfold same_keys. rewrite Hk, bool_decide_true by done. cbn [negb raise_if mbind result_bind].
  apply mfold_checks, Forall_forall. intros [k c] Hin. cbn [fst snd].
  destruct (Hc k c) as (c' & Hget & _ & [l Hl]); [by apply dict_get_Some|]. rewrite (proj2 (dict_index_Ok _ _ _) Hget).
  cbn [mbind result_bind]. rewrite Hl, length_app, (proj2 (Nat.ltb_ge _ _)) by lia. cbn [raise_if mbind result_bind].
  rewrite take_app_length. by rewrite bool_decide_ne.
Qed.
End steps.

(** ** A model used by the witnesses *)

Module TimeSample.
(** One simulated domain; a stepped clock that may jump and reset, and an
    external one without a policy. *)
Definition model : CompiledTimeModel :=
  CModel [CDomain "time.domain.scenario" simulated 1 1000 scenario_start participant_visible "scenario time"]
    [CClock "time.clock.main" "time.domain.scenario" authority_runtime "runtime" may_jump true true true "main clock";
     CClock "time.clock.aux" "time.domain.scenario" authority_external "operator" non_decreasing false false false "aux clock"]
    []
    [CPolicy "time.policy.main" "time.clock.main" stepped 1 1 sync_barrier (Some 10) None new_segment_zero
       restore_recorded_advances "ten ticks at a time"]
    [CConstraint "time.constraint.window" window "time.clock.main" ["sdl.nodes.web"] (Some 10) None (Some 100) None None None "open"].

Definition order (l : list string) : list string := l.
Definition dump (d : TimeModelDeclaration) : string := join_dots (dict_keys (clocks d)).

Definition coordinator : TimeCoordinator :=
  match new_coordinator order model with
  | Ok co => co
  | Raise _ => Coordinator model (TimeDeclaration (Dict []) (Dict []) (Dict []) (Dict []) (Dict [])) (Dict []) (Dict [])
  end.

Lemma model_ok : compiled_model model = Ok model.
Proof. vm_compute. reflexivity. Qed.

Lemma coordinator_built : new_coordinator order model = Ok coordinator.
Proof. vm_compute. reflexivity. Qed.

(** The snapshot after a list of operations. *)
Definition after (ops : list clock_op) : result (TimedSnapshot unit) :=
  s ← initialize dump coordinator (Timed tt None); mfold (fun s op => run_op coordinator op s) s ops.
End TimeSample.

(** ** Properties *)

Section properties.
Context {O : Type} (model_json : TimeModelDeclaration -> string) (set_order : list string -> list string).
Context (m : CompiledTimeModel) (co : TimeCoordinator).
Implicit Types (s : TimedSnapshot O).

(** Every state of a run is the timed state of its coordinator. *)
Lemma reached s s0 s1 :
  compiled_model m = Ok m -> new_coordinator set_order m = Ok co -> initialize model_json co s = Ok s0 ->
  rtc (time_step co) s0 s1 ->
  coordinator_ok co /\ exists st1, time_model_state s1 = Some st1 /\ timed_state model_json co st1 /\ ts_other s1 = ts_other s.
Proof.
  intros Hm Hnew Hinit H1. destruct (new_coordinator_ok _ _ _ Hm Hnew) as (Hco & _). split; [done|].
  destruct (time_model_state s) as [st|] eqn:Hs; [unfold initialize in Hinit; by rewrite Hs in Hinit|].
  destruct (time_initialize_run model_json co Hco s Hs) as (st0 & Hr & Hst0 & _). rewrite Hinit in Hr. injection Hr as ->.
  destruct (steps_run model_json co Hco _ _ H1 st0 eq_refl Hst0) as (st1 & ? & ? & Ho & _). exists st1. by rewrite Ho.
Qed.

(** C13: Time state invariant: from initialization on, over every sequence of
    operations, the published state validates with every clock history, is
    accepted as readback of the declaration, and is accepted as a transition
    from every earlier state, so identities and the clock set never change and
    histories are append-only; no other carrier of the snapshot is touched. *)
Theorem time_state_invariant s s0 s1 s2 :
  compiled_model m = Ok m -> new_coordinator set_order m = Ok co -> initialize model_json co s = Ok s0 ->
  rtc (time_step co) s0 s1 -> rtc (time_step co) s1 s2 ->
  exists st1 st2, time_model_state s1 = Some st1 /\ time_model_state s2 = Some st2 /\
    validate_time_state st2 = Ok st2 /\
    (forall k c, state_clocks st2 !! k = Some c -> validate_clock_state c = Ok c) /\
    validate_time_runtime_state model_json (co_declaration co) st2 = Ok tt /\
    validate_time_runtime_transition (Some st1) (Some st2) = Ok tt /\ ts_other s2 = ts_other s.
Proof.
  intros Hm Hnew Hinit H1 H2. destruct (reached s s0 s1 Hm Hnew Hinit H1) as (Hco & st1 & Hs1 & Hst1 & Ho1).
  destruct (steps_run model_json co Hco _ _ H2 st1 Hs1 Hst1) as (st2 & Hs2 & Hst2 & Ho2 & Hc).
  exists st1, st2. split_and!; [done|done|by eapply timed_state_valid| |by eapply timed_state_readback| |by rewrite Ho2].
  - intros k c Hk. by apply (tst_clock _ _ _ Hst2 k c).
  - apply continues_transition; [apply Hst1|done].
Qed.

(** C14: Clocks never run backwards: between any two moments of a run no
    clock's (segment, tick, microstep) decreases lexicographically, whatever
    pauses, jumps, resets and replays happened in between, and its earlier
    history is a prefix of its later one. *)
Theorem clock_monotone s s0 s1 s2 st1 k c :
  compiled_model m = Ok m -> new_coordinator set_order m = Ok co -> initialize model_json co s = Ok s0 ->
  rtc (time_step co) s0 s1 -> rtc (time_step co) s1 s2 -> time_model_state s1 = Some st1 -> state_clocks st1 !! k = Some c ->
  exists st2 c', time_model_state s2 = Some st2 /\ state_clocks st2 !! k = Some c' /\
    coordinate_le (cs_coordinate c) (cs_coordinate c') /\ cs_history c `prefix_of` cs_history c'.
Proof.
  intros Hm Hnew Hinit H1 H2 Hs1 Hk. destruct (reached s s0 s1 Hm Hnew Hinit H1) as (Hco & st1' & Hs1' & Hst1 & _).
  assert (st1' = st1) as -> by congruence.
  destruct (steps_run model_json co Hco _ _ H2 st1 Hs1 Hst1) as (st2 & Hs2 & _ & _ & _ & _ & Hc).
  destruct (Hc k c Hk) as (c' & ? & ? & ?). by exists st2, c'.
Qed.

(** C15: Lifecycle operations are permitted exactly as declared. In every state
    that operations reach from the initialization of a compiled model, an advance, pause, resume, jump, reset or replay returns
    exactly when the clock's declaration, policy and lifecycle state permit
    it; it then moves that clock to the coordinate the operation names and to
    the lifecycle state of its kind, appends one event and leaves every other
    clock alone. *)
Theorem lifecycle_exact s s0 s1 st1 op s' :
  compiled_model m = Ok m -> new_coordinator set_order m = Ok co -> initialize model_json co s = Ok s0 ->
  rtc (time_step co) s0 s1 -> time_model_state s1 = Some st1 ->
  run_op co op s1 = Ok s' <->
  exists cc c, co_clocks co !! op_clock op = Some cc /\ state_clocks st1 !! op_clock op = Some c /\ permits co op cc c /\
    s' = with_time_state s1 (set_clock st1 (op_clock op)
           (push c (op_kind op) (target co op (cs_coordinate c)) (state_after (op_kind op)))).
Proof.
  intros Hm Hnew Hinit H1 Hs1. destruct (reached s s0 s1 Hm Hnew Hinit H1) as (Hco & st1' & Hs1' & Hst1 & _).
  assert (st1' = st1) as -> by congruence. by apply (run_op_Ok model_json).
Qed.

(** Initialization of a snapshot without time state always returns: every
    declared clock runs at (0, 0, 0) with a history of one event, and the
    readback is accepted. A snapshot that has time state is refused. *)
Theorem time_initialize_exact s :
  compiled_model m = Ok m -> new_coordinator set_order m = Ok co ->
  (is_Some (time_model_state s) -> initialize model_json co s = Raise (ValueError "shared time model is already initialized")) /\
  (time_model_state s = None -> exists st, initialize model_json co s = Ok (with_time_state s st) /\
     validate_time_runtime_state model_json (co_declaration co) st = Ok tt /\
     dict_keys (state_clocks st) = dict_keys (co_clocks co) /\
     forall k c, state_clocks st !! k = Some c -> cs_state c = RUNNING /\ cs_coordinate c = Coordinate 0 0 0 /\ cs_sequence c = 0).
Proof.
  intros Hm Hnew. destruct (new_coordinator_ok _ _ _ Hm Hnew) as (Hco & _). split.
  - intros [st Hst]. unfold initialize. by rewrite Hst.
  - intros Hs. destruct (time_initialize_run model_json co Hco s Hs) as (st & Hr & Hst & Hc). exists st.
    split_and!; [done|by eapply timed_state_readback|apply Hst|done].
Qed.

(** A paused clock cannot jump: the transition is recorded as running
    while the lifecycle state is kept, so the validator of the clock state
    refuses what the coordinator built, for every clock that supports both. *)
Theorem paused_jump_refused s s0 s1 st1 k cc c to micro :
  compiled_model m = Ok m -> new_coordinator set_order m = Ok co -> initialize model_json co s = Ok s0 ->
  rtc (time_step co) s0 s1 -> time_model_state s1 = Some st1 ->
  co_clocks co !! k = Some cc -> cc_supports_jump cc = true -> state_clocks st1 !! k = Some c -> cs_state c = PAUSED -> 0 <= micro ->
  jump co s1 k to micro = Raise (ValueError "runtime clock state must equal the final history event").
Proof.
  intros Hm Hnew Hinit H1 Hs1 Hcc Hsup Hk Hp Hmi. destruct (reached s s0 s1 Hm Hnew Hinit H1) as (Hco & st1' & Hs1' & Hst1 & _).
  assert (st1' = st1) as -> by congruence. pose proof (kp_ok _ _ _ (tst_clock _ _ _ Hst1 k c Hk)) as Hok.
  unfold jump, clock_of. rewrite Hcc. cbn [mbind result_bind]. rewrite Hsup. cbn [negb raise_if mbind result_bind].
  rewrite (proj2 (context_of_Ok model_json co s1 st1 k c Hs1 Hst1) Hk). cbn [mbind result_bind].
  rewrite (reading_Ok model_json co s1 st1 k c Hs1 Hst1 Hk). cbn [mbind result_bind].
  change (Reading _ _ to micro) with (reading_of k (Coordinate (segment (cs_coordinate c) + 1) to micro)).
  rewrite (replace_context_event model_json co s1 st1) by (done || destruct Hok as [_ [? ?]]; split; cbn [segment microstep]; lia).
  by rewrite push_refused by (done || by rewrite Hp).
Qed.
End properties.

(** Round trip of the portable contract: a compiled model that projects to
    a declaration is rebuilt from it, absent microsteps filled with zero, and
    the rebuilt model projects to the same declaration again, so the digest
    the coordinator publishes is the digest of the declaration. *)
Theorem contract_round_trip set_order m d :
  compiled_model m = Ok m -> time_model_contract_model set_order m = Ok (Some d) ->
  compiled_time_model_from_contract d = Ok (filled_model m) /\
  time_model_contract_model set_order (filled_model m) = Ok (Some d).
Proof. apply contract_round. Qed.

(** C16: The check of the mapping graph always returns, whatever the order in
    which the sets of targets are iterated: it accepts exactly the mappings
    whose graph has no cycle, and refuses the others with a ValueError. *)
Theorem acyclic_mappings_exact set_order mappings :
  (forall l, set_order l ≡ₚ l) ->
  (acyclic (maps_to mappings) /\ validate_acyclic_mappings set_order mappings = Ok tt) \/
  (~ acyclic (maps_to mappings) /\ exists message, validate_acyclic_mappings set_order mappings = Raise (ValueError message)).
Proof. intros Horder. by apply acyclic_mappings_checks. Qed.

(** ** Conversion *)

Lemma identity_declared so d mp : validate_time_model so d = Ok d -> mp ∈ dict_values (mappings d) ->
  mapping_kind mp = identity_mapping -> mapping_scale mp = unit_ratio /\ offset_ticks mp = 0.
Proof.
  intros Hv Hin Hk. unfold validate_time_model in Hv.
  apply bind_Ok in Hv as ([] & _ & Hv). do 5 (apply bind_Ok in Hv as ([] & _ & Hv)).
  apply bind_Ok in Hv as ([] & _ & Hv). apply bind_Ok in Hv as ([] & Hm & _).
  unfold validate_mapping_references in Hm. apply bind_Ok in Hm as ([] & Hm%mfold_checks & _).
  rewrite Forall_forall in Hm. specialize (Hm mp Hin). cbn beta in Hm.
  apply bind_Ok in Hm as ([] & _ & Hm). apply bind_Ok in Hm as ([] & _ & Hm). unfold validate_identity_mapping in Hm.
  rewrite Hk, bool_decide_ne in Hm. apply bind_Ok in Hm as (? & _ & Hm). apply bind_Ok in Hm as (? & _ & Hm).
  apply bind_Ok in Hm as ([] & _ & Hm%raise_if_Ok). rewrite orb_false_iff, !bool_decide_not_false in Hm. done.
Qed.

Lemma fraction_eq n d : 0 < d -> (fraction n d == inject_Z n * / inject_Z d)%Q.
Proof.
  intros Hd. unfold fraction. rewrite Qred_correct. destruct d as [|p|p]; try lia. cbn [Z.to_pos].
  unfold Qeq, Qmult, Qinv, inject_Z. cbn. lia.
Qed.

(** Conversion between domains is exact: a known mapping converts every
    tick to the rational tick * numerator / denominator + offset, in lowest
    terms and without rounding; distinct ticks stay distinct and in order, and
    an identity mapping converts a tick to itself. *)
Theorem convert_tick_exact set_order m co a mp t1 t2 :
  compiled_model m = Ok m -> new_coordinator set_order m = Ok co -> mapping_of co a = Ok mp ->
  exists q1 q2, convert_tick co a t1 = Ok q1 /\ convert_tick co a t2 = Ok q2 /\ Qred q1 = q1 /\
    (q1 == inject_Z t1 * (inject_Z (cm_scale_numerator mp) / inject_Z (cm_scale_denominator mp)) + inject_Z (cm_offset_ticks mp))%Q /\
    (t1 < t2 <-> (q1 < q2)%Q) /\ (cm_mapping_kind mp = identity_mapping -> q1 = inject_Z t1).
Proof.
  intros Hm Hnew Hmp. destruct (new_coordinator_ok _ _ _ Hm Hnew) as (Hco & Hmodel & HD).
  destruct (cok_mapping _ Hco a mp Hmp) as [Hn Hd]. unfold convert_tick. rewrite Hmp. cbn [mbind result_bind].
  set (q := fun t => Qred (fraction (t * cm_scale_numerator mp) (cm_scale_denominator mp) + inject_Z (cm_offset_ticks mp))).
  assert (forall t, (q t == inject_Z t * (inject_Z (cm_scale_numerator mp) / inject_Z (cm_scale_denominator mp))
    + inject_Z (cm_offset_ticks mp))%Q) as Hq.
  { intros t. unfold q. rewrite Qred_correct, fraction_eq, inject_Z_mult by done. unfold Qdiv. ring. }
  exists (q t1), (q t2). split_and!; [done|done|apply Qred_complete, Qred_correct|apply Hq| |].
  - rewrite !Hq, Qplus_lt_l, Zlt_Qlt.
    apply iff_sym, Qmult_lt_r. apply Qlt_shift_div_l; rewrite ?Qmult_0_l; change 0%Q with (inject_Z 0); by rewrite <-Zlt_Qlt.
  - intros Hk. unfold mapping_of in Hmp. rewrite Hmodel in Hmp.
    destruct (list_find _ (cm_mappings m)) as [[i y]|] eqn:Ef; [|done]. injection Hmp as ->.
    apply list_find_Some in Ef as (Hi%list_elem_of_lookup_2 & _ & _). destruct (compiled_unique m Hm) as (_ & _ & Hnd & _).
    destruct (keyed_get cm_address mapping_contract _ _ mp Hnd (dc_mappings _ _ _ HD) Hi) as (b & Hb & (Hof & _)%mapping_contract_Ok).
    destruct (identity_declared set_order _ b (dc_valid _ _ _ HD)) as [Hs Ho].
    + apply list_elem_of_fmap. exists (cm_address mp, b). split; [done|]. by apply dict_get_Some_in.
    + by rewrite <-Hof in Hk.
    + unfold q. rewrite <-Hof. cbn [compiled_of_mapping cm_scale_numerator cm_scale_denominator cm_offset_ticks]. rewrite Hs, Ho.
      cbn [numerator denominator unit_ratio]. unfold fraction. rewrite Z.mul_1_r. cbn [Z.to_pos].
      transitivity (Qred (inject_Z t1)); [apply Qred_complete; rewrite Qred_correct; unfold inject_Z; ring|].
      unfold inject_Z, Qred. pose proof (Z.ggcd_gcd t1 1) as Hg. pose proof (Z.ggcd_correct_divisors t1 1) as Hdiv.
      destruct (Z.ggcd t1 1) as (g & aa & bb). cbn [fst] in Hg. rewrite Z.gcd_1_r in Hg. subst g. cbn in *.
      destruct Hdiv as [-> Hb1]. f_equal; [lia|]. by rewrite Z.mul_1_l in Hb1; subst bb.
Qed.

(** A coordinated reset is published as a whole or not at all. When the
    backend's participant reset fails, the result is a failure that carries
    the original snapshot, no changed address and the abort diagnostic; when
    it succeeds, the result carries its snapshot and both sets of changes. *)
Theorem coordinated_reset_atomic {O}
    (reset_many : list ParticipantEpisodeResetRequest -> TimedSnapshot O -> result TimeApplyResult)
    (rt : TimeRuntime) k replay requests s r :
  reset_with_participants reset_many rt k replay requests s = Ok r ->
  exists t p, runtime_reset rt k replay s = Ok t /\ reset_many requests (tr_snapshot t) = Ok p /\
    tr_success r = tr_success p /\
    (if tr_success p
     then tr_snapshot r = tr_snapshot p /\ tr_changed_addresses r = py_dedupe (tr_changed_addresses t ++ tr_changed_addresses p)
     else tr_snapshot r = s /\ tr_changed_addresses r = [] /\
          "runtime.coordinated-reset-aborted" ∈ (diag_code <$> tr_diagnostics r)).
Proof.
  unfold reset_with_participants. intros H. apply bind_Ok in H as (t & Ht & H). apply bind_Ok in H as (p & Hp & H).
  exists t, p. split; [done|]. split; [done|]. destruct (tr_success p); cbn [negb] in H; unfold apply_result in H.
  - apply bind_Ok in H as (? & _ & H). apply bind_Ok in H as ([] & _ & [= <-]). done.
  - apply bind_Ok in H as (? & _ & H). apply bind_Ok in H as ([] & _ & [= <-]). split_and!; [done..|].
    cbn [tr_diagnostics]. rewrite fmap_app. apply elem_of_app. right. left.
Qed.

(** Constraints are compiled without their segment, so a declaration that uses
    a later segment is not rebuilt. *)
Example declared_segment_lost :
  let moved := Constraint "time.constraint.late" deadline "time.clock.main" ["sdl.nodes.web"] None (Some (Coordinate 1 5 0)) None None "late" in
  compiled_of_constraint moved = compiled_of_constraint
    (Constraint "time.constraint.late" deadline "time.clock.main" ["sdl.nodes.web"] None (Some (Coordinate 0 5 0)) None None "late").
Proof. reflexivity. Qed.

(** ** Witnesses *)

Module TimeWitness.
Import TimeSample.

Definition unset : TimedSnapshot unit := Timed tt None.
Definition get (ops : list clock_op) : TimedSnapshot unit := match after ops with Ok s => s | Raise _ => unset end.

Definition started : TimedSnapshot unit := get [].
Definition advanced : TimedSnapshot unit := get [OpAdvance "time.clock.main" 10 0].
Definition paused : TimedSnapshot unit := get [OpAdvance "time.clock.main" 10 0; OpPause "time.clock.main"].

Lemma initialized : initialize dump coordinator unset = Ok started.
Proof. vm_compute. reflexivity. Qed.

Lemma started_advanced : rtc (time_step coordinator) started advanced.
Proof. apply rtc_once. exists (OpAdvance "time.clock.main" 10 0). vm_compute. reflexivity. Qed.

Lemma advanced_paused : rtc (time_step coordinator) advanced paused.
Proof. apply rtc_once. exists (OpPause "time.clock.main"). vm_compute. reflexivity. Qed.

(** The state of the paused snapshot and of its main clock. *)
Definition state_of (s : TimedSnapshot unit) : TimeRuntimeState := default (TimeState "" (Dict [])) (time_model_state s).
Definition main_of (s : TimedSnapshot unit) : RuntimeClockState :=
  default (ClockState "" "" None authority_runtime "" RUNNING (Coordinate 0 0 0) 0 []) (state_clocks (state_of s) !! "time.clock.main").
Definition main_clock : CompiledClock :=
  default (CClock "" "" authority_runtime "" strict false false false "") (co_clocks coordinator !! "time.clock.main").
End TimeWitness.

Lemma time_state_invariant_witness :
  exists st2, time_model_state TimeWitness.paused = Some st2 /\ validate_time_state st2 = Ok st2.
Proof.
  destruct (time_state_invariant TimeSample.dump TimeSample.order TimeSample.model TimeSample.coordinator TimeWitness.unset
    TimeWitness.started TimeWitness.advanced TimeWitness.paused) as (st1 & st2 & _ & H2 & Hv & _);
    [apply TimeSample.model_ok|apply TimeSample.coordinator_built|apply TimeWitness.initialized
    |apply TimeWitness.started_advanced|apply TimeWitness.advanced_paused|].
  exists st2. split; [exact H2|exact Hv].
Defined.

Lemma clock_monotone_witness :
  exists st2 c', time_model_state TimeWitness.paused = Some st2 /\ state_clocks st2 !! "time.clock.main" = Some c' /\
    coordinate_le (cs_coordinate (TimeWitness.main_of TimeWitness.advanced)) (cs_coordinate c').
Proof.
  destruct (clock_monotone TimeSample.dump TimeSample.order TimeSample.model TimeSample.coordinator TimeWitness.unset
    TimeWitness.started TimeWitness.advanced TimeWitness.paused (TimeWitness.state_of TimeWitness.advanced) "time.clock.main"
    (TimeWitness.main_of TimeWitness.advanced)) as (st2 & c' & H2 & Hk & Hle & _);
    [apply TimeSample.model_ok|apply TimeSample.coordinator_built|apply TimeWitness.initialized
    |apply TimeWitness.started_advanced|apply TimeWitness.advanced_paused|vm_compute; reflexivity|vm_compute; reflexivity|].
  exists st2, c'. split; [exact H2|]. split; [exact Hk|exact Hle].
Defined.

Lemma lifecycle_exact_witness :
  exists cc c, co_clocks TimeSample.coordinator !! "time.clock.main" = Some cc /\
    state_clocks (TimeWitness.state_of TimeWitness.advanced) !! "time.clock.main" = Some c /\
    permits TimeSample.coordinator (OpPause "time.clock.main") cc c.
Proof.
  destruct (proj1 (lifecycle_exact TimeSample.dump TimeSample.order TimeSample.model TimeSample.coordinator TimeWitness.unset
    TimeWitness.started TimeWitness.advanced (TimeWitness.state_of TimeWitness.advanced) (OpPause "time.clock.main") TimeWitness.paused
    TimeSample.model_ok TimeSample.coordinator_built TimeWitness.initialized TimeWitness.started_advanced eq_refl))
    as (cc & c & Hcc & Hc & Hp & _); [vm_compute; reflexivity|].
  exists cc, c. split; [exact Hcc|]. split; [exact Hc|exact Hp].
Defined.

Lemma time_initialize_exact_witness :
  exists st, initialize TimeSample.dump TimeSample.coordinator TimeWitness.unset = Ok (with_time_state TimeWitness.unset st).
Proof.
  destruct (proj2 (time_initialize_exact TimeSample.dump TimeSample.order TimeSample.model TimeSample.coordinator TimeWitness.unset
    TimeSample.model_ok TimeSample.coordinator_built) eq_refl) as (st & H & _). exists st. exact H.
Defined.

Lemma paused_jump_refused_witness :
  cs_state (TimeWitness.main_of TimeWitness.paused) = PAUSED /\
  jump TimeSample.coordinator TimeWitness.paused "time.clock.main" 50 0 =
    Raise (ValueError "runtime clock state must equal the final history event").
Proof.
  split; [vm_compute; reflexivity|].
  apply (paused_jump_refused TimeSample.dump TimeSample.order TimeSample.model TimeSample.coordinator TimeWitness.unset
    TimeWitness.started TimeWitness.paused (TimeWitness.state_of TimeWitness.paused) "time.clock.main" TimeWitness.main_clock
    (TimeWitness.main_of TimeWitness.paused));
    [apply TimeSample.model_ok|apply TimeSample.coordinator_built|apply TimeWitness.initialized
    |etrans; [apply TimeWitness.started_advanced|apply TimeWitness.advanced_paused]
    |vm_compute; reflexivity|vm_compute; reflexivity|vm_compute; reflexivity|vm_compute; reflexivity|vm_compute; reflexivity|lia].
Defined.

Lemma contract_round_trip_witness :
  compiled_time_model_from_contract (co_declaration TimeSample.coordinator) = Ok (filled_model TimeSample.model).
Proof.
  apply (contract_round_trip TimeSample.order TimeSample.model (co_declaration TimeSample.coordinator));
    [apply TimeSample.model_ok|vm_compute; reflexivity].
Defined.

Lemma acyclic_mappings_exact_witness :
  let back := dict_of_list [("time.mapping.ab", Mapping "time.mapping.ab" "time.domain.a" "time.domain.b" affine_rational unit_ratio 0 "x");
                            ("time.mapping.ba", Mapping "time.mapping.ba" "time.domain.b" "time.domain.a" affine_rational unit_ratio 0 "y")] in
  ~ acyclic (maps_to back).
Proof.
  intros back. destruct (acyclic_mappings_exact (fun l => l) back) as [[_ H]|[H _]]; [reflexivity| |exact H].
  vm_compute in H. discriminate H.
Defined.

(** The model with an evidence domain, a thousand of whose ticks are one of the
    scenario's. *)
Definition mapped_model : CompiledTimeModel :=
  CModel (cm_domains TimeSample.model ++ [CDomain "time.domain.evidence" wall_clock 1 1000000 epoch_unix evidence_only "evidence time"])
    (cm_clocks TimeSample.model)
    [CMapping "time.mapping.evidence" "time.domain.scenario" "time.domain.evidence" affine_rational 1000 1 100 "anchor"]
    (cm_policies TimeSample.model) (cm_constraints TimeSample.model).

Lemma convert_tick_exact_witness :
  exists co q, new_coordinator TimeSample.order mapped_model = Ok co /\ convert_tick co "time.mapping.evidence" 7 = Ok q /\ Qred q = q.
Proof.
  destruct (new_coordinator TimeSample.order mapped_model) as [co|e] eqn:E; [|vm_compute in E; discriminate E].
  destruct (mapping_of co "time.mapping.evidence") as [mp|e] eqn:Emp.
  - destruct (convert_tick_exact TimeSample.order mapped_model co "time.mapping.evidence" mp 7 8) as (q & _ & Hq & _ & Hr & _);
      [vm_compute; reflexivity|exact E|exact Emp|]. exists co, q. split; [reflexivity|]. split; [exact Hq|exact Hr].
  - exfalso. vm_compute in E. injection E as <-. vm_compute in Emp. discriminate Emp.
Defined.

Lemma coordinated_reset_atomic_witness :
  exists r, reset_with_participants (fun _ s => Ok (TimeApplied false s [] []))
      (ReferenceTimeRuntime (Some (co_declaration TimeSample.coordinator)) (Some TimeSample.coordinator))
      "time.clock.main" false [] TimeWitness.advanced = Ok r /\ tr_success r = false.
Proof.
  destruct (reset_with_participants (fun _ s => Ok (TimeApplied false s [] []))
      (ReferenceTimeRuntime (Some (co_declaration TimeSample.coordinator)) (Some TimeSample.coordinator))
      "time.clock.main" false [] TimeWitness.advanced) as [r|e] eqn:E; [|vm_compute in E; discriminate E].
  destruct (coordinated_reset_atomic _ _ _ _ _ _ r E) as (t & p & _ & Hp & Hs & _). exists r. split; [reflexivity|].
  rewrite Hs. injection Hp as <-. reflexivity.
Defined.
