(* ===== verification/ParticipantActivity.v ===== *)
(** Autonomous participant activity: the random controls, the windows a policy
    works in, when the next occurrence is due and which action it takes
    ([raes_runtime/participant_activity.py], [participant_activity_support.py]). *)
From S2P Require Import Prelude.
From S2P Require Import Contracts.
From S2P Require Import RandomStream.
From S2P Require Import TimeModel.
From S2P Require Import TimeCompiled.
From stdpp Require Import pretty.
Local Open Scope string_scope.
Local Open Scope list_scope.
Local Open Scope Z_scope.

(** ** Policies and controls *)

(** The fields of a compiled policy that decide activity. *)
Record ActivityPolicy : Type := Policy {
  ap_address : string;
  ap_progression_policy_address : string;
  ap_profile : string;
  ap_failure_policy : string;
  ap_max_action_attempts : Z;
  ap_action_contract_addresses : list string;
  ap_work_window_addresses : list string;
  ap_pause_window_addresses : list string;
  ap_stochastic_control_ref : string;
  ap_timing_minimum_ticks : Z;
  ap_timing_maximum_ticks : Z;
  ap_outside_window_disposition : string;
  ap_empty_eligible_disposition : string;
  ap_action_candidate_ids : list string;
  ap_action_candidate_weights : list Z;
  ap_action_candidate_dependencies : list (list string);
  ap_action_candidate_retry_failure_classes : list (list string);
  ap_action_candidate_max_retries : list Z;
  ap_action_candidate_cooldown_ticks : list Z;
  ap_max_occurrences : Z;
  ap_max_burst_size : Z;
}.

Inductive RootEntropyModel : Type :=
| PublicEntropy (seed : PublicSeedModel)
| GovernedEntropyRef (reference_id reference_version : string).

Record RandomStreamControlBindingModel : Type := ControlBinding {
  cb_profile_ref_id : string;
  cb_profile_ref_version : option string;
  cb_namespace : string;
  cb_root_entropy : RootEntropyModel;
}.

Record ExperimentStochasticControlModel : Type := StochasticControl {
  sc_control_id : string;
  sc_role : string;
  sc_executable_binding : option RandomStreamControlBindingModel;
}.

Record ParticipantActivityRandomControl : Type := RandomControl {
  rc_control_id : string;
  rc_profile_id : string;
  rc_namespace : string;
  rc_stream_key : list Z;
}.

Definition _PARTICIPANT_PROFILE : string := "blake3-xof-participant-v1".

Record ParticipantActivityTimingSelection : Type := TimingSelection {
  ts_tick : option Z;
  ts_disposition : string;
}.

Record ParticipantActivityDrawContext : Type := DrawContext {
  dc_policy : ActivityPolicy;
  dc_participant_address : string;
  dc_time_segment : Z;
  dc_occurrence_ordinal : Z;
  dc_control : ParticipantActivityRandomControl;
}.

Section draws.
Context `{!RandomPackages}.

Definition resolve_control (resolved : dict string ParticipantActivityRandomControl) (control : ExperimentStochasticControlModel)
    : result (dict string ParticipantActivityRandomControl) :=
  let control_id := sc_control_id control in
  _ ← raise_if (bool_decide (control_id ∈ dict_keys resolved))
    (ValueError ("duplicate participant activity stochastic control " +:+ py_repr control_id));
  if decide (sc_role control <> "agent-policy") then Ok resolved
  else match sc_executable_binding control with
       | None => Raise (ValueError ("agent-policy stochastic control " +:+ py_repr control_id +:+ " requires executable_binding"))
       | Some binding =>
           let profile_id := cb_profile_ref_id binding in
           _ ← raise_if (bool_decide (profile_id <> _PARTICIPANT_PROFILE))
             (ValueError ("agent-policy stochastic control " +:+ py_repr control_id +:+ " requires profile "
                +:+ py_repr _PARTICIPANT_PROFILE));
           match cb_root_entropy binding with
           | GovernedEntropyRef _ _ =>
               Raise (ValueError ("agent-policy stochastic control " +:+ py_repr control_id
                 +:+ " uses governed entropy without a resolver"))
           | PublicEntropy seed =>
               root_entropy ← decode_public_seed seed;
               stream_key ← derive_stream_key profile_id root_entropy;
               Ok (<[control_id := RandomControl control_id profile_id (cb_namespace binding) stream_key]> resolved)
           end
       end.

Definition resolve_participant_activity_controls (controls : list ExperimentStochasticControlModel)
    : result (dict string ParticipantActivityRandomControl) :=
  mfold resolve_control dict_empty controls.

Definition activity_control_for (policy : ActivityPolicy) (controls : dict string ParticipantActivityRandomControl)
    : option ParticipantActivityRandomControl :=
  controls !! ap_stochastic_control_ref policy.

Definition activity_draw_address (policy : ActivityPolicy) (participant_address : string) (time_segment occurrence_ordinal : Z)
    (control : ParticipantActivityRandomControl) (local_coordinate : Z) : result ParticipantStreamAddressModel :=
  validate_participant_stream_address
    (ParticipantStreamAddress (rc_namespace control) (ap_address policy) participant_address time_segment occurrence_ordinal
       "agent-policy" local_coordinate).

Definition draw_activity_integer (context : ParticipantActivityDrawContext) (local_coordinate minimum maximum : Z) : result Z :=
  address ← activity_draw_address (dc_policy context) (dc_participant_address context) (dc_time_segment context)
    (dc_occurrence_ordinal context) (dc_control context) local_coordinate;
  draw ← draw_bounded_integer (rc_profile_id (dc_control context)) (rc_stream_key (dc_control context))
    (ParticipantAddress address) minimum maximum 32;
  match rejection_exhausted draw, value draw with
  | false, Some v => Ok v
  | _, _ => Raise (ValueError "participant activity bounded random draw exhausted")
  end.
End draws.

(** ** Windows *)

Abbreviation coordinate := (Z * Z)%type.

(** The orders of tuples of integers. *)
Definition coord_lt (a b : coordinate) : bool := (a.1 <? b.1) || ((a.1 =? b.1) && (a.2 <? b.2)).
Definition coord_le (a b : coordinate) : bool := (a.1 <? b.1) || ((a.1 =? b.1) && (a.2 <=? b.2)).
Definition range_le (a b : coordinate * coordinate) : Prop :=
  coord_lt a.1 b.1 = true \/ (a.1 = b.1 /\ coord_le a.2 b.2 = true).
#[export] Instance range_le_dec : RelDecision range_le.
Proof. intros a b. unfold range_le. apply _. Defined.

(** [{c.address: c for c in constraints if c.address in addresses}[address]]. *)
Definition window_range (addresses : list string) (time_model : CompiledTimeModel) (address : string)
    : result (coordinate * coordinate) :=
  let selected := dict_of_list ((fun c => (ck_address c, c)) <$>
    List.filter (fun c => bool_decide (ck_address c ∈ addresses)) (cm_constraints time_model)) in
  constraint ← dict_index selected address;
  match ck_start_tick constraint, ck_end_tick constraint with
  | Some start_tick, Some end_tick =>
      Ok ((start_tick, default 0 (ck_start_microstep constraint)), (end_tick, default 0 (ck_end_microstep constraint)))
  | _, _ => Raise (ValueError "participant activity windows require finite start and end ticks")
  end.

Definition _window_ranges (addresses : list string) (time_model : CompiledTimeModel) : result (list (coordinate * coordinate)) :=
  ranges ← mmap (window_range addresses time_model) addresses;
  Ok (merge_sort range_le ranges).

Definition inside (c : coordinate) (range : coordinate * coordinate) : bool :=
  coord_le range.1 c && coord_lt c range.2.

Definition activity_tick_is_eligible (policy : ActivityPolicy) (time_model : CompiledTimeModel) (tick : Z) : result bool :=
  work ← _window_ranges (ap_work_window_addresses policy) time_model;
  pauses ← _window_ranges (ap_pause_window_addresses policy) time_model;
  Ok (existsb (inside (tick, 0)) work && negb (existsb (inside (tick, 0)) pauses)).

(** [n // d] and [n % d]. *)
Definition floor_div (n d : Z) : result Z := if d =? 0 then Raise ZeroDivisionError else Ok (n / d).
Definition floor_mod (n d : Z) : result Z := if d =? 0 then Raise ZeroDivisionError else Ok (n mod d).

Definition _timing_units (ticks : Z) (step_ticks : option Z) : result Z :=
  match step_ticks with Some step => floor_div ticks step | None => Ok ticks end.

Definition _aligned_activity_tick (tick : Z) (step_ticks : option Z) : result Z :=
  match step_ticks with
  | Some step => rest ← floor_mod tick step; Ok (if rest =? 0 then tick else tick + step - rest)
  | None => Ok tick
  end.

(** The first whole tick at or after a coordinate. *)
Definition whole_tick (c : coordinate) : Z := c.1 + (if 0 <? c.2 then 1 else 0).

(** [max(values, default=d)]. *)
Definition py_max_default (values : list Z) (d : Z) : Z :=
  match values with [] => d | v :: values => foldl Z.max v values end.

(** The [while] loop within one work window. *)
Fixpoint window_opening (fuel : nat) (policy : ActivityPolicy) (time_model : CompiledTimeModel) (step_ticks : option Z)
    (window_end : coordinate) (normalized : Z) : result (option Z) :=
  if coord_lt (normalized, 0) window_end then
    eligible ← activity_tick_is_eligible policy time_model normalized;
    if eligible : bool then Ok (Some normalized)
    else match fuel with
         | O => Raise OutOfFuel
         | S fuel =>
             pauses ← _window_ranges (ap_pause_window_addresses policy) time_model;
             let pause_end := py_max_default
               ((fun r => whole_tick r.2) <$> List.filter (inside (normalized, 0)) pauses) (normalized + 1) in
             normalized ← _aligned_activity_tick pause_end step_ticks;
             window_opening fuel policy time_model step_ticks window_end normalized
         end
  else Ok None.

(** The [for] loop over the work windows. *)
Fixpoint next_opening (policy : ActivityPolicy) (time_model : CompiledTimeModel) (candidate : Z) (step_ticks : option Z)
    (work : list (coordinate * coordinate)) : result (option Z) :=
  match work with
  | [] => Ok None
  | (window_start, window_end) :: work =>
      normalized ← _aligned_activity_tick (Z.max candidate (whole_tick window_start)) step_ticks;
      opening ← window_opening (length (ap_pause_window_addresses policy)) policy time_model step_ticks window_end normalized;
      match opening with
      | Some tick => Ok (Some tick)
      | None => next_opening policy time_model candidate step_ticks work
      end
  end.

Definition _next_activity_opening (policy : ActivityPolicy) (time_model : CompiledTimeModel) (candidate : Z) (step_ticks : option Z)
    : result (option Z) :=
  work ← _window_ranges (ap_work_window_addresses policy) time_model;
  next_opening policy time_model candidate step_ticks work.

(** ** Timing and selection *)

(** [next(item for item in items if p(item))]. *)
Definition py_next {A} (p : A -> bool) (l : list A) : result A :=
  match List.find p l with Some a => Ok a | None => Raise StopIteration end.

Section activity.
Context `{!RandomPackages}.

Definition next_activity_timing (policy : ActivityPolicy) (time_model : CompiledTimeModel) (participant_address : string)
    (time_segment occurrence_ordinal current_tick : Z) (control : ParticipantActivityRandomControl)
    : result ParticipantActivityTimingSelection :=
  progression ← py_next (fun item => bool_decide (cp_address item = ap_progression_policy_address policy)) (cm_policies time_model);
  let step_ticks := if decide (cp_advancement_mode progression = stepped) then cp_step_ticks progression else None in
  minimum ← _timing_units (ap_timing_minimum_ticks policy) step_ticks;
  maximum ← _timing_units (ap_timing_maximum_ticks policy) step_ticks;
  interval_units ← draw_activity_integer
    (DrawContext policy participant_address time_segment occurrence_ordinal control) 0 minimum maximum;
  let interval := match step_ticks with Some step => interval_units * step | None => interval_units end in
  let candidate := current_tick + interval in
  eligible ← activity_tick_is_eligible policy time_model candidate;
  if eligible : bool then Ok (TimingSelection (Some candidate) "drawn")
  else if decide (ap_outside_window_disposition policy = "skip") then Ok (TimingSelection None "drawn")
  else
    tick ← _next_activity_opening policy time_model candidate step_ticks;
    Ok (TimingSelection tick "next_opening").

Definition next_activity_tick (policy : ActivityPolicy) (time_model : CompiledTimeModel) (participant_address : string)
    (time_segment occurrence_ordinal current_tick : Z) (control : ParticipantActivityRandomControl) : result (option Z) :=
  selection ← next_activity_timing policy time_model participant_address time_segment occurrence_ordinal current_tick control;
  Ok (ts_tick selection).

(** The first index at which the running sum of weights passes the draw. *)
Fixpoint weighted_index (weights : list Z) (selected cursor : Z) (indices : list Z) : result Z :=
  match indices with
  | [] => Raise (ValueError "participant activity weighted selection did not resolve")
  | index :: indices =>
      weight ← py_index weights index;
      let cursor := cursor + weight in
      if selected <? cursor then Ok index else weighted_index weights selected cursor indices
  end.

Definition select_activity_candidate (policy : ActivityPolicy) (participant_address : string) (time_segment occurrence_ordinal : Z)
    (control : ParticipantActivityRandomControl) (eligible_indices : list Z) : result (option Z) :=
  match eligible_indices with
  | [] => Ok None
  | _ =>
      weights ← mmap (py_index (ap_action_candidate_weights policy)) eligible_indices;
      let total := py_sum weights in
      selected ← draw_activity_integer
        (DrawContext policy participant_address time_segment occurrence_ordinal control) 1 0 (total - 1);
      index ← weighted_index (ap_action_candidate_weights policy) selected 0 eligible_indices;
      Ok (Some index)
  end.
End activity.

(** [activity_attempt_id]. *)
Definition activity_attempt_id (policy_address participant_address episode_id : string)
    (time_segment occurrence_ordinal retry_ordinal : Z) : string :=
  policy_address +:+ ":" +:+ participant_address +:+ ":episode=" +:+ episode_id +:+ ":segment=" +:+ pretty time_segment
    +:+ ":occurrence=" +:+ pretty occurrence_ordinal +:+ ":retry=" +:+ pretty retry_ordinal.
