(* ===== verification/ActivityState.v ===== *)
(** The state a scheduler keeps of one participant's activity
    ([ParticipantAutonomousExecutionStateModel] of
    [raes_contracts/contracts/participant_runtime.py]), its initialization and
    its transitions ([raes_runtime/participant_scheduler_initialization.py],
    [..._activity_state.py], [..._operations.py], [..._reset.py]). *)
From S2P Require Import Prelude.
From S2P Require Import Contracts.
From S2P Require Import RandomStream.
From S2P Require Import TimeModel.
From S2P Require Import TimeCompiled.
From S2P Require Import ParticipantActivity.
From stdpp Require Import pretty.
Local Open Scope string_scope.
Local Open Scope list_scope.
Local Open Scope Z_scope.

Record ExecutionState : Type := State {
  es_policy_address : string;
  es_policy_digest : string;
  es_participant_address : string;
  es_episode_id : string;
  es_participant_implementation_ref : string;
  es_clock_address : string;
  es_time_segment : Z;
  es_lifecycle_state : string;
  es_next_tick : Z;
  es_next_action_index : Z;
  es_attempted_actions : Z;
  es_succeeded_actions : Z;
  es_failed_actions : Z;
  es_in_flight : Z;
  es_last_action_instance_id : option string;
  es_profile : string;
  es_occurrence_ordinal : Z;
  es_current_retry : Z;
  es_burst_position : Z;
  es_burst_size : Z;
  es_next_timing_disposition : string;
  es_last_candidate_id : option string;
  es_completed_candidate_ids : list string;
  es_candidate_cooldown_until : dict string Z;
  es_random_control_id : option string;
  es_random_profile_id : option string;
  es_random_namespace : option string;
}.
#[export] Instance ExecutionState_eq_dec : EqDecision ExecutionState.
Proof. solve_decision. Defined.

Definition V1 : string := "participant-autonomous-execution/v1".
Definition V2 : string := "participant-autonomous-execution/v2".
Definition V3 : string := "participant-autonomous-execution/v3".

(** The truth of an optional string. *)
Definition truthy (o : option string) : bool := match o with Some s => nonempty s | None => false end.

Definition execution_state_fields (s : ExecutionState) : list (string * bool) :=
    [("policy_address", nonempty (es_policy_address s)); ("policy_digest", nonempty (es_policy_digest s));
     ("participant_address", nonempty (es_participant_address s)); ("episode_id", nonempty (es_episode_id s));
     ("participant_implementation_ref", nonempty (es_participant_implementation_ref s));
     ("clock_address", nonempty (es_clock_address s)); ("time_segment", at_least 0 (es_time_segment s));
     ("lifecycle_state", bool_decide (es_lifecycle_state s ∈ ["running"; "paused"; "completed"; "failed"]));
     ("next_tick", at_least 0 (es_next_tick s)); ("next_action_index", at_least 0 (es_next_action_index s));
     ("attempted_actions", at_least 0 (es_attempted_actions s)); ("succeeded_actions", at_least 0 (es_succeeded_actions s));
     ("failed_actions", at_least 0 (es_failed_actions s)); ("in_flight", at_least 0 (es_in_flight s));
     ("profile", bool_decide (es_profile s ∈ [V1; V2; V3]));
     ("occurrence_ordinal", at_least 0 (es_occurrence_ordinal s)); ("current_retry", at_least 0 (es_current_retry s));
     ("burst_position", at_least 0 (es_burst_position s)); ("burst_size", at_least 1 (es_burst_size s));
     ("next_timing_disposition", bool_decide (es_next_timing_disposition s ∈ ["cadence"; "drawn"; "next_opening"]));
     ("completed_candidate_ids", forallb nonempty (es_completed_candidate_ids s));
     ("candidate_cooldown_until", forallb nonempty (dict_keys (es_candidate_cooldown_until s)))].

Definition validate_execution_state (s : ExecutionState) : result ExecutionState :=
  _ ← require_fields (execution_state_fields s);
  _ ← raise_if (es_attempted_actions s <? es_succeeded_actions s + es_failed_actions s)
    (ValueError "terminal autonomous action counts cannot exceed attempted actions");
  let identity := [es_random_control_id s; es_random_profile_id s; es_random_namespace s] in
  _ ← (if decide (es_profile s = V1) then
         raise_if (existsb truthy identity)
           (ValueError "v1 autonomous execution state cannot carry participant random-control identity")
       else raise_if (negb (forallb truthy identity))
           (ValueError "v2 autonomous execution state requires complete participant random-control identity"));
  _ ← raise_if (negb (py_unique (es_completed_candidate_ids s)))
    (ValueError "completed autonomous activity candidate ids must be unique");
  _ ← raise_if (es_attempted_actions s <? es_current_retry s)
    (ValueError "autonomous activity current_retry cannot exceed attempted actions");
  Ok s.

(** ** One occurrence *)

Record DueActionContext : Type := DueContext {
  due_policy : ActivityPolicy;
  due_time_model : CompiledTimeModel;
  due_participant_address : string;
  due_key : string;
  due_current_tick : Z;
  due_cadence_ticks : Z;
  due_activity_control : option ParticipantActivityRandomControl;
}.

(** What an executed action reported. *)
Record ActionReport : Type := Report {
  action_instance_id : string;
  action_succeeded : bool;
  failure_class : option string;
  protocol_failure : bool;
}.

Definition _activity_attempt_is_retryable (context : DueActionContext) (s : ExecutionState) (r : ActionReport) (attempted : Z) : result bool :=
  let policy := due_policy context in
  let index := es_next_action_index s in
  if protocol_failure r then Ok false
  else if action_succeeded r then Ok false
  else
    classes ← py_index (ap_action_candidate_retry_failure_classes policy) index;
    match failure_class r with
    | None => Ok false
    | Some class =>
        if decide (class ∈ classes) then
          max_retries ← py_index (ap_action_candidate_max_retries policy) index;
          Ok ((es_current_retry s <? max_retries) && (attempted <? ap_max_action_attempts policy))
        else Ok false
    end.

Record ActivityProgress : Type := Progress {
  ag_candidate_id : string;
  ag_completed : list string;
  ag_cooldowns : dict string Z;
  ag_occurrence : Z;
  ag_lifecycle : string;
}.

Definition _completed_activity_progress (context : DueActionContext) (s : ExecutionState) (r : ActionReport) (attempted : Z)
    : result ActivityProgress :=
  let policy := due_policy context in
  let index := es_next_action_index s in
  candidate_id ← py_index (ap_action_candidate_ids policy) index;
  let completed := es_completed_candidate_ids s in
  let completed :=
    if action_succeeded r && negb (bool_decide (candidate_id ∈ completed)) then completed ++ [candidate_id] else completed in
  cooldown ← py_index (ap_action_candidate_cooldown_ticks policy) index;
  let cooldowns := <[candidate_id := due_current_tick context + cooldown]> (es_candidate_cooldown_until s) in
  let occurrence := es_occurrence_ordinal s + 1 in
  let lifecycle :=
    if protocol_failure r || (negb (action_succeeded r) && bool_decide (ap_failure_policy policy = "stop")) then "failed"
    else if (ap_max_occurrences policy <=? occurrence) || (ap_max_action_attempts policy <=? attempted) then "completed"
    else es_lifecycle_state s in
  Ok (Progress candidate_id completed cooldowns occurrence lifecycle).

Record ActivitySchedule : Type := Schedule {
  al_lifecycle : string;
  al_next_tick : Z;
  al_burst_position : Z;
  al_burst_size : Z;
  al_timing_disposition : string;
}.

Section transitions.
Context `{!RandomPackages}.

Definition _next_activity_schedule (context : DueActionContext) (s : ExecutionState) (control : ParticipantActivityRandomControl)
    (progress : ActivityProgress) : result ActivitySchedule :=
  let policy := due_policy context in
  let lifecycle := ag_lifecycle progress in
  let next_tick := due_current_tick context in
  let disposition := es_next_timing_disposition s in
  if decide (lifecycle = "running") then
    if es_burst_position s + 1 <? es_burst_size s then
      Ok (Schedule lifecycle next_tick (es_burst_position s + 1) (es_burst_size s) disposition)
    else
      burst_size ← draw_activity_integer
        (DrawContext policy (due_participant_address context) (es_time_segment s) (ag_occurrence progress) control)
        2 1 (ap_max_burst_size policy);
      timing ← next_activity_timing policy (due_time_model context) (due_participant_address context) (es_time_segment s)
        (ag_occurrence progress) (due_current_tick context) control;
      match ts_tick timing with
      | None => Ok (Schedule "completed" next_tick 0 burst_size (ts_disposition timing))
      | Some tick => Ok (Schedule lifecycle tick 0 burst_size (ts_disposition timing))
      end
  else Ok (Schedule lifecycle next_tick (es_burst_position s) (es_burst_size s) disposition).

(** [state.model_copy(update=...)] with the updates of a retry. *)
Definition _activity_retry_state (context : DueActionContext) (s : ExecutionState) (r : ActionReport) (attempted failed : Z)
    : result ExecutionState :=
  candidate_id ← py_index (ap_action_candidate_ids (due_policy context)) (es_next_action_index s);
  Ok (State (es_policy_address s) (es_policy_digest s) (es_participant_address s) (es_episode_id s)
        (es_participant_implementation_ref s) (es_clock_address s) (es_time_segment s) (es_lifecycle_state s)
        (due_current_tick context) (es_next_action_index s) attempted (es_succeeded_actions s) failed (es_in_flight s)
        (Some (action_instance_id r)) (es_profile s) (es_occurrence_ordinal s) (es_current_retry s + 1) (es_burst_position s)
        (es_burst_size s) (es_next_timing_disposition s) (Some candidate_id) (es_completed_candidate_ids s)
        (es_candidate_cooldown_until s) (es_random_control_id s) (es_random_profile_id s) (es_random_namespace s)).

Definition next_activity_occurrence_state (context : DueActionContext) (s : ExecutionState) (r : ActionReport) : result ExecutionState :=
  match due_activity_control context with
  | None => Raise (ValueError "participant activity execution requires a random control")
  | Some control =>
      let attempted := es_attempted_actions s + 1 in
      let failed := es_failed_actions s + (if action_succeeded r then 0 else 1) in
      retryable ← _activity_attempt_is_retryable context s r attempted;
      if retryable : bool then _activity_retry_state context s r attempted failed
      else
        progress ← _completed_activity_progress context s r attempted;
        schedule ← _next_activity_schedule context s control progress;
        Ok (State (es_policy_address s) (es_policy_digest s) (es_participant_address s) (es_episode_id s)
              (es_participant_implementation_ref s) (es_clock_address s) (es_time_segment s) (al_lifecycle schedule)
              (al_next_tick schedule) (es_next_action_index s) attempted
              (es_succeeded_actions s + (if action_succeeded r then 1 else 0)) failed (es_in_flight s)
              (Some (action_instance_id r)) (es_profile s) (ag_occurrence progress) 0 (al_burst_position schedule)
              (al_burst_size schedule) (al_timing_disposition schedule) (Some (ag_candidate_id progress)) (ag_completed progress)
              (ag_cooldowns progress) (es_random_control_id s) (es_random_profile_id s) (es_random_namespace s))
  end.

(** ** Initialization and reset *)

(** Two coordinates of the shared clock, and what identifies the state. *)
Record StateIdentity : Type := Identity {
  id_policy_digest : string;
  id_participant_address : string;
  id_episode_id : string;
  id_participant_implementation_ref : string;
  id_clock_address : string;
}.

(** [cadence]: the first tick and the period of the only cadence constraint. *)
Definition cadence (temporal_constraint_addresses : list string) (time_model : CompiledTimeModel) : result (Z * Z) :=
  match List.filter (fun c => bool_decide (ck_address c ∈ temporal_constraint_addresses) && bool_decide (ck_kind c = TimeModel.cadence))
          (cm_constraints time_model) with
  | [constraint] =>
      match ck_cadence_ticks constraint with
      | Some ticks => Ok (default 0 (ck_start_tick constraint), ticks)
      | None => Raise (ValueError "autonomous participant execution requires exactly one cadence constraint")
      end
  | _ => Raise (ValueError "autonomous participant execution requires exactly one cadence constraint")
  end.

Definition _initial_activity_schedule (policy : ActivityPolicy) (temporal_constraint_addresses : list string)
    (time_model : CompiledTimeModel) (participant_address : string) (segment current_tick : Z)
    (activity_control : option ParticipantActivityRandomControl) : result (option Z * Z * string) :=
  match activity_control with
  | None => first ← cadence temporal_constraint_addresses time_model; Ok (Some first.1, 1, "cadence")
  | Some control =>
      burst_size ← draw_activity_integer (DrawContext policy participant_address segment 0 control) 2 1 (ap_max_burst_size policy);
      timing ← next_activity_timing policy time_model participant_address segment 0 current_tick control;
      Ok (ts_tick timing, burst_size, ts_disposition timing)
  end.

Definition _initial_participant_state (policy : ActivityPolicy) (temporal_constraint_addresses : list string)
    (time_model : CompiledTimeModel) (identity : StateIdentity) (segment current_tick : Z)
    (activity_control : option ParticipantActivityRandomControl) : result ExecutionState :=
  schedule ← _initial_activity_schedule policy temporal_constraint_addresses time_model (id_participant_address identity)
    segment current_tick activity_control;
  let '(first_tick, burst_size, timing_disposition) := schedule in
  validate_execution_state
    (State (ap_address policy) (id_policy_digest identity) (id_participant_address identity) (id_episode_id identity)
       (id_participant_implementation_ref identity) (id_clock_address identity) segment
       (match first_tick with Some _ => "running" | None => "completed" end) (default current_tick first_tick) 0 0 0 0 0 None
       (ap_profile policy) 0 0 0 burst_size timing_disposition None [] dict_empty (rc_control_id <$> activity_control)
       (rc_profile_id <$> activity_control) (rc_namespace <$> activity_control)).

(** The first tick of the cadence from the current tick on. *)
Definition reset_cadence_tick (temporal_constraint_addresses : list string) (time_model : CompiledTimeModel) (current_tick : Z)
    (activity_control : option ParticipantActivityRandomControl) : result Z :=
  match activity_control with
  | Some _ => Ok current_tick
  | None =>
      first ← cadence temporal_constraint_addresses time_model;
      if first.1 <? current_tick then
        periods ← floor_div (current_tick - first.1 + first.2 - 1) first.2; Ok (first.1 + periods * first.2)
      else Ok first.1
  end.

(** The state update of [reset_scheduler_participant]. *)
Definition reset_participant_state (policy : ActivityPolicy) (temporal_constraint_addresses : list string)
    (time_model : CompiledTimeModel) (s : ExecutionState) (participant_address episode_id : string) (segment current_tick : Z)
    (activity_control : option ParticipantActivityRandomControl) : result ExecutionState :=
  cadence_tick ← reset_cadence_tick temporal_constraint_addresses time_model current_tick activity_control;
  schedule ←
    (match activity_control with
     | None => Ok (cadence_tick, "cadence", 1)
     | Some control =>
         burst_size ← draw_activity_integer (DrawContext policy participant_address segment 0 control) 2 1 (ap_max_burst_size policy);
         timing ← next_activity_timing policy time_model participant_address segment 0 current_tick control;
         Ok (default current_tick (ts_tick timing), ts_disposition timing, burst_size)
     end);
  let '(next_tick, timing_disposition, burst_size) := schedule in
  Ok (State (es_policy_address s) (es_policy_digest s) (es_participant_address s) episode_id
        (es_participant_implementation_ref s) (es_clock_address s) segment "running" next_tick 0 0 0 0 0 None (es_profile s)
        0 0 0 burst_size timing_disposition None [] dict_empty (es_random_control_id s) (es_random_profile_id s)
        (es_random_namespace s)).

(** ** The due loop of one participant *)

(** [enumerate(items)]. *)
Fixpoint enumerate_from {A} (i : Z) (l : list A) : list (Z * A) :=
  match l with [] => [] | a :: l => (i, a) :: enumerate_from (i + 1) l end.

(** The filter of a comprehension, where its condition may raise. *)
Fixpoint mfilter {A} (p : A -> result bool) (l : list A) : result (list A) :=
  match l with
  | [] => Ok []
  | a :: l => b ← p a; rest ← mfilter p l; Ok (if b : bool then a :: rest else rest)
  end.

Definition eligible_candidate (policy : ActivityPolicy) (s : ExecutionState) (current_tick : Z) (item : Z * string) : result bool :=
  dependencies ← py_index (ap_action_candidate_dependencies policy) item.1;
  Ok (bool_decide (dependencies ⊆ es_completed_candidate_ids s)
        && (default 0 (es_candidate_cooldown_until s !! item.2) <=? current_tick)).

Definition activity_eligible_indices (policy : ActivityPolicy) (s : ExecutionState) (current_tick : Z) : result (list Z) :=
  eligible ← mfilter (eligible_candidate policy s current_tick) (enumerate_from 0 (ap_action_candidate_ids policy));
  Ok ((fun item : Z * string => item.1) <$> (eligible : list (Z * string))).

Definition _selected_activity_index (context : DueActionContext) (s : ExecutionState) : result (option Z) :=
  if negb (es_current_retry s =? 0) then Ok (Some (es_next_action_index s))
  else match due_activity_control context with
       | None => Raise (ValueError "participant activity execution requires a random control")
       | Some control =>
           eligible ← activity_eligible_indices (due_policy context) s (due_current_tick context);
           select_activity_candidate (due_policy context) (due_participant_address context) (es_time_segment s)
             (es_occurrence_ordinal s) control eligible
       end.

(** [state.model_copy(update={"next_action_index": ...})]. *)
Definition with_action_index (s : ExecutionState) (index : Z) : ExecutionState :=
  State (es_policy_address s) (es_policy_digest s) (es_participant_address s) (es_episode_id s)
    (es_participant_implementation_ref s) (es_clock_address s) (es_time_segment s) (es_lifecycle_state s) (es_next_tick s)
    index (es_attempted_actions s) (es_succeeded_actions s) (es_failed_actions s) (es_in_flight s) (es_last_action_instance_id s)
    (es_profile s) (es_occurrence_ordinal s) (es_current_retry s) (es_burst_position s) (es_burst_size s)
    (es_next_timing_disposition s) (es_last_candidate_id s) (es_completed_candidate_ids s) (es_candidate_cooldown_until s)
    (es_random_control_id s) (es_random_profile_id s) (es_random_namespace s).

Definition _empty_activity_state (context : DueActionContext) (s : ExecutionState) : result ExecutionState :=
  let policy := due_policy context in
  selected_tick ←
    (if decide (ap_empty_eligible_disposition policy = "complete") then Ok None
     else match due_activity_control context with
          | None => Raise (ValueError "participant activity execution requires a random control")
          | Some control =>
              next_activity_tick policy (due_time_model context) (due_participant_address context) (es_time_segment s)
                (es_occurrence_ordinal s) (due_current_tick context) control
          end);
  Ok (State (es_policy_address s) (es_policy_digest s) (es_participant_address s) (es_episode_id s)
        (es_participant_implementation_ref s) (es_clock_address s) (es_time_segment s)
        (match selected_tick : option Z with Some _ => "running" | None => "completed" end)
        (default (due_current_tick context) selected_tick)
        (es_next_action_index s) (es_attempted_actions s) (es_succeeded_actions s) (es_failed_actions s) (es_in_flight s)
        (es_last_action_instance_id s) (es_profile s) (es_occurrence_ordinal s) (es_current_retry s) (es_burst_position s)
        (es_burst_size s) (es_next_timing_disposition s) (es_last_candidate_id s) (es_completed_candidate_ids s)
        (es_candidate_cooldown_until s) (es_random_control_id s) (es_random_profile_id s) (es_random_namespace s)).
End transitions.

(** The fixed cadence of the first profile. *)
Definition _next_action_state (context : DueActionContext) (s : ExecutionState) (r : ActionReport) : result ExecutionState :=
  let policy := due_policy context in
  let attempted := es_attempted_actions s + 1 in
  let lifecycle :=
    if protocol_failure r || (negb (action_succeeded r) && bool_decide (ap_failure_policy policy = "stop")) then "failed"
    else if ap_max_action_attempts policy <=? attempted then "completed"
    else es_lifecycle_state s in
  index ← floor_mod (es_next_action_index s + 1) (py_len (ap_action_contract_addresses policy));
  Ok (State (es_policy_address s) (es_policy_digest s) (es_participant_address s) (es_episode_id s)
        (es_participant_implementation_ref s) (es_clock_address s) (es_time_segment s) lifecycle
        (es_next_tick s + due_cadence_ticks context) index attempted
        (es_succeeded_actions s + (if action_succeeded r then 1 else 0))
        (es_failed_actions s + (if action_succeeded r then 0 else 1)) (es_in_flight s) (Some (action_instance_id r))
        (es_profile s) (es_occurrence_ordinal s) (es_current_retry s) (es_burst_position s) (es_burst_size s)
        (es_next_timing_disposition s) (es_last_candidate_id s) (es_completed_candidate_ids s) (es_candidate_cooldown_until s)
        (es_random_control_id s) (es_random_profile_id s) (es_random_namespace s)).

(** ** Runs *)

(** One pass of the scheduler: the autonomous execution states of its snapshot
    and the rest of it, the addresses it changed and whether it has failed. *)
Record SchedulerRun (W : Type) : Type := Run {
  run_states : dict string ExecutionState;
  run_world : W;
  run_changed : list string;
  run_failure : bool;
}.
Arguments Run {W} _ _ _ _.
Arguments run_states {W} _.
Arguments run_world {W} _.
Arguments run_changed {W} _.
Arguments run_failure {W} _.

(** What a participant runtime returns for an admitted action: the snapshot
    after it, and its outcome. *)
Record ActionApplyResult (W : Type) : Type := ActionResult {
  ar_states : dict string ExecutionState;
  ar_world : W;
  ar_success : bool;
  ar_status : option string;
  ar_failure_class : option string;
  ar_changed_addresses : list string;
}.
Arguments ActionResult {W} _ _ _ _ _ _.
Arguments ar_states {W} _.
Arguments ar_world {W} _.
Arguments ar_success {W} _.
Arguments ar_status {W} _.
Arguments ar_failure_class {W} _.
Arguments ar_changed_addresses {W} _.

(** What the scheduler asks of the participant runtime, of the resource ledger
    and of the history: to bind a request, reserve its resources, admit it,
    check its result beyond the states the scheduler owns, commit what it used,
    annotate its history, and tell a completion of an older generation. A ledger
    operation that answers [false] has recorded a failure of the run. *)
Class ActivityActions (W : Type) : Type := {
  action_request : Type;
  bind_autonomous_action : DueActionContext -> ExecutionState -> string -> W -> result action_request;
  reserve_participant_resources : DueActionContext -> action_request -> W -> result (W * bool);
  admit_action : action_request -> dict string ExecutionState -> W -> result (ActionApplyResult W);
  result_violation : action_request -> ActionApplyResult W -> string -> W -> option string;
  settle_participant_resources : DueActionContext -> action_request -> ActionApplyResult W -> bool -> W -> result (W * bool);
  annotate_activity_history : DueActionContext -> ExecutionState -> action_request -> string -> W -> result W;
  stale_completion : action_request -> W -> bool;
}.

Section due.
Context `{!RandomPackages} {W : Type} `{!ActivityActions W}.

(** The identity of an attempt in [_bound_action_request]. *)
Definition bound_action_instance_id (context : DueActionContext) (s : ExecutionState) : string :=
  let policy := due_policy context in
  if decide (ap_profile policy = V2 \/ ap_profile policy = V3)
  then activity_attempt_id (ap_address policy) (due_participant_address context) (es_episode_id s) (es_time_segment s)
         (es_occurrence_ordinal s) (es_current_retry s)
  else ap_address policy +:+ ":" +:+ due_participant_address context +:+ ":" +:+ pretty (es_attempted_actions s).

(** [_protected_scheduler_state_violation] on the states of the scheduler. *)
Definition _protected_scheduler_state_violation (result : ActionApplyResult W) (predecessor : SchedulerRun W) : option string :=
  if dict_same (ar_states result) (run_states predecessor) then None
  else Some "participant runtime changed scheduler-owned snapshot field participant_autonomous_execution_states".

Definition autonomous_action_result_violation (request : action_request) (result : ActionApplyResult W) (episode_id : string)
    (predecessor : SchedulerRun W) : option string :=
  match _protected_scheduler_state_violation result predecessor with
  | Some violation => Some violation
  | None => result_violation request result episode_id (run_world predecessor)
  end.

(** Whether the result cannot be committed, and the run with its snapshot or the
    predecessor. *)
Definition _record_protocol_result (run : SchedulerRun W) (result : ActionApplyResult W) (violation : option string)
    : SchedulerRun W * bool :=
  match violation with
  | None => (Run (ar_states result) (ar_world result) (run_changed run) (run_failure run), false)
  | Some _ => (run, true)
  end.

Definition with_world (run : SchedulerRun W) (world : W) : SchedulerRun W :=
  Run (run_states run) world (run_changed run) (run_failure run).
Definition extend_changed (run : SchedulerRun W) (addresses : list string) : SchedulerRun W :=
  Run (run_states run) (run_world run) (run_changed run ++ addresses) (run_failure run).
Definition fail_run (run : SchedulerRun W) : SchedulerRun W :=
  Run (run_states run) (run_world run) (run_changed run) true.

Definition persist_activity_state (run : SchedulerRun W) (key : string) (s : ExecutionState) : SchedulerRun W :=
  Run (<[key := s]> (run_states run)) (run_world run) (run_changed run ++ [key]) (run_failure run).

(** Only the third profile is governed by a resource ledger. *)
Definition reserve_activity_resources (context : DueActionContext) (request : action_request) (run : SchedulerRun W)
    : result (SchedulerRun W * bool) :=
  if decide (ap_profile (due_policy context) <> V3) then Ok (run, true)
  else
    reserved ← reserve_participant_resources context request (run_world run);
    let run := with_world run reserved.1 in
    Ok (if (reserved.2 : bool) then run else fail_run run, reserved.2).

Definition commit_activity_resources (context : DueActionContext) (request : action_request) (result : ActionApplyResult W)
    (protocol_failure : bool) (run : SchedulerRun W) : Prelude.result (SchedulerRun W * bool) :=
  if decide (ap_profile (due_policy context) <> V3) then Ok (run, true)
  else
    settled ← settle_participant_resources context request result protocol_failure (run_world run);
    let run := with_world run settled.1 in
    Ok (if (settled.2 : bool) then run else fail_run run, settled.2).

Definition _run_one_activity_action (context : DueActionContext) (s : ExecutionState) (run : SchedulerRun W)
    : result (ExecutionState * SchedulerRun W) :=
  let instance_id := bound_action_instance_id context s in
  request ← bind_autonomous_action context s instance_id (run_world run);
  reserved ← reserve_activity_resources context request run;
  let '(run, admitted) := reserved in
  if negb admitted then Ok (s, run)
  else
    result ← admit_action request (run_states run) (run_world run);
    let violation := autonomous_action_result_violation request result (es_episode_id s) run in
    let '(run, protocol_failure) := _record_protocol_result run result violation in
    committed ← commit_activity_resources context request result protocol_failure run;
    let '(run, settled) := committed in
    if negb settled then Ok (s, run)
    else
      let succeeded := negb protocol_failure && ar_success result && bool_decide (ar_status result = Some "succeeded") in
      world ← (if protocol_failure then Ok (run_world run)
               else annotate_activity_history context s request (default "unknown" (ar_status result)) (run_world run));
      let run := with_world run world in
      next ← next_activity_occurrence_state context s (Report instance_id succeeded (ar_failure_class result) protocol_failure);
      let run := persist_activity_state run (due_key context) next in
      let run := if protocol_failure then run else extend_changed run (ar_changed_addresses result) in
      Ok (next, if decide (es_lifecycle_state next = "failed") then fail_run run else run).

Definition _run_one_due_action (context : DueActionContext) (s : ExecutionState) (run : SchedulerRun W)
    : result (ExecutionState * SchedulerRun W) :=
  let instance_id := bound_action_instance_id context s in
  request ← bind_autonomous_action context s instance_id (run_world run);
  result ← admit_action request (run_states run) (run_world run);
  if stale_completion request (run_world run) then Ok (s, fail_run run)
  else
    let violation := autonomous_action_result_violation request result (es_episode_id s) run in
    let '(run, protocol_failure) := _record_protocol_result run result violation in
    let succeeded := negb protocol_failure && ar_success result && bool_decide (ar_status result = Some "succeeded") in
    next ← _next_action_state context s (Report instance_id succeeded None protocol_failure);
    let run := if protocol_failure then run else extend_changed run (ar_changed_addresses result) in
    let run := persist_activity_state run (due_key context) next in
    let stops := negb succeeded && bool_decide (ap_failure_policy (due_policy context) = "stop") in
    Ok (next, if protocol_failure || stops then fail_run run else run).

(** [_activity_action_is_due], and the same condition of the first profile. *)
Definition action_is_due (context : DueActionContext) (s : ExecutionState) (run : SchedulerRun W) : bool :=
  bool_decide (es_lifecycle_state s = "running") && (es_next_tick s =? due_current_tick context)
  && (es_attempted_actions s <? ap_max_action_attempts (due_policy context)) && (es_in_flight s =? 0) && negb (run_failure run).

Fixpoint activity_due_loop (fuel : nat) (context : DueActionContext) (s : ExecutionState) (run : SchedulerRun W)
    : result (SchedulerRun W) :=
  if action_is_due context s run then
    selected ← _selected_activity_index context s;
    match selected with
    | None => s ← _empty_activity_state context s; Ok (persist_activity_state run (due_key context) s)
    | Some index =>
        match fuel with
        | O => Raise OutOfFuel
        | S fuel =>
            next ← _run_one_activity_action context (with_action_index s index) run;
            activity_due_loop fuel context next.1 next.2
        end
    end
  else Ok run.

Fixpoint cadence_due_loop (fuel : nat) (context : DueActionContext) (s : ExecutionState) (run : SchedulerRun W)
    : result (SchedulerRun W) :=
  if action_is_due context s run then
    match fuel with
    | O => Raise OutOfFuel
    | S fuel => next ← _run_one_due_action context s run; cadence_due_loop fuel context next.1 next.2
    end
  else Ok run.

(** Each iteration attempts an action or fails the run. *)
Definition due_fuel (context : DueActionContext) (s : ExecutionState) : nat :=
  Z.to_nat (ap_max_action_attempts (due_policy context) - es_attempted_actions s) + 1.

Definition run_participant_due (context : DueActionContext) (run : SchedulerRun W) : result (SchedulerRun W) :=
  stored ← dict_index (run_states run) (due_key context);
  s ← validate_execution_state stored;
  if bool_decide (es_lifecycle_state s = "running") && (es_next_tick s <? due_current_tick context) then Ok (fail_run run)
  else if decide (ap_profile (due_policy context) = V2 \/ ap_profile (due_policy context) = V3) then
    activity_due_loop (due_fuel context s) context s run
  else cadence_due_loop (due_fuel context s) context s run.
End due.
