(* ===== verification/ActivityFacts.v ===== *)
(** Lemmas on participant activity: alignment, windows and their next opening,
    the range of draws, weighted selection and the transitions of a state. *)
From S2P Require Import Prelude.
From S2P Require Import Contracts.
From S2P Require Import RandomStream.
From S2P Require Import RandomStreamSpec.
From S2P Require Import TimeModel.
From S2P Require Import TimeCompiled.
From S2P Require Import ParticipantActivity.
From S2P Require Import ActivityState.
Local Open Scope string_scope.
Local Open Scope list_scope.
Local Open Scope Z_scope.

(** ** Coordinates *)

Lemma coord_lt_true a b : coord_lt a b = true <-> a.1 < b.1 \/ (a.1 = b.1 /\ a.2 < b.2).
Proof. unfold coord_lt. rewrite orb_true_iff, andb_true_iff, Z.eqb_eq, !Z.ltb_lt. done. Qed.

Lemma coord_le_true a b : coord_le a b = true <-> a.1 < b.1 \/ (a.1 = b.1 /\ a.2 <= b.2).
Proof. unfold coord_le. rewrite orb_true_iff, andb_true_iff, Z.eqb_eq, Z.ltb_lt, Z.leb_le. done. Qed.

Lemma inside_true c r : inside c r = true <-> coord_le r.1 c = true /\ coord_lt c r.2 = true.
Proof. apply andb_true_iff. Qed.

(** A whole tick is before a coordinate, or not after its start, as integers. *)
Lemma tick_before t c : coord_lt (t, 0) c = true <-> t < whole_tick c.
Proof. rewrite coord_lt_true. unfold whole_tick. cbn [fst snd]. destruct (Z.ltb_spec 0 c.2); lia. Qed.

Lemma tick_after t c : coord_le c (t, 0) = true <-> whole_tick c <= t.
Proof. rewrite coord_le_true. unfold whole_tick. cbn [fst snd]. destruct (Z.ltb_spec 0 c.2); lia. Qed.

Lemma tick_inside t r : inside (t, 0) r = true <-> whole_tick r.1 <= t < whole_tick r.2.
Proof. rewrite inside_true, tick_before, tick_after. done. Qed.

#[local] Instance range_le_trans : Transitive range_le.
Proof.
  intros [[a1 a2] [a3 a4]] [[b1 b2] [b3 b4]] [[c1 c2] [c3 c4]]. unfold range_le. cbn [fst snd].
  rewrite !coord_lt_true, !coord_le_true. cbn [fst snd]. intros [?|[[= -> ->] ?]] [?|[[= -> ->] ?]]; [left; lia|by left|by left|right; split; [done|lia]].
Qed.

#[local] Instance range_le_total : Total range_le.
Proof.
  intros [[a1 a2] [a3 a4]] [[b1 b2] [b3 b4]]. unfold range_le. cbn [fst snd]. rewrite !coord_lt_true, !coord_le_true. cbn [fst snd].
  destruct (decide (a1 = b1)) as [->|]; [destruct (decide (a2 = b2)) as [->|]|]; [|lia..].
  assert (a3 < b3 \/ a3 = b3 /\ a4 <= b4 \/ b3 < a3 \/ b3 = a3 /\ b4 <= a4) as [?|[?|[?|?]]] by lia; auto.
Qed.

Lemma range_le_start a b : range_le a b -> whole_tick a.1 <= whole_tick b.1.
Proof.
  unfold range_le. rewrite coord_lt_true. unfold whole_tick. intros [H|[-> _]]; [|done].
  destruct (Z.ltb_spec 0 a.1.2), (Z.ltb_spec 0 b.1.2); lia.
Qed.

(** ** Alignment *)

Definition step_ok (step : option Z) : Prop := match step with Some s => 1 <= s | None => True end.
Definition aligned (step : option Z) (t : Z) : Prop := match step with Some s => (s | t) | None => True end.

Lemma align_run step t :
  step_ok step -> exists a, _aligned_activity_tick t step = Ok a /\ t <= a /\ aligned step a /\
    forall t', t <= t' -> aligned step t' -> a <= t'.
Proof.
  intros Hs. destruct step as [s|]; cbn [_aligned_activity_tick aligned step_ok] in *; [|by exists t].
  unfold floor_mod. destruct (Z.eqb_spec s 0); [lia|]. cbn [mbind result_bind].
  pose proof (Z.div_mod t s). pose proof (Z.mod_pos_bound t s). destruct (Z.eqb_spec (t mod s) 0) as [Hz|Hz].
  - exists t. split_and!; [done|lia|by apply Z.mod_divide|done].
  - exists (t + s - t mod s). split_and!; [done|lia|exists (t / s + 1); lia|].
    intros t' Hle [q ->]. assert (t / s + 1 <= q); [|nia]. apply Z.le_succ_l. nia.
Qed.

(** ** Windows *)

Section windows.
Context (policy : ActivityPolicy) (time_model : CompiledTimeModel) (step : option Z) (Hstep : step_ok step).
Context (work pauses : list (coordinate * coordinate)).
Context (Hwork : _window_ranges (ap_work_window_addresses policy) time_model = Ok work).
Context (Hpauses : _window_ranges (ap_pause_window_addresses policy) time_model = Ok pauses).

(** Inside some work window and inside no pause. *)
Definition eligible (t : Z) : Prop :=
  (exists w, w ∈ work /\ whole_tick w.1 <= t < whole_tick w.2) /\ forall p, p ∈ pauses -> ~ whole_tick p.1 <= t < whole_tick p.2.

Lemma existsb_inside t l : existsb (inside (t, 0)) l = true <-> exists w, w ∈ l /\ whole_tick w.1 <= t < whole_tick w.2.
Proof. rewrite existsb_exists. split; intros (w & Hw & H); exists w; (split; [by apply list_elem_of_In|by apply tick_inside]). Qed.

Lemma eligible_run t : exists b, activity_tick_is_eligible policy time_model t = Ok b /\ (b = true <-> eligible t).
Proof.
  unfold activity_tick_is_eligible. rewrite Hwork, Hpauses. cbn [mbind result_bind]. eexists. split; [done|].
  rewrite andb_true_iff, negb_true_iff, <-not_true_iff_false, !existsb_inside. unfold eligible. naive_solver.
Qed.

Lemma window_ranges_sorted addresses ranges : _window_ranges addresses time_model = Ok ranges ->
  StronglySorted range_le ranges /\ length ranges = length addresses.
Proof.
  unfold _window_ranges. intros (l & Hl & [= <-])%bind_Ok. split; [apply StronglySorted_merge_sort; apply _|].
  rewrite (Permutation_length (merge_sort_Permutation range_le l)). by apply mmap_length in Hl.
Qed.

(** The pauses that still lie ahead of a tick. *)
Definition ahead (t : Z) : nat := length (List.filter (fun r => t <? whole_tick r.2) pauses).

Lemma filter_length_lt {A} (f g : A -> bool) l x :
  (forall y, f y = true -> g y = true) -> x ∈ l -> g x = true -> f x = false -> (length (List.filter f l) < length (List.filter g l))%nat.
Proof.
  intros Hfg Hx Hg Hf. assert (forall l, (length (List.filter f l) <= length (List.filter g l))%nat) as Hle.
  { intros l'. induction l' as [|y l' IH]; [done|]. cbn [List.filter]. specialize (Hfg y). destruct (f y), (g y); cbn [length]; try lia; by discriminate Hfg. }
  induction l as [|y l IH]; [by apply not_elem_of_nil in Hx|]. cbn [List.filter]. specialize (Hle l). apply elem_of_cons in Hx as [<-|Hx].
  - rewrite Hg, Hf. cbn [length]. lia.
  - specialize (IH Hx). specialize (Hfg y). destruct (f y), (g y); cbn [length]; try lia; by discriminate Hfg.
Qed.

Lemma py_max_default_spec l d : l <> [] -> py_max_default l d ∈ l /\ forall v, v ∈ l -> v <= py_max_default l d.
Proof.
  destruct l as [|v l]; [done|]. intros _. cbn [py_max_default]. revert v. induction l as [|x l IH]; intros v; cbn [foldl].
  - split; [left|]. by intros y ->%list_elem_of_singleton.
  - destruct (IH (Z.max v x)) as [Hin Hle]. split.
    + apply elem_of_cons in Hin as [->|Hin]; [|by do 2 right]. destruct (Z.max_spec v x) as [[_ ->]|[_ ->]]; [right; left|left].
    + intros y [->|[->|Hy]%elem_of_cons]%elem_of_cons; [| |by apply Hle; right]; etrans; [|apply Hle; left| |apply Hle; left]; lia.
Qed.

(** Jumping to the end of the covering pauses skips no eligible tick. *)
Lemma pause_jump t :
  ~ eligible t -> (exists w, w ∈ work /\ whole_tick w.1 <= t < whole_tick w.2) ->
  let pause_end := py_max_default ((fun r => whole_tick r.2) <$> List.filter (inside (t, 0)) pauses) (t + 1) in
  t < pause_end /\ (forall t', t <= t' < pause_end -> ~ eligible t') /\ (forall t', pause_end <= t' -> (ahead t' < ahead t)%nat).
Proof.
  intros Hne Hw pause_end.
  assert (exists p, p ∈ pauses /\ whole_tick p.1 <= t < whole_tick p.2) as (p & Hp & Hin).
  { apply existsb_inside. destruct (existsb (inside (t, 0)) pauses) eqn:E; [done|]. exfalso. apply Hne. split; [done|].
    intros p Hp Hin. apply not_true_iff_false in E. apply E, existsb_inside. by exists p. }
  destruct (py_max_default_spec ((fun r => whole_tick r.2) <$> List.filter (inside (t, 0)) pauses) (t + 1)) as [Hmax Hle].
  { intros Hnil%fmap_nil_inv. assert (p ∈ List.filter (inside (t, 0)) pauses) as Hf by (apply elem_of_bool_filter; split; [done|by apply tick_inside]).
    rewrite Hnil in Hf. by apply not_elem_of_nil in Hf. }
  fold pause_end in Hmax, Hle. apply list_elem_of_fmap in Hmax as (q & Hq & Hqf). apply elem_of_bool_filter in Hqf as [Hqp Hqi].
  apply tick_inside in Hqi. split_and!; [lia| |].
  - intros t' Ht' [_ Hno]. apply (Hno q Hqp). lia.
  - intros t' Ht'. apply (filter_length_lt _ _ _ q); [|done|apply Z.ltb_lt; lia|apply Z.ltb_ge; lia].
    intros y. rewrite !Z.ltb_lt. lia.
Qed.

(** The least eligible aligned tick of one window. *)
Lemma window_opening_run fuel w t :
  w ∈ work -> whole_tick w.1 <= t -> aligned step t -> (ahead t <= fuel)%nat ->
  exists r, window_opening fuel policy time_model step w.2 t = Ok r /\
    match r with
    | Some t' => t <= t' /\ aligned step t' /\ t' < whole_tick w.2 /\ eligible t' /\
        forall t'', t <= t'' < t' -> aligned step t'' -> ~ eligible t''
    | None => forall t'', t <= t'' < whole_tick w.2 -> aligned step t'' -> ~ eligible t''
    end.
Proof.
  intros Hw. revert t. induction fuel as [|fuel IH]; intros t Hstart Hal Hfuel; cbn [window_opening].
  - destruct (coord_lt (t, 0) w.2) eqn:E.
    2: { exists None. split; [done|]. intros t'' Ht. apply not_true_iff_false in E. rewrite tick_before in E. lia. }
    apply tick_before in E. destruct (eligible_run t) as (b & -> & Hb). cbn [mbind result_bind]. destruct b.
    { exists (Some t). split; [done|]. split_and!; [lia|done|done|by apply Hb|lia]. }
    exfalso. destruct (pause_jump t) as (Hlt & _ & Hahead); [by intros ?%Hb|by exists w|].
    specialize (Hahead _ (Z.le_refl _)). lia.
  - destruct (coord_lt (t, 0) w.2) eqn:E.
    2: { exists None. split; [done|]. intros t'' Ht. apply not_true_iff_false in E. rewrite tick_before in E. lia. }
    apply tick_before in E. destruct (eligible_run t) as (b & -> & Hb). cbn [mbind result_bind]. destruct b.
    { exists (Some t). split; [done|]. split_and!; [lia|done|done|by apply Hb|lia]. }
    rewrite Hpauses. cbn [mbind result_bind].
    destruct (pause_jump t) as (Hlt & Hskip & Hahead); [by intros ?%Hb|by exists w|].
    set (pause_end := py_max_default _ _) in *.
    destruct (align_run step pause_end Hstep) as (a & -> & Ha & Haal & Hleast). cbn [mbind result_bind].
    destruct (IH a) as (r & -> & Hr); [lia|done|specialize (Hahead a Ha); lia|]. exists r. split; [done|].
    assert (forall t'', t <= t'' < a -> aligned step t'' -> ~ eligible t'') as Hgap.
    { intros t'' Ht Hal''. destruct (Z.lt_ge_cases t'' pause_end) as [?|Hge]; [apply Hskip; lia|]. specialize (Hleast t'' Hge Hal''). lia. }
    destruct r as [t'|].
    + destruct Hr as (H1 & H2 & H3 & H4 & H5). split_and!; [lia|done|done|done|]. intros t'' Ht Hal''.
      destruct (Z.lt_ge_cases t'' a); [apply Hgap|apply H5]; try done; lia.
    + intros t'' Ht Hal''. destruct (Z.lt_ge_cases t'' a); [apply Hgap|apply Hr]; try done; lia.
Qed.

Lemma ahead_fuel t : (ahead t <= length (ap_pause_window_addresses policy))%nat.
Proof.
  destruct (window_ranges_sorted _ _ Hpauses) as [_ <-]. apply List.filter_length_le.
Qed.

Lemma next_opening_run candidate ws :
  (forall w, w ∈ ws -> w ∈ work) -> StronglySorted range_le ws ->
  exists r, next_opening policy time_model candidate step ws = Ok r /\
    match r with
    | Some t => candidate <= t /\ aligned step t /\ eligible t /\
        forall t', candidate <= t' < t -> aligned step t' -> eligible t' -> forall w, w ∈ ws -> ~ whole_tick w.1 <= t' < whole_tick w.2
    | None => forall t', candidate <= t' -> aligned step t' -> eligible t' -> forall w, w ∈ ws -> ~ whole_tick w.1 <= t' < whole_tick w.2
    end.
Proof.
  induction ws as [|w ws IH]; intros Hin Hsorted; cbn [next_opening].
  { exists None. split; [done|]. by intros t' _ _ _ w ?%not_elem_of_nil. }
  apply StronglySorted_inv in Hsorted as [Hsorted Hfirst]. rewrite Forall_forall in Hfirst. destruct w as [ws1 we1] eqn:Ew.
  destruct (align_run step (Z.max candidate (whole_tick ws1)) Hstep) as (a & -> & Ha & Hal & Hleast). cbn [mbind result_bind].
  destruct (window_opening_run (length (ap_pause_window_addresses policy)) (ws1, we1) a) as (r & Hrun & Hr);
    [apply Hin; left|cbn [fst]; lia|done|apply ahead_fuel|]. cbn [snd] in Hrun. rewrite Hrun. cbn [mbind result_bind].
  assert (forall t', candidate <= t' -> aligned step t' -> whole_tick ws1 <= t' -> a <= t') as Hfrom by (intros t' ? ? ?; apply Hleast; [lia|done]).
  destruct r as [t|].
  - destruct Hr as (H1 & H2 & H3 & H4 & H5). exists (Some t). split; [done|]. split_and!; [lia|done|done|].
    intros t' Ht' Hal' Hel w' Hw' Hin'. assert (whole_tick ws1 <= t') as Hstart.
    { apply elem_of_cons in Hw' as [->|Hw']; [cbn [fst] in Hin'; lia|]. apply Hfirst, range_le_start in Hw'. cbn [fst] in Hw'. lia. }
    apply (H5 t'); [|done..]. split; [|lia]. apply Hfrom; try done; lia.
  - destruct IH as (r & -> & Hr'); [intros w' ?; apply Hin; by right|done|]. exists r. split; [done|].
    assert (forall t', candidate <= t' -> aligned step t' -> eligible t' -> ~ whole_tick ws1 <= t' < whole_tick we1) as Hhead.
    { intros t' Hc Hal' Hel Hin'. apply (Hr t'); [|done..]. split; [apply Hfrom; try done; lia|cbn [snd]; lia]. }
    destruct r as [t|].
    + destruct Hr' as (H1 & H2 & H3 & H4). split_and!; [done|done|done|]. intros t' Ht' Hal' Hel w' [->|Hw']%elem_of_cons; [apply Hhead; try done; lia|].
      by apply H4.
    + intros t' Ht' Hal' Hel w' [->|Hw']%elem_of_cons; [by apply Hhead|by apply Hr'].
Qed.

(** The next opening is the least eligible aligned tick from the candidate on. *)
Lemma next_activity_opening_run candidate :
  exists r, _next_activity_opening policy time_model candidate step = Ok r /\
    match r with
    | Some t => candidate <= t /\ aligned step t /\ eligible t /\ forall t', candidate <= t' < t -> aligned step t' -> ~ eligible t'
    | None => forall t', candidate <= t' -> aligned step t' -> ~ eligible t'
    end.
Proof.
  unfold _next_activity_opening. rewrite Hwork. cbn [mbind result_bind].
  destruct (next_opening_run candidate work) as (r & -> & Hr); [done|by apply (window_ranges_sorted _ _ Hwork)|].
  exists r. split; [done|]. destruct r as [t|].
  - destruct Hr as (H1 & H2 & H3 & H4). split_and!; [done|done|done|]. intros t' Ht' Hal Hel. pose proof Hel as [(w & Hw & Hin) _].
    by apply (H4 t' Ht' Hal Hel w).
  - intros t' Ht' Hal Hel. pose proof Hel as [(w & Hw & Hin) _]. by apply (Hr t' Ht' Hal Hel w).
Qed.
End windows.

(** ** Windows of a declared schedule *)

(** A constraint covers a tick, in the order of the coordinates of the clock. *)
Definition covers (c : CompiledTemporalConstraint) (t : Z) : Prop :=
  match ck_start_tick c, ck_end_tick c with
  | Some s, Some e =>
      (s < t \/ (s = t /\ default 0 (ck_start_microstep c) <= 0)) /\
      (t < e \/ (t = e /\ 0 < default 0 (ck_end_microstep c)))
  | _, _ => False
  end.

(** The addresses name constraints that start and end. *)
Definition windows_resolve (addresses : list string) (time_model : CompiledTimeModel) : Prop :=
  forall a, a ∈ addresses -> exists c, c ∈ cm_constraints time_model /\ ck_address c = a /\ is_Some (ck_start_tick c) /\ is_Some (ck_end_tick c).

Definition covered (addresses : list string) (time_model : CompiledTimeModel) (t : Z) : Prop :=
  exists c, c ∈ cm_constraints time_model /\ ck_address c ∈ addresses /\ covers c t.

Section resolve.
Context (time_model : CompiledTimeModel) (Hnodup : NoDup (ck_address <$> cm_constraints time_model)).

Lemma constraint_unique c c' :
  c ∈ cm_constraints time_model -> c' ∈ cm_constraints time_model -> ck_address c = ck_address c' -> c = c'.
Proof.
  intros [i Hi]%list_elem_of_lookup [j Hj]%list_elem_of_lookup He.
  assert (i = j) as <-; [|congruence].
  eapply NoDup_lookup; [exact Hnodup|by rewrite list_lookup_fmap, Hi|by rewrite list_lookup_fmap, Hj; cbn; rewrite He].
Qed.

Lemma window_range_run addresses c :
  c ∈ cm_constraints time_model -> ck_address c ∈ addresses -> is_Some (ck_start_tick c) -> is_Some (ck_end_tick c) ->
  exists r, window_range addresses time_model (ck_address c) = Ok r /\ forall t, whole_tick r.1 <= t < whole_tick r.2 <-> covers c t.
Proof.
  intros Hc Ha [s Hs] [e He]. unfold window_range.
  set (l := List.filter _ _). assert (NoDup ((fun c => (ck_address c, c)) <$> l).*1) as Hnd.
  { rewrite <-list_fmap_compose. change (NoDup (ck_address <$> l)). revert Hnodup. unfold l. generalize (cm_constraints time_model).
    intros k. induction k as [|x k IH]; [done|]. cbn [List.filter fmap list_fmap]. intros [Hx Hk]%NoDup_cons.
    destruct (bool_decide _); [|by apply IH]. cbn [fmap list_fmap]. constructor; [|by apply IH]. intros (y & Hy & Hin)%list_elem_of_fmap.
    apply Hx, list_elem_of_fmap. exists y. split; [done|]. by apply elem_of_bool_filter in Hin as [? _]. }
  assert (dict_index (dict_of_list ((fun c => (ck_address c, c)) <$> l)) (ck_address c) = Ok c) as ->.
  { apply dict_index_Ok, dict_get_Some; [apply dict_wf_of_list|]. rewrite dict_of_list_items by done.
    apply list_elem_of_fmap. exists c. split; [done|]. apply elem_of_bool_filter. split; [done|by apply bool_decide_eq_true]. }
  cbn [mbind result_bind]. rewrite Hs, He. eexists. split; [done|]. intros t. unfold covers. rewrite Hs, He.
  rewrite <-tick_after, <-tick_before, coord_le_true, coord_lt_true. cbn [fst snd]. lia.
Qed.

Lemma window_ranges_run addresses :
  windows_resolve addresses time_model ->
  exists ranges, _window_ranges addresses time_model = Ok ranges /\
    forall t, (exists r, r ∈ ranges /\ whole_tick r.1 <= t < whole_tick r.2) <-> covered addresses time_model t.
Proof.
  intros Hres. assert (exists ranges, mmap (window_range addresses time_model) addresses = Ok ranges) as [ranges Hr].
  { assert (forall a, a ∈ addresses -> exists r, window_range addresses time_model a = Ok r) as Hall.
    { intros a Ha. destruct (Hres a Ha) as (c & Hc & <- & Hs & He). destruct (window_range_run addresses c) as (r & Hr & _); try done. by exists r. }
    revert Hall. generalize (window_range addresses time_model). clear Hres. intros f Hf.
    induction addresses as [|a l IH]; [by exists []|]. destruct (Hf a) as [r Hr]; [left|]. destruct IH as [rs Hrs]; [intros; apply Hf; by right|].
    exists (r :: rs). cbn [mmap]. by rewrite Hr; cbn [mbind result_bind]; rewrite Hrs. }
  exists (merge_sort range_le ranges). unfold _window_ranges. rewrite Hr. split; [done|]. intros t.
  apply mmap_Forall2 in Hr. split.
  - intros (r & Hin & Ht). rewrite (merge_sort_Permutation range_le ranges) in Hin. apply list_elem_of_lookup in Hin as [i Hi].
    destruct (Forall2_lookup_r _ _ _ _ _ Hr Hi) as (a & Ha & Hra). assert (a ∈ addresses) as Hina by (apply list_elem_of_lookup; by exists i).
    destruct (Hres a Hina) as (c & Hc & <- & Hs & He).
    destruct (window_range_run addresses c) as (r' & Hr' & Hcov); try done. rewrite Hra in Hr'. injection Hr' as <-.
    exists c. split_and!; [done|done|by apply Hcov].
  - intros (c & Hc & Hina & Hcov). destruct (Hres _ Hina) as (c' & Hc' & Heq & Hs & He). apply constraint_unique in Heq as ->; [|done..].
    destruct (window_range_run addresses c) as (r & Hrun & Hiff); try done.
    pose proof Hina as [i Hi]%list_elem_of_lookup. destruct (Forall2_lookup_l _ _ _ _ _ Hr Hi) as (r' & Hr' & Hra).
    rewrite Hrun in Hra. injection Hra as <-. exists r. split; [|by apply Hiff].
    rewrite (merge_sort_Permutation range_le ranges). apply list_elem_of_lookup. by exists i.
Qed.
End resolve.

(** ** Draws *)

Section draws.
Context `{!RandomPackages}.

Lemma draw_attempts_range remaining i profile_id key a minimum width byte_width d :
  1 <= width -> draw_attempts remaining i profile_id key a minimum width byte_width = Ok d ->
  match value d with Some v => minimum <= v < minimum + width | None => True end.
Proof.
  intros Hw. revert i. induction remaining as [|n IH]; intros i; cbn [draw_attempts]; [by intros [= <-]|].
  intros (chunk & _ & Hd)%bind_Ok. destruct (_ <? _); [|by apply IH in Hd]. injection Hd as <-. cbn [value].
  pose proof (Z.mod_pos_bound (int_from_bytes chunk) width). lia.
Qed.

Lemma draw_activity_range context local minimum maximum u :
  draw_activity_integer context local minimum maximum = Ok u -> minimum <= u <= maximum.
Proof.
  unfold draw_activity_integer. intros (a & _ & Hu)%bind_Ok. apply bind_Ok in Hu as (d & Hd & Hu).
  unfold draw_bounded_integer in Hd. apply bind_Ok in Hd as ([] & _ & Hd). apply bind_Ok in Hd as ([] & Hle & Hd).
  apply raise_if_Ok, Z.ltb_ge in Hle. apply bind_Ok in Hd as ([] & _ & Hd). apply bind_Ok in Hd as (bw & _ & Hd).
  apply draw_attempts_range in Hd; [|lia]. destruct (rejection_exhausted d), (value d) as [v|]; try done. injection Hu as ->. lia.
Qed.

(** ** Weighted selection *)

Definition weight_at (weights : list Z) (i : Z) : Z := match py_index weights i with Ok w => w | Raise _ => 0 end.

Context (weights : list Z) (Hpos : Forall (fun w => 1 <= w) weights).
Definition indexed (i : Z) : Prop := 0 <= i < py_len weights.

Lemma weight_at_run i : indexed i -> py_index weights i = Ok (weight_at weights i) /\ 1 <= weight_at weights i.
Proof.
  unfold indexed, weight_at, py_index. intros Hi. rewrite (proj2 (Z.ltb_ge i 0)) by lia. rewrite (proj2 (Z.ltb_ge i 0)) by lia.
  destruct (weights !! Z.to_nat i) as [w|] eqn:E; [|apply lookup_ge_None in E; unfold py_len in Hi; lia].
  split; [done|]. by apply (Forall_lookup_1 _ _ _ _ Hpos E).
Qed.

Lemma weights_run indices : Forall indexed indices -> mmap (py_index weights) indices = Ok (weight_at weights <$> indices).
Proof. intros Hidx. apply mmap_Ok_Forall. intros i Hi. rewrite Forall_forall in Hidx. by apply weight_at_run, Hidx. Qed.

(** Every draw below the total selects the index whose share it falls into. *)
Lemma weighted_index_run indices cursor selected :
  Forall indexed indices -> cursor <= selected < cursor + py_sum (weight_at weights <$> indices) ->
  exists i, weighted_index weights selected cursor indices = Ok i /\ i ∈ indices.
Proof.
  revert cursor. induction indices as [|i indices IH]; intros cursor Hidx Hsel; [cbn in Hsel; lia|].
  apply Forall_cons in Hidx as [Hi Hidx]. cbn [weighted_index]. destruct (weight_at_run i Hi) as [-> Hw]. cbn [mbind result_bind].
  cbn [fmap list_fmap] in Hsel. rewrite py_sum_cons in Hsel. destruct (Z.ltb_spec selected (cursor + weight_at weights i)).
  - exists i. split; [done|left].
  - destruct (IH (cursor + weight_at weights i)) as (j & Hj & Hin); [done|lia|]. exists j. split; [done|by right].
Qed.

Definition selects (indices : list Z) (cursor i selected : Z) : bool :=
  match weighted_index weights selected cursor indices with Ok j => j =? i | Raise _ => false end.

Lemma weighted_index_count indices cursor i :
  NoDup indices -> Forall indexed indices -> i ∈ indices ->
  length (List.filter (selects indices cursor i) (seqZ cursor (py_sum (weight_at weights <$> indices)))) = Z.to_nat (weight_at weights i).
Proof.
  revert cursor. induction indices as [|j indices IH]; intros cursor Hnd Hidx Hi; [by apply not_elem_of_nil in Hi|].
  apply NoDup_cons in Hnd as [Hj Hnd]. apply Forall_cons in Hidx as [Hjx Hidx]. destruct (weight_at_run j Hjx) as [Hwj Hw].
  cbn [fmap list_fmap]. rewrite py_sum_cons. change (list_fmap Z Z (weight_at weights) indices) with (weight_at weights <$> indices).
  assert (0 <= py_sum (weight_at weights <$> indices)) as Hsum.
  { apply py_sum_nonneg. apply Forall_fmap, Forall_forall. intros k Hk. rewrite Forall_forall in Hidx. apply Hidx, weight_at_run in Hk as [_ ?]. cbn. lia. }
  rewrite seqZ_app, List.filter_app, length_app by lia.
  assert (forall r, r ∈ seqZ cursor (weight_at weights j) -> selects (j :: indices) cursor i r = (j =? i)) as Hhead.
  { intros r Hr%elem_of_seqZ. unfold selects. cbn [weighted_index]. rewrite Hwj. cbn [mbind result_bind]. by rewrite (proj2 (Z.ltb_lt r _)) by lia. }
  assert (forall r, r ∈ seqZ (cursor + weight_at weights j) (py_sum (weight_at weights <$> indices)) ->
    selects (j :: indices) cursor i r = selects indices (cursor + weight_at weights j) i r) as Htail.
  { intros r Hr%elem_of_seqZ. unfold selects. cbn [weighted_index]. rewrite Hwj. cbn [mbind result_bind]. by rewrite (proj2 (Z.ltb_ge r _)) by lia. }
  rewrite (List.filter_ext_in _ _ _ (fun r Hr => Htail r (proj2 (list_elem_of_In _ _) Hr))).
  destruct (Z.eqb_spec j i) as [->|Hne].
  - rewrite (List.filter_ext_in _ (fun _ => true) _ (fun r Hr => Hhead r (proj2 (list_elem_of_In _ _) Hr))).
    rewrite (bool_filter_none (selects indices _ i)).
    + rewrite (List.forallb_filter_id (fun _ => true)) by (apply forallb_forall; done). rewrite length_seqZ. cbn [length]. lia.
    + intros r Hr%elem_of_seqZ. unfold selects. destruct (weighted_index_run indices (cursor + weight_at weights i) r) as (k & -> & Hk); [done|lia|].
      apply Z.eqb_neq. by intros ->.
  - rewrite bool_filter_none by (intros r Hr; by rewrite (Hhead r Hr)). apply elem_of_cons in Hi as [->|Hi]; [done|]. by rewrite IH.
Qed.
End draws.

(** ** Ready candidates *)

Lemma mfilter_run {A} (p : A -> result bool) (q : A -> bool) l :
  (forall a, a ∈ l -> p a = Ok (q a)) -> mfilter p l = Ok (List.filter q l).
Proof.
  induction l as [|a l IH]; intros Hp; [done|]. cbn [mfilter List.filter]. rewrite Hp by left. cbn [mbind result_bind].
  rewrite IH by (intros; apply Hp; by right). cbn [mbind result_bind]. by destruct (q a).
Qed.

Lemma elem_of_enumerate_from {A} k (l : list A) i a :
  (i, a) ∈ enumerate_from k l <-> k <= i /\ l !! Z.to_nat (i - k) = Some a.
Proof.
  revert k. induction l as [|b l IH]; intros k; cbn [enumerate_from].
  - rewrite elem_of_nil, lookup_nil. naive_solver.
  - rewrite elem_of_cons, IH. split.
    + intros [[= -> ->]|[Hk Hl]]; [by rewrite Z.sub_diag|]. split; [lia|].
      replace (Z.to_nat (i - k)) with (S (Z.to_nat (i - (k + 1)))) by lia. done.
    + intros [Hk Hl]. destruct (Z.eq_dec i k) as [->|]; [rewrite Z.sub_diag in Hl; injection Hl as ->; by left|]. right. split; [lia|].
      replace (Z.to_nat (i - k)) with (S (Z.to_nat (i - (k + 1)))) in Hl by lia. done.
Qed.

Lemma enumerate_from_sorted {A} k (l : list A) : StronglySorted Z.lt (enumerate_from k l).*1.
Proof.
  revert k. induction l as [|b l IH]; intros k; cbn [enumerate_from fmap list_fmap fst]; constructor; [done|].
  apply Forall_forall. intros i ([j a] & -> & Hin)%list_elem_of_fmap. apply elem_of_enumerate_from in Hin as [? _]. cbn. lia.
Qed.

Lemma filter_sorted {A} (f : A -> Z) (p : A -> bool) l : StronglySorted Z.lt (f <$> l) -> StronglySorted Z.lt (f <$> List.filter p l).
Proof.
  induction l as [|a l IH]; [done|]. cbn [fmap list_fmap List.filter]. intros [Hs Ha]%StronglySorted_inv.
  destruct (p a); [|by apply IH]. cbn [fmap list_fmap]. constructor; [by apply IH|].
  apply Forall_forall. intros i (b & -> & Hin)%list_elem_of_fmap. rewrite Forall_forall in Ha. apply Ha, list_elem_of_fmap.
  exists b. split; [done|]. by apply elem_of_bool_filter in Hin as [? _].
Qed.

Lemma sorted_lt_NoDup l : StronglySorted Z.lt l -> NoDup l.
Proof. induction 1 as [|a l _ IH Ha]; constructor; [|done]. rewrite Forall_forall in Ha. intros Hin%Ha. lia. Qed.

Section ready.
Context (policy : ActivityPolicy) (s : ExecutionState) (tick : Z).
Context (Hlen : length (ap_action_candidate_dependencies policy) = length (ap_action_candidate_ids policy)).

(** What a candidate depends on is completed and its cooldown is over. *)
Definition candidate_ready (i : Z) : Prop :=
  exists id deps, ap_action_candidate_ids policy !! Z.to_nat i = Some id /\ ap_action_candidate_dependencies policy !! Z.to_nat i = Some deps /\
    (forall d, d ∈ deps -> d ∈ es_completed_candidate_ids s) /\ default 0 (es_candidate_cooldown_until s !! id) <= tick.

Lemma eligible_indices_run :
  exists indices, activity_eligible_indices policy s tick = Ok indices /\ StronglySorted Z.lt indices /\
    forall i, i ∈ indices <-> 0 <= i /\ candidate_ready i.
Proof.
  set (q (item : Z * string) := bool_decide (default [] (ap_action_candidate_dependencies policy !! Z.to_nat item.1) ⊆ es_completed_candidate_ids s)
    && (default 0 (es_candidate_cooldown_until s !! item.2) <=? tick)).
  assert (forall item, item ∈ enumerate_from 0 (ap_action_candidate_ids policy) -> exists deps,
    0 <= item.1 /\ ap_action_candidate_ids policy !! Z.to_nat item.1 = Some item.2 /\
    ap_action_candidate_dependencies policy !! Z.to_nat item.1 = Some deps) as Hitem.
  { intros [i id] [Hi Hid]%elem_of_enumerate_from. rewrite Z.sub_0_r in Hid. cbn [fst snd].
    destruct (lookup_lt_is_Some_2 (ap_action_candidate_dependencies policy) (Z.to_nat i)) as [deps Hdeps]; [|by exists deps].
    rewrite Hlen. by apply lookup_lt_Some in Hid. }
  unfold activity_eligible_indices. rewrite (mfilter_run _ q).
  2: { intros item Hin. destruct (Hitem item Hin) as (deps & Hi & _ & Hdeps). unfold eligible_candidate.
    rewrite (proj2 (py_index_lookup _ _ deps Hi) Hdeps). cbn [mbind result_bind]. unfold q. by rewrite Hdeps. }
  cbn [mbind result_bind]. eexists. split; [done|]. split; [apply filter_sorted, enumerate_from_sorted|].
  intros i. rewrite list_elem_of_fmap. split.
  - intros ([j id] & -> & [Hin Hq]%elem_of_bool_filter). cbn [fst]. destruct (Hitem _ Hin) as (deps & Hj & Hid & Hdeps). cbn [fst snd] in *.
    unfold q in Hq. cbn [fst snd] in Hq. rewrite Hdeps in Hq. apply andb_true_iff in Hq as [Hsub%bool_decide_eq_true Hcool%Z.leb_le].
    split; [done|]. by exists id, deps.
  - intros (Hi & id & deps & Hid & Hdeps & Hsub & Hcool). exists (i, id). split; [done|]. apply elem_of_bool_filter. split.
    + apply elem_of_enumerate_from. rewrite Z.sub_0_r. done.
    + unfold q. cbn [fst snd]. rewrite Hdeps. apply andb_true_iff. split; [by apply bool_decide_eq_true|by apply Z.leb_le].
Qed.
End ready.

(** ** Timing *)

(** The step of a clock that advances in steps. *)
Definition step_of (p : CompiledTimeProgressionPolicy) : option Z :=
  if decide (cp_advancement_mode p = stepped) then cp_step_ticks p else None.

(** The participant works at a tick: a work window covers it, no pause does. *)
Definition works_at (policy : ActivityPolicy) (time_model : CompiledTimeModel) (t : Z) : Prop :=
  covered (ap_work_window_addresses policy) time_model t /\ ~ covered (ap_pause_window_addresses policy) time_model t.

(** The timing of an occurrence, from one drawn interval. *)
Lemma next_activity_timing_run `{!RandomPackages} policy time_model participant_address segment occurrence current control progression :
  NoDup (ck_address <$> cm_constraints time_model) ->
  windows_resolve (ap_work_window_addresses policy) time_model -> windows_resolve (ap_pause_window_addresses policy) time_model ->
  List.find (fun p => bool_decide (cp_address p = ap_progression_policy_address policy)) (cm_policies time_model) = Some progression ->
  step_ok (step_of progression) ->
  let units ticks := match step_of progression with Some s => ticks / s | None => ticks end in
  let scale n := match step_of progression with Some s => n * s | None => n end in
  let timing := next_activity_timing policy time_model participant_address segment occurrence current control in
  match draw_activity_integer (DrawContext policy participant_address segment occurrence control) 0
          (units (ap_timing_minimum_ticks policy)) (units (ap_timing_maximum_ticks policy)) with
  | Raise e => timing = Raise e
  | Ok n =>
      let candidate := current + scale n in
      units (ap_timing_minimum_ticks policy) <= n <= units (ap_timing_maximum_ticks policy) /\
      ((works_at policy time_model candidate /\ timing = Ok (TimingSelection (Some candidate) "drawn")) \/
       (~ works_at policy time_model candidate /\ ap_outside_window_disposition policy = "skip" /\
          timing = Ok (TimingSelection None "drawn")) \/
       (~ works_at policy time_model candidate /\ ap_outside_window_disposition policy <> "skip" /\
          exists opening, timing = Ok (TimingSelection opening "next_opening") /\
          match opening with
          | Some t => candidate < t /\ aligned (step_of progression) t /\ works_at policy time_model t /\
              forall t', candidate <= t' < t -> aligned (step_of progression) t' -> ~ works_at policy time_model t'
          | None => forall t', candidate <= t' -> aligned (step_of progression) t' -> ~ works_at policy time_model t'
          end))
  end.
Proof.
  intros Hnd Hwork Hpauses Hfind Hstep units scale timing.
  destruct (window_ranges_run time_model Hnd _ Hwork) as (work & Hw & Hwc), (window_ranges_run time_model Hnd _ Hpauses) as (pauses & Hp & Hpc).
  assert (forall t, eligible work pauses t <-> works_at policy time_model t) as Hel.
  { intros t. unfold eligible, works_at. rewrite Hwc, <-Hpc. naive_solver. }
  assert (forall ticks, _timing_units ticks (step_of progression) = Ok (units ticks)) as Hunits.
  { intros ticks. unfold _timing_units, units, floor_div. destruct (step_of progression) as [s|]; [|done]. cbn in Hstep.
    by destruct (Z.eqb_spec s 0); [lia|]. }
  unfold timing, next_activity_timing, py_next. rewrite Hfind. cbn [mbind result_bind]. fold (step_of progression).
  rewrite !Hunits. cbn [mbind result_bind]. destruct (draw_activity_integer _ 0 _ _) as [n|e] eqn:Hdraw; [|done]. cbn [mbind result_bind].
  split; [by apply draw_activity_range in Hdraw|]. fold (scale n).
  destruct (eligible_run policy time_model work pauses Hw Hp (current + scale n)) as (b & -> & Hb). cbn [mbind result_bind].
  rewrite Hel in Hb. destruct b; [left; split; [by apply Hb|done]|]. right.
  assert (~ works_at policy time_model (current + scale n)) as Hno by by intros ?%Hb.
  destruct (decide (ap_outside_window_disposition policy = "skip")); [by left|]. right. split_and!; [done..|].
  destruct (next_activity_opening_run policy time_model _ Hstep work pauses Hw Hp (current + scale n)) as (r & -> & Hr).
  exists r. split; [done|]. destruct r as [t|]; setoid_rewrite Hel in Hr; [|done]. destruct Hr as (H1 & H2 & H3 & H4).
  split_and!; [|done..]. assert (current + scale n <> t) by (by intros <-). lia.
Qed.
