(* ===== verification/ActivityDue.v ===== *)
(** Lemmas on one pass over a due participant: what a transition keeps of a
    stored state, which exceptions come from outside, and the due loops. *)
From S2P Require Import Prelude.
From S2P Require Import Contracts.
From S2P Require Import RandomStream.
From S2P Require Import TimeModel.
From S2P Require Import TimeCompiled.
From S2P Require Import ParticipantActivity.
From S2P Require Import ActivityState.
From S2P Require Import ActivityFacts.
Local Open Scope string_scope.
Local Open Scope list_scope.
Local Open Scope Z_scope.

(** ** Valid states *)

(** What the validator of a state accepts. *)
Definition state_ok (s : ExecutionState) : Prop :=
  Forall (fun f => f.2 = true) (execution_state_fields s) /\
  es_succeeded_actions s + es_failed_actions s <= es_attempted_actions s /\
  (let identity := [es_random_control_id s; es_random_profile_id s; es_random_namespace s] in
   if decide (es_profile s = V1) then existsb truthy identity = false else forallb truthy identity = true) /\
  NoDup (es_completed_candidate_ids s) /\ es_current_retry s <= es_attempted_actions s.

Lemma validate_execution_state_Ok s s' : validate_execution_state s = Ok s' <-> s' = s /\ state_ok s.
Proof.
  unfold validate_execution_state, state_ok. split.
  - intros ([] & Hf & H)%bind_Ok. apply require_fields_Ok in Hf. apply bind_Ok in H as ([] & Hc & H). apply raise_if_Ok, Z.ltb_ge in Hc.
    apply bind_Ok in H as ([] & Hi & H). apply bind_Ok in H as ([] & Hu & H). apply raise_if_Ok, negb_false_iff, py_unique_true in Hu.
    apply bind_Ok in H as ([] & Hr & [= <-]). apply raise_if_Ok, Z.ltb_ge in Hr. split_and!; try done.
    case_decide; apply raise_if_Ok in Hi; [done|by apply negb_false_iff in Hi].
  - intros (-> & Hf & Hc & Hi & Hu & Hr). rewrite (proj2 (require_fields_Ok _ tt) Hf). cbn [mbind result_bind].
    rewrite (proj2 (Z.ltb_ge _ _) Hc), (proj2 (Z.ltb_ge _ _) Hr), (proj2 (py_unique_true _) Hu). cbv zeta in *.
    by case_decide; rewrite Hi.
Qed.

(** What never changes of a stored state. *)
Definition same_identity (s s' : ExecutionState) : Prop :=
  es_policy_address s' = es_policy_address s /\ es_policy_digest s' = es_policy_digest s /\
  es_participant_address s' = es_participant_address s /\ es_episode_id s' = es_episode_id s /\
  es_participant_implementation_ref s' = es_participant_implementation_ref s /\ es_clock_address s' = es_clock_address s /\
  es_time_segment s' = es_time_segment s /\ es_in_flight s' = es_in_flight s /\ es_profile s' = es_profile s /\
  es_random_control_id s' = es_random_control_id s /\ es_random_profile_id s' = es_random_profile_id s /\
  es_random_namespace s' = es_random_namespace s.

#[export] Instance same_identity_refl : Reflexive same_identity.
Proof. intros s. by split_and!. Qed.
#[export] Instance same_identity_trans : Transitive same_identity.
Proof. intros s1 s2 s3. unfold same_identity. intros H1 H2. destruct_and!. split_and!; congruence. Qed.

(** The progress of a state: counts never fall. *)
Definition progresses (s s' : ExecutionState) : Prop :=
  same_identity s s' /\ es_attempted_actions s <= es_attempted_actions s' /\
  es_succeeded_actions s <= es_succeeded_actions s' /\ es_failed_actions s <= es_failed_actions s' /\
  es_occurrence_ordinal s <= es_occurrence_ordinal s' /\ es_completed_candidate_ids s `prefix_of` es_completed_candidate_ids s'.

#[export] Instance progresses_refl : Reflexive progresses.
Proof. intros s. unfold progresses. split_and!; (done || lia). Qed.
#[export] Instance progresses_trans : Transitive progresses.
Proof.
  intros s1 s2 s3 (I1 & ? & ? & ? & ? & ?) (I2 & ? & ? & ? & ? & ?). unfold progresses. split_and!; [by etrans|lia..|by etrans].
Qed.

(** ** Outcomes *)

Section outcomes.
Context `{!RandomPackages} {W : Type} `{!ActivityActions W}.

(** Exceptions of a draw, or of the parts that bind, reserve, perform, settle and
    annotate an action. *)
Definition raised_outside (e : exn) : Prop :=
  (exists context local minimum maximum, draw_activity_integer context local minimum maximum = Raise e) \/
  (exists context s id world, bind_autonomous_action context s id world = Raise e) \/
  (exists context request world, reserve_participant_resources context request world = Raise e) \/
  (exists request states world, admit_action request states world = Raise e) \/
  (exists context request result failed world, settle_participant_resources context request result failed world = Raise e) \/
  (exists context s request status world, annotate_activity_history context s request status world = Raise e).

(** The computation gives a value with the property, or an exception of those. *)
Definition outcome {A} (P : A -> Prop) (m : result A) : Prop :=
  match m with Ok a => P a | Raise e => raised_outside e end.

Lemma outcome_bind {A B} (P : A -> Prop) (Q : B -> Prop) (m : result A) (k : A -> result B) :
  outcome P m -> (forall a, P a -> outcome Q (k a)) -> outcome Q (mbind k m).
Proof. destruct m as [a|e]; cbn; auto. Qed.

Lemma outcome_weaken {A} (P Q : A -> Prop) (m : result A) : outcome P m -> (forall a, P a -> Q a) -> outcome Q m.
Proof. destruct m; cbn; auto. Qed.

Lemma outcome_draw context local minimum maximum :
  outcome (fun u => minimum <= u <= maximum) (draw_activity_integer context local minimum maximum).
Proof. destruct (draw_activity_integer _ _ _ _) as [u|e] eqn:E; [by apply draw_activity_range in E|]. left. by exists context, local, minimum, maximum. Qed.

Lemma outcome_bind_action context s id world : outcome (fun _ => True) (bind_autonomous_action context s id world).
Proof. destruct (bind_autonomous_action _ _ _ _) eqn:E; [done|]. right. left. by exists context, s, id, world. Qed.

Lemma outcome_admit request states world : outcome (fun _ => True) (admit_action request states world).
Proof. destruct (admit_action _ _ _) eqn:E; [done|]. do 3 right. left. by exists request, states, world. Qed.

Lemma outcome_annotate context s request status world : outcome (fun _ => True) (annotate_activity_history context s request status world).
Proof. destruct (annotate_activity_history _ _ _ _ _) eqn:E; [done|]. do 5 right. by exists context, s, request, status, world. Qed.

(** The ledger leaves the states; a refusal has failed the run. *)
Definition ledger_result (run : SchedulerRun W) (r : SchedulerRun W * bool) : Prop :=
  run_states r.1 = run_states run /\ run_failure r.1 = (if r.2 then run_failure run else true).

Lemma outcome_reserve context request run : outcome (ledger_result run) (reserve_activity_resources context request run).
Proof.
  unfold reserve_activity_resources. case_decide; [done|].
  destruct (reserve_participant_resources _ _ _) as [[world b]|e] eqn:E; cbn; [by destruct b|].
  do 2 right. left. by exists context, request, (run_world run).
Qed.

Lemma outcome_commit context request result failed run : outcome (ledger_result run) (commit_activity_resources context request result failed run).
Proof.
  unfold commit_activity_resources. case_decide; [done|].
  destruct (settle_participant_resources _ _ _ _ _) as [[world b]|e] eqn:E; cbn; [by destruct b|].
  do 4 right. left. by exists context, request, result, failed, (run_world run).
Qed.

(** A result that changes the states of the scheduler is not committed. *)
Lemma record_result_states (run : SchedulerRun W) request result episode :
  let recorded := _record_protocol_result run result (autonomous_action_result_violation request result episode run) in
  run_failure recorded.1 = run_failure run /\ forall k, run_states recorded.1 !! k = run_states run !! k.
Proof.
  unfold autonomous_action_result_violation, _protected_scheduler_state_violation.
  destruct (dict_same _ _) eqn:E; [|done]. destruct (result_violation _ _ _ _); cbn; [done|]. split; [done|]. by apply dict_same_get.
Qed.
End outcomes.

(** ** Transitions *)

Definition lifecycles : list string := ["running"; "paused"; "completed"; "failed"].
Definition dispositions : list string := ["cadence"; "drawn"; "next_opening"].

(** What a transition may change, so that a valid state stays one. *)
Record valid_change (s s' : ExecutionState) : Prop := {
  vc_progress : progresses s s';
  vc_lifecycle : es_lifecycle_state s' ∈ lifecycles;
  vc_tick : 0 <= es_next_tick s';
  vc_index : 0 <= es_next_action_index s';
  vc_counts : es_succeeded_actions s' + es_failed_actions s' <= es_attempted_actions s';
  vc_retry : 0 <= es_current_retry s' <= es_attempted_actions s';
  vc_burst : 0 <= es_burst_position s' /\ 1 <= es_burst_size s';
  vc_disposition : es_next_timing_disposition s' ∈ dispositions;
  vc_completed : Forall (fun i => nonempty i = true) (es_completed_candidate_ids s') /\ NoDup (es_completed_candidate_ids s');
  vc_cooldowns : Forall (fun k => nonempty k = true) (dict_keys (es_candidate_cooldown_until s'));
}.

Lemma forallb_Forall_true {A} (p : A -> bool) l : forallb p l = true <-> Forall (fun a => p a = true) l.
Proof. rewrite forallb_forall, Forall_forall. by setoid_rewrite list_elem_of_In. Qed.

(** The constraints on the fields, as propositions. *)
Lemma execution_state_fields_Forall s :
  Forall (fun f => f.2 = true) (execution_state_fields s) <->
  (nonempty (es_policy_address s) = true /\ nonempty (es_policy_digest s) = true /\ nonempty (es_participant_address s) = true /\
   nonempty (es_episode_id s) = true /\ nonempty (es_participant_implementation_ref s) = true /\ nonempty (es_clock_address s) = true /\
   0 <= es_time_segment s /\ 0 <= es_in_flight s /\ es_profile s ∈ [V1; V2; V3]) /\
  (0 <= es_attempted_actions s /\ 0 <= es_succeeded_actions s /\ 0 <= es_failed_actions s /\ 0 <= es_occurrence_ordinal s) /\
  (es_lifecycle_state s ∈ lifecycles /\ 0 <= es_next_tick s /\ 0 <= es_next_action_index s /\ 0 <= es_current_retry s /\
   0 <= es_burst_position s /\ 1 <= es_burst_size s /\ es_next_timing_disposition s ∈ dispositions /\
   Forall (fun i => nonempty i = true) (es_completed_candidate_ids s) /\
   Forall (fun k => nonempty k = true) (dict_keys (es_candidate_cooldown_until s))).
Proof.
  unfold execution_state_fields, at_least. rewrite !Forall_cons, Forall_nil. cbn [snd].
  rewrite !bool_decide_eq_true, !Z.leb_le, !forallb_Forall_true. unfold lifecycles, dispositions. tauto.
Qed.

Lemma valid_change_ok s s' : state_ok s -> valid_change s s' -> state_ok s'.
Proof.
  intros (Hf & Hc & Hi & Hu & Hr) [((I1 & I2 & I3 & I4 & I5 & I6 & I7 & I8 & I9 & I10 & I11 & I12) & P1 & P2 & P3 & P4 & _) L T X C R B D [Cn Cu] K].
  apply execution_state_fields_Forall in Hf as (F1 & F2 & F3). destruct_and!. split_and!.
  - apply execution_state_fields_Forall. rewrite I1, I2, I3, I4, I5, I6, I7, I8, I9. split_and!; (done || lia).
  - done.
  - by rewrite I9, I10, I11, I12.
  - done.
  - done.
Qed.

(** A transition of a stored state: a valid change that keeps an action that is
    still due within its limits. *)
Definition retry_index_ok (policy : ActivityPolicy) (s : ExecutionState) : Prop :=
  es_current_retry s <> 0 -> es_next_action_index s < py_len (ap_action_candidate_ids policy).
Definition attempts_left (policy : ActivityPolicy) (s : ExecutionState) : Prop :=
  es_lifecycle_state s = "running" -> es_attempted_actions s < ap_max_action_attempts policy.

(** A state the scheduler may have stored. *)
Record stored_ok (policy : ActivityPolicy) (s : ExecutionState) : Prop := {
  so_state : state_ok s;
  so_attempts : attempts_left policy s;
  so_retry : retry_index_ok policy s;
}.

(** The lists of a compiled policy belong together, its windows exist, and its
    shortest interval is at least one step of its clock. *)
Record policy_ok (policy : ActivityPolicy) (time_model : CompiledTimeModel) : Prop := {
  po_dependencies : length (ap_action_candidate_dependencies policy) = length (ap_action_candidate_ids policy);
  po_weights : length (ap_action_candidate_weights policy) = length (ap_action_candidate_ids policy);
  po_classes : length (ap_action_candidate_retry_failure_classes policy) = length (ap_action_candidate_ids policy);
  po_retries : length (ap_action_candidate_max_retries policy) = length (ap_action_candidate_ids policy);
  po_cooldowns : length (ap_action_candidate_cooldown_ticks policy) = length (ap_action_candidate_ids policy);
  po_positive : Forall (fun w => 1 <= w) (ap_action_candidate_weights policy);
  po_ids : Forall (fun i => nonempty i = true) (ap_action_candidate_ids policy);
  po_constraints : NoDup (ck_address <$> cm_constraints time_model);
  po_work : windows_resolve (ap_work_window_addresses policy) time_model;
  po_pauses : windows_resolve (ap_pause_window_addresses policy) time_model;
  po_progression : exists progression,
    List.find (fun p => bool_decide (cp_address p = ap_progression_policy_address policy)) (cm_policies time_model) = Some progression /\
    match step_of progression with
    | Some step => 1 <= step /\ step <= ap_timing_minimum_ticks policy
    | None => 1 <= ap_timing_minimum_ticks policy
    end;
}.

Section transitions.
Context `{!RandomPackages} {W : Type} `{!ActivityActions W}.
Context (context : DueActionContext) (Hpolicy : policy_ok (due_policy context) (due_time_model context)) (Hnow : 0 <= due_current_tick context).

Lemma outcome_timing participant segment occurrence current control :
  outcome (fun t => ts_disposition t ∈ dispositions /\ match ts_tick t with Some tick => current < tick | None => True end)
    (next_activity_timing (due_policy context) (due_time_model context) participant segment occurrence current control).
Proof.
  destruct (po_progression _ _ Hpolicy) as (progression & Hfind & Hmin).
  pose proof (next_activity_timing_run _ _ participant segment occurrence current control progression (po_constraints _ _ Hpolicy)
    (po_work _ _ Hpolicy) (po_pauses _ _ Hpolicy) Hfind) as Hrun.
  cbv zeta in Hrun. destruct (step_of progression) as [step|]; cbn [step_ok] in Hrun.
  - destruct Hmin as [Hstep Hmin]. specialize (Hrun Hstep). destruct (draw_activity_integer _ 0 _ _) as [n|e] eqn:Hd.
    2: { rewrite Hrun. left. eauto. }
    destruct Hrun as [Hn Hrun]. assert (1 <= ap_timing_minimum_ticks (due_policy context) / step) by (apply Z.div_le_lower_bound; lia).
    assert (0 < n * step) by nia. destruct Hrun as [[_ ->]|[(_ & _ & ->)|(_ & _ & opening & -> & Hop)]]; cbn [outcome ts_disposition ts_tick].
    + split; [set_solver|lia].
    + split; [set_solver|done].
    + split; [set_solver|]. destruct opening; [|done]. lia.
  - specialize (Hrun I). destruct (draw_activity_integer _ 0 _ _) as [n|e] eqn:Hd.
    2: { rewrite Hrun. left. eauto. }
    destruct Hrun as [Hn Hrun]. destruct Hrun as [[_ ->]|[(_ & _ & ->)|(_ & _ & opening & -> & Hop)]]; cbn [outcome ts_disposition ts_tick].
    + split; [set_solver|lia].
    + split; [set_solver|done].
    + split; [set_solver|]. destruct opening; [|done]. lia.
Qed.

Lemma outcome_schedule s control progress :
  state_ok s -> ag_lifecycle progress ∈ lifecycles ->
  outcome (fun a => al_lifecycle a ∈ lifecycles /\ (al_lifecycle a = "running" -> ag_lifecycle progress = "running") /\
      due_current_tick context <= al_next_tick a /\ 0 <= al_burst_position a /\ 1 <= al_burst_size a /\
      al_timing_disposition a ∈ dispositions)
    (_next_activity_schedule context s control progress).
Proof.
  intros (Hf & _) Hlife. apply execution_state_fields_Forall in Hf as (_ & _ & Hf). destruct_and!.
  unfold _next_activity_schedule. case_decide as Hrun; [|cbn; split_and!; (done || lia)].
  destruct (_ <? _); [cbn; split_and!; (done || lia)|].
  eapply outcome_bind; [apply outcome_draw|]. intros size Hsize. eapply outcome_bind; [apply outcome_timing|].
  intros [tick disposition] [Hdisp Htick]. cbn [ts_tick ts_disposition] in *. destruct tick as [tick|]; cbn; split_and!; (done || lia || set_solver).
Qed.

Lemma completed_progress_run s r attempted :
  state_ok s -> es_next_action_index s < py_len (ap_action_candidate_ids (due_policy context)) ->
  exists p, _completed_activity_progress context s r attempted = Ok p /\
    ag_lifecycle p ∈ lifecycles /\ (ag_lifecycle p = "running" -> attempted < ap_max_action_attempts (due_policy context)) /\
    ag_occurrence p = es_occurrence_ordinal s + 1 /\ es_completed_candidate_ids s `prefix_of` ag_completed p /\
    Forall (fun i => nonempty i = true) (ag_completed p) /\ NoDup (ag_completed p) /\
    Forall (fun k => nonempty k = true) (dict_keys (ag_cooldowns p)).
Proof.
  intros (Hf & _ & _ & Hnd & _) Hidx. apply execution_state_fields_Forall in Hf as (_ & _ & Hf). destruct_and!.
  unfold _completed_activity_progress.
  destruct (py_index_run (ap_action_candidate_ids (due_policy context)) (es_next_action_index s)) as (id & -> & Hid); [lia|].
  destruct (py_index_run (ap_action_candidate_cooldown_ticks (due_policy context)) (es_next_action_index s)) as (cool & Hcool & _).
  { unfold py_len in *. rewrite (po_cooldowns _ _ Hpolicy). lia. }
  cbn [mbind result_bind]. rewrite Hcool. cbn [mbind result_bind]. eexists. split; [done|].
  cbn [ag_lifecycle ag_occurrence ag_completed ag_cooldowns].
  assert (nonempty id = true) as Hne by (pose proof (po_ids _ _ Hpolicy) as Hids; rewrite Forall_forall in Hids; by apply Hids).
  split_and!; try done.
  - repeat case_match; first [done|set_solver].
  - destruct (protocol_failure r || _); [done|]. destruct (_ || (_ <=? attempted)) eqn:E; [done|]. intros _.
    by apply orb_false_iff in E as [_ ?%Z.leb_gt].
  - case_match; [by eexists|done].
  - case_match; [apply Forall_app; split; [done|by repeat constructor]|done].
  - case_match eqn:E; [|done]. apply andb_true_iff in E as [_ E%negb_true_iff%bool_decide_eq_false]. apply NoDup_app.
    split_and!; [done|set_solver|apply NoDup_singleton].
  - apply Forall_forall. intros k [->|Hk]%elem_of_dict_keys_set; [done|]. rewrite Forall_forall in *. auto.
Qed.

Lemma retryable_run s r attempted :
  0 <= es_next_action_index s < py_len (ap_action_candidate_ids (due_policy context)) ->
  exists b, _activity_attempt_is_retryable context s r attempted = Ok b /\
    (b = true -> attempted < ap_max_action_attempts (due_policy context) /\ action_succeeded r = false).
Proof.
  intros Hidx. unfold _activity_attempt_is_retryable. destruct (protocol_failure r); [by exists false|].
  destruct (action_succeeded r); [by exists false|].
  destruct (py_index_run (ap_action_candidate_retry_failure_classes (due_policy context)) (es_next_action_index s)) as (cl & -> & _).
  { unfold py_len in *. rewrite (po_classes _ _ Hpolicy). lia. }
  destruct (py_index_run (ap_action_candidate_max_retries (due_policy context)) (es_next_action_index s)) as (n & Hn & _).
  { unfold py_len in *. rewrite (po_retries _ _ Hpolicy). lia. }
  cbn [mbind result_bind]. destruct (failure_class r) as [class|]; [|by exists false]. case_decide; [|by exists false].
  rewrite Hn. cbn [mbind result_bind]. eexists. split; [done|]. intros [_ ?%Z.ltb_lt]%andb_true_iff. done.
Qed.

(** What an attempted action makes of a state that was due. *)
Definition attempted_state (s s' : ExecutionState) : Prop :=
  stored_ok (due_policy context) s' /\ progresses s s' /\ es_attempted_actions s' = es_attempted_actions s + 1 /\
  (es_lifecycle_state s' = "running" -> due_current_tick context <= es_next_tick s').

Lemma attempted_state_intro s s' :
  state_ok s -> valid_change s s' -> attempts_left (due_policy context) s' -> retry_index_ok (due_policy context) s' ->
  es_attempted_actions s' = es_attempted_actions s + 1 -> due_current_tick context <= es_next_tick s' -> attempted_state s s'.
Proof. intros Hs Hc Ha Hr Hn Ht. split; [constructor; [by eapply valid_change_ok|done|done]|]. split; [apply Hc|]. done. Qed.

Lemma outcome_occurrence s r :
  stored_ok (due_policy context) s -> es_lifecycle_state s = "running" -> is_Some (due_activity_control context) ->
  es_next_action_index s < py_len (ap_action_candidate_ids (due_policy context)) ->
  outcome (attempted_state s) (next_activity_occurrence_state context s r).
Proof.
  intros [Hs Hatt Hret] Hrun [control Hcontrol] Hidx. specialize (Hatt Hrun). unfold next_activity_occurrence_state. rewrite Hcontrol.
  pose proof Hs as (Hf & Hcounts & _ & Hnd & Hretry). apply execution_state_fields_Forall in Hf as (_ & Hnn & Hf). destruct_and!.
  destruct (retryable_run s r (es_attempted_actions s + 1)) as (b & -> & Hb); [lia|]. cbn [mbind result_bind]. destruct b.
  - unfold _activity_retry_state. destruct (py_index_run (ap_action_candidate_ids (due_policy context)) (es_next_action_index s)) as (id & -> & _); [lia|].
    destruct (Hb eq_refl) as [Hleft Hno]. rewrite Hno. cbn [mbind result_bind outcome]. apply attempted_state_intro; unfold attempts_left, retry_index_ok; cbn; try done; try lia.
    constructor; cbn; try done; try lia. unfold progresses, same_identity. cbn. split_and!; (done || lia).
  - eapply outcome_bind with (P := fun p => ag_lifecycle p ∈ lifecycles /\
        (ag_lifecycle p = "running" -> es_attempted_actions s + 1 < ap_max_action_attempts (due_policy context)) /\
        ag_occurrence p = es_occurrence_ordinal s + 1 /\ es_completed_candidate_ids s `prefix_of` ag_completed p /\
        Forall (fun i => nonempty i = true) (ag_completed p) /\ NoDup (ag_completed p) /\
        Forall (fun k => nonempty k = true) (dict_keys (ag_cooldowns p))).
    { destruct (completed_progress_run s r (es_attempted_actions s + 1) Hs Hidx) as (p & -> & Hp). done. }
    intros p (Hlife & Hleft & Hocc & Hpre & Hcn & Hcu & Hk). eapply outcome_bind; [by apply outcome_schedule|].
    intros a (Ha & Harun & Htick & Hpos & Hsize & Hdisp). cbn [outcome]. apply attempted_state_intro; unfold attempts_left, retry_index_ok; cbn; try done; try lia.
    + constructor; cbn; try done; try (destruct (action_succeeded r); lia).
      unfold progresses, same_identity. cbn. destruct (action_succeeded r); split_and!; (done || lia).
    + auto.
Qed.

Lemma with_action_index_ok s i :
  stored_ok (due_policy context) s -> 0 <= i < py_len (ap_action_candidate_ids (due_policy context)) ->
  stored_ok (due_policy context) (with_action_index s i) /\ progresses s (with_action_index s i).
Proof.
  intros [Hs Hatt Hret] Hi. pose proof Hs as (Hf & Hcounts & _ & Hnd & Hretry).
  apply execution_state_fields_Forall in Hf as (_ & Hnn & Hf). destruct_and!.
  assert (progresses s (with_action_index s i)) by (unfold progresses, same_identity; cbn; split_and!; (done || lia)).
  split; [|done]. constructor; [eapply valid_change_ok; [done|]; constructor; cbn; (done || lia)|done|intros _; cbn; lia].
Qed.

Lemma outcome_empty s :
  stored_ok (due_policy context) s -> es_attempted_actions s < ap_max_action_attempts (due_policy context) -> is_Some (due_activity_control context) ->
  outcome (fun s' => stored_ok (due_policy context) s' /\ progresses s s' /\ es_attempted_actions s' = es_attempted_actions s /\
      (es_lifecycle_state s' = "running" -> due_current_tick context < es_next_tick s'))
    (_empty_activity_state context s).
Proof.
  intros [Hs Hatt Hret] Hleft [control Hcontrol]. unfold _empty_activity_state.
  pose proof Hs as (Hf & Hcounts & _ & Hnd & Hretry). apply execution_state_fields_Forall in Hf as (_ & Hnn & Hf). destruct_and!.
  eapply outcome_bind with (P := fun t => match t with Some tick => due_current_tick context < tick | None => True end).
  { case_decide; [done|]. rewrite Hcontrol. unfold next_activity_tick. eapply outcome_bind; [apply outcome_timing|]. by intros t [_ ?]. }
  intros tick Htick. cbn [outcome].
  set (s' := State _ _ _ _ _ _ _ _ _ _ _ _ _ _ _ _ _ _ _ _ _ _ _ _ _ _ _).
  assert (progresses s s') by (unfold progresses, same_identity; cbn; split_and!; (done || lia)). split_and!; [|done|done|].
  - constructor; [eapply valid_change_ok; [done|]|by intros _|done].
    constructor; cbn; try done; try lia; [by destruct tick; set_solver|destruct tick; cbn; lia].
  - cbn. by destruct tick.
Qed.

Lemma outcome_next_action s r :
  stored_ok (due_policy context) s -> es_lifecycle_state s = "running" -> es_next_tick s = due_current_tick context ->
  1 <= due_cadence_ticks context -> ap_action_contract_addresses (due_policy context) <> [] -> es_current_retry s = 0 ->
  outcome (fun s' => attempted_state s s' /\ es_current_retry s' = 0 /\ due_current_tick context < es_next_tick s')
    (_next_action_state context s r).
Proof.
  clear Hpolicy. intros [Hs Hatt Hret] Hrun Htick Hcad Hne Hr0. specialize (Hatt Hrun). unfold _next_action_state.
  pose proof Hs as (Hf & Hcounts & _ & Hnd & Hretry). apply execution_state_fields_Forall in Hf as (_ & Hnn & Hf). destruct_and!.
  set (life := if _ || _ then "failed" else _).
  assert (life ∈ lifecycles /\ (life = "running" -> es_attempted_actions s + 1 < ap_max_action_attempts (due_policy context))) as [Hl Hlr].
  { unfold life. destruct (protocol_failure r || _); [split; [set_solver|done]|].
    destruct (Z.leb_spec (ap_max_action_attempts (due_policy context)) (es_attempted_actions s + 1)); [split; [set_solver|done]|done]. }
  assert (0 < py_len (ap_action_contract_addresses (due_policy context))) as Hpos.
  { unfold py_len. destruct (ap_action_contract_addresses (due_policy context)); [done|cbn; lia]. }
  unfold floor_mod. destruct (Z.eqb_spec (py_len (ap_action_contract_addresses (due_policy context))) 0); [lia|]. cbn [mbind result_bind outcome].
  pose proof (Z.mod_pos_bound (es_next_action_index s + 1) _ Hpos). split; [|by split; [|cbn; lia]].
  apply attempted_state_intro; unfold attempts_left, retry_index_ok; cbn; try done; try lia.
  - constructor; cbn; try done; try (destruct (action_succeeded r); lia); try lia.
    unfold progresses, same_identity. cbn. destruct (action_succeeded r); split_and!; (done || lia).
Qed.
End transitions.

(** ** Passes *)

Section passes.
Context `{!RandomPackages} {W : Type} `{!ActivityActions W}.
Context (context : DueActionContext) (Hpolicy : policy_ok (due_policy context) (due_time_model context)) (Hnow : 0 <= due_current_tick context).
Context (s0 : ExecutionState) (run0 : SchedulerRun W).

(** Progress that makes no attempt beyond the limit of the policy. *)
Definition advances (s : ExecutionState) : Prop :=
  progresses s0 s /\ es_attempted_actions s <= Z.max (es_attempted_actions s0) (ap_max_action_attempts (due_policy context)).

Lemma advances_step s s' :
  advances s -> progresses s s' -> es_attempted_actions s < ap_max_action_attempts (due_policy context) ->
  es_attempted_actions s' <= es_attempted_actions s + 1 -> advances s'.
Proof. intros [Hp Hle] Hp' Hlt Hle'. split; [by etrans|lia]. Qed.

(** The run keeps a state of the participant, and the states of the others. *)
Definition keeps (run : SchedulerRun W) : Prop :=
  (exists s, run_states run !! due_key context = Some s /\ stored_ok (due_policy context) s /\ advances s) /\
  forall k, k <> due_key context -> run_states run !! k = run_states run0 !! k.

Lemma keeps_same run run' : (forall k, run_states run' !! k = run_states run !! k) -> keeps run -> keeps run'.
Proof. intros Heq [(s & Hs & Hok) Ho]. split; [exists s; by rewrite Heq|]. intros k Hk. by rewrite Heq, Ho. Qed.

Lemma keeps_persist run s :
  keeps run -> stored_ok (due_policy context) s -> advances s -> keeps (persist_activity_state run (due_key context) s).
Proof.
  intros [_ Ho] Hs Hp. split; [exists s; split; [by apply dict_get_set_eq|done]|]. intros k Hk. cbn [persist_activity_state run_states].
  rewrite dict_get_set_ne by done. by apply Ho.
Qed.

(** The state in hand is the stored one while the run has not failed. *)
Definition in_hand (s : ExecutionState) (run : SchedulerRun W) : Prop :=
  keeps run /\ stored_ok (due_policy context) s /\ advances s /\
  (run_failure run = false -> run_states run !! due_key context = Some s).

(** An attempt fails the run or is counted and stored. *)
Definition after_attempt (s : ExecutionState) (next : ExecutionState * SchedulerRun W) : Prop :=
  in_hand next.1 next.2 /\
  (run_failure next.2 = true \/
   (es_attempted_actions next.1 = es_attempted_actions s + 1 /\
    (es_lifecycle_state next.1 = "running" -> due_current_tick context <= es_next_tick next.1) /\
    es_in_flight next.1 = es_in_flight s)).

Lemma after_failed s run : keeps run -> stored_ok (due_policy context) s -> advances s -> run_failure run = true -> after_attempt s (s, run).
Proof. intros Hk Hs Hp Hf. split; [|by left]. split_and!; cbn; [done..|by rewrite Hf]. Qed.

Lemma after_persisted s s' run run' :
  advances s -> attempted_state context s s' -> es_attempted_actions s < ap_max_action_attempts (due_policy context) -> keeps run ->
  (forall k, run_states run' !! k = run_states (persist_activity_state run (due_key context) s') !! k) ->
  after_attempt s (s', run').
Proof.
  intros Hp (Hs' & Hp' & Hn & Ht) Hlt Hk Heq. assert (advances s') as Hadv by (eapply advances_step; [done|done|done|lia]). split.
  - split_and!; [eapply keeps_same; [exact Heq|by apply keeps_persist]|done|done|]. intros _. cbn [snd fst]. rewrite Heq. by apply dict_get_set_eq.
  - right. split_and!; [done|done|]. destruct Hp' as ((_ & _ & _ & _ & _ & _ & _ & ? & _) & _). done.
Qed.

Lemma outcome_activity_action s run :
  keeps run -> stored_ok (due_policy context) s -> advances s -> es_lifecycle_state s = "running" ->
  is_Some (due_activity_control context) -> es_next_action_index s < py_len (ap_action_candidate_ids (due_policy context)) ->
  outcome (after_attempt s) (_run_one_activity_action context s run).
Proof.
  intros Hk Hs Hp Hrun Hcontrol Hidx. unfold _run_one_activity_action. cbv zeta.
  eapply outcome_bind; [apply outcome_bind_action|]. intros request _. eapply outcome_bind; [apply outcome_reserve|].
  intros [run1 b] [Hst1 Hf1]. cbn [fst snd] in *. assert (keeps run1) as Hk1 by (eapply keeps_same; [|exact Hk]; by intros k; rewrite Hst1).
  destruct b; cbn [negb]; [|by apply after_failed]. eapply outcome_bind; [apply outcome_admit|]. intros result _.
  pose proof (record_result_states run1 request result (es_episode_id s)) as [Hf2 Hst2].
  destruct (_record_protocol_result _ _ _) as [run2 pf]. cbn [fst] in Hf2, Hst2. apply (keeps_same _ run2) in Hk1; [|done].
  eapply outcome_bind; [apply outcome_commit|]. intros [run3 b] [Hst3 Hf3]. cbn [fst snd] in *.
  assert (keeps run3) as Hk3 by (eapply keeps_same; [|exact Hk1]; by intros k; rewrite Hst3).
  destruct b; cbn [negb]; [|by apply after_failed].
  eapply outcome_bind with (P := fun _ => True); [destruct pf; [done|apply outcome_annotate]|]. intros world _.
  eapply outcome_bind; [by apply outcome_occurrence|]. intros s' Hs'. cbn [outcome].
  eapply (after_persisted s s' (with_world run3 world)); [done|done|by apply (so_attempts _ _ Hs)|by eapply keeps_same; [|exact Hk3]|].
  intros k. destruct pf; case_decide; done.
Qed.

Lemma outcome_due_action s run :
  keeps run -> stored_ok (due_policy context) s -> advances s -> es_lifecycle_state s = "running" ->
  es_next_tick s = due_current_tick context -> 1 <= due_cadence_ticks context ->
  ap_action_contract_addresses (due_policy context) <> [] -> es_current_retry s = 0 ->
  outcome (fun next => after_attempt s next /\ es_current_retry next.1 = 0) (_run_one_due_action context s run).
Proof.
  intros Hk Hs Hp Hrun Htick Hcad Hne Hr0. unfold _run_one_due_action. cbv zeta.
  eapply outcome_bind; [apply outcome_bind_action|]. intros request _. eapply outcome_bind; [apply outcome_admit|]. intros result _.
  destruct (stale_completion _ _); [split; [apply after_failed; try done; by eapply keeps_same; [|exact Hk]|done]|].
  pose proof (record_result_states run request result (es_episode_id s)) as [_ Hst2].
  destruct (_record_protocol_result _ _ _) as [run2 pf]. cbn [fst] in Hst2.
  assert (keeps run2) as Hk2 by (by eapply keeps_same; [|exact Hk]).
  eapply outcome_bind; [by apply outcome_next_action|]. intros s' (Hs' & Hr' & Hnext). cbn [outcome]. split; [|done].
  eapply (after_persisted s s' run2); [done|done|by apply (so_attempts _ _ Hs)|done|]. intros k. destruct pf; cbn; [done|]. by destruct (_ && _).
Qed.

(** After a pass the participant is not due: it has stopped, an action of it is
    in flight, its next tick is in the future, or the run has failed. *)
Definition passed (run : SchedulerRun W) : Prop :=
  (exists s, run_states run !! due_key context = Some s /\ stored_ok (due_policy context) s /\ advances s /\
     (run_failure run = false -> es_lifecycle_state s = "running" -> es_in_flight s = 0 -> due_current_tick context < es_next_tick s)) /\
  forall k, k <> due_key context -> run_states run !! k = run_states run0 !! k.

Lemma action_is_due_true s (run : SchedulerRun W) : action_is_due context s run = true <->
  es_lifecycle_state s = "running" /\ es_next_tick s = due_current_tick context /\
  es_attempted_actions s < ap_max_action_attempts (due_policy context) /\ es_in_flight s = 0 /\ run_failure run = false.
Proof.
  unfold action_is_due. rewrite !andb_true_iff, bool_decide_eq_true, !Z.eqb_eq, Z.ltb_lt, negb_true_iff. tauto.
Qed.

Definition not_late (s : ExecutionState) : Prop := es_lifecycle_state s = "running" -> due_current_tick context <= es_next_tick s.

Lemma passed_undue s run :
  in_hand s run -> (run_failure run = false -> not_late s) -> action_is_due context s run = false -> passed run.
Proof.
  intros (Hk & Hs & Hp & Hst) Hlate Hdue. destruct (run_failure run) eqn:Hf.
  - destruct Hk as [(s' & ? & ? & ?) Ho]. split; [|done]. exists s'. split_and!; try done. by rewrite Hf.
  - split; [|apply Hk]. exists s. split_and!; [by apply Hst|done|done|]. intros _ Hrun Hflight. specialize (Hlate eq_refl Hrun).
    apply not_true_iff_false in Hdue. rewrite action_is_due_true in Hdue. pose proof (so_attempts _ _ Hs Hrun).
    destruct (Z.eq_dec (es_next_tick s) (due_current_tick context)) as [He|]; [|lia]. by destruct Hdue.
Qed.

(** The fuel of the loops: one for each attempt left, and one more. *)
Definition fuel_left (fuel : nat) (s : ExecutionState) (run : SchedulerRun W) : Prop :=
  run_failure run = true \/ (Z.to_nat (ap_max_action_attempts (due_policy context) - es_attempted_actions s) < fuel)%nat.

Lemma selected_index_run s :
  stored_ok (due_policy context) s -> is_Some (due_activity_control context) ->
  outcome (fun i => match i with Some i => 0 <= i < py_len (ap_action_candidate_ids (due_policy context)) | None => True end)
    (_selected_activity_index context s).
Proof.
  intros [(Hf & _) _ Hret] [control Hcontrol]. apply execution_state_fields_Forall in Hf as (_ & _ & Hf). destruct_and!.
  unfold _selected_activity_index. destruct (Z.eqb_spec (es_current_retry s) 0) as [|Hne]; cbn [negb].
  2: { cbn. specialize (Hret Hne). lia. }
  rewrite Hcontrol.
  destruct (eligible_indices_run (due_policy context) s (due_current_tick context) (po_dependencies _ _ Hpolicy)) as (indices & -> & _ & Hready).
  cbn [mbind result_bind]. set (weights := ap_action_candidate_weights (due_policy context)).
  assert (forall i, i ∈ indices -> 0 <= i < py_len (ap_action_candidate_ids (due_policy context))) as Hrange.
  { intros i (Hi & id & deps & Hid & _)%Hready. apply lookup_lt_Some in Hid. unfold py_len. lia. }
  assert (Forall (indexed weights) indices) as Hidx.
  { apply Forall_forall. intros i Hi%Hrange. unfold indexed, py_len, weights in *. rewrite (po_weights _ _ Hpolicy). lia. }
  unfold select_activity_candidate. destruct indices as [|i0 rest] eqn:E; [done|]. rewrite <-E in *. clear E. fold weights.
  rewrite (weights_run weights (po_positive _ _ Hpolicy) indices Hidx). cbn [mbind result_bind].
  eapply outcome_bind; [apply outcome_draw|]. cbn beta. intros u Hu.
  destruct (weighted_index_run weights (po_positive _ _ Hpolicy) indices 0 u Hidx) as (i & -> & Hi); [cbn beta in Hu; lia|]. cbn. by apply Hrange.
Qed.

Lemma activity_loop_run fuel s run :
  in_hand s run -> (run_failure run = false -> not_late s) -> fuel_left fuel s run -> is_Some (due_activity_control context) ->
  outcome passed (activity_due_loop fuel context s run).
Proof.
  revert s run. induction fuel as [|fuel IH]; intros s run Hhand Hlate Hfuel Hcontrol; cbn [activity_due_loop];
    (destruct (action_is_due context s run) eqn:Hdue; [|by eapply passed_undue]); pose proof Hdue as Hd;
    apply action_is_due_true in Hd as (Hrun & Htick & Hleft & Hflight & Hok);
    (destruct Hfuel as [Hfuel|Hfuel]; [congruence|]); [lia|].
  destruct Hhand as (Hk & Hs & Hp & Hst). eapply outcome_bind; [by apply selected_index_run|]. intros [i|] Hi.
  - destruct (with_action_index_ok context s i Hs Hi) as [Hs1 Hp1]. assert (advances (with_action_index s i)) by (eapply advances_step; [done|done|done|cbn; lia]).
    eapply outcome_bind; [apply outcome_activity_action; try done; cbn; lia|]. intros [s' run'] [Hhand' Hcase]. cbn [fst snd] in *.
    apply IH; [done| | |done].
    + intros Hf. destruct Hcase as [|(_ & Hl & _)]; [congruence|done].
    + destruct Hcase as [|(Hn & _)]; [by left|right]. cbn in Hn. lia.
  - eapply outcome_bind; [by apply outcome_empty|]. intros s' (Hs' & Hp' & Hn & Hl). cbn [outcome].
    assert (advances s') by (eapply advances_step; [done|done|done|lia]). split.
    + exists s'. split_and!; [by apply dict_get_set_eq|done|done|]. intros _ Hr _. by apply Hl.
    + eapply (keeps_persist run s'); done.
Qed.

Lemma cadence_loop_run fuel s run :
  in_hand s run -> (run_failure run = false -> not_late s) -> fuel_left fuel s run -> 1 <= due_cadence_ticks context ->
  ap_action_contract_addresses (due_policy context) <> [] -> es_current_retry s = 0 ->
  outcome passed (cadence_due_loop fuel context s run).
Proof.
  revert s run. induction fuel as [|fuel IH]; intros s run Hhand Hlate Hfuel Hcad Hne Hr0; cbn [cadence_due_loop];
    (destruct (action_is_due context s run) eqn:Hdue; [|by eapply passed_undue]); pose proof Hdue as Hd;
    apply action_is_due_true in Hd as (Hrun & Htick & Hleft & Hflight & Hok);
    (destruct Hfuel as [Hfuel|Hfuel]; [congruence|]); [lia|].
  destruct Hhand as (Hk & Hs & Hp & Hst).
  eapply outcome_bind; [by apply outcome_due_action|]. intros [s' run'] [[Hhand' Hcase] Hr']. cbn [fst snd] in *.
  apply IH; try done.
  - intros Hf. destruct Hcase as [|(_ & Hl & _)]; [congruence|done].
  - destruct Hcase as [|(Hn & _)]; [by left|right]. cbn in Hn. lia.
Qed.
End passes.
