(* ===== verification/ActivitySpec.v ===== *)
(** What participant activity promises: when the next occurrence is due, which
    action it takes, and what a pass over a due participant leaves. *)
From S2P Require Import Prelude.
From S2P Require Import Contracts.
From S2P Require Import RandomStream.
From S2P Require Import RandomStreamSpec.
From S2P Require Import TimeModel.
From S2P Require Import TimeCompiled.
From S2P Require Import ParticipantActivity.
From S2P Require Import ActivityState.
From S2P Require Import ActivityFacts.
From S2P Require Import ActivityDue.
Local Open Scope string_scope.
Local Open Scope list_scope.
Local Open Scope Z_scope.

(** A participant that works from tick 10 to 20 and from 30 to 40, except from 12
    to 15, every 7 ticks; its second action depends on its first. *)
Module ActivitySample.
Definition window (address : string) (first last : Z) : CompiledTemporalConstraint :=
  CConstraint address TimeModel.window "time.clock.main" [] (Some first) None (Some last) None None None "".
Definition progression : CompiledTimeProgressionPolicy :=
  CPolicy "time.progression.main" "time.clock.main" real_time 1 1 sync_none None None reset_unsupported replay_unsupported "".
Definition time_model : CompiledTimeModel :=
  CModel [] [] [] [progression] [window "time.constraint.late" 30 40; window "time.constraint.early" 10 20; window "time.constraint.pause" 12 15].
Definition policy_with (profile disposition : string) : ActivityPolicy :=
  Policy "participant.autonomous-execution.p" "time.progression.main" profile "continue" 3 ["action.a"; "action.b"]
    ["time.constraint.late"; "time.constraint.early"] ["time.constraint.pause"] "control" 7 7 disposition "complete" ["a"; "b"] [3; 5]
    [[]; ["a"]] [["timeout"]; []] [1; 0] [0; 0] 10 1.
Definition policy : ActivityPolicy := policy_with V2 "next_opening".
Definition participant : string := "participant.behavior.alice".
Definition control : ParticipantActivityRandomControl := RandomControl "control" "blake3-xof-participant-v1" "sampling" RandomSample.key.
Definition state : ExecutionState :=
  State "participant.autonomous-execution.p" "digest" participant "episode-1" "implementation" "time.clock.main" 0 "running" 11 0 0 0 0 0
    None V2 0 0 0 1 "drawn" None [] dict_empty (Some "control") (Some "blake3-xof-participant-v1") (Some "sampling").
Definition context : DueActionContext := DueContext policy time_model participant "key" 11 0 (Some control).

(** Every action succeeds and is counted. *)
Definition actions : ActivityActions nat := {|
  action_request := unit;
  bind_autonomous_action _ _ _ _ := Ok tt;
  reserve_participant_resources _ _ n := Ok (n, true);
  admit_action _ states n := Ok (ActionResult states (S n) true (Some "succeeded") None ["history"]);
  result_violation _ _ _ _ := None;
  settle_participant_resources _ _ _ _ n := Ok (n, true);
  annotate_activity_history _ _ _ _ n := Ok n;
  stale_completion _ _ := false |}.
Definition run : SchedulerRun nat := Run (<["key" := state]> dict_empty) 0%nat [] false.

Lemma resolves (addresses : list string) :
  forallb (fun a => existsb (fun c => bool_decide (ck_address c = a) && bool_decide (is_Some (ck_start_tick c)) && bool_decide (is_Some (ck_end_tick c)))
    (cm_constraints time_model)) addresses = true -> windows_resolve addresses time_model.
Proof.
  rewrite forallb_forall. intros H a Ha%list_elem_of_In%H. apply existsb_exists in Ha as (c & Hc & Ha). apply list_elem_of_In in Hc.
  rewrite !andb_true_iff, !bool_decide_eq_true in Ha. exists c. tauto.
Qed.

Lemma work_resolve : windows_resolve (ap_work_window_addresses policy) time_model.
Proof. apply resolves. reflexivity. Qed.
Lemma pauses_resolve : windows_resolve (ap_pause_window_addresses policy) time_model.
Proof. apply resolves. reflexivity. Qed.

Lemma policy_laws : policy_ok policy time_model.
Proof.
  constructor; try reflexivity; [repeat constructor; lia|repeat constructor|vm_decide|apply work_resolve|apply pauses_resolve|].
  exists progression. split; [reflexivity|]. cbn. discriminate.
Qed.
End ActivitySample.

(** ** Timing *)

(** C32: the timing of an occurrence is exact. It returns on every drawn
    interval, which lies within the bounds of the policy in steps of the clock.
    The candidate it leads to is taken if the participant works at it; otherwise
    the occurrence is skipped, or moved to the least step of the clock from the
    candidate on at which the participant works, if there is any. A refused draw
    refuses the timing. *)
Theorem activity_timing_exact `{!RandomPackages} policy time_model participant_address segment occurrence current control progression :
  NoDup (ck_address <$> cm_constraints time_model) ->
  windows_resolve (ap_work_window_addresses policy) time_model -> windows_resolve (ap_pause_window_addresses policy) time_model ->
  List.find (fun p => bool_decide (cp_address p = ap_progression_policy_address policy)) (cm_policies time_model) = Some progression ->
  step_ok (step_of progression) ->
  let units ticks := match step_of progression with Some s => ticks / s | None => ticks end in
  let scale n := match step_of progression with Some s => n * s | None => n end in
  let timing := next_activity_timing policy time_model participant_address segment occurrence current control in
  match draw_activity_integer (DrawContext policy participant_address segment occurrence control) 0
          (units (ap_timing_minimum_ticks policy)) (units (ap_timing_maximum_ticks policy)) with
  | Raise e => timing = Raise e
  | Ok n =>
      let candidate := current + scale n in
      units (ap_timing_minimum_ticks policy) <= n <= units (ap_timing_maximum_ticks policy) /\
      ((works_at policy time_model candidate /\ timing = Ok (TimingSelection (Some candidate) "drawn")) \/
       (~ works_at policy time_model candidate /\ ap_outside_window_disposition policy = "skip" /\
          timing = Ok (TimingSelection None "drawn")) \/
       (~ works_at policy time_model candidate /\ ap_outside_window_disposition policy <> "skip" /\
          exists opening, timing = Ok (TimingSelection opening "next_opening") /\
          match opening with
          | Some t => candidate < t /\ aligned (step_of progression) t /\ works_at policy time_model t /\
              forall t', candidate <= t' < t -> aligned (step_of progression) t' -> ~ works_at policy time_model t'
          | None => forall t', candidate <= t' -> aligned (step_of progression) t' -> ~ works_at policy time_model t'
          end))
  end.
Proof. apply next_activity_timing_run. Qed.

Lemma activity_timing_exact_witness :
  @next_activity_timing RandomSample.packages ActivitySample.policy ActivitySample.time_model ActivitySample.participant 0 0 5 ActivitySample.control
    = Ok (TimingSelection (Some 15) "next_opening").
Proof.
  pose proof (@activity_timing_exact RandomSample.packages ActivitySample.policy ActivitySample.time_model ActivitySample.participant 0 0 5
    ActivitySample.control ActivitySample.progression) as H.
  assert (@draw_activity_integer RandomSample.packages (DrawContext ActivitySample.policy ActivitySample.participant 0 0 ActivitySample.control) 0 7 7
    = Ok 7) as Hdraw by (vm_compute; reflexivity).
  change (step_of ActivitySample.progression) with (@None Z) in H. cbn -[draw_activity_integer next_activity_timing works_at] in H.
  rewrite Hdraw in H. destruct H as [_ H].
  - vm_decide.
  - apply ActivitySample.work_resolve.
  - apply ActivitySample.pauses_resolve.
  - reflexivity.
  - exact I.
  - destruct H as [[_ H]|[(_ & H & _)|(_ & _ & opening & H & _)]]; [vm_compute in H; discriminate|vm_compute in H; discriminate|].
    rewrite H. vm_compute in H. injection H as <-. reflexivity.
Defined.

(** ** Selection *)

(** C33: the selection of an action is exact. The candidates considered are, in
    order, those whose dependencies are completed and whose cooldown is over.
    Without one nothing is selected. Otherwise the selection is a function of
    one draw below the total of their weights, never fails to resolve, and
    selects each candidate on exactly as many draws as its weight. A refused
    draw refuses the selection. *)
Theorem weighted_selection_exact policy s tick :
  length (ap_action_candidate_dependencies policy) = length (ap_action_candidate_ids policy) ->
  length (ap_action_candidate_weights policy) = length (ap_action_candidate_ids policy) ->
  Forall (fun w => 1 <= w) (ap_action_candidate_weights policy) ->
  let weight i := default 0 (ap_action_candidate_weights policy !! Z.to_nat i) in
  exists indices, activity_eligible_indices policy s tick = Ok indices /\ StronglySorted Z.lt indices /\
    (forall i, i ∈ indices <-> 0 <= i /\ candidate_ready policy s tick i) /\
    let total := py_sum (weight <$> indices) in
    exists choose : Z -> Z,
      (forall u, 0 <= u < total -> choose u ∈ indices) /\
      (forall i, i ∈ indices -> length (List.filter (fun u => choose u =? i) (seqZ 0 total)) = Z.to_nat (weight i)) /\
      forall (packages : RandomPackages) participant_address segment occurrence control,
        let selected := @select_activity_candidate packages policy participant_address segment occurrence control indices in
        (indices = [] -> selected = Ok None) /\
        (indices <> [] ->
         match @draw_activity_integer packages (DrawContext policy participant_address segment occurrence control) 1 0 (total - 1) with
         | Raise e => selected = Raise e
         | Ok u => 0 <= u < total /\ selected = Ok (Some (choose u))
         end).
Proof.
  intros Hdeps Hweights Hpos weight. destruct (eligible_indices_run policy s tick Hdeps) as (indices & Hrun & Hsorted & Hready).
  exists indices. split; [done|]. split; [done|]. split; [done|]. intros total.
  set (weights := ap_action_candidate_weights policy) in *.
  assert (Forall (indexed weights) indices) as Hidx.
  { apply Forall_forall. intros i (Hi & id & deps & Hid & _)%Hready. apply lookup_lt_Some in Hid. unfold indexed, py_len. lia. }
  assert (forall i, i ∈ indices -> weight_at weights i = weight i) as Hw.
  { intros i Hin. rewrite Forall_forall in Hidx. specialize (Hidx i Hin). destruct (weight_at_run weights Hpos i Hidx) as [Hok _].
    destruct Hidx as [Hi _]. apply py_index_lookup in Hok; [|done]. unfold weight. by rewrite Hok. }
  assert (weight_at weights <$> indices = weight <$> indices) as Hws by (apply list_fmap_ext; intros ? i ?%list_elem_of_lookup_2; by apply Hw).
  exists (fun u => match weighted_index weights u 0 indices with Ok i => i | Raise _ => -1 end).
  assert (forall u, 0 <= u < total -> exists i, weighted_index weights u 0 indices = Ok i /\ i ∈ indices) as Hchoose.
  { intros u Hu. apply weighted_index_run; [done..|]. by rewrite Hws. }
  split; [intros u Hu; by destruct (Hchoose u Hu) as (i & -> & ?)|]. split.
  - intros i Hin. rewrite <-Hw by done.
    rewrite <-(weighted_index_count weights Hpos indices 0 i (sorted_lt_NoDup _ Hsorted) Hidx Hin), Hws. fold total.
    f_equal. apply List.filter_ext_in. intros u Hu%list_elem_of_In%elem_of_seqZ. unfold selects.
    destruct (Hchoose u) as (j & -> & _); [lia|done].
  - intros packages participant segment occurrence control selected. unfold selected, select_activity_candidate. split; [by intros ->|].
    intros Hne. replace (match indices with [] => Ok None | _ => _ end) with
      (selected ← draw_activity_integer (DrawContext policy participant segment occurrence control) 1 0 (total - 1);
       index ← weighted_index weights selected 0 indices; Ok (Some index)).
    2: { fold weights. rewrite (weights_run weights Hpos indices Hidx), Hws. by destruct indices. }
    destruct (draw_activity_integer _ 1 0 _) as [u|e] eqn:Hd; [|done]. apply draw_activity_range in Hd. cbn [mbind result_bind].
    destruct (Hchoose u) as (i & -> & _); [lia|]. split; [lia|done].
Qed.

Lemma weighted_selection_exact_witness :
  @select_activity_candidate RandomSample.packages ActivitySample.policy ActivitySample.participant 0 0 ActivitySample.control [0] = Ok (Some 0).
Proof.
  destruct (weighted_selection_exact ActivitySample.policy ActivitySample.state 11) as (indices & Hindices & _ & _ & choose & Hin & _ & Hselect);
    [reflexivity|reflexivity|repeat constructor; lia|].
  vm_compute in Hindices. injection Hindices as <-.
  destruct (Hselect RandomSample.packages ActivitySample.participant 0 0 ActivitySample.control) as [_ H].
  assert (@draw_activity_integer RandomSample.packages (DrawContext ActivitySample.policy ActivitySample.participant 0 0 ActivitySample.control) 1 0 2
    = Ok 1) as Hdraw by (vm_compute; reflexivity).
  change (py_sum _ - 1) with 2 in H. rewrite Hdraw in H. destruct H as [Hu H]; [discriminate|]. rewrite H. do 2 f_equal.
  specialize (Hin 1 Hu). by apply list_elem_of_singleton in Hin.
Defined.

(** ** Passes *)

(** C34: a pass over a due participant is safe and terminates. For a compiled
    policy and a state it stored, the only exceptions are those of a random draw
    or of the parts that bind, reserve, perform, settle and annotate an action.
    A missed tick fails the run and changes nothing. Otherwise the pass leaves a
    state that its validator accepts, of the same identity, whose counts have
    not fallen and whose attempts stay within the policy; the states of other
    participants are unchanged; and unless the run has failed the participant is
    not due any more: it has stopped, an action is in flight, or its next tick
    lies in the future. *)
Theorem due_pass_exact `{!RandomPackages} {W} `{!ActivityActions W} context (run : SchedulerRun W) s :
  0 <= due_current_tick context ->
  (if decide (ap_profile (due_policy context) = V2 \/ ap_profile (due_policy context) = V3)
   then policy_ok (due_policy context) (due_time_model context) /\ is_Some (due_activity_control context)
   else 1 <= due_cadence_ticks context /\ ap_action_contract_addresses (due_policy context) <> [] /\ es_current_retry s = 0) ->
  run_states run !! due_key context = Some s -> stored_ok (due_policy context) s ->
  match run_participant_due context run with
  | Raise e => raised_outside e
  | Ok run' =>
      (es_lifecycle_state s = "running" -> es_next_tick s < due_current_tick context -> run' = fail_run run) /\
      (exists s', run_states run' !! due_key context = Some s' /\ stored_ok (due_policy context) s' /\
         validate_execution_state s' = Ok s' /\ progresses s s' /\
         es_attempted_actions s' <= Z.max (es_attempted_actions s) (ap_max_action_attempts (due_policy context)) /\
         (run_failure run' = false -> es_lifecycle_state s' = "running" -> es_in_flight s' = 0 ->
          due_current_tick context < es_next_tick s')) /\
      forall k, k <> due_key context -> run_states run' !! k = run_states run !! k
  end.
Proof.
  intros Hnow Hprofile Hget Hs. unfold run_participant_due. rewrite (proj2 (dict_index_Ok _ _ _) Hget). cbn [mbind result_bind].
  rewrite (proj2 (validate_execution_state_Ok s s)) by (split; [done|apply Hs]). cbn [mbind result_bind].
  assert (forall run', passed context s run run' -> exists s', run_states run' !! due_key context = Some s' /\ stored_ok (due_policy context) s' /\
    validate_execution_state s' = Ok s' /\ progresses s s' /\
    es_attempted_actions s' <= Z.max (es_attempted_actions s) (ap_max_action_attempts (due_policy context)) /\
    (run_failure run' = false -> es_lifecycle_state s' = "running" -> es_in_flight s' = 0 -> due_current_tick context < es_next_tick s')) as Hpassed.
  { intros run' [(s' & H1 & H2 & [H3 H4] & H5) _]. exists s'. split_and!; try done. apply validate_execution_state_Ok. split; [done|apply H2]. }
  assert (advances context s s) as Hadv by (split; [done|lia]).
  assert (in_hand context s run s run) as Hhand by (split_and!; try done; split; [by exists s|done]).
  destruct (bool_decide (es_lifecycle_state s = "running") && (es_next_tick s <? due_current_tick context)) eqn:Hmissed.
  - split; [done|]. split; [|done]. apply Hpassed. split; [|done]. exists s. by split_and!.
  - assert (outcome (passed context s run) (if decide (ap_profile (due_policy context) = V2 \/ ap_profile (due_policy context) = V3) then
      activity_due_loop (due_fuel context s) context s run else cadence_due_loop (due_fuel context s) context s run)) as Hout.
    { assert (run_failure run = false -> not_late context s) as Hlate.
      { intros _ Hrun. rewrite bool_decide_eq_true_2 in Hmissed by done. cbn in Hmissed. apply Z.ltb_ge in Hmissed. done. }
      assert (fuel_left context (due_fuel context s) s run) by (right; unfold due_fuel; lia).
      case_decide; [destruct Hprofile; by apply activity_loop_run|destruct Hprofile as (? & ? & ?); by apply cadence_loop_run]. }
    destruct (if decide _ then _ else _) as [run'|e]; [|exact Hout]. split; [|split; [by apply Hpassed|apply Hout]].
    intros Hrun Hlt. rewrite bool_decide_eq_true_2 in Hmissed by done. cbn in Hmissed. apply Z.ltb_ge in Hmissed. lia.
Qed.

Lemma due_pass_exact_witness :
  exists run' s', @run_participant_due RandomSample.packages nat ActivitySample.actions ActivitySample.context ActivitySample.run = Ok run' /\
    run_states run' !! "key" = Some s' /\ es_attempted_actions s' = 1 /\ 11 < es_next_tick s'.
Proof.
  pose proof (@due_pass_exact RandomSample.packages nat ActivitySample.actions ActivitySample.context ActivitySample.run ActivitySample.state) as H.
  destruct (@run_participant_due RandomSample.packages nat ActivitySample.actions ActivitySample.context ActivitySample.run) as [run'|e] eqn:E.
  2: { exfalso. vm_compute in E. discriminate. }
  destruct H as (_ & (s' & Hget & _ & _ & _ & _ & Htick) & _).
  - vm_compute. discriminate.
  - rewrite decide_True by (left; reflexivity). split; [|eexists; reflexivity].
    apply ActivitySample.policy_laws.
  - reflexivity.
  - constructor; [apply (proj1 (validate_execution_state_Ok ActivitySample.state ActivitySample.state)); vm_compute; reflexivity|intros _; vm_compute; reflexivity|intros Hr; exfalso; apply Hr; reflexivity].
  - exists run', s'. split; [reflexivity|]. split; [exact Hget|]. vm_compute in E. injection E as <-.
    vm_compute in Hget. injection Hget as <-. split; reflexivity.
Defined.

(** ** Resets *)

(** After a reset of the shared clock a participant starts again with the
    schedule an initialization in the same segment gives it, and no history. It
    is set running also when that schedule has no tick, where an initialization
    completes it. *)
Theorem reset_schedule `{!RandomPackages} policy addresses time_model s participant episode segment tick control r :
  reset_participant_state policy addresses time_model s participant episode segment tick (Some control) = Ok r ->
  exists first burst disposition,
    _initial_activity_schedule policy addresses time_model participant segment tick (Some control) = Ok (first, burst, disposition) /\
    es_lifecycle_state r = "running" /\ es_next_tick r = default tick first /\ es_burst_size r = burst /\
    es_next_timing_disposition r = disposition /\ es_episode_id r = episode /\ es_time_segment r = segment /\
    (es_attempted_actions r, es_succeeded_actions r, es_failed_actions r, es_in_flight r, es_occurrence_ordinal r, es_current_retry r,
     es_burst_position r) = (0, 0, 0, 0, 0, 0, 0) /\ es_completed_candidate_ids r = [] /\ es_candidate_cooldown_until r = dict_empty.
Proof.
  unfold reset_participant_state, _initial_activity_schedule. cbn [reset_cadence_tick mbind result_bind]. intros (sched & Hsched & Hr)%bind_Ok.
  apply bind_Ok in Hsched as (burst & -> & Hsched). apply bind_Ok in Hsched as (timing & -> & Hsched). injection Hsched as <-.
  injection Hr as <-. exists (ts_tick timing), burst, (ts_disposition timing). by split_and!.
Qed.

(** So a participant may act where it does not work: at tick 50 the sample
    schedule is over, an initialization completes the participant, and a reset
    makes it act at once. *)
Example reset_acts_outside_windows :
  let policy := ActivitySample.policy_with V2 "skip" in
  let packages := RandomSample.packages in
  let actions := ActivitySample.actions in
  let identity := Identity "digest" ActivitySample.participant "episode-1" "implementation" "time.clock.main" in
  ~ works_at policy ActivitySample.time_model 50 /\
  match @_initial_participant_state packages policy [] ActivitySample.time_model identity 1 50 (Some ActivitySample.control),
        @reset_participant_state packages policy [] ActivitySample.time_model ActivitySample.state ActivitySample.participant "episode-2" 1 50
          (Some ActivitySample.control) with
  | Ok initial, Ok r =>
      es_lifecycle_state initial = "completed" /\
      match @run_participant_due packages nat actions (DueContext policy ActivitySample.time_model ActivitySample.participant "key" 50 0
              (Some ActivitySample.control)) (Run (<["key" := r]> dict_empty) 0%nat [] false) with
      | Ok run' => run_world run' = 1%nat
      | Raise _ => False
      end
  | _, _ => False
  end.
Proof.
  cbv zeta. split.
  - intros [(c & Hc & Ha & Hcov) _]. unfold ActivitySample.time_model in Hc. cbn [cm_constraints] in Hc.
    repeat (apply elem_of_cons in Hc as [->|Hc]); [..|by apply elem_of_nil in Hc]; cbn in Hcov; lia.
  - vm_compute. split; reflexivity.
Qed.
