(* ===== verification/Variation.v ===== *)
(** Variation points of a scenario family and what may be selected from them:
    the bounded value domains ([raes_contracts/bounded_domains.py]), the points
    with the search for an admissible order ([raes/variation.py]), and the
    admission of selected outcomes ([raes/experiment_selection.py]). The finite
    floats of a domain are the rationals they denote. *)
From S2P Require Import Prelude.
From S2P Require Import Contracts.
From S2P Require Import RandomStream.
From Stdlib Require Import QArith Qround.
Local Open Scope string_scope.
Local Open Scope list_scope.
Local Open Scope Z_scope.

(** ** Domains *)

(** [bool | int | float | str]. *)
Inductive DomainScalar : Type :=
| SBool (b : bool)
| SInt (z : Z)
| SFloat (q : Q)
| SString (s : string).

Inductive NumericType : Type := INTEGER | NUMBER.
#[export] Instance NumericType_eq_dec : EqDecision NumericType.
Proof. solve_decision. Defined.

Record NumericIntervalDomain : Type := NumericInterval {
  numeric_type : NumericType;
  lower : Q;
  upper : Q;
  lower_closed : bool;
  upper_closed : bool;
}.

(** The scalar domains of a variation point. *)
Inductive ScalarDomain : Type :=
| ExactDomain (value : DomainScalar)
| EnumDomain (values : list DomainScalar)
| BooleanDomain (value : option bool)
| IntervalDomain (domain : NumericIntervalDomain).

(** [type(value) is type(member) and value == member]. *)
Definition _scalar_eq (value member : DomainScalar) : bool :=
  match value, member with
  | SBool a, SBool b => Bool.eqb a b
  | SInt a, SInt b => a =? b
  | SFloat a, SFloat b => Qeq_bool a b
  | SString a, SString b => String.eqb a b
  | _, _ => false
  end.

(** The values are pairwise distinct under an equality. *)
Fixpoint unique_by {A} (eqb : A -> A -> bool) (l : list A) : bool :=
  match l with [] => true | a :: l => negb (existsb (eqb a) l) && unique_by eqb l end.

Definition validate_enum_domain (values : list DomainScalar) : result unit :=
  _ ← require_fields [("values", bool_decide (values <> []))];
  raise_if (negb (unique_by _scalar_eq values)) (ValueError "enum domain values must be unique").

(** [int(q)] truncates towards zero. *)
Definition int_of_float (q : Q) : Z := Z.quot (Qnum q) (Zpos (Qden q)).
Definition is_integral (q : Q) : bool := Qeq_bool q (inject_Z (int_of_float q)).
Definition q_lt (a b : Q) : bool := negb (Qle_bool b a).

Definition validate_interval (d : NumericIntervalDomain) : result unit :=
  _ ← raise_if (bool_decide (numeric_type d = INTEGER) && (negb (is_integral (lower d)) || negb (is_integral (upper d))))
    (ValueError "integer numeric-interval endpoints must be integral");
  _ ← raise_if (q_lt (upper d) (lower d)) (ValueError "numeric-interval lower endpoint must not exceed upper");
  raise_if (Qeq_bool (lower d) (upper d) && negb (lower_closed d && upper_closed d))
    (ValueError "degenerate numeric-interval must be closed on both endpoints").

Definition validate_scalar_domain (d : ScalarDomain) : result unit :=
  match d with
  | EnumDomain values => validate_enum_domain values
  | IntervalDomain d => validate_interval d
  | _ => Ok tt
  end.

Definition scalar_matches_numeric_type (value : DomainScalar) (t : NumericType) : bool :=
  match value, t with
  | SInt _, _ => true
  | SFloat _, NUMBER => true
  | _, _ => false
  end.

(** [float(z)]: the nearest integer of 53 significant bits, ties to even; an
    integer that rounds beyond the largest float raises. *)
Definition float_of_int (z : Z) : result Q :=
  let e := Z.log2 (Z.abs z) - 52 in
  if e <=? 0 then Ok (inject_Z z)
  else
    let unit := 2 ^ e in
    let m := Z.abs z / unit in
    let rest := Z.abs z mod unit in
    let m := if (unit <? 2 * rest) || ((2 * rest =? unit) && Z.odd m) then m + 1 else m in
    _ ← raise_if (2 ^ 1024 <=? m * unit) (OverflowError "int too large to convert to float");
    Ok (inject_Z (Z.sgn z * (m * unit))).

(** [float(value)]. *)
Definition number_of (value : DomainScalar) : result Q :=
  match value with SInt z => float_of_int z | SFloat q => Ok q | _ => Ok 0%Q end.

Definition _interval_member (value : DomainScalar) (d : NumericIntervalDomain) : result bool :=
  if negb (scalar_matches_numeric_type value (numeric_type d)) then Ok false
  else
    numeric ← number_of value;
    let lower_ok := if lower_closed d then Qle_bool (lower d) numeric else q_lt (lower d) numeric in
    let upper_ok := if upper_closed d then Qle_bool numeric (upper d) else q_lt numeric (upper d) in
    Ok (lower_ok && upper_ok).

Definition scalar_in_domain (value : DomainScalar) (d : ScalarDomain) : result bool :=
  match d with
  | ExactDomain member => Ok (_scalar_eq value member)
  | EnumDomain values => Ok (existsb (_scalar_eq value) values)
  | BooleanDomain expected =>
      Ok (match value with SBool b => match expected with None => true | Some e => Bool.eqb b e end | _ => false end)
  | IntervalDomain d => _interval_member value d
  end.

(** ** Orders *)

(** The members by name with their references, taken as already qualified, the precedence edges and the
    pinned positions of an order point. *)
Record OrderConstraints : Type := Order {
  oc_members : dict string string;
  oc_precedence : list (string * string);
  oc_fixed_positions : dict string Z;
}.

Definition VARIATION_SATISFIABILITY_STATE_LIMIT : Z := 100000.

Section witness.
Context (names : list string) (edges : list (string * string)) (fixed_positions : dict string Z).

(** [tuple(sorted(names))]; the inverse of the pinned positions. *)
Definition _ordered_names : list string := py_sorted names.
Definition _fixed_by_position : dict Z string := dict_of_list ((fun kv => (kv.2, kv.1)) <$> dict_items fixed_positions).
Definition _predecessors (name : string) : list string := (List.filter (fun e => String.eqb e.2 name) edges).*1.

Definition _has_overdue_fixed_member (placed : gset string) (position : Z) : bool :=
  existsb (fun kv => (kv.2 <? position) && bool_decide (kv.1 ∉ placed)) (dict_items fixed_positions).

Definition _candidates (position : Z) : list string :=
  match _fixed_by_position !! position with Some name => [name] | None => _ordered_names end.

Definition candidate_eligible (name : string) (placed : gset string) (position : Z) : bool :=
  bool_decide (name ∉ placed)
  && match fixed_positions !! name with None => true | Some pinned => pinned =? position end
  && forallb (fun p => bool_decide (p ∈ placed)) (_predecessors name).

(** The memo of the search and the number of states it explored. *)
Abbreviation search := (gmap (gset string) bool * Z)%type.

(** [any(self._candidate_has_witness(name, ...) for name in candidates)]. *)
Fixpoint any_candidate (visit : gset string -> search -> result (bool * search)) (placed : gset string) (position : Z)
    (candidates : list string) (st : search) : result (bool * search) :=
  match candidates with
  | [] => Ok (false, st)
  | name :: candidates =>
      if candidate_eligible name placed position then
        found ← visit ({[name]} ∪ placed) st;
        if (found.1 : bool) then Ok found else any_candidate visit placed position candidates found.2
      else any_candidate visit placed position candidates st
  end.

Fixpoint _visit (fuel : nat) (placed : gset string) (st : search) : result (bool * search) :=
  match st.1 !! placed with
  | Some cached => Ok (cached, st)
  | None =>
      let st := (st.1, st.2 + 1) in
      if VARIATION_SATISFIABILITY_STATE_LIMIT <? st.2 then
        Raise (ValueError "order constraints exceed the deterministic satisfiability budget")
      else
        let position := Z.of_nat (size placed) in
        found ←
          (if position =? py_len _ordered_names then Ok (true, st)
           else if _has_overdue_fixed_member placed position then Ok (false, st)
           else match fuel with
                | O => Raise OutOfFuel
                | S fuel => any_candidate (_visit fuel) placed position (_candidates position) st
                end);
        Ok (found.1, (<[placed := found.1]> found.2.1, found.2.2))
  end.

(** Every placed member leaves one less to place. *)
Definition has_witness : result bool :=
  found ← _visit (length names) ∅ (∅, 0); Ok found.1.
End witness.

Definition _order_constraints_have_witness (names : list string) (edges : list (string * string)) (fixed_positions : dict string Z)
    : result bool := has_witness names edges fixed_positions.

(** The edges of a precedence list; a set of them is iterated in this order. *)
Definition _validated_order_edges (names : list string) (precedence : list (string * string)) : result (list (string * string)) :=
  let edges := remove_dups precedence in
  _ ← raise_if (negb (py_len edges =? py_len precedence)) (ValueError "order precedence edges must be unique");
  _ ← raise_if (existsb (fun e => bool_decide (e.1 ∉ names) || bool_decide (e.2 ∉ names)) edges)
    (ValueError "order precedence references an undefined member");
  Ok edges.

Definition _validate_fixed_positions (names : list string) (fixed_positions : dict string Z) : result unit :=
  _ ← raise_if (existsb (fun name => bool_decide (name ∉ names)) (dict_keys fixed_positions))
    (ValueError "order fixed_positions references an undefined member");
  let positions := (dict_items fixed_positions).*2 in
  _ ← raise_if (existsb (fun p => (p <? 0) || (py_len names <=? p)) positions)
    (ValueError "order fixed position must be within the member range");
  raise_if (negb (bool_decide (NoDup positions))) (ValueError "order fixed positions must be unique").

(** The pending counts and the successor lists, edge by edge. *)
Record OrderGraph : Type := Graph {
  og_pending : dict string Z;
  og_outgoing : dict string (list string);
}.

Definition add_edge (g : OrderGraph) (e : string * string) : result OrderGraph :=
  successors ← dict_index (og_outgoing g) e.1;
  count ← dict_index (og_pending g) e.2;
  Ok (Graph (<[e.2 := count + 1]> (og_pending g)) (<[e.1 := successors ++ [e.2]]> (og_outgoing g))).

(** One successor of a visited member. *)
Definition release_successor (st : dict string Z * list string) (successor : string) : result (dict string Z * list string) :=
  count ← dict_index st.1 successor;
  let pending := <[successor := count - 1]> st.1 in
  Ok (pending, if count - 1 =? 0 then st.2 ++ [successor] else st.2).

(** [ready.pop()] takes the last one. *)
Fixpoint order_loop (fuel : nat) (outgoing : dict string (list string)) (pending : dict string Z) (ready : list string) (visited : Z)
    : result Z :=
  match reverse ready with
  | [] => Ok visited
  | current :: rest =>
      match fuel with
      | O => Raise OutOfFuel
      | S fuel =>
          successors ← dict_index outgoing current;
          st ← mfold release_successor (pending, reverse rest) successors;
          order_loop fuel outgoing st.1 st.2 (visited + 1)
      end
  end.

Definition _order_graph_is_acyclic (names : list string) (edges : list (string * string)) : result bool :=
  let empty := Graph (dict_of_list ((fun n => (n, 0)) <$> names)) (dict_of_list ((fun n => (n, [])) <$> names)) in
  g ← mfold add_edge empty edges;
  let ready := (List.filter (fun kv : string * Z => kv.2 =? 0) (dict_items (og_pending g))).*1 in
  visited ← order_loop (length names) (og_outgoing g) (og_pending g) ready 0;
  Ok (visited =? py_len names).

Definition validate_order_constraints (o : OrderConstraints) : result unit :=
  let names := dict_keys (oc_members o) in
  _ ← raise_if (negb (py_unique (dict_items (oc_members o)).*2)) (ValueError "order member references must be unique");
  edges ← _validated_order_edges names (oc_precedence o);
  _ ← _validate_fixed_positions names (oc_fixed_positions o);
  acyclic ← _order_graph_is_acyclic names edges;
  _ ← raise_if (negb acyclic) (ValueError "order precedence graph must be acyclic");
  if bool_decide (dict_items (oc_fixed_positions o) = []) then Ok tt
  else
    witness ← _order_constraints_have_witness names edges (oc_fixed_positions o);
    raise_if (negb witness) (ValueError "order constraints must admit at least one ordering").

(** ** Points *)

Inductive VariationPoint : Type :=
| ParameterVariationPoint (domain : ScalarDomain)
| LogicalTimingVariationPoint (domain : ScalarDomain)
| GovernedReferenceVariationPoint (allowed_refs : list string)
| AlternativeVariationPoint (alternatives : dict string string)
| SubsetVariationPoint (members : dict string string) (minimum : Z) (maximum : option Z)
| OrderVariationPoint (order : OrderConstraints).

Definition validate_variation_point (point : VariationPoint) : result unit :=
  match point with
  | ParameterVariationPoint d | LogicalTimingVariationPoint d => validate_scalar_domain d
  | GovernedReferenceVariationPoint refs =>
      _ ← require_fields [("allowed_refs", bool_decide (refs <> []) && forallb nonempty refs)];
      raise_if (negb (py_unique refs)) (ValueError "governed-reference allowed_refs must be unique")
  | AlternativeVariationPoint alternatives =>
      _ ← require_fields [("alternatives", bool_decide (dict_keys alternatives <> []) && forallb is_portable_identifier (dict_keys alternatives))];
      raise_if (negb (py_unique (dict_items alternatives).*2)) (ValueError "alternative references must be unique")
  | SubsetVariationPoint members minimum maximum =>
      _ ← require_fields
        [("members", bool_decide (dict_keys members <> []) && forallb is_portable_identifier (dict_keys members));
         ("minimum", at_least 0 minimum); ("maximum", match maximum with Some m => at_least 0 m | None => true end)];
      let upper := default (py_len (dict_keys members)) maximum in
      _ ← raise_if (upper <? minimum) (ValueError "subset minimum must not exceed maximum");
      _ ← raise_if (py_len (dict_keys members) <? upper) (ValueError "subset maximum must not exceed member count");
      raise_if (negb (py_unique (dict_items members).*2)) (ValueError "subset member references must be unique")
  | OrderVariationPoint o =>
      _ ← require_fields
        [("members", bool_decide (dict_keys (oc_members o) <> []) && forallb is_portable_identifier (dict_keys (oc_members o)));
         ("precedence", forallb (fun e => is_portable_identifier e.1 && is_portable_identifier e.2) (oc_precedence o))];
      _ ← raise_if (existsb (fun e => String.eqb e.1 e.2) (oc_precedence o))
        (ValueError "order precedence must name distinct members");
      validate_order_constraints o
  end.

(** ** Selected outcomes *)

(** A literal may be null, which no scalar domain holds. *)
Inductive SelectionOutcome : Type :=
| LiteralOutcome (value : option DomainScalar)
| ReferenceOutcome (reference_id : string)
| MemberOutcome (member_id : string)
| SubsetOutcome (member_ids : list string)
| OrderOutcome (member_ids : list string).

Definition MAX_SELECTION_OUTCOMES : Z := 1024.

Definition validate_outcome (outcome : SelectionOutcome) : result unit :=
  match outcome with
  | LiteralOutcome _ => Ok tt
  | ReferenceOutcome id => require_fields [("reference_id", nonempty id)]
  | MemberOutcome id => require_fields [("member_id", is_portable_identifier id)]
  | SubsetOutcome ids =>
      _ ← require_fields [("member_ids", forallb is_portable_identifier ids && (py_len ids <=? MAX_SELECTION_OUTCOMES))];
      raise_if (negb (py_unique ids)) (ValueError "selection subset member_ids must be unique")
  | OrderOutcome ids =>
      _ ← require_fields [("member_ids", forallb is_portable_identifier ids && in_range 1 MAX_SELECTION_OUTCOMES (py_len ids))];
      raise_if (negb (py_unique ids)) (ValueError "selection order member_ids must be unique")
  end.

(** [{member: index for index, member in enumerate(ids)}]. *)
Definition order_positions (ids : list string) : dict string Z := dict_of_list (zip ids (seqZ 0 (py_len ids))).

Definition precedence_violated (positions : dict string Z) (e : string * string) : result bool :=
  before ← dict_index positions e.1;
  after ← dict_index positions e.2;
  Ok (after <=? before).
Definition position_violated (positions : dict string Z) (kv : string * Z) : result bool :=
  position ← dict_index positions kv.1; Ok (negb (position =? kv.2)).

(** [any(p(a) for a in l)], where [p] may raise. *)
Fixpoint many_any {A} (p : A -> result bool) (l : list A) : result bool :=
  match l with [] => Ok false | a :: l => b ← p a; if (b : bool) then Ok true else many_any p l end.

Definition _validate_order_outcome (o : OrderConstraints) (outcome : SelectionOutcome) : result unit :=
  match outcome with
  | OrderOutcome ids =>
      let names := dict_keys (oc_members o) in
      _ ← raise_if (negb (bool_decide (ids ⊆ names) && bool_decide (names ⊆ ids)))
        (ValueError "order selection must contain every declared member exactly once");
      let positions := order_positions ids in
      violated ← many_any (precedence_violated positions) (oc_precedence o);
      _ ← raise_if violated (ValueError "order selection violates declared precedence");
      violated ← many_any (position_violated positions) (dict_items (oc_fixed_positions o));
      raise_if violated (ValueError "order selection violates declared fixed positions")
  | _ => Raise (ValueError "order variation point requires an order selection outcome")
  end.

Definition _validate_subset_outcome (members : dict string string) (minimum : Z) (maximum : option Z) (outcome : SelectionOutcome)
    : result unit :=
  match outcome with
  | SubsetOutcome ids =>
      let selected := remove_dups ids in
      _ ← raise_if (negb (bool_decide (selected ⊆ dict_keys members))) (ValueError "subset selection includes an undeclared member");
      let maximum := default (py_len (dict_keys members)) maximum in
      raise_if (negb ((minimum <=? py_len selected) && (py_len selected <=? maximum)))
        (ValueError "subset selection violates declared cardinality")
  | _ => Raise (ValueError "subset variation point requires a subset selection outcome")
  end.

Definition validate_selection_outcome (point : VariationPoint) (outcome : SelectionOutcome) : result unit :=
  match point with
  | ParameterVariationPoint d | LogicalTimingVariationPoint d =>
      admitted ← match outcome with LiteralOutcome (Some v) => scalar_in_domain v d | _ => Ok false end;
      raise_if (negb admitted) (ValueError "fixed selection literal is outside the declared point domain")
  | GovernedReferenceVariationPoint refs =>
      raise_if (negb (match outcome with ReferenceOutcome id => bool_decide (id ∈ refs) | _ => false end))
        (ValueError "fixed selection reference is outside the declared point domain")
  | AlternativeVariationPoint alternatives =>
      raise_if (negb (match outcome with MemberOutcome id => bool_decide (id ∈ dict_keys alternatives) | _ => false end))
        (ValueError "fixed selection member is outside the declared point domain")
  | SubsetVariationPoint members minimum maximum => _validate_subset_outcome members minimum maximum outcome
  | OrderVariationPoint o => _validate_order_outcome o outcome
  end.

(** ** Finite populations *)

Definition MAX_SELECTION_OUTPUT_BOUND : Z := 1000000.

(** [math.ceil] and [math.floor] of the endpoints, moved inside an open end. *)
Definition interval_bounds (d : NumericIntervalDomain) : Z * Z :=
  let low := Qceiling (lower d) in
  let high := Qfloor (upper d) in
  (if negb (lower_closed d) && Qeq_bool (inject_Z low) (lower d) then low + 1 else low,
   if negb (upper_closed d) && Qeq_bool (inject_Z high) (upper d) then high - 1 else high).

Definition _integer_interval_cardinality (d : ScalarDomain) : result Z :=
  match d with
  | IntervalDomain d =>
      if decide (numeric_type d = INTEGER) then
        let bounds := interval_bounds d in
        let cardinality := bounds.2 - bounds.1 + 1 in
        _ ← raise_if (cardinality <? 1) (ValueError "selection policy domain is empty");
        Ok cardinality
      else Raise (ValueError "continuous or unsupported domains cannot be enumerated or sampled")
  | _ => Raise (ValueError "continuous or unsupported domains cannot be enumerated or sampled")
  end.

Definition scalar_domain_cardinality (d : ScalarDomain) : result Z :=
  match d with
  | ExactDomain _ => Ok 1
  | EnumDomain values => Ok (py_len values)
  | BooleanDomain value => Ok (match value with Some _ => 1 | None => 2 end)
  | IntervalDomain _ => _integer_interval_cardinality d
  end.

Definition _finite_policy_population (point : VariationPoint) : result Z :=
  cardinality ←
    (match point with
     | ParameterVariationPoint d | LogicalTimingVariationPoint d => scalar_domain_cardinality d
     | GovernedReferenceVariationPoint refs => Ok (py_len refs)
     | AlternativeVariationPoint alternatives => Ok (py_len (dict_keys alternatives))
     | _ => Raise (ValueError "selection policy kind is unsupported for subset or order variation points")
     end);
  _ ← raise_if (MAX_SELECTION_OUTPUT_BOUND <? cardinality) (ValueError "selection policy finite population exceeds the admission bound");
  Ok cardinality.
