(* ===== verification/VariationSpec.v ===== *)
(** What variation points promise: an order point is accepted exactly when its
    constraints admit an order, a selection exactly when the point admits it, and
    an integer interval counts exactly the integers it contains; with the lemmas
    on the search for an order behind it. *)
From S2P Require Import Prelude.
From S2P Require Import Contracts.
From S2P Require Import RandomStream.
From S2P Require Import Variation.
From Stdlib Require Import QArith Qround.
Local Open Scope string_scope.
Local Open Scope list_scope.
Local Open Scope Z_scope.

(** ** Subsets of a list *)

Fixpoint code (bits : list bool) : nat :=
  match bits with [] => 0 | b :: bits => (if b then 1 else 0) + 2 * code bits end%nat.

Lemma code_bound bits : (code bits < 2 ^ length bits)%nat.
Proof. induction bits as [|b bits IH]; cbn [code length Nat.pow]; [lia|]. destruct b; lia. Qed.

Lemma code_inj bits bits' : length bits = length bits' -> code bits = code bits' -> bits = bits'.
Proof.
  revert bits'. induction bits as [|b bits IH]; intros [|b' bits']; cbn [code length]; try done.
  intros [= Hlen] Hcode. assert (b = b' /\ code bits = code bits') as [-> Hc] by (destruct b, b'; split; (done || lia)).
  f_equal. by apply IH.
Qed.

(** A list has at most [2 ^ n] subsets. *)
Lemma subsets_bound (names : list string) (sets : list (gset string)) :
  NoDup sets -> (forall P, P ∈ sets -> P ⊆ list_to_set names) -> (length sets <= 2 ^ length names)%nat.
Proof.
  intros Hnd Hsub. set (bits (P : gset string) := (fun name => bool_decide (name ∈ P)) <$> names).
  assert (forall P Q, P ∈ sets -> Q ∈ sets -> bits P = bits Q -> P = Q) as Hinj.
  { intros P Q HP HQ Heq. apply set_eq. intros x.
    assert (x ∈ names -> x ∈ P <-> x ∈ Q) as Hx.
    { unfold bits in Heq. intros Hin. revert Heq Hin. clear. induction names as [|y l IH]; [by intros _ ?%not_elem_of_nil|].
      cbn [fmap list_fmap]. intros [= H1 H2] [->|Hin]%elem_of_cons; [by rewrite <-(bool_decide_eq_true (y ∈ P)), H1, bool_decide_eq_true|by apply IH]. }
    split; intros Hin; apply Hx; try done; [apply Hsub in HP|apply Hsub in HQ]; set_solver. }
  assert (NoDup ((fun P => code (bits P)) <$> sets)) as Hcodes.
  { clear Hsub. induction Hnd as [|P sets HP Hnd IH]; [constructor|]. cbn [fmap list_fmap]. constructor.
    - intros (Q & Heq & HQ)%list_elem_of_fmap. apply code_inj in Heq; [|unfold bits; by rewrite !length_fmap].
      apply Hinj in Heq as ->; [done|by left|by right].
    - apply IH. intros Q R HQ HR. apply Hinj; by right. }
  rewrite <-(length_fmap (fun P => code (bits P))). rewrite <-(length_seq (2 ^ length names) 0).
  apply submseteq_length, NoDup_submseteq; [done|]. intros c (P & -> & HP)%list_elem_of_fmap. apply elem_of_seq. split; [lia|].
  pose proof (code_bound (bits P)) as Hb. unfold bits in Hb at 2. by rewrite length_fmap in Hb.
Qed.

(** ** The search for an order *)

(** Every edge leads forward. *)
Definition respects (edges : list (string * string)) (order : list string) : Prop :=
  forall before after, (before, after) ∈ edges ->
    exists i j, order !! i = Some before /\ order !! j = Some after /\ (i < j)%nat.

Section witness.
Context (names : list string) (edges : list (string * string)) (fixed_positions : dict string Z).
Context (Hnames : NoDup names) (Hfixed : NoDup (dict_items fixed_positions).*2) (Hfixed_keys : dict_wf fixed_positions).
Context (Hfixed_in : forall name pos, (name, pos) ∈ dict_items fixed_positions -> name ∈ names).

Local Abbreviation universe := (list_to_set names : gset string).
Local Abbreviation total := (length names).

Definition eligible_member (name : string) (placed : gset string) : Prop :=
  (name ∉ placed) /\ (forall pos, fixed_positions !! name = Some pos -> pos = Z.of_nat (size placed)) /\
  forall before, (before, name) ∈ edges -> before ∈ placed.

Lemma candidate_eligible_true name placed :
  candidate_eligible edges fixed_positions name placed (Z.of_nat (size placed)) = true <-> eligible_member name placed.
Proof.
  unfold candidate_eligible, eligible_member. rewrite !andb_true_iff, bool_decide_eq_true, forallb_forall.
  assert ((forall x, In x (_predecessors edges name) -> bool_decide (x ∈ placed) = true) <-> forall b, (b, name) ∈ edges -> b ∈ placed) as ->.
  { unfold _predecessors. setoid_rewrite bool_decide_eq_true. setoid_rewrite <-list_elem_of_In. setoid_rewrite list_elem_of_fmap.
    setoid_rewrite elem_of_bool_filter. setoid_rewrite String.eqb_eq. split.
    - intros H b Hb. apply H. by exists (b, name).
    - intros H x ([b n] & -> & Hin & Hn). cbn [fst snd] in *. subst n. by apply H. }
  destruct (fixed_positions !! name) as [pinned|]; [rewrite Z.eqb_eq; naive_solver|naive_solver].
Qed.

(** The placed members can be completed to a whole order. *)
Inductive completes : gset string -> Prop :=
| completes_all placed : size placed = total -> completes placed
| completes_place name placed :
    (size placed < total)%nat -> name ∈ names -> eligible_member name placed -> completes ({[name]} ∪ placed) -> completes placed.

Lemma size_subset (placed : gset string) : placed ⊆ universe -> (size placed <= total)%nat.
Proof. intros Hsub%subseteq_size. by rewrite size_list_to_set in Hsub. Qed.

Lemma size_full (placed : gset string) : placed ⊆ universe -> size placed = total -> forall name, name ∈ names -> name ∈ placed.
Proof.
  intros Hsub Hsize name Hname. assert (placed ≡ universe) as ->; [|set_solver].
  apply set_subseteq_size_equiv; [done|]. by rewrite size_list_to_set, Hsize.
Qed.

Lemma size_place name (placed : gset string) : name ∉ placed -> size ({[name]} ∪ placed) = S (size placed).
Proof. intros Hn. rewrite size_union by set_solver. by rewrite size_singleton. Qed.

(** A pinned member that was passed over can never be placed. *)
Lemma completes_not_overdue placed name pos :
  completes placed -> placed ⊆ universe -> fixed_positions !! name = Some pos -> pos < Z.of_nat (size placed) -> name ∈ placed.
Proof.
  induction 1 as [placed Hsize|n placed Hlt Hn (Hnew & Hpin & Hpre) Hc IH]; intros Hsub Hpos Hlate.
  - apply (size_full placed); try done. apply dict_get_Some in Hpos; [|done]. by eapply Hfixed_in.
  - assert (name ∈ {[n]} ∪ placed) as [->%elem_of_singleton|]%elem_of_union; [|specialize (Hpin _ Hpos); lia|done].
    apply IH; [set_solver|done|]. rewrite size_place by done. lia.
Qed.

Lemma overdue_true placed : _has_overdue_fixed_member fixed_positions placed (Z.of_nat (size placed)) = true <->
  exists name pos, fixed_positions !! name = Some pos /\ pos < Z.of_nat (size placed) /\ (name ∉ placed).
Proof.
  unfold _has_overdue_fixed_member. rewrite existsb_exists. split.
  - intros ([name pos] & Hin & H). apply andb_true_iff in H as [Hp%Z.ltb_lt Hn%bool_decide_eq_true]. exists name, pos. split_and!; try done.
    apply dict_get_Some; [done|by apply list_elem_of_In].
  - intros (name & pos & Hget & Hp & Hn). apply dict_get_Some in Hget; [|done]. exists (name, pos). split; [by apply list_elem_of_In|].
    apply andb_true_iff. split; [by apply Z.ltb_lt|by apply bool_decide_eq_true].
Qed.

Lemma fixed_by_position pos name :
  _fixed_by_position fixed_positions !! pos = Some name <-> fixed_positions !! name = Some pos.
Proof.
  unfold _fixed_by_position. assert (NoDup ((fun kv : string * Z => (kv.2, kv.1)) <$> dict_items fixed_positions).*1) as Hnd
    by by rewrite <-list_fmap_compose.
  rewrite dict_get_Some by apply dict_wf_of_list. rewrite dict_of_list_items by done. rewrite dict_get_Some by done.
  rewrite list_elem_of_fmap. split; [by intros ([k v] & [= -> ->] & ?)|]. intros Hin. by exists (name, pos).
Qed.

(** Members were placed at their pinned positions only. *)
Definition timely (placed : gset string) : Prop :=
  placed ⊆ universe /\ forall name pos, name ∈ placed -> fixed_positions !! name = Some pos -> pos < Z.of_nat (size placed).

Lemma timely_place name placed : timely placed -> name ∈ names -> eligible_member name placed -> timely ({[name]} ∪ placed).
Proof.
  intros [Hsub Ht] Hn (Hnew & Hpin & _). split; [set_solver|]. intros m pos Hm Hpos. rewrite size_place by done.
  apply elem_of_union in Hm as [->%elem_of_singleton|Hm]; [specialize (Hpin _ Hpos)|specialize (Ht _ _ Hm Hpos)]; lia.
Qed.

Lemma candidates_in (placed : gset string) name : name ∈ _candidates names fixed_positions (Z.of_nat (size placed)) -> name ∈ names.
Proof.
  unfold _candidates. destruct (_fixed_by_position fixed_positions !! _) as [m|] eqn:E.
  - intros ->%list_elem_of_singleton. apply fixed_by_position, dict_get_Some in E; [|done]. by eapply Hfixed_in.
  - unfold _ordered_names. by rewrite elem_of_py_sorted.
Qed.

(** The candidates of a position suffice. *)
Lemma completes_candidates placed :
  timely placed -> (size placed < total)%nat ->
  completes placed <->
  exists name, name ∈ _candidates names fixed_positions (Z.of_nat (size placed)) /\ eligible_member name placed /\ completes ({[name]} ∪ placed).
Proof.
  intros [Hsub Ht] Hlt. split.
  - intros Hc. inversion Hc as [? Hsize|name ? _ Hn He Hc' Heq]; subst; [lia|]. exists name. split; [|done].
    unfold _candidates. destruct (_fixed_by_position fixed_positions !! _) as [m|] eqn:E; [|unfold _ordered_names; by rewrite elem_of_py_sorted].
    apply fixed_by_position in E. apply list_elem_of_singleton.
    destruct (decide (name = m)) as [|Hne]; [done|]. exfalso. destruct He as (Hnew & _).
    assert (m ∈ {[name]} ∪ placed) as [?%elem_of_singleton|Hm]%elem_of_union; [|done|specialize (Ht _ _ Hm E); lia].
    eapply completes_not_overdue; [done|set_solver|done|]. rewrite size_place by done. lia.
  - intros (name & Hin & He & Hc). eapply completes_place; [done|by eapply candidates_in|done|done].
Qed.

(** The memo is right, and what was explored is in it or still open. *)
Definition memo_ok (memo : gmap (gset string) bool) : Prop :=
  forall placed b, memo !! placed = Some b -> placed ⊆ universe /\ (b = true <-> completes placed).

Record search_inv (st : gmap (gset string) bool * Z) (opened : list (gset string)) (placed : gset string) : Prop := {
  si_memo : memo_ok st.1;
  si_explored : st.2 = Z.of_nat (size st.1) + py_len opened;
  si_opened : NoDup opened;
  si_below : forall Q, Q ∈ opened -> Q ⊂ placed /\ st.1 !! Q = None;
}.

(** What a visit adds to the memo lies above the visited set. *)
Definition grows (placed : gset string) (memo memo' : gmap (gset string) bool) : Prop :=
  memo ⊆ memo' /\ forall Q, memo !! Q = None -> is_Some (memo' !! Q) -> placed ⊆ Q.

Definition over_budget : exn := ValueError "order constraints exceed the deterministic satisfiability budget".

(** A visit decides whether the placed members can be completed, or has explored
    more states than the budget allows. *)
Definition visited (opened : list (gset string)) (placed : gset string) (st : gmap (gset string) bool * Z) (answer : Prop)
    (r : result (bool * (gmap (gset string) bool * Z))) : Prop :=
  (exists b memo, r = Ok (b, (memo, Z.of_nat (size memo) + py_len opened)) /\ (b = true <-> answer) /\ memo_ok memo /\ grows placed st.1 memo) \/
  (r = Raise over_budget /\ VARIATION_SATISFIABILITY_STATE_LIMIT < 2 ^ Z.of_nat total).

Lemma explored_bound st opened placed :
  search_inv st opened placed -> placed ⊆ universe -> st.1 !! placed = None -> st.2 + 1 <= 2 ^ Z.of_nat total.
Proof.
  intros [Hmemo -> Hnd Hbelow] Hsub Hnew. pose proof (subsets_bound names (placed :: opened ++ (map_to_list st.1).*1)) as Hb.
  rewrite length_cons, length_app, length_fmap, length_map_to_list in Hb.
  assert (length opened + size st.1 + 1 <= 2 ^ total)%nat as Hle.
  { assert (forall Q, Q ∈ (map_to_list st.1).*1 -> is_Some (st.1 !! Q)) as Hkeys.
    { intros Q ([Q' b] & -> & Hin)%list_elem_of_fmap. apply elem_of_map_to_list in Hin. by exists b. }
    rewrite Nat.add_comm, Nat.add_assoc. apply Hb.
    - constructor; [|apply NoDup_app; split_and!; [done| |apply NoDup_fst_map_to_list]].
      + rewrite elem_of_app. intros [Hin|Hin]; [apply Hbelow in Hin as [? _]; set_solver|]. apply Hkeys in Hin as [b Hb']. congruence.
      + intros Q Hin Hk. apply Hbelow in Hin as [_ Hno]. apply Hkeys in Hk as [b Hb']. congruence.
    - intros Q [->|[Hin|Hin]%elem_of_app]%elem_of_cons; [done| |].
      + apply Hbelow in Hin as [? _]. set_solver.
      + apply Hkeys in Hin as [b Hb']. by eapply Hmemo. }
  unfold py_len. apply inj_le in Hle. rewrite Nat2Z.inj_pow in Hle. lia.
Qed.

(** While the candidates of a set are tried, only larger sets are added. *)
Record open_inv (st : gmap (gset string) bool * Z) (opened : list (gset string)) (placed : gset string) : Prop := {
  oi_memo : memo_ok st.1;
  oi_explored : st.2 = Z.of_nat (size st.1) + py_len opened;
  oi_opened : NoDup opened;
  oi_below : forall Q, Q ∈ opened -> Q ⊆ placed /\ st.1 !! Q = None;
}.

Definition grows_above (placed : gset string) (memo memo' : gmap (gset string) bool) : Prop :=
  memo ⊆ memo' /\ forall Q, memo !! Q = None -> is_Some (memo' !! Q) -> placed ⊂ Q.

Lemma open_inv_nested st opened placed name :
  open_inv st opened placed -> name ∉ placed -> search_inv st opened ({[name]} ∪ placed).
Proof. intros [H1 H2 H3 H4] Hn. constructor; try done. intros Q [Hsub Hnone]%H4. split; [set_solver|done]. Qed.

Lemma open_inv_grow memo memo' n opened placed :
  open_inv (memo, n) opened placed -> memo_ok memo' -> grows_above placed memo memo' ->
  open_inv (memo', Z.of_nat (size memo') + py_len opened) opened placed.
Proof.
  intros [_ _ H3 H4] Hok [Hsub Hnew]. constructor; cbn [fst snd] in *; try done. intros Q HQ. destruct (H4 Q HQ) as [Hle Hnone].
  split; [done|]. destruct (memo' !! Q) eqn:E; [|done]. specialize (Hnew Q Hnone ltac:(by eexists)). set_solver.
Qed.

Lemma grows_above_of placed name memo memo' : name ∉ placed -> grows ({[name]} ∪ placed) memo memo' -> grows_above placed memo memo'.
Proof. intros Hn [Hsub Hnew]. split; [done|]. intros Q Hnone Hs. specialize (Hnew Q Hnone Hs). set_solver. Qed.

Lemma grows_above_trans placed memo1 memo2 memo3 :
  grows_above placed memo1 memo2 -> grows_above placed memo2 memo3 -> grows_above placed memo1 memo3.
Proof.
  intros [S12 N12] [S23 N23]. split; [by etrans|]. intros Q H1 H3. destruct (memo2 !! Q) eqn:E; [apply N12|apply N23]; done || by eexists.
Qed.

Definition tried (opened : list (gset string)) (placed : gset string) (st : gmap (gset string) bool * Z) (answer : Prop)
    (r : result (bool * (gmap (gset string) bool * Z))) : Prop :=
  (exists b memo, r = Ok (b, (memo, Z.of_nat (size memo) + py_len opened)) /\ (b = true <-> answer) /\ memo_ok memo /\ grows_above placed st.1 memo) \/
  (r = Raise over_budget /\ VARIATION_SATISFIABILITY_STATE_LIMIT < 2 ^ Z.of_nat total).

Lemma any_candidate_run visit placed opened candidates st :
  (forall name st, name ∈ names -> eligible_member name placed -> search_inv st opened ({[name]} ∪ placed) ->
     visited opened ({[name]} ∪ placed) st (completes ({[name]} ∪ placed)) (visit ({[name]} ∪ placed) st)) ->
  (forall name, name ∈ candidates -> name ∈ names) -> open_inv st opened placed ->
  tried opened placed st (exists name, name ∈ candidates /\ eligible_member name placed /\ completes ({[name]} ∪ placed))
    (any_candidate edges fixed_positions visit placed (Z.of_nat (size placed)) candidates st).
Proof.
  intros Hvisit. revert st. induction candidates as [|name candidates IH]; intros [memo n] Hin Hinv; cbn [any_candidate].
  { left. exists false, memo. pose proof (oi_explored _ _ _ Hinv) as Hn. cbn [fst snd] in Hn. subst n. split; [done|].
    split; [split; [done|by intros (? & ?%not_elem_of_nil & _)]|]. split; [apply Hinv|]. split; [done|]. intros Q H1 [b H2]. cbn in H1. congruence. }
  destruct (candidate_eligible edges fixed_positions name placed (Z.of_nat (size placed))) eqn:E.
  - apply candidate_eligible_true in E. pose proof E as (Hnew & _).
    destruct (Hvisit name (memo, n)) as [(b & memo' & -> & Hb & Hok & Hgrow)|[-> Hlim]]; [apply Hin; left|done|by apply open_inv_nested| |].
    2: { right. done. }
    cbn [mbind result_bind fst snd] in *. apply grows_above_of in Hgrow; [|done]. destruct b.
    + left. exists true, memo'. split; [done|]. split; [|done]. split; [|done]. intros _. exists name. split; [left|]. split; [done|]. by apply Hb.
    + destruct (IH (memo', Z.of_nat (size memo') + py_len opened)) as [(b & memo2 & -> & Hb2 & Hok2 & Hgrow2)|[-> Hlim]];
        [intros; apply Hin; by right|by eapply open_inv_grow| |by right].
      left. exists b, memo2. split; [done|]. cbn [fst] in Hgrow2. split; [|split; [done|by eapply grows_above_trans]]. rewrite Hb2.
      split; [intros (m & Hm & ?); exists m; split; [by right|done]|].
      intros (m & [->|Hm]%elem_of_cons & He & Hc); [by apply Hb in Hc|by exists m].
  - destruct (IH (memo, n)) as [(b & memo2 & -> & Hb2 & Hok2 & Hgrow2)|[-> Hlim]]; [intros; apply Hin; by right|done| |by right].
    left. exists b, memo2. split; [done|]. split; [|done]. rewrite Hb2.
    split; [intros (m & Hm & ?); exists m; split; [by right|done]|].
    intros (m & [->|Hm]%elem_of_cons & He & Hc); [|by exists m]. apply candidate_eligible_true in He. congruence.
Qed.

(** The visit of a set within fuel. *)
Lemma visit_run fuel placed opened st :
  timely placed -> (total <= size placed + fuel)%nat -> search_inv st opened placed ->
  visited opened placed st (completes placed) (_visit names edges fixed_positions fuel placed st).
Proof.
  revert placed opened st. induction fuel as [|fuel IH]; intros placed opened [memo n] Ht Hfuel Hinv; cbn [_visit fst snd];
    pose proof Hinv as [Hok Hn Hnd Hbelow]; cbn [fst snd] in *; subst n; (destruct (memo !! placed) as [cached|] eqn:Ecache;
    [left; exists cached, memo; split; [done|]; split; [by eapply Hok|]; split; [done|]; split; [done|]; intros Q H1 [b H2]; cbn in H1; congruence|]).
  all: pose proof (explored_bound _ _ _ Hinv (proj1 Ht) Ecache) as Hbound; cbn [fst snd] in Hbound.
  all: (destruct (Z.ltb_spec VARIATION_SATISFIABILITY_STATE_LIMIT (Z.of_nat (size memo) + py_len opened + 1)); [right; split; [done|lia]|]).
  all: assert (py_len (_ordered_names names) = Z.of_nat total) as Hlen by (unfold py_len, _ordered_names; by rewrite length_py_sorted).
  all: rewrite Hlen.
  all: assert (forall b memo', grows_above placed memo memo' -> memo_ok memo' -> (b = true <-> completes placed) ->
         visited opened placed (memo, Z.of_nat (size memo) + py_len opened) (completes placed)
           (Ok (b, (<[placed := b]> memo', Z.of_nat (size memo') + py_len opened + 1)))) as Hfinish.
  1,3: intros b memo' [Hsub Hnew] Hok' Hb; left; exists b, (<[placed := b]> memo');
    (assert (memo' !! placed = None) as Hnone by (destruct (memo' !! placed) eqn:E; [|done]; specialize (Hnew placed Ecache ltac:(by eexists)); set_solver));
    rewrite map_size_insert_None by done; (split; [do 3 f_equal; lia|]); (split; [done|]); split;
    [intros Q c; rewrite lookup_insert_Some; intros [[<- <-]|[_ HQ]]; [split; [apply Ht|done]|by apply Hok']
    |split; [cbn [fst]; etrans; [exact Hsub|by apply insert_subseteq]|intros Q H1 H2; destruct (decide (placed = Q)) as [->|Hne]; [done|];
       rewrite lookup_insert_ne in H2 by done; cbn [fst] in H1; specialize (Hnew Q H1 H2); set_solver]].
  all: assert (grows_above placed memo memo) as Hrefl by (split; [done|]; intros Q H1 [b H2]; congruence).
  all: destruct (Z.eqb_spec (Z.of_nat (size placed)) (Z.of_nat total)) as [Heq|Hne];
    [cbn [mbind result_bind fst snd]; apply Hfinish; try done; split; [intros _; apply completes_all; lia|done]|].
  all: pose proof (size_subset placed (proj1 Ht)).
  1: lia.
  destruct (_has_overdue_fixed_member fixed_positions placed (Z.of_nat (size placed))) eqn:Eover.
  { cbn [mbind result_bind fst snd]. apply Hfinish; try done. split; [done|]. intros Hc.
    apply overdue_true in Eover as (name & pos & Hpos & Hlate & Hnot). exfalso. apply Hnot. eapply completes_not_overdue; [done|apply Ht|done|done]. }
  destruct (any_candidate_run (_visit names edges fixed_positions fuel) placed (placed :: opened)
    (_candidates names fixed_positions (Z.of_nat (size placed))) (memo, Z.of_nat (size memo) + py_len opened + 1))
    as [(b & memo' & -> & Hb & Hok' & Hgrow)|[-> Hlim]].
  - intros name st Hname He Hinv'. apply IH; [by apply timely_place| |done]. rewrite size_place by apply He. lia.
  - intros name. apply candidates_in.
  - constructor; cbn [fst snd]; [done|unfold py_len; cbn [length]; lia| |].
    + constructor; [|done]. intros HQ. apply Hbelow in HQ as [? _]. set_solver.
    + intros Q [->|HQ]%elem_of_cons; [done|]. apply Hbelow in HQ as [? ?]. split; [set_solver|done].
  - cbn [mbind result_bind fst snd] in *. replace (Z.of_nat (size memo') + py_len (placed :: opened)) with (Z.of_nat (size memo') + py_len opened + 1)
      by (unfold py_len; cbn [length]; lia).
    apply Hfinish; [done|done|]. rewrite Hb. rewrite (completes_candidates placed Ht) by lia. done.
  - cbn [mbind result_bind]. by right.
Qed.

(** ** Orders *)

(** An order of the members that respects the precedence and the pins. *)
Definition admissible_order (order : list string) : Prop :=
  order ≡ₚ names /\
  respects edges order /\
  forall name pos, fixed_positions !! name = Some pos -> order !! Z.to_nat pos = Some name.

Lemma completes_order placed :
  completes placed -> placed ⊆ universe ->
  exists rest, NoDup rest /\ (forall name, name ∈ rest -> name ∈ names /\ name ∉ placed) /\
    (forall name, name ∈ names -> name ∈ placed \/ name ∈ rest) /\
    forall i name, rest !! i = Some name ->
      (forall pos, fixed_positions !! name = Some pos -> pos = Z.of_nat (size placed + i)) /\
      forall before, (before, name) ∈ edges -> before ∈ placed \/ exists j, (j < i)%nat /\ rest !! j = Some before.
Proof.
  induction 1 as [placed Hsize|n placed Hlt Hn (Hnew & Hpin & Hpre) Hc IH]; intros Hsub.
  - exists []. split_and!; [constructor|by intros ? ?%not_elem_of_nil| |done]. intros name Hname. left. by apply size_full.
  - destruct IH as (rest & Hnd & Hin & Hall & Hrest); [set_solver|]. exists (n :: rest). split_and!.
    + constructor; [|done]. intros Hr%Hin. set_solver.
    + intros name [->|Hr%Hin]%elem_of_cons; [done|set_solver].
    + intros name Hname%Hall. set_solver.
    + intros [|i] name Hi; cbn [lookup list_lookup] in Hi.
      * injection Hi as <-. rewrite Nat.add_0_r. split; [done|]. intros b Hb. left. by apply Hpre.
      * destruct (Hrest i name Hi) as [H1 H2]. rewrite size_place in H1 by done. split; [intros pos Hp; rewrite (H1 pos Hp); lia|].
        intros b [Hb|(j & Hj & Hb)]%H2; [|right; exists (S j); split; [lia|done]].
        apply elem_of_union in Hb as [->%elem_of_singleton|Hb]; [right; exists 0%nat; split; [lia|done]|by left].
Qed.

Lemma take_set_size (order : list string) k : NoDup order -> (k <= length order)%nat -> size (list_to_set (take k order) : gset string) = k.
Proof.
  intros Hnd Hk. rewrite size_list_to_set; [by rewrite length_take_le|].
  rewrite <-(take_drop k order) in Hnd. by apply NoDup_app in Hnd as [? _].
Qed.

Context (Hedges : forall before after, (before, after) ∈ edges -> before ∈ names /\ after ∈ names).
Context (Hpositions : forall name pos, (name, pos) ∈ dict_items fixed_positions -> 0 <= pos).

Lemma order_completes order k :
  admissible_order order -> (k <= length order)%nat -> completes (list_to_set (take k order)).
Proof.
  intros (Hperm & Hprec & Hpins) Hk. assert (NoDup order) as Hnd by by rewrite Hperm.
  remember (length order - k)%nat as d eqn:Hd. revert k Hk Hd. induction d as [|d IH]; intros k Hk Hd.
  - apply completes_all. rewrite take_set_size by done. apply Permutation_length in Hperm. lia.
  - destruct (lookup_lt_is_Some_2 order k) as [name Hname]; [lia|]. apply (completes_place name).
    + rewrite take_set_size by done. apply Permutation_length in Hperm. lia.
    + rewrite <-Hperm. by eapply list_elem_of_lookup_2.
    + unfold eligible_member. rewrite take_set_size by done. rewrite elem_of_list_to_set. split_and!.
      * intros (i & Hi & Hlt)%elem_of_take. pose proof (NoDup_lookup _ _ _ _ Hnd Hi Hname). lia.
      * intros pos Hpos. specialize (Hpins _ _ Hpos). pose proof (NoDup_lookup _ _ _ _ Hnd Hpins Hname).
        apply dict_get_Some in Hpos; [|done]. specialize (Hpositions _ _ Hpos). lia.
      * intros b Hb. destruct (Hprec _ _ Hb) as (i & j & Hi & Hj & Hlt). pose proof (NoDup_lookup _ _ _ _ Hnd Hj Hname). subst j.
        rewrite elem_of_list_to_set. apply elem_of_take. by exists i.
    + replace ({[name]} ∪ list_to_set (take k order) : gset string) with (list_to_set (take (S k) order) : gset string);
        [apply IH; lia|].
      rewrite (take_S_r _ _ name) by done. apply set_eq. intros x. rewrite list_to_set_app. set_solver.
Qed.

Lemma completes_empty : completes ∅ <-> exists order, admissible_order order.
Proof.
  split.
  - intros Hc. destruct (completes_order ∅ Hc) as (rest & Hnd & Hin & Hall & Hrest); [set_solver|]. exists rest.
    assert (rest ≡ₚ names) as Hperm by (apply NoDup_Permutation; [done..|]; intros x; split; [by intros [? _]%Hin|intros [?|?]%Hall; [set_solver|done]]).
    split; [done|]. split.
    + intros b a Hba. destruct (Hedges _ _ Hba) as [_ Ha]. rewrite <-Hperm in Ha. apply list_elem_of_lookup in Ha as [j Hj].
      destruct (Hrest j a Hj) as [_ Hp]. destruct (Hp b Hba) as [|(i & Hi & Hb)]; [set_solver|]. by exists i, j.
    + intros name pos Hpos. assert (name ∈ rest) as Hname by (rewrite Hperm; apply dict_get_Some in Hpos; [by eapply Hfixed_in|done]).
      apply list_elem_of_lookup in Hname as [i Hi]. destruct (Hrest i name Hi) as [Hp _]. rewrite (Hp pos Hpos), size_empty. by rewrite Nat2Z.id.
  - intros [order Horder]. pose proof (order_completes order 0 Horder ltac:(lia)) as Hc. by rewrite take_0 in Hc.
Qed.

(** The search decides whether an admissible order exists. *)
Lemma has_witness_run :
  (exists b, has_witness names edges fixed_positions = Ok b /\ (b = true <-> exists order, admissible_order order)) \/
  (has_witness names edges fixed_positions = Raise over_budget /\ VARIATION_SATISFIABILITY_STATE_LIMIT < 2 ^ Z.of_nat total).
Proof.
  unfold has_witness. destruct (visit_run total ∅ [] (∅, 0)) as [(b & memo & -> & Hb & _)|[-> Hlim]].
  - split; [set_solver|]. by intros name pos ?%not_elem_of_empty.
  - lia.
  - constructor; cbn [fst snd]; [|by rewrite map_size_empty|constructor|by intros Q ?%not_elem_of_nil].
    intros P b. by rewrite lookup_empty.
  - left. exists b. split; [done|]. by rewrite Hb, completes_empty.
  - by right.
Qed.
End witness.

(** ** Precedence graphs *)

Section precedence.
Context (names : list string) (edges : list (string * string)).
Context (Hnames : NoDup names) (Hnodup : NoDup edges).
Context (Hedges : forall before after, (before, after) ∈ edges -> before ∈ names /\ after ∈ names).

(** The predecessors of a member that were not visited, and the successors. *)
Definition waiting (seen : list string) (name : string) : Z :=
  py_len (List.filter (fun e : string * string => String.eqb e.2 name && bool_decide (e.1 ∉ seen)) edges).
Definition successors (name : string) : list string := (List.filter (fun e : string * string => String.eqb e.1 name) edges).*2.

Lemma elem_of_successors name s : s ∈ successors name <-> (name, s) ∈ edges.
Proof.
  unfold successors. rewrite list_elem_of_fmap. setoid_rewrite elem_of_bool_filter. setoid_rewrite String.eqb_eq. split.
  - by intros ([b a] & -> & Hin & Heq); cbn [fst snd] in *; subst b.
  - intros Hin. by exists (name, s).
Qed.

Lemma NoDup_successors name : NoDup (successors name).
Proof.
  unfold successors. clear Hedges. induction Hnodup as [|[b a] l Hin Hl IH]; [constructor|]. cbn [List.filter fst].
  destruct (String.eqb_spec b name) as [->|]; [|by apply IH]. cbn [fmap list_fmap snd]. constructor; [|by apply IH].
  intros ([b' a'] & -> & Hf)%list_elem_of_fmap. apply elem_of_bool_filter in Hf as [Hf Heq]. cbn [fst snd] in *.
  apply String.eqb_eq in Heq as ->. done.
Qed.

Lemma waiting_zero seen name : waiting seen name = 0 <-> forall before, (before, name) ∈ edges -> before ∈ seen.
Proof.
  unfold waiting, py_len. split.
  - intros H b Hb. destruct (decide (b ∈ seen)) as [|Hn]; [done|]. exfalso.
    assert ((b, name) ∈ List.filter (fun e : string * string => String.eqb e.2 name && bool_decide (e.1 ∉ seen)) edges) as Hf.
    { apply elem_of_bool_filter. split; [done|]. cbn. rewrite String.eqb_refl. by apply bool_decide_eq_true. }
    destruct (List.filter _ _); [by apply not_elem_of_nil in Hf|cbn in H; lia].
  - intros H. rewrite bool_filter_none; [done|]. intros [b a] Hin. cbn [fst snd]. apply andb_false_iff.
    destruct (String.eqb_spec a name) as [->|]; [right|by left]. apply bool_decide_eq_false. intros Hn. apply Hn. by apply H.
Qed.

(** A visit releases one predecessor of each successor. *)
Lemma waiting_visit seen current name :
  current ∉ seen -> waiting (seen ++ [current]) name = waiting seen name - (if decide (name ∈ successors current) then 1 else 0).
Proof.
  intros Hcur. assert ((if decide (name ∈ successors current) then 1 else 0) = if decide ((current, name) ∈ edges) then 1 else 0) as ->.
  { pose proof (elem_of_successors current name). repeat case_decide; naive_solver. }
  unfold waiting. clear Hedges.
  induction Hnodup as [|[b a] l Hin Hl IH]; [by rewrite decide_False by apply not_elem_of_nil|]. specialize (IH Hl). cbn [List.filter fst snd].
  assert (bool_decide (b ∉ seen ++ [current]) = bool_decide (b ∉ seen) && negb (String.eqb b current)) as ->.
  { apply eq_true_iff_eq. rewrite andb_true_iff, negb_true_iff, String.eqb_neq, !bool_decide_eq_true. set_solver. }
  destruct (decide ((b, a) = (current, name))) as [[= -> ->]|Hne].
  - rewrite !String.eqb_refl, (bool_decide_eq_true_2 (current ∉ seen)) by done. cbn [andb negb]. rewrite decide_True by left.
    rewrite decide_False in IH by done. unfold py_len in *. cbn [length]. lia.
  - assert ((if decide ((current, name) ∈ (b, a) :: l) then 1 else 0) = if decide ((current, name) ∈ l) then 1 else 0) as ->.
    { pose proof (elem_of_cons l (current, name) (b, a)). repeat case_decide; naive_solver. }
    destruct (String.eqb_spec a name) as [->|]; cbn [andb]; [|done].
    destruct (String.eqb_spec b current) as [->|]; [done|]. rewrite andb_true_r.
    destruct (bool_decide (b ∉ seen)); [|done]. unfold py_len in *. cbn [length]. lia.
Qed.

(** The graph holds the counts and the successors of the members. *)
Definition graph_of (g : OrderGraph) : Prop :=
  forall name, name ∈ names -> og_pending g !! name = Some (waiting [] name) /\ og_outgoing g !! name = Some (successors name).

(** What holds after [seen] was visited with [ready] members left to visit. *)
Record order_inv (pending : dict string Z) (seen ready : list string) : Prop := {
  oi_nodup : NoDup (seen ++ ready);
  oi_pending : forall name, name ∈ names -> pending !! name = Some (waiting seen name);
  oi_ready : forall name, name ∈ seen ++ ready <-> name ∈ names /\ waiting seen name = 0;
  oi_respects : forall j name, seen !! j = Some name -> forall b, (b, name) ∈ edges -> exists i, seen !! i = Some b /\ (i < j)%nat;
}.

Lemma waiting_nonneg seen name : 0 <= waiting seen name.
Proof. unfold waiting, py_len. lia. Qed.

Lemma release_successors_run pending seen rest current :
  current ∈ names -> order_inv pending seen (rest ++ [current]) ->
  exists pending' ready, mfold release_successor (pending, rest) (successors current) = Ok (pending', ready) /\
    order_inv pending' (seen ++ [current]) ready.
Proof.
  intros Hcur [Hnd Hpending Hready Hresp].
  assert (forall name, name ∈ successors current -> name ∈ names) as Hsucc by (intros n ?%elem_of_successors; by eapply Hedges).
  assert (current ∉ seen) as Hnew by (intros ?; apply NoDup_app in Hnd as (_ & Hd & _); apply (Hd current); set_solver).
  pose proof (NoDup_successors current) as Hs.
  destruct (mfold_prefix (fun pre st => 
      (forall name, name ∈ names -> st.1 !! name = Some (waiting seen name - if decide (name ∈ pre) then 1 else 0)) /\
      st.2 = rest ++ List.filter (fun n => waiting seen n =? 1) pre)
    release_successor (successors current) (pending, rest)) as ([pending' ready] & -> & Hp & Hr); cbn [fst snd] in *.
  - intros pre x suf st Heq [Hp Hr]. assert (x ∈ names) as Hx by (apply Hsucc; rewrite Heq; set_solver).
    rewrite Heq in Hs. apply NoDup_app in Hs as (_ & Hd & _).
    assert (x ∉ pre) as Hpre by (intros Hin; apply (Hd x Hin); left). unfold release_successor.
    rewrite (proj2 (dict_index_Ok _ _ _) (Hp x Hx)), decide_False by done. cbn [mbind result_bind]. rewrite Z.sub_0_r. eexists; split; [done|]. cbn [fst snd]. split.
    + intros n Hn. rewrite dict_get_set. destruct (decide (x = n)) as [<-|Hne]; [by rewrite decide_True by set_solver|].
      rewrite (Hp n Hn). repeat case_decide; try done; exfalso; set_solver.
    + rewrite List.filter_app, Hr, <-app_assoc. cbn [List.filter].
      destruct (Z.eqb_spec (waiting seen x - 1) 0), (Z.eqb_spec (waiting seen x) 1); try lia; rewrite ?app_assoc, ?app_nil_r; done.
  - split; [|by rewrite app_nil_r]. intros n Hn. rewrite decide_False by apply not_elem_of_nil. rewrite (Hpending n Hn). f_equal; lia.
  - exists pending', ready. split; [done|].
    assert (forall n, n ∈ names -> n ∈ ready <-> (n ∈ rest \/ n ∈ successors current /\ waiting seen n = 1)) as Hin.
    { intros n Hn. rewrite Hr, elem_of_app, elem_of_bool_filter, Z.eqb_eq. done. }
    constructor.
    + rewrite Hr. rewrite app_assoc, NoDup_app. split_and!.
      * rewrite <-app_assoc. by rewrite (Permutation_app_comm [current]).
      * intros n Hn [_ Hw%Z.eqb_eq]%elem_of_bool_filter. assert (n ∈ seen ++ rest ++ [current]) as [_ Hz]%Hready by set_solver. lia.
      * by apply NoDup_bool_filter.
    + intros n Hn. by rewrite (Hp n Hn), waiting_visit by done.
    + intros n. specialize (Hready n). pose proof (waiting_visit seen current n Hnew) as Hw. pose proof (waiting_nonneg (seen ++ [current]) n).
      split.
      * intros Hn. assert (n ∈ names) as Hnn.
        { rewrite Hr in Hn. rewrite !elem_of_app, elem_of_bool_filter in Hn. destruct Hn as [[?|?]|[?|[? _]]]; [|set_solver| |by apply Hsucc]; apply Hready; set_solver. }
        split; [done|]. rewrite !elem_of_app, (Hin n Hnn) in Hn. rewrite !elem_of_app in Hready.
        assert (waiting seen n = 0 \/ n ∈ successors current /\ waiting seen n = 1) as Hcase by tauto. clear Hready Hn.
        rewrite Hw in *. case_decide; destruct Hcase as [?|[? ?]]; (done || lia).
      * intros [Hnn Hz]. rewrite !elem_of_app, (Hin n Hnn). rewrite !elem_of_app in Hready. destruct (decide (n ∈ successors current)).
        -- right; right. split; [done|lia].
        -- destruct (proj2 Hready) as [?|[?|?]]; [split; [done|lia]|tauto..].
    + intros j n Hj b Hb. apply lookup_app_Some in Hj as [Hj|[Hlen Hj]].
      * destruct (Hresp j n Hj b Hb) as (i & Hi & Hlt). exists i. split; [by apply lookup_app_l_Some|done].
      * apply list_lookup_singleton_Some in Hj as [Hj <-]. assert (waiting seen current = 0) as Hz by (apply Hready; set_solver).
        apply (proj1 (waiting_zero _ _)) with (before := b) in Hz; [|done]. apply list_elem_of_lookup in Hz as [i Hi]. exists i.
        split; [by apply lookup_app_l_Some|]. apply lookup_lt_Some in Hi. lia.
Qed.
Lemma order_loop_run fuel outgoing pending seen ready :
  (forall name, name ∈ names -> outgoing !! name = Some (successors name)) -> order_inv pending seen ready ->
  (length names <= length seen + fuel)%nat ->
  exists pending' seen', order_loop fuel outgoing pending ready (py_len seen) = Ok (py_len seen') /\ order_inv pending' seen' [].
Proof.
  intros Hout. revert pending seen ready. induction fuel as [|fuel IH]; intros pending seen ready Hinv Hfuel;
    destruct (reverse ready) as [|current rest] eqn:Hrev;
    (apply (f_equal reverse) in Hrev; rewrite reverse_involutive in Hrev; rewrite ?reverse_nil, ?reverse_cons in Hrev; subst ready).
  1,3: by exists pending, seen.
  all: pose proof Hinv as [Hnd _ Hready _]; assert (current ∈ names) as Hcur by (apply Hready; set_solver).
  - exfalso. assert (seen ++ reverse rest ++ [current] ⊆ names) as Hsub by (intros n Hn; by apply Hready in Hn as [? _]).
    apply NoDup_submseteq in Hsub; [|done]. apply submseteq_length in Hsub. rewrite !length_app in Hsub. cbn in Hsub. lia.
  - cbn [order_loop]. rewrite reverse_snoc, reverse_involutive.
    rewrite (proj2 (dict_index_Ok _ _ _) (Hout _ Hcur)). cbn [mbind result_bind].
    destruct (release_successors_run _ _ _ _ Hcur Hinv) as (pending' & ready & -> & Hinv'). cbn [mbind result_bind fst snd].
    replace (py_len seen + 1) with (py_len (seen ++ [current])) by (unfold py_len; rewrite length_app; cbn; lia).
    apply IH; [done|]. rewrite length_app; cbn. lia.
Qed.

Lemma build_graph :
  exists g, mfold add_edge (Graph (dict_of_list ((fun n => (n, 0)) <$> names)) (dict_of_list ((fun n => (n, [])) <$> names))) edges = Ok g /\
    graph_of g /\ dict_keys (og_pending g) = names.
Proof.
  assert (forall {V} (v : V) n, n ∈ names -> dict_of_list ((fun n => (n, v)) <$> names) !! n = Some v) as Hget.
  { intros V v n Hn. rewrite dict_get_of_list by (rewrite <-list_fmap_compose; cbn; by rewrite list_fmap_id).
    apply items_get_in; [rewrite <-list_fmap_compose; cbn; by rewrite list_fmap_id|]. apply list_elem_of_fmap. by exists n. }
  destruct (mfold_prefix (fun pre g =>
      dict_keys (og_pending g) = names /\ forall n, n ∈ names ->
        og_pending g !! n = Some (py_len (List.filter (fun e : string * string => String.eqb e.2 n) pre)) /\
        og_outgoing g !! n = Some ((List.filter (fun e : string * string => String.eqb e.1 n) pre).*2))
    add_edge edges (Graph (dict_of_list ((fun n => (n, 0)) <$> names)) (dict_of_list ((fun n => (n, [])) <$> names)))) as (g & Hg & Hkeys & Hall).
  - intros pre [b a] suf g Heq [Hkeys Hall]. destruct (Hedges b a) as [Hb Ha]; [rewrite Heq; set_solver|].
    unfold add_edge. cbn [fst snd]. rewrite (proj2 (dict_index_Ok _ _ _) (proj2 (Hall b Hb))). cbn [mbind result_bind].
    rewrite (proj2 (dict_index_Ok _ _ _) (proj1 (Hall a Ha))). cbn [mbind result_bind]. eexists; split; [done|]. cbn [og_pending og_outgoing]. split.
    + rewrite dict_keys_set. by rewrite decide_True by (by rewrite Hkeys).
    + intros n Hn. rewrite !List.filter_app. cbn [List.filter fst snd]. rewrite !dict_get_set. specialize (Hall n Hn) as [-> ->]. split.
      * destruct (String.eqb_spec a n) as [->|Hne]; [rewrite decide_True by done|rewrite decide_False, app_nil_r by done; done].
        unfold py_len. rewrite length_app. cbn [length]. do 2 f_equal. lia.
      * destruct (String.eqb_spec b n) as [->|Hne]; [rewrite decide_True by done|rewrite decide_False, app_nil_r by done; done].
        by rewrite fmap_app.
  - cbn [og_pending og_outgoing List.filter]. split; [|intros n Hn; by rewrite !Hget].
    unfold dict_keys. rewrite dict_of_list_items; rewrite <-list_fmap_compose; cbn; by rewrite list_fmap_id.
  - exists g. split; [done|]. split; [|done]. intros n Hn. destruct (Hall n Hn) as [-> ->]. split; [|done]. unfold waiting. do 2 f_equal.
    apply List.filter_ext. intros [x y]. cbn. rewrite (bool_decide_eq_true_2 (x ∉ [])) by apply not_elem_of_nil. by rewrite andb_true_r.
Qed.

Lemma order_inv_total pending seen :
  order_inv pending seen [] -> py_len seen = py_len names <-> exists order, order ≡ₚ names /\ respects edges order.
Proof.
  intros [Hnd _ Hready Hresp]. rewrite app_nil_r in Hnd, Hready. split.
  - intros Hlen. exists seen. assert (seen ≡ₚ names) as Hperm.
    { apply submseteq_length_Permutation; [apply NoDup_submseteq; [done|]; by intros n [? _]%Hready|unfold py_len in Hlen; lia]. }
    split; [done|]. intros b a Hba. destruct (Hedges _ _ Hba) as [_ Ha]. rewrite <-Hperm in Ha.
    apply list_elem_of_lookup in Ha as [j Hj]. destruct (Hresp _ _ Hj _ Hba) as (i & Hi & Hlt). by exists i, j.
  - intros (order & Hperm & Hresp'). assert (NoDup order) as Hnd' by by rewrite Hperm.
    assert (forall j name, order !! j = Some name -> name ∈ seen) as Hall.
    { intros j. induction (lt_wf j) as [j _ IH]. intros name Hj. apply Hready. split; [rewrite <-Hperm; by eapply list_elem_of_lookup_2|].
      apply waiting_zero. intros b Hb. destruct (Hresp' _ _ Hb) as (i & j' & Hi & Hj' & Hlt).
      pose proof (NoDup_lookup _ _ _ _ Hnd' Hj Hj'). subst j'. by apply (IH i). }
    assert (seen ≡ₚ names) as Hp; [|unfold py_len; by rewrite Hp].
    apply NoDup_Permutation; [done..|]. intros n. split; [by intros [? _]%Hready|]. rewrite <-Hperm. intros [j Hj]%list_elem_of_lookup. by apply (Hall j).
Qed.

(** The graph check decides whether the members can be ordered along the edges. *)
Lemma order_graph_run :
  exists b, _order_graph_is_acyclic names edges = Ok b /\ (b = true <-> exists order, order ≡ₚ names /\ respects edges order).
Proof.
  unfold _order_graph_is_acyclic. destruct build_graph as (g & -> & Hg & Hkeys). cbn [mbind result_bind].
  assert (NoDup (dict_keys (og_pending g))) as Hwf by by rewrite Hkeys.
  destruct (order_loop_run (length names) (og_outgoing g) (og_pending g) [] (List.filter (fun kv : string * Z => kv.2 =? 0) (dict_items (og_pending g))).*1)
    as (pending & seen & Hrun & Hinv).
  - intros n Hn. by apply Hg.
  - assert (forall n, n ∈ (List.filter (fun kv : string * Z => kv.2 =? 0) (dict_items (og_pending g))).*1 <-> n ∈ names /\ waiting [] n = 0) as Hr.
    { intros n. rewrite list_elem_of_fmap. setoid_rewrite elem_of_bool_filter. setoid_rewrite Z.eqb_eq. split.
      - intros ([k z] & -> & Hin & Hz). cbn [fst snd] in *. assert (k ∈ names) as Hk by (rewrite <-Hkeys; apply list_elem_of_fmap; by exists (k, z)).
        split; [done|]. apply dict_get_Some in Hin; [|done]. rewrite (proj1 (Hg k Hk)) in Hin. injection Hin as Hin. lia.
      - intros [Hn Hz]. exists (n, 0). split; [done|]. split; [|done]. apply dict_get_Some; [done|]. by rewrite (proj1 (Hg n Hn)), Hz. }
    constructor; cbn [app].
    + clear -Hwf. unfold dict_keys in Hwf. induction (dict_items (og_pending g)) as [|[k z] l IH]; [constructor|].
      apply NoDup_cons in Hwf as [Hk Hl]. cbn [List.filter snd]. destruct (z =? 0); [|by apply IH]. cbn [fmap list_fmap fst]. constructor; [|by apply IH].
      intros ([k' z'] & -> & [Hin _]%elem_of_bool_filter)%list_elem_of_fmap. apply Hk. apply list_elem_of_fmap. by exists (k', z').
    + intros n Hn. by apply Hg.
    + done.
    + intros j n Hj. by rewrite lookup_nil in Hj.
  - cbn. lia.
  - change (py_len []) with 0 in Hrun. cbn [py_len length Z.of_nat] in Hrun. rewrite Hrun. cbn [mbind result_bind]. eexists; split; [done|].
    rewrite Z.eqb_eq. by eapply order_inv_total.
Qed.
End precedence.

(** ** Points *)

(** The dictionaries of a point have unique keys. *)
Definition point_wf (point : VariationPoint) : Prop :=
  match point with
  | AlternativeVariationPoint alternatives => dict_wf alternatives
  | SubsetVariationPoint members _ _ => dict_wf members
  | OrderVariationPoint o => dict_wf (oc_members o) /\ dict_wf (oc_fixed_positions o)
  | _ => True
  end.

(** ** Selected orders *)

Lemma existsb_false {A} (p : A -> bool) l : existsb p l = false <-> forall a, a ∈ l -> p a = false.
Proof.
  induction l as [|a l IH]; cbn [existsb]; [split; [by intros _ ? ?%not_elem_of_nil|done]|]. rewrite orb_false_iff, IH.
  setoid_rewrite elem_of_cons. naive_solver.
Qed.

Lemma many_any_total {A} (p : A -> result bool) (f : A -> bool) l :
  (forall a, a ∈ l -> p a = Ok (f a)) -> many_any p l = Ok (existsb f l).
Proof.
  induction l as [|a l IH]; intros H; [done|]. cbn [many_any existsb]. rewrite H by left. cbn [mbind result_bind].
  destruct (f a); [done|]. apply IH. intros b Hb. apply H. by right.
Qed.

Lemma py_index_positions ids n i : NoDup ids -> ids !! i = Some n -> order_positions ids !! n = Some (Z.of_nat i).
Proof.
  intros Hnd Hi. assert ((zip ids (seqZ 0 (py_len ids))).*1 = ids) as Hkeys by (apply fst_zip; rewrite length_seqZ; unfold py_len; lia).
  unfold order_positions. rewrite dict_get_of_list by by rewrite Hkeys. apply items_get_in; [by rewrite Hkeys|].
  apply list_elem_of_lookup. exists i. apply lookup_zip_Some. split; [done|]. apply lookup_seqZ. apply lookup_lt_Some in Hi. unfold py_len. lia.
Qed.

(** A violated constraint is one the selected order does not meet. *)
Lemma precedence_run ids edges :
  NoDup ids -> (forall before after, (before, after) ∈ edges -> before ∈ ids /\ after ∈ ids) ->
  exists b, many_any (precedence_violated (order_positions ids)) edges = Ok b /\ (b = false <-> respects edges ids).
Proof.
  intros Hnd Hin. set (at_ n := default 0 (order_positions ids !! n)).
  assert (forall n, n ∈ ids -> exists i, ids !! i = Some n /\ order_positions ids !! n = Some (Z.of_nat i)) as Hat.
  { intros n [i Hi]%list_elem_of_lookup. exists i. split; [done|by apply py_index_positions]. }
  rewrite (many_any_total _ (fun e => at_ e.2 <=? at_ e.1)).
  - eexists; split; [done|]. rewrite existsb_false. split.
    + intros Hall b a He. destruct (Hin _ _ He) as [(i & Hi & Hbi)%Hat (j & Hj & Haj)%Hat]. exists i, j. split_and!; [done..|].
      specialize (Hall _ He). unfold at_ in Hall. cbn [fst snd] in Hall. rewrite Hbi, Haj in Hall. cbn in Hall. lia.
    + intros Hr [b a] He. destruct (Hr _ _ He) as (i & j & Hi & Hj & Hlt). unfold at_. cbn [fst snd].
      rewrite (py_index_positions _ _ _ Hnd Hi), (py_index_positions _ _ _ Hnd Hj). cbn. lia.
  - intros [b a] He. destruct (Hin _ _ He) as [(i & Hi & Hbi)%Hat (j & Hj & Haj)%Hat]. unfold precedence_violated, dict_index, at_. cbn [fst snd].
    by rewrite Hbi, Haj.
Qed.

Lemma positions_run ids fixed :
  NoDup ids -> (forall name pos, (name, pos) ∈ fixed -> name ∈ ids /\ 0 <= pos) ->
  exists b, many_any (position_violated (order_positions ids)) fixed = Ok b /\
    (b = false <-> forall name pos, (name, pos) ∈ fixed -> ids !! Z.to_nat pos = Some name).
Proof.
  intros Hnd Hin.
  assert (forall n, n ∈ ids -> exists i, ids !! i = Some n /\ order_positions ids !! n = Some (Z.of_nat i)) as Hat.
  { intros n [i Hi]%list_elem_of_lookup. exists i. split; [done|by apply py_index_positions]. }
  rewrite (many_any_total _ (fun e => negb (default 0 (order_positions ids !! e.1) =? e.2))).
  - eexists; split; [done|]. rewrite existsb_false. split.
    + intros Hall n p He. destruct (Hin _ _ He) as [(i & Hi & Hni)%Hat Hp].
      specialize (Hall _ He). cbn [fst snd] in Hall. rewrite Hni in Hall. cbn in Hall.
      apply negb_false_iff, Z.eqb_eq in Hall. subst p. by rewrite Nat2Z.id.
    + intros Hr [n p] He. destruct (Hin _ _ He) as [_ Hp]. cbn [fst snd].
      rewrite (py_index_positions _ _ _ Hnd (Hr _ _ He)). cbn. apply negb_false_iff, Z.eqb_eq. lia.
  - intros [n p] He. destruct (Hin _ _ He) as [(i & Hi & Hni)%Hat _]. unfold position_violated, dict_index. cbn [fst snd]. by rewrite Hni.
Qed.

(** ** Integer intervals *)

(** A value is in the interval its endpoints bound. *)
Definition above (closed : bool) (l q : Q) : Prop := if closed then (l <= q)%Q else (l < q)%Q.
Definition in_interval (d : NumericIntervalDomain) (q : Q) : Prop :=
  above (lower_closed d) (lower d) q /\ above (upper_closed d) q (upper d).

Lemma q_lt_true a b : q_lt a b = true <-> (a < b)%Q.
Proof. unfold q_lt. rewrite negb_true_iff, <-not_true_iff_false, Qle_bool_iff. split; [apply Qnot_le_lt|apply Qlt_not_le]. Qed.

Lemma ceiling_le (l : Q) z : Qceiling l <= z <-> (l <= inject_Z z)%Q.
Proof.
  split; intros H.
  - eapply Qle_trans; [apply Qle_ceiling|]. by rewrite <-Zle_Qle.
  - apply Z.nlt_ge. intros Hlt. apply (Qle_not_lt _ _ H). eapply Qle_lt_trans; [|apply Qceiling_lt]. rewrite <-Zle_Qle. lia.
Qed.
Lemma floor_ge (u : Q) z : z <= Qfloor u <-> (inject_Z z <= u)%Q.
Proof.
  split; intros H.
  - eapply Qle_trans; [|apply Qfloor_le]. by rewrite <-Zle_Qle.
  - apply Z.nlt_ge. intros Hlt. apply (Qle_not_lt _ _ H). eapply Qlt_le_trans; [apply Qlt_floor|]. rewrite <-Zle_Qle. lia.
Qed.

Lemma interval_bounds_exact d z : (interval_bounds d).1 <= z <= (interval_bounds d).2 <-> in_interval d (inject_Z z).
Proof.
  unfold interval_bounds, in_interval, above. cbn [fst snd]. apply Morphisms_Prop.and_iff_morphism.
  - destruct (lower_closed d); cbn [negb andb]; [apply ceiling_le|]. destruct (Qeq_bool _ _) eqn:He.
    + apply Qeq_bool_iff in He. transitivity (Qceiling (lower d) < z); [lia|]. by rewrite Zlt_Qlt, He.
    + rewrite ceiling_le. apply Qeq_bool_neq in He. split; [|apply Qlt_le_weak]. intros [?|Heq]%Qle_lteq; [done|]. destruct He.
      pose proof (Qceiling_comp _ _ Heq) as Hc. rewrite Qceiling_Z in Hc. rewrite Hc. by apply Qeq_sym.
  - destruct (upper_closed d); cbn [negb andb]; [apply floor_ge|]. destruct (Qeq_bool _ _) eqn:He.
    + apply Qeq_bool_iff in He. transitivity (z < Qfloor (upper d)); [lia|]. by rewrite Zlt_Qlt, He.
    + rewrite floor_ge. apply Qeq_bool_neq in He. split; [|apply Qlt_le_weak]. intros [?|Heq]%Qle_lteq; [done|]. destruct He.
      pose proof (Qfloor_comp _ _ Heq) as Hc. rewrite Qfloor_Z in Hc. by rewrite <-Hc.
Qed.

(** ** Order constraints *)

Definition order_names (o : OrderConstraints) : list string := dict_keys (oc_members o).

(** The references, edges and pins of an order point are what they may be. *)
Record order_formed (o : OrderConstraints) : Prop := {
  of_references : NoDup (dict_items (oc_members o)).*2;
  of_edges : NoDup (oc_precedence o);
  of_edges_in : forall before after, (before, after) ∈ oc_precedence o -> before ∈ order_names o /\ after ∈ order_names o;
  of_fixed_in : forall name pos, (name, pos) ∈ dict_items (oc_fixed_positions o) -> name ∈ order_names o /\ 0 <= pos < py_len (order_names o);
  of_fixed_distinct : NoDup (dict_items (oc_fixed_positions o)).*2;
}.

(** An order the point admits. *)
Definition order_admits (o : OrderConstraints) (order : list string) : Prop :=
  admissible_order (order_names o) (oc_precedence o) (oc_fixed_positions o) order.

Lemma remove_dups_same {A} `{EqDecision A} (l : list A) : NoDup l -> remove_dups l = l.
Proof.
  induction 1 as [|x l Hx Hl IH]; [done|]. cbn [remove_dups]. unfold decide_rel. destruct (list_elem_of_dec x l) as [Hin|]; [done|]. by rewrite IH.
Qed.

Lemma remove_dups_length {A} `{EqDecision A} (l : list A) : length (remove_dups l) = length l <-> NoDup l.
Proof.
  split; [|by intros ->%remove_dups_same]. intros Hlen.
  assert (remove_dups l ≡ₚ l) as <-; [|apply NoDup_remove_dups].
  apply submseteq_length_Permutation; [|lia]. apply NoDup_submseteq; [apply NoDup_remove_dups|]. intros x. by rewrite elem_of_remove_dups.
Qed.

Lemma validated_edges_run names edges :
  (_validated_order_edges names edges = Ok edges /\ NoDup edges /\ forall b a, (b, a) ∈ edges -> b ∈ names /\ a ∈ names) \/
  ((exists msg, _validated_order_edges names edges = Raise (ValueError msg)) /\
   ~ (NoDup edges /\ forall b a, (b, a) ∈ edges -> b ∈ names /\ a ∈ names)).
Proof.
  unfold _validated_order_edges. destruct (Z.eqb_spec (py_len (remove_dups edges)) (py_len edges)) as [Hlen|Hlen]; cbn [negb raise_if mbind result_bind].
  - assert (NoDup edges) as Hnd by (apply remove_dups_length; unfold py_len in Hlen; lia). rewrite remove_dups_same by done.
    destruct (existsb _ edges) eqn:Hex; cbn [raise_if mbind result_bind].
    + right. split; [by eexists|]. intros [_ Hin]. apply existsb_exists in Hex as ([b a] & He%list_elem_of_In & Hbad).
      specialize (Hin _ _ He). rewrite orb_true_iff, !bool_decide_eq_true in Hbad. cbn [fst snd] in Hbad. tauto.
    + left. split_and!; [done..|]. intros b a He. rewrite existsb_false in Hex. specialize (Hex _ He).
      rewrite orb_false_iff, !bool_decide_eq_false in Hex. cbn [fst snd] in Hex. destruct Hex. split; by apply dec_stable.
  - right. split; [by eexists|]. intros [Hnd _]. apply Hlen. by rewrite remove_dups_same.
Qed.

Lemma fixed_positions_run names fixed :
  let formed := (forall name pos, (name, pos) ∈ dict_items fixed -> name ∈ names /\ 0 <= pos < py_len names) /\ NoDup (dict_items fixed).*2 in
  (_validate_fixed_positions names fixed = Ok tt /\ formed) \/
  ((exists msg, _validate_fixed_positions names fixed = Raise (ValueError msg)) /\ ~ formed).
Proof.
  unfold _validate_fixed_positions. cbn zeta.
  destruct (existsb _ (dict_keys fixed)) eqn:Hkeys; cbn [raise_if mbind result_bind].
  { right. split; [by eexists|]. intros [Hin _]. apply existsb_exists in Hkeys as (k & Hk%list_elem_of_In & Hbad%bool_decide_eq_true).
    unfold dict_keys in Hk. apply list_elem_of_fmap in Hk as ([k' p] & -> & He). by apply Hbad, (Hin _ _ He). }
  rewrite existsb_false in Hkeys. destruct (existsb _ (dict_items fixed).*2) eqn:Hrange; cbn [raise_if mbind result_bind].
  { right. split; [by eexists|]. intros [Hin _]. apply existsb_exists in Hrange as (p & Hp%list_elem_of_In & Hbad).
    apply list_elem_of_fmap in Hp as ([k p'] & -> & He). specialize (Hin _ _ He). cbn [snd] in Hbad. lia. }
  rewrite existsb_false in Hrange. case_bool_decide as Hnd; cbn [negb raise_if].
  - left. split; [done|]. split; [|done]. intros k p He.
    assert (p ∈ (dict_items fixed).*2) as Hp by (apply list_elem_of_fmap; by exists (k, p)). specialize (Hrange _ Hp).
    assert (k ∈ dict_keys fixed) as Hk by (apply list_elem_of_fmap; by exists (k, p)). specialize (Hkeys _ Hk). apply bool_decide_eq_false in Hkeys.
    split; [by apply dec_stable|lia].
  - right. split; [by eexists|]. by intros [_ ?].
Qed.

(** C35: the constraints of an order point are accepted exactly when the
    references, edges and pins are well formed and some order of the members
    follows every edge and puts every pinned member at its position; the only
    other answer is the search budget, which never stops a point whose subsets of
    members fit it. *)
Theorem order_constraints_exact (o : OrderConstraints) (Hmembers : dict_wf (oc_members o)) (Hfixed : dict_wf (oc_fixed_positions o)) :
  let admits := order_formed o /\ exists order, order_admits o order in
  (validate_order_constraints o = Ok tt /\ admits) \/
  ((exists msg, validate_order_constraints o = Raise (ValueError msg)) /\ ~ admits) \/
  (validate_order_constraints o = Raise over_budget /\ order_formed o /\ VARIATION_SATISFIABILITY_STATE_LIMIT < 2 ^ py_len (order_names o)).
Proof.
  cbn zeta. unfold validate_order_constraints. destruct (py_unique _) eqn:Href; cbn [negb raise_if mbind result_bind].
  2: { right; left. split; [by eexists|]. intros [[Hr _ _ _ _] _]. apply py_unique_true in Hr. congruence. }
  apply py_unique_true in Href.
  destruct (validated_edges_run (order_names o) (oc_precedence o)) as [(Hedges & Hnd & Hin)|[[msg Hedges] Hbad]];
    unfold order_names in Hedges; rewrite Hedges; cbn [mbind result_bind].
  2: { right; left. split; [by eexists|]. intros [[_ ? ? _ _] _]. by apply Hbad. }
  destruct (fixed_positions_run (order_names o) (oc_fixed_positions o)) as [(Hpins & Hpos & Hdist)|[[msg Hpins] Hbad]];
    unfold order_names in Hpins; rewrite Hpins; cbn [mbind result_bind].
  2: { right; left. split; [by eexists|]. intros [[_ _ _ ? ?] _]. by apply Hbad. }
  assert (order_formed o) as Hformed by by constructor.
  destruct (order_graph_run (order_names o) (oc_precedence o) Hmembers Hnd Hin) as (b & Hrun & Hb). unfold order_names in Hrun.
  rewrite Hrun; cbn [mbind result_bind]. destruct b; cbn [negb raise_if mbind result_bind].
  2: { right; left. split; [by eexists|]. intros [_ (order & Hperm & Hresp & _)]. by assert (false = true) by (apply Hb; by exists order). }
  case_bool_decide as Hnone.
  { left. split; [done|]. split; [done|]. destruct (proj1 Hb eq_refl) as (order & Hperm & Hresp). exists order. split_and!; [done..|].
    intros name pos Hpos'%dict_get_Some_in. rewrite Hnone in Hpos'. by apply not_elem_of_nil in Hpos'. }
  unfold _order_constraints_have_witness.
  destruct (has_witness_run (order_names o) (oc_precedence o) (oc_fixed_positions o) Hmembers Hdist Hfixed) as [(b & Hw & Hwb)|[Hw Hlimit]];
    [by intros ? ? [? _]%Hpos|done|by intros ? ? [_ [? _]]%Hpos|..]; unfold order_names in Hw; rewrite Hw; cbn [mbind result_bind].
  - destruct b; cbn [negb raise_if]; [left|right; left].
    + split; [done|]. split; [done|]. by apply Hwb.
    + split; [by eexists|]. intros [_ Ho%Hwb]. done.
  - right; right. done.
Qed.

Lemma validated_order_formed o : validate_order_constraints o = Ok tt -> order_formed o.
Proof.
  unfold validate_order_constraints. intros (u1 & Href & H)%bind_Ok. apply raise_if_Ok, negb_false_iff, py_unique_true in Href.
  apply bind_Ok in H as (edges & He & H). apply bind_Ok in H as ([] & Hf & _).
  destruct (validated_edges_run (order_names o) (oc_precedence o)) as [(Heq & Hnd & Hin)|[[msg Heq] _]];
    unfold order_names in Heq; rewrite He in Heq; [|done].
  destruct (fixed_positions_run (order_names o) (oc_fixed_positions o)) as [(_ & Hpos & Hdist)|[[msg Hp] _]];
    [|unfold order_names in Hp; by rewrite Hf in Hp]. by constructor.
Qed.

(** ** Integers as floats *)

(** The integers a float denotes. *)
Definition is_float (z : Z) : Prop := exists m e, 0 <= e /\ z = m * 2 ^ e /\ Z.abs m < 2 ^ 53 /\ Z.abs z < 2 ^ 1024.

(** At least halfway from the largest float to the power after it. *)
Definition beyond_floats (z : Z) : Prop := 2 ^ 1024 - 2 ^ 970 <= Z.abs z.

Definition TOO_LARGE : exn := OverflowError "int too large to convert to float".

Lemma log2_scaled a : 0 < a -> 52 < Z.log2 a ->
  let unit := 2 ^ (Z.log2 a - 52) in
  0 < unit /\ 2 ^ 52 <= a / unit < 2 ^ 53 /\ a = unit * (a / unit) + a mod unit /\ 0 <= a mod unit < unit.
Proof.
  intros Ha Hk unit. assert (0 < unit) as Hu by (apply Z.pow_pos_nonneg; lia).
  destruct (Z.log2_spec a Ha) as [Hlo Hhi].
  assert (2 ^ Z.log2 a = 2 ^ 52 * unit) as H1 by (unfold unit; rewrite <-Z.pow_add_r by lia; f_equal; lia).
  assert (2 ^ Z.succ (Z.log2 a) = 2 ^ 53 * unit) as H2 by (unfold unit; rewrite <-Z.pow_add_r by lia; f_equal; lia).
  split_and!; [done| | |apply Z.div_mod; lia|apply Z.mod_pos_bound; lia..].
  - apply Z.div_le_lower_bound; lia.
  - apply Z.div_lt_upper_bound; lia.
Qed.

(** Rounding to the nearest of 53 bits, ties to even. *)
Definition rounded_up (m rest unit : Z) : bool := (unit <? 2 * rest) || ((2 * rest =? unit) && Z.odd m).

Lemma float_of_int_scaled z : 52 < Z.log2 (Z.abs z) ->
  let unit := 2 ^ (Z.log2 (Z.abs z) - 52) in
  let m := Z.abs z / unit in
  let m' := if rounded_up m (Z.abs z mod unit) unit then m + 1 else m in
  float_of_int z = if 2 ^ 1024 <=? m' * unit then Raise TOO_LARGE else Ok (inject_Z (Z.sgn z * (m' * unit))).
Proof.
  intros Hk unit m m'. unfold float_of_int. cbv zeta. rewrite (proj2 (Z.leb_gt _ _)) by lia.
  fold unit. fold m. fold (rounded_up m (Z.abs z mod unit) unit). fold m'. by destruct (2 ^ 1024 <=? m' * unit).
Qed.

Lemma float_of_int_small z : Z.log2 (Z.abs z) <= 52 -> float_of_int z = Ok (inject_Z z).
Proof. intros Hk. unfold float_of_int. cbv zeta. by rewrite (proj2 (Z.leb_le _ _)) by lia. Qed.

Lemma big_powers : exists h, 0 < h /\ 2 ^ 970 = h /\ 2 ^ 971 = 2 * h /\ 2 ^ 1023 = 2 ^ 53 * h /\ 2 ^ 1024 = 2 ^ 54 * h.
Proof. exists (2 ^ 970). by vm_compute. Qed.

(** The conversion raises exactly beyond the floats. *)
Lemma float_of_int_cases z :
  (beyond_floats z /\ float_of_int z = Raise TOO_LARGE) \/ (~ beyond_floats z /\ exists q, float_of_int z = Ok q).
Proof.
  destruct big_powers as (h & Hh & H970 & H971 & H1023 & H1024). unfold beyond_floats. rewrite H970.
  destruct (Z.lt_ge_cases 52 (Z.log2 (Z.abs z))) as [Hk|Hk].
  2:{ right. split; [|eexists; by apply float_of_int_small]. rewrite H1024.
      assert (Z.abs z < 2 ^ 53); [|lia]. destruct (Z.eq_dec (Z.abs z) 0) as [->|Hz]; [lia|].
      pose proof (proj2 (Z.log2_lt_pow2 (Z.abs z) 53 ltac:(lia))). lia. }
  rewrite (float_of_int_scaled z Hk). assert (0 < Z.abs z) as Ha.
  { destruct (Z.eq_dec (Z.abs z) 0) as [E|]; [rewrite E in Hk; cbn in Hk; lia|lia]. }
  destruct (log2_scaled (Z.abs z) Ha Hk) as (Hu & [Hm1 Hm2] & Heq & [Hr1 Hr2]).
  destruct (Z.log2_spec (Z.abs z) Ha) as [Hlo Hhi].
  set (unit := 2 ^ (Z.log2 (Z.abs z) - 52)) in *. set (m := Z.abs z / unit) in *. set (rest := Z.abs z mod unit) in *.
  set (m' := if rounded_up m rest unit then m + 1 else m). assert (m <= m' <= m + 1) as Hm' by (unfold m'; destruct (rounded_up _ _ _); lia).
  destruct (Z.lt_trichotomy (Z.log2 (Z.abs z)) 1023) as [Hlt|[Hk2|Hgt]].
  - right. assert (2 ^ Z.succ (Z.log2 (Z.abs z)) <= 2 ^ 1023) as Hle by (apply Z.pow_le_mono_r; lia).
    assert (2 ^ Z.succ (Z.log2 (Z.abs z)) = 2 ^ 53 * unit) as H2 by (unfold unit; rewrite <-Z.pow_add_r by lia; f_equal; lia).
    split; [lia|]. rewrite (proj2 (Z.leb_gt _ _)) by nia. by eexists.
  - assert (unit = 2 * h) as Hunit by (unfold unit; rewrite Hk2; exact H971).
    assert (2 ^ 1024 <= m' * unit <-> 2 ^ 1024 - h <= Z.abs z) as Hiff.
    { rewrite H1024, Hunit. split.
      - intros Hge. assert (m' = 2 ^ 53) as Hm'' by nia. unfold m' in Hm''. destruct (rounded_up m rest unit) eqn:Hup; [|lia].
        assert (h <= rest); [|nia]. apply orb_true_iff in Hup as [Hup|[Hup _]%andb_true_iff]; lia.
      - intros Hge. assert (m = 2 ^ 53 - 1) as Hmm by nia. unfold m'.
        assert (rounded_up m rest unit = true) as ->; [|nia]. unfold rounded_up. rewrite Hmm.
        change (Z.odd (2 ^ 53 - 1)) with true. rewrite andb_true_r, orb_true_iff, Z.ltb_lt, Z.eqb_eq. nia. }
    destruct (2 ^ 1024 <=? m' * unit) eqn:Hb.
    + left. split; [|done]. apply Hiff. by apply Z.leb_le.
    + right. split; [|by eexists]. rewrite <-Hiff. by apply Z.leb_gt in Hb; lia.
  - left. assert (2 ^ 1024 <= 2 ^ Z.log2 (Z.abs z)) as Hle by (apply Z.pow_le_mono_r; lia).
    assert (2 ^ Z.log2 (Z.abs z) = 2 ^ 52 * unit) as H2 by (unfold unit; rewrite <-Z.pow_add_r by lia; f_equal; lia).
    split; [lia|]. rewrite (proj2 (Z.leb_le _ _)) by nia. done.
Qed.

(** An integer that is a float is converted to itself. *)
Lemma float_of_int_exact z : is_float z -> float_of_int z = Ok (inject_Z z).
Proof.
  intros (m & e & He & Hz & Hm & Hlt). destruct (Z.lt_ge_cases 52 (Z.log2 (Z.abs z))) as [Hk|Hk]; [|by apply float_of_int_small].
  rewrite (float_of_int_scaled z Hk). set (unit := 2 ^ (Z.log2 (Z.abs z) - 52)).
  assert (0 < Z.abs z) as Ha.
  { destruct (Z.eq_dec (Z.abs z) 0) as [E|]; [rewrite E in Hk; cbn in Hk; lia|lia]. }
  assert (Z.log2 (Z.abs z) < 53 + e) as Hlog.
  { apply Z.log2_lt_pow2; [done|]. rewrite Hz, Z.abs_mul, Z.pow_add_r, (Z.abs_eq (2 ^ e)) by lia. nia. }
  assert (Z.abs z mod unit = 0) as Hmod.
  { rewrite Hz, Z.abs_mul, (Z.abs_eq (2 ^ e)) by lia. replace e with ((e - (Z.log2 (Z.abs z) - 52)) + (Z.log2 (Z.abs z) - 52)) by lia.
    rewrite Z.pow_add_r by lia. fold unit. rewrite Z.mul_assoc. apply Z.mod_mul. unfold unit. apply Z.pow_nonzero; lia. }
  assert (0 < unit) as Hu by (apply Z.pow_pos_nonneg; lia).
  assert (rounded_up (Z.abs z / unit) (Z.abs z mod unit) unit = false) as ->.
  { unfold rounded_up. rewrite Hmod, (proj2 (Z.ltb_ge _ _)), (proj2 (Z.eqb_neq _ _)) by lia. done. }
  assert (Z.abs z / unit * unit = Z.abs z) as Hdiv by (rewrite (Z.div_mod (Z.abs z) unit) at 2 by lia; lia).
  rewrite Hdiv, (proj2 (Z.leb_gt _ _)) by done. by rewrite Z.mul_comm, Z.abs_sgn.
Qed.

Lemma is_float_within z : is_float z -> ~ beyond_floats z.
Proof. intros Hf%float_of_int_exact. destruct (float_of_int_cases z) as [[_ H]|[? _]]; [congruence|done]. Qed.

Lemma float_of_int_integral z q : float_of_int z = Ok q -> exists n, q = inject_Z n.
Proof.
  destruct (Z.lt_ge_cases 52 (Z.log2 (Z.abs z))) as [Hk|Hk].
  - rewrite (float_of_int_scaled z Hk). destruct (_ <=? _); [done|]. intros [= <-]. by eexists.
  - rewrite float_of_int_small by done. intros [= <-]. by eexists.
Qed.

(** ** Selected outcomes *)

(** Values of one type that are equal. *)
Inductive same_scalar : DomainScalar -> DomainScalar -> Prop :=
| same_bool b : same_scalar (SBool b) (SBool b)
| same_int z : same_scalar (SInt z) (SInt z)
| same_float p q : (p == q)%Q -> same_scalar (SFloat p) (SFloat q)
| same_string s : same_scalar (SString s) (SString s).

Lemma scalar_eq_true a b : _scalar_eq a b = true <-> same_scalar a b.
Proof.
  split.
  - destruct a, b; cbn [_scalar_eq]; try done; [intros ->%Bool.eqb_prop|intros ->%Z.eqb_eq|intros H%Qeq_bool_iff|intros ->%String.eqb_eq]; by constructor.
  - destruct 1; cbn [_scalar_eq]; [apply Bool.eqb_reflx|apply Z.eqb_refl|by apply Qeq_bool_iff|apply String.eqb_refl].
Qed.

(** The values a domain holds, for a reading [denotes] of the integers that are
    compared with the ends of an interval. *)
Inductive scalar_member (denotes : Z -> Q -> Prop) : DomainScalar -> ScalarDomain -> Prop :=
| member_exact v m : same_scalar v m -> scalar_member denotes v (ExactDomain m)
| member_enum v m values : m ∈ values -> same_scalar v m -> scalar_member denotes v (EnumDomain values)
| member_boolean b : scalar_member denotes (SBool b) (BooleanDomain None)
| member_exact_boolean b : scalar_member denotes (SBool b) (BooleanDomain (Some b))
| member_integer z q d : denotes z q -> in_interval d q -> scalar_member denotes (SInt z) (IntervalDomain d)
| member_number q d : numeric_type d = NUMBER -> in_interval d q -> scalar_member denotes (SFloat q) (IntervalDomain d).

(** An integer read as itself, and as the float the code converts it to. *)
Definition itself (z : Z) (q : Q) : Prop := q = inject_Z z.
Definition converted (z : Z) (q : Q) : Prop := float_of_int z = Ok q.

Lemma interval_ends d q :
  (if lower_closed d then Qle_bool (lower d) q else q_lt (lower d) q) && (if upper_closed d then Qle_bool q (upper d) else q_lt q (upper d)) = true
  <-> in_interval d q.
Proof.
  unfold in_interval, above. rewrite andb_true_iff. destruct (lower_closed d), (upper_closed d); by rewrite ?Qle_bool_iff, ?q_lt_true.
Qed.

(** The integer that is compared with an interval. *)
Definition compared_scalar (v : DomainScalar) (d : ScalarDomain) : option Z :=
  match v, d with SInt z, IntervalDomain _ => Some z | _, _ => None end.

Lemma scalar_in_domain_run v d :
  (exists z, compared_scalar v d = Some z /\ beyond_floats z /\ scalar_in_domain v d = Raise TOO_LARGE) \/
  ((forall z, compared_scalar v d = Some z -> ~ beyond_floats z) /\
   exists b, scalar_in_domain v d = Ok b /\ (b = true <-> scalar_member converted v d)).
Proof.
  destruct d as [m|values|e|d]; cbn [scalar_in_domain].
  - right. split; [by destruct v|]. eexists. split; [done|]. rewrite scalar_eq_true. split; [by constructor|by inversion 1].
  - right. split; [by destruct v|]. eexists. split; [done|]. rewrite existsb_exists. split.
    + intros (m & Hm%list_elem_of_In & He%scalar_eq_true). by econstructor.
    + inversion 1; subst. eexists; split; [by apply list_elem_of_In|by apply scalar_eq_true].
  - right. split; [by destruct v|]. eexists. split; [done|].
    split; [|inversion 1; subst; [done|apply Bool.eqb_reflx]]. destruct v, e; try done; [intros <-%Bool.eqb_prop|intros _]; constructor.
  - unfold _interval_member. destruct v as [b|z|q|s]; cbn [scalar_matches_numeric_type negb number_of];
      try (right; split; [done|]; eexists; split; [done|]; split; [done|by inversion 1]).
    + destruct (float_of_int_cases z) as [[Hb ->]|[Hb (q & Hq)]]; [left; by exists z|right]. split; [by intros ? [= <-]|].
      rewrite Hq. cbn [mbind result_bind]. eexists. split; [done|]. rewrite interval_ends.
      split; [by econstructor|]. inversion 1 as [| | | |z' q' d' Hq' Hin|]; subst. unfold converted in Hq'. congruence.
    + right. split; [done|]. destruct (numeric_type d) eqn:Ht; cbn [negb mbind result_bind]; eexists; (split; [done|]);
        [split; [done|inversion 1; congruence]|]. rewrite interval_ends. split; [by constructor|by inversion 1].
Qed.

(** Integers that are floats are compared as themselves. *)
Lemma scalar_member_exactly v d :
  (forall z, compared_scalar v d = Some z -> is_float z) -> scalar_member converted v d <-> scalar_member itself v d.
Proof.
  intros Hf. split; (inversion 1 as [| | | |z q d' Hq Hin|]; subst; [by econstructor..| |by econstructor]);
    specialize (Hf z eq_refl); apply float_of_int_exact in Hf; unfold converted, itself in *.
  - apply (member_integer _ z (inject_Z z)); [done|]. congruence.
  - by apply (member_integer _ z q); [congruence|].
Qed.

(** What a point admits. *)
Definition admits_by (denotes : Z -> Q -> Prop) (point : VariationPoint) (outcome : SelectionOutcome) : Prop :=
  match point, outcome with
  | (ParameterVariationPoint d | LogicalTimingVariationPoint d), LiteralOutcome (Some v) => scalar_member denotes v d
  | GovernedReferenceVariationPoint refs, ReferenceOutcome id => id ∈ refs
  | AlternativeVariationPoint alternatives, MemberOutcome id => id ∈ dict_keys alternatives
  | SubsetVariationPoint members minimum maximum, SubsetOutcome ids =>
      ids ⊆ dict_keys members /\ minimum <= py_len ids /\ forall m, maximum = Some m -> py_len ids <= m
  | OrderVariationPoint o, OrderOutcome ids => order_admits o ids
  | _, _ => False
  end.

(** What the domain says, and what the code makes of it. *)
Definition admits_exactly : VariationPoint -> SelectionOutcome -> Prop := admits_by itself.
Definition admits_outcome : VariationPoint -> SelectionOutcome -> Prop := admits_by converted.

(** The integer a selection compares with the interval of a point. *)
Definition compared (point : VariationPoint) (outcome : SelectionOutcome) : option Z :=
  match point, outcome with
  | (ParameterVariationPoint d | LogicalTimingVariationPoint d), LiteralOutcome (Some v) => compared_scalar v d
  | _, _ => None
  end.

Lemma admits_exactly_iff point outcome :
  (forall z, compared point outcome = Some z -> is_float z) -> admits_outcome point outcome <-> admits_exactly point outcome.
Proof. destruct point, outcome as [[v|]| | | |]; try done; apply scalar_member_exactly. Qed.

(** A check decides a proposition and refuses with a [ValueError]. *)
Definition decides (r : result unit) (P : Prop) : Prop :=
  (r = Ok tt /\ P) \/ ((exists msg, r = Raise (ValueError msg)) /\ ~ P).

Lemma decides_check (b : bool) msg (P : Prop) : (b = true <-> P) -> decides (raise_if (negb b) (ValueError msg)) P.
Proof. intros HP. destruct b; cbn [negb raise_if]; [left; split; [done|by apply HP]|right; split; [by eexists|]]. by intros ?%HP. Qed.

Lemma decides_seq (b : bool) msg (r : result unit) (P Q : Prop) :
  (b = false -> ~ Q) -> (b = true -> decides r P) -> (b = true -> P <-> Q) -> decides (_ ← raise_if (negb b) (ValueError msg); r) Q.
Proof.
  intros Hno Hr Hiff. destruct b; cbn [negb raise_if mbind result_bind]; [|right; split; [by eexists|by apply Hno]].
  specialize (Hiff eq_refl). destruct (Hr eq_refl) as [[? ?%Hiff]|[? Hn]]; [by left|right]. split; [done|]. by intros ?%Hiff.
Qed.

Lemma subset_outcome_run members minimum maximum ids :
  dict_wf members -> NoDup ids ->
  decides (_validate_subset_outcome members minimum maximum (SubsetOutcome ids))
    (ids ⊆ dict_keys members /\ minimum <= py_len ids /\ forall m, maximum = Some m -> py_len ids <= m).
Proof.
  intros Hwf Hnd. cbn [_validate_subset_outcome]. rewrite (remove_dups_same ids Hnd). apply (decides_seq _ _ _ 
    (minimum <= py_len ids /\ py_len ids <= default (py_len (dict_keys members)) maximum)).
  - intros Hb%bool_decide_eq_false. tauto.
  - intros _. apply decides_check. rewrite andb_true_iff, !Z.leb_le. done.
  - intros Hsub%bool_decide_eq_true. assert (py_len ids <= py_len (dict_keys members)) as Hle.
    { apply inj_le, submseteq_length, NoDup_submseteq; [done|]. intros x. apply Hsub. }
    destruct maximum as [m|]; cbn [default from_option]; unfold id; split.
    + intros [? ?]. split_and!; [done..|]. by intros ? [= <-].
    + intros (_ & ? & Hmax). split; [done|by apply Hmax].
    + by intros [? _].
    + by intros (_ & ? & _).
Qed.

Lemma order_outcome_run o ids :
  dict_wf (oc_members o) -> dict_wf (oc_fixed_positions o) -> order_formed o -> NoDup ids ->
  decides (_validate_order_outcome o (OrderOutcome ids)) (order_admits o ids).
Proof.
  intros Hm Hf [_ _ Hin Hpos _] Hnd. cbn [_validate_order_outcome]. 
  eapply decides_seq with (P := respects (oc_precedence o) ids /\
    forall name pos, (name, pos) ∈ dict_items (oc_fixed_positions o) -> ids !! Z.to_nat pos = Some name).
  - intros Hb [Hperm _]. apply andb_false_iff in Hb. rewrite !bool_decide_eq_false in Hb. destruct Hb as [Hb|Hb]; apply Hb; intros x; by rewrite Hperm.
  - intros [Hsub Hsup]%andb_true_iff. apply bool_decide_eq_true in Hsub, Hsup.
    destruct (precedence_run ids (oc_precedence o) Hnd) as (b1 & Hb1 & Hr1); [intros b a [? ?]%Hin; by split; apply Hsup|]. rewrite Hb1; cbn [mbind result_bind].
    destruct (positions_run ids (dict_items (oc_fixed_positions o)) Hnd) as (b2 & Hb2 & Hr2); [intros n p [? ?]%Hpos; split; [by apply Hsup|lia]|].
    destruct b1; cbn [raise_if mbind result_bind].
    { right. split; [by eexists|]. intros [?%Hr1 _]. done. }
    rewrite Hb2; cbn [mbind result_bind]. destruct b2; cbn [raise_if]; [right; split; [by eexists|]; intros [_ ?%Hr2]; done|left; split; [done|]]. 
    split; [by apply Hr1|by apply Hr2].
  - intros [Hsub Hsup]%andb_true_iff. apply bool_decide_eq_true in Hsub, Hsup.
    assert (ids ≡ₚ order_names o) as Hperm by (apply NoDup_Permutation; [done..|]; intros x; split; [apply Hsub|apply Hsup]).
    unfold order_admits, admissible_order. setoid_rewrite <-(dict_get_Some _ _ _ Hf). tauto.
Qed.

(** A sample: three members, the first before the second and the third pinned
    first. *)
Module OrderSample.
Definition members : dict string string := dict_of_list [("deploy", "ref.deploy"); ("probe", "ref.probe"); ("warm", "ref.warm")].
Definition sample_order : OrderConstraints := Order members [("deploy", "probe")] (dict_of_list [("warm", 0)]).
Definition point : VariationPoint := OrderVariationPoint sample_order.

Lemma wf : dict_wf (oc_members sample_order) /\ dict_wf (oc_fixed_positions sample_order).
Proof. split; apply dict_wf_of_list. Qed.
Lemma accepted : validate_variation_point point = Ok tt.
Proof. vm_compute. reflexivity. Qed.
Lemma formed : order_formed sample_order.
Proof. apply validated_order_formed. vm_compute. reflexivity. Qed.
End OrderSample.

Lemma order_constraints_exact_witness :
  order_formed OrderSample.sample_order /\ exists order, order_admits OrderSample.sample_order order.
Proof.
  destruct (order_constraints_exact OrderSample.sample_order (proj1 OrderSample.wf) (proj2 OrderSample.wf)) as [[_ H]|[[[msg H] _]|[H _]]];
    [exact H|vm_compute in H; discriminate..].
Defined.

Lemma validated_outcome_unique outcome ids :
  validate_outcome outcome = Ok tt -> outcome = SubsetOutcome ids \/ outcome = OrderOutcome ids -> NoDup ids.
Proof.
  intros Hv [-> | ->]; cbn [validate_outcome] in Hv; apply bind_Ok in Hv as (u & _ & Hu);
    by apply raise_if_Ok, negb_false_iff, py_unique_true in Hu.
Qed.

(** A literal beyond the floats raises; any other is decided. *)
Definition decides_literal (r : result unit) (P : Prop) (z : option Z) : Prop :=
  (exists n, z = Some n /\ beyond_floats n /\ r = Raise TOO_LARGE) \/ ((forall n, z = Some n -> ~ beyond_floats n) /\ decides r P).

Lemma literal_run d outcome message :
  decides_literal
    (admitted ← match outcome with LiteralOutcome (Some v) => scalar_in_domain v d | _ => Ok false end;
     raise_if (negb admitted) (ValueError message))
    (admits_outcome (ParameterVariationPoint d) outcome) (compared (ParameterVariationPoint d) outcome).
Proof.
  destruct outcome as [[v|]| | | |]; try (by right; split; [done|right; split; [by eexists|by intros []]]).
  destruct (scalar_in_domain_run v d) as [(z & Hz & Hb & ->)|(Hn & b & -> & Hb)]; [left; by exists z|right]. split; [done|].
  cbn [mbind result_bind]. by apply decides_check.
Qed.

Lemma selection_outcome_run (point : VariationPoint) (outcome : SelectionOutcome)
    (Hwf : point_wf point) (Hpoint : validate_variation_point point = Ok tt) (Houtcome : validate_outcome outcome = Ok tt) :
  decides_literal (validate_selection_outcome point outcome) (admits_outcome point outcome) (compared point outcome).
Proof.
  assert (forall (msg : string) (P : Prop), ~ P -> decides (Raise (ValueError msg)) P) as Hrefuse by (intros; right; split; [by eexists|done]).
  destruct point as [d|d|refs|alternatives|members minimum maximum|o]; cbn [validate_selection_outcome];
    [apply literal_run|apply literal_run|right; split; [done|]..].
  - destruct outcome; apply decides_check; try done. apply bool_decide_eq_true.
  - destruct outcome; apply decides_check; try done. apply bool_decide_eq_true.
  - destruct outcome as [| | |ids|]; try (by apply Hrefuse; intros []). apply subset_outcome_run; [done|].
    eapply validated_outcome_unique; [done|by left].
  - destruct outcome as [| | | |ids]; try (by apply Hrefuse; intros []). destruct Hwf as [Hm Hf]. apply order_outcome_run; [done..| |].
    + apply validated_order_formed. cbn [validate_variation_point] in Hpoint. apply bind_Ok in Hpoint as (u & _ & H). by apply bind_Ok in H as (u' & _ & H).
    + eapply validated_outcome_unique; [done|by right].
Qed.

(** C36: an admitted point accepts a valid selection exactly when the point
    admits it: a literal in its domain, a listed reference or alternative, a
    subset of the members within the cardinalities, an order of all the members
    that follows the edges and the pins; every other selection is refused with a
    [ValueError]. One condition: an integer that is compared with a numeric
    interval must be a float ([is_float], so every integer up to 2^53), since the
    code compares the float it converts to; between floats the answer can differ
    from membership ([rounded_member_refused]). The conversion escapes as an
    [OverflowError] exactly for the integers beyond the floats, and nothing but
    these two errors is ever raised. *)
Theorem selection_outcome_exact (point : VariationPoint) (outcome : SelectionOutcome)
    (Hwf : point_wf point) (Hpoint : validate_variation_point point = Ok tt) (Houtcome : validate_outcome outcome = Ok tt) :
  ((forall z, compared point outcome = Some z -> is_float z) ->
     decides (validate_selection_outcome point outcome) (admits_exactly point outcome)) /\
  (validate_selection_outcome point outcome = Raise TOO_LARGE <-> exists z, compared point outcome = Some z /\ beyond_floats z) /\
  (validate_selection_outcome point outcome = Ok tt \/ validate_selection_outcome point outcome = Raise TOO_LARGE \/
   exists message, validate_selection_outcome point outcome = Raise (ValueError message)).
Proof.
  destruct (selection_outcome_run point outcome Hwf Hpoint Houtcome) as [(z & Hz & Hb & Hr)|[Hn Hd]].
  - split_and!; [|by split; [exists z|]|by right; left]. intros Hf. exfalso. by apply (is_float_within z); [apply Hf|].
  - split; [|split].
    + intros Hf%admits_exactly_iff. unfold decides in *. by rewrite <-Hf.
    + split; [|intros (z & Hz & Hb); by destruct (Hn z Hz)]. intros Hr. rewrite Hr in Hd. by destruct Hd as [[? _]|[[? ?] _]].
    + destruct Hd as [[? _]|[? _]]; auto.
Qed.

(** An accepted order, a refused one, a literal in an interval and one beyond
    the floats. *)
Definition percent : VariationPoint :=
  ParameterVariationPoint (IntervalDomain (NumericInterval NUMBER 0 100 true true)).

Lemma selection_outcome_exact_witness :
  admits_exactly OrderSample.point (OrderOutcome ["warm"; "deploy"; "probe"]) /\
  ~ admits_exactly OrderSample.point (OrderOutcome ["deploy"; "warm"; "probe"]) /\
  admits_exactly percent (LiteralOutcome (Some (SInt 40))) /\
  validate_selection_outcome percent (LiteralOutcome (Some (SInt (10 ^ 400)))) = Raise TOO_LARGE.
Proof.
  split_and!.
  - destruct (selection_outcome_exact OrderSample.point (OrderOutcome ["warm"; "deploy"; "probe"]) OrderSample.wf OrderSample.accepted eq_refl)
      as [Hd _]. destruct Hd as [[_ H]|[[msg H] _]]; [done|exact H|vm_compute in H; discriminate].
  - destruct (selection_outcome_exact OrderSample.point (OrderOutcome ["deploy"; "warm"; "probe"]) OrderSample.wf OrderSample.accepted eq_refl)
      as [Hd _]. destruct Hd as [[H _]|[_ H]]; [done|vm_compute in H; discriminate|exact H].
  - destruct (selection_outcome_exact percent (LiteralOutcome (Some (SInt 40))) I eq_refl eq_refl) as [Hd _].
    destruct Hd as [[_ H]|[[msg H] _]]; [|exact H|vm_compute in H; discriminate].
    intros z Hz. injection Hz as <-. exists 40, 0. split_and!; [lia|lia|reflexivity|reflexivity].
  - destruct (selection_outcome_exact percent (LiteralOutcome (Some (SInt (10 ^ 400)))) I eq_refl eq_refl) as (_ & [_ Hr] & _).
    apply Hr. exists (10 ^ 400). split; [reflexivity|]. apply Z.leb_le. vm_compute. reflexivity.
Defined.

(** An integer beyond the floats is not refused as outside its interval: the
    conversion raises an [OverflowError], which is no [ValueError]. *)
Lemma huge_literal_overflows :
  validate_variation_point percent = Ok tt /\ validate_outcome (LiteralOutcome (Some (SInt (10 ^ 400)))) = Ok tt /\
  ~ admits_exactly percent (LiteralOutcome (Some (SInt (10 ^ 400)))) /\
  validate_selection_outcome percent (LiteralOutcome (Some (SInt (10 ^ 400)))) = Raise TOO_LARGE.
Proof.
  split_and!; [reflexivity..| |vm_compute; reflexivity]. intros H. inversion H as [| | | |z q d Hq [_ Hup]|]; subst.
  unfold itself in Hq. subst q. cbn [above upper upper_closed] in Hup. change 100%Q with (inject_Z 100) in Hup.
  rewrite <-Zle_Qle in Hup. apply Z.leb_le in Hup. vm_compute in Hup. discriminate.
Qed.

(** ** Integer intervals *)

(** An integer interval is counted exactly: the integers of a counted
    interval are the [n] from its first one on, and an interval is refused as
    empty exactly when it contains no integer. *)
Lemma interval_population_exact (d : NumericIntervalDomain) (Hinteger : numeric_type d = INTEGER) :
  (exists low n, _integer_interval_cardinality (IntervalDomain d) = Ok n /\ 1 <= n /\
     forall z, in_interval d (inject_Z z) <-> z ∈ seqZ low n) \/
  (_integer_interval_cardinality (IntervalDomain d) = Raise (ValueError "selection policy domain is empty") /\
   forall z, ~ in_interval d (inject_Z z)).
Proof.
  cbn [_integer_interval_cardinality]. rewrite decide_True by done. setoid_rewrite <-interval_bounds_exact.
  destruct (interval_bounds d) as [low high]. cbn [fst snd]. destruct (Z.ltb_spec (high - low + 1) 1); cbn [raise_if mbind result_bind].
  - right. split; [done|]. lia.
  - left. exists low, (high - low + 1). split_and!; [done..|]. intros z. rewrite elem_of_seqZ. lia.
Qed.

Definition open_unit : NumericIntervalDomain := NumericInterval INTEGER 0 1 false false.

(** The construction of an interval accepts one that contains no value. *)
Lemma open_interval_empty :
  validate_interval open_unit = Ok tt /\ forall v, scalar_in_domain v (IntervalDomain open_unit) <> Ok true.
Proof.
  split; [reflexivity|]. intros v Hv. destruct (scalar_in_domain_run v (IntervalDomain open_unit)) as [(z & _ & _ & H)|(_ & b & H & Hb)]; [congruence|].
  rewrite Hv in H. injection H as <-. pose proof (proj1 Hb eq_refl) as Hm. inversion Hm as [| | | |z q d Hq [H1 H2]|q d Ht]; subst; [|done].
  apply float_of_int_integral in Hq as [n ->]. cbn [above open_unit lower upper lower_closed upper_closed] in H1, H2.
  change 0%Q with (inject_Z 0) in H1. change 1%Q with (inject_Z 1) in H2. rewrite <-Zlt_Qlt in H1, H2. lia.
Qed.

(** An integer of an open interval is refused by the membership check when the
    float it rounds to is the end: 2^53 + 1 above 2^53. *)
Definition wide_open : NumericIntervalDomain := NumericInterval INTEGER (inject_Z (2 ^ 53)) (inject_Z (2 ^ 53 + 8)) false true.

Lemma rounded_member_refused :
  validate_interval wide_open = Ok tt /\ in_interval wide_open (inject_Z (2 ^ 53 + 1)) /\
  scalar_in_domain (SInt (2 ^ 53 + 1)) (IntervalDomain wide_open) = Ok false.
Proof. split_and!; [reflexivity|split; [reflexivity|discriminate]|reflexivity]. Qed.
