(* ===== verification/TrialPlan.v ===== *)
(** Experiment trials before selection: the logical coordinates with their
    canonical order ([contracts/trial_coordinate_order.py],
    [trial_compiler/inputs.py], [trial_compiler/profiles.py]) and the selection
    policies of a run plan ([contracts/experiment_selection.py]). *)
From S2P Require Import Prelude.
From S2P Require Import Contracts.
From S2P Require Import RandomStream.
From S2P Require Import ParticipantActivity.
From S2P Require Import Variation.
From Stdlib Require Import Ascii.
Local Open Scope string_scope.
Local Open Scope list_scope.
Local Open Scope Z_scope.

(** ** Replicates *)

Definition REPLICATE_ID_WIDTH : nat := 6.

(** The decimal digits of a number below [10^width], padded with zeros. *)
Definition decimal_digit (d : Z) : ascii := ascii_of_nat (48 + Z.to_nat d).
Fixpoint zero_padded (width : nat) (n : Z) : list ascii :=
  match width with O => [] | S width => zero_padded width (n / 10) ++ [decimal_digit (n mod 10)] end.

Definition replicate_id (ordinal : Z) : result string :=
  _ ← raise_if ((ordinal <? 1) || (10 ^ Z.of_nat REPLICATE_ID_WIDTH <=? ordinal))
    (ValueError "replicate ordinal is outside trial-coordinate-v1");
  Ok (String.string_of_list_ascii (chars "replicate-" ++ zero_padded REPLICATE_ID_WIDTH ordinal)).

(** [int(s)] of a string of ASCII digits. *)
Definition digits_value (l : list ascii) : Z := foldl (fun acc c => 10 * acc + (Z.of_nat (nat_of_ascii c) - 48)) 0 l.

Definition replicate_ordinal (value : string) : result Z :=
  let suffix := if starts_with "replicate-" value then drop 10 (chars value) else chars value in
  _ ← raise_if (bool_decide (suffix = chars value) || negb (bool_decide (length suffix = REPLICATE_ID_WIDTH)) || negb (forallb digit_char suffix))
    (ValueError "replicate id is not a trial-coordinate-v1 identifier");
  Ok (digits_value suffix).

(** ** Coordinates *)

(** The key of [trial-coordinate-canonical-v1]; absent dimensions sort first. *)
Definition canonical_coordinate_sort_key (c : TrialCoordinateModel) : result (string * Z) :=
  let condition := default "" (condition_id c) in
  replicate ← match RandomStream.replicate_id c with Some id => replicate_ordinal id | None => Ok 0 end;
  Ok (condition, replicate).

(** The ceilings on diagnostics and plan bytes are left out. *)
Record TrialCompilationLimitsModel : Type := Limits {
  max_coordinates : Z;
  max_domain_values_per_point : Z;
  max_product_outputs : Z;
  max_bindings_per_entry : Z;
  max_draws_per_entry : Z;
}.

Definition validate_limits (l : TrialCompilationLimitsModel) : result unit :=
  require_fields
    [("max_coordinates", at_least 1 (max_coordinates l)); ("max_domain_values_per_point", at_least 1 (max_domain_values_per_point l));
     ("max_product_outputs", at_least 1 (max_product_outputs l)); ("max_bindings_per_entry", at_least 1 (max_bindings_per_entry l));
     ("max_draws_per_entry", at_least 1 (max_draws_per_entry l))].

(** The compared conditions with the factor levels assigned to each; the criteria
    of the assignments are left out. *)
Record ExperimentRunAllocationPlanModel : Type := Allocation {
  compared_conditions : list string;
  condition_assignments : dict string (dict string string);
  target_runs_per_condition : Z;
}.

Definition validate_allocation (a : ExperimentRunAllocationPlanModel) : result unit :=
  _ ← require_fields
    [("compared_conditions", bool_decide (compared_conditions a <> []) && forallb nonempty (compared_conditions a));
     ("condition_assignments", bool_decide (dict_keys (condition_assignments a) <> []));
     ("target_runs_per_condition", at_least 1 (target_runs_per_condition a))];
  _ ← raise_if (negb (py_unique (compared_conditions a))) (ValueError "run_allocation compared_conditions must be unique");
  raise_if (negb (bool_decide (dict_keys (condition_assignments a) ≡ₚ compared_conditions a)))
    (ValueError "run_allocation condition_assignments keys must match compared_conditions").

Definition _RUN_PLAN_ADDRESS : string := "/run_plan".
Definition coordinate_set_empty : exn :=
  CompilationFailure "coordinate-set-empty" _RUN_PLAN_ADDRESS "run allocation produced no logical trial coordinates".
Definition coordinate_limit_exceeded : exn :=
  CompilationFailure "coordinate-limit-exceeded" _RUN_PLAN_ADDRESS "logical trial coordinates exceed the compilation limit".

(** [TrialCoordinateModel(condition_id=..., replicate_id=replicate_id(ordinal))]. *)
Definition replicate_coordinate (condition : option string) (ordinal : Z) : result TrialCoordinateModel :=
  id ← replicate_id ordinal; validate_trial_coordinate (TrialCoordinate condition None (Some id)).

Definition coordinates (allocation : option ExperimentRunAllocationPlanModel) (target_run_count : option Z)
    (limits : TrialCompilationLimitsModel) : result (list TrialCoordinateModel) :=
  match allocation with
  | None =>
      let count := default 0 target_run_count in
      _ ← raise_if (count =? 0) coordinate_set_empty;
      _ ← raise_if (max_coordinates limits <? count) coordinate_limit_exceeded;
      mmap (replicate_coordinate None) (seqZ 1 count)
  | Some a =>
      let per_condition := target_runs_per_condition a in
      let condition_count := py_len (compared_conditions a) in
      _ ← raise_if ((condition_count =? 0) || (per_condition =? 0)) coordinate_set_empty;
      _ ← raise_if (max_coordinates limits / per_condition <? condition_count) coordinate_limit_exceeded;
      mfold (fun output condition =>
        batch ← mmap (replicate_coordinate (Some condition)) (seqZ 1 per_condition); Ok (output ++ batch)) [] (py_sorted (compared_conditions a))
  end.

(** The requested traversal of the coordinates. *)
Definition visit_indices (coordinate_count : Z) (coordinate_partitions : option (list (list Z))) : result (list Z) :=
  match coordinate_partitions with
  | None => Ok (seqZ 0 coordinate_count)
  | Some partitions =>
      let flattened := List.concat partitions in
      _ ← raise_if (negb (bool_decide (merge_sort Z.le flattened = seqZ 0 coordinate_count)))
        (CompilationFailure "coordinate-partitions-invalid" _RUN_PLAN_ADDRESS
           "coordinate partitions must cover every canonical coordinate exactly once");
      Ok flattened
  end.

(** ** Selection policies *)

Inductive SelectionPurpose : Type := NUISANCE_VARIATION | FIXED_CONFIGURATION | CONTROLLED_FACTOR.
#[export] Instance SelectionPurpose_eq_dec : EqDecision SelectionPurpose.
Proof. solve_decision. Defined.

Record ExperimentSelectionStratumModel : Type := Stratum {
  stratum_id : string;
  outcome_ref : string;
  factor_id : string;
  factor_level_id : string;
  stratum_condition_id : string;
  output_count : Z;
}.

(** The policies by kind; a product names the policies of its dimensions. *)
Inductive PolicyKind : Type :=
| FixedPolicy (point_ref : string) (outcome : SelectionOutcome)
| EnumeratePolicy (point_ref : string)
| ProductPolicy (policy_refs : list string)
| StratifiedPolicy (point_ref : string) (outcomes : dict string SelectionOutcome) (strata : dict string ExperimentSelectionStratumModel)
| SamplePolicy (point_ref : string) (sample_count : Z) (stochastic_control_ref : string).

Record ExperimentSelectionPolicyModel : Type := SelectionPolicy {
  policy_id : string;
  purpose : SelectionPurpose;
  output_bound : Z;
  binding_descriptor_refs : list string;
  policy_kind : PolicyKind;
}.

Definition kind_name (k : PolicyKind) : string :=
  match k with
  | FixedPolicy _ _ => "fixed" | EnumeratePolicy _ => "enumerate" | ProductPolicy _ => "product"
  | StratifiedPolicy _ _ _ => "stratified" | SamplePolicy _ _ _ => "sample"
  end.

(** [getattr(policy, "point_ref", None)]. *)
Definition point_ref (p : ExperimentSelectionPolicyModel) : option string :=
  match policy_kind p with
  | FixedPolicy point _ | EnumeratePolicy point | StratifiedPolicy point _ _ | SamplePolicy point _ _ => Some point
  | ProductPolicy _ => None
  end.

Definition MAX_SELECTION_POLICIES : Z := 128.
Definition MAX_SELECTION_POLICY_REFS : Z := 64.

(** The purposes a kind admits. *)
Definition purpose_admitted (k : PolicyKind) (p : SelectionPurpose) : bool :=
  match k, p with
  | FixedPolicy _ _, CONTROLLED_FACTOR => false
  | FixedPolicy _ _, _ => true
  | (EnumeratePolicy _ | SamplePolicy _ _ _), NUISANCE_VARIATION => true
  | (ProductPolicy _ | StratifiedPolicy _ _ _), (NUISANCE_VARIATION | CONTROLLED_FACTOR) => true
  | _, _ => false
  end.

Definition selection_output_bound (n : Z) : bool := in_range 1 MAX_SELECTION_OUTPUT_BOUND n.

Definition validate_stratum (s : ExperimentSelectionStratumModel) : result unit :=
  require_fields
    [("stratum_id", is_portable_identifier (stratum_id s)); ("outcome_ref", is_portable_identifier (outcome_ref s));
     ("factor_id", nonempty (factor_id s)); ("factor_level_id", nonempty (factor_level_id s));
     ("condition_id", nonempty (stratum_condition_id s)); ("output_count", selection_output_bound (output_count s))].

Definition validate_strata (outcomes : dict string SelectionOutcome) (strata : dict string ExperimentSelectionStratumModel) (output_bound : Z)
    : result unit :=
  _ ← raise_if (existsb (fun kv => negb (String.eqb kv.1 (stratum_id kv.2))) (dict_items strata))
    (ValueError "selection strata keys must match embedded stratum_id");
  _ ← raise_if (existsb (fun kv => negb (String.eqb kv.1 (stratum_condition_id kv.2))) (dict_items strata))
    (ValueError "selection stratum condition_id must match its keyed allocation condition");
  _ ← raise_if (existsb (fun s => bool_decide (outcome_ref s ∉ dict_keys outcomes)) (dict_values strata))
    (ValueError "selection strata must reference declared outcomes");
  let counts := output_count <$> dict_values strata in
  _ ← raise_if (negb (bool_decide (length (remove_dups counts) = 1%nat)))
    (ValueError "equal balanced strata must have identical output_count values");
  raise_if (negb (py_sum counts =? output_bound))
    (ValueError "stratified policy output_bound must equal the sum of stratum output counts").

Definition check_binding_refs (refs : list string) : result unit :=
  raise_if (negb (py_unique refs)) (ValueError "selection binding_descriptor_refs must be unique").

Definition validate_policy (p : ExperimentSelectionPolicyModel) : result unit :=
  let refs := binding_descriptor_refs p in
  _ ← require_fields
    [("policy_id", is_portable_identifier (policy_id p)); ("purpose", purpose_admitted (policy_kind p) (purpose p));
     ("point_ref", match point_ref p with Some point => nonempty point | None => true end);
     ("output_bound", selection_output_bound (output_bound p));
     ("binding_descriptor_refs", forallb nonempty refs && (py_len refs <=? MAX_SELECTION_POLICY_REFS))];
  match policy_kind p with
  | FixedPolicy _ outcome =>
      _ ← validate_outcome outcome;
      _ ← raise_if (negb (output_bound p =? 1)) (ValueError "fixed selection policy output_bound must equal one");
      check_binding_refs refs
  | EnumeratePolicy _ => check_binding_refs refs
  | ProductPolicy policy_refs =>
      _ ← require_fields [("policy_refs", forallb is_portable_identifier policy_refs && in_range 2 MAX_SELECTION_POLICY_REFS (py_len policy_refs))];
      raise_if (negb (py_unique policy_refs)) (ValueError "product policy_refs must be unique")
  | StratifiedPolicy _ outcomes strata =>
      _ ← mfold (fun _ o => validate_outcome o) tt (dict_values outcomes);
      _ ← mfold (fun _ s => validate_stratum s) tt (dict_values strata);
      _ ← require_fields
        [("outcomes", forallb is_portable_identifier (dict_keys outcomes) && in_range 1 MAX_SELECTION_OUTCOMES (py_len (dict_keys outcomes)));
         ("strata", forallb is_portable_identifier (dict_keys strata) && in_range 1 MAX_SELECTION_OUTCOMES (py_len (dict_keys strata)))];
      validate_strata outcomes strata (output_bound p)
  | SamplePolicy _ sample_count control =>
      _ ← require_fields [("sample_count", selection_output_bound sample_count); ("stochastic_control_ref", nonempty control)];
      _ ← raise_if (negb (sample_count =? output_bound p)) (ValueError "sample_count must equal sample policy output_bound");
      check_binding_refs refs
  end.

(** ** The policy registry of a run plan *)

Record ExperimentRunPlanModel : Type := RunPlan {
  stochastic_controls : list ExperimentStochasticControlModel;
  allocation : option ExperimentRunAllocationPlanModel;
  target_run_count : option Z;
  selection_policies : dict string ExperimentSelectionPolicyModel;
}.

(** The version and the attempts of the bounded-integer transform, which both
    published profiles fix. *)
Definition load_bounded_integer_transform (profile_id : string) : result (string * Z) :=
  _ ← _validate_random_stream_profile_id profile_id; Ok ("1", 32).

Definition _validate_sample_control (controls : list ExperimentStochasticControlModel) (control_ref : string) : result unit :=
  match List.filter (fun c => String.eqb (sc_control_id c) control_ref) controls with
  | [control] =>
      _ ← raise_if (bool_decide (sc_role control ∉ ["sampling"; "randomization"]))
        (ValueError "stochastic selection policy control must have sampling or randomization role");
      match sc_executable_binding control with
      | None => Raise (ValueError "stochastic selection policy control must carry an executable binding")
      | Some binding =>
          transform ← load_bounded_integer_transform (cb_profile_ref_id binding);
          raise_if (negb (String.eqb transform.1 "1")) (ValueError "uniform-index-v1 requires the bounded-integer transform version 1")
      end
  | _ => Raise (ValueError "stochastic selection policy must resolve exactly one stochastic control")
  end.

Abbreviation policies := (dict string ExperimentSelectionPolicyModel).

Definition policy_refs (p : ExperimentSelectionPolicyModel) : list string :=
  match policy_kind p with ProductPolicy refs => refs | _ => [] end.
Definition is_product (p : ExperimentSelectionPolicyModel) : bool := match policy_kind p with ProductPolicy _ => true | _ => false end.

Definition _product_output_bound (refs : list string) (ps : policies) : result Z :=
  mfold (fun expected ref =>
    p ← dict_index ps ref;
    let expected := expected * output_bound p in
    _ ← raise_if (MAX_SELECTION_OUTPUT_BOUND <? expected) (ValueError "product policy output_bound exceeds the admission bound");
    Ok expected) 1 refs.

Definition _validate_product_policy (product : ExperimentSelectionPolicyModel) (ps : policies) : result unit :=
  let refs := policy_refs product in
  _ ← raise_if (existsb (fun r => bool_decide (r ∉ dict_keys ps)) refs)
    (ValueError "product policy_refs must reference declared selection policies");
  expected ← _product_output_bound refs ps;
  _ ← raise_if (negb (expected =? output_bound product)) (ValueError "product policy output_bound must equal the product of referenced bounds");
  controlled ← many_any (fun r => p ← dict_index ps r; Ok (bool_decide (purpose p = CONTROLLED_FACTOR))) refs;
  raise_if (negb (Bool.eqb (bool_decide (purpose product = CONTROLLED_FACTOR)) controlled))
    (ValueError "product controlled-factor purpose must match its authoritative controlled-factor dimensions").

(** The policies a policy id refers to. *)
Definition product_refs (ps : policies) (id : string) : list string := match ps !! id with Some p => policy_refs p | None => [] end.

(** [visiting] and [visited] are shared by the whole search. *)
Fixpoint _visit_product_policy (ps : policies) (fuel : nat) (st : gset string * gset string) (id : string)
    : result (gset string * gset string) :=
  match fuel with
  | O => Raise OutOfFuel
  | S fuel =>
      if decide (id ∈ st.1) then Raise (ValueError "selection policy reference graph must be acyclic")
      else if decide (id ∈ st.2) then Ok st
      else
        st' ← mfold (_visit_product_policy ps fuel) ({[id]} ∪ st.1, st.2) (product_refs ps id);
        Ok (fst st' ∖ {[id]}, {[id]} ∪ snd st')
  end.

(** At most every policy is on the stack, and one more. *)
Definition _validate_product_cycles (ps : policies) : result unit :=
  _ ← mfold (_visit_product_policy ps (S (length (dict_keys ps)))) (∅, ∅) (dict_keys ps); Ok tt.

Definition _validate_product_graph (ps : policies) : result unit :=
  _ ← mfold (fun _ p => if is_product p then _validate_product_policy p ps else Ok tt) tt (dict_values ps);
  _validate_product_cycles ps.

Definition _validate_selection_policy_registry (plan : ExperimentRunPlanModel) : result unit :=
  let ps := selection_policies plan in
  _ ← raise_if (existsb (fun kv => negb (String.eqb kv.1 (policy_id kv.2))) (dict_items ps))
    (ValueError "selection policy map keys must match embedded policy_id");
  _ ← raise_if (negb (py_unique (sc_control_id <$> stochastic_controls plan))) (ValueError "run_plan stochastic control ids must be unique");
  total_runs ←
    match allocation plan with
    | Some a => Ok (py_len (compared_conditions a) * target_runs_per_condition a)
    | None => match target_run_count plan with
              | Some n => Ok n
              | None => Raise (ValueError "run plan must declare a run allocation before validating selection policies")
              end
    end;
  _ ← mfold (fun _ p =>
        _ ← raise_if (total_runs <? output_bound p) (ValueError "selection policy output_bound must not exceed the declared run allocation");
        match policy_kind p with
        | SamplePolicy _ sample_count control =>
            _ ← raise_if (negb (sample_count =? total_runs)) (ValueError "sample_count must equal the declared run allocation");
            _validate_sample_control (stochastic_controls plan) control
        | _ => Ok tt
        end) tt (dict_values ps);
  _validate_product_graph ps.

Definition validate_run_plan (plan : ExperimentRunPlanModel) : result unit :=
  _ ← require_fields
    [("target_run_count", match target_run_count plan with Some n => at_least 1 n | None => true end);
     ("selection_policies", py_len (dict_keys (selection_policies plan)) <=? MAX_SELECTION_POLICIES)];
  _ ← match allocation plan with Some a => validate_allocation a | None => Ok tt end;
  _ ← mfold (fun _ p => validate_policy p) tt (dict_values (selection_policies plan));
  _ ← raise_if (Bool.eqb (bool_decide (allocation plan = None)) (bool_decide (target_run_count plan = None)))
    (ValueError "run_plan must declare exactly one of allocation or target_run_count");
  _validate_selection_policy_registry plan.
