(* ===== verification/TrialSelection.v ===== *)
(** The selections of the trials of an experiment: the joins of the authoring
    input ([contracts/experiment_selection.py]), its admission against the
    expanded family ([raes/experiment_selection.py]), the canonical domains
    ([trial_compiler/domains.py]) and the rows of selections the policies give to
    the coordinates ([trial_compiler/policies.py]). *)
From S2P Require Import Prelude.
From S2P Require Import Contracts.
From S2P Require Import RandomStream.
From S2P Require Import ParticipantActivity.
From S2P Require Import Variation.
From S2P Require Import TrialPlan.
From Stdlib Require Import QArith.
From stdpp Require Import pretty.
Local Open Scope string_scope.
Local Open Scope list_scope.
Local Open Scope Z_scope.

(** ** The authoring input and the family *)

(** The targets of the other planes never name a variation point. *)
Inductive BindingTarget : Type :=
| ScenarioBindingTarget (scenario_family_id variation_point_id target_id : string)
| OtherBindingTarget (canonical_key : list string).

Inductive BindingValue : Type :=
| LiteralBindingValue (value : option DomainScalar)
| SecretReferenceBindingValue (reference_id : string).

Record ExperimentBindingDescriptorModel : Type := BindingDescriptor {
  binding_id : string;
  source_condition_id : string;
  bd_target : BindingTarget;
  bd_value : BindingValue;
}.

(** The levels of every factor, and the intended scenario with its kind. *)
Record ExperimentSpecModel : Type := ExperimentSpec {
  run_plan : ExperimentRunPlanModel;
  intended_scenario_ref : option (string * string);
  factors : dict string (list string);
  binding_descriptors : option (list ExperimentBindingDescriptorModel);
}.

Record ExpandedScenario : Type := Family {
  family_name : string;
  semantic_validated : bool;
  variation_points : dict string VariationPoint;
}.

(** [getattr(descriptor.target, ..., default)]. *)
Definition target_point (d : ExperimentBindingDescriptorModel) : option string :=
  match bd_target d with ScenarioBindingTarget _ point _ => Some point | _ => None end.
Definition target_family (d : ExperimentBindingDescriptorModel) (family_id : string) : string :=
  match bd_target d with ScenarioBindingTarget family _ _ => family | _ => family_id end.

(** ** Joins within the authoring input *)

Definition _validate_binding_descriptor_refs (spec : ExperimentSpecModel) (policy : ExperimentSelectionPolicyModel) : result unit :=
  match binding_descriptor_refs policy with
  | [] => Ok tt
  | refs =>
      match binding_descriptors spec with
      | None => Raise (ValueError "selection binding_descriptor_refs require binding_descriptors")
      | Some ds =>
          let descriptors := dict_of_list ((fun d => (binding_id d, d)) <$> ds) in
          _ ← raise_if (existsb (fun r => bool_decide (r ∉ dict_keys descriptors)) refs)
            (ValueError "selection binding_descriptor_refs must reference declared bindings");
          mfold (fun _ r =>
            d ← dict_index descriptors r;
            raise_if (bool_decide (target_point d <> point_ref policy))
              (ValueError "selection binding descriptor must target the policy variation point")) tt refs
      end
  end.

Definition _validate_stratum_factor_join (spec : ExperimentSpecModel) (s : ExperimentSelectionStratumModel)
    (a : ExperimentRunAllocationPlanModel) : result unit :=
  _ ← raise_if (match factors spec !! factor_id s with None => true | Some levels => bool_decide (factor_level_id s ∉ levels) end)
    (ValueError "selection stratum factor and level must be declared");
  match condition_assignments a !! stratum_condition_id s with
  | None => Raise (ValueError "selection stratum condition_id must reference an allocation condition")
  | Some factor_levels =>
      _ ← raise_if (bool_decide (factor_levels !! factor_id s <> Some (factor_level_id s)))
        (ValueError "selection stratum factor level must match its condition assignment");
      raise_if (negb (output_count s =? target_runs_per_condition a))
        (ValueError "selection stratum output_count must match target_runs_per_condition")
  end.

Definition _validate_stratified_factor_join (spec : ExperimentSpecModel) (strata : dict string ExperimentSelectionStratumModel)
    (allocation : option ExperimentRunAllocationPlanModel) : result unit :=
  match allocation with
  | None => Raise (ValueError "stratified selection requires condition-based run allocation")
  | Some a =>
      _ ← raise_if (negb (bool_decide (dict_keys strata ≡ₚ remove_dups (compared_conditions a))))
        (ValueError "stratified selection conditions must match compared_conditions");
      mfold (fun _ s => _validate_stratum_factor_join spec s a) tt (dict_values strata)
  end.

Definition _validate_selection_factor_joins (spec : ExperimentSpecModel) : result unit :=
  mfold (fun _ policy =>
    _ ← _validate_binding_descriptor_refs spec policy;
    match policy_kind policy with
    | StratifiedPolicy _ _ strata => _validate_stratified_factor_join spec strata (allocation (run_plan spec))
    | _ => Ok tt
    end) tt (dict_values (selection_policies (run_plan spec))).

(** ** Admission against the family *)

Definition _admitted_family_id (family : ExpandedScenario) : result string :=
  _ ← raise_if (negb (semantic_validated family))
    (ValueError "experiment selection requires a semantically admitted ExpandedScenario");
  Ok (family_name family).

Definition _resolve_point (family : ExpandedScenario) (point : string) : result VariationPoint :=
  match variation_points family !! point with
  | Some p => Ok p
  | None => Raise (ValueError ("selection policy variation point " +:+ py_repr point +:+ " is not declared"))
  end.

Definition _validate_enumeration_bound (point : VariationPoint) (output_bound : Z) : result unit :=
  population ← _finite_policy_population point;
  raise_if (negb (population =? output_bound))
    (ValueError "enumerate policy output_bound must equal the finite point domain cardinality").

Definition _validate_policy_against_family (policy : ExperimentSelectionPolicyModel) (family : ExpandedScenario) : result unit :=
  match policy_kind policy with
  | ProductPolicy _ => Ok tt
  | FixedPolicy ref outcome => point ← _resolve_point family ref; validate_selection_outcome point outcome
  | EnumeratePolicy ref => point ← _resolve_point family ref; _validate_enumeration_bound point (output_bound policy)
  | SamplePolicy ref _ _ => point ← _resolve_point family ref; _ ← _finite_policy_population point; Ok tt
  | StratifiedPolicy ref outcomes _ =>
      point ← _resolve_point family ref; mfold (fun _ o => validate_selection_outcome point o) tt (dict_values outcomes)
  end.

Definition _validate_binding_family_identity (spec : ExperimentSpecModel) (family_id : string) : result unit :=
  match binding_descriptors spec with
  | None => Ok tt
  | Some ds =>
      mfold (fun _ d => raise_if (negb (String.eqb (target_family d family_id) family_id))
        (ValueError "scenario binding target family identity does not match selection family")) tt ds
  end.

Definition validate_experiment_selection_against_family (spec : ExperimentSpecModel) (family : ExpandedScenario) : result unit :=
  family_id ← _admitted_family_id family;
  match dict_items (selection_policies (run_plan spec)) with
  | [] => Ok tt
  | _ =>
      _ ← raise_if (bool_decide (intended_scenario_ref spec <> Some ("scenario", family_id)))
        (ValueError "experiment selection family identity must match intended_scenario_ref");
      _ ← _validate_binding_family_identity spec family_id;
      mfold (fun _ p => _validate_policy_against_family p family) tt (dict_values (selection_policies (run_plan spec)))
  end.

(** ** Canonical domains *)

Definition _DOMAIN_ADDRESS : string := "/family/variation_points".
Definition domain_not_finite : exn :=
  CompilationFailure "domain-not-finite" _DOMAIN_ADDRESS "trial-compiler-v1 admits only finite scalar domains".
Definition domain_kind_unsupported : exn :=
  CompilationFailure "domain-kind-unsupported" _DOMAIN_ADDRESS "the selected policy does not support this variation-point kind".

Definition _integer_interval_bounds (d : NumericIntervalDomain) : result (Z * Z) :=
  _ ← raise_if (bool_decide (numeric_type d <> INTEGER)) domain_not_finite; Ok (interval_bounds d).

Definition _integer_interval_values (d : NumericIntervalDomain) : result (list DomainScalar) :=
  bounds ← _integer_interval_bounds d; Ok (SInt <$> seqZ bounds.1 (bounds.2 + 1 - bounds.1)).

Definition _scalar_domain_cardinality (d : ScalarDomain) : result Z :=
  match d with
  | ExactDomain _ => Ok 1
  | EnumDomain values => Ok (py_len values)
  | BooleanDomain value => Ok (match value with Some _ => 1 | None => 2 end)
  | IntervalDomain d => bounds ← _integer_interval_bounds d; Ok (Z.max 0 (bounds.2 - bounds.1 + 1))
  end.

Definition _domain_cardinality (point : VariationPoint) : result Z :=
  match point with
  | ParameterVariationPoint d | LogicalTimingVariationPoint d => _scalar_domain_cardinality d
  | GovernedReferenceVariationPoint refs => Ok (py_len refs)
  | AlternativeVariationPoint alternatives => Ok (py_len (dict_keys alternatives))
  | _ => Raise domain_kind_unsupported
  end.

(** The order of byte strings. *)
Fixpoint bytes_le (a b : list Z) : bool :=
  match a, b with
  | [], _ => true
  | _ :: _, [] => false
  | x :: a, y :: b => (x <? y) || ((x =? y) && bytes_le a b)
  end.
Definition key_le (a b : list Z * DomainScalar) : Prop := bytes_le a.1 b.1 = true.
#[export] Instance key_le_dec : RelDecision key_le.
Proof. intros a b. unfold key_le. apply _. Defined.

Section selection.
Context `{!RandomPackages}.

Definition _canonical_scalar_key (v : DomainScalar) : result (list Z) :=
  let payload := match v with
    | SBool b => [("type", JString "boolean"); ("value", JBoolean b)]
    | SInt z => [("type", JString "integer"); ("value", JInteger z)]
    | SFloat q => [("type", JString "number"); ("value", JNumber q)]
    | SString s => [("type", JString "string"); ("value", JString s)]
    end in
  match rfc8785_dumps (JObject payload) with
  | Some bytes => Ok bytes
  | None => Raise (ValueError "domain value canonicalization failed")
  end.

(** [sorted(values, key=...)]: every key is computed first. *)
Definition sorted_scalars (values : list DomainScalar) : result (list DomainScalar) :=
  keys ← mmap _canonical_scalar_key values; Ok ((merge_sort key_le (zip keys values)).*2).

Definition _scalar_values (d : ScalarDomain) : result (list DomainScalar) :=
  match d with
  | ExactDomain value => Ok [value]
  | EnumDomain values => sorted_scalars values
  | BooleanDomain value => Ok (match value with Some b => [SBool b] | None => [SBool false; SBool true] end)
  | IntervalDomain d => _integer_interval_values d
  end.

Definition literal_outcomes (values : list DomainScalar) : list SelectionOutcome := (fun v => LiteralOutcome (Some v)) <$> values.
Definition domain_outcomes (point : VariationPoint) : result (list SelectionOutcome) :=
  match point with
  | ParameterVariationPoint d | LogicalTimingVariationPoint d =>
      values ← _scalar_values d; Ok (literal_outcomes values)
  | GovernedReferenceVariationPoint refs => Ok (ReferenceOutcome <$> py_sorted refs)
  | AlternativeVariationPoint alternatives => Ok (MemberOutcome <$> py_sorted (dict_keys alternatives))
  | _ => Raise domain_kind_unsupported
  end.

Definition canonical_domain_outcomes (point : VariationPoint) (maximum : Z) : result (list SelectionOutcome) :=
  cardinality ← _domain_cardinality point;
  _ ← raise_if (cardinality =? 0) (CompilationFailure "domain-empty" _DOMAIN_ADDRESS "a selected variation-point domain is empty");
  _ ← raise_if (maximum <? cardinality)
    (CompilationFailure "domain-limit-exceeded" _DOMAIN_ADDRESS "a variation-point domain exceeds the compilation limit");
  domain_outcomes point.

(** ** Rows of selections *)

Definition _SELECTION_POLICIES_ADDRESS : string := "/run_plan/selection_policies".

Record ResolvedSelection : Type := Resolved {
  point_id : string;
  rs_policy_id : string;
  rs_policy_kind : string;
  rs_outcome : SelectionOutcome;
}.

Record CoordinateSelections : Type := Selections {
  selections : list ResolvedSelection;
  row_draws : list RandomStreamDrawRecordModel;
}.

Definition point_selected_twice : exn :=
  CompilationFailure "point-selected-multiple-times" _SELECTION_POLICIES_ADDRESS
    "multiple selection policies resolve the same variation point".

Definition add_selection (merged : dict string ResolvedSelection) (s : ResolvedSelection) : result (dict string ResolvedSelection) :=
  _ ← raise_if (bool_decide (point_id s ∈ dict_keys merged)) point_selected_twice; Ok (<[point_id s := s]> merged).

Definition _merge_rows (rows additions : list ResolvedSelection) : result (list ResolvedSelection) :=
  merged ← mfold add_selection (dict_of_list ((fun s => (point_id s, s)) <$> rows)) additions;
  mmap (dict_index merged) (py_sorted (dict_keys merged)).

(** [itertools.product]: the last dimension varies fastest. *)
Fixpoint list_product {A} (dimensions : list (list A)) : list (list A) :=
  match dimensions with
  | [] => [[]]
  | l :: dimensions => flat_map (fun a => (fun rest => a :: rest) <$> list_product dimensions) l
  end.

Definition policy_address (id : string) : string := "/run_plan/selection_policies/" +:+ id.
Definition cardinality_mismatch (id : string) : exn :=
  CompilationFailure "policy-cardinality-mismatch" (policy_address id)
    "selection policy output cardinality does not match its declared bound".

(** One dimension of a product. *)
Definition grow_product (maximum : Z) (id : string) (cardinality : Z) (rows : list (list ResolvedSelection)) : result Z :=
  _ ← raise_if (cardinality =? 0) ZeroDivisionError;
  _ ← raise_if (maximum / cardinality <? py_len rows)
    (CompilationFailure "product-limit-exceeded" (policy_address id) "selection product exceeds the compilation limit");
  Ok (cardinality * py_len rows).

(** The rows of a combination of dimensions. *)
Definition merge_combination (combination : list (list ResolvedSelection)) : result (list ResolvedSelection) :=
  mfold _merge_rows [] combination.

Definition resolved_selection (policy : ExperimentSelectionPolicyModel) (ref : string) (outcome : SelectionOutcome) : ResolvedSelection :=
  Resolved ref (policy_id policy) (kind_name (policy_kind policy)) outcome.
Definition outcome_rows (policy : ExperimentSelectionPolicyModel) (ref : string) (outcomes : list SelectionOutcome)
    : list (list ResolvedSelection) := (fun o => [resolved_selection policy ref o]) <$> outcomes.

Fixpoint _static_rows (fuel : nat) (id : string) (family : ExpandedScenario) (ps : policies) (limits : TrialCompilationLimitsModel)
    : result (list (list ResolvedSelection)) :=
  match fuel with
  | O => Raise OutOfFuel
  | S fuel =>
      policy ← dict_index ps id;
      match policy_kind policy with
      | FixedPolicy ref outcome => Ok [[resolved_selection policy ref outcome]]
      | EnumeratePolicy ref =>
          point ← dict_index (variation_points family) ref;
          outcomes ← canonical_domain_outcomes point (max_domain_values_per_point limits);
          Ok (outcome_rows policy ref outcomes)
      | ProductPolicy refs =>
          child_rows ← mmap (fun child => _static_rows fuel child family ps limits) (py_sorted refs);
          cardinality ← mfold (grow_product (max_product_outputs limits) id) 1 child_rows;
          _ ← raise_if (negb (cardinality =? output_bound policy)) (cardinality_mismatch id);
          mmap merge_combination (list_product child_rows)
      | _ => Raise (CompilationFailure "product-child-unsupported" (policy_address id)
               "product dimensions admit only fixed, enumerate, or nested product policies in v1")
      end
  end.

(** A coordinate of a stratum takes the outcome of the stratum. *)
Definition stratum_row (id ref : string) (outcomes : dict string SelectionOutcome) (strata : dict string ExperimentSelectionStratumModel)
    (st : list CoordinateSelections * dict string Z) (c : TrialCoordinateModel) : result (list CoordinateSelections * dict string Z) :=
  match strata !! default "" (condition_id c) with
  | None => Raise (CompilationFailure "stratum-coordinate-missing" (policy_address id)
              "a stratified policy does not cover a logical trial coordinate")
  | Some stratum =>
      let counts := <[stratum_id stratum := default 0 (st.2 !! stratum_id stratum) + 1]> st.2 in
      outcome ← dict_index outcomes (outcome_ref stratum);
      Ok (st.1 ++ [Selections [Resolved ref id "stratified" outcome] []], counts)
  end.

Definition _stratified_rows (id ref : string) (outcomes : dict string SelectionOutcome) (strata : dict string ExperimentSelectionStratumModel)
    (coordinates : list TrialCoordinateModel) : result (list CoordinateSelections) :=
  st ← mfold (stratum_row id ref outcomes strata) ([], dict_empty) coordinates;
  _ ← raise_if (existsb (fun kv => negb (default 0 (st.2 !! kv.1) =? output_count kv.2)) (dict_items strata))
    (CompilationFailure "stratum-cardinality-mismatch" (policy_address id)
       "stratified output counts do not match the logical coordinate allocation");
  Ok st.1.

(** ** Sampled rows *)

Definition RANDOM_STREAM_PROFILE_ID : string := "blake3-xof-v1".
Definition RANDOM_STREAM_PROFILE_VERSION : string := "random-stream-profile/v1".
Definition BOUNDED_INTEGER_TRANSFORM_ID : string := "bounded-integer".
Definition BOUNDED_INTEGER_TRANSFORM_VERSION : string := "1".

Definition _resolve_sample_control (id control_ref : string) (controls : list ExperimentStochasticControlModel)
    : result (ExperimentStochasticControlModel * RandomStreamControlBindingModel * PublicSeedModel) :=
  let unresolved := CompilationFailure "sample-control-unresolved" (policy_address id) "sample policy control is not executable" in
  match List.find (fun c => String.eqb (sc_control_id c) control_ref) controls with
  | None => Raise unresolved
  | Some control =>
      match sc_executable_binding control with
      | None => Raise unresolved
      | Some binding =>
          let address := "/run_plan/stochastic_controls/" +:+ sc_control_id control in
          _ ← raise_if (bool_decide (cb_profile_ref_id binding <> RANDOM_STREAM_PROFILE_ID)
                        || bool_decide (cb_profile_ref_version binding <> Some RANDOM_STREAM_PROFILE_VERSION))
            (CompilationFailure "sample-profile-mismatch" address "sample policy random-stream profile does not match trial-compiler-v1");
          match cb_root_entropy binding with
          | PublicEntropy seed => Ok (control, binding, seed)
          | GovernedEntropyRef _ _ =>
              Raise (CompilationFailure "governed-entropy-resolver-required" address
                "governed entropy requires an authorized in-process resolver")
          end
      end
  end.

Definition sample_draw_address (namespace id ref : string) (c : TrialCoordinateModel) : result StreamAddressModel :=
  validate_stream_address (StreamAddress namespace c id ref "sampling-selection" 0).

(** The row of one drawn index, with the record of its draw. *)
Definition sample_row (control_id id ref : string) (outcomes : list SelectionOutcome) (drawn : StreamAddressModel * BoundedIntegerDraw)
    : result CoordinateSelections :=
  match rejection_exhausted drawn.2, value drawn.2 with
  | false, Some index =>
      outcome ← py_index outcomes index;
      record ← validate_draw_record
        (DrawRecord control_id drawn.1 BOUNDED_INTEGER_TRANSFORM_ID BOUNDED_INTEGER_TRANSFORM_VERSION 0
           (Some (PublicRandomOutcome (pretty index))) (rejection_attempts drawn.2) false);
      Ok (Selections [Resolved ref id "sample" outcome] [record])
  | _, _ => Raise (CompilationFailure "sample-rejection-exhausted" (policy_address id) "sample policy exhausted its bounded transform")
  end.

Definition _sample_rows (id ref control_ref : string) (family : ExpandedScenario) (controls : list ExperimentStochasticControlModel)
    (coordinates : list TrialCoordinateModel) (limits : TrialCompilationLimitsModel) : result (list CoordinateSelections) :=
  resolved ← _resolve_sample_control id control_ref controls;
  let binding := resolved.1.2 in
  let profile_id := cb_profile_ref_id binding in
  transform ← load_bounded_integer_transform profile_id;
  point ← dict_index (variation_points family) ref;
  outcomes ← canonical_domain_outcomes point (max_domain_values_per_point limits);
  root_entropy ← decode_public_seed resolved.2;
  stream_key ← derive_stream_key profile_id root_entropy;
  addresses ← mmap (sample_draw_address (cb_namespace binding) id ref) coordinates;
  batch ← draw_bounded_integer_batch profile_id stream_key
    ((fun a => DrawRequest a 0 (py_len outcomes - 1) transform.2) <$> addresses);
  match batch_diagnostic batch, draws batch with
  | None, Some drawn => mmap (sample_row (sc_control_id resolved.1.1) id ref outcomes) (zip addresses drawn)
  | _, _ => Raise (CompilationFailure "sample-address-collision" (policy_address id) "sample policy draw addresses are not unique")
  end.

(** ** The selections of the coordinates *)

Definition is_fixed (p : ExperimentSelectionPolicyModel) : bool := match policy_kind p with FixedPolicy _ _ => true | _ => false end.

(** The policies no product refers to, in order. *)
Definition policy_roots (ps : policies) : list string :=
  let referenced := flat_map policy_refs (dict_values ps) in
  py_sorted (List.filter (fun id => bool_decide (id ∉ referenced)) (dict_keys ps)).

Definition root_kind_is (fixed : bool) (ps : policies) (id : string) : bool :=
  match ps !! id with Some p => Bool.eqb (is_fixed p) fixed | None => false end.

Definition fixed_addition (ps : policies) (root : string) : result ResolvedSelection :=
  policy ← dict_index ps root;
  match policy_kind policy with
  | FixedPolicy ref outcome => Ok (Resolved ref (policy_id policy) "fixed" outcome)
  | _ => Raise (AttributeError "outcome")
  end.

Definition undrawn_rows (rows : list (list ResolvedSelection)) : list CoordinateSelections := (fun row => Selections row []) <$> rows.

(** The rows of the only root that is not fixed. *)
Definition root_rows (ps : policies) (root : string) (family : ExpandedScenario) (controls : list ExperimentStochasticControlModel)
    (coordinates : list TrialCoordinateModel) (limits : TrialCompilationLimitsModel) : result (list CoordinateSelections) :=
  policy ← dict_index ps root;
  let id := policy_id policy in
  match policy_kind policy with
  | StratifiedPolicy ref outcomes strata => _stratified_rows id ref outcomes strata coordinates
  | SamplePolicy ref _ control_ref => _sample_rows id ref control_ref family controls coordinates limits
  | _ =>
      static ← _static_rows (S (length (dict_keys ps))) id family ps limits;
      _ ← raise_if (negb (py_len static =? py_len coordinates))
        (CompilationFailure "policy-cardinality-mismatch" (policy_address id)
           "selection policy output does not exactly cover the logical coordinates");
      Ok (undrawn_rows static)
  end.

Definition compile_coordinate_selections (family : ExpandedScenario) (spec : ExperimentSpecModel)
    (coordinates : list TrialCoordinateModel) (limits : TrialCompilationLimitsModel) : result (list CoordinateSelections) :=
  let ps := selection_policies (run_plan spec) in
  let roots := policy_roots ps in
  let uniform := (fun _ => Selections [] []) <$> coordinates in
  rows ←
    match List.filter (root_kind_is false ps) roots with
    | [] => Ok uniform
    | [root] => root_rows ps root family (stochastic_controls (run_plan spec)) coordinates limits
    | _ => Raise (CompilationFailure "policy-roots-ambiguous" _SELECTION_POLICIES_ADDRESS
             "multiple non-fixed selection policy roots are ambiguous")
    end;
  additions ← mmap (fixed_addition ps) (List.filter (root_kind_is true ps) roots);
  completed ← mmap (fun row => merged ← _merge_rows (selections row) additions; Ok (Selections merged (row_draws row))) rows;
  _ ← raise_if (existsb (fun row => negb (bool_decide
        ((list_to_set (point_id <$> selections row) : gset string) = list_to_set (dict_keys (variation_points family))))) completed)
    (CompilationFailure "variation-points-uncovered" _SELECTION_POLICIES_ADDRESS
       "every family variation point must be selected exactly once");
  Ok completed.
End selection.
