(* ===== verification/TrialFacts.v ===== *)
(** Lemmas on experiment trials: replicate identifiers, the coordinates of an
    allocation, the graph of product policies, and rows of selections with their
    merging, products, canonical domains and the static rows of a policy. *)
From S2P Require Import Prelude.
From S2P Require Import Contracts.
From S2P Require Import RandomStream.
From S2P Require Import ParticipantActivity.
From S2P Require Import Variation.
From S2P Require Import VariationSpec.
From S2P Require Import TrialPlan.
From S2P Require Import TrialSelection.
From Stdlib Require Import Ascii.
From Stdlib Require Import QArith.
Local Open Scope string_scope.
Local Open Scope list_scope.
Local Open Scope Z_scope.

(** ** Replicates *)

Lemma length_zero_padded w n : length (zero_padded w n) = w.
Proof. revert n. induction w as [|w IH]; intros n; [done|]. cbn [zero_padded]. rewrite length_app, IH. cbn. lia. Qed.

Lemma decimal_digit_value d : 0 <= d < 10 -> Z.of_nat (nat_of_ascii (decimal_digit d)) - 48 = d /\ digit_char (decimal_digit d) = true.
Proof.
  intros Hd. assert (Forall (fun d => Z.of_nat (nat_of_ascii (decimal_digit d)) - 48 = d /\ digit_char (decimal_digit d) = true) (seqZ 0 10)) as H.
  { repeat constructor. }
  rewrite Forall_forall in H. apply H. apply elem_of_seqZ. lia.
Qed.

Lemma zero_padded_digits w n : forallb digit_char (zero_padded w n) = true.
Proof.
  revert n. induction w as [|w IH]; intros n; [done|]. cbn [zero_padded]. rewrite forallb_app, IH. cbn.
  rewrite (proj2 (decimal_digit_value (n mod 10) ltac:(apply Z.mod_pos_bound; lia))). done.
Qed.

Lemma digits_value_padded w n : 0 <= n < 10 ^ Z.of_nat w -> digits_value (zero_padded w n) = n.
Proof.
  unfold digits_value. revert n. induction w as [|w IH]; intros n Hn; [cbn in *; lia|].
  cbn [zero_padded]. rewrite foldl_app. cbn [foldl]. rewrite Nat2Z.inj_succ, Z.pow_succ_r in Hn by lia. rewrite IH.
  - rewrite (proj1 (decimal_digit_value (n mod 10) ltac:(apply Z.mod_pos_bound; lia))). pose proof (Z.div_mod n 10). lia.
  - split; [apply Z.div_pos; lia|apply Z.div_lt_upper_bound; lia].
Qed.

Lemma starts_with_app prefix l : starts_with prefix (String.string_of_list_ascii (chars prefix ++ l)) = true.
Proof.
  unfold starts_with. apply bool_decide_eq_true. rewrite String.list_ascii_of_string_of_list_ascii. by rewrite take_app_length.
Qed.

Lemma replicate_ordinal_id n id : TrialPlan.replicate_id n = Ok id -> replicate_ordinal id = Ok n.
Proof.
  unfold TrialPlan.replicate_id. intros ([] & Hr & Hid)%bind_Ok. apply raise_if_Ok in Hr.
  assert (String.string_of_list_ascii (chars "replicate-" ++ zero_padded REPLICATE_ID_WIDTH n) = id) as <- by congruence. unfold replicate_ordinal.
  rewrite starts_with_app, String.list_ascii_of_string_of_list_ascii. change 10%nat with (length (chars "replicate-")). rewrite drop_app_length.
  rewrite bool_decide_eq_false_2; [|intros Hl%(f_equal length); rewrite length_app, length_zero_padded in Hl; cbn in Hl; lia].
  rewrite length_zero_padded, bool_decide_eq_true_2, zero_padded_digits by done. cbn [orb negb raise_if mbind result_bind].
  rewrite digits_value_padded by lia. done.
Qed.


Lemma digit_tail c : digit_char c = true -> identifier_tail c = true.
Proof. intros Hc. unfold identifier_tail, identifier_head. by rewrite Hc, orb_true_r. Qed.

Lemma replicate_identifier n id : TrialPlan.replicate_id n = Ok id -> is_portable_identifier id = true.
Proof.
  unfold TrialPlan.replicate_id. intros (u & _ & Hid)%bind_Ok.
  assert (String.string_of_list_ascii (chars "replicate-" ++ zero_padded REPLICATE_ID_WIDTH n) = id) as <- by congruence. clear Hid.
  unfold is_portable_identifier. rewrite String.list_ascii_of_string_of_list_ascii. pose proof (length_zero_padded REPLICATE_ID_WIDTH n) as Hlen.
  pose proof (zero_padded_digits REPLICATE_ID_WIDTH n) as Hdigits. generalize dependent (zero_padded REPLICATE_ID_WIDTH n). intros l Hlen Hdigits.
  cbn [chars app]. rewrite !andb_true_iff. split_and!; [reflexivity| |cbn [length]; rewrite Hlen; reflexivity].
  cbn [forallb]. rewrite !andb_true_iff. split_and!; try reflexivity. apply forallb_forall. intros c Hc. apply digit_tail.
  by eapply forallb_forall in Hdigits.
Qed.

(** ** Exceptions the compiler reports *)

(** What [compile_admitted_trial_plan] turns into a diagnostic. *)
Definition reported (e : exn) : Prop := (exists code address message, e = CompilationFailure code address message) \/ exists msg, e = ValueError msg.
Definition safe {A} (r : result A) : Prop := match r with Ok _ => True | Raise e => reported e end.

Lemma reported_value msg : reported (ValueError msg).
Proof. right. by eexists. Qed.
Lemma reported_failure code address msg : reported (CompilationFailure code address msg).
Proof. left. by do 3 eexists. Qed.
Lemma safe_value {A} msg : safe (A := A) (Raise (ValueError msg)).
Proof. right. by eexists. Qed.
Lemma safe_failure {A} code address msg : safe (A := A) (Raise (CompilationFailure code address msg)).
Proof. left. by do 3 eexists. Qed.
Lemma safe_bind {A B} (m : result A) (k : A -> result B) : safe m -> (forall a, m = Ok a -> safe (k a)) -> safe (m ≫= k).
Proof. destruct m as [a|e]; cbn; [|done]. intros _ H. by apply H. Qed.
Lemma safe_raise_if c e : reported e -> safe (raise_if c e).
Proof. by destruct c. Qed.
Lemma safe_fields fields : safe (require_fields fields).
Proof.
  unfold require_fields. induction fields as [|[n b] fields IH]; [done|]. cbn [mfold]. destruct b; [done|]. right. by eexists.
Qed.
Lemma safe_mmap {A B} (f : A -> result B) l : (forall a, a ∈ l -> safe (f a)) -> safe (mmap f l).
Proof.
  induction l as [|a l IH]; intros H; [done|]. cbn [mmap]. apply safe_bind; [apply H; left|]. intros b _. apply safe_bind; [|done].
  apply IH. intros x Hx. apply H. by right.
Qed.
(** A loop whose iterations are safe under an invariant. *)
Lemma safe_mfold {A S} (P : S -> Prop) (f : S -> A -> result S) l s :
  P s -> (forall s a, a ∈ l -> P s -> safe (f s a) /\ forall s', f s a = Ok s' -> P s') -> safe (mfold f s l).
Proof.
  revert s. induction l as [|a l IH]; intros s Hs H; [done|]. cbn [mfold]. destruct (H s a ltac:(left) Hs) as [Hsafe Hnext].
  apply safe_bind; [done|]. intros s' Hf. apply IH; [by apply Hnext|]. intros s0 b Hb. apply H. by right.
Qed.
Create HintDb safe discriminated.
#[export] Hint Resolve reported_value reported_failure safe_value safe_failure safe_bind safe_raise_if safe_fields : safe.

(** ** Coordinates *)

Lemma replicate_coordinate_Ok cond n c :
  replicate_coordinate cond n = Ok c <-> optional_identifier cond = true /\ exists id, TrialPlan.replicate_id n = Ok id /\ c = TrialCoordinate cond None (Some id).
Proof.
  unfold replicate_coordinate, validate_trial_coordinate. rewrite bind_Ok. split.
  - intros (id & Hid & (u & Hf & [= <-])%bind_Ok). apply require_fields_Ok in Hf. rewrite !Forall_cons in Hf. cbn [snd condition_id] in Hf.
    split; [tauto|]. by exists id.
  - intros (Hc & id & Hid & ->). exists id. split; [done|]. apply bind_Ok. exists tt. split; [|done]. apply require_fields_Ok.
    repeat constructor; cbn [snd condition_id block_id RandomStream.replicate_id]; [done|]. cbn. by eapply replicate_identifier.
Qed.

Lemma safe_replicate_coordinate cond n : safe (replicate_coordinate cond n).
Proof.
  unfold replicate_coordinate, TrialPlan.replicate_id, validate_trial_coordinate.
  apply safe_bind; [apply safe_bind; [apply safe_raise_if; right; by eexists|done]|]. intros id _. apply safe_bind; [apply safe_fields|done].
Qed.

(** The keys of a batch of replicates are its ordinals. *)
Lemma replicates_keys cond k batch :
  mmap (replicate_coordinate cond) (seqZ 1 k) = Ok batch -> mmap canonical_coordinate_sort_key batch = Ok ((fun n => (default "" cond, n)) <$> seqZ 1 k).
Proof.
  intros H%mmap_Forall2. apply mmap_Forall2. apply Forall2_fmap_r, Forall2_flip. eapply Forall2_impl; [exact H|].
  intros n c (_ & id & Hid & ->)%replicate_coordinate_Ok. unfold canonical_coordinate_sort_key. cbn [condition_id RandomStream.replicate_id].
  by rewrite (replicate_ordinal_id _ _ Hid).
Qed.

Lemma mmap_app {A B} (f : A -> result B) l1 l2 k1 k2 : mmap f l1 = Ok k1 -> mmap f l2 = Ok k2 -> mmap f (l1 ++ l2) = Ok (k1 ++ k2).
Proof. rewrite !mmap_Forall2. apply Forall2_app. Qed.

Definition condition_keys (per_condition : Z) (conditions : list string) : list (string * Z) :=
  flat_map (fun c => (fun n => (c, n)) <$> seqZ 1 per_condition) conditions.

Lemma conditions_run per_condition conditions output :
  mfold (fun output condition =>
    batch ← mmap (replicate_coordinate (Some condition)) (seqZ 1 per_condition); Ok (output ++ batch)) [] conditions = Ok output ->
  mmap canonical_coordinate_sort_key output = Ok (condition_keys per_condition conditions).
Proof.
  revert output. induction conditions as [|c conditions IH] using rev_ind; intros output; [by intros [= <-]|].
  rewrite mfold_app. intros (before & Hb & H)%bind_Ok. cbn [mfold] in H. apply bind_Ok in H as (out & H & [= <-]).
  apply bind_Ok in H as (batch & Hbatch & [= <-]). unfold condition_keys. rewrite flat_map_app. apply mmap_app; [by apply IH|].
  cbn [flat_map]. rewrite app_nil_r. by apply (replicates_keys (Some c)).
Qed.

(** The strict order of the keys. *)
Definition key_lt (a b : string * Z) : Prop := (a.1 <> b.1 /\ String.le a.1 b.1) \/ (a.1 = b.1 /\ a.2 < b.2).

Lemma replicates_sorted c k : StronglySorted key_lt ((fun n => (c, n)) <$> seqZ 1 k).
Proof.
  unfold seqZ. generalize (Z.to_nat k). intros n. clear k. generalize 1 as z. induction n as [|n IH]; intros z; [constructor|].
  cbn [seq fmap list_fmap]. rewrite <-fmap_S_seq, <-!list_fmap_compose. constructor.
  - specialize (IH (z + 1)). rewrite <-list_fmap_compose in IH. erewrite list_fmap_ext; [exact IH|]. intros i x Hx. cbn. f_equal. lia.
  - apply Forall_fmap, Forall_forall. intros x _. cbn. right. split; [done|cbn; lia].
Qed.

Lemma condition_keys_sorted k conditions :
  NoDup conditions -> StronglySorted String.le conditions -> StronglySorted key_lt (condition_keys k conditions).
Proof.
  intros Hnd. induction Hnd as [|c l Hc Hl IH]; intros Hs; [constructor|]. apply StronglySorted_inv in Hs as [Hs Hle].
  unfold condition_keys. cbn [flat_map]. rewrite Forall_forall in Hle.
  assert (forall a b, a ∈ (fun n => (c, n)) <$> seqZ 1 k -> b ∈ condition_keys k l -> key_lt a b) as Hcross.
  { intros a b (n & -> & _)%list_elem_of_fmap (c' & Hc' & Hb)%list_elem_of_In%in_flat_map. apply list_elem_of_In, list_elem_of_fmap in Hb as (n' & -> & _).
    apply list_elem_of_In in Hc'. left. split; [by intros [= ->]|by apply Hle]. }
  pose proof (replicates_sorted c k) as Hfirst. induction Hfirst as [|a m Hm IHm Ha]; [by apply IH|]. cbn [app]. constructor.
  - apply IHm. intros x y Hx. apply Hcross. by right.
  - apply Forall_app. split; [done|]. apply Forall_forall. intros b Hb. apply Hcross; [left|done].
Qed.

Lemma length_condition_keys k conditions : 0 <= k -> py_len (condition_keys k conditions) = py_len conditions * k.
Proof.
  intros Hk. unfold py_len. induction conditions as [|c l IH]; [done|]. unfold condition_keys in *. cbn [flat_map length].
  rewrite length_app, length_fmap, length_seqZ. lia.
Qed.

(** ** The graph of product policies *)

Abbreviation refers ps := (fun x y => y ∈ product_refs ps x).

Lemma product_refs_declared ps x y : y ∈ product_refs ps x -> x ∈ dict_keys ps.
Proof. unfold product_refs. intros H. apply dict_get_is_Some. destruct (ps !! x); [by eexists|by apply not_elem_of_nil in H]. Qed.

(** The check accepts exactly the acyclic graphs. *)
Lemma product_cycles_run ps :
  (_validate_product_cycles ps = Ok tt /\ forall u, ~ tc (refers ps) u u) \/
  (_validate_product_cycles ps = Raise (ValueError "selection policy reference graph must be acyclic") /\ exists u, tc (refers ps) u u).
Proof.
  unfold _validate_product_cycles.
  destruct (visit_all (ValueError "selection policy reference graph must be acyclic") (product_refs ps)
    (_visit_product_policy ps (S (length (dict_keys ps)))) ∅ (dict_keys ps) ∅) as [(Hl & ve & -> & _)|((u & Hc) & ->)].
  - intros x ve Hx Hve. apply (visit_node_run _ _ (dict_keys ps) (product_refs_declared ps)); [done|set_solver|done|].
    pose proof (unstacked_empty (dict_keys ps)). lia.
  - set_solver.
  - left. split; [done|]. intros u Hu. apply (finite_no_cycle (product_refs ps) u); [|done]. apply Hl.
    inversion Hu as [? ? H|? ? ? H _]; subst; by eapply product_refs_declared.
  - right. split; [done|]. by exists u.
Qed.

(** What a validated run plan guarantees of its policies. *)
Record plan_formed (plan : ExperimentRunPlanModel) : Prop := {
  pf_policies : Forall (fun p => validate_policy p = Ok tt) (dict_values (selection_policies plan));
  pf_keys : forall id p, (id, p) ∈ dict_items (selection_policies plan) -> policy_id p = id;
  pf_refs : forall id p r, (id, p) ∈ dict_items (selection_policies plan) -> r ∈ policy_refs p -> r ∈ dict_keys (selection_policies plan);
  pf_acyclic : forall u, ~ tc (refers (selection_policies plan)) u u;
}.

Lemma run_plan_formed plan : validate_run_plan plan = Ok tt -> plan_formed plan.
Proof.
  unfold validate_run_plan. intros (u1 & _ & H)%bind_Ok. apply bind_Ok in H as (u2 & _ & H). apply bind_Ok in H as (u3 & Hps & H).
  apply mfold_checks in Hps. apply bind_Ok in H as (u4 & _ & H). unfold _validate_selection_policy_registry in H.
  apply bind_Ok in H as (u5 & Hkeys & H). apply raise_if_Ok in Hkeys. apply bind_Ok in H as (u6 & _ & H). apply bind_Ok in H as (total & _ & H).
  apply bind_Ok in H as (u7 & _ & H). unfold _validate_product_graph in H. apply bind_Ok in H as (u8 & Hgraph & H). apply mfold_checks in Hgraph.
  assert (forall id p, (id, p) ∈ dict_items (selection_policies plan) -> p ∈ dict_values (selection_policies plan)) as Hval
    by (intros id p Hp; apply list_elem_of_fmap; by exists (id, p)).
  constructor.
  - done.
  - intros id p Hp. destruct (String.eqb_spec id (policy_id p)) as [|Hne]; [done|]. exfalso.
    apply not_true_iff_false in Hkeys. apply Hkeys, existsb_exists. exists (id, p). split; [by apply list_elem_of_In|].
    cbn [fst snd]. by apply negb_true_iff, String.eqb_neq.
  - intros id p r Hp Hr. rewrite Forall_forall in Hgraph. specialize (Hgraph p (Hval _ _ Hp)). unfold is_product, policy_refs in *.
    destruct (policy_kind p) as [| |refs| |] eqn:Hk; try by apply not_elem_of_nil in Hr.
    unfold _validate_product_policy in Hgraph. apply bind_Ok in Hgraph as (u9 & Hdef & _). apply raise_if_Ok, not_true_iff_false in Hdef.
    apply dec_stable. intros Hn. apply Hdef, existsb_exists. exists r. split; [apply list_elem_of_In|by apply bool_decide_eq_true].
    unfold policy_refs. by rewrite Hk.
  - destruct (product_cycles_run (selection_policies plan)) as [[_ ?]|[He _]]; [done|]. congruence.
Qed.

(** ** Rows *)

Abbreviation ids row := (point_id <$> row).

(** A row in the order of its points, each selected once. *)
Definition canonical (row : list ResolvedSelection) : Prop := StronglySorted String.le (ids row) /\ NoDup (ids row).

Lemma NoDup_ids_same row s t : NoDup (ids row) -> s ∈ row -> t ∈ row -> point_id s = point_id t -> s = t.
Proof.
  intros Hnd (i & Hi)%list_elem_of_lookup (j & Hj)%list_elem_of_lookup Heq.
  assert (i = j) as <-; [|congruence]. eapply (NoDup_lookup (ids row)); [done|rewrite list_lookup_fmap; by rewrite Hi|].
  rewrite list_lookup_fmap, Hj. cbn. by rewrite Heq.
Qed.

Lemma canonical_unique row1 row2 : canonical row1 -> canonical row2 -> row1 ≡ₚ row2 -> row1 = row2.
Proof.
  intros [Hs1 Hn1] [Hs2 Hn2] Hp. assert (ids row1 = ids row2) as Hids by (apply (StronglySorted_unique String.le); [done..|by rewrite Hp]).
  apply list_eq. intros i. destruct (row1 !! i) as [s|] eqn:H1.
  - assert (ids row2 !! i = Some (point_id s)) as H2 by (rewrite <-Hids, list_lookup_fmap; by rewrite H1).
    rewrite list_lookup_fmap in H2. apply fmap_Some in H2 as (t & H2 & Heq). rewrite H2. f_equal.
    apply (NoDup_ids_same row2); [done| |by eapply list_elem_of_lookup_2|done]. rewrite <-Hp. by eapply list_elem_of_lookup_2.
  - assert (ids row2 !! i = None) as H2 by (rewrite <-Hids, list_lookup_fmap; by rewrite H1).
    rewrite list_lookup_fmap in H2. by apply fmap_None in H2.
Qed.

Definition of_row (row : list ResolvedSelection) : dict string ResolvedSelection := dict_of_list ((fun s => (point_id s, s)) <$> row).

Lemma of_row_items row : NoDup (ids row) -> dict_items (of_row row) = (fun s => (point_id s, s)) <$> row.
Proof. intros Hn. apply dict_of_list_items. by rewrite <-list_fmap_compose. Qed.
Lemma of_row_keys row : NoDup (ids row) -> dict_keys (of_row row) = ids row.
Proof. intros Hn. unfold dict_keys. rewrite of_row_items by done. by rewrite <-list_fmap_compose. Qed.

Lemma add_selections_run additions : forall row, NoDup (ids row) ->
  mfold add_selection (of_row row) additions =
  if decide (NoDup (ids (row ++ additions))) then Ok (of_row (row ++ additions)) else Raise point_selected_twice.
Proof.
  induction additions as [|s l IH]; intros row Hn; [rewrite app_nil_r; by rewrite decide_True|]. cbn [mfold].
  assert (add_selection (of_row row) s = (_ ← raise_if (bool_decide (point_id s ∈ ids row)) point_selected_twice; Ok (<[point_id s := s]> (of_row row)))) as ->
    by (unfold add_selection; by rewrite of_row_keys).
  case_bool_decide as Hin; cbn [raise_if mbind result_bind].
  - rewrite decide_False; [done|]. rewrite fmap_app. intros (_ & Hd & _)%NoDup_app. apply (Hd _ Hin). rewrite fmap_cons. left.
  - assert (<[point_id s := s]> (of_row row) = of_row (row ++ [s])) as ->.
    { unfold of_row. rewrite fmap_app. cbn [fmap list_fmap]. by rewrite dict_of_list_snoc. }
    rewrite IH; [by rewrite <-app_assoc|]. rewrite fmap_app. apply NoDup_app. split_and!; [done| |apply NoDup_singleton].
    intros x Hx ->%list_elem_of_singleton. done.
Qed.

(** Two rows merge exactly when no point is selected twice. *)
Lemma merge_rows_run row additions : NoDup (ids row) ->
  (NoDup (ids (row ++ additions)) /\ exists out, _merge_rows row additions = Ok out /\ canonical out /\ out ≡ₚ row ++ additions) \/
  (~ NoDup (ids (row ++ additions)) /\ _merge_rows row additions = Raise point_selected_twice).
Proof.
  intros Hn. unfold _merge_rows. change (dict_of_list _) with (of_row row). rewrite add_selections_run by done.
  destruct (decide (NoDup (ids (row ++ additions)))) as [Hall|Hbad]; cbn [mbind result_bind]; [left|by right]. split; [done|].
  set (all := row ++ additions) in *. rewrite of_row_keys by done.
  assert (exists out, mmap (dict_index (of_row all)) (py_sorted (ids all)) = Ok out) as [out Hout].
  { destruct (mmap _ _) as [out|e] eqn:He; [by exists out|]. exfalso.
    assert (is_ok (mmap (dict_index (of_row all)) (py_sorted (ids all))) = false) as Hf by by rewrite He.
    apply not_true_iff_false in Hf. apply Hf, is_ok_exists.
    rewrite (mmap_Ok_Forall (fun i => default (Resolved "" "" "" (SubsetOutcome [])) (of_row all !! i))); [by eexists|].
    intros i Hi. rewrite elem_of_py_sorted, <-of_row_keys in Hi by done. apply dict_get_is_Some in Hi as [s Hs].
    rewrite Hs. by apply dict_index_Ok. }
  exists out. split; [done|]. apply mmap_Forall2 in Hout.
  assert (Forall2 (fun i s => i = point_id s /\ s ∈ all) (py_sorted (ids all)) out) as Hf.
  { eapply Forall2_impl; [exact Hout|]. intros i s Hs%dict_index_Ok. apply dict_get_Some_in in Hs. rewrite of_row_items in Hs by done.
    apply list_elem_of_fmap in Hs as (s' & [= -> ->] & Hs). done. }
  assert (ids out = py_sorted (ids all)) as Hids.
  { clear -Hf. induction Hf as [|i s l out [-> _] _ IH]; [done|]. by rewrite fmap_cons, IH. }
  assert (NoDup (ids out)) as Hno by (rewrite Hids; by apply NoDup_py_sorted).
  split; [split; [rewrite Hids; apply py_sorted_sorted|done]|].
  apply NoDup_Permutation; [by eapply NoDup_fmap_1|by eapply NoDup_fmap_1|]. intros s. split.
  - intros (i & Hi)%list_elem_of_lookup. destruct (Forall2_lookup_r _ _ _ _ _ Hf Hi) as (x & _ & _ & Hs). done.
  - intros Hs. assert (point_id s ∈ ids out) as (t & Heq & Ht)%list_elem_of_fmap by (rewrite Hids, elem_of_py_sorted; apply list_elem_of_fmap; by exists s).
    assert (t ∈ all) as Hta by (apply list_elem_of_lookup in Ht as [i Hi]; by destruct (Forall2_lookup_r _ _ _ _ _ Hf Hi) as (x & _ & _ & Hs')).
    by rewrite (NoDup_ids_same all s t).
Qed.

Lemma merge_combination_from combination : forall row, canonical row ->
  (NoDup (ids (row ++ concat combination)) /\ exists out, mfold _merge_rows row combination = Ok out /\ canonical out /\ out ≡ₚ row ++ concat combination) \/
  (~ NoDup (ids (row ++ concat combination)) /\ mfold _merge_rows row combination = Raise point_selected_twice).
Proof.
  induction combination as [|l combination IH]; intros row [Hs Hn]; cbn [mfold concat].
  - rewrite app_nil_r. left. split; [done|]. by exists row.
  - destruct (merge_rows_run row l Hn) as [(Hnd & out & -> & Hc & Hp)|[Hbad ->]]; cbn [mbind result_bind].
    + destruct (IH out Hc) as [(Hnd' & out' & -> & Hc' & Hp')|[Hbad ->]]; rewrite Hp, <-app_assoc in *; [left|by right].
      split; [done|]. by exists out'.
    + right. split; [|done]. intros Hnd. apply Hbad. rewrite app_assoc, fmap_app in Hnd. by apply NoDup_app in Hnd as [? _].
Qed.

Lemma merge_combination_run combination :
  (NoDup (ids (concat combination)) /\ exists out, merge_combination combination = Ok out /\ canonical out /\ out ≡ₚ concat combination) \/
  (~ NoDup (ids (concat combination)) /\ merge_combination combination = Raise point_selected_twice).
Proof. apply (merge_combination_from combination []). split; constructor. Qed.

(** ** Products *)

Lemma elem_of_list_product {A} (ls : list (list A)) c : c ∈ list_product ls <-> Forall2 (fun a l => a ∈ l) c ls.
Proof.
  revert c. induction ls as [|l ls IH]; intros c; cbn [list_product].
  - rewrite list_elem_of_singleton. split; [by intros ->; constructor|by inversion 1].
  - rewrite list_elem_of_In, in_flat_map. split.
    + intros (a & Ha & Hc). apply list_elem_of_In in Ha, Hc. apply list_elem_of_fmap in Hc as (rest & -> & Hrest). constructor; [done|by apply IH].
    + intros H. apply Forall2_cons_inv_r in H as (a & rest & Ha & Hrest & ->). exists a. rewrite <-!list_elem_of_In. split; [done|].
      apply list_elem_of_fmap. exists rest. split; [done|by apply IH].
Qed.

Lemma NoDup_list_product {A} (ls : list (list A)) : Forall NoDup ls -> NoDup (list_product ls).
Proof.
  induction 1 as [|l ls Hl _ IH]; [apply NoDup_singleton|]. cbn [list_product]. induction Hl as [|a l Ha Hl IHl]; [constructor|].
  cbn [flat_map]. apply NoDup_app. split_and!; [|intros c|done].
  - by apply NoDup_fmap_2; [intros ? ? [= ->]|].
  - intros (rest & -> & _)%list_elem_of_fmap (b & Hb & Hc)%list_elem_of_In%in_flat_map. apply list_elem_of_In, list_elem_of_fmap in Hc as (rest' & [= -> _] & _).
    by apply list_elem_of_In in Hb.
Qed.

Lemma length_list_product {A} (ls : list (list A)) : py_len (list_product ls) = foldl (fun n l => n * py_len l) 1 ls.
Proof.
  assert (forall n, foldl (fun n l => n * py_len l) n ls = n * py_len (list_product ls)) as ->; [|lia].
  induction ls as [|l ls IH]; intros n; cbn [foldl list_product]; [unfold py_len; cbn; lia|]. rewrite IH.
  assert (py_len (flat_map (fun a => (fun rest => a :: rest) <$> list_product ls) l) = py_len l * py_len (list_product ls)) as ->; [|lia].
  unfold py_len. induction l as [|a l IHl]; [done|]. cbn [flat_map length]. rewrite length_app, length_fmap. lia.
Qed.

(** ** Canonical domains *)

Definition scalar_domain (point : VariationPoint) : option ScalarDomain :=
  match point with ParameterVariationPoint d | LogicalTimingVariationPoint d => Some d | _ => None end.

(** The values of a finite domain. *)
Inductive scalar_holds : ScalarDomain -> DomainScalar -> Prop :=
| holds_exact v : scalar_holds (ExactDomain v) v
| holds_enum values v : v ∈ values -> scalar_holds (EnumDomain values) v
| holds_boolean b : scalar_holds (BooleanDomain None) (SBool b)
| holds_exact_boolean b : scalar_holds (BooleanDomain (Some b)) (SBool b)
| holds_integer d z : numeric_type d = INTEGER -> in_interval d (inject_Z z) -> scalar_holds (IntervalDomain d) (SInt z).

(** The outcomes of a finite point. *)
Inductive domain_holds : VariationPoint -> SelectionOutcome -> Prop :=
| holds_literal point d v : scalar_domain point = Some d -> scalar_holds d v -> domain_holds point (LiteralOutcome (Some v))
| holds_reference refs id : id ∈ refs -> domain_holds (GovernedReferenceVariationPoint refs) (ReferenceOutcome id)
| holds_member alternatives id : id ∈ dict_keys alternatives -> domain_holds (AlternativeVariationPoint alternatives) (MemberOutcome id).

Lemma scalar_eq_refl v : _scalar_eq v v = true.
Proof. destruct v; cbn [_scalar_eq]; [apply Bool.eqb_reflx|apply Z.eqb_refl|by apply Qeq_bool_iff|apply String.eqb_refl]. Qed.

Lemma unique_by_NoDup values : unique_by _scalar_eq values = true -> NoDup values.
Proof.
  induction values as [|v l IH]; [constructor|]. cbn [unique_by]. intros [Hv Hl]%andb_true_iff. constructor; [|by apply IH].
  intros Hin. apply negb_true_iff, not_true_iff_false in Hv. apply Hv, existsb_exists. exists v. split; [by apply list_elem_of_In|apply scalar_eq_refl].
Qed.

Section domains.
Context `{!RandomPackages}.

Lemma sorted_scalars_run values :
  match sorted_scalars values with Ok l => l ≡ₚ values | Raise e => reported e end.
Proof.
  unfold sorted_scalars. destruct (mmap _canonical_scalar_key values) as [keys|e] eqn:Hk; cbn [mbind result_bind].
  - rewrite (merge_sort_Permutation key_le (zip keys values)). rewrite snd_zip; [done|]. apply mmap_length in Hk. lia.
  - assert (safe (mmap _canonical_scalar_key values)) as Hs; [|by rewrite Hk in Hs]. apply safe_mmap. intros v _. unfold _canonical_scalar_key.
    destruct (rfc8785_dumps _); [done|apply reported_value].
Qed.

Lemma scalar_values_run d :
  validate_scalar_domain d = Ok tt ->
  match _scalar_values d with Ok l => NoDup l /\ (forall v, v ∈ l <-> scalar_holds d v) /\ (forall n, _scalar_domain_cardinality d = Ok n -> n = py_len l) | Raise e => reported e end.
Proof.
  intros Hd. destruct d as [v|values|b|d]; cbn [_scalar_values _scalar_domain_cardinality].
  - split_and!; [apply NoDup_singleton| |by intros n [= <-]]. intros w. rewrite list_elem_of_singleton. split; [intros ->; constructor|by inversion 1].
  - pose proof (sorted_scalars_run values) as Hs. destruct (sorted_scalars values) as [l|e]; [|done]. cbn [validate_scalar_domain] in Hd.
    unfold validate_enum_domain in Hd. apply bind_Ok in Hd as (u & _ & Hu). apply raise_if_Ok, negb_false_iff, unique_by_NoDup in Hu.
    split_and!; [by rewrite Hs| |by intros n [= <-]; unfold py_len; rewrite Hs]. intros v. rewrite Hs. split; [by constructor|by inversion 1].
  - destruct b as [b|]; (split_and!; [repeat constructor; set_solver| |by intros n [= <-]]); intros w; rewrite ?elem_of_cons, ?elem_of_nil; split.
    + intros [->|[]]. constructor.
    + inversion 1; subst. by left.
    + intros [->|[->|[]]]; constructor.
    + inversion 1 as [| |b'| |]; subst. destruct b'; auto.
  - unfold _integer_interval_values, _integer_interval_bounds. destruct (decide (numeric_type d = INTEGER)) as [Ht|Ht].
    + rewrite bool_decide_eq_false_2 by (intros Hn0; done). cbn [raise_if mbind result_bind]. split_and!.
      * apply NoDup_fmap_2; [intros ? ? [= ->]; done|apply NoDup_seqZ].
      * intros v. rewrite list_elem_of_fmap. setoid_rewrite elem_of_seqZ. split.
        -- intros (z & -> & Hz). constructor; [done|]. apply interval_bounds_exact. lia.
        -- inversion 1 as [| | | |? z _ Hin]; subst. exists z. split; [done|]. apply interval_bounds_exact in Hin. lia.
      * intros n Hn0. assert (n = Z.max 0 ((interval_bounds d).2 - (interval_bounds d).1 + 1)) as -> by congruence.
        unfold py_len. rewrite length_fmap, length_seqZ. lia.
    + rewrite bool_decide_eq_true_2 by done. cbn. apply reported_failure.
Qed.

(** An enumerated domain lists the outcomes of its point, each once. *)
Lemma canonical_domain_run point maximum :
  validate_variation_point point = Ok tt ->
  point_wf point ->
  match canonical_domain_outcomes point maximum with
  | Ok outs => NoDup outs /\ outs <> [] /\ py_len outs <= maximum /\ forall o, o ∈ outs <-> domain_holds point o
  | Raise e => reported e
  end.
Proof.
  intros Hv Hwf. unfold canonical_domain_outcomes.
  assert (match domain_outcomes point with
    | Ok outs => NoDup outs /\ (forall o, o ∈ outs <-> domain_holds point o) /\ (forall n, _domain_cardinality point = Ok n -> n = py_len outs)
    | Raise e => reported e end) as Hout.
  { assert (forall d, scalar_domain point = Some d -> _domain_cardinality point = _scalar_domain_cardinality d -> validate_scalar_domain d = Ok tt ->
      match (values ← _scalar_values d; Ok (literal_outcomes values)) with
      | Ok outs => NoDup outs /\ (forall o, o ∈ outs <-> domain_holds point o) /\ (forall n, _domain_cardinality point = Ok n -> n = py_len outs)
      | Raise e => reported e end) as Hscalar.
    { intros d Hd Hcard Hok. pose proof (scalar_values_run d Hok) as Hr. destruct (_scalar_values d) as [l|e]; [|done]. cbn [mbind result_bind].
      destruct Hr as (Hn & Hin & Hlen). unfold literal_outcomes. split_and!.
      - apply NoDup_fmap_2; [by intros ? ? [= ->]|done].
      - intros o. rewrite list_elem_of_fmap. split.
        + intros (v & -> & Hv'%Hin). by econstructor.
        + inversion 1 as [p d' v Hd' Hh| |]; subst; [|done..]. exists v. split; [done|]. apply Hin. congruence.
      - intros n Hc. rewrite Hcard in Hc. unfold py_len. rewrite length_fmap. by apply Hlen. }
    destruct point as [d|d|refs|alternatives|? ? ?|?]; cbn [domain_outcomes _domain_cardinality validate_variation_point] in *;
      [by apply Hscalar|by apply Hscalar| | |apply reported_failure|apply reported_failure].
    - apply bind_Ok in Hv as (u & _ & Hu). apply raise_if_Ok, negb_false_iff, py_unique_true in Hu. split_and!.
      + apply NoDup_fmap_2; [by intros ? ? [= ->]|by apply NoDup_py_sorted].
      + intros o. rewrite list_elem_of_fmap. setoid_rewrite elem_of_py_sorted. split; [intros (id & -> & Hid); by constructor|].
        inversion 1 as [? ? ? Hs| |]; subst; [done|by eexists].
      + intros n [= <-]. unfold py_len. by rewrite length_fmap, length_py_sorted.
    - split_and!.
      + apply NoDup_fmap_2; [by intros ? ? [= ->]|by apply NoDup_py_sorted].
      + intros o. rewrite list_elem_of_fmap. setoid_rewrite elem_of_py_sorted. split; [intros (id & -> & Hid); by constructor|].
        inversion 1 as [? ? ? Hs| |]; subst; [done|by eexists].
      + intros n [= <-]. unfold py_len. by rewrite length_fmap, length_py_sorted. }
  assert (safe (_domain_cardinality point)) as Hsafe.
  { destruct point as [d|d| | | |]; cbn [_domain_cardinality]; try done; try apply reported_failure; destruct d; cbn; try done;
      unfold _integer_interval_bounds; case_bool_decide; cbn; try done; apply reported_failure. }
  destruct (_domain_cardinality point) as [n|e]; cbn [mbind result_bind]; [|done].
  destruct (Z.eqb_spec n 0) as [->|Hne]; cbn [raise_if mbind result_bind]; [apply reported_failure|].
  destruct (Z.ltb_spec maximum n); cbn [raise_if mbind result_bind]; [apply reported_failure|].
  destruct (domain_outcomes point) as [outs|e]; [|done]. destruct Hout as (Hn & Hin & Hlen). specialize (Hlen n eq_refl). subst n. split_and!; [done| |done|done].
  by intros ->.
Qed.
End domains.

(** ** Static rows *)

Lemma concat_proper {A} (l1 l2 : list (list A)) : l1 ≡ₚ l2 -> concat l1 ≡ₚ concat l2.
Proof.
  induction 1 as [|a l1 l2 _ IH|a b l|l1 l2 l3 _ IH1 _ IH2]; cbn [concat]; [done|by rewrite IH| |by rewrite IH1].
  by rewrite !app_assoc, (Permutation_app_comm a b).
Qed.

Lemma NoDup_Forall2 {A B} (R : A -> B -> Prop) l l' :
  Forall2 R l l' -> (forall a b x, a ∈ l -> b ∈ l -> R a x -> R b x -> a = b) -> NoDup l -> NoDup l'.
Proof.
  induction 1 as [|a x l l' Hx Hl IH]; intros Hinj Hnd; [constructor|]. apply NoDup_cons in Hnd as [Ha Hnd]. constructor.
  - intros (i & Hi)%list_elem_of_lookup. destruct (Forall2_lookup_r _ _ _ _ _ Hl Hi) as (b & Hb & Hbx). apply list_elem_of_lookup_2 in Hb.
    rewrite (Hinj a b x) in Ha; [done|left|by right|done..].
  - apply IH; [|done]. intros b c y Hb Hc. apply Hinj; by right.
Qed.

(** The rows of a dimension select the same points. *)
Definition same_points (rows : list (list ResolvedSelection)) : Prop :=
  Forall canonical rows /\ exists points, Forall (fun row => ids row = points) rows.

Lemma same_part a1 a2 r1 r2 :
  ids a1 = ids a2 -> NoDup (ids (a1 ++ r1)) -> NoDup (ids (a2 ++ r2)) -> a1 ++ r1 ≡ₚ a2 ++ r2 -> a1 ≡ₚ a2.
Proof.
  intros Hids H1 H2 Hp. rewrite !fmap_app, !NoDup_app in H1, H2. destruct H1 as (Hn1 & Hd1 & _), H2 as (Hn2 & Hd2 & _).
  apply NoDup_Permutation; [by eapply NoDup_fmap_1|by eapply NoDup_fmap_1|]. intros s. split; intros Hs.
  - assert (s ∈ a2 ++ r2) as [?|Hr]%elem_of_app by (rewrite <-Hp; apply elem_of_app; by left); [done|]. exfalso.
    apply (Hd2 (point_id s)); [rewrite <-Hids|]; apply list_elem_of_fmap; by exists s.
  - assert (s ∈ a1 ++ r1) as [?|Hr]%elem_of_app by (rewrite Hp; apply elem_of_app; by left); [done|]. exfalso.
    apply (Hd1 (point_id s)); [rewrite Hids|]; apply list_elem_of_fmap; by exists s.
Qed.

Lemma combination_unique dimensions : Forall same_points dimensions -> forall c1 c2,
  Forall2 (fun a l => a ∈ l) c1 dimensions -> Forall2 (fun a l => a ∈ l) c2 dimensions ->
  NoDup (ids (concat c1)) -> concat c1 ≡ₚ concat c2 -> c1 = c2.
Proof.
  induction 1 as [|l ls [Hc (points & Hpoints)] _ IH]; intros c1 c2 H1 H2 Hnd Hp; [inversion H1; inversion H2; by subst|].
  apply Forall2_cons_inv_r in H1 as (a1 & r1 & Ha1 & Hr1 & ->), H2 as (a2 & r2 & Ha2 & Hr2 & ->). cbn [concat] in *.
  rewrite Forall_forall in Hc, Hpoints. assert (NoDup (ids (a2 ++ concat r2))) as Hnd2 by by rewrite <-Hp.
  assert (a1 = a2) as <-.
  { apply canonical_unique; [by apply Hc..|]. eapply same_part; [|done..|done]. by rewrite (Hpoints _ Ha1), (Hpoints _ Ha2). }
  f_equal. apply IH; [done..| |by apply Permutation_app_inv_l in Hp]. rewrite fmap_app in Hnd. by apply NoDup_app in Hnd as (_ & _ & ?).
Qed.

(** The points of a family are well formed, and every policy names one. *)
Record family_formed (ps : policies) (family : ExpandedScenario) : Prop := {
  ff_points : forall ref point, variation_points family !! ref = Some point -> validate_variation_point point = Ok tt /\ point_wf point;
  ff_declared : forall id p ref, ps !! id = Some p -> point_ref p = Some ref -> is_Some (variation_points family !! ref);
}.

Section static.
Context `{!RandomPackages} (plan : ExperimentRunPlanModel) (family : ExpandedScenario) (limits : TrialCompilationLimitsModel).
Abbreviation ps := (selection_policies plan).
Context (Hwf : dict_wf ps) (Hplan : plan_formed plan) (Hfamily : family_formed ps family).

(** The selections a policy stands for: its outcome, one outcome of its point, or
    one row of every dimension. *)
Inductive produces : string -> list ResolvedSelection -> Prop :=
| produces_fixed id p ref o : ps !! id = Some p -> policy_kind p = FixedPolicy ref o -> produces id [resolved_selection p ref o]
| produces_enumerate id p ref point o : ps !! id = Some p -> policy_kind p = EnumeratePolicy ref -> variation_points family !! ref = Some point ->
    domain_holds point o -> produces id [resolved_selection p ref o]
| produces_product id p refs parts : ps !! id = Some p -> policy_kind p = ProductPolicy refs -> Forall2 produces refs parts ->
    produces id (concat parts).

(** The rows are exactly what the policy stands for, each once. *)
Record rows_exact (id : string) (rows : list (list ResolvedSelection)) : Prop := {
  re_nonempty : rows <> [];
  re_nodup : NoDup rows;
  re_points : same_points rows;
  re_complete : forall row, produces id row -> exists row', row' ∈ rows /\ row' ≡ₚ row;
  re_sound : forall row', row' ∈ rows -> exists row, produces id row /\ row' ≡ₚ row;
}.

Lemma canonical_single s : canonical [s].
Proof. split; [repeat constructor|apply NoDup_singleton]. Qed.

Lemma grow_product_run maximum id child_rows : Forall (fun rows : list (list ResolvedSelection) => rows <> []) child_rows ->
  safe (mfold (grow_product maximum id) 1 child_rows).
Proof.
  intros Hne. rewrite Forall_forall in Hne. apply (safe_mfold (fun n => 0 < n)); [lia|]. intros n rows Hin Hn. unfold grow_product.
  rewrite (proj2 (Z.eqb_neq n 0)) by lia. cbn [raise_if mbind result_bind]. split.
  - apply safe_bind; [apply safe_raise_if, reported_failure|done].
  - intros n' (u & _ & [= <-])%bind_Ok. specialize (Hne rows Hin). destruct rows; [done|]. unfold py_len. cbn [length]. lia.
Qed.

Lemma product_rows id p refs child_rows rows :
  ps !! id = Some p -> policy_kind p = ProductPolicy refs -> Forall2 rows_exact (py_sorted refs) child_rows ->
  mmap merge_combination (list_product child_rows) = Ok rows -> rows_exact id rows.
Proof.
  intros Hp Hk Hch Hrows. apply mmap_Forall2 in Hrows.
  assert (Forall same_points child_rows) as Hsame by (eapply Forall2_Forall_r; [exact Hch|apply Forall_true; by intros c rs []]).
  assert (Forall2 (fun c row => canonical row /\ row ≡ₚ concat c /\ NoDup (ids (concat c))) (list_product child_rows) rows) as Hmerged.
  { eapply Forall2_impl; [exact Hrows|]. intros c row Hm. destruct (merge_combination_run c) as [(Hn & out & Ho & Hc & Hpc)|[_ Hr]]; [|congruence].
    cbv beta in Hm. assert (out = row) as <- by congruence. done. }
  constructor.
  - intros ->. apply Forall2_length in Hrows. assert (Forall (fun l : list (list ResolvedSelection) => l <> []) child_rows) as Hne
      by (eapply Forall2_Forall_r; [exact Hch|apply Forall_true; by intros c rs []]).
    clear -Hrows Hne. assert (exists c, c ∈ list_product child_rows) as [c Hc]; [|destruct (list_product child_rows); [by apply not_elem_of_nil in Hc|done]].
    setoid_rewrite elem_of_list_product. clear Hrows. induction Hne as [|l ls Hl _ [c Hc]]; [by exists []|]. destruct l as [|a l]; [done|].
    exists (a :: c). constructor; [left|done].
  - eapply NoDup_Forall2; [exact Hmerged| |apply NoDup_list_product; eapply Forall2_Forall_r; [exact Hch|apply Forall_true; by intros c rs []]].
    intros c1 c2 row Hc1%elem_of_list_product Hc2%elem_of_list_product (_ & Hp1 & Hn1) (_ & Hp2 & _).
    eapply combination_unique; [done..|]. by rewrite <-Hp1.
  - split.
    + apply Forall_forall. intros row [i Hi]%list_elem_of_lookup. by destruct (Forall2_lookup_r _ _ _ _ _ Hmerged Hi) as (c & _ & ? & _).
    + assert (exists points, forall c, Forall2 (fun a l => a ∈ l) c child_rows -> ids (concat c) = points) as [points Hpoints].
      { clear -Hsame. induction Hsame as [|l ls [_ [points Hl]] _ [rest IH]]; [exists []; intros c Hc; by inversion Hc|]. exists (points ++ rest).
        intros c (a & r & Ha & Hr & ->)%Forall2_cons_inv_r. cbn [concat]. rewrite fmap_app, IH by done. rewrite Forall_forall in Hl. by rewrite Hl. }
      exists (py_sorted points). apply Forall_forall. intros row [i Hi]%list_elem_of_lookup.
      destruct (Forall2_lookup_r _ _ _ _ _ Hmerged Hi) as (c & Hc%list_elem_of_lookup_2%elem_of_list_product & [Hs _] & Hperm & _).
      apply (StronglySorted_unique String.le); [done|apply py_sorted_sorted|]. by rewrite py_sorted_perm, Hperm, <-(Hpoints c Hc).
  - intros row Hprod. inversion Hprod as [? p' ? ? Hp' Hk'|? p' ? ? ? Hp' Hk'|? p' refs' parts Hp' Hk' Hparts]; subst;
      rewrite Hp' in Hp; injection Hp as <-; rewrite Hk' in Hk; try discriminate. injection Hk as ->.
    destruct (Permutation_Forall2 (symmetry (py_sorted_perm refs)) Hparts) as (parts' & Hpp & Hparts').
    assert (exists c, Forall2 (fun a l => a ∈ l) c child_rows /\ concat c ≡ₚ concat parts') as (c & Hc & Hcp).
    { clear -Hch Hparts'. revert parts' Hparts'. induction Hch as [|r rows l ls Hr _ IH]; intros parts' Hparts'.
      - inversion Hparts'; subst. exists []. split; [constructor|done].
      - apply Forall2_cons_inv_l in Hparts' as (part & parts & Hpart & Hrest & ->). destruct (IH parts Hrest) as (c & Hc & Hcp).
        destruct (re_complete _ _ Hr part Hpart) as (a & Ha & Hap). exists (a :: c). split; [by constructor|]. cbn [concat]. by rewrite Hap, Hcp. }
    apply elem_of_list_product, list_elem_of_lookup in Hc as [i Hi]. destruct (Forall2_lookup_l _ _ _ _ _ Hmerged Hi) as (row & Hrow & _ & Hrp & _).
    exists row. split; [by eapply list_elem_of_lookup_2|]. rewrite Hrp, Hcp. symmetry. by apply concat_proper.
  - intros row [i Hi]%list_elem_of_lookup. destruct (Forall2_lookup_r _ _ _ _ _ Hmerged Hi) as (c & Hc%list_elem_of_lookup_2%elem_of_list_product & _ & Hrp & _).
    assert (exists parts, Forall2 produces (py_sorted refs) parts /\ concat c ≡ₚ concat parts) as (parts & Hparts & Hcp).
    { clear -Hch Hc. revert c Hc. induction Hch as [|r rows l ls Hr _ IH]; intros c Hc.
      - inversion Hc; subst. exists []. split; [constructor|done].
      - apply Forall2_cons_inv_r in Hc as (a & c' & Ha & Hrest & ->). destruct (IH c' Hrest) as (parts & Hparts & Hcp).
        destruct (re_sound _ _ Hr a Ha) as (part & Hpart & Hap). exists (part :: parts). split; [by constructor|]. cbn [concat]. by rewrite Hap, Hcp. }
    destruct (Permutation_Forall2 (py_sorted_perm refs) Hparts) as (parts' & Hpp & Hparts'). exists (concat parts'). split.
    + by eapply produces_product.
    + rewrite Hrp, Hcp. by apply concat_proper.
Qed.

Lemma product_refs_kind id p refs : ps !! id = Some p -> policy_kind p = ProductPolicy refs -> product_refs ps id = refs.
Proof. intros Hp Hk. unfold product_refs, policy_refs. by rewrite Hp, Hk. Qed.

Lemma static_rows_run fuel : forall id stack,
  id ∈ dict_keys ps -> NoDup stack -> stack ⊆ dict_keys ps -> (forall u, u ∈ stack -> tc (refers ps) u id) ->
  (length (dict_keys ps) < fuel + length stack)%nat ->
  match _static_rows fuel id family ps limits with Ok rows => rows_exact id rows | Raise e => reported e end.
Proof.
  induction fuel as [|fuel IH]; intros id stack Hid Hnd Hsub Hstack Hfuel.
  { exfalso. apply NoDup_submseteq, submseteq_length in Hsub; [lia|done]. }
  cbn [_static_rows]. apply dict_get_is_Some in Hid as Hsome. destruct Hsome as [p Hp]. rewrite (proj2 (dict_index_Ok _ _ _) Hp). cbn [mbind result_bind].
  destruct (policy_kind p) as [ref o|ref|refs| |] eqn:Hk; [| | |apply reported_failure|apply reported_failure].
  - constructor; [done|apply NoDup_singleton| | |].
    + split; [repeat constructor; set_solver|exists [ref]; repeat constructor].
    + intros row Hprod. inversion Hprod as [? p' ? ? Hp' Hk'|? p' ? ? ? Hp' Hk'|? p' ? ? Hp' Hk' _]; subst; rewrite Hp in Hp'; injection Hp' as <-;
        rewrite Hk in Hk'; try discriminate. injection Hk' as -> ->. eexists. split; [left|done].
    + intros row ->%list_elem_of_singleton. eexists. split; [by eapply produces_fixed|done].
  - destruct (ff_declared _ _ Hfamily id p ref Hp) as [point Hpoint]; [unfold point_ref; by rewrite Hk|].
    rewrite (proj2 (dict_index_Ok _ _ _) Hpoint). cbn [mbind result_bind]. destruct (ff_points _ _ Hfamily ref point Hpoint) as [Hv Hpwf].
    pose proof (canonical_domain_run point (max_domain_values_per_point limits) Hv Hpwf) as Hdom.
    destruct (canonical_domain_outcomes _ _) as [outs|e]; cbn [mbind result_bind]; [|done]. destruct Hdom as (Hno & Hne & _ & Hin).
    unfold outcome_rows. constructor.
    + by destruct outs.
    + apply NoDup_fmap_2; [by intros ? ? [= ->]|done].
    + split; [|exists [ref]]; apply Forall_fmap, Forall_forall; intros o _; [apply canonical_single|done].
    + intros row Hprod. inversion Hprod as [? p' ? ? Hp' Hk'|? p' ? point' o Hp' Hk' Hpt Ho|? p' ? ? Hp' Hk' _]; subst; rewrite Hp in Hp'; injection Hp' as <-;
        rewrite Hk in Hk'; try discriminate. injection Hk' as <-. eexists. split; [|reflexivity]. apply list_elem_of_fmap. exists o. split; [done|].
      apply Hin. congruence.
    + intros row (o & -> & Ho)%list_elem_of_fmap. eexists. split; [eapply produces_enumerate; [done..|by apply Hin]|done].
  - pose proof (product_refs_kind id p refs Hp Hk) as Hrefs.
    assert (~ id ∈ stack) as Hnew by (intros Hin; by apply (pf_acyclic _ Hplan id), Hstack).
    assert (forall child, child ∈ refs -> match _static_rows fuel child family ps limits with Ok rows => rows_exact child rows | Raise e => reported e end) as Hchild.
    { intros child Hc. assert (refers ps id child) as Hedge by by rewrite Hrefs. apply (IH child (id :: stack)).
      - apply dict_get_Some in Hp as Hitem; [|done]. apply (pf_refs _ Hplan id p child Hitem). unfold policy_refs. by rewrite Hk.
      - by constructor.
      - intros u [->|Hu]%elem_of_cons; [done|by apply Hsub].
      - intros u [->|Hu]%elem_of_cons; [by apply tc_once|]. eapply tc_r; [by apply Hstack|done].
      - cbn [length]. lia. }
    assert (safe (mmap (fun child => _static_rows fuel child family ps limits) (py_sorted refs))) as Hsafe.
    { apply safe_mmap. intros child Hc. rewrite elem_of_py_sorted in Hc. specialize (Hchild child Hc). by destruct (_static_rows fuel child family ps limits). }
    destruct (mmap _ (py_sorted refs)) as [child_rows|e] eqn:Hm; cbn [mbind result_bind]; [|done]. apply mmap_Forall2 in Hm.
    assert (Forall2 rows_exact (py_sorted refs) child_rows) as Hexact.
    { assert (Forall (fun child => child ∈ refs) (py_sorted refs)) as Hall by (apply Forall_forall; intros c Hc; by rewrite elem_of_py_sorted in Hc).
      clear -Hm Hall Hchild. induction Hm as [|c rows l ls Hc _ IHl]; [constructor|]. apply Forall_cons in Hall as [Hin Hall].
      constructor; [|by apply IHl]. specialize (Hchild c Hin). by rewrite Hc in Hchild. }
    assert (Forall (fun rows : list (list ResolvedSelection) => rows <> []) child_rows) as Hne
      by (eapply Forall2_Forall_r; [exact Hexact|apply Forall_true; by intros c rs []]).
    pose proof (grow_product_run (max_product_outputs limits) id child_rows Hne) as Hgrow.
    destruct (mfold _ 1 child_rows) as [n|e]; cbn [mbind result_bind]; [|done].
    destruct (negb (n =? output_bound p)); cbn [raise_if mbind result_bind]; [apply reported_failure|].
    destruct (mmap merge_combination (list_product child_rows)) as [rows|e] eqn:Hrows.
    + by eapply product_rows.
    + assert (safe (mmap merge_combination (list_product child_rows))) as Hs; [|by rewrite Hrows in Hs]. apply safe_mmap. intros c _.
      destruct (merge_combination_run c) as [(_ & out & -> & _)|[_ ->]]; [done|apply reported_failure].
Qed.
End static.
