(* ===== verification/TrialSpec.v ===== *)
(** What the trials of an experiment promise: coordinates in their canonical
    order, static rows that are exactly the combinations a policy stands for, and
    complete, admitted selections for every coordinate; with the lemmas on
    sampled and stratified rows and on the roots of the policies behind it. *)
From S2P Require Import Prelude.
From S2P Require Import Contracts.
From S2P Require Import RandomStream.
From S2P Require Import RandomStreamSpec.
From S2P Require Import ParticipantActivity.
From S2P Require Import Variation.
From S2P Require Import VariationSpec.
From S2P Require Import TrialPlan.
From S2P Require Import TrialSelection.
From S2P Require Import TrialFacts.
From Stdlib Require Import Ascii.
Local Open Scope string_scope.
Local Open Scope list_scope.
Local Open Scope Z_scope.

(** ** Sampled rows *)

Lemma safe_fromhex l : safe (fromhex l).
Proof.
  assert (forall n l, (length l <= n)%nat -> safe (fromhex l)) as H; [|by apply (H (length l))].
  clear l. induction n as [|n IH]; intros l Hl; destruct l as [|c l]; [done|cbn in Hl; lia|done|]. cbn [fromhex].
  destruct (ascii_space c); [apply IH; cbn in Hl; lia|]. destruct l as [|d l]; [apply reported_value|].
  destruct (hex_value c), (hex_value d); try apply reported_value. apply safe_bind; [|done]. apply IH. cbn in Hl. lia.
Qed.

Section sampling.
Context `{!RandomPackages, !Blake3Laws}.

Lemma root_key_run seed profile_id : profile_id ∈ SUPPORTED_RANDOM_STREAM_PROFILE_IDS ->
  match (root ← decode_public_seed seed; derive_stream_key profile_id root) with Ok key => length key = 32%nat | Raise e => reported e end.
Proof.
  intros Hp. destruct (decode_public_seed seed) as [root|e] eqn:Hroot; cbn [mbind result_bind].
  - unfold decode_public_seed in Hroot. apply bind_Ok in Hroot as (u & _ & Hroot). apply bind_Ok in Hroot as (raw & _ & Hroot).
    apply bind_Ok in Hroot as (u' & Hlen & [= <-]). apply raise_if_Ok in Hlen. unfold derive_stream_key. rewrite require_supported by done.
    cbn [mbind result_bind]. rewrite Hlen. cbn [raise_if mbind result_bind]. apply derived_key_length.
  - assert (safe (decode_public_seed seed)) as Hs; [|by rewrite Hroot in Hs]. unfold decode_public_seed.
    apply safe_bind; [apply safe_raise_if, reported_value|]. intros _ _. apply safe_bind; [apply safe_fromhex|]. intros raw _.
    apply safe_bind; [apply safe_raise_if, reported_value|done].
Qed.

(** A draw over a range below [2^32] from a canonical address returns an index of the
    range, or is exhausted. *)
Lemma draw_request_run profile_id key a bytes maximum :
  profile_id ∈ SUPPORTED_RANDOM_STREAM_PROFILE_IDS -> length key = 32%nat -> canonical_stream_address_bytes (TrialAddress a) = Ok bytes ->
  sa_local_coordinate a = 0 -> 0 <= maximum < 2 ^ 32 ->
  exists d, draw_request profile_id key (DrawRequest a 0 maximum 32) = Ok d /\ forall v, value d = Some v -> 0 <= v <= maximum.
Proof.
  intros Hprofile Hkey Hbytes Hlocal Hmax. unfold draw_request, draw_bounded_integer. cbn [rq_address rq_minimum rq_maximum rq_max_rejection_attempts].
  rewrite require_supported by done. cbn [mbind result_bind]. destruct (Z.ltb_spec maximum 0); [lia|]. cbn [raise_if mbind result_bind Z.ltb Z.compare].
  destruct (byte_width_run (maximum - 0 + 1)) as (bw & -> & Hbw & Hcover & Hleast); [lia|]. cbn [mbind result_bind].
  assert (bw <= 4) as Hsmall.
  { apply Z.nlt_ge. intros Hlt. specialize (Hleast 4). cbn in Hleast. change (2 ^ 32) with 4294967296 in Hmax. lia. }
  destruct (draw_attempts_run profile_id key (TrialAddress a) bytes Hprofile Hkey Hbytes ltac:(cbn; lia) bw 32 Hbw) with (minimum := 0) (width := maximum - 0 + 1)
    (remaining := Z.to_nat 32) (i := 0) as [[_ ->]|(j & _ & _ & _ & ->)]; [cbn [local_coordinate]; rewrite Hlocal; change (2 ^ 64) with 18446744073709551616; lia|lia|reflexivity| |].
  - eexists. split; [done|]. by intros v [=].
  - eexists. split; [done|]. intros v [= <-]. pose proof (Z.mod_pos_bound (raw_integer key (TrialAddress a) bytes bw j) (maximum - 0 + 1)). lia.
Qed.

Lemma canonical_requests requests s s' :
  mfold note_request s requests = Ok s' -> forall r, r ∈ requests -> exists bytes, canonical_stream_address_bytes (TrialAddress (rq_address r)) = Ok bytes.
Proof.
  revert s. induction requests as [|q l IH]; intros s; [by intros _ r ?%not_elem_of_nil|]. cbn [mfold]. intros (s1 & Hq & Hl)%bind_Ok r [->|Hr]%elem_of_cons.
  - unfold note_request in Hq. apply bind_Ok in Hq as (bytes & Hb & _). by exists bytes.
  - by eapply IH.
Qed.

(** The draws of a batch of sample addresses. *)
Lemma batch_draws profile_id key addresses maximum :
  profile_id ∈ SUPPORTED_RANDOM_STREAM_PROFILE_IDS -> length key = 32%nat -> 0 <= maximum < 2 ^ 32 ->
  Forall (fun a => sa_local_coordinate a = 0) addresses ->
  match draw_bounded_integer_batch profile_id key ((fun a => DrawRequest a 0 maximum 32) <$> addresses) with
  | Ok batch => forall drawn, draws batch = Some drawn ->
      length drawn = length addresses /\ Forall (fun d => forall v, value d = Some v -> 0 <= v <= maximum) drawn
  | Raise e => reported e
  end.
Proof.
  intros Hprofile Hkey Hmax Hlocal. unfold draw_bounded_integer_batch. rewrite require_supported by done. cbn [mbind result_bind].
  destruct (mfold note_request _ _) as [s|e] eqn:Hs; cbn [mbind result_bind].
  2: { assert (safe (mfold note_request (Scan [] 0 [] 0) ((fun a => DrawRequest a 0 maximum 32) <$> addresses))) as H1; [|by rewrite Hs in H1].
       apply (safe_mfold (fun _ => True)); [done|]. intros s' r _ _. split; [|done]. unfold note_request. apply safe_bind; [|done].
       unfold canonical_stream_address_bytes. destruct (rfc8785_dumps _); [done|apply reported_value]. }
  destruct (negb _ || negb _); [by intros drawn [=]|].
  assert (forall a, a ∈ addresses -> exists d, draw_request profile_id key (DrawRequest a 0 maximum 32) = Ok d /\ forall v, value d = Some v -> 0 <= v <= maximum) as Hdraw.
  { intros a Ha. destruct (canonical_requests _ _ _ Hs (DrawRequest a 0 maximum 32)) as [bytes Hb]; [apply list_elem_of_fmap; by exists a|].
    rewrite Forall_forall in Hlocal. by apply (draw_request_run _ _ _ bytes); [..|apply Hlocal|]. }
  clear Hs. assert (exists drawn, mmap (draw_request profile_id key) ((fun a => DrawRequest a 0 maximum 32) <$> addresses) = Ok drawn /\
    length drawn = length addresses /\ Forall (fun d => forall v, value d = Some v -> 0 <= v <= maximum) drawn) as (drawn & -> & Hd).
  { clear Hlocal. induction addresses as [|a l IH]; [by exists []|]. cbn [fmap list_fmap mmap].
    destruct (Hdraw a ltac:(left)) as (d & -> & Hd). destruct IH as (ds & -> & Hlen & Hds); [intros b Hb; apply Hdraw; by right|].
    exists (d :: ds). cbn [mbind result_bind length]. split_and!; [done|lia|by constructor]. }
  cbn [mbind result_bind draws]. by intros ? [= <-].
Qed.
End sampling.

(** ** What a policy offers a coordinate *)

Definition stratum_of (strata : dict string ExperimentSelectionStratumModel) (c : TrialCoordinateModel) : option ExperimentSelectionStratumModel :=
  strata !! default "" (condition_id c).

Inductive policy_offers (c : TrialCoordinateModel) (point : VariationPoint) : PolicyKind -> SelectionOutcome -> Prop :=
| offers_fixed ref o : admits_outcome point o -> policy_offers c point (FixedPolicy ref o) o
| offers_enumerated ref o : domain_holds point o -> policy_offers c point (EnumeratePolicy ref) o
| offers_stratum ref outcomes strata stratum o : stratum_of strata c = Some stratum -> outcomes !! outcome_ref stratum = Some o -> admits_outcome point o ->
    policy_offers c point (StratifiedPolicy ref outcomes strata) o
| offers_sampled ref n control o : domain_holds point o -> policy_offers c point (SamplePolicy ref n control) o.

(** A selection names its policy, and selects at the point of the policy what the
    policy offers there. *)
Definition offered (ps : policies) (family : ExpandedScenario) (c : TrialCoordinateModel) (s : ResolvedSelection) : Prop :=
  exists p point, ps !! rs_policy_id s = Some p /\ rs_policy_kind s = kind_name (policy_kind p) /\ point_ref p = Some (point_id s) /\
    variation_points family !! point_id s = Some point /\ policy_offers c point (policy_kind p) (rs_outcome s).

(** What the admissions of the run plan and of its policies guarantee. *)
Record plan_admitted (plan : ExperimentRunPlanModel) (family : ExpandedScenario) : Prop := {
  pa_plan : plan_formed plan;
  pa_family : family_formed (selection_policies plan) family;
  pa_fixed : forall id p ref o point, selection_policies plan !! id = Some p -> policy_kind p = FixedPolicy ref o ->
    variation_points family !! ref = Some point -> admits_outcome point o;
  pa_stratified : forall id p ref outcomes strata key o point, selection_policies plan !! id = Some p -> policy_kind p = StratifiedPolicy ref outcomes strata ->
    variation_points family !! ref = Some point -> outcomes !! key = Some o -> admits_outcome point o;
  pa_strata : forall id p ref outcomes strata key stratum, selection_policies plan !! id = Some p -> policy_kind p = StratifiedPolicy ref outcomes strata ->
    strata !! key = Some stratum -> is_Some (outcomes !! outcome_ref stratum);
  pa_sampled : forall id p ref n control point, selection_policies plan !! id = Some p -> policy_kind p = SamplePolicy ref n control ->
    variation_points family !! ref = Some point -> exists population, _finite_policy_population point = Ok population;
}.

(** The variation points of a family are admitted ones. *)
Definition points_formed (family : ExpandedScenario) : Prop :=
  forall ref point, variation_points family !! ref = Some point -> validate_variation_point point = Ok tt /\ point_wf point.

Lemma resolve_point_Ok family ref point : _resolve_point family ref = Ok point <-> variation_points family !! ref = Some point.
Proof. unfold _resolve_point. destruct (variation_points family !! ref); naive_solver. Qed.

Lemma dict_get_value {V} (d : dict string V) k v : d !! k = Some v -> v ∈ dict_values d.
Proof. intros H%dict_get_Some_in. apply list_elem_of_fmap. by exists (k, v). Qed.

Lemma plan_is_admitted spec family :
  points_formed family -> validate_run_plan (run_plan spec) = Ok tt ->
  validate_experiment_selection_against_family spec family = Ok tt -> plan_admitted (run_plan spec) family.
Proof.
  intros Hpoints Hplan Hadm. set (plan := run_plan spec) in *. pose proof (run_plan_formed plan Hplan) as Hformed.
  pose proof (pf_policies _ Hformed) as Hvalid. rewrite Forall_forall in Hvalid.
  assert (forall id p, selection_policies plan !! id = Some p -> _validate_policy_against_family p family = Ok tt) as Hpolicy.
  { intros id p Hp. unfold validate_experiment_selection_against_family in Hadm. apply bind_Ok in Hadm as (fid & _ & Hadm). fold plan in Hadm.
    pose proof (dict_get_Some_in _ _ _ Hp) as Hin. destruct (dict_items (selection_policies plan)) eqn:Hitems; [by apply not_elem_of_nil in Hin|].
    apply bind_Ok in Hadm as (u1 & _ & Hadm). apply bind_Ok in Hadm as (u2 & _ & Hadm). apply mfold_checks in Hadm.
    rewrite Forall_forall in Hadm. by eapply Hadm, dict_get_value. }
  assert (forall point o, validate_variation_point point = Ok tt -> point_wf point -> validate_outcome o = Ok tt ->
    validate_selection_outcome point o = Ok tt -> admits_outcome point o) as Hadmits.
  { intros point o Hv Hw Ho Hs. destruct (selection_outcome_run point o Hw Hv Ho) as [(? & _ & _ & ?)|[_ [[_ ?]|[[msg Hm] _]]]]; congruence. }
  constructor; [done| | | | |].
  - constructor; [done|]. intros id p ref Hp Href. specialize (Hpolicy id p Hp). unfold _validate_policy_against_family in Hpolicy. unfold point_ref in Href.
    destruct (policy_kind p); try discriminate; injection Href as ->; apply bind_Ok in Hpolicy as (point & Hpt & _); apply resolve_point_Ok in Hpt; by exists point.
  - intros id p ref o point Hp Hk Hpt. specialize (Hpolicy id p Hp). specialize (Hvalid p (dict_get_value _ _ _ Hp)). unfold _validate_policy_against_family in Hpolicy.
    unfold validate_policy in Hvalid. rewrite Hk in *. apply bind_Ok in Hpolicy as (point' & Hpt' & Hs). apply resolve_point_Ok in Hpt'. assert (point' = point) as -> by congruence.
    apply bind_Ok in Hvalid as (u1 & _ & Hvalid). apply bind_Ok in Hvalid as ([] & Ho & _). destruct (Hpoints ref point Hpt). by apply Hadmits.
  - intros id p ref outcomes strata key o point Hp Hk Hpt Hkey. specialize (Hpolicy id p Hp). specialize (Hvalid p (dict_get_value _ _ _ Hp)).
    unfold _validate_policy_against_family in Hpolicy. unfold validate_policy in Hvalid. rewrite Hk in *. apply bind_Ok in Hpolicy as (point' & Hpt' & Hs).
    apply resolve_point_Ok in Hpt'. assert (point' = point) as -> by congruence. apply mfold_checks in Hs. rewrite Forall_forall in Hs.
    apply bind_Ok in Hvalid as (u1 & _ & Hvalid). apply bind_Ok in Hvalid as (u2 & Ho & _). apply mfold_checks in Ho. rewrite Forall_forall in Ho.
    destruct (Hpoints ref point Hpt). pose proof (dict_get_value _ _ _ Hkey). apply Hadmits; auto.
  - intros id p ref outcomes strata key stratum Hp Hk Hkey. specialize (Hvalid p (dict_get_value _ _ _ Hp)). unfold validate_policy in Hvalid. rewrite Hk in Hvalid.
    do 4 (apply bind_Ok in Hvalid as (? & _ & Hvalid)). unfold validate_strata in Hvalid. do 2 (apply bind_Ok in Hvalid as (? & _ & Hvalid)).
    apply bind_Ok in Hvalid as (u & Hrefs & _). apply raise_if_Ok in Hrefs. rewrite existsb_false in Hrefs. apply dict_get_is_Some, dec_stable. intros Hn.
    specialize (Hrefs stratum (dict_get_value _ _ _ Hkey)). by apply bool_decide_eq_false in Hrefs.
  - intros id p ref n control point Hp Hk Hpt. specialize (Hpolicy id p Hp). unfold _validate_policy_against_family in Hpolicy. rewrite Hk in Hpolicy.
    apply bind_Ok in Hpolicy as (point' & Hpt' & Hs). apply resolve_point_Ok in Hpt'. assert (point' = point) as -> by congruence.
    apply bind_Ok in Hs as (population & Hpop & _). by exists population.
Qed.

Section rows.
Context `{!RandomPackages} {Hlaws : Blake3Laws}.
Context (plan : ExperimentRunPlanModel) (family : ExpandedScenario) (limits : TrialCompilationLimitsModel).
Abbreviation ps := (selection_policies plan).
Context (Hwf : dict_wf ps) (Hadmitted : plan_admitted plan family).

(** A row before the fixed policies are added. *)
Definition row_formed (c : TrialCoordinateModel) (row : CoordinateSelections) : Prop :=
  NoDup (ids (selections row)) /\ Forall (offered ps family c) (selections row).

Lemma policy_key id p : ps !! id = Some p -> policy_id p = id.
Proof using Hadmitted. intros Hp. by apply (pf_keys _ (pa_plan _ _ Hadmitted)), dict_get_Some_in. Qed.

Lemma offered_intro c id p ref point o :
  ps !! id = Some p -> point_ref p = Some ref -> variation_points family !! ref = Some point -> policy_offers c point (policy_kind p) o ->
  offered ps family c (resolved_selection p ref o).
Proof using Hadmitted. intros Hp Href Hpt Ho. exists p, point. cbn. by rewrite (policy_key id p Hp). Qed.

Lemma fixed_offered c id p ref o : ps !! id = Some p -> policy_kind p = FixedPolicy ref o -> offered ps family c (resolved_selection p ref o).
Proof using Hadmitted.
  intros Hp Hk. assert (point_ref p = Some ref) as Href by (unfold point_ref; by rewrite Hk).
  destruct (ff_declared _ _ (pa_family _ _ Hadmitted) id p ref Hp Href) as [point Hpt]. eapply offered_intro; [done..|]. rewrite Hk. constructor.
  by eapply pa_fixed.
Qed.

Lemma produces_offered c : forall id row, produces plan family id row -> Forall (offered ps family c) row.
Proof using Hadmitted.
  fix IH 3. intros id row [id' p ref o Hp Hk|id' p ref point o Hp Hk Hpt Ho|id' p refs parts Hp Hk Hparts].
  - constructor; [|constructor]. by eapply fixed_offered.
  - constructor; [|constructor]. eapply offered_intro; [done| |done|]; [unfold point_ref; by rewrite Hk|]. rewrite Hk. by constructor.
  - clear Hp Hk. revert refs parts Hparts. fix IHparts 3. intros refs parts [|r part l ls Hr Hrest]; [constructor|]. cbn [concat].
    apply Forall_app. split; [by apply (IH r)|by apply (IHparts l)].
Qed.

Lemma static_root_run id :
  id ∈ dict_keys ps ->
  match _static_rows (S (length (dict_keys ps))) id family ps limits with
  | Ok rows => Forall (fun row => NoDup (ids row) /\ forall c, Forall (offered ps family c) row) rows
  | Raise e => reported e
  end.
Proof using Hwf Hadmitted.
  intros Hid. pose proof (static_rows_run plan family limits Hwf (pa_plan _ _ Hadmitted) (pa_family _ _ Hadmitted) (S (length (dict_keys ps))) id []) as Hrun.
  destruct (_static_rows _ _ _ _ _) as [rows|e].
  - destruct Hrun as [_ _ [Hc _] _ Hsound]; [done|constructor|by intros ? ?%not_elem_of_nil|by intros ? ?%not_elem_of_nil|cbn; lia|].
    apply Forall_forall. intros row Hrow. rewrite Forall_forall in Hc. split; [by apply Hc|]. intros c. destruct (Hsound row Hrow) as (row' & Hprod & ->).
    by eapply produces_offered.
  - apply Hrun; [done|constructor|by intros ? ?%not_elem_of_nil|by intros ? ?%not_elem_of_nil|cbn; lia].
Qed.

Lemma stratified_rows_run id p ref outcomes strata coordinates :
  ps !! id = Some p -> policy_kind p = StratifiedPolicy ref outcomes strata ->
  match _stratified_rows id ref outcomes strata coordinates with Ok rows => Forall2 row_formed coordinates rows | Raise e => reported e end.
Proof using Hadmitted.
  intros Hp Hk. assert (point_ref p = Some ref) as Href by (unfold point_ref; by rewrite Hk).
  destruct (ff_declared _ _ (pa_family _ _ Hadmitted) id p ref Hp Href) as [point Hpt].
  assert (forall counts rows pre, Forall2 row_formed pre rows ->
    match mfold (stratum_row id ref outcomes strata) (rows, counts) coordinates with
    | Ok st => Forall2 row_formed (pre ++ coordinates) st.1 | Raise e => reported e end) as Hfold.
  { induction coordinates as [|c l IH]; intros counts rows pre Hrows; [by rewrite app_nil_r|]. cbn [mfold].
    destruct (stratum_row id ref outcomes strata (rows, counts) c) as [[rows' counts']|e] eqn:Hrow; unfold stratum_row in Hrow; cbn [mbind result_bind];
      (destruct (strata !! default "" (condition_id c)) as [stratum|] eqn:Hs; [|try discriminate; injection Hrow as <-; apply reported_failure]);
      destruct (pa_strata _ _ Hadmitted id p ref outcomes strata _ stratum Hp Hk Hs) as [o Ho];
      rewrite (proj2 (dict_index_Ok _ _ _) Ho) in Hrow; [|discriminate]. cbn [mbind result_bind fst snd] in Hrow. injection Hrow as <- _.
    replace (pre ++ c :: l) with ((pre ++ [c]) ++ l) by by rewrite <-app_assoc.
    apply IH. apply Forall2_app; [done|]. constructor; [|constructor]. split; [apply NoDup_singleton|]. constructor; [|constructor].
    exists p, point. cbn. split_and!; [done|by rewrite Hk|done|done|]. rewrite Hk. econstructor; [exact Hs|exact Ho|]. by eapply pa_stratified. }
  unfold _stratified_rows. specialize (Hfold dict_empty [] [] ltac:(constructor)).
  destruct (mfold _ _ coordinates) as [st|e]; cbn [mbind result_bind]; [|done].
  destruct (existsb _ _); cbn [raise_if mbind result_bind]; [apply reported_failure|done].
Qed.
Lemma population_bound point n (outs : list SelectionOutcome) :
  _finite_policy_population point = Ok n -> (forall k, _domain_cardinality point = Ok k -> k = py_len outs) -> py_len outs <= MAX_SELECTION_OUTPUT_BOUND.
Proof using.
  unfold _finite_policy_population. intros (k & Hk & Hr)%bind_Ok Hlen. apply bind_Ok in Hr as (u & Hb & _). apply raise_if_Ok in Hb.
  rewrite <-(Hlen k); [lia|]. destruct point as [d|d|refs|alternatives|? ? ?|?]; try done.
  all: cbn [_domain_cardinality]; destruct d as [v|values|b|d]; try done; cbn [scalar_domain_cardinality _integer_interval_cardinality] in Hk;
    destruct (decide (numeric_type d = INTEGER)) as [Ht|]; [|done]; apply bind_Ok in Hk as (u' & Hc & Hk); apply raise_if_Ok in Hc;
    cbn [_scalar_domain_cardinality]; unfold _integer_interval_bounds; rewrite bool_decide_eq_false_2 by (intros Hn0; done); cbn [raise_if mbind result_bind];
    f_equal; assert (k = (interval_bounds d).2 - (interval_bounds d).1 + 1) as -> by congruence; lia.
Qed.

Lemma domain_outcomes_length point maximum outs :
  canonical_domain_outcomes point maximum = Ok outs -> validate_variation_point point = Ok tt -> point_wf point ->
  forall k, _domain_cardinality point = Ok k -> k = py_len outs.
Proof using.
  unfold canonical_domain_outcomes. intros (k & Hk & Hrun)%bind_Ok Hv Hw k' Hk'. assert (k' = k) as -> by congruence.
  apply bind_Ok in Hrun as (u1 & _ & Hrun). apply bind_Ok in Hrun as (u2 & _ & Hrun).
  destruct point as [d|d|refs|alternatives|? ? ?|?]; cbn [domain_outcomes _domain_cardinality validate_variation_point] in *; try done.
  - apply bind_Ok in Hrun as (l & Hl & [= <-]). pose proof (scalar_values_run d Hv) as Hr. rewrite Hl in Hr. destruct Hr as (_ & _ & Hlen).
    unfold literal_outcomes, py_len. rewrite length_fmap. by apply Hlen.
  - apply bind_Ok in Hrun as (l & Hl & [= <-]). pose proof (scalar_values_run d Hv) as Hr. rewrite Hl in Hr. destruct Hr as (_ & _ & Hlen).
    unfold literal_outcomes, py_len. rewrite length_fmap. by apply Hlen.
  - injection Hrun as <-. injection Hk as <-. unfold py_len. by rewrite length_fmap, length_py_sorted.
  - injection Hrun as <-. injection Hk as <-. unfold py_len. by rewrite length_fmap, length_py_sorted.
Qed.

Lemma safe_draw_record d : safe (validate_draw_record d).
Proof using.
  unfold validate_draw_record. apply safe_bind; [apply safe_fields|]. intros _ _. do 3 (apply safe_bind; [apply safe_raise_if, reported_value|]; intros _ _). done.
Qed.

Lemma sample_row_run c id p ref n control point control_id outs a d :
  ps !! id = Some p -> policy_kind p = SamplePolicy ref n control -> variation_points family !! ref = Some point ->
  (forall o, o ∈ outs -> domain_holds point o) -> (forall v, value d = Some v -> 0 <= v <= py_len outs - 1) ->
  match sample_row control_id id ref outs (a, d) with Ok row => row_formed c row | Raise e => reported e end.
Proof using.
  intros Hp Hk Hpt Houts Hd. unfold sample_row. cbn [fst snd]. destruct (rejection_exhausted d); [apply reported_failure|].
  destruct (value d) as [v|]; [|apply reported_failure]. destruct (py_index_run outs v) as (o & -> & Ho); [specialize (Hd v eq_refl); lia|]. cbn [mbind result_bind].
  match goal with |- context [validate_draw_record ?r] => pose proof (safe_draw_record r) as Hs; destruct (validate_draw_record r) as [record|e] end;
    cbn [mbind result_bind]; [|done]. split; [apply NoDup_singleton|]. constructor; [|constructor]. exists p, point. cbn.
  split_and!; [done|by rewrite Hk|unfold point_ref; by rewrite Hk|done|]. rewrite Hk. constructor. by apply Houts.
Qed.

Lemma sample_rows_run id p ref n control controls coordinates :
  ps !! id = Some p -> policy_kind p = SamplePolicy ref n control ->
  match _sample_rows id ref control family controls coordinates limits with Ok rows => Forall2 row_formed coordinates rows | Raise e => reported e end.
Proof using Hadmitted Hlaws.
  intros Hp Hk. assert (point_ref p = Some ref) as Href by (unfold point_ref; by rewrite Hk).
  destruct (ff_declared _ _ (pa_family _ _ Hadmitted) id p ref Hp Href) as [point Hpt]. destruct (ff_points _ _ (pa_family _ _ Hadmitted) ref point Hpt) as [Hv Hw].
  unfold _sample_rows.
  assert (match _resolve_sample_control id control controls with Ok r => cb_profile_ref_id r.1.2 = RANDOM_STREAM_PROFILE_ID | Raise e => reported e end) as Hresolve.
  { unfold _resolve_sample_control. destruct (List.find _ controls) as [sc|]; [|apply reported_failure]. destruct (sc_executable_binding sc) as [b|]; [|apply reported_failure].
    destruct (bool_decide (cb_profile_ref_id b <> _) || _) eqn:Hb; cbn [raise_if mbind result_bind]; [apply reported_failure|].
    destruct (cb_root_entropy b); [|apply reported_failure]. cbn. apply orb_false_iff in Hb as [Hb _]. apply bool_decide_eq_false in Hb. by apply dec_stable. }
  destruct (_resolve_sample_control id control controls) as [[[sc binding] seed]|e]; cbn [mbind result_bind fst snd] in *; [|done]. rewrite Hresolve.
  change (load_bounded_integer_transform RANDOM_STREAM_PROFILE_ID) with (Ok ("1", 32)). cbn [mbind result_bind snd].
  rewrite (proj2 (dict_index_Ok _ _ _) Hpt). cbn [mbind result_bind].
  pose proof (canonical_domain_run point (max_domain_values_per_point limits) Hv Hw) as Hdom.
  destruct (canonical_domain_outcomes _ _) as [outs|e] eqn:Houts; cbn [mbind result_bind]; [|done]. destruct Hdom as (_ & Hne & _ & Hin).
  destruct (pa_sampled _ _ Hadmitted id p ref n control point Hp Hk Hpt) as [population Hpop].
  pose proof (population_bound _ _ outs Hpop (domain_outcomes_length _ _ _ Houts Hv Hw)) as Hbound.
  assert (1 <= py_len outs) as Hpos by (destruct outs; [done|unfold py_len; cbn [length]; lia]).
  assert (RANDOM_STREAM_PROFILE_ID ∈ SUPPORTED_RANDOM_STREAM_PROFILE_IDS) as Hsup by (right; left).
  pose proof (root_key_run seed _ Hsup) as Hkey.
  destruct (decode_public_seed seed) as [root|e]; cbn [mbind result_bind] in *; [|done].
  destruct (derive_stream_key _ root) as [key|e]; cbn [mbind result_bind]; [|done].
  assert (match mmap (sample_draw_address (cb_namespace binding) id ref) coordinates with
    | Ok addresses => length addresses = length coordinates /\ Forall (fun a => sa_local_coordinate a = 0) addresses | Raise e => reported e end) as Haddr.
  { destruct (mmap _ coordinates) as [addresses|e] eqn:Ha.
    - split; [by apply mmap_length in Ha|]. apply mmap_Forall2 in Ha. eapply Forall2_Forall_r; [exact Ha|]. apply Forall_true. intros c a Hc.
      unfold sample_draw_address, validate_stream_address in Hc. apply bind_Ok in Hc as (u1 & _ & Hc). by apply bind_Ok in Hc as (u2 & _ & [= <-]).
    - assert (safe (mmap (sample_draw_address (cb_namespace binding) id ref) coordinates)) as Hs; [|by rewrite Ha in Hs]. apply safe_mmap. intros c _.
      unfold sample_draw_address, validate_stream_address. apply safe_bind; [apply safe_fields|]. intros _ _. apply safe_bind; [apply safe_raise_if, reported_value|done]. }
  destruct (mmap _ coordinates) as [addresses|e]; cbn [mbind result_bind]; [|done]. destruct Haddr as [Hlen Hlocal].
  pose proof (batch_draws RANDOM_STREAM_PROFILE_ID key addresses (py_len outs - 1) Hsup Hkey) as Hbatch.
  destruct (draw_bounded_integer_batch _ _ _) as [batch|e]; cbn [mbind result_bind].
  2: { apply Hbatch; [unfold MAX_SELECTION_OUTPUT_BOUND in Hbound; lia|done]. }
  destruct (batch_diagnostic batch); [apply reported_failure|]. destruct (draws batch) as [drawn|] eqn:Hdrawn; [|apply reported_failure].
  destruct (Hbatch ltac:(unfold MAX_SELECTION_OUTPUT_BOUND in Hbound; lia) Hlocal drawn eq_refl) as [Hlen' Hrange]. clear Hbatch Hdrawn.
  assert (length drawn = length coordinates) as Hl by lia. clear Hlen Hlocal.
  assert (forall cs ad, length ad = length cs -> Forall (fun x => forall v, value x.2 = Some v -> 0 <= v <= py_len outs - 1) ad ->
    match mmap (sample_row (sc_control_id sc) id ref outs) ad with Ok rows => Forall2 row_formed cs rows | Raise e => reported e end) as Hrows.
  { induction cs as [|c cs IH]; intros [|[a d] ad] Had Hall; try done; [constructor|]. apply Forall_cons in Hall as [Hd Hall]. cbn [mmap].
    pose proof (sample_row_run c id p ref n control point (sc_control_id sc) outs a d Hp Hk Hpt (fun o Ho => proj1 (Hin o) Ho) Hd) as Hrow.
    destruct (sample_row _ _ _ _ _) as [row|e]; cbn [mbind result_bind]; [|done]. specialize (IH ad ltac:(cbn in Had; lia) Hall).
    destruct (mmap _ ad) as [rows|e]; cbn [mbind result_bind]; [by constructor|done]. }
  apply Hrows; [rewrite length_zip; lia|]. apply Forall_forall. intros [a d] Had. apply elem_of_zip_r in Had. rewrite Forall_forall in Hrange. by apply Hrange.
Qed.
Lemma root_rows_run id controls coordinates :
  id ∈ dict_keys ps ->
  match root_rows ps id family controls coordinates limits with Ok rows => Forall2 row_formed coordinates rows | Raise e => reported e end.
Proof using Hwf Hadmitted Hlaws.
  intros Hid. apply dict_get_is_Some in Hid as Hsome. destruct Hsome as [p Hp]. unfold root_rows. rewrite (proj2 (dict_index_Ok _ _ _) Hp).
  cbn [mbind result_bind]. rewrite (policy_key id p Hp).
  assert (match (static ← _static_rows (S (length (dict_keys ps))) id family ps limits;
      _ ← raise_if (negb (py_len static =? py_len coordinates)) (CompilationFailure "policy-cardinality-mismatch" (policy_address id)
            "selection policy output does not exactly cover the logical coordinates"); Ok (undrawn_rows static)) with
    | Ok rows => Forall2 row_formed coordinates rows | Raise e => reported e end) as Hstatic.
  { pose proof (static_root_run id Hid) as Hrun. destruct (_static_rows _ _ _ _ _) as [rows|e]; cbn [mbind result_bind]; [|done].
    destruct (Z.eqb_spec (py_len rows) (py_len coordinates)) as [Hlen|]; cbn [negb raise_if mbind result_bind]; [|apply reported_failure].
    unfold undrawn_rows, py_len in *. clear -Hrun Hlen. revert coordinates Hlen. induction Hrun as [|row rows [Hn Ho] _ IH]; intros [|c cs] Hlen; try done.
    constructor; [split; [done|by apply Ho]|]. apply IH. cbn [length] in Hlen. lia. }
  destruct (policy_kind p) as [| | |ref outcomes strata|ref n control] eqn:Hk; [done..| |].
  - by eapply stratified_rows_run.
  - by eapply sample_rows_run.
Qed.

Lemma policy_roots_in id : id ∈ policy_roots ps -> id ∈ dict_keys ps.
Proof using. unfold policy_roots. rewrite elem_of_py_sorted, elem_of_bool_filter. tauto. Qed.

Lemma fixed_additions_run roots :
  (forall id, id ∈ roots -> id ∈ dict_keys ps) ->
  exists additions, mmap (fixed_addition ps) (List.filter (root_kind_is true ps) roots) = Ok additions /\
    forall c, Forall (offered ps family c) additions.
Proof using Hadmitted.
  intros Hin. induction roots as [|id roots IH]; [by exists []|]. destruct IH as (additions & Hrun & Hoff); [intros i Hi; apply Hin; by right|].
  cbn [List.filter]. destruct (root_kind_is true ps id) eqn:Hkind; [|by exists additions]. cbn [mmap]. unfold root_kind_is in Hkind.
  destruct (ps !! id) as [p|] eqn:Hp; [|done]. unfold is_fixed in Hkind. destruct (policy_kind p) as [ref o| | | |] eqn:Hk; try done.
  assert (fixed_addition ps id = Ok (Resolved ref (policy_id p) "fixed" o)) as ->
    by (unfold fixed_addition; rewrite (proj2 (dict_index_Ok _ _ _) Hp); cbn [mbind result_bind]; by rewrite Hk).
  rewrite Hrun. cbn [mbind result_bind]. eexists. split; [done|].
  intros c. constructor; [|done]. pose proof (fixed_offered c id p ref o Hp Hk) as Hf. unfold resolved_selection in Hf. by rewrite Hk in Hf.
Qed.

(** A complete row selects every point of the family once. *)
Definition row_complete (c : TrialCoordinateModel) (row : CoordinateSelections) : Prop :=
  ids (selections row) = py_sorted (dict_keys (variation_points family)) /\ Forall (offered ps family c) (selections row).

Lemma complete_rows additions coordinates rows :
  (forall c, Forall (offered ps family c) additions) -> Forall2 row_formed coordinates rows ->
  match mmap (fun row => merged ← _merge_rows (selections row) additions; Ok (Selections merged (row_draws row))) rows with
  | Ok completed => Forall2 (fun c row => canonical (selections row) /\ Forall (offered ps family c) (selections row)) coordinates completed
  | Raise e => reported e
  end.
Proof using.
  intros Hadd. induction 1 as [|c row cs rows [Hn Hoff] _ IH]; [constructor|]. cbn [mmap].
  destruct (merge_rows_run (selections row) additions Hn) as [(_ & out & -> & Hc & Hp)|[_ ->]]; cbn [mbind result_bind]; [|apply reported_failure].
  destruct (mmap _ rows) as [completed|e]; cbn [mbind result_bind]; [|done]. constructor; [|done]. cbn [selections]. split; [done|].
  rewrite Hp. apply Forall_app. by split.
Qed.

Lemma compile_selections_run spec coordinates :
  run_plan spec = plan -> dict_wf (variation_points family) ->
  match compile_coordinate_selections family spec coordinates limits with
  | Ok rows => Forall2 row_complete coordinates rows
  | Raise e => reported e
  end.
Proof using Hwf Hadmitted Hlaws.
  intros Hspec Hkeys. unfold compile_coordinate_selections. rewrite Hspec.
  assert (Forall2 row_formed coordinates ((fun _ => Selections [] []) <$> coordinates)) as Huniform.
  { clear. induction coordinates as [|c l IH]; constructor; [|done]. split; constructor. }
  set (roots := policy_roots ps). pose proof policy_roots_in as Hroots. fold roots in Hroots.
  assert (match match List.filter (root_kind_is false ps) roots with
      | [] => Ok ((fun _ => Selections [] []) <$> coordinates)
      | [root] => root_rows ps root family (stochastic_controls plan) coordinates limits
      | _ => Raise (CompilationFailure "policy-roots-ambiguous" _SELECTION_POLICIES_ADDRESS "multiple non-fixed selection policy roots are ambiguous")
      end with Ok rows => Forall2 row_formed coordinates rows | Raise e => reported e end) as Hrows.
  { assert (forall id, id ∈ List.filter (root_kind_is false ps) roots -> id ∈ dict_keys ps) as Hin by (intros id [Hid _]%elem_of_bool_filter; by apply Hroots).
    destruct (List.filter (root_kind_is false ps) roots) as [|root [|? ?]]; [done| |apply reported_failure]. apply root_rows_run, Hin. left. }
  destruct (match List.filter (root_kind_is false ps) roots with [] => _ | _ => _ end) as [rows|e]; cbn [mbind result_bind]; [|done].
  destruct (fixed_additions_run roots Hroots) as (additions & -> & Hadd). cbn [mbind result_bind].
  pose proof (complete_rows additions coordinates rows Hadd Hrows) as Hc.
  destruct (mmap _ rows) as [completed|e]; cbn [mbind result_bind]; [|done].
  destruct (existsb _ completed) eqn:Hex; cbn [raise_if mbind result_bind]; [apply reported_failure|]. rewrite existsb_false in Hex.
  assert (Forall (fun row => (list_to_set (ids (selections row)) : gset string) = list_to_set (dict_keys (variation_points family))) completed) as Hsets.
  { apply Forall_forall. intros row Hrow. specialize (Hex row Hrow). apply negb_false_iff, bool_decide_eq_true in Hex. done. }
  clear Hex Hrows Huniform. induction Hc as [|c row cs completed [[Hs Hn] Hoff] _ IH]; [constructor|]. apply Forall_cons in Hsets as [Hset Hsets].
  constructor; [|by apply IH]. split; [|done]. apply (StronglySorted_unique String.le); [done|apply py_sorted_sorted|]. rewrite py_sorted_perm.
  apply NoDup_Permutation; [done..|]. intros x. pose proof (elem_of_list_to_set (C := gset string) x (ids (selections row))) as H1.
  rewrite Hset, elem_of_list_to_set in H1. tauto.
Qed.
End rows.

(** ** Coordinates *)

(** The conditions of an allocation with the runs of each; a plan without an
    allocation has one condition without a name. *)
Definition planned_conditions (allocation : option ExperimentRunAllocationPlanModel) : list string :=
  match allocation with Some a => compared_conditions a | None => [""] end.
Definition planned_runs (allocation : option ExperimentRunAllocationPlanModel) (target_run_count : option Z) : Z :=
  match allocation with Some a => target_runs_per_condition a | None => default 0 target_run_count end.
Definition allocation_valid (allocation : option ExperimentRunAllocationPlanModel) (target_run_count : option Z) : Prop :=
  match allocation with Some a => validate_allocation a = Ok tt | None => exists n, target_run_count = Some n /\ 1 <= n end.

Lemma allocation_formed a : validate_allocation a = Ok tt -> compared_conditions a <> [] /\ NoDup (compared_conditions a) /\ 1 <= target_runs_per_condition a.
Proof.
  unfold validate_allocation. intros (u & Hf & H)%bind_Ok. apply require_fields_Ok in Hf. rewrite !Forall_cons in Hf. cbn [snd] in Hf.
  destruct Hf as (Hc & _ & Hn & _). apply bind_Ok in H as (u' & Hu & _). apply raise_if_Ok, negb_false_iff, py_unique_true in Hu.
  apply andb_true_iff in Hc as [Hc _]. apply bool_decide_eq_true in Hc. apply at_least_true in Hn. done.
Qed.

Lemma safe_coordinates allocation target limits : safe (coordinates allocation target limits).
Proof.
  unfold coordinates. destruct allocation as [a|];
    (apply safe_bind; [apply safe_raise_if, reported_failure|]; intros _ _; apply safe_bind; [apply safe_raise_if, reported_failure|]; intros _ _).
  - apply (safe_mfold (fun _ => True)); [done|]. intros s c _ _. split; [|done]. apply safe_bind; [|done]. apply safe_mmap. intros n _. apply safe_replicate_coordinate.
  - apply safe_mmap. intros n _. apply safe_replicate_coordinate.
Qed.

Lemma mmap_total {A B} (f : A -> result B) l : (forall a, a ∈ l -> exists b, f a = Ok b) -> exists l', mmap f l = Ok l'.
Proof.
  induction l as [|a l IH]; intros H; [by exists []|]. cbn [mmap]. destruct (H a ltac:(left)) as [b ->]. destruct IH as [l' ->]; [intros x Hx; apply H; by right|].
  by exists (b :: l').
Qed.

Lemma replicate_id_total n : 1 <= n < 1000000 -> exists id, TrialPlan.replicate_id n = Ok id.
Proof.
  intros Hn. unfold TrialPlan.replicate_id. destruct (Z.ltb_spec n 1); [lia|]. change (10 ^ Z.of_nat REPLICATE_ID_WIDTH) with 1000000.
  destruct (Z.leb_spec 1000000 n); [lia|]. cbn [orb raise_if mbind result_bind]. by eexists.
Qed.

Lemma replicates_total cond k : optional_identifier cond = true -> k < 1000000 -> exists batch, mmap (replicate_coordinate cond) (seqZ 1 k) = Ok batch.
Proof.
  intros Hc Hk. apply mmap_total. intros n Hn%elem_of_seqZ. destruct (replicate_id_total n) as [id Hid]; [lia|].
  eexists. apply replicate_coordinate_Ok. split; [done|]. by exists id.
Qed.

(** The keys of produced coordinates, condition by condition. *)
Lemma coordinates_keys allocation target limits cs :
  allocation_valid allocation target -> coordinates allocation target limits = Ok cs ->
  exists l, mmap canonical_coordinate_sort_key cs = Ok (condition_keys (planned_runs allocation target) l) /\ l ≡ₚ planned_conditions allocation /\
    StronglySorted String.le l /\ NoDup l /\ 0 <= planned_runs allocation target /\ py_len l * planned_runs allocation target <= max_coordinates limits.
Proof.
  intros Hvalid Hrun. unfold coordinates in Hrun. destruct allocation as [a|]; cbn [planned_conditions planned_runs allocation_valid] in *.
  - apply allocation_formed in Hvalid as (_ & Hn & Hpos). apply bind_Ok in Hrun as (u & _ & Hrun). apply bind_Ok in Hrun as (u' & Hlim & Hrun).
    apply raise_if_Ok, Z.ltb_ge in Hlim. exists (py_sorted (compared_conditions a)). split_and!; [by apply conditions_run|apply py_sorted_perm|apply py_sorted_sorted| |lia|].
    + by apply NoDup_py_sorted.
    + unfold py_len. rewrite length_py_sorted. fold (py_len (compared_conditions a)). pose proof (Z.mul_div_le (max_coordinates limits) (target_runs_per_condition a)). nia.
  - destruct Hvalid as (n & -> & Hn). change (default 0 (Some n)) with n in *. apply bind_Ok in Hrun as (u & _ & Hrun). apply bind_Ok in Hrun as (u' & Hlim & Hrun).
    apply raise_if_Ok, Z.ltb_ge in Hlim. apply replicates_keys in Hrun. exists [""]. unfold condition_keys. cbn [flat_map]. rewrite app_nil_r.
    split_and!; [done|done|repeat constructor|repeat constructor; set_solver|lia|unfold py_len; cbn [length]; lia].
Qed.

Lemma coordinates_total allocation target limits :
  allocation_valid allocation target -> py_len (planned_conditions allocation) * planned_runs allocation target <= max_coordinates limits ->
  planned_runs allocation target < 1000000 -> (allocation <> None -> forallb is_portable_identifier (planned_conditions allocation) = true) ->
  exists cs, coordinates allocation target limits = Ok cs.
Proof.
  intros Hvalid Hlimit Hruns Hids. unfold coordinates. destruct allocation as [a|]; cbn [planned_conditions planned_runs allocation_valid] in *.
  - apply allocation_formed in Hvalid as (Hne & Hn & Hpos). specialize (Hids ltac:(done)).
    assert (1 <= py_len (compared_conditions a)) as Hcount by (destruct (compared_conditions a); [done|unfold py_len; cbn [length]; lia]).
    rewrite (proj2 (Z.eqb_neq (py_len _) 0)), (proj2 (Z.eqb_neq (target_runs_per_condition a) 0)) by lia. cbn [orb raise_if mbind result_bind].
    rewrite (proj2 (Z.ltb_ge _ _)) by (apply Z.div_le_lower_bound; nia). cbn [raise_if mbind result_bind].
    assert (forall c, c ∈ py_sorted (compared_conditions a) -> is_portable_identifier c = true) as Hall.
    { intros c Hc. rewrite elem_of_py_sorted in Hc. eapply forallb_forall in Hids; [done|by apply list_elem_of_In]. }
    generalize (@nil TrialCoordinateModel) as output. induction (py_sorted (compared_conditions a)) as [|c l IH]; intros output; [by exists output|]. cbn [mfold].
    destruct (replicates_total (Some c) (target_runs_per_condition a)) as [batch ->]; [cbn; apply Hall; left|done|]. cbn [mbind result_bind].
    apply IH. intros x Hx. apply Hall. by right.
  - destruct Hvalid as (n & -> & Hn). change (default 0 (Some n)) with n in *. change (py_len [""]) with 1 in Hlimit. rewrite (proj2 (Z.eqb_neq n 0)) by lia. cbn [raise_if mbind result_bind].
    rewrite (proj2 (Z.ltb_ge _ _)) by lia. cbn [raise_if mbind result_bind]. by apply replicates_total.
Qed.

(** C37: the logical coordinates of a valid allocation are one per condition and
    run, in the strict canonical order of their keys, which are the conditions
    with the ordinals the replicate identifiers decode to; there are never more
    than the limit. None are refused that fit it when there are fewer than a
    million runs, which the identifier width holds, and the allocated conditions
    are portable identifiers; any refusal is an exception the compiler reports. *)
Theorem coordinates_exact allocation target limits (Hvalid : allocation_valid allocation target) :
  let conditions := planned_conditions allocation in
  let runs := planned_runs allocation target in
  match coordinates allocation target limits with
  | Ok cs => py_len cs = py_len conditions * runs /\ py_len cs <= max_coordinates limits /\
      exists keys, mmap canonical_coordinate_sort_key cs = Ok keys /\ StronglySorted key_lt keys /\
        forall c n, (c, n) ∈ keys <-> c ∈ conditions /\ 1 <= n <= runs
  | Raise e => reported e
  end /\
  (py_len conditions * runs <= max_coordinates limits -> runs < 1000000 ->
   (allocation <> None -> forallb is_portable_identifier conditions = true) -> is_ok (coordinates allocation target limits) = true).
Proof.
  cbn zeta. split; [|intros; by apply is_ok_exists, coordinates_total].
  pose proof (safe_coordinates allocation target limits) as Hsafe. destruct (coordinates allocation target limits) as [cs|e] eqn:Hrun; [|done].
  destruct (coordinates_keys _ _ _ _ Hvalid Hrun) as (l & Hkeys & Hp & Hs & Hn & Hpos & Hmax).
  assert (py_len cs = py_len (planned_conditions allocation) * planned_runs allocation target) as Hlen.
  { apply mmap_length in Hkeys. unfold py_len. rewrite <-Hkeys. fold (py_len (condition_keys (planned_runs allocation target) l)).
    rewrite length_condition_keys by done. unfold py_len. by rewrite Hp. }
  split; [done|]. split; [rewrite Hlen; unfold py_len in *; by rewrite <-Hp|]. eexists. split; [exact Hkeys|]. split; [by apply condition_keys_sorted|].
  intros c n. rewrite <-Hp. unfold condition_keys. rewrite list_elem_of_In, in_flat_map. split.
  - intros (c' & Hc & Hin). apply list_elem_of_In in Hc, Hin. apply list_elem_of_fmap in Hin as (m & [= -> ->] & Hm%elem_of_seqZ). split; [done|lia].
  - intros [Hc Hm]. exists c. rewrite <-!list_elem_of_In. split; [done|]. apply list_elem_of_fmap. exists n. split; [done|]. apply elem_of_seqZ. lia.
Qed.

(** Two conditions of two runs, out of order. *)
Definition sample_allocation : ExperimentRunAllocationPlanModel :=
  Allocation ["treated"; "control"] (dict_of_list [("control", dict_empty); ("treated", dict_empty)]) 2.
Definition sample_limits : TrialCompilationLimitsModel := Limits 10000 10000 10000 256 256.

Lemma coordinates_exact_witness :
  match coordinates (Some sample_allocation) None sample_limits with
  | Ok cs => py_len cs = 4 /\ exists keys, mmap canonical_coordinate_sort_key cs = Ok keys /\ StronglySorted key_lt keys
  | Raise _ => False
  end.
Proof.
  pose proof (coordinates_exact (Some sample_allocation) None sample_limits ltac:(reflexivity)) as [H Hok].
  specialize (Hok ltac:(vm_compute; discriminate) ltac:(reflexivity) ltac:(reflexivity)).
  destruct (coordinates (Some sample_allocation) None sample_limits) as [cs|e]; [|discriminate].
  destruct H as (Hlen & _ & keys & Hkeys & Hs & _). split; [exact Hlen|exists keys; exact (conj Hkeys Hs)].
Defined.

(** ** Rows of selections *)

(** An experiment over three points: a product of a mode and a flag, with a fixed
    image. *)
Module TrialSample.
Definition policy (id : string) (bound : Z) (kind : PolicyKind) : ExperimentSelectionPolicyModel := SelectionPolicy id NUISANCE_VARIATION bound [] kind.
Definition sample_policies : policies := dict_of_list
  [("modes", policy "modes" 2 (EnumeratePolicy "mode")); ("flags", policy "flags" 2 (EnumeratePolicy "flag"));
   ("all", policy "all" 4 (ProductPolicy ["modes"; "flags"])); ("image", policy "image" 1 (FixedPolicy "image" (ReferenceOutcome "ref.debian")))].
Definition plan : ExperimentRunPlanModel := RunPlan [] None (Some 4) sample_policies.
Definition spec : ExperimentSpecModel := ExperimentSpec plan (Some ("scenario", "family")) dict_empty None.
Definition family : ExpandedScenario := Family "family" true (dict_of_list
  [("mode", AlternativeVariationPoint (dict_of_list [("fast", "ref.fast"); ("slow", "ref.slow")]));
   ("flag", ParameterVariationPoint (BooleanDomain None)); ("image", GovernedReferenceVariationPoint ["ref.debian"; "ref.alpine"])]).
Definition trials : list TrialCoordinateModel := match coordinates None (Some 4) sample_limits with Ok cs => cs | Raise _ => [] end.

Lemma policies_wf : dict_wf sample_policies.
Proof. apply dict_wf_of_list. Qed.
Lemma points_wf : dict_wf (variation_points family).
Proof. apply dict_wf_of_list. Qed.
Lemma points_ok : points_formed family.
Proof.
  intros ref point Hpt%dict_get_Some_in. vm_compute in Hpt. repeat (apply elem_of_cons in Hpt as [[= -> ->]|Hpt]; [split; [vm_compute; reflexivity|exact I || vm_decide]|]).
  by apply not_elem_of_nil in Hpt.
Qed.
Lemma plan_ok : validate_run_plan plan = Ok tt.
Proof. vm_compute. reflexivity. Qed.
Lemma admitted : validate_experiment_selection_against_family spec family = Ok tt.
Proof. vm_compute. reflexivity. Qed.
Lemma plan_is_formed : plan_formed plan.
Proof. apply run_plan_formed, plan_ok. Qed.
Lemma family_is_formed : family_formed sample_policies family.
Proof. apply (pa_family _ _ (plan_is_admitted spec family points_ok plan_ok admitted)). Qed.
End TrialSample.

(** C38: the static rows of a policy of a validated plan are exactly the
    selections it stands for, each combination of its dimensions once and in the
    order of its points; the recursion through nested products always returns,
    and every refusal is one the compiler reports. *)
Theorem static_rows_exact {packages : RandomPackages} plan family limits id :
  dict_wf (selection_policies plan) -> plan_formed plan -> family_formed (selection_policies plan) family -> id ∈ dict_keys (selection_policies plan) ->
  match _static_rows (S (length (dict_keys (selection_policies plan)))) id family (selection_policies plan) limits with
  | Ok rows => rows_exact plan family id rows
  | Raise e => reported e
  end.
Proof.
  intros Hwf Hplan Hfamily Hid. apply (static_rows_run plan family limits Hwf Hplan Hfamily _ id []); [done|constructor| | |cbn; lia];
    by intros u ?%not_elem_of_nil.
Qed.

Lemma static_rows_exact_witness :
  exists rows, length rows = 4%nat /\ rows_exact TrialSample.plan TrialSample.family "all" rows.
Proof.
  pose proof (static_rows_exact (packages := RandomSample.packages) TrialSample.plan TrialSample.family sample_limits "all" TrialSample.policies_wf
    TrialSample.plan_is_formed TrialSample.family_is_formed ltac:(vm_decide)) as H.
  destruct (_static_rows _ _ _ _ _) as [rows|e] eqn:Hrun; [|vm_compute in Hrun; discriminate].
  exists rows. split; [|exact H]. vm_compute in Hrun. injection Hrun as <-. reflexivity.
Defined.

(** C39: for a validated plan admitted against a validated family, the compiled
    selections give every coordinate a row that selects every variation point
    exactly once, in order, and every selection is one its policy offers that
    coordinate and its point admits (an integer of an interval as the float it
    converts to): the fixed outcome, a value of the finite domain, the outcome of
    the stratum of the coordinate, or a drawn value.
    Anything else is refused with an exception the compiler reports. *)
Theorem trial_selections_exact {packages : RandomPackages} {laws : Blake3Laws} spec family coordinates limits :
  dict_wf (selection_policies (run_plan spec)) -> dict_wf (variation_points family) -> points_formed family ->
  validate_run_plan (run_plan spec) = Ok tt -> validate_experiment_selection_against_family spec family = Ok tt ->
  match compile_coordinate_selections family spec coordinates limits with
  | Ok rows => Forall2 (row_complete (run_plan spec) family) coordinates rows
  | Raise e => reported e
  end.
Proof.
  intros Hps Hkeys Hpoints Hplan Hadm. apply compile_selections_run; [done|by apply plan_is_admitted|done|done].
Qed.

Lemma trial_selections_exact_witness :
  exists rows, @compile_coordinate_selections RandomSample.packages TrialSample.family TrialSample.spec TrialSample.trials sample_limits = Ok rows /\
    length rows = 4%nat /\ Forall2 (row_complete TrialSample.plan TrialSample.family) TrialSample.trials rows.
Proof.
  pose proof (trial_selections_exact (packages := RandomSample.packages) (laws := RandomSample.packages_laws) TrialSample.spec TrialSample.family
    TrialSample.trials sample_limits TrialSample.policies_wf TrialSample.points_wf TrialSample.points_ok TrialSample.plan_ok TrialSample.admitted) as H.
  destruct (compile_coordinate_selections _ _ _ _) as [rows|e] eqn:Hrun; [|vm_compute in Hrun; discriminate].
  exists rows. split; [reflexivity|]. split; [|exact H]. vm_compute in Hrun. injection Hrun as <-. reflexivity.
Defined.
