(* ===== verification/TrialEntries.v ===== *)
(** The entries of a compiled trial plan ([trial_compiler/compiler.py]): the
    identities and bindings of an entry, the compilation of one coordinate, and
    the pass over all of them in a requested order. The parts of an entry that
    belong to other components are a parameter. *)
From S2P Require Import Prelude.
From S2P Require Import Contracts.
From S2P Require Import Diagnostics.
From S2P Require Import DepCycles.
From S2P Require Import Sha256.
From S2P Require Import RandomStream.
From S2P Require Import Variation.
From S2P Require Import TrialPlan.
From S2P Require Import TrialSelection.
Local Open Scope string_scope.
Local Open Scope list_scope.
Local Open Scope Z_scope.

(** ** Bindings *)

Definition _BINDING_DESCRIPTORS_ADDRESS : string := "/binding_descriptors".
Definition _ENTRIES_ADDRESS : string := "/entries/".

(** The value a selection binds; a subset or an order binds none. *)
Definition _outcome_binding_value (family : ExpandedScenario) (s : ResolvedSelection) : result (option DomainScalar) :=
  match rs_outcome s with
  | LiteralOutcome value => Ok value
  | ReferenceOutcome id => Ok (Some (SString id))
  | MemberOutcome id =>
      point ← dict_index (variation_points family) (point_id s);
      Ok (match point with AlternativeVariationPoint alternatives => SString <$> alternatives !! id | _ => None end)
  | _ => Ok None
  end.

(** [type(a) is type(b) and a == b]. *)
Definition same_value (a b : option DomainScalar) : bool :=
  match a, b with Some a, Some b => _scalar_eq a b | None, None => true | _, _ => false end.

Definition _descriptor_matches_selection (family : ExpandedScenario) (d : ExperimentBindingDescriptorModel) (s : ResolvedSelection) : result bool :=
  if bool_decide (target_point d <> Some (point_id s)) then Ok false
  else
    selected ← _outcome_binding_value family s;
    Ok (match bd_value d with LiteralBindingValue v => same_value v selected | SecretReferenceBindingValue _ => false end).

(** The bindings of one selection at a coordinate. *)
Definition bind_descriptor (family : ExpandedScenario) (s : ResolvedSelection) (c : TrialCoordinateModel)
    (descriptors : dict string ExperimentBindingDescriptorModel) (bindings : list ExperimentBindingDescriptorModel) (descriptor_id : string)
    : result (list ExperimentBindingDescriptorModel) :=
  match descriptors !! descriptor_id with
  | None => Ok bindings
  | Some d =>
      if bool_decide (Some (source_condition_id d) <> condition_id c) then Ok bindings
      else
        matches ← _descriptor_matches_selection family d s;
        _ ← raise_if (negb matches)
          (CompilationFailure "binding-selection-mismatch" (_BINDING_DESCRIPTORS_ADDRESS +:+ "/" +:+ descriptor_id)
             "a binding descriptor does not equal its selected variation outcome");
        Ok (bindings ++ [d])
  end.

Definition _entry_bindings (family : ExpandedScenario) (spec : ExperimentSpecModel) (limits : TrialCompilationLimitsModel) (row : CoordinateSelections)
    (c : TrialCoordinateModel) (descriptors : dict string ExperimentBindingDescriptorModel) : result (list ExperimentBindingDescriptorModel) :=
  bindings ← mfold (fun bindings s =>
      policy ← dict_index (selection_policies (run_plan spec)) (rs_policy_id s);
      mfold (bind_descriptor family s c descriptors) bindings (py_sorted (binding_descriptor_refs policy))) [] (selections row);
  _ ← raise_if (negb (py_unique (binding_id <$> bindings)))
    (CompilationFailure "binding-duplicate" _BINDING_DESCRIPTORS_ADDRESS "an admitted binding descriptor is selected more than once");
  _ ← raise_if (max_bindings_per_entry limits <? py_len bindings)
    (CompilationFailure "binding-limit-exceeded" _BINDING_DESCRIPTORS_ADDRESS "entry bindings exceed the compilation limit");
  Ok bindings.

Record AdmittedSelectionRecordModel : Type := SelectionRecord {
  sr_variation_point_id : string;
  sr_origin_policy_id : string;
  sr_origin_policy_kind : string;
  sr_outcome : SelectionOutcome;
}.
Definition _selection_records (row : CoordinateSelections) : list AdmittedSelectionRecordModel :=
  (fun s => SelectionRecord (point_id s) (rs_policy_id s) (rs_policy_kind s) (rs_outcome s)) <$> selections row.

(** ** Entries *)

(** What an entry takes from other components: the selected scenario, its
    membership in the envelope, the unmet capture demands, the cleanup plan and
    the sealed entry. *)
Class TrialParts (Scenario Entry Cleanup : Type) : Type := {
  select_scenario_family : dict string SelectionOutcome -> result Scenario;
  member_holds : Scenario -> bool;
  capture_diagnostics : Scenario -> result (list Diagnostic);
  cleanup_payload : json;
  bind_cleanup : string -> string -> string -> result Cleanup;
  seal_admitted_trial_entry : string -> string -> string -> TrialCoordinateModel -> list AdmittedSelectionRecordModel ->
    list ExperimentBindingDescriptorModel -> list RandomStreamDrawRecordModel -> result Entry;
}.

Inductive EntryOutcome (Entry Cleanup : Type) : Type :=
| EntryCompiled (entry_id : string) (entry : Entry) (cleanup_id : string) (cleanup : Cleanup)
| CaptureRejected (diagnostics : list Diagnostic).
Arguments EntryCompiled {Entry Cleanup}.
Arguments CaptureRejected {Entry Cleanup}.

(** A [TypeError] or a [ValueError], with the errors derived from it. *)
Definition is_value_error (e : exn) : bool :=
  match e with ValueError _ | TypeError _ | SnapshotRevisionConflict | ParticipantOpacityEvidenceError _ => true | _ => false end.

Definition entry_address (c : TrialCoordinateModel) : string :=
  _ENTRIES_ADDRESS +:+ match RandomStream.replicate_id c with Some id => if nonempty id then id else "coordinate" | None => "coordinate" end.

Definition IDENTITY_DOMAIN : string := "raes-trial-compiler-identity-v1".

Section entries.
Context `{!RandomPackages, parts : !TrialParts Scenario Entry Cleanup}.
Context (family : ExpandedScenario) (spec : ExperimentSpecModel) (limits : TrialCompilationLimitsModel) (plan_id : string).
Context (descriptors : dict string ExperimentBindingDescriptorModel).

(** [rfc8785] refuses with a [ValueError]. *)
Definition derive_identity (kind : string) (projection : json) : result string :=
  match rfc8785_dumps (JObject [("domain", JString IDENTITY_DOMAIN); ("kind", JString kind); ("projection", projection)]) with
  | Some bytes => Ok (kind +:+ "-" +:+ hexdigest bytes)
  | None => Raise (ValueError "identity canonicalization failed")
  end.

Definition identity_projection (c : TrialCoordinateModel) : json :=
  JObject [("plan_id", JString plan_id); ("coordinate", coordinate_payload c)].

Definition cleanup_identity (entry_id run_id : string) : result string :=
  derive_identity "trial-cleanup" (JObject [("plan_entry_id", JString entry_id); ("run_id", JString run_id); ("template", cleanup_payload)]).

Definition _validate_selected_scenario (row : CoordinateSelections) (c : TrialCoordinateModel) : result Scenario :=
  let outcomes := dict_of_list ((fun s => (point_id s, rs_outcome s)) <$> selections row) in
  selected ←
    match select_scenario_family outcomes with
    | Ok selected => Ok selected
    | Raise e =>
        if is_value_error e then
          Raise (CompilationFailure "selected-scenario-rejected" (entry_address c) "the complete selection failed SDL-owned whole-scenario admission")
        else Raise e
    end;
  _ ← raise_if (negb (member_holds selected))
    (CompilationFailure "realization-envelope-membership-rejected" (entry_address c) "the selected scenario is outside the admitted realization envelope");
  Ok selected.

Definition _compile_entry (row : CoordinateSelections) (c : TrialCoordinateModel) : result (EntryOutcome Entry Cleanup) :=
  selected ← _validate_selected_scenario row c;
  diagnostics ← capture_diagnostics selected;
  if bool_decide (diagnostics <> []) then Ok (CaptureRejected diagnostics)
  else
    entry_id ← derive_identity "trial-entry" (identity_projection c);
    run_id ← derive_identity "archival-run" (identity_projection c);
    cleanup_id ← cleanup_identity entry_id run_id;
    cleanup ← bind_cleanup cleanup_id entry_id run_id;
    bindings ← _entry_bindings family spec limits row c descriptors;
    _ ← raise_if (max_draws_per_entry limits <? py_len (row_draws row))
      (CompilationFailure "draw-limit-exceeded" "/run_plan/stochastic_controls" "entry random draws exceed the compilation limit");
    entry ← seal_admitted_trial_entry entry_id run_id cleanup_id c (_selection_records row) bindings (row_draws row);
    Ok (EntryCompiled entry_id entry cleanup_id cleanup).

(** ** The pass over the coordinates *)

(** The code, the address and the message of a failure, and its key. *)
Definition Failure : Type := string * string * string.
Definition _failure_key (f : Failure) : list string := [f.1.2; f.1.1; f.2].
Definition key_before (a b : list string) : bool := bool_decide (a <> b /\ tuple_le a b).

Record EntryPass : Type := Pass {
  ep_entries : dict string Entry;
  ep_cleanups : dict string Cleanup;
  ep_controls : gset string;
  ep_failure : option Failure;
  ep_captures : dict (list string) Diagnostic;
}.

Definition diagnostic_key (d : Diagnostic) : list string := [diag_address d; diag_code d; diag_message d].

Definition keep_failure (st : EntryPass) (f : Failure) : EntryPass :=
  if match ep_failure st with None => true | Some g => key_before (_failure_key f) (_failure_key g) end
  then Pass (ep_entries st) (ep_cleanups st) (ep_controls st) (Some f) (ep_captures st)
  else st.

Definition visit_entry (coordinates : list TrialCoordinateModel) (rows : list CoordinateSelections) (st : EntryPass) (index : Z) : result EntryPass :=
  c ← py_index coordinates index;
  row ← py_index rows index;
  match _compile_entry row c with
  | Ok (EntryCompiled entry_id entry cleanup_id cleanup) =>
      Ok (Pass (<[entry_id := entry]> (ep_entries st)) (<[cleanup_id := cleanup]> (ep_cleanups st))
            (list_to_set (dr_control_id <$> row_draws row) ∪ ep_controls st) (ep_failure st) (ep_captures st))
  | Ok (CaptureRejected ds) =>
      Ok (Pass (ep_entries st) (ep_cleanups st) (ep_controls st) (ep_failure st)
            (foldl (fun m d => <[diagnostic_key d := d]> m) (ep_captures st) ds))
  | Raise (CompilationFailure code address message) => Ok (keep_failure st (code, address, message))
  | Raise e =>
      if is_value_error e then Ok (keep_failure st ("entry-invalid", entry_address c, "a trial entry failed closed construction"))
      else Raise e
  end.

(** The compiled entries with their cleanup plans and controls, or the capture
    diagnostics in the order of their keys. *)
Inductive EntriesOutcome : Type :=
| EntriesCompiled (entries : dict string Entry) (cleanups : dict string Cleanup) (controls : gset string)
| CaptureAdmissionFailure (diagnostics : list Diagnostic).

Definition sorted_captures (captures : dict (list string) Diagnostic) : list Diagnostic :=
  omap (fun key => captures !! key) (merge_sort tuple_le (dict_keys captures)).

Definition _compile_entries (coordinates : list TrialCoordinateModel) (rows : list CoordinateSelections) (visits : list Z) : result EntriesOutcome :=
  st ← mfold (visit_entry coordinates rows) (Pass dict_empty dict_empty ∅ None dict_empty) visits;
  if bool_decide (dict_keys (ep_captures st) <> []) then Ok (CaptureAdmissionFailure (sorted_captures (ep_captures st)))
  else
    match ep_failure st with
    | Some (code, address, message) => Raise (CompilationFailure code address message)
    | None => Ok (EntriesCompiled (ep_entries st) (ep_cleanups st) (ep_controls st))
    end.
End entries.
Arguments EntryPass : clear implicits.
Arguments EntriesOutcome : clear implicits.
