(* ===== verification/TrialEntriesSpec.v ===== *)
(** The requested order of visits does not change what the compiler of trial
    entries returns ([trial_compiler/compiler.py], [_compile_entries]): dictionaries
    up to the order of insertion, the least failure, and the commutation of two
    visits. *)
From S2P Require Import Prelude.
From S2P Require Import Contracts.
From S2P Require Import Diagnostics.
From S2P Require Import DepCycles.
From S2P Require Import DepCyclesSpec.
From S2P Require Import Sha256.
From S2P Require Import RandomStream.
From S2P Require Import Variation.
From S2P Require Import TrialPlan.
From S2P Require Import TrialSelection.
From S2P Require Import TrialEntries.
Local Open Scope string_scope.
Local Open Scope list_scope.
Local Open Scope Z_scope.

(** ** Dictionaries up to the order of insertion *)

Section dict_equiv.
Context {K : Type} `{EqDecision K} {V : Type}.
Implicit Types d : dict K V.

(** The same keys, and the same value at each of them. *)
Definition dict_equiv : relation (dict K V) := fun d1 d2 => dict_keys d1 ≡ₚ dict_keys d2 /\ forall k, d1 !! k = d2 !! k.

#[export] Instance dict_equiv_equivalence : Equivalence dict_equiv.
Proof.
  split.
  - by intros d.
  - intros d1 d2 [HK HV]. by split.
  - intros d1 d2 d3 [HK HV] [HK' HV']. split; [by rewrite HK|]. intros k. by rewrite HV.
Qed.

#[export] Instance dict_insert_equiv k v : Proper (dict_equiv ==> dict_equiv) (insert k v : dict K V -> dict K V).
Proof.
  intros d1 d2 [HK HV]. split.
  - rewrite !dict_keys_set. destruct (decide (k ∈ dict_keys d1)) as [Hk|Hk]; rewrite HK in Hk;
      [by rewrite decide_True|by rewrite decide_False, HK].
  - intros k'. by rewrite !dict_get_set, HV.
Qed.

(** Two assignments commute when they are to different keys or of one value. *)
Lemma dict_insert_commute k1 v1 k2 v2 d : (k1 = k2 -> v1 = v2) -> dict_equiv (<[k1 := v1]> (<[k2 := v2]> d)) (<[k2 := v2]> (<[k1 := v1]> d)).
Proof.
  intros Hv. split.
  - rewrite !dict_keys_set. destruct (decide (k1 = k2)) as [->|Hne]; [done|].
    assert (forall x y, x <> y -> (x ∈ dict_keys d ++ [y]) <-> x ∈ dict_keys d) as Happ.
    { intros x y Hxy. rewrite elem_of_app, list_elem_of_singleton. tauto. }
    destruct (decide (k1 ∈ dict_keys d)), (decide (k2 ∈ dict_keys d)); repeat case_decide; rewrite ?Happ in * by done; try tauto; try done.
    by rewrite <-!app_assoc, (Permutation_app_comm [k2]).
  - intros k. rewrite !dict_get_set. repeat case_decide; subst; [|done..]. by rewrite Hv.
Qed.
End dict_equiv.
#[export] Existing Instances dict_equiv_equivalence dict_insert_equiv.

(** A left fold of commuting steps does not depend on the order of its list. *)
Lemma foldl_perm {A B} (R : relation B) `{!PreOrder R} (f : B -> A -> B) (b : B) l1 l2 :
  (forall x, Proper (R ==> R) (fun b => f b x)) ->
  (forall j1 a1 j2 a2 b, j1 <> j2 -> l1 !! j1 = Some a1 -> l1 !! j2 = Some a2 -> R (f (f b a2) a1) (f (f b a1) a2)) ->
  l1 ≡ₚ l2 -> R (foldl f b l1) (foldl f b l2).
Proof.
  intros Hproper Hcomm Hperm. assert (forall l b, foldl f b l = foldr (fun x b => f b x) b (reverse l)) as Hrev.
  { intros l. induction l as [|x l IH] using rev_ind; intros b0; [done|]. by rewrite foldl_app, reverse_snoc; cbn; rewrite IH. }
  rewrite !Hrev. apply foldr_permutation; [done|done| |by rewrite !reverse_Permutation].
  intros j1 a1 j2 a2 b0 Hne H1 H2.
  apply reverse_lookup_Some in H1 as [H1 Hl1], H2 as [H2 Hl2]. apply (Hcomm _ _ _ _ b0) with (2 := H1) (3 := H2). lia.
Qed.

(** ** Failures and capture diagnostics *)

#[local] Existing Instance tuple_le_trans.
#[local] Existing Instance tuple_le_total.

Lemma tuple_le_refl a : tuple_le a a.
Proof. induction a as [|x a IH]; cbn [tuple_le]; [done|]. by left. Qed.

Lemma tuple_le_antisymm : AntiSymm (=) tuple_le.
Proof.
  intros a. induction a as [|x a IH]; intros [|y b]; cbn [tuple_le]; try done.
  intros [[-> Hab]|[Hne Hxy]] [[Heq Hba]|[Hne' Hyx]]; try congruence.
  - by rewrite (IH b).
  - destruct Hne. by apply (anti_symm String.le).
Qed.
#[local] Existing Instance tuple_le_antisymm.

Lemma failure_key_inj f g : _failure_key f = _failure_key g -> f = g.
Proof. destruct f as [[a b] c], g as [[a' b'] c']. unfold _failure_key. cbn. congruence. Qed.

(** The failure kept is one of the two, and no later than either. *)
Lemma keep_failure_least {Entry Cleanup} (st : EntryPass Entry Cleanup) f : exists m,
  ep_failure (keep_failure st f) = Some m /\ (m = f \/ ep_failure st = Some m) /\
  tuple_le (_failure_key m) (_failure_key f) /\ forall g, ep_failure st = Some g -> tuple_le (_failure_key m) (_failure_key g).
Proof.
  unfold keep_failure. destruct (ep_failure st) as [g|] eqn:Hst; [|by exists f; split_and!; [|left|apply tuple_le_refl|]].
  unfold key_before. case_bool_decide as Hlt.
  - exists f. cbn [ep_failure]. split_and!; [done|by left|apply tuple_le_refl|]. intros ? [= <-]. apply Hlt.
  - exists g. cbn [ep_failure]. split_and!; [done|by right| |by intros ? [= <-]; apply tuple_le_refl].
    destruct (decide (_failure_key f = _failure_key g)) as [->|Hne]; [apply tuple_le_refl|].
    destruct (total tuple_le (_failure_key f) (_failure_key g)); [tauto|done].
Qed.

Lemma keep_failure_commute {Entry Cleanup} (st : EntryPass Entry Cleanup) f g :
  ep_failure (keep_failure (keep_failure st f) g) = ep_failure (keep_failure (keep_failure st g) f).
Proof.
  destruct (keep_failure_least st f) as (mf & Hf & Hf1 & Hf2 & Hf3), (keep_failure_least (keep_failure st f) g) as (m & -> & Hm1 & Hm2 & Hm3).
  destruct (keep_failure_least st g) as (mg & Hg & Hg1 & Hg2 & Hg3), (keep_failure_least (keep_failure st g) f) as (n & -> & Hn1 & Hn2 & Hn3).
  specialize (Hm3 _ Hf). specialize (Hn3 _ Hg). rewrite Hf in Hm1. rewrite Hg in Hn1.
  assert (forall k, (k = f \/ k = g \/ ep_failure st = Some k) -> tuple_le (_failure_key m) (_failure_key k) /\ tuple_le (_failure_key n) (_failure_key k)) as Hle.
  { intros k [->|[->|Hk]]; split; [by trans (_failure_key mf)|done|done|by trans (_failure_key mg)|
      by trans (_failure_key mf); [|apply Hf3]|by trans (_failure_key mg); [|apply Hg3]]. }
  assert (m = f \/ m = g \/ ep_failure st = Some m) as Hm by (destruct Hm1 as [->|[= <-]]; tauto).
  assert (n = f \/ n = g \/ ep_failure st = Some n) as Hn by (destruct Hn1 as [->|[= <-]]; tauto).
  f_equal. by apply failure_key_inj, (anti_symm tuple_le); [apply (Hle n)|apply (Hle m)].
Qed.

(** Nothing else changes, and the failure depends on the failure kept so far. *)
Section keep_failure.
Context {Entry Cleanup : Type} (st : EntryPass Entry Cleanup) (f : Failure).
Lemma keep_failure_entries : ep_entries (keep_failure st f) = ep_entries st.
Proof. unfold keep_failure. by case_match. Qed.
Lemma keep_failure_cleanups : ep_cleanups (keep_failure st f) = ep_cleanups st.
Proof. unfold keep_failure. by case_match. Qed.
Lemma keep_failure_controls : ep_controls (keep_failure st f) = ep_controls st.
Proof. unfold keep_failure. by case_match. Qed.
Lemma keep_failure_captures : ep_captures (keep_failure st f) = ep_captures st.
Proof. unfold keep_failure. by case_match. Qed.
Lemma keep_failure_ext {Entry' Cleanup'} (st' : EntryPass Entry' Cleanup') : ep_failure st = ep_failure st' -> ep_failure (keep_failure st f) = ep_failure (keep_failure st' f).
Proof. intros Heq. unfold keep_failure. rewrite Heq. by case_match; [case_match|]. Qed.
End keep_failure.

Definition record_captures (m : dict (list string) Diagnostic) (ds : list Diagnostic) : dict (list string) Diagnostic :=
  foldl (fun m d => <[diagnostic_key d := d]> m) m ds.

#[export] Instance record_captures_proper ds : Proper (dict_equiv ==> dict_equiv) (fun m => record_captures m ds).
Proof.
  induction ds as [|d ds IH]; intros m1 m2 Hm; [done|]. apply IH. by apply dict_insert_equiv.
Qed.

(** Diagnostics with one key are one diagnostic. *)
Definition keys_determine (ds : list Diagnostic) : Prop := forall d d', d ∈ ds -> d' ∈ ds -> diagnostic_key d = diagnostic_key d' -> d = d'.

Lemma record_captures_commute m ds ds' : keys_determine (ds ++ ds') ->
  dict_equiv (record_captures (record_captures m ds) ds') (record_captures (record_captures m ds') ds).
Proof.
  intros Hkeys. unfold record_captures. rewrite <-!foldl_app.
  apply (foldl_perm dict_equiv); [intros d ?? Hm; by apply dict_insert_equiv| |apply Permutation_app_comm].
  intros j1 d1 j2 d2 b _ H1%list_elem_of_lookup_2 H2%list_elem_of_lookup_2. apply dict_insert_commute. by apply Hkeys.
Qed.

Lemma sorted_captures_proper m m' : dict_equiv m m' -> sorted_captures m = sorted_captures m'.
Proof.
  intros [HK HV]. unfold sorted_captures.
  assert (merge_sort tuple_le (dict_keys m) = merge_sort tuple_le (dict_keys m')) as ->.
  { apply (StronglySorted_unique tuple_le); [apply StronglySorted_merge_sort; apply _..|]. by rewrite !merge_sort_Permutation. }
  apply list_omap_ext, Forall_Forall2_diag, Forall_true, HV.
Qed.

(** ** Visits *)

(** What one visit adds to the pass. *)
Inductive Contribution (Entry Cleanup : Type) : Type :=
| CompiledEntry (entry_id : string) (entry : Entry) (cleanup_id : string) (cleanup : Cleanup) (controls : gset string)
| Captures (diagnostics : list Diagnostic)
| Failed (f : Failure).
Arguments CompiledEntry {Entry Cleanup}.
Arguments Captures {Entry Cleanup}.
Arguments Failed {Entry Cleanup}.

Section absorb.
Context {Entry Cleanup : Type}.
Implicit Types (st : EntryPass Entry Cleanup) (o : Contribution Entry Cleanup).

Definition absorb st o : EntryPass Entry Cleanup :=
  match o with
  | CompiledEntry entry_id entry cleanup_id cleanup controls =>
      Pass (<[entry_id := entry]> (ep_entries st)) (<[cleanup_id := cleanup]> (ep_cleanups st)) (controls ∪ ep_controls st) (ep_failure st) (ep_captures st)
  | Captures ds => Pass (ep_entries st) (ep_cleanups st) (ep_controls st) (ep_failure st) (record_captures (ep_captures st) ds)
  | Failed f => keep_failure st f
  end.

(** Passes that differ in the order of insertion only. *)
Definition pass_equiv st st' : Prop :=
  dict_equiv (ep_entries st) (ep_entries st') /\ dict_equiv (ep_cleanups st) (ep_cleanups st') /\
  ep_controls st = ep_controls st' /\ ep_failure st = ep_failure st' /\ dict_equiv (ep_captures st) (ep_captures st').

Ltac pass_parts := refine (conj _ (conj _ (conj _ (conj _ _)))).

#[export] Instance pass_equiv_preorder : PreOrder pass_equiv.
Proof.
  split; [intros st; by pass_parts|]. intros st1 st2 st3 (? & ? & ? & ? & ?) (? & ? & ? & ? & ?). pass_parts; etrans; eassumption.
Qed.

Lemma absorb_proper st st' o : pass_equiv st st' -> pass_equiv (absorb st o) (absorb st' o).
Proof.
  intros (He & Hc & Hk & Hf & Hd). destruct o as [id entry cid cleanup controls|ds|f].
  - pass_parts; cbn; [by apply dict_insert_equiv..|by rewrite Hk|done|done].
  - pass_parts; [done..|]. cbn. by apply record_captures_proper.
  - cbn [absorb]. pass_parts; rewrite ?keep_failure_entries, ?keep_failure_cleanups, ?keep_failure_controls, ?keep_failure_captures; [done..| |done].
    by apply keep_failure_ext.
Qed.

(** Two contributions that may be absorbed in either order. *)
Definition compatible o o' : Prop :=
  match o, o' with
  | CompiledEntry id _ cid _ _, CompiledEntry id' _ cid' _ _ => id <> id' /\ cid <> cid'
  | Captures ds, Captures ds' => keys_determine (ds ++ ds')
  | _, _ => True
  end.

Lemma absorb_commute st o o' : compatible o o' -> pass_equiv (absorb (absorb st o) o') (absorb (absorb st o') o).
Proof.
  intros Hcomp. destruct o as [id e cid c ks|ds|f], o' as [id' e' cid' c' ks'|ds'|f']; cbn [compatible absorb] in *; pass_parts;
    rewrite ?keep_failure_entries, ?keep_failure_cleanups, ?keep_failure_controls, ?keep_failure_captures;
    cbn [ep_entries ep_cleanups ep_controls ep_failure ep_captures]; try done.
  - apply dict_insert_commute. intros ->. by destruct Hcomp.
  - apply dict_insert_commute. intros ->. by destruct Hcomp.
  - set_solver.
  - by apply keep_failure_ext.
  - by apply record_captures_commute.
  - by apply keep_failure_ext.
  - by apply keep_failure_ext.
  - by apply keep_failure_ext.
  - apply keep_failure_commute.
Qed.
End absorb.
#[export] Existing Instance pass_equiv_preorder.

Lemma canonical_range n : NoDup (seqZ 0 n) /\ Forall (fun i => 0 <= i < n) (seqZ 0 n).
Proof. split; [apply NoDup_seqZ|]. apply Forall_forall. intros i Hi%elem_of_seqZ. lia. Qed.

(** A [CompilationFailure], a [TypeError] or a [ValueError]. *)
Definition contained (e : exn) : bool := match e with CompilationFailure _ _ _ => true | _ => is_value_error e end.

(** Outcomes that differ in the order of insertion only. *)
Definition same_outcome {Entry Cleanup} (r r' : result (EntriesOutcome Entry Cleanup)) : Prop :=
  match r, r' with
  | Ok (EntriesCompiled es cs ks), Ok (EntriesCompiled es' cs' ks') => dict_equiv es es' /\ dict_equiv cs cs' /\ ks = ks'
  | Ok (CaptureAdmissionFailure ds), Ok (CaptureAdmissionFailure ds') => ds = ds'
  | Raise e, Raise e' => e = e'
  | _, _ => False
  end.

Section visits.
Context {packages : RandomPackages} {Scenario Entry Cleanup : Type} {parts : TrialParts Scenario Entry Cleanup}.
Context (family : ExpandedScenario) (spec : ExperimentSpecModel) (limits : TrialCompilationLimitsModel) (plan_id : string).
Context (descriptors : dict string ExperimentBindingDescriptorModel).
Context (coordinates : list TrialCoordinateModel) (rows : list CoordinateSelections).
Abbreviation compile_entry := (_compile_entry family spec limits plan_id descriptors).
Abbreviation visit := (visit_entry family spec limits plan_id descriptors coordinates rows).
Abbreviation compile_entries := (_compile_entries family spec limits plan_id descriptors coordinates rows).
Abbreviation entry_identity c := (derive_identity "trial-entry" (identity_projection plan_id c)).
Abbreviation run_identity c := (derive_identity "archival-run" (identity_projection plan_id c)).

Definition contribution (row : CoordinateSelections) (c : TrialCoordinateModel) : result (Contribution Entry Cleanup) :=
  match compile_entry row c with
  | Ok (EntryCompiled entry_id entry cleanup_id cleanup) => Ok (CompiledEntry entry_id entry cleanup_id cleanup (list_to_set (dr_control_id <$> row_draws row)))
  | Ok (CaptureRejected ds) => Ok (Captures ds)
  | Raise (CompilationFailure code address message) => Ok (Failed (code, address, message))
  | Raise e => if is_value_error e then Ok (Failed ("entry-invalid", entry_address c, "a trial entry failed closed construction")) else Raise e
  end.

Lemma visit_absorbs st i : visit st i = (c ← py_index coordinates i; row ← py_index rows i; o ← contribution row c; Ok (absorb st o)).
Proof.
  unfold visit_entry, contribution. destruct (py_index coordinates i) as [c|e]; [|done]. destruct (py_index rows i) as [row|e]; [|done].
  cbn [mbind result_bind]. by destruct (compile_entry row c) as [[]|[]].
Qed.

Lemma contribution_failed row c e o : compile_entry row c = Raise e -> contribution row c = Ok o -> exists f, o = Failed f.
Proof. intros He. unfold contribution. rewrite He. destruct e; cbn; try done; intros [= <-]; by eexists. Qed.

(** A compiled entry has the identities of its coordinate. *)
Lemma compile_entry_identities row c entry_id entry cleanup_id cleanup :
  compile_entry row c = Ok (EntryCompiled entry_id entry cleanup_id cleanup) ->
  entry_identity c = Ok entry_id /\ exists run_id, run_identity c = Ok run_id /\ cleanup_identity entry_id run_id = Ok cleanup_id.
Proof.
  unfold _compile_entry. intros H. apply bind_Ok in H as (selected & _ & H). apply bind_Ok in H as (ds & _ & H). case_match; [done|].
  apply bind_Ok in H as (id & Hid & H). apply bind_Ok in H as (run & Hrun & H). apply bind_Ok in H as (cid & Hcid & H).
  inv_result. rewrite Hid. split; [congruence|]. exists run. split; [done|]. congruence.
Qed.

Lemma compile_entry_captures row c ds : compile_entry row c = Ok (CaptureRejected ds) -> ds <> [] /\ exists selected, capture_diagnostics selected = Ok ds.
Proof.
  unfold _compile_entry. intros H. apply bind_Ok in H as (selected & _ & H). apply bind_Ok in H as (ds' & Hds & H).
  case_bool_decide as Hne; [|by inv_result]. injection H as ->. split; [done|]. by exists selected.
Qed.

(** What the order of visits may rely on: the compilation of every coordinate
    raises nothing the pass lets escape, distinct coordinates have distinct entry
    and cleanup identities, and capture diagnostics with one key are one. *)
Record order_free : Prop := {
  of_rows : length rows = length coordinates;
  of_contained : forall i row c e, rows !! i = Some row -> coordinates !! i = Some c -> compile_entry row c = Raise e -> contained e = true;
  of_entries : forall i j c c' id, coordinates !! i = Some c -> coordinates !! j = Some c' -> i <> j ->
    entry_identity c = Ok id -> entry_identity c' <> Ok id;
  of_cleanups : forall i j c c' e r e' r' id, coordinates !! i = Some c -> coordinates !! j = Some c' -> i <> j ->
    entry_identity c = Ok e -> run_identity c = Ok r -> entry_identity c' = Ok e' -> run_identity c' = Ok r' ->
    cleanup_identity e r = Ok id -> cleanup_identity e' r' <> Ok id;
  of_captures : forall selected selected' ds ds', capture_diagnostics selected = Ok ds -> capture_diagnostics selected' = Ok ds' ->
    keys_determine (ds ++ ds');
}.

Context (Hfree : order_free).

Lemma contribution_run i row c : rows !! i = Some row -> coordinates !! i = Some c -> exists o, contribution row c = Ok o.
Proof using Hfree.
  intros Hrow Hc. pose proof (of_contained Hfree i row c) as Hcont. unfold contribution.
  destruct (compile_entry row c) as [[]|e]; [by eexists..|]. specialize (Hcont e Hrow Hc eq_refl). destruct e; try done; by eexists.
Qed.

Lemma contributions_compatible i j row row' c c' o o' :
  rows !! i = Some row -> rows !! j = Some row' -> coordinates !! i = Some c -> coordinates !! j = Some c' -> i <> j ->
  contribution row c = Ok o -> contribution row' c' = Ok o' -> compatible o o'.
Proof using Hfree.
  intros Hri Hrj Hci Hcj Hij Ho Ho'.
  assert ((exists f, o = Failed f) \/ (exists f, o' = Failed f) \/ exists a b, compile_entry row c = Ok a /\ compile_entry row' c' = Ok b) as [[f ->]|[[f ->]|(a & b & Ha & Hb)]].
  { destruct (compile_entry row c) as [a|e] eqn:Ha; [|left; by apply (contribution_failed row c e)].
    destruct (compile_entry row' c') as [b|e] eqn:Hb; [|right; left; by apply (contribution_failed row' c' e)]. right; right. by exists a, b. }
  { done. } { by destruct o. }
  unfold contribution in Ho, Ho'. rewrite Ha in Ho. rewrite Hb in Ho'.
  destruct a as [id e cid cl|ds], b as [id' e' cid' cl'|ds']; injection Ho as <-; injection Ho' as <-; cbn [compatible]; try done.
  - apply compile_entry_identities in Ha as (He & r & Hr & Hcl), Hb as (He' & r' & Hr' & Hcl'). split; intros ->.
    + by apply (of_entries Hfree i j c c' id' Hci Hcj Hij He).
    + by apply (of_cleanups Hfree i j c c' id r id' r' cid').
  - apply compile_entry_captures in Ha as (_ & s1 & H1), Hb as (_ & s2 & H2). by apply (of_captures Hfree s1 s2).
Qed.

(** The pass as a fold of contributions. *)
Definition absorb_at (st : EntryPass Entry Cleanup) (i : Z) : EntryPass Entry Cleanup :=
  match coordinates !! Z.to_nat i, rows !! Z.to_nat i with
  | Some c, Some row => match contribution row c with Ok o => absorb st o | Raise _ => st end
  | _, _ => st
  end.

Lemma entry_visit_run st i : 0 <= i < py_len coordinates -> visit st i = Ok (absorb_at st i).
Proof using Hfree.
  intros Hi. unfold py_len in Hi. destruct (lookup_lt_is_Some_2 coordinates (Z.to_nat i)) as [c Hc]; [lia|].
  destruct (lookup_lt_is_Some_2 rows (Z.to_nat i)) as [row Hrow]; [rewrite (of_rows Hfree); lia|].
  destruct (contribution_run (Z.to_nat i) row c Hrow Hc) as [o Ho].
  rewrite visit_absorbs, (proj2 (py_index_lookup coordinates i c ltac:(lia)) Hc). cbn [mbind result_bind].
  rewrite (proj2 (py_index_lookup rows i row ltac:(lia)) Hrow). cbn [mbind result_bind]. unfold absorb_at. by rewrite Hc, Hrow, Ho.
Qed.

Lemma visits_run visits : Forall (fun i => 0 <= i < py_len coordinates) visits -> forall st, mfold visit st visits = Ok (foldl absorb_at st visits).
Proof using Hfree.
  induction 1 as [|i visits Hi _ IH]; intros st; [done|]. cbn [mfold foldl]. rewrite entry_visit_run by done. apply IH.
Qed.

Lemma absorb_at_commute st i j : 0 <= i < py_len coordinates -> 0 <= j < py_len coordinates -> i <> j ->
  pass_equiv (absorb_at (absorb_at st i) j) (absorb_at (absorb_at st j) i).
Proof using Hfree.
  intros Hi Hj Hij. unfold absorb_at.
  destruct (coordinates !! Z.to_nat i) as [c|] eqn:Hc, (rows !! Z.to_nat i) as [row|] eqn:Hrow; try reflexivity.
  destruct (coordinates !! Z.to_nat j) as [c'|] eqn:Hc', (rows !! Z.to_nat j) as [row'|] eqn:Hrow'; try reflexivity.
  destruct (contribution row c) as [o|] eqn:Ho, (contribution row' c') as [o'|] eqn:Ho'; try reflexivity.
  apply absorb_commute. apply (contributions_compatible (Z.to_nat i) (Z.to_nat j) row row' c c'); try done. lia.
Qed.

Lemma visits_commute visits visits' st : NoDup visits -> Forall (fun i => 0 <= i < py_len coordinates) visits -> visits ≡ₚ visits' ->
  pass_equiv (foldl absorb_at st visits) (foldl absorb_at st visits').
Proof using Hfree.
  intros Hnd Hrange Hperm. rewrite Forall_forall in Hrange. apply (foldl_perm pass_equiv); [| |done].
  - intros i s s' Hs. unfold absorb_at. repeat case_match; try done. by apply absorb_proper.
  - intros j1 i j2 k s Hne Hi Hk. apply absorb_at_commute; [by eapply Hrange, list_elem_of_lookup_2..|].
    intros ->. by apply Hne, (NoDup_lookup visits j1 j2 i).
Qed.
(** ** What the pass holds *)

Definition contributes (i : Z) (o : Contribution Entry Cleanup) : Prop :=
  exists row c, rows !! Z.to_nat i = Some row /\ coordinates !! Z.to_nat i = Some c /\ contribution row c = Ok o.

Definition entry_at (pre : list Z) (id : string) (e : Entry) : Prop := exists i cid cl ks, i ∈ pre /\ contributes i (CompiledEntry id e cid cl ks).
Definition cleanup_at (pre : list Z) (cid : string) (cl : Cleanup) : Prop := exists i id e ks, i ∈ pre /\ contributes i (CompiledEntry id e cid cl ks).
Definition control_at (pre : list Z) (k : string) : Prop := exists i id e cid cl ks, i ∈ pre /\ contributes i (CompiledEntry id e cid cl ks) /\ k ∈ ks.
Definition capture_at (pre : list Z) (d : Diagnostic) : Prop := exists i ds, i ∈ pre /\ contributes i (Captures ds) /\ d ∈ ds.
Definition failure_at (pre : list Z) (f : Failure) : Prop := exists i, i ∈ pre /\ contributes i (Failed f).

(** The failure with the least key. *)
Definition least_failure (pre : list Z) (f : option Failure) : Prop :=
  match f with
  | None => forall g, ~ failure_at pre g
  | Some f => failure_at pre f /\ forall g, failure_at pre g -> tuple_le (_failure_key f) (_failure_key g)
  end.

Record pass_holds (pre : list Z) (st : EntryPass Entry Cleanup) : Prop := {
  ph_entries : forall id e, ep_entries st !! id = Some e <-> entry_at pre id e;
  ph_cleanups : forall cid cl, ep_cleanups st !! cid = Some cl <-> cleanup_at pre cid cl;
  ph_controls : forall k, k ∈ ep_controls st <-> control_at pre k;
  ph_failure : least_failure pre (ep_failure st);
  ph_keys : dict_wf (ep_captures st);
  ph_captures : forall key d, ep_captures st !! key = Some d <-> capture_at pre d /\ diagnostic_key d = key;
}.

Lemma contributes_run i : 0 <= i < py_len coordinates -> exists o, contributes i o.
Proof using Hfree.
  unfold py_len. intros Hi. destruct (lookup_lt_is_Some_2 coordinates (Z.to_nat i)) as [c Hc]; [lia|].
  destruct (lookup_lt_is_Some_2 rows (Z.to_nat i)) as [row Hr]; [rewrite (of_rows Hfree); lia|].
  destruct (contribution_run (Z.to_nat i) row c Hr Hc) as [o Ho]. by exists o, row, c.
Qed.

Lemma contributes_det i o o' : contributes i o -> contributes i o' -> o = o'.
Proof using. intros (row & c & Hr & Hc & Ho) (row' & c' & Hr' & Hc' & Ho'). congruence. Qed.

Lemma contributes_compatible i j o o' : 0 <= i -> 0 <= j -> i <> j -> contributes i o -> contributes j o' -> compatible o o'.
Proof using Hfree.
  intros Hi Hj Hij (row & c & Hr & Hc & Ho) (row' & c' & Hr' & Hc' & Ho').
  apply (contributions_compatible (Z.to_nat i) (Z.to_nat j) row row' c c'); try done. lia.
Qed.

Lemma contributes_captures i ds : contributes i (Captures ds) -> ds <> [] /\ exists selected, capture_diagnostics selected = Ok ds.
Proof using.
  intros (row & c & _ & _ & Ho). unfold contribution in Ho. apply (compile_entry_captures row c).
  destruct (compile_entry row c) as [[]|x]; [done|congruence|]. destruct x; cbn in Ho; simplify_eq.
Qed.

Lemma captures_consistent i ds j ds' : contributes i (Captures ds) -> contributes j (Captures ds') -> keys_determine (ds ++ ds').
Proof using Hfree.
  intros [_ [s1 H1]]%contributes_captures [_ [s2 H2]]%contributes_captures. by apply (of_captures Hfree s1 s2).
Qed.

Section snoc.
Context (pre : list Z) (i : Z) (o : Contribution Entry Cleanup) (Ho : contributes i o).

Lemma entry_at_snoc id e : entry_at (pre ++ [i]) id e <-> entry_at pre id e \/ exists cid cl ks, o = CompiledEntry id e cid cl ks.
Proof using Ho.
  clear Hfree. split.
  - intros (j & cid & cl & ks & [Hj| ->%list_elem_of_singleton]%elem_of_app & Hc); [left; by exists j, cid, cl, ks|right].
    exists cid, cl, ks. by apply (contributes_det i).
  - intros [(j & cid & cl & ks & Hj & Hc)|(cid & cl & ks & ->)]; [exists j|exists i]; exists cid, cl, ks; (split; [|done]); set_solver.
Qed.

Lemma cleanup_at_snoc cid cl : cleanup_at (pre ++ [i]) cid cl <-> cleanup_at pre cid cl \/ exists id e ks, o = CompiledEntry id e cid cl ks.
Proof using Ho.
  clear Hfree. split.
  - intros (j & id & e & ks & [Hj| ->%list_elem_of_singleton]%elem_of_app & Hc); [left; by exists j, id, e, ks|right].
    exists id, e, ks. by apply (contributes_det i).
  - intros [(j & id & e & ks & Hj & Hc)|(id & e & ks & ->)]; [exists j|exists i]; exists id, e, ks; (split; [|done]); set_solver.
Qed.

Lemma control_at_snoc k : control_at (pre ++ [i]) k <-> control_at pre k \/ exists id e cid cl ks, o = CompiledEntry id e cid cl ks /\ k ∈ ks.
Proof using Ho.
  clear Hfree. split.
  - intros (j & id & e & cid & cl & ks & [Hj| ->%list_elem_of_singleton]%elem_of_app & Hc & Hk); [left; by exists j, id, e, cid, cl, ks|right].
    exists id, e, cid, cl, ks. split; [by apply (contributes_det i)|done].
  - intros [(j & id & e & cid & cl & ks & Hj & Hc & Hk)|(id & e & cid & cl & ks & -> & Hk)]; [exists j|exists i]; exists id, e, cid, cl, ks;
      (split; [|done]); set_solver.
Qed.

Lemma capture_at_snoc d : capture_at (pre ++ [i]) d <-> capture_at pre d \/ exists ds, o = Captures ds /\ d ∈ ds.
Proof using Ho.
  clear Hfree. split.
  - intros (j & ds & [Hj| ->%list_elem_of_singleton]%elem_of_app & Hc & Hd); [left; by exists j, ds|right].
    exists ds. split; [by apply (contributes_det i)|done].
  - intros [(j & ds & Hj & Hc & Hd)|(ds & -> & Hd)]; [exists j, ds|exists i, ds]; (split; [|done]); set_solver.
Qed.

Lemma failure_at_snoc f : failure_at (pre ++ [i]) f <-> failure_at pre f \/ o = Failed f.
Proof using Ho.
  clear Hfree. split.
  - intros (j & [Hj| ->%list_elem_of_singleton]%elem_of_app & Hc); [left; by exists j|right]. by apply (contributes_det i).
  - intros [(j & Hj & Hc)| ->]; [exists j|exists i]; (split; [|done]); set_solver.
Qed.
End snoc.

Lemma record_captures_wf m ds : dict_wf m -> dict_wf (record_captures m ds).
Proof using. clear Hfree. revert m. induction ds as [|d ds IH]; intros m Hm; [done|]. by apply IH, dict_wf_set. Qed.

Lemma record_captures_get m ds key : (forall d d', d ∈ ds -> d' ∈ ds -> diagnostic_key d = diagnostic_key d' -> d = d') -> forall d,
  record_captures m ds !! key = Some d <->
  (d ∈ ds /\ diagnostic_key d = key) \/ (m !! key = Some d /\ forall d', d' ∈ ds -> diagnostic_key d' <> key).
Proof using.
  clear Hfree. revert m. induction ds as [|x ds IH] using rev_ind; intros m Hkeys d.
  - cbn. split; [intros H; right; split; [done|by intros ? ?%not_elem_of_nil]|by intros [[?%not_elem_of_nil _]|[? _]]].
  - unfold record_captures. rewrite foldl_app. cbn [foldl]. fold (record_captures m ds). rewrite dict_get_set.
    assert (x ∈ ds ++ [x]) as Hx by set_solver. setoid_rewrite elem_of_app. setoid_rewrite list_elem_of_singleton. case_decide as Hk.
    + split; [intros [= <-]; left; split; [by right|done]|]. intros [[Hd Hdk]|[_ Hn]]; [|by destruct (Hn x (or_intror eq_refl))].
      f_equal. apply Hkeys; [done|set_solver|congruence].
    + rewrite IH by (intros ????; apply Hkeys; set_solver). split.
      * intros [[Hd Hdk]|[Hm Hn]]; [left; by split; [left|]|right]. split; [done|]. intros d' [Hd'| ->]; auto.
      * intros [[[Hd| ->] Hdk]|[Hm Hn]]; [by left|done|right]. split; [done|]. intros d' Hd'. apply Hn. by left.
Qed.
Lemma least_failure_kept pre i f (st : EntryPass Entry Cleanup) : contributes i (Failed f) -> least_failure pre (ep_failure st) ->
  least_failure (pre ++ [i]) (ep_failure (keep_failure st f)).
Proof using.
  clear Hfree. intros Ho Hst. destruct (keep_failure_least st f) as (m & -> & Hm & Hf & Hg). cbn [least_failure]. setoid_rewrite (failure_at_snoc pre i _ Ho).
  split.
  - destruct Hm as [->|Hm]; [by right|left]. rewrite Hm in Hst. apply Hst.
  - intros g [Hpre|[= <-]]; [|done]. destruct (ep_failure st) as [h|]; [|by apply Hst in Hpre]. trans (_failure_key h); [by apply Hg|by apply Hst].
Qed.

Lemma least_failure_same pre i o f : contributes i o -> (forall g, o <> Failed g) -> least_failure pre f -> least_failure (pre ++ [i]) f.
Proof using.
  clear Hfree. intros Ho Hne. unfold least_failure. destruct f as [f|]; setoid_rewrite (failure_at_snoc pre i _ Ho).
  - intros [Hf Hleast]. split; [by left|]. intros g [Hg|Hg]; [by apply Hleast|by apply Hne in Hg].
  - intros Hnone g [Hg|Hg]; [by apply (Hnone g)|by apply Hne in Hg].
Qed.

Lemma compiled_step pre st i id e cid cl ks : Forall (Z.le 0) pre -> 0 <= i -> i ∉ pre ->
  contributes i (CompiledEntry id e cid cl ks) -> pass_holds pre st -> pass_holds (pre ++ [i]) (absorb st (CompiledEntry id e cid cl ks)).
Proof using Hfree.
  intros Hpre Hi Hnew Ho [He Hc Hk Hf Hwf Hd]. rewrite Forall_forall in Hpre.
  assert (forall j id' e' cid' cl' ks', j ∈ pre -> contributes j (CompiledEntry id' e' cid' cl' ks') -> id <> id' /\ cid <> cid') as Hne.
  { intros j id' e' cid' cl' ks' Hj Hj'. apply (contributes_compatible i j _ _ Hi (Hpre j Hj) ltac:(by intros ->) Ho Hj'). }
  split; cbn [absorb ep_entries ep_cleanups ep_controls ep_failure ep_captures].
  - intros id' e'. rewrite (entry_at_snoc pre i _ Ho), dict_get_set. case_decide as Hid; [|rewrite He; naive_solver].
    subst id'. split; [intros [= ->]; right; by exists cid, cl, ks|]. intros [(j & ? & ? & ? & Hj & Hj')|(? & ? & ? & [= -> _ _ _])]; [|done].
    by destruct (Hne _ _ _ _ _ _ Hj Hj').
  - intros cid' cl'. rewrite (cleanup_at_snoc pre i _ Ho), dict_get_set. case_decide as Hid; [|rewrite Hc; naive_solver].
    subst cid'. split; [intros [= ->]; right; by exists id, e, ks|]. intros [(j & ? & ? & ? & Hj & Hj')|(? & ? & ? & [= _ _ -> _])]; [|done].
    by destruct (Hne _ _ _ _ _ _ Hj Hj').
  - intros k. rewrite (control_at_snoc pre i _ Ho), elem_of_union, Hk. split; [intros [?|?]; [right; by exists id, e, cid, cl, ks|by left]|].
    intros [?|(? & ? & ? & ? & ? & [= <- <- <- <- <-] & ?)]; [by right|by left].
  - by apply (least_failure_same pre i _ _ Ho).
  - done.
  - intros key d. rewrite (capture_at_snoc pre i _ Ho), Hd. naive_solver.
Qed.

Lemma other_step pre st i o : contributes i o -> (forall id e cid cl ks, o <> CompiledEntry id e cid cl ks) -> pass_holds pre st ->
  pass_holds (pre ++ [i]) (absorb st o).
Proof using Hfree.
  intros Ho Hne [He Hc Hk Hf Hwf Hd]. destruct o as [id e cid cl ks|ds|f]; [by destruct (Hne id e cid cl ks)| |]; split; cbn [absorb];
    rewrite ?keep_failure_entries, ?keep_failure_cleanups, ?keep_failure_controls, ?keep_failure_captures;
    cbn [ep_entries ep_cleanups ep_controls ep_failure ep_captures];
    try (intros id e; rewrite (entry_at_snoc pre i _ Ho), He; naive_solver);
    try (intros cid cl; rewrite (cleanup_at_snoc pre i _ Ho), Hc; naive_solver);
    try (intros k; rewrite (control_at_snoc pre i _ Ho), Hk; naive_solver).
  - by apply (least_failure_same pre i _ _ Ho).
  - by apply record_captures_wf.
  - intros key d. rewrite (capture_at_snoc pre i _ Ho). pose proof (captures_consistent i ds i ds Ho Ho) as Hds.
    rewrite record_captures_get by (intros d1 d2 H1 H2; apply Hds; apply elem_of_app; by left). rewrite Hd. split.
    + intros [[Hin Hkey]|[[Hat Hkey] _]]; (split; [|done]); [right; by exists ds|by left].
    + intros [[Hat|(ds' & [= <-] & Hin)] Hkey]; [|by left]. destruct (decide (d ∈ ds)); [by left|right]. split; [done|]. intros d' Hd' Hk'.
      destruct Hat as (j & ds' & Hj & Hj' & Hin). assert (d = d') as ->; [|done].
      apply (captures_consistent j ds' i ds Hj' Ho); [apply elem_of_app; by left|apply elem_of_app; by right|congruence].
  - by apply least_failure_kept.
  - done.
  - intros key d. rewrite (capture_at_snoc pre i _ Ho), Hd. naive_solver.
Qed.

Lemma pass_run visits : NoDup visits -> Forall (fun i => 0 <= i < py_len coordinates) visits ->
  pass_holds visits (foldl absorb_at (Pass dict_empty dict_empty ∅ None dict_empty) visits).
Proof using Hfree.
  intros Hnd Hrange. apply foldl_prefix.
  - intros pre i suf st -> Hst. apply NoDup_app in Hnd as (_ & Hnew & _). apply Forall_app in Hrange as [Hpre [Hi _]%Forall_cons].
    destruct (contributes_run i Hi) as [o Hcon]. assert (absorb_at st i = absorb st o) as ->.
    { unfold absorb_at. destruct Hcon as (row & c & -> & -> & ->). done. }
    destruct o as [id e cid cl ks|ds|f]; [|by apply other_step..]. apply compiled_step; [|lia| |done|done].
    + eapply Forall_impl; [exact Hpre|]. intros j ?. cbn in *. lia.
    + intros Hin. apply (Hnew i Hin). by left.
  - split; cbn [ep_entries ep_cleanups ep_controls ep_failure ep_captures].
    + intros id e. split; [done|]. by intros (i & ? & ? & ? & Hi%not_elem_of_nil & _).
    + intros cid cl. split; [done|]. by intros (i & ? & ? & ? & Hi%not_elem_of_nil & _).
    + intros k. split; [by intros ?%not_elem_of_empty|]. by intros (i & ? & ? & ? & ? & ? & Hi%not_elem_of_nil & _).
    + intros g (i & Hi%not_elem_of_nil & _). done.
    + constructor.
    + intros key d. split; [done|]. by intros [(i & ? & Hi%not_elem_of_nil & _) _].
Qed.
Lemma pass_holds_perm pre pre' st : pre ≡ₚ pre' -> pass_holds pre st -> pass_holds pre' st.
Proof using.
  clear Hfree. intros Hperm [He Hc Hk Hf Hwf Hd]. assert (forall i, i ∈ pre <-> i ∈ pre') as Hin by (intros i; by rewrite Hperm).
  assert (forall g, failure_at pre g <-> failure_at pre' g) as Hfail by (intros; unfold failure_at; by setoid_rewrite Hin).
  split; [| | | |done|].
  - intros id e. rewrite He. unfold entry_at. by setoid_rewrite Hin.
  - intros cid cl. rewrite Hc. unfold cleanup_at. by setoid_rewrite Hin.
  - intros k. rewrite Hk. unfold control_at. by setoid_rewrite Hin.
  - unfold least_failure in *. destruct (ep_failure st) as [f|]; by setoid_rewrite <-Hfail.
  - intros key d. rewrite Hd. unfold capture_at. by setoid_rewrite Hin.
Qed.
Lemma no_captures pre st : pass_holds pre st -> dict_keys (ep_captures st) = [] -> forall i ds, i ∈ pre -> ~ contributes i (Captures ds).
Proof using.
  intros [_ _ _ _ _ Hd] Hnil i ds Hi Hds. destruct (contributes_captures i ds Hds) as [Hne _]. destruct ds as [|d ds]; [done|].
  assert (diagnostic_key d ∈ dict_keys (ep_captures st)) as Hin; [|rewrite Hnil in Hin; by apply not_elem_of_nil in Hin].
  apply dict_get_is_Some. exists d. apply Hd. split; [|done]. exists i, (d :: ds). split_and!; [done..|left].
Qed.

Lemma all_compiled pre st : Forall (fun i => 0 <= i < py_len coordinates) pre -> pass_holds pre st -> dict_keys (ep_captures st) = [] -> ep_failure st = None ->
  forall i, i ∈ pre -> exists id e cid cl ks, contributes i (CompiledEntry id e cid cl ks).
Proof using Hfree.
  intros Hrange Hpass Hnil Hnone i Hi. rewrite Forall_forall in Hrange. destruct (contributes_run i (Hrange i Hi)) as [[id e cid cl ks|ds|f] Ho].
  - by exists id, e, cid, cl, ks.
  - by destruct (no_captures pre st Hpass Hnil i ds Hi).
  - pose proof (ph_failure _ _ Hpass) as Hf. rewrite Hnone in Hf. destruct (Hf f). by exists i.
Qed.

Lemma pass_visits visits : seqZ 0 (py_len coordinates) ≡ₚ visits -> exists st,
  mfold visit (Pass dict_empty dict_empty ∅ None dict_empty) visits = Ok st /\ pass_holds (seqZ 0 (py_len coordinates)) st.
Proof using Hfree.
  intros Hperm. destruct (canonical_range (py_len coordinates)) as [Hnd Hrange].
  assert (Forall (fun i => 0 <= i < py_len coordinates) visits) as Hvisits by by rewrite <-Hperm.
  eexists. split; [by apply visits_run|]. apply (pass_holds_perm visits); [done|]. apply pass_run; [by rewrite <-Hperm|done].
Qed.
End visits.

Lemma sorted_captures_keys m : (forall key d, m !! key = Some d -> diagnostic_key d = key) ->
  diagnostic_key <$> sorted_captures m = merge_sort tuple_le (dict_keys m).
Proof.
  intros Hm. unfold sorted_captures. assert (forall key, key ∈ merge_sort tuple_le (dict_keys m) -> is_Some (m !! key)) as Hl.
  { intros key. rewrite merge_sort_Permutation. apply dict_get_is_Some. }
  induction (merge_sort tuple_le (dict_keys m)) as [|key l IH]; [done|]. cbn [omap list_omap].
  destruct (Hl key) as [d Hd]; [left|]. rewrite Hd. cbn [fmap list_fmap]. rewrite (Hm key d Hd). f_equal. apply IH. intros key' ?. apply Hl. by right.
Qed.

Lemma elem_of_sorted_captures m d : d ∈ sorted_captures m <-> exists key, m !! key = Some d.
Proof.
  unfold sorted_captures. rewrite list_elem_of_omap. split; [intros (key & _ & Hd); by exists key|]. intros [key Hd]. exists key. split; [|done].
  rewrite merge_sort_Permutation. apply dict_get_is_Some. by exists d.
Qed.

(** The diagnostics recorded come once each and in the order of their keys. *)
Lemma sorted_captures_exact m : dict_wf m -> (forall key d, m !! key = Some d -> diagnostic_key d = key) ->
  NoDup (sorted_captures m) /\ StronglySorted tuple_le (diagnostic_key <$> sorted_captures m) /\
  (sorted_captures m = [] <-> dict_keys m = []).
Proof.
  intros Hwf Hkeys. pose proof (sorted_captures_keys m Hkeys) as Hs. pose proof (merge_sort_Permutation tuple_le (dict_keys m)) as Hperm.
  rewrite <-Hs in Hperm. split_and!.
  - apply (NoDup_fmap_1 diagnostic_key). by rewrite Hperm.
  - rewrite Hs. apply StronglySorted_merge_sort; apply _.
  - split; intros Hnil; rewrite Hnil in Hperm; [by apply Permutation_nil_l in Hperm|]. apply Permutation_nil_r in Hperm. by apply fmap_nil_inv in Hperm.
Qed.

Lemma visit_indices_perm n partitions visits : visit_indices n partitions = Ok visits -> seqZ 0 n ≡ₚ visits.
Proof.
  destruct partitions as [partitions|]; cbn [visit_indices]; [|by intros [= <-]]. intros H. inv_result.
  match goal with E : negb _ = false |- _ => apply negb_false_iff, bool_decide_eq_true in E; rewrite <-E end. apply merge_sort_Permutation.
Qed.


(** The traversal of the coordinates that a caller requests never changes
    what the compiler returns. Provided distinct coordinates have distinct
    identities, every accepted partition gives the entries, cleanup plans and
    controls of the canonical traversal, the same failure or the same capture
    diagnostics in the same order. *)
Theorem partitions_irrelevant {packages : RandomPackages} {Scenario Entry Cleanup} {parts : TrialParts Scenario Entry Cleanup}
    family spec limits plan_id descriptors coordinates rows partitions visits :
  order_free family spec limits plan_id descriptors coordinates rows ->
  visit_indices (py_len coordinates) partitions = Ok visits ->
  exists canonical, visit_indices (py_len coordinates) None = Ok canonical /\
    same_outcome (_compile_entries family spec limits plan_id descriptors coordinates rows visits)
      (_compile_entries family spec limits plan_id descriptors coordinates rows canonical).
Proof.
  intros Hfree Hvisits%visit_indices_perm. exists (seqZ 0 (py_len coordinates)). split; [done|].
  assert (Forall (fun i => 0 <= i < py_len coordinates) (seqZ 0 (py_len coordinates))) as Hrange.
  { apply Forall_forall. intros i Hi%elem_of_seqZ. lia. }
  unfold _compile_entries. rewrite !(visits_run _ _ _ _ _ _ _ Hfree) by (done || by rewrite <-Hvisits). cbn [mbind result_bind].
  pose proof (visits_commute _ _ _ _ _ _ _ Hfree _ visits (Pass dict_empty dict_empty ∅ None dict_empty) (NoDup_seqZ 0 (py_len coordinates)) Hrange Hvisits) as Heq.
  destruct Heq as (He & Hc & Hk & Hf & Hd).
  match type of He with dict_equiv (ep_entries ?a) (ep_entries ?b) => generalize dependent a; generalize dependent b end.
  intros st' st He Hc Hk Hf Hd. rewrite (sorted_captures_proper _ _ Hd), <-Hf.
  destruct Hd as [Hkeys _].
  assert (dict_keys (ep_captures st) <> [] <-> dict_keys (ep_captures st') <> []) as Hnil.
  { destruct (dict_keys (ep_captures st)); [apply Permutation_nil_l in Hkeys as ->; done|].
    destruct (dict_keys (ep_captures st')); [by apply Permutation_nil_r in Hkeys|]. by split. }
  repeat case_bool_decide; [done|tauto..|]. destruct (ep_failure st) as [[[]]|]; [done|].
  cbn. by split_and!.
Qed.

(** C40: the entries of a compiled plan are exactly those of its coordinates,
    whatever traversal was requested, provided no order can show ([order_free]):
    there is one row per coordinate, distinct coordinates have distinct entry and
    cleanup identities, capture diagnostics with one key are one, and compiling a
    coordinate raises only what the pass contains. When the pass succeeds every coordinate
    compiles, and the entries, the cleanup plans and the controls are those the
    coordinates give and no others. Unmet capture demands take precedence: all of
    them are reported, each once, in the order of their keys. Otherwise the
    failure raised is one of a coordinate's, and no other is before it. *)
Theorem entries_exact {packages : RandomPackages} {Scenario Entry Cleanup} {parts : TrialParts Scenario Entry Cleanup}
    family spec limits plan_id descriptors coordinates rows partitions visits :
  order_free family spec limits plan_id descriptors coordinates rows ->
  visit_indices (py_len coordinates) partitions = Ok visits ->
  let contributes := contributes family spec limits plan_id descriptors coordinates rows in
  let all := seqZ 0 (py_len coordinates) in
  match _compile_entries family spec limits plan_id descriptors coordinates rows visits with
  | Ok (EntriesCompiled entries cleanups controls) =>
      (forall i, i ∈ all -> exists id entry cid cleanup ks, contributes i (CompiledEntry id entry cid cleanup ks)) /\
      (forall id entry, entries !! id = Some entry <-> exists i cid cleanup ks, i ∈ all /\ contributes i (CompiledEntry id entry cid cleanup ks)) /\
      (forall cid cleanup, cleanups !! cid = Some cleanup <-> exists i id entry ks, i ∈ all /\ contributes i (CompiledEntry id entry cid cleanup ks)) /\
      (forall k, k ∈ controls <-> exists i id entry cid cleanup ks, i ∈ all /\ contributes i (CompiledEntry id entry cid cleanup ks) /\ k ∈ ks)
  | Ok (CaptureAdmissionFailure ds) =>
      ds <> [] /\ NoDup ds /\ StronglySorted tuple_le (diagnostic_key <$> ds) /\
      (forall d, d ∈ ds <-> exists i ds', i ∈ all /\ contributes i (Captures ds') /\ d ∈ ds')
  | Raise e => exists i code address message,
      e = CompilationFailure code address message /\ i ∈ all /\ contributes i (Failed (code, address, message)) /\
      (forall j ds, j ∈ all -> ~ contributes j (Captures ds)) /\
      (forall j f, j ∈ all -> contributes j (Failed f) -> tuple_le [address; code; message] (_failure_key f))
  end.
Proof.
  intros Hfree Hvisits%visit_indices_perm. cbn zeta. destruct (canonical_range (py_len coordinates)) as [Hnd Hrange].
  destruct (pass_visits _ _ _ _ _ _ _ Hfree visits Hvisits) as (st & Hrun & Hpass).
  unfold _compile_entries. rewrite Hrun. cbn [mbind result_bind].
  case_bool_decide as Hnil.
  - destruct (sorted_captures_exact (ep_captures st)) as (Hdup & Hsorted & Hempty);
      [apply Hpass|intros key d ?%(ph_captures _ _ _ _ _ _ _ _ _ Hpass); tauto|].
    split_and!; [by rewrite Hempty|done..|]. intros d. rewrite elem_of_sorted_captures. split.
    + intros [key [Hat _]%(ph_captures _ _ _ _ _ _ _ _ _ Hpass)]. exact Hat.
    + intros Hat. exists (diagnostic_key d). by apply (ph_captures _ _ _ _ _ _ _ _ _ Hpass).
  - pose proof (no_captures _ _ _ _ _ _ _ _ _ Hpass Hnil) as Hnone. pose proof (ph_failure _ _ _ _ _ _ _ _ _ Hpass) as Hf.
    destruct (ep_failure st) as [[[code address] message]|] eqn:Hst.
    + destruct Hf as [(i & Hi & Hfail) Hleast]. exists i, code, address, message. split_and!; [done..|].
      intros j f Hj Hjf. apply (Hleast f). by exists j.
    + split; [by apply (all_compiled _ _ _ _ _ _ _ Hfree _ st)|]. split; [apply Hpass|]. split; [apply Hpass|apply Hpass].
Qed.

(** ** Examples *)

Module EntriesSample.
(** The last two characters of every string. *)
Definition string_codes (s : string) : list Z := (fun c => Z.of_N (Ascii.N_of_ascii c)) <$> drop (String.length s - 2) (chars s).
Fixpoint json_codes (j : json) : list Z :=
  match j with
  | JString s => string_codes s
  | JInteger z => [z]
  | JObject fields => flat_map (fun f => json_codes f.2) fields
  | _ => []
  end.
Definition packages : RandomPackages := {|
  rfc8785_dumps payload := Some (json_codes payload);
  blake3_derive_key _ _ := repeat 0 32;
  blake3_keyed_digest _ _ n _ := Ok (repeat 0 (Z.to_nat n)) |}.

(** The envelope admits every scenario or none; nothing is left to capture. *)
Definition parts (admits : bool) : TrialParts unit string string := {|
  select_scenario_family _ := Ok tt;
  member_holds _ := admits;
  capture_diagnostics _ := Ok [];
  cleanup_payload := JString "template";
  bind_cleanup id _ _ := Ok id;
  seal_admitted_trial_entry id _ _ _ _ _ _ := Ok id |}.

Definition family : ExpandedScenario := Family "family" true dict_empty.
Definition spec : ExperimentSpecModel := ExperimentSpec (RunPlan [] None (Some 2) dict_empty) None dict_empty None.
Definition limits : TrialCompilationLimitsModel := Limits 16 16 16 16 16.
Definition trials : list TrialCoordinateModel := (fun id => TrialCoordinate None None (Some id)) <$> ["replicate-000001"; "replicate-000002"].
Definition rows : list CoordinateSelections := [Selections [] []; Selections [] []].

Lemma free admits : @order_free packages unit string string (parts admits) family spec limits "plan" dict_empty trials rows.
Proof.
  split.
  - done.
  - intros [|[|i]] row c e [= <-] [= <-] H; destruct admits; vm_compute in H; try discriminate; by injection H as <-.
  - intros [|[|i]] [|[|j]] c c' id Hc Hc' Hij He; try discriminate Hc; try discriminate Hc'; try done; injection Hc as <-; injection Hc' as <-; vm_compute in He; injection He as <-; vm_compute; discriminate.
  - intros [|[|i]] [|[|j]] c c' e r e' r' id Hc Hc' Hij He Hr He' Hr' Hid; try discriminate Hc; try discriminate Hc'; try done; injection Hc as <-; injection Hc' as <-;
      vm_compute in He, Hr, He', Hr'; simplify_eq; vm_compute in Hid; injection Hid as <-; vm_compute; discriminate.
  - intros selected selected' ds ds' [= <-] [= <-] d d' Hd. by apply not_elem_of_nil in Hd.
Qed.

Definition run (admits : bool) (visits : list Z) : result (EntriesOutcome string string) :=
  @_compile_entries packages unit string string (parts admits) family spec limits "plan" dict_empty trials rows visits.
End EntriesSample.

Lemma entries_exact_witness : exists entries cleanups controls, EntriesSample.run true [1; 0] = Ok (EntriesCompiled entries cleanups controls) /\
  length (dict_keys entries) = 2%nat /\
  forall i, i ∈ seqZ 0 2 -> exists id entry cid cleanup ks, @contributes EntriesSample.packages unit string string (EntriesSample.parts true)
    EntriesSample.family EntriesSample.spec EntriesSample.limits "plan" dict_empty EntriesSample.trials EntriesSample.rows
    i (CompiledEntry id entry cid cleanup ks).
Proof.
  pose proof (entries_exact EntriesSample.family EntriesSample.spec EntriesSample.limits "plan" dict_empty EntriesSample.trials
    EntriesSample.rows (Some [[1]; [0]]) [1; 0] (EntriesSample.free true) ltac:(vm_compute; reflexivity)) as H.
  unfold EntriesSample.run. destruct (_compile_entries _ _ _ _ _ _ _ _) as [[entries cleanups controls|ds]|e] eqn:Hrun;
    [|vm_compute in Hrun; discriminate..].
  exists entries, cleanups, controls. split; [done|]. destruct H as [H _]. split; [|exact H]. vm_compute in Hrun. by injection Hrun as <-.
Defined.

(** Both coordinates fail; the failure of the first is raised in either order. *)
Lemma partitions_irrelevant_witness : EntriesSample.run false [1; 0] = EntriesSample.run false [0; 1] /\
  EntriesSample.run false [1; 0] = Raise (CompilationFailure "realization-envelope-membership-rejected" "/entries/replicate-000001"
    "the selected scenario is outside the admitted realization envelope").
Proof.
  destruct (partitions_irrelevant EntriesSample.family EntriesSample.spec EntriesSample.limits "plan" dict_empty
    EntriesSample.trials EntriesSample.rows (Some [[1]; [0]]) [1; 0] (EntriesSample.free false) ltac:(vm_compute; reflexivity)) as (canonical & Hc & Hsame).
  injection Hc as <-. assert (EntriesSample.run false [1; 0] = Raise (CompilationFailure "realization-envelope-membership-rejected"
    "/entries/replicate-000001" "the selected scenario is outside the admitted realization envelope")) as Hrun by (vm_compute; reflexivity).
  split; [|exact Hrun]. unfold EntriesSample.run in *. rewrite Hrun in Hsame |- *.
  match goal with |- _ = ?r => change (same_outcome (Raise (CompilationFailure "realization-envelope-membership-rejected"
    "/entries/replicate-000001" "the selected scenario is outside the admitted realization envelope")) r) in Hsame; by destruct r as [|e]; [|cbn in Hsame; subst] end.
Defined.
