(* ===== verification/BehavioralModel.v ===== *)
(** Behavioral claims ([raes_contracts/contracts/base.py]), the relation
    catalog they bind to ([raes_contracts/behavioral_relations.py]) and the
    parameter profiles of opacity relations
    ([raes_contracts/behavioral_relation_profiles.py]). A field whose annotation
    admits one value only is not carried; instances nested in a model have been
    validated by their own constructor. *)
From S2P Require Import Prelude.
From S2P Require Import Contracts.
From S2P Require Import Diagnostics.
From S2P Require Import TimeModel.
From S2P Require Import ExploitModel.
From Stdlib Require Import Ascii.
Local Open Scope string_scope.
Local Open Scope list_scope.

(** ** Constrained strings *)

(** A first character and any number of others. *)
Definition pattern (first rest : ascii -> bool) (s : string) : bool :=
  match chars s with c :: l => first c && forallb rest l | [] => false end.
Definition lower_alnum (c : ascii) : bool := lower_char c || digit_char c.
Definition char_in (others : string) (c : ascii) : bool := existsb (Ascii.eqb c) (chars others).

Definition SafeRef (s : string) : bool :=
  pattern lower_char (fun c => lower_alnum c || char_in "._:/-" c) s && max_length 256 s.
Definition SafeKey (s : string) : bool :=
  pattern lower_char (fun c => lower_alnum c || char_in "._:/|-" c) s && max_length 256 s.
Definition Revision (s : string) : bool :=
  pattern lower_alnum (fun c => lower_alnum c || char_in "._/-" c) s && max_length 128 s.
Definition BehavioralRelationId (s : string) : bool := pattern lower_char (fun c => lower_alnum c || char_in "-" c) s.
Definition BehavioralTaxonomyRevision (s : string) : bool :=
  pattern lower_alnum (fun c => lower_alnum c || char_in ".-" c) s.

(** Dash-separated words. *)
Definition ProfileId (s : string) : bool :=
  forallb (fun w => bool_decide (w <> []) && forallb lower_alnum w) (split_on "-"%char (chars s)) && max_length 64 s.

(** ** Claims *)

Inductive QuantifierScope : Type :=
| single_artifact | finite_cases | sampled_population | all_admitted_inputs | all_traces | all_strategies.
#[export] Instance QuantifierScope_eq_dec : EqDecision QuantifierScope.
Proof. solve_decision. Defined.
Inductive EvidenceScope : Type :=
| scope_structural | scope_finite | scope_statistical | scope_model_check | scope_proof.
#[export] Instance EvidenceScope_eq_dec : EqDecision EvidenceScope.
Proof. solve_decision. Defined.
Inductive AssuranceAxis : Type :=
| axis_definition | axis_checker | axis_bounded_test | axis_model_check | axis_proof | axis_runtime_enforcement
| axis_backend_declaration | axis_backend_realization | axis_backend_conformance.
#[export] Instance AssuranceAxis_eq_dec : EqDecision AssuranceAxis.
Proof. solve_decision. Defined.
Inductive AssuranceStatus : Type :=
| status_defined | status_implemented | status_tested | status_model_checked | status_proved
| status_deliberately_unproved | status_future | status_enforced | status_declared | status_realized | status_conformant.
#[export] Instance AssuranceStatus_eq_dec : EqDecision AssuranceStatus.
Proof. solve_decision. Defined.

Definition evidence_value (e : EvidenceScope) : string :=
  match e with
  | scope_structural => "structural" | scope_finite => "finite" | scope_statistical => "statistical"
  | scope_model_check => "model-check" | scope_proof => "proof"
  end.
Definition axis_value (a : AssuranceAxis) : string :=
  match a with
  | axis_definition => "definition" | axis_checker => "checker" | axis_bounded_test => "bounded-test"
  | axis_model_check => "model-check" | axis_proof => "proof" | axis_runtime_enforcement => "runtime-enforcement"
  | axis_backend_declaration => "backend-declaration" | axis_backend_realization => "backend-realization"
  | axis_backend_conformance => "backend-conformance"
  end.
Definition status_value (s : AssuranceStatus) : string :=
  match s with
  | status_defined => "defined" | status_implemented => "implemented" | status_tested => "tested"
  | status_model_checked => "model-checked" | status_proved => "proved"
  | status_deliberately_unproved => "deliberately-unproved" | status_future => "future" | status_enforced => "enforced"
  | status_declared => "declared" | status_realized => "realized" | status_conformant => "conformant"
  end.

(** The status an axis expects, and the evidence scopes it admits. *)
Definition ASSURANCE_AXIS_RULES (a : AssuranceAxis) : AssuranceStatus * list EvidenceScope :=
  match a with
  | axis_definition => (status_defined, [scope_structural])
  | axis_checker => (status_implemented, [scope_structural; scope_finite])
  | axis_bounded_test => (status_tested, [scope_finite])
  | axis_model_check => (status_model_checked, [scope_model_check])
  | axis_proof => (status_proved, [scope_proof])
  | axis_runtime_enforcement => (status_enforced, [scope_structural; scope_finite])
  | axis_backend_declaration => (status_declared, [scope_structural])
  | axis_backend_realization => (status_realized, [scope_structural; scope_finite])
  | axis_backend_conformance => (status_conformant, [scope_finite; scope_statistical])
  end.

Record BehavioralClaimBinding : Type := Claim {
  claim_taxonomy_id : string;
  claim_taxonomy_revision : string;
  claim_relation_id : string;
  claim_subject : string;
  claim_left_carrier_ref : option string;
  claim_right_carrier_ref : option string;
  observation_projection_ref : option string;
  observation_projection_revision : option string;
  relation_parameter_profile_ref : option string;
  relation_parameter_profile_revision : option string;
  quantifier_scope : QuantifierScope;
  evidence_scope : EvidenceScope;
  assurance_axis : option AssuranceAxis;
  evidence_boundary : string;
  assurance_status : AssuranceStatus;
  claim_evidence_refs : list string;
  claim_limitations : list string;
  claim_explicit_non_claims : list string;
}.
#[export] Instance BehavioralClaimBinding_eq_dec : EqDecision BehavioralClaimBinding.
Proof. solve_decision. Defined.

Definition validate_quantifier_evidence (c : BehavioralClaimBinding) : result unit :=
  raise_if (bool_decide (quantifier_scope c ∈ [all_admitted_inputs; all_traces; all_strategies])
            && bool_decide (evidence_scope c ∉ [scope_model_check; scope_proof]))
    (ValueError "universal quantification requires model-check or proof evidence").

(** [repr] of a list of strings. *)
Definition py_list_repr (l : list string) : string := "[" +:+ String.concat ", " (py_repr <$> l) +:+ "]".

Definition validate_explicit_assurance_axis (c : BehavioralClaimBinding) : result unit :=
  match assurance_axis c with
  | None => Ok tt
  | Some axis =>
      let '(expected, allowed) := ASSURANCE_AXIS_RULES axis in
      if bool_decide (assurance_status c = status_future)
         || bool_decide (axis = axis_proof) && bool_decide (assurance_status c = status_deliberately_unproved) then
        raise_if (bool_decide (evidence_scope c <> scope_structural))
          (ValueError ("assurance axis " +:+ py_repr (axis_value axis) +:+ " with status "
             +:+ py_repr (status_value (assurance_status c)) +:+ " requires structural evidence"))
      else
        raise_if (bool_decide (assurance_status c <> expected) || bool_decide (evidence_scope c ∉ allowed))
          (ValueError ("assurance axis " +:+ py_repr (axis_value axis) +:+ " requires status "
             +:+ py_repr (status_value expected) +:+ " and evidence scope in "
             +:+ py_list_repr (py_sorted (evidence_value <$> allowed))))
  end.

Definition validate_unscoped_assurance (c : BehavioralClaimBinding) : result unit :=
  match assurance_axis c with
  | Some _ => Ok tt
  | None =>
      _ ← raise_if (bool_decide (assurance_status c ∈ [status_enforced; status_declared; status_realized; status_conformant]))
        (ValueError ("assurance status " +:+ py_repr (status_value (assurance_status c)) +:+ " requires an explicit assurance axis"));
      _ ← raise_if (bool_decide (assurance_status c = status_proved) && bool_decide (evidence_scope c <> scope_proof))
        (ValueError "proved assurance requires proof evidence");
      raise_if (bool_decide (assurance_status c = status_model_checked) && bool_decide (evidence_scope c <> scope_model_check))
        (ValueError "model-checked assurance requires model-check evidence")
  end.

Definition is_none {A} (o : option A) : bool := match o with None => true | Some _ => false end.

(** Two optional coordinates are given together. *)
Definition validate_coordinate_pair (ref revision : option string) (label : string) : result unit :=
  raise_if (xorb (is_none ref) (is_none revision))
    (ValueError (label +:+ " ref and revision must be supplied together")).

Definition validate_claim (c : BehavioralClaimBinding) : result BehavioralClaimBinding :=
  _ ← require_fields
    [("taxonomy_id", nonempty (claim_taxonomy_id c));
     ("taxonomy_revision", BehavioralTaxonomyRevision (claim_taxonomy_revision c));
     ("relation_id", BehavioralRelationId (claim_relation_id c)); ("subject", nonempty (claim_subject c));
     ("left_carrier_ref", optional nonempty (claim_left_carrier_ref c));
     ("right_carrier_ref", optional nonempty (claim_right_carrier_ref c));
     ("observation_projection_ref", optional nonempty (observation_projection_ref c));
     ("observation_projection_revision", optional nonempty (observation_projection_revision c));
     ("relation_parameter_profile_ref", optional nonempty (relation_parameter_profile_ref c));
     ("relation_parameter_profile_revision", optional nonempty (relation_parameter_profile_revision c));
     ("evidence_boundary", nonempty (evidence_boundary c)); ("evidence_refs", forallb nonempty (claim_evidence_refs c));
     ("limitations", Nat.leb 1 (length (claim_limitations c)) && forallb nonempty (claim_limitations c));
     ("explicit_non_claims",
       Nat.leb 1 (length (claim_explicit_non_claims c)) && forallb nonempty (claim_explicit_non_claims c))];
  _ ← validate_quantifier_evidence c;
  _ ← validate_explicit_assurance_axis c;
  _ ← validate_unscoped_assurance c;
  _ ← validate_coordinate_pair (observation_projection_ref c) (observation_projection_revision c) "observation projection";
  _ ← validate_coordinate_pair (relation_parameter_profile_ref c) (relation_parameter_profile_revision c)
        "relation parameter profile";
  Ok c.

(** ** Parameter profiles *)

(** [_require_sorted_unique]. *)
Definition require_canonical_order (values : list string) (label : string) : result unit :=
  raise_if (bool_decide (values <> py_sorted (py_dedupe values)))
    (ValueError (label +:+ " must be unique and use canonical sorted order")).

Inductive OpacityObserver : Type :=
| IndividualOpacityObserver (participant audience : string)
| CoalitionOpacityObserver (members : list string) (audience rule revision : string).
#[export] Instance OpacityObserver_eq_dec : EqDecision OpacityObserver.
Proof. solve_decision. Defined.

Definition validate_observer (o : OpacityObserver) : result OpacityObserver :=
  match o with
  | IndividualOpacityObserver participant audience =>
      _ ← require_fields [("participant_ref", SafeRef participant); ("audience_ref", SafeRef audience)]; Ok o
  | CoalitionOpacityObserver members audience rule revision =>
      _ ← require_fields
        [("member_refs", bounded_tuple 2 32 SafeRef members); ("audience_ref", SafeRef audience);
         ("fusion_rule_ref", SafeRef rule); ("fusion_rule_revision", Revision revision)];
      _ ← require_canonical_order members "coalition member refs";
      Ok o
  end.

Inductive OpacityCarrier : Type :=
| FiniteOpacityCarrier (reachability_ref reachability_revision : string)
| AbstractOpacityCarrier (reachability_ref reachability_revision eligibility_ref eligibility_revision
    correspondence_ref correspondence_revision : string).
#[export] Instance OpacityCarrier_eq_dec : EqDecision OpacityCarrier.
Proof. solve_decision. Defined.
Definition is_finite_carrier (c : OpacityCarrier) : bool :=
  match c with FiniteOpacityCarrier _ _ => true | _ => false end.

Inductive ObservableChannel : Type :=
| ch_action_availability | ch_decision | ch_delivery | ch_latency | ch_order | ch_participant_state | ch_payload
| ch_policy_release | ch_retry.
#[export] Instance ObservableChannel_eq_dec : EqDecision ObservableChannel.
Proof. solve_decision. Defined.
Definition channel_value (c : ObservableChannel) : string :=
  match c with
  | ch_action_availability => "action-availability" | ch_decision => "decision" | ch_delivery => "delivery"
  | ch_latency => "latency" | ch_order => "order" | ch_participant_state => "participant-state" | ch_payload => "payload"
  | ch_policy_release => "policy-release" | ch_retry => "retry"
  end.
Inductive SupervisorDecisions : Type :=
| fully_known | public_contract_hidden_realization | online_learned | selectively_disclosed.
#[export] Instance SupervisorDecisions_eq_dec : EqDecision SupervisorDecisions.
Proof. solve_decision. Defined.

Record OpacityObservation : Type := Observation {
  projection_ref : string;
  projection_revision : string;
  observable_channels : list ObservableChannel;
  supervisor_decisions : SupervisorDecisions;
}.
#[export] Instance OpacityObservation_eq_dec : EqDecision OpacityObservation.
Proof. solve_decision. Defined.

Definition validate_observation (o : OpacityObservation) : result OpacityObservation :=
  _ ← require_fields
    [("projection_ref", SafeRef (projection_ref o)); ("projection_revision", Revision (projection_revision o));
     ("observable_channels", Nat.leb 1 (length (observable_channels o)) && Nat.leb (length (observable_channels o)) 16)];
  _ ← require_canonical_order (channel_value <$> observable_channels o) "observable channels";
  Ok o.

Inductive HorizonScope : Type := scope_current | scope_initial | scope_historical_k | scope_language.
#[export] Instance HorizonScope_eq_dec : EqDecision HorizonScope.
Proof. solve_decision. Defined.

Record OpacityHorizon : Type := Horizon {
  horizon_scope : HorizonScope;
  horizon_cut_ref : string;
  horizon_cut_revision : string;
  horizon_steps : option Z;
}.
#[export] Instance OpacityHorizon_eq_dec : EqDecision OpacityHorizon.
Proof. solve_decision. Defined.

Definition validate_horizon (h : OpacityHorizon) : result OpacityHorizon :=
  _ ← require_fields
    [("cut_ref", SafeRef (horizon_cut_ref h)); ("cut_revision", Revision (horizon_cut_revision h));
     ("steps", optional (in_range 1 1024) (horizon_steps h))];
  _ ← raise_if (xorb (bool_decide (horizon_scope h = scope_historical_k)) (negb (is_none (horizon_steps h))))
    (ValueError "historical-k horizon alone requires a positive steps bound");
  Ok h.

Inductive MemoryRetention : Type := perfect | cross_episode | episode_local | cut_local.
#[export] Instance MemoryRetention_eq_dec : EqDecision MemoryRetention.
Proof. solve_decision. Defined.

Record OpacityMemory : Type := Memory {
  retention : MemoryRetention;
  memory_ref : string;
  memory_revision : string;
  reset_rule_ref : option string;
  reset_rule_revision : option string;
}.
#[export] Instance OpacityMemory_eq_dec : EqDecision OpacityMemory.
Proof. solve_decision. Defined.

Definition validate_memory (m : OpacityMemory) : result OpacityMemory :=
  _ ← require_fields
    [("memory_ref", SafeRef (memory_ref m)); ("memory_revision", Revision (memory_revision m));
     ("reset_rule_ref", optional SafeRef (reset_rule_ref m)); ("reset_rule_revision", optional Revision (reset_rule_revision m))];
  _ ← validate_coordinate_pair (reset_rule_ref m) (reset_rule_revision m) "memory reset rule";
  Ok m.

Inductive OpacityStrategy : Type := PassiveOpacityStrategy | ActiveOpacityStrategy (refs : list string).
#[export] Instance OpacityStrategy_eq_dec : EqDecision OpacityStrategy.
Proof. solve_decision. Defined.

Definition validate_strategy (s : OpacityStrategy) : result OpacityStrategy :=
  match s with
  | PassiveOpacityStrategy => Ok s
  | ActiveOpacityStrategy refs =>
      _ ← require_fields [("strategy_refs", bounded_tuple 1 64 SafeRef refs)];
      _ ← require_canonical_order refs "active strategy refs";
      Ok s
  end.

Inductive OrderTreatment : Type :=
| total_order | named_linearization | all_linearizations | partial_order | causal_frontier.
#[export] Instance OrderTreatment_eq_dec : EqDecision OrderTreatment.
Proof. solve_decision. Defined.

Record OpacityOrder : Type := OrderParameters { treatment : OrderTreatment; profile_order_refs : list string }.
#[export] Instance OpacityOrder_eq_dec : EqDecision OpacityOrder.
Proof. solve_decision. Defined.

Definition validate_order (o : OpacityOrder) : result OpacityOrder :=
  _ ← require_fields [("order_refs", bounded_tuple 1 64 SafeRef (profile_order_refs o))];
  _ ← require_canonical_order (profile_order_refs o) "order refs";
  Ok o.

Record OpacityTime : Type := TimeParameters {
  absence_observable : bool;
  opportunity_basis_ref : option string;
  opportunity_basis_revision : option string;
}.
#[export] Instance OpacityTime_eq_dec : EqDecision OpacityTime.
Proof. solve_decision. Defined.

Definition validate_time (t : OpacityTime) : result OpacityTime :=
  _ ← require_fields
    [("opportunity_basis_ref", optional SafeRef (opportunity_basis_ref t));
     ("opportunity_basis_revision", optional Revision (opportunity_basis_revision t))];
  _ ← validate_coordinate_pair (opportunity_basis_ref t) (opportunity_basis_revision t) "opportunity basis";
  _ ← raise_if (absence_observable t && is_none (opportunity_basis_ref t))
    (ValueError "observable absence requires a declared opportunity basis");
  _ ← raise_if (negb (absence_observable t) && negb (is_none (opportunity_basis_ref t)))
    (ValueError "an opportunity basis is valid only when absence is observable");
  Ok t.

Record OpacityFiniteBounds : Type := FiniteBounds {
  bound_points : Z;
  bound_runs : Z;
  bound_cuts : Z;
  bound_strategies : Z;
  bound_scheduler_environment_pairs : Z;
  bound_order_variants : Z;
}.
#[export] Instance OpacityFiniteBounds_eq_dec : EqDecision OpacityFiniteBounds.
Proof. solve_decision. Defined.

Definition validate_bounds (b : OpacityFiniteBounds) : result OpacityFiniteBounds :=
  _ ← require_fields
    [("max_points", in_range 1 100000 (bound_points b)); ("max_runs", in_range 1 10000 (bound_runs b));
     ("max_cuts", in_range 1 10000 (bound_cuts b)); ("max_strategies", in_range 1 1000 (bound_strategies b));
     ("max_scheduler_environment_pairs", in_range 1 10000 (bound_scheduler_environment_pairs b));
     ("max_order_variants", in_range 1 1000 (bound_order_variants b))];
  Ok b.

(** A reference with its revision: the secret predicate, the projection of the
    initial information. *)
Record Revisioned : Type := Revisioned_at { revisioned_ref : string; revisioned_revision : string }.
#[export] Instance Revisioned_eq_dec : EqDecision Revisioned.
Proof. solve_decision. Defined.

Record OpacityRelease : Type := Release {
  schedule_ref : string;
  schedule_revision : string;
  exact_cut : bool;
}.
#[export] Instance OpacityRelease_eq_dec : EqDecision OpacityRelease.
Proof. solve_decision. Defined.

Record ParticipantPredicateOpacityParameters : Type := Parameters {
  observer : OpacityObserver;
  secret : Revisioned;
  carrier : OpacityCarrier;
  initial_information : Revisioned;
  observation : OpacityObservation;
  horizon : OpacityHorizon;
  memory : OpacityMemory;
  strategy : OpacityStrategy;
  release : OpacityRelease;
  profile_scheduler_refs : list string;
  profile_environment_refs : list string;
  order : OpacityOrder;
  time : OpacityTime;
  bounds : option OpacityFiniteBounds;
}.
#[export] Instance ParticipantPredicateOpacityParameters_eq_dec : EqDecision ParticipantPredicateOpacityParameters.
Proof. solve_decision. Defined.

(** [_validate_domains]. *)
Definition validate_domains (p : ParticipantPredicateOpacityParameters) : result unit :=
  _ ← require_canonical_order (profile_scheduler_refs p) "scheduler refs";
  _ ← require_canonical_order (profile_environment_refs p) "environment refs";
  _ ← raise_if (is_finite_carrier (carrier p) && is_none (bounds p))
    (ValueError "finite opacity carriers require declared finite bounds");
  _ ← raise_if (negb (is_finite_carrier (carrier p)) && negb (is_none (bounds p)))
    (ValueError "abstract theorem carriers must not declare finite bounds");
  let strategy_count := match strategy p with ActiveOpacityStrategy refs => length refs | _ => 1%nat end in
  match bounds p with
  | None => Ok tt
  | Some b =>
      _ ← raise_if (bound_strategies b <? Z.of_nat strategy_count)%Z
        (ValueError "declared strategies exceed the finite profile bound");
      _ ← raise_if (bound_order_variants b <? Z.of_nat (length (profile_order_refs (order p))))%Z
        (ValueError "declared order variants exceed the finite profile bound");
      raise_if (bound_scheduler_environment_pairs b
                  <? Z.of_nat (length (profile_scheduler_refs p) * length (profile_environment_refs p)))%Z
        (ValueError "declared scheduler/environment pairs exceed the finite profile bound")
  end.

Definition validate_parameters (p : ParticipantPredicateOpacityParameters) : result ParticipantPredicateOpacityParameters :=
  _ ← require_fields
    [("scheduler_refs", bounded_tuple 1 64 SafeRef (profile_scheduler_refs p));
     ("environment_refs", bounded_tuple 1 64 SafeRef (profile_environment_refs p))];
  _ ← validate_domains p;
  Ok p.

Inductive FiniteAnalysisScope : Type := declared_complete_finite_carrier | abstract_parameterized_theorem_carrier.
#[export] Instance FiniteAnalysisScope_eq_dec : EqDecision FiniteAnalysisScope.
Proof. solve_decision. Defined.

Definition BEHAVIORAL_TAXONOMY_ID : string := "raes-behavioral-relations".
Definition OPACITY_RELATION_ID : string := "participant-predicate-opacity".

Record BehavioralProfileSource : Type := ProfileSource { profile_source_ref : string; profile_source_digest : string }.
#[export] Instance BehavioralProfileSource_eq_dec : EqDecision BehavioralProfileSource.
Proof. solve_decision. Defined.

Definition validate_profile_source (p : BehavioralProfileSource) : result BehavioralProfileSource :=
  _ ← require_fields
    [("source_ref", SafeRef (profile_source_ref p)); ("source_digest", prefixed_digest (profile_source_digest p))];
  Ok p.

Record BehavioralRelationProfile : Type := Profile {
  profile_id : string;
  profile_revision : string;
  profile_taxonomy_revision : string;
  left_carrier_ref : string;
  profile_projection_ref : string;
  profile_projection_revision : string;
  finite_analysis_scope : FiniteAnalysisScope;
  parameters : ParticipantPredicateOpacityParameters;
  source_refs : list BehavioralProfileSource;
  profile_limitations : list string;
  profile_explicit_non_claims : list string;
}.
#[export] Instance BehavioralRelationProfile_eq_dec : EqDecision BehavioralRelationProfile.
Proof. solve_decision. Defined.

Definition validate_profile (p : BehavioralRelationProfile) : result BehavioralRelationProfile :=
  _ ← require_fields
    [("profile_id", ProfileId (profile_id p)); ("profile_revision", Revision (profile_revision p));
     ("taxonomy_revision", BehavioralTaxonomyRevision (profile_taxonomy_revision p));
     ("left_carrier_ref", SafeRef (left_carrier_ref p)); ("observation_projection_ref", SafeRef (profile_projection_ref p));
     ("observation_projection_revision", Revision (profile_projection_revision p));
     ("source_refs", Nat.leb 1 (length (source_refs p)) && Nat.leb (length (source_refs p)) 16);
     ("limitations", bounded_tuple 1 32 nonempty (profile_limitations p));
     ("explicit_non_claims", bounded_tuple 1 32 nonempty (profile_explicit_non_claims p))];
  _ ← raise_if (bool_decide (projection_ref (observation (parameters p)) <> profile_projection_ref p)
                || bool_decide (projection_revision (observation (parameters p)) <> profile_projection_revision p))
    (ValueError "profile observation projection must match the parameter projection");
  _ ← require_canonical_order (profile_source_ref <$> source_refs p) "profile source refs";
  _ ← raise_if (xorb (is_finite_carrier (carrier (parameters p)))
                  (bool_decide (finite_analysis_scope p = declared_complete_finite_carrier)))
    (ValueError "profile assurance scope must match its carrier variant");
  Ok p.

(** ** The catalog and the binding of claims *)

(** A relation of the catalog, as far as a binding reads it. *)
Record BehavioralRelationDefinition (O : Type) : Type := Relation {
  relation_id : string;
  projection_required : bool;
  relation_parameter_profile_required : bool;
  relation_other : O;
}.
Arguments Relation {O}.
Arguments relation_id {O}.
Arguments projection_required {O}.
Arguments relation_parameter_profile_required {O}.
Arguments relation_other {O}.

Record BehavioralRelationCatalog (O : Type) : Type := Catalog {
  catalog_taxonomy_revision : string;
  relations : gmap string (BehavioralRelationDefinition O);
  catalog_other : O;
}.
Arguments Catalog {O}.
Arguments catalog_taxonomy_revision {O}.
Arguments relations {O}.
Arguments catalog_other {O}.

Section binding.
Context {O : Type}.
(** The corpus on disk: the catalog and profile revisions it holds. *)
Context (load_catalog : string -> result (BehavioralRelationCatalog O)).
Context (load_profile : string -> string -> result BehavioralRelationProfile).

Definition resolve_binding_relation (binding : BehavioralClaimBinding) (catalog : BehavioralRelationCatalog O)
    : result (BehavioralRelationDefinition O) :=
  _ ← raise_if (bool_decide (claim_taxonomy_id binding <> BEHAVIORAL_TAXONOMY_ID))
    (ValueError "behavioral claim binding taxonomy coordinates do not match the canonical catalog");
  _ ← raise_if (bool_decide (claim_taxonomy_revision binding <> catalog_taxonomy_revision catalog))
    (ValueError "behavioral claim binding taxonomy coordinates do not match the canonical catalog");
  match relations catalog !! claim_relation_id binding with
  | None => Raise (ValueError ("behavioral claim binding references unknown relation " +:+ py_repr (claim_relation_id binding)))
  | Some relation => Ok relation
  end.

Definition validate_binding_requirements (binding : BehavioralClaimBinding) (relation : BehavioralRelationDefinition O)
    : result unit :=
  mfold (fun _ '(required, absent, description) =>
    raise_if (required && absent)
      (ValueError ("relation " +:+ py_repr (claim_relation_id binding) +:+ " requires " +:+ description))) tt
    [(projection_required relation, is_none (observation_projection_ref binding), "an observation projection binding");
     (relation_parameter_profile_required relation, is_none (relation_parameter_profile_ref binding),
      "a relation parameter profile binding");
     (relation_parameter_profile_required relation, is_none (assurance_axis binding), "an assurance axis")].

Definition validate_binding_profile (binding : BehavioralClaimBinding) (catalog : BehavioralRelationCatalog O)
    (profile : BehavioralRelationProfile) : result unit :=
  mfold (fun _ '(profile_value, binding_value, label) =>
    raise_if (bool_decide (Some profile_value <> binding_value))
      (ValueError ("behavioral claim binding " +:+ label +:+ " does not match the resolved profile"))) tt
    [(profile_id profile, relation_parameter_profile_ref binding, "profile identity");
     (profile_revision profile, relation_parameter_profile_revision binding, "profile revision");
     (BEHAVIORAL_TAXONOMY_ID, Some (claim_taxonomy_id binding), "profile taxonomy id");
     (profile_taxonomy_revision profile, Some (claim_taxonomy_revision binding), "profile taxonomy revision");
     (BEHAVIORAL_TAXONOMY_ID, Some BEHAVIORAL_TAXONOMY_ID, "profile catalog taxonomy id");
     (profile_taxonomy_revision profile, Some (catalog_taxonomy_revision catalog), "profile catalog taxonomy revision");
     (OPACITY_RELATION_ID, Some (claim_relation_id binding), "profile relation");
     (left_carrier_ref profile, claim_left_carrier_ref binding, "profile carrier");
     (profile_projection_ref profile, observation_projection_ref binding, "profile observation projection");
     (profile_projection_revision profile, observation_projection_revision binding, "profile observation projection revision")].

Definition validate_behavioral_claim_binding (binding : BehavioralClaimBinding)
    (catalog : option (BehavioralRelationCatalog O)) (profile : option BehavioralRelationProfile)
    : result BehavioralClaimBinding :=
  catalog ← (match catalog with None => load_catalog (claim_taxonomy_revision binding) | Some catalog => Ok catalog end);
  relation ← resolve_binding_relation binding catalog;
  _ ← validate_binding_requirements binding relation;
  _ ← (if relation_parameter_profile_required relation then
         profile ← (match profile with
                    | Some profile => Ok profile
                    | None =>
                        match relation_parameter_profile_ref binding, relation_parameter_profile_revision binding with
                        | Some ref, Some revision => load_profile ref revision
                        | _, _ => Raise (AssertionError "")
                        end
                    end);
         validate_binding_profile binding catalog profile
       else
         raise_if (negb (is_none profile))
           (ValueError "behavioral claim binding supplied a profile for a relation that does not require one"));
  Ok binding.
End binding.
