(* ===== verification/OpacityModel.v ===== *)
(** Participant-opacity contracts: the finite transition model with its
    identity, count and domain checks
    ([raes_contracts/_participant_opacity_model.py]), the bounded carrier of
    possible points ([raes_contracts/participant_opacity.py]), and the evidence
    of both lanes ([raes_contracts/_participant_opacity_model_check.py]). *)
From S2P Require Import Prelude.
From S2P Require Import Contracts.
From S2P Require Import Diagnostics.
From S2P Require Import Sha256.
From S2P Require Import TimeModel.
From S2P Require Import ExploitModel.
From S2P Require Import BehavioralModel.
From stdpp Require Import pretty.
From Stdlib Require Import Ascii.
Local Open Scope string_scope.
Local Open Scope list_scope.

Definition MAX_OPACITY_POINTS : Z := 100000.
Definition MAX_OPACITY_DIAGNOSTICS : nat := 64.
Definition MAX_OPACITY_MODEL_STATES : Z := 100000.
Definition MAX_OPACITY_MODEL_TRANSITIONS : Z := 200000.
Definition NORMALIZED_INPUT_PROVENANCE_NONCLAIM : string :=
  "No source or materializer authenticity is established by this normalized-input evidence.".
Definition MODEL_CHECK_PROVENANCE_NONCLAIM : string :=
  "No source or materializer authenticity is established by this normalized-model evidence.".

(** The bytes [rfc8785.dumps] gives for the JSON form that pydantic gives for a
    carrier; both are third-party code. *)
Class Canonical (A : Type) : Type := canonical_json_bytes : A -> string.
Definition canonical_json_digest {A} `{Canonical A} (a : A) : string := "sha256:" +:+ sha256_hex (canonical_json_bytes a).

(** ** Sources ([raes_contracts/satisfiability.py]) *)

Record SourceArtifactIdentity : Type := SourceIdentity { source_id : string; byte_digest : string }.
#[export] Instance SourceArtifactIdentity_eq_dec : EqDecision SourceArtifactIdentity.
Proof. solve_decision. Defined.

Definition backslash : ascii := ascii_of_nat 92.
Definition letter (c : ascii) : bool := lower_char c || (let n := nat_of_ascii c in Nat.leb 65 n && Nat.leb n 90).

(** An absolute path: a leading separator, or a drive. *)
Definition absolute_path (s : list ascii) : bool :=
  match s with
  | c :: ":"%char :: d :: _ => letter c && (Ascii.eqb d backslash || Ascii.eqb d "/"%char)
  | _ => false
  end
  || match s with c :: _ => Ascii.eqb c "/"%char || Ascii.eqb c backslash | [] => false end.

Definition parent_traversal (s : list ascii) : bool :=
  bool_decide (["."; "."]%char ∈ split_on "/"%char ((fun c => if Ascii.eqb c backslash then "/"%char else c) <$> s)).

Definition validate_source (s : SourceArtifactIdentity) : result SourceArtifactIdentity :=
  _ ← require_fields
    [("source_id", nonempty (source_id s) && max_length 256 (source_id s)
        && forallb (fun c => negb (Nat.eqb (nat_of_ascii c) 10) && negb (Nat.eqb (nat_of_ascii c) 13)) (chars (source_id s)));
     ("byte_digest", prefixed_digest (byte_digest s))];
  _ ← raise_if (absolute_path (chars (source_id s)))
    (ValueError "source_id must be portable rather than an absolute host path");
  _ ← raise_if (parent_traversal (chars (source_id s))) (ValueError "source_id must not contain parent traversal");
  Ok s.

(** ** The points of an information-cell scan *)

(** What the kernel reads of a point ([OpacityKernelPoint] of
    [raes_processor/participant_opacity/_kernel.py]). *)
Class OpacityKernelPoint (A : Type) : Type := {
  ordinal : A -> Z;
  strategy_ref : A -> string;
  order_ref : A -> string;
  secret_holds : A -> bool;
  initial_information_key : A -> string;
  observation_key : A -> string;
  memory_key : A -> string;
  release_state_key : A -> string;
  coalition_fusion_key : A -> option string;
}.

Record ParticipantOpacityModelState : Type := ModelState {
  ms_ordinal : Z;
  state_ref : string;
  run_ref : string;
  cut_ref : string;
  ms_strategy_ref : string;
  scheduler_ref : string;
  environment_ref : string;
  ms_order_ref : string;
  evaluation_point : bool;
  ms_secret_holds : bool;
  ms_initial_information_key : string;
  ms_observation_key : string;
  ms_memory_key : string;
  ms_release_state_key : string;
  ms_coalition_fusion_key : option string;
}.
#[export] Instance ParticipantOpacityModelState_eq_dec : EqDecision ParticipantOpacityModelState.
Proof. solve_decision. Defined.
#[export] Instance model_state_point : OpacityKernelPoint ParticipantOpacityModelState := {
  ordinal := ms_ordinal; strategy_ref := ms_strategy_ref; order_ref := ms_order_ref; secret_holds := ms_secret_holds;
  initial_information_key := ms_initial_information_key; observation_key := ms_observation_key;
  memory_key := ms_memory_key; release_state_key := ms_release_state_key;
  coalition_fusion_key := ms_coalition_fusion_key;
}.

Definition validate_state (s : ParticipantOpacityModelState) : result ParticipantOpacityModelState :=
  _ ← require_fields
    [("ordinal", in_range 0 (MAX_OPACITY_MODEL_STATES - 1) (ms_ordinal s)); ("state_ref", SafeRef (state_ref s));
     ("run_ref", SafeRef (run_ref s)); ("cut_ref", SafeRef (cut_ref s)); ("strategy_ref", SafeRef (ms_strategy_ref s));
     ("scheduler_ref", SafeRef (scheduler_ref s)); ("environment_ref", SafeRef (environment_ref s));
     ("order_ref", SafeRef (ms_order_ref s)); ("initial_information_key", SafeKey (ms_initial_information_key s));
     ("observation_key", SafeKey (ms_observation_key s)); ("memory_key", SafeKey (ms_memory_key s));
     ("release_state_key", SafeKey (ms_release_state_key s));
     ("coalition_fusion_key", optional SafeKey (ms_coalition_fusion_key s))];
  Ok s.

Record ParticipantOpacityModelTransition : Type := ModelTransition {
  mt_ordinal : Z;
  transition_ref : string;
  source_state_ordinal : Z;
  target_state_ordinal : Z;
  action_ref : string;
  observation_event_key : string;
}.
#[export] Instance ParticipantOpacityModelTransition_eq_dec : EqDecision ParticipantOpacityModelTransition.
Proof. solve_decision. Defined.

Definition validate_transition (t : ParticipantOpacityModelTransition) : result ParticipantOpacityModelTransition :=
  _ ← require_fields
    [("ordinal", in_range 0 (MAX_OPACITY_MODEL_TRANSITIONS - 1) (mt_ordinal t));
     ("transition_ref", SafeRef (transition_ref t));
     ("source_state_ordinal", in_range 0 (MAX_OPACITY_MODEL_STATES - 1) (source_state_ordinal t));
     ("target_state_ordinal", in_range 0 (MAX_OPACITY_MODEL_STATES - 1) (target_state_ordinal t));
     ("action_ref", SafeRef (action_ref t)); ("observation_event_key", SafeKey (observation_event_key t))];
  Ok t.

Inductive StrategyKind : Type := passive | active.
#[export] Instance StrategyKind_eq_dec : EqDecision StrategyKind.
Proof. solve_decision. Defined.

Record ParticipantOpacityModelAssumptions : Type := Assumptions {
  strategy_kind : StrategyKind;
  strategy_refs : list string;
  scheduler_refs : list string;
  environment_refs : list string;
  order_treatment : OrderTreatment;
  order_refs : list string;
  assumed_cut_ref : string;
}.
#[export] Instance ParticipantOpacityModelAssumptions_eq_dec : EqDecision ParticipantOpacityModelAssumptions.
Proof. solve_decision. Defined.

Definition validate_assumptions (a : ParticipantOpacityModelAssumptions) : result ParticipantOpacityModelAssumptions :=
  _ ← require_fields
    [("strategy_refs", bounded_tuple 1 64 SafeRef (strategy_refs a));
     ("scheduler_refs", bounded_tuple 1 64 SafeRef (scheduler_refs a));
     ("environment_refs", bounded_tuple 1 64 SafeRef (environment_refs a));
     ("order_refs", bounded_tuple 1 64 SafeRef (order_refs a)); ("cut_ref", SafeRef (assumed_cut_ref a))];
  _ ← require_sorted_unique (strategy_refs a) "strategy refs";
  _ ← require_sorted_unique (scheduler_refs a) "scheduler refs";
  _ ← require_sorted_unique (environment_refs a) "environment refs";
  _ ← require_sorted_unique (order_refs a) "order refs";
  Ok a.

Record ParticipantOpacityModelCheckDeclaredCounts : Type := ModelCounts {
  count_states : Z;
  count_transitions : Z;
  count_initial_states : Z;
  count_evaluation_points : Z;
  count_runs : Z;
  count_cuts : Z;
  count_strategies : Z;
  count_scheduler_environment_pairs : Z;
  count_order_variants : Z;
}.
#[export] Instance ParticipantOpacityModelCheckDeclaredCounts_eq_dec : EqDecision ParticipantOpacityModelCheckDeclaredCounts.
Proof. solve_decision. Defined.

Definition validate_counts (c : ParticipantOpacityModelCheckDeclaredCounts) : result ParticipantOpacityModelCheckDeclaredCounts :=
  _ ← require_fields
    [("states", in_range 1 MAX_OPACITY_MODEL_STATES (count_states c));
     ("transitions", in_range 0 MAX_OPACITY_MODEL_TRANSITIONS (count_transitions c));
     ("initial_states", in_range 1 MAX_OPACITY_MODEL_STATES (count_initial_states c));
     ("evaluation_points", in_range 1 MAX_OPACITY_MODEL_STATES (count_evaluation_points c));
     ("runs", in_range 1 MAX_OPACITY_MODEL_STATES (count_runs c));
     ("cuts", in_range 1 MAX_OPACITY_MODEL_STATES (count_cuts c)); ("strategies", in_range 1 1000 (count_strategies c));
     ("scheduler_environment_pairs", in_range 1 10000 (count_scheduler_environment_pairs c));
     ("order_variants", in_range 1 1000 (count_order_variants c))];
  Ok c.

Definition MODEL_CHECK_ANALYSIS_PROFILE : string := "raes-participant-opacity-model-check/v1".
Definition BOUNDED_ANALYSIS_PROFILE : string := "raes-participant-opacity-bounded-test/v1".

Record ParticipantOpacityModelCheckInput : Type := ModelCheckInput {
  analysis_profile : string;
  source : SourceArtifactIdentity;
  catalog_digest : string;
  input_profile_id : string;
  input_profile_revision : string;
  input_profile_digest : string;
  model_ref : string;
  model_revision : string;
  materializer_id : string;
  materializer_version : string;
  materializer_digest : string;
  complete_model : bool;
  assumptions : ParticipantOpacityModelAssumptions;
  declared_counts : ParticipantOpacityModelCheckDeclaredCounts;
  initial_state_ordinals : list Z;
  states : list ParticipantOpacityModelState;
  transitions : list ParticipantOpacityModelTransition;
  claim : BehavioralClaimBinding;
}.
#[export] Instance ParticipantOpacityModelCheckInput_eq_dec : EqDecision ParticipantOpacityModelCheckInput.
Proof. solve_decision. Defined.

(** [range(n)]. *)
Definition range (n : nat) : list Z := Z.of_nat <$> seq 0 n.

(** [tuple(sorted(set(l)))] of integers. *)
Definition sorted_set (l : list Z) : list Z := merge_sort Z.le (elements (list_to_set l : gset Z)).

Definition validate_model_identities (r : ParticipantOpacityModelCheckInput) : result unit :=
  _ ← raise_if (bool_decide (ms_ordinal <$> states r <> range (length (states r))))
    (ValueError "state ordinals must canonically and contiguously cover the state count");
  _ ← raise_if (bool_decide (mt_ordinal <$> transitions r <> range (length (transitions r))))
    (ValueError "transition ordinals must canonically and contiguously cover the transition count");
  _ ← raise_if (negb (py_unique (state_ref <$> states r))) (ValueError "model state refs must be unique");
  _ ← raise_if (negb (py_unique (transition_ref <$> transitions r))) (ValueError "model transition refs must be unique");
  _ ← raise_if (bool_decide (initial_state_ordinals r <> sorted_set (initial_state_ordinals r)))
    (ValueError "initial state ordinals must be unique and sorted");
  raise_if (existsb (fun ordinal => (py_len (states r) <=? ordinal)%Z) (initial_state_ordinals r))
    (ValueError "initial state ordinals must reference declared states").

(** The strategy, scheduler, environment and order of a state. *)
Definition state_domain (s : ParticipantOpacityModelState) : string * string * string * string :=
  (ms_strategy_ref s, scheduler_ref s, environment_ref s, ms_order_ref s).

Definition validate_model_transitions (r : ParticipantOpacityModelCheckInput) : result unit :=
  mfold (fun _ t =>
    _ ← raise_if ((py_len (states r) <=? source_state_ordinal t)%Z || (py_len (states r) <=? target_state_ordinal t)%Z)
      (ValueError "transition endpoints must reference declared states");
    source ← py_index (states r) (source_state_ordinal t);
    target ← py_index (states r) (target_state_ordinal t);
    raise_if (bool_decide (state_domain source <> state_domain target))
      (ValueError "transitions must remain inside one strategy/scheduler/environment/order domain")) tt (transitions r).

(** [len({...})]. *)
Definition distinct {A} `{Countable A} (l : list A) : Z := Z.of_nat (size (list_to_set l : gset A)).

Definition scheduler_environment (s : ParticipantOpacityModelState) : string * string := (scheduler_ref s, environment_ref s).

Definition realized_counts (r : ParticipantOpacityModelCheckInput) : ParticipantOpacityModelCheckDeclaredCounts :=
  ModelCounts (py_len (states r)) (py_len (transitions r)) (py_len (initial_state_ordinals r))
    (py_len (List.filter evaluation_point (states r))) (distinct (run_ref <$> states r)) (distinct (cut_ref <$> states r))
    (distinct (ms_strategy_ref <$> states r)) (distinct (scheduler_environment <$> states r))
    (distinct (ms_order_ref <$> states r)).

Definition validate_model_counts (r : ParticipantOpacityModelCheckInput) : result unit :=
  raise_if (bool_decide (realized_counts r <> declared_counts r))
    (ValueError "declared model-check counts must exactly match the transition model").

(** [{...} != {...}]. *)
Definition sets_differ {A} `{Countable A} (l1 l2 : list A) : bool :=
  bool_decide ((list_to_set l1 : gset A) <> list_to_set l2).

(** [itertools.product]. *)
Definition product {A B} (l1 : list A) (l2 : list B) : list (A * B) := a ← l1; b ← l2; [(a, b)].

Definition assumed_domains (a : ParticipantOpacityModelAssumptions) : list (string * string * string * string) :=
  product (product (product (strategy_refs a) (scheduler_refs a)) (environment_refs a)) (order_refs a).

Definition validate_model_declared_domains (r : ParticipantOpacityModelCheckInput) : result unit :=
  let a := assumptions r in
  _ ← raise_if (sets_differ (ms_strategy_ref <$> states r) (strategy_refs a))
    (ValueError "transition-model strategy domain must exactly match the assumptions");
  _ ← raise_if (sets_differ (scheduler_ref <$> states r) (scheduler_refs a))
    (ValueError "transition-model scheduler domain must exactly match the assumptions");
  _ ← raise_if (sets_differ (environment_ref <$> states r) (environment_refs a))
    (ValueError "transition-model environment domain must exactly match the assumptions");
  _ ← raise_if (sets_differ (scheduler_environment <$> states r) (product (scheduler_refs a) (environment_refs a)))
    (ValueError "transition-model scheduler/environment domain must be the assumptions Cartesian product");
  _ ← raise_if (sets_differ (ms_order_ref <$> states r) (order_refs a))
    (ValueError "transition-model order domain must exactly match the assumptions");
  raise_if (sets_differ (cut_ref <$> states r) [assumed_cut_ref a])
    (ValueError "transition-model cut domain must exactly match the assumptions").

Definition validate_model_initial_domain (r : ParticipantOpacityModelCheckInput) : result unit :=
  initial_states ← mmap (py_index (states r)) (initial_state_ordinals r);
  raise_if (sets_differ (state_domain <$> initial_states) (assumed_domains (assumptions r)))
    (ValueError "initial states must cover every assumed strategy/scheduler/environment/order domain").

Definition validate_model_check_claim_scope (c : BehavioralClaimBinding) (a : ParticipantOpacityModelAssumptions)
    : result unit :=
  let expected := if decide (strategy_kind a = active) then all_strategies else all_traces in
  _ ← raise_if (bool_decide ((assurance_axis c, assurance_status c, evidence_scope c, quantifier_scope c)
                  <> (Some axis_model_check, status_model_checked, scope_model_check, expected)))
    (ValueError "opacity model-check claims must use the profile-matched universal assurance coordinates");
  raise_if (bool_decide (MODEL_CHECK_PROVENANCE_NONCLAIM ∉ claim_explicit_non_claims c))
    (ValueError "normalized-model evidence must disclaim source and materializer authenticity").

Definition validate_model_check_input (r : ParticipantOpacityModelCheckInput) : result ParticipantOpacityModelCheckInput :=
  _ ← require_fields
    [("analysis_profile", bool_decide (analysis_profile r = MODEL_CHECK_ANALYSIS_PROFILE));
     ("catalog_digest", prefixed_digest (catalog_digest r)); ("profile_id", SafeRef (input_profile_id r));
     ("profile_revision", Revision (input_profile_revision r)); ("profile_digest", prefixed_digest (input_profile_digest r));
     ("model_ref", SafeRef (model_ref r)); ("model_revision", Revision (model_revision r));
     ("materializer_id", SafeRef (materializer_id r)); ("materializer_version", Revision (materializer_version r));
     ("materializer_digest", prefixed_digest (materializer_digest r));
     ("initial_state_ordinals", in_range 1 MAX_OPACITY_MODEL_STATES (py_len (initial_state_ordinals r)));
     ("states", in_range 1 MAX_OPACITY_MODEL_STATES (py_len (states r)));
     ("transitions", in_range 0 MAX_OPACITY_MODEL_TRANSITIONS (py_len (transitions r)))];
  _ ← validate_model_identities r;
  _ ← validate_model_transitions r;
  _ ← validate_model_counts r;
  _ ← validate_model_declared_domains r;
  _ ← validate_model_initial_domain r;
  _ ← validate_model_check_claim_scope (claim r) (assumptions r);
  Ok r.

(** ** The bounded carrier *)

Record OpacityPossiblePoint : Type := PossiblePoint {
  pp_ordinal : Z;
  point_ref : string;
  pp_run_ref : string;
  pp_cut_ref : string;
  pp_strategy_ref : string;
  pp_scheduler_ref : string;
  pp_environment_ref : string;
  pp_order_ref : string;
  reachable : bool;
  pp_secret_holds : bool;
  pp_initial_information_key : string;
  pp_observation_key : string;
  pp_memory_key : string;
  pp_release_state_key : string;
  pp_coalition_fusion_key : option string;
}.
#[export] Instance OpacityPossiblePoint_eq_dec : EqDecision OpacityPossiblePoint.
Proof. solve_decision. Defined.
#[export] Instance possible_point : OpacityKernelPoint OpacityPossiblePoint := {
  ordinal := pp_ordinal; strategy_ref := pp_strategy_ref; order_ref := pp_order_ref; secret_holds := pp_secret_holds;
  initial_information_key := pp_initial_information_key; observation_key := pp_observation_key;
  memory_key := pp_memory_key; release_state_key := pp_release_state_key;
  coalition_fusion_key := pp_coalition_fusion_key;
}.

Definition validate_point (p : OpacityPossiblePoint) : result OpacityPossiblePoint :=
  _ ← require_fields
    [("ordinal", in_range 0 (MAX_OPACITY_POINTS - 1) (pp_ordinal p)); ("point_ref", SafeRef (point_ref p));
     ("run_ref", SafeRef (pp_run_ref p)); ("cut_ref", SafeRef (pp_cut_ref p)); ("strategy_ref", SafeRef (pp_strategy_ref p));
     ("scheduler_ref", SafeRef (pp_scheduler_ref p)); ("environment_ref", SafeRef (pp_environment_ref p));
     ("order_ref", SafeRef (pp_order_ref p)); ("initial_information_key", SafeKey (pp_initial_information_key p));
     ("observation_key", SafeKey (pp_observation_key p)); ("memory_key", SafeKey (pp_memory_key p));
     ("release_state_key", SafeKey (pp_release_state_key p));
     ("coalition_fusion_key", optional SafeKey (pp_coalition_fusion_key p))];
  Ok p.

Record ParticipantOpacityDeclaredCounts : Type := PointCounts {
  pc_points : Z;
  pc_runs : Z;
  pc_cuts : Z;
  pc_strategies : Z;
  pc_scheduler_environment_pairs : Z;
  pc_order_variants : Z;
}.
#[export] Instance ParticipantOpacityDeclaredCounts_eq_dec : EqDecision ParticipantOpacityDeclaredCounts.
Proof. solve_decision. Defined.

Definition validate_point_counts (c : ParticipantOpacityDeclaredCounts) : result ParticipantOpacityDeclaredCounts :=
  _ ← require_fields
    [("points", in_range 1 MAX_OPACITY_POINTS (pc_points c)); ("runs", in_range 1 MAX_OPACITY_POINTS (pc_runs c));
     ("cuts", in_range 1 MAX_OPACITY_POINTS (pc_cuts c)); ("strategies", in_range 1 MAX_OPACITY_POINTS (pc_strategies c));
     ("scheduler_environment_pairs", in_range 1 MAX_OPACITY_POINTS (pc_scheduler_environment_pairs c));
     ("order_variants", in_range 1 MAX_OPACITY_POINTS (pc_order_variants c))];
  Ok c.

Record ParticipantOpacityAnalysisInput : Type := OpacityAnalysisInput {
  an_analysis_profile : string;
  an_source : SourceArtifactIdentity;
  an_profile_id : string;
  an_profile_revision : string;
  an_profile_digest : string;
  normalized_model_ref : string;
  an_materializer_id : string;
  an_materializer_version : string;
  an_materializer_digest : string;
  complete_enumeration : bool;
  an_declared_counts : ParticipantOpacityDeclaredCounts;
  an_claim : BehavioralClaimBinding;
  points : list OpacityPossiblePoint;
}.
#[export] Instance ParticipantOpacityAnalysisInput_eq_dec : EqDecision ParticipantOpacityAnalysisInput.
Proof. solve_decision. Defined.

Definition point_scheduler_environment (p : OpacityPossiblePoint) : string * string := (pp_scheduler_ref p, pp_environment_ref p).

Definition realized_point_counts (l : list OpacityPossiblePoint) : ParticipantOpacityDeclaredCounts :=
  PointCounts (py_len l) (distinct (pp_run_ref <$> l)) (distinct (pp_cut_ref <$> l)) (distinct (pp_strategy_ref <$> l))
    (distinct (point_scheduler_environment <$> l)) (distinct (pp_order_ref <$> l)).

(** [_validate_finite_carrier]. *)
Definition validate_finite_carrier (r : ParticipantOpacityAnalysisInput) : result unit :=
  let ordinals := pp_ordinal <$> points r in
  _ ← raise_if (negb (bool_decide (NoDup ordinals)) || sets_differ ordinals (range (length (points r))))
    (ValueError "point ordinals must uniquely and contiguously cover the point count");
  _ ← raise_if (negb (py_unique (point_ref <$> points r))) (ValueError "possible point refs must be unique");
  raise_if (bool_decide (realized_point_counts (points r) <> an_declared_counts r))
    (ValueError "declared finite counts must exactly match the realized carrier count").

Definition validate_analysis_input (r : ParticipantOpacityAnalysisInput) : result ParticipantOpacityAnalysisInput :=
  _ ← require_fields
    [("analysis_profile", bool_decide (an_analysis_profile r = BOUNDED_ANALYSIS_PROFILE));
     ("profile_id", SafeRef (an_profile_id r)); ("profile_revision", Revision (an_profile_revision r));
     ("profile_digest", prefixed_digest (an_profile_digest r)); ("normalized_model_ref", SafeRef (normalized_model_ref r));
     ("materializer_id", SafeRef (an_materializer_id r)); ("materializer_version", Revision (an_materializer_version r));
     ("materializer_digest", prefixed_digest (an_materializer_digest r));
     ("points", in_range 1 MAX_OPACITY_POINTS (py_len (points r)))];
  _ ← validate_finite_carrier r;
  Ok r.

(** [sorted(points, key=lambda point: point.ordinal)], a stable sort. *)
Definition ordinal_le {A} `{OpacityKernelPoint A} (a b : A) : Prop := (ordinal a <= ordinal b)%Z.
#[export] Instance ordinal_le_dec {A} `{OpacityKernelPoint A} : RelDecision (ordinal_le (A := A)).
Proof. intros a b. apply Z_le_dec. Defined.
Definition sorted_by_ordinal {A} `{OpacityKernelPoint A} (l : list A) : list A := merge_sort ordinal_le l.

Definition with_points (l : list OpacityPossiblePoint) (r : ParticipantOpacityAnalysisInput) : ParticipantOpacityAnalysisInput :=
  OpacityAnalysisInput (an_analysis_profile r) (an_source r) (an_profile_id r) (an_profile_revision r) (an_profile_digest r)
    (normalized_model_ref r) (an_materializer_id r) (an_materializer_version r) (an_materializer_digest r)
    (complete_enumeration r) (an_declared_counts r) (an_claim r) l.

Definition canonicalized (r : ParticipantOpacityAnalysisInput) : ParticipantOpacityAnalysisInput :=
  let ordered := sorted_by_ordinal (points r) in
  if decide (ordered = points r) then r else with_points ordered r.

(** ** Evidence *)

(** The configuration of the checkers, of which only the package version is
    not fixed by its annotation. *)
Record ParticipantOpacityModelCheckConfiguration : Type := CheckerConfiguration { package_version : string }.
#[export] Instance ParticipantOpacityModelCheckConfiguration_eq_dec : EqDecision ParticipantOpacityModelCheckConfiguration.
Proof. solve_decision. Defined.
Definition checker_max_states : Z := 4096.
Definition checker_max_transitions : Z := 65536.
Definition checker_max_points : Z := 4096.

Definition validate_configuration (c : ParticipantOpacityModelCheckConfiguration)
    : result ParticipantOpacityModelCheckConfiguration :=
  _ ← require_fields [("package_version", Revision (package_version c))]; Ok c.

Record ParticipantOpacityStrategyCoverage : Type := StrategyCoverage {
  sc_strategy_ref : string;
  sc_explored_states : Z;
  sc_explored_transitions : Z;
  sc_evaluation_points : Z;
  sc_secret_points : Z;
}.
#[export] Instance ParticipantOpacityStrategyCoverage_eq_dec : EqDecision ParticipantOpacityStrategyCoverage.
Proof. solve_decision. Defined.

Definition validate_strategy_coverage (c : ParticipantOpacityStrategyCoverage) : result ParticipantOpacityStrategyCoverage :=
  _ ← require_fields
    [("strategy_ref", SafeRef (sc_strategy_ref c));
     ("explored_states", in_range 1 MAX_OPACITY_MODEL_STATES (sc_explored_states c));
     ("explored_transitions", in_range 0 MAX_OPACITY_MODEL_TRANSITIONS (sc_explored_transitions c));
     ("reachable_evaluation_points", in_range 0 MAX_OPACITY_MODEL_STATES (sc_evaluation_points c));
     ("reachable_secret_points", in_range 0 MAX_OPACITY_MODEL_STATES (sc_secret_points c))];
  Ok c.

Record ParticipantOpacityModelCheckCoverage : Type := Coverage {
  declared : ParticipantOpacityModelCheckDeclaredCounts;
  explored_states : Z;
  explored_transitions : Z;
  reachable_evaluation_points : Z;
  reachable_secret_points : Z;
  strategy_coverage : list ParticipantOpacityStrategyCoverage;
  explored_scheduler_environment_pairs : Z;
  explored_order_variants : Z;
  complete_fixed_point : bool;
}.
#[export] Instance ParticipantOpacityModelCheckCoverage_eq_dec : EqDecision ParticipantOpacityModelCheckCoverage.
Proof. solve_decision. Defined.

(** [_validate_coverage]. *)
Definition check_coverage (c : ParticipantOpacityModelCheckCoverage) : result unit :=
  _ ← raise_if (count_states (declared c) <? explored_states c)%Z (ValueError "explored states cannot exceed declared states");
  _ ← raise_if (count_transitions (declared c) <? explored_transitions c)%Z
    (ValueError "explored transitions cannot exceed declared transitions");
  _ ← raise_if (explored_states c <? reachable_evaluation_points c)%Z
    (ValueError "reachable evaluation points cannot exceed explored states");
  _ ← raise_if (reachable_evaluation_points c <? reachable_secret_points c)%Z
    (ValueError "reachable secret points cannot exceed evaluation points");
  _ ← require_sorted_unique (sc_strategy_ref <$> strategy_coverage c) "strategy coverage";
  _ ← raise_if (negb (py_sum (sc_explored_states <$> strategy_coverage c) =? explored_states c)%Z)
    (ValueError "per-strategy explored states must sum to total explored states");
  _ ← raise_if (negb (py_sum (sc_explored_transitions <$> strategy_coverage c) =? explored_transitions c)%Z)
    (ValueError "per-strategy explored transitions must sum to total explored transitions");
  _ ← raise_if (negb (py_sum (sc_evaluation_points <$> strategy_coverage c) =? reachable_evaluation_points c)%Z)
    (ValueError "per-strategy evaluation points must sum to total evaluation points");
  raise_if (negb (py_sum (sc_secret_points <$> strategy_coverage c) =? reachable_secret_points c)%Z)
    (ValueError "per-strategy secret points must sum to total secret points").

Definition validate_coverage (c : ParticipantOpacityModelCheckCoverage) : result ParticipantOpacityModelCheckCoverage :=
  _ ← require_fields
    [("explored_states", in_range 0 MAX_OPACITY_MODEL_STATES (explored_states c));
     ("explored_transitions", in_range 0 MAX_OPACITY_MODEL_TRANSITIONS (explored_transitions c));
     ("reachable_evaluation_points", in_range 0 MAX_OPACITY_MODEL_STATES (reachable_evaluation_points c));
     ("reachable_secret_points", in_range 0 MAX_OPACITY_MODEL_STATES (reachable_secret_points c));
     ("strategy_coverage", Nat.leb (length (strategy_coverage c)) 1000);
     ("explored_scheduler_environment_pairs", in_range 0 10000 (explored_scheduler_environment_pairs c));
     ("explored_order_variants", in_range 0 1000 (explored_order_variants c))];
  _ ← check_coverage c;
  Ok c.

(** [f"{n:06d}"] of a number that is not negative: padded to six digits. *)
Definition digit_of (d : Z) : ascii := ascii_of_nat (48 + Z.to_nat d).
Fixpoint digits (width : nat) (n : Z) : list ascii :=
  match width with O => [] | S width => digits width (n / 10)%Z ++ [digit_of (n mod 10)%Z] end.
Definition six_digits (n : Z) : string :=
  if (n <? 1000000)%Z then String.string_of_list_ascii (digits 6 n) else pretty (Z.to_N n).

(** A prefix and exactly six digits. *)
Definition counterexample_ref (prefix s : string) : bool :=
  bool_decide (take (length (chars prefix)) (chars s) = chars prefix)
  && Nat.eqb (length (drop (length (chars prefix)) (chars s))) 6
  && forallb digit_char (drop (length (chars prefix)) (chars s)).

Record ParticipantOpacityModelCheckCounterexample : Type := ModelCounterexample {
  safe_ref : string;
  counterexample_digest : string;
  actual_state_ordinal : Z;
  actual_path_transition_ordinals : list Z;
  counterexample_strategy_ref : string;
  examined_cell_size : Z;
}.
#[export] Instance ParticipantOpacityModelCheckCounterexample_eq_dec : EqDecision ParticipantOpacityModelCheckCounterexample.
Proof. solve_decision. Defined.

Definition MODEL_COUNTEREXAMPLE_PREFIX : string := "participant-opacity-model-check-counterexample:".

Definition validate_counterexample (c : ParticipantOpacityModelCheckCounterexample)
    : result ParticipantOpacityModelCheckCounterexample :=
  _ ← require_fields
    [("safe_ref", counterexample_ref MODEL_COUNTEREXAMPLE_PREFIX (safe_ref c));
     ("counterexample_digest", prefixed_digest (counterexample_digest c));
     ("actual_state_ordinal", in_range 0 (MAX_OPACITY_MODEL_STATES - 1) (actual_state_ordinal c));
     ("actual_path_transition_ordinals",
       (py_len (actual_path_transition_ordinals c) <=? MAX_OPACITY_MODEL_STATES)%Z);
     ("strategy_ref", SafeRef (counterexample_strategy_ref c));
     ("examined_cell_size", in_range 1 MAX_OPACITY_MODEL_STATES (examined_cell_size c))];
  Ok c.

(** The exact coordinates and artifact joins that are digested. *)
Record CounterexampleDigestInput : Type := DigestInput {
  di_safe_ref : string;
  di_actual_state_ordinal : Z;
  di_actual_path_transition_ordinals : list Z;
  di_strategy_ref : string;
  di_examined_cell_size : Z;
  di_model_digest : string;
  di_profile_digest : string;
  di_derived_carrier_digest : string;
}.

Inductive ModelCheckOutcome : Type := HOLDS | COUNTEREXAMPLE | VACUOUS | UNSUPPORTED.
#[export] Instance ModelCheckOutcome_eq_dec : EqDecision ModelCheckOutcome.
Proof. solve_decision. Defined.

(** The sorted and unique reason codes of a non-positive outcome. *)
Record UnsupportedOpacity : Type := UnsupportedReasons { reason_codes : list string }.
#[export] Instance UnsupportedOpacity_eq_dec : EqDecision UnsupportedOpacity.
Proof. solve_decision. Defined.

Definition validate_unsupported_model_check (u : UnsupportedOpacity) : result UnsupportedOpacity :=
  _ ← require_fields [("reason_codes", Nat.leb 1 (length (reason_codes u)) && Nat.leb (length (reason_codes u)) 64)];
  _ ← require_sorted_unique (reason_codes u) "unsupported model-check reason codes";
  Ok u.

Definition validate_unsupported_analysis (u : UnsupportedOpacity) : result UnsupportedOpacity :=
  _ ← require_fields [("reason_codes", Nat.leb 1 (length (reason_codes u)) && Nat.leb (length (reason_codes u)) 64)];
  _ ← require_sorted_unique (reason_codes u) "unsupported reason codes";
  Ok u.

Record ParticipantOpacityModelCheckEvidence : Type := ModelCheckEvidence {
  ev_taxonomy_id : string;
  ev_taxonomy_revision : string;
  ev_catalog_digest : string;
  ev_relation_id : string;
  ev_profile_id : string;
  ev_profile_revision : string;
  ev_profile_digest : string;
  ev_source : SourceArtifactIdentity;
  ev_model_ref : string;
  ev_model_revision : string;
  ev_model_digest : string;
  ev_materializer_id : string;
  ev_materializer_version : string;
  ev_materializer_digest : string;
  ev_assumptions : ParticipantOpacityModelAssumptions;
  ev_assumptions_digest : string;
  ev_checker_configuration : ParticipantOpacityModelCheckConfiguration;
  ev_checker_configuration_digest : string;
  ev_derived_carrier_digest : string;
  ev_claim : BehavioralClaimBinding;
  ev_coverage : ParticipantOpacityModelCheckCoverage;
  ev_outcome : ModelCheckOutcome;
  ev_diagnostics : list DiagnosticModel;
  ev_counterexample : option ParticipantOpacityModelCheckCounterexample;
  ev_unsupported : option UnsupportedOpacity;
}.
#[export] Instance ParticipantOpacityModelCheckEvidence_eq_dec : EqDecision ParticipantOpacityModelCheckEvidence.
Proof. solve_decision. Defined.

Section evidence.
Context `{!Canonical ParticipantOpacityModelAssumptions, !Canonical ParticipantOpacityModelCheckConfiguration}.
Context `{!Canonical CounterexampleDigestInput}.

Definition model_counterexample_digest (d : CounterexampleDigestInput) : string := canonical_json_digest d.

(** [_validate_model_check_coverage_join]. *)
Definition check_coverage_join (e : ParticipantOpacityModelCheckEvidence) : result unit :=
  let a := ev_assumptions e in
  let c := ev_coverage e in
  _ ← raise_if (negb (count_strategies (declared c) =? py_len (strategy_refs a))%Z)
    (ValueError "declared strategy count must match the model-check assumptions");
  _ ← raise_if (negb (count_scheduler_environment_pairs (declared c)
                        =? py_len (scheduler_refs a) * py_len (environment_refs a))%Z)
    (ValueError "declared scheduler/environment count must match the model-check assumptions");
  _ ← raise_if (negb (count_order_variants (declared c) =? py_len (order_refs a))%Z)
    (ValueError "declared order count must match the model-check assumptions");
  if complete_fixed_point c then
    _ ← raise_if (bool_decide (sc_strategy_ref <$> strategy_coverage c <> strategy_refs a))
      (ValueError "complete strategy coverage must exactly match the model-check assumptions");
    _ ← raise_if (negb (explored_scheduler_environment_pairs c =? count_scheduler_environment_pairs (declared c))%Z)
      (ValueError "complete scheduler/environment coverage must match the declared model domain");
    raise_if (negb (explored_order_variants c =? count_order_variants (declared c))%Z)
      (ValueError "complete order coverage must match the declared model domain")
  else Ok tt.

(** [_validate_model_check_payload_presence]. *)
Definition check_payload_presence (e : ParticipantOpacityModelCheckEvidence) : result unit :=
  _ ← raise_if (xorb (negb (is_none (ev_counterexample e))) (bool_decide (ev_outcome e = COUNTEREXAMPLE)))
    (ValueError "model-check counterexample payload must exactly match the outcome");
  raise_if (xorb (negb (is_none (ev_unsupported e))) (bool_decide (ev_outcome e ∈ [VACUOUS; UNSUPPORTED])))
    (ValueError "model-check unsupported payload must exactly match a non-positive outcome").

(** [_validate_decided_model_check_outcome]. *)
Definition check_decided_outcome (e : ParticipantOpacityModelCheckEvidence) : result unit :=
  let decided := bool_decide (ev_outcome e ∈ [HOLDS; COUNTEREXAMPLE]) in
  let c := ev_coverage e in
  _ ← raise_if (decided && negb (complete_fixed_point c))
    (ValueError "decided model-check outcomes require a complete fixed point");
  _ ← raise_if (decided && bool_decide (ev_diagnostics e <> []))
    (ValueError "decided model-check outcomes cannot carry error diagnostics");
  raise_if (decided && ((reachable_evaluation_points c =? 0)%Z || (reachable_secret_points c =? 0)%Z))
    (ValueError "decided model-check outcomes require reachable secret evaluation points").

(** [_validate_nonpositive_model_check_outcome]. *)
Definition check_nonpositive_outcome (e : ParticipantOpacityModelCheckEvidence) : result unit :=
  _ ← raise_if (bool_decide (ev_outcome e = VACUOUS) && negb (reachable_secret_points (ev_coverage e) =? 0)%Z)
    (ValueError "a vacuous model check requires zero reachable secret points");
  match ev_unsupported e with
  | Some u =>
      raise_if (bool_decide (reason_codes u <> py_sorted (py_dedupe (dm_code <$> ev_diagnostics e))))
        (ValueError "model-check unsupported reason codes must match diagnostics")
  | None => Ok tt
  end.

(** [_validate_counterexample_join]. *)
Definition check_counterexample_join (e : ParticipantOpacityModelCheckEvidence)
    (c : ParticipantOpacityModelCheckCounterexample) : result unit :=
  let declared_counts := declared (ev_coverage e) in
  _ ← raise_if (count_states declared_counts <=? actual_state_ordinal c)%Z
    (ValueError "model-check counterexample state must reference the declared model");
  _ ← raise_if (existsb (fun ordinal => (count_transitions declared_counts <=? ordinal)%Z) (actual_path_transition_ordinals c))
    (ValueError "model-check counterexample path must reference declared transitions");
  raise_if (bool_decide (counterexample_digest c <> model_counterexample_digest
      (DigestInput (safe_ref c) (actual_state_ordinal c) (actual_path_transition_ordinals c) (counterexample_strategy_ref c)
         (examined_cell_size c) (ev_model_digest e) (ev_profile_digest e) (ev_derived_carrier_digest e))))
    (ValueError "model-check counterexample digest must bind the safe counterexample").

(** [_validate_model_check_outcome]. *)
Definition check_outcome (e : ParticipantOpacityModelCheckEvidence) : result unit :=
  _ ← check_payload_presence e;
  _ ← check_decided_outcome e;
  _ ← check_nonpositive_outcome e;
  match ev_counterexample e with Some c => check_counterexample_join e c | None => Ok tt end.

(** The joins of [_validate_model_check_evidence] before the coverage. *)
Definition check_evidence_joins (e : ParticipantOpacityModelCheckEvidence) : result unit :=
  _ ← raise_if (bool_decide (ev_assumptions_digest e <> canonical_json_digest (ev_assumptions e)))
    (ValueError "assumptions_digest must bind the model-check assumptions");
  _ ← raise_if (bool_decide (ev_checker_configuration_digest e <> canonical_json_digest (ev_checker_configuration e)))
    (ValueError "checker_configuration_digest must bind the model-check configuration");
  _ ← raise_if (bool_decide (claim_taxonomy_id (ev_claim e) <> ev_taxonomy_id e))
    (ValueError "model-check claim taxonomy id must match the evidence");
  _ ← raise_if (bool_decide (claim_taxonomy_revision (ev_claim e) <> ev_taxonomy_revision e))
    (ValueError "model-check claim taxonomy revision must match the evidence");
  _ ← raise_if (bool_decide (claim_relation_id (ev_claim e) <> ev_relation_id e))
    (ValueError "model-check claim relation must match the evidence");
  _ ← raise_if (bool_decide (relation_parameter_profile_ref (ev_claim e) <> Some (ev_profile_id e)))
    (ValueError "model-check claim profile id must match the evidence");
  raise_if (bool_decide (relation_parameter_profile_revision (ev_claim e) <> Some (ev_profile_revision e)))
    (ValueError "model-check claim profile revision must match the evidence").

Definition validate_model_check_evidence (e : ParticipantOpacityModelCheckEvidence)
    : result ParticipantOpacityModelCheckEvidence :=
  _ ← require_fields
    [("taxonomy_id", bool_decide (ev_taxonomy_id e = BEHAVIORAL_TAXONOMY_ID));
     ("taxonomy_revision", Revision (ev_taxonomy_revision e)); ("catalog_digest", prefixed_digest (ev_catalog_digest e));
     ("relation_id", bool_decide (ev_relation_id e = OPACITY_RELATION_ID)); ("profile_id", SafeRef (ev_profile_id e));
     ("profile_revision", Revision (ev_profile_revision e)); ("profile_digest", prefixed_digest (ev_profile_digest e));
     ("model_ref", SafeRef (ev_model_ref e)); ("model_revision", Revision (ev_model_revision e));
     ("model_digest", prefixed_digest (ev_model_digest e)); ("materializer_id", SafeRef (ev_materializer_id e));
     ("materializer_version", Revision (ev_materializer_version e));
     ("materializer_digest", prefixed_digest (ev_materializer_digest e));
     ("assumptions_digest", prefixed_digest (ev_assumptions_digest e));
     ("checker_configuration_digest", prefixed_digest (ev_checker_configuration_digest e));
     ("derived_carrier_digest", prefixed_digest (ev_derived_carrier_digest e));
     ("diagnostics", Nat.leb (length (ev_diagnostics e)) MAX_OPACITY_DIAGNOSTICS)];
  _ ← check_evidence_joins e;
  _ ← validate_model_check_claim_scope (ev_claim e) (ev_assumptions e);
  _ ← check_coverage_join e;
  _ ← check_outcome e;
  Ok e.
End evidence.
