(* ===== verification/OpacityCheck.v ===== *)
(** The participant-opacity model checker: the information-cell kernel
    ([raes_processor/participant_opacity/_kernel.py]), the admission of a
    transition model against its profile and catalog
    ([_model_check_admission.py]), and the reachable fixed point with the
    evidence built on it ([_model_check.py]). *)
From S2P Require Import Prelude.
From S2P Require Import Contracts.
From S2P Require Import Diagnostics.
From S2P Require Import TimeModel.
From S2P Require Import BehavioralModel.
From S2P Require Import OpacityModel.
Local Open Scope string_scope.
Local Open Scope list_scope.

(** ** The kernel *)

Record OpacityKernelResult : Type := KernelResult {
  checked_points : Z;
  checked_secret_points : Z;
  counterexample_actual_ordinal : option Z;
  counterexample_cell_size : option Z;
}.

Definition OpacityCellKey : Type := string * string * string * string * option string * string * string.

Definition information_cell_key {A} `{OpacityKernelPoint A} (p : A) : OpacityCellKey :=
  (initial_information_key p, observation_key p, memory_key p, release_state_key p, coalition_fusion_key p,
   strategy_ref p, order_ref p).

(** A mapping from keys to the tuples of the items that have them. *)
Definition collect {K A} `{Countable K} (key : A -> K) (l : list A) : gmap K (list A) :=
  foldl (fun m a => <[key a := default [] (m !! key a) ++ [a]]> m) ∅ l.

Section kernel.
Context {A K : Type} `{OpacityKernelPoint A, Countable K}.
Context (cell_key : A -> K).

(** The body of the scan: the lowest failure is kept. *)
Definition scan_secret_point (cells : gmap K (list A)) (found : option (Z * Z)) (actual : A) : result (option (Z * Z)) :=
  match cells !! cell_key actual with
  | None => Raise (KeyError "cell")
  | Some cell =>
      if existsb (fun candidate => negb (secret_holds candidate)) cell then Ok found
      else Ok (match found with None => Some (ordinal actual, py_len cell) | Some _ => found end)
  end.

Definition evaluate_opacity_kernel (points : list A) : result OpacityKernelResult :=
  let canonical_points := sorted_by_ordinal points in
  let cells := collect cell_key canonical_points in
  let secret_points := List.filter secret_holds canonical_points in
  found ← mfold (scan_secret_point cells) None secret_points;
  Ok (KernelResult (py_len canonical_points) (py_len secret_points) (fst <$> found) (snd <$> found)).
End kernel.

(** ** The reachable fixed point *)

Abbreviation State := ParticipantOpacityModelState.
Abbreviation Transition := ParticipantOpacityModelTransition.
Abbreviation Request := ParticipantOpacityModelCheckInput.

Record Exploration : Type := Explored {
  visited : gset Z;
  parents : gmap Z (option Transition);
  queue : list Z;
  explored : list Transition;
}.

(** One transition of the state that left the queue. *)
Definition explore_transition (x : Exploration) (t : Transition) : Exploration :=
  let target := target_state_ordinal t in
  if decide (target ∈ visited x) then Explored (visited x) (parents x) (queue x) (explored x ++ [t])
  else Explored ({[target]} ∪ visited x) (<[target := Some t]> (parents x)) (queue x ++ [target]) (explored x ++ [t]).

Definition explore_source (adjacency : gmap Z (list Transition)) (source : Z) (rest : list Z) (x : Exploration) : Exploration :=
  foldl explore_transition (Explored (visited x) (parents x) rest (explored x)) (default [] (adjacency !! source)).

Fixpoint explore (fuel : nat) (adjacency : gmap Z (list Transition)) (x : Exploration) : result Exploration :=
  match queue x with
  | [] => Ok x
  | source :: rest =>
      match fuel with
      | O => Raise OutOfFuel
      | S fuel => explore fuel adjacency (explore_source adjacency source rest x)
      end
  end.

Definition start_exploration (r : Request) : Exploration :=
  let initials := initial_state_ordinals r in
  Explored (list_to_set initials) (list_to_map ((fun i => (i, None)) <$> initials)) initials [].

(** Each state enters the queue as an initial one or as the target of a
    transition that is explored once. *)
Definition exploration_fuel (r : Request) : nat := length (initial_state_ordinals r) + length (transitions r).

Definition reachable_fixed_point (r : Request)
    : result (list State * list Transition * gmap Z (option Transition)) :=
  x ← explore (exploration_fuel r) (collect source_state_ordinal (transitions r)) (start_exploration r);
  reached ← mmap (py_index (states r)) (merge_sort Z.le (elements (visited x)));
  Ok (reached, explored x, parents x).

(** ** Coverage *)

Definition count_if {A} (p : A -> bool) (l : list A) : Z := py_len (List.filter p l).

(** The strategy of each transition's source, by the transition's ordinal. *)
Definition transition_sources (r : Request) (ts : list Transition) : result (gmap Z string) :=
  mfold (fun m t => s ← py_index (states r) (source_state_ordinal t); Ok (<[mt_ordinal t := ms_strategy_ref s]> m)) ∅ ts.

Definition source_of (sources : gmap Z string) (t : Transition) : result string :=
  match sources !! mt_ordinal t with Some s => Ok s | None => Raise (KeyError "transition") end.

Definition strategy_coverage_of (reached : list State) (ts : list Transition) (sources : gmap Z string) (strategy : string)
    : result ParticipantOpacityStrategyCoverage :=
  let strategy_states := List.filter (fun s => bool_decide (ms_strategy_ref s = strategy)) reached in
  let strategy_evaluation := List.filter evaluation_point strategy_states in
  of_transitions ← mmap (source_of sources) ts;
  validate_strategy_coverage (StrategyCoverage strategy (py_len strategy_states)
    (count_if (fun s => bool_decide (s = strategy)) of_transitions)
    (py_len strategy_evaluation) (count_if ms_secret_holds strategy_evaluation)).

Definition coverage_of (r : Request) (reached : list State) (ts : list Transition)
    : result ParticipantOpacityModelCheckCoverage :=
  let evaluation_states := List.filter evaluation_point reached in
  sources ← transition_sources r ts;
  per_strategy ← mmap (strategy_coverage_of reached ts sources) (strategy_refs (assumptions r));
  validate_coverage (Coverage (declared_counts r) (py_len reached) (py_len ts) (py_len evaluation_states)
    (count_if ms_secret_holds evaluation_states) per_strategy (distinct (scheduler_environment <$> reached))
    (distinct (ms_order_ref <$> reached)) true).

Definition empty_coverage (r : Request) : result ParticipantOpacityModelCheckCoverage :=
  validate_coverage (Coverage (declared_counts r) 0 0 0 0 [] 0 0 false).

(** ** The counterexample *)

(** The walk back along the parents. *)
Fixpoint walk_back (fuel : nat) (parents : gmap Z (option Transition)) (state : Z) (path : list Z) : result (list Z) :=
  match parents !! state with
  | None => Raise (KeyError "state")
  | Some None => Ok path
  | Some (Some t) =>
      match fuel with
      | O => Raise OutOfFuel
      | S fuel => walk_back fuel parents (source_state_ordinal t) (path ++ [mt_ordinal t])
      end
  end.

Definition counterexample_path (actual : Z) (parents : gmap Z (option Transition)) : result (list Z) :=
  path ← walk_back (size parents) parents actual []; Ok (reverse path).

(** ** Admission *)

Definition INCOMPLETE_CODE : string := "participant-opacity-model-check.incomplete-model".
Definition BOUND_CODE : string := "participant-opacity-model-check.bound-exceeded".
Definition SCHEDULER_CODE : string := "participant-opacity-model-check.unsupported-scheduler-quantification".
Definition ORDER_CODE : string := "participant-opacity-model-check.unsupported-order-treatment".
Definition VACUOUS_CODE : string := "participant-opacity-model-check.vacuous-secret-domain".

Definition diagnostic (code address message : string) : result DiagnosticModel :=
  validate_diagnostic_model (DiagModel code "participant-opacity-model-check" address message ERROR).

Definition operational {A} (message : string) : result A := Raise (ParticipantOpacityOperationalError message).

Definition operational_if (c : bool) (message : string) : result unit :=
  raise_if c (ParticipantOpacityOperationalError message).

(** [checker_configuration], for the installed version of the package. *)
Definition checker_configuration (version : string) : result ParticipantOpacityModelCheckConfiguration :=
  match validate_configuration (CheckerConfiguration version) with
  | Raise (ValueError _) => operational "the installed participant-opacity model checker does not match its governed profile"
  | r => r
  end.

Definition expected_assumptions (r : Request) (profile : BehavioralRelationProfile)
    : result ParticipantOpacityModelAssumptions :=
  let p := parameters profile in
  kind_refs ← (match strategy p with
               | ActiveOpacityStrategy refs => Ok (active, refs)
               | PassiveOpacityStrategy =>
                   _ ← operational_if (negb (Nat.eqb (length (strategy_refs (assumptions r))) 1))
                         "a passive model check requires one fixed strategy";
                   Ok (passive, strategy_refs (assumptions r))
               end);
  validate_assumptions (Assumptions (fst kind_refs) (snd kind_refs) (profile_scheduler_refs p) (profile_environment_refs p)
    (treatment (order p)) (profile_order_refs (order p)) (horizon_cut_ref (horizon p))).

Definition is_coalition (o : OpacityObserver) : bool :=
  match o with CoalitionOpacityObserver _ _ _ _ => true | IndividualOpacityObserver _ _ => false end.

Definition validate_profile_bounds (r : Request) (profile : BehavioralRelationProfile) : result unit :=
  let counts := declared_counts r in
  match bounds (parameters profile) with
  | None => Raise (AttributeError "'NoneType' object has no attribute 'max_points'")
  | Some b =>
      operational_if
        ((bound_points b <? count_states counts) || (bound_runs b <? count_runs counts) || (bound_cuts b <? count_cuts counts)
         || (bound_strategies b <? count_strategies counts)
         || (bound_scheduler_environment_pairs b <? count_scheduler_environment_pairs counts)
         || (bound_order_variants b <? count_order_variants counts))%Z
        "transition model exceeds a governed opacity profile bound"
  end.

Definition validate_state_domains (r : Request) (profile : BehavioralRelationProfile) : result unit :=
  let a := assumptions r in
  _ ← operational_if (sets_differ (ms_strategy_ref <$> states r) (strategy_refs a))
    "transition-model strategy domain does not match the profile";
  _ ← operational_if (sets_differ (scheduler_ref <$> states r) (scheduler_refs a))
    "transition-model scheduler domain does not match the profile";
  _ ← operational_if (sets_differ (environment_ref <$> states r) (environment_refs a))
    "transition-model environment domain does not match the profile";
  _ ← operational_if (sets_differ (scheduler_environment <$> states r) (product (scheduler_refs a) (environment_refs a)))
    "transition-model scheduler/environment pairs do not match the profile Cartesian product";
  _ ← operational_if (sets_differ (ms_order_ref <$> states r) (order_refs a))
    "transition-model order domain does not match the profile";
  _ ← operational_if (sets_differ (cut_ref <$> states r) [assumed_cut_ref a])
    "transition-model evaluation cut does not match the profile";
  let coalition := is_coalition (observer (parameters profile)) in
  operational_if (existsb (fun s => xorb (negb (is_none (ms_coalition_fusion_key s))) coalition) (states r))
    "transition-model coalition coordinates do not match the profile".

Definition validate_initial_domain_coverage (r : Request) : result unit :=
  initial_states ← mmap (py_index (states r)) (initial_state_ordinals r);
  operational_if (sets_differ (state_domain <$> initial_states) (assumed_domains (assumptions r)))
    "initial states must cover every declared strategy/scheduler/environment/order domain".

Definition unsupported_diagnostics (r : Request) : result (list DiagnosticModel) :=
  let a := assumptions r in
  incomplete ← (if negb (complete_model r) then
      d ← diagnostic INCOMPLETE_CODE "/complete_model" "The transition artifact is not declared to be the complete finite model.";
      Ok [d] else Ok []);
  exceeded ← (if (checker_max_states <? count_states (declared_counts r))%Z
                 || (checker_max_transitions <? count_transitions (declared_counts r))%Z then
      d ← diagnostic BOUND_CODE "/declared_counts" "The complete finite model exceeds the deterministic checker resource profile.";
      Ok [d] else Ok []);
  quantified ← (if negb (Nat.eqb (length (scheduler_refs a)) 1) || negb (Nat.eqb (length (environment_refs a)) 1) then
      d ← diagnostic SCHEDULER_CODE "/assumptions"
            "The v1 checker supports only the profile's unambiguous singleton scheduler/environment posture.";
      Ok [d] else Ok []);
  unordered ← (if bool_decide (order_treatment a <> total_order) then
      d ← diagnostic ORDER_CODE "/assumptions/order_treatment" "The v1 checker supports exact total-order models only.";
      Ok [d] else Ok []);
  Ok (sorted_by (fun d => (dm_address d, dm_code d)) (incomplete ++ exceeded ++ quantified ++ unordered)).

(** ** The checker *)

Section checker.
Context {O : Type}.
Context `{!Canonical ParticipantOpacityModelAssumptions, !Canonical ParticipantOpacityModelCheckConfiguration}.
Context `{!Canonical CounterexampleDigestInput, !Canonical Request, !Canonical (list State)}.
Context `{!Canonical BehavioralRelationProfile, !Canonical (BehavioralRelationCatalog O)}.
Context `{!Canonical ParticipantOpacityModelCheckEvidence}.
(** The corpus on disk, and the installed version of the package. *)
Context (load_catalog : string -> result (BehavioralRelationCatalog O)).
Context (load_profile : string -> string -> result BehavioralRelationProfile) (version : string).

Definition validate_admission (r : Request) (profile : BehavioralRelationProfile) (catalog : BehavioralRelationCatalog O)
    : result unit :=
  _ ← operational_if (bool_decide (analysis_profile r <> MODEL_CHECK_ANALYSIS_PROFILE))
    "unknown participant-opacity model-check profile";
  _ ← operational_if (bool_decide (catalog_digest r <> canonical_json_digest catalog))
    "behavioral catalog digest does not match the transition model";
  _ ← operational_if (bool_decide (input_profile_id r <> profile_id profile)
                      || bool_decide (input_profile_revision r <> profile_revision profile)
                      || bool_decide (input_profile_digest r <> canonical_json_digest profile))
    "opacity profile identity does not match the transition model";
  expected ← expected_assumptions r profile;
  _ ← operational_if (bool_decide (assumptions r <> expected))
    "transition-model assumptions do not match the opacity profile";
  _ ← match validate_behavioral_claim_binding load_catalog load_profile (claim r) (Some catalog) (Some profile) with
      | Ok _ => Ok tt
      | Raise (ValueError _) => operational "opacity model-check claim does not resolve against the exact catalog and profile"
      | Raise e => Raise e
      end;
  _ ← validate_profile_bounds r profile;
  _ ← validate_state_domains r profile;
  validate_initial_domain_coverage r.

(** [_common_evidence] with the fields that differ. *)
Definition evidence_with (r : Request) (checker : ParticipantOpacityModelCheckConfiguration) (derived_carrier_digest : string)
    (coverage : ParticipantOpacityModelCheckCoverage) (outcome : ModelCheckOutcome) (diagnostics : list DiagnosticModel)
    (counterexample : option ParticipantOpacityModelCheckCounterexample) (unsupported : option UnsupportedOpacity)
    : ParticipantOpacityModelCheckEvidence :=
  ModelCheckEvidence (claim_taxonomy_id (claim r)) (claim_taxonomy_revision (claim r)) (catalog_digest r)
    (claim_relation_id (claim r)) (input_profile_id r) (input_profile_revision r) (input_profile_digest r) (source r)
    (model_ref r) (model_revision r) (canonical_json_digest r) (materializer_id r) (materializer_version r)
    (materializer_digest r) (assumptions r) (canonical_json_digest (assumptions r)) checker (canonical_json_digest checker)
    derived_carrier_digest (claim r) coverage outcome diagnostics counterexample unsupported.

Definition unsupported_evidence (r : Request) (checker : ParticipantOpacityModelCheckConfiguration)
    (diagnostics : list DiagnosticModel) : result ParticipantOpacityModelCheckEvidence :=
  coverage ← empty_coverage r;
  unsupported ← validate_unsupported_model_check (UnsupportedReasons (py_sorted (py_dedupe (dm_code <$> diagnostics))));
  validate_model_check_evidence
    (evidence_with r checker (canonical_json_digest ([] : list State)) coverage UNSUPPORTED diagnostics None (Some unsupported)).

Definition make_counterexample (r : Request) (parents : gmap Z (option Transition)) (derived_carrier_digest : string)
    (actual_ordinal cell_size : Z) : result ParticipantOpacityModelCheckCounterexample :=
  actual_state ← py_index (states r) actual_ordinal;
  path ← counterexample_path actual_ordinal parents;
  let ref := MODEL_COUNTEREXAMPLE_PREFIX +:+ six_digits actual_ordinal in
  let digest := model_counterexample_digest (DigestInput ref actual_ordinal path (ms_strategy_ref actual_state) cell_size
                  (canonical_json_digest r) (input_profile_digest r) derived_carrier_digest) in
  validate_counterexample (ModelCounterexample ref digest actual_ordinal path (ms_strategy_ref actual_state) cell_size).

Definition reachable_evidence (r : Request) (checker : ParticipantOpacityModelCheckConfiguration)
    : result ParticipantOpacityModelCheckEvidence :=
  fixed_point ← reachable_fixed_point r;
  let '(reached, explored, parents) := fixed_point in
  let evaluation_states := List.filter evaluation_point reached in
  coverage ← coverage_of r reached explored;
  let derived_carrier_digest := canonical_json_digest evaluation_states in
  kernel ← evaluate_opacity_kernel information_cell_key evaluation_states;
  if (checked_secret_points kernel =? 0)%Z then
    vacuous ← diagnostic VACUOUS_CODE "/states" "The reachable evaluation-point carrier contains no protected secret point.";
    unsupported ← validate_unsupported_model_check (UnsupportedReasons [dm_code vacuous]);
    validate_model_check_evidence
      (evidence_with r checker derived_carrier_digest coverage VACUOUS [vacuous] None (Some unsupported))
  else
    match counterexample_actual_ordinal kernel with
    | Some actual_ordinal =>
        match counterexample_cell_size kernel with
        | None => Raise (AssertionError "")
        | Some cell_size =>
            counterexample ← make_counterexample r parents derived_carrier_digest actual_ordinal cell_size;
            validate_model_check_evidence
              (evidence_with r checker derived_carrier_digest coverage COUNTEREXAMPLE [] (Some counterexample) None)
        end
    | None => validate_model_check_evidence (evidence_with r checker derived_carrier_digest coverage HOLDS [] None None)
    end.

Definition model_check_participant_opacity_input (r : Request) (profile : BehavioralRelationProfile)
    (catalog : BehavioralRelationCatalog O) : result ParticipantOpacityModelCheckEvidence :=
  _ ← validate_admission r profile catalog;
  checker ← checker_configuration version;
  diagnostics ← unsupported_diagnostics r;
  match diagnostics with
  | [] => reachable_evidence r checker
  | _ => unsupported_evidence r checker diagnostics
  end.

Definition replay_model_check_evidence (r : Request) (profile : BehavioralRelationProfile)
    (catalog : BehavioralRelationCatalog O) (evidence : ParticipantOpacityModelCheckEvidence)
    : result ParticipantOpacityModelCheckEvidence :=
  replayed ← model_check_participant_opacity_input r profile catalog;
  _ ← raise_if (bool_decide (canonical_json_digest replayed <> canonical_json_digest evidence))
        (ParticipantOpacityEvidenceError "participant opacity model-check evidence did not reproduce");
  Ok replayed.
End checker.
