(* ===== verification/OpacityAnalysis.v ===== *)
(** The bounded participant-opacity analysis: its evidence
    ([raes_contracts/participant_opacity.py]) and the service that scans one
    declared finite carrier ([raes_processor/participant_opacity/_service.py]). *)
From S2P Require Import Prelude.
From S2P Require Import Contracts.
From S2P Require Import Diagnostics.
From S2P Require Import ExploitModel.
From S2P Require Import BehavioralModel.
From S2P Require Import OpacityModel.
From S2P Require Import OpacityCheck.
Local Open Scope string_scope.
Local Open Scope list_scope.

Inductive OpacityOutcome : Type := NO_COUNTEREXAMPLE | POINT_COUNTEREXAMPLE | VACUOUS_DOMAIN | UNSUPPORTED_ANALYSIS.
#[export] Instance OpacityOutcome_eq_dec : EqDecision OpacityOutcome.
Proof. solve_decision. Defined.

Record OpacityCounterexample : Type := PointCounterexample {
  pc_safe_ref : string;
  pc_digest : string;
  actual_point_ordinal : Z;
  pc_examined_cell_size : Z;
}.
#[export] Instance OpacityCounterexample_eq_dec : EqDecision OpacityCounterexample.
Proof. solve_decision. Defined.

Definition POINT_COUNTEREXAMPLE_PREFIX : string := "participant-opacity-counterexample:".

Definition validate_point_counterexample (c : OpacityCounterexample) : result OpacityCounterexample :=
  _ ← require_fields
    [("safe_ref", counterexample_ref POINT_COUNTEREXAMPLE_PREFIX (pc_safe_ref c));
     ("counterexample_digest", prefixed_digest (pc_digest c));
     ("actual_point_ordinal", in_range 0 (MAX_OPACITY_POINTS - 1) (actual_point_ordinal c));
     ("examined_cell_size", in_range 1 MAX_OPACITY_POINTS (pc_examined_cell_size c))];
  Ok c.

(** The dictionary that is digested. *)
Record PointDigestInput : Type := PointDigest {
  pd_safe_ref : string;
  pd_actual_point_ordinal : Z;
  pd_examined_cell_size : Z;
  pd_normalized_model_digest : string;
}.

Record OpacityAnalysisEvidence : Type := AnalysisEvidence {
  ae_taxonomy_id : string;
  ae_taxonomy_revision : string;
  ae_relation_id : string;
  ae_profile_id : string;
  ae_profile_revision : string;
  ae_profile_digest : string;
  ae_normalized_model_ref : string;
  ae_normalized_model_digest : string;
  ae_checker_configuration_digest : string;
  ae_claim : BehavioralClaimBinding;
  ae_outcome : OpacityOutcome;
  ae_checked_points : Z;
  ae_checked_secret_points : Z;
  ae_diagnostics : list DiagnosticModel;
  ae_counterexample : option OpacityCounterexample;
  ae_unsupported : option UnsupportedOpacity;
}.
#[export] Instance OpacityAnalysisEvidence_eq_dec : EqDecision OpacityAnalysisEvidence.
Proof. solve_decision. Defined.

(** The configuration of the bounded checker, which is fixed. *)
Inductive BoundedCheckerConfiguration : Type := BoundedChecker.

Definition ANALYSIS_INCOMPLETE_CODE : string := "participant-opacity.incomplete-enumeration".
Definition ANALYSIS_VACUOUS_CODE : string := "participant-opacity.vacuous-secret-domain".
Definition ANALYSIS_BOUND_CODE : string := "participant-opacity.analysis-bound-exceeded".

Definition analysis_diagnostic (code address message : string) : result DiagnosticModel :=
  validate_diagnostic_model (DiagModel code "participant-opacity" address message ERROR).

(** [_validate_claim_scope]. *)
Definition validate_analysis_claim_scope (c : BehavioralClaimBinding) : result unit :=
  _ ← raise_if (bool_decide ((assurance_axis c, assurance_status c, evidence_scope c, quantifier_scope c)
                  <> (Some axis_bounded_test, status_tested, scope_finite, finite_cases)))
    (ValueError "opacity evidence claim must remain bounded-test/tested/finite/finite-cases");
  raise_if (bool_decide (NORMALIZED_INPUT_PROVENANCE_NONCLAIM ∉ claim_explicit_non_claims c))
    (ValueError "normalized-input evidence must disclaim source and materializer authenticity").

Section analysis.
Context {O : Type}.
Context `{!Canonical BoundedCheckerConfiguration, !Canonical PointDigestInput, !Canonical ParticipantOpacityAnalysisInput}.
Context `{!Canonical BehavioralRelationProfile, !Canonical OpacityAnalysisEvidence}.
Context (load_catalog : string -> result (BehavioralRelationCatalog O)).
Context (load_profile : string -> string -> result BehavioralRelationProfile).

Definition input_digest (r : ParticipantOpacityAnalysisInput) : string := canonical_json_digest (canonicalized r).

Definition point_counterexample_digest (d : PointDigestInput) : string := canonical_json_digest d.

Definition check_evidence_counts (e : OpacityAnalysisEvidence) : result unit :=
  _ ← raise_if (ae_checked_points e <? ae_checked_secret_points e)%Z
    (ValueError "checked secret points cannot exceed checked points");
  let decided := bool_decide (ae_outcome e ∈ [NO_COUNTEREXAMPLE; POINT_COUNTEREXAMPLE]) in
  _ ← raise_if (decided && ((ae_checked_points e =? 0)%Z || (ae_checked_secret_points e =? 0)%Z))
    (ValueError "decided outcomes require nonzero checked and secret point counts");
  _ ← raise_if (decided && bool_decide (ae_diagnostics e <> [])) (ValueError "decided outcomes cannot carry error diagnostics");
  raise_if (bool_decide (ae_outcome e = VACUOUS_DOMAIN) && negb (ae_checked_secret_points e =? 0)%Z)
    (ValueError "a vacuous secret domain requires zero checked secret points").

Definition check_point_counterexample_join (e : OpacityAnalysisEvidence) (c : OpacityCounterexample) : result unit :=
  raise_if (bool_decide (pc_digest c <> point_counterexample_digest
      (PointDigest (pc_safe_ref c) (actual_point_ordinal c) (pc_examined_cell_size c) (ae_normalized_model_digest e))))
    (ValueError "counterexample_digest must bind the sanitized counterexample identity").

Definition check_unsupported_join (e : OpacityAnalysisEvidence) (u : UnsupportedOpacity) : result unit :=
  raise_if (bool_decide (reason_codes u <> py_sorted (py_dedupe (dm_code <$> ae_diagnostics e))))
    (ValueError "unsupported reason codes must match evidence diagnostics").

(** [_validate_outcome_payloads]. *)
Definition check_outcome_payloads (e : OpacityAnalysisEvidence) : result unit :=
  _ ← raise_if (xorb (negb (is_none (ae_counterexample e))) (bool_decide (ae_outcome e = POINT_COUNTEREXAMPLE)))
    (ValueError "counterexample payload must exactly match the counterexample outcome");
  _ ← match ae_counterexample e with Some c => check_point_counterexample_join e c | None => Ok tt end;
  _ ← raise_if (xorb (negb (is_none (ae_unsupported e))) (bool_decide (ae_outcome e ∈ [VACUOUS_DOMAIN; UNSUPPORTED_ANALYSIS])))
    (ValueError "unsupported payload must exactly match a non-positive unsupported outcome");
  match ae_unsupported e with Some u => check_unsupported_join e u | None => Ok tt end.

(** [_validate_claim_join]. *)
Definition check_claim_join (e : OpacityAnalysisEvidence) : result unit :=
  let c := ae_claim e in
  _ ← raise_if (bool_decide (claim_taxonomy_id c <> ae_taxonomy_id e))
    (ValueError "evidence claim taxonomy id must match the evidence");
  _ ← raise_if (bool_decide (claim_taxonomy_revision c <> ae_taxonomy_revision e))
    (ValueError "evidence claim taxonomy revision must match the evidence");
  _ ← raise_if (bool_decide (claim_relation_id c <> ae_relation_id e))
    (ValueError "evidence claim relation must match the evidence");
  _ ← raise_if (bool_decide (relation_parameter_profile_ref c <> Some (ae_profile_id e)))
    (ValueError "evidence claim profile id must match the evidence");
  _ ← raise_if (bool_decide (relation_parameter_profile_revision c <> Some (ae_profile_revision e)))
    (ValueError "evidence claim profile revision must match the evidence");
  validate_analysis_claim_scope c.

Definition validate_analysis_evidence (e : OpacityAnalysisEvidence) : result OpacityAnalysisEvidence :=
  _ ← require_fields
    [("taxonomy_id", bool_decide (ae_taxonomy_id e = BEHAVIORAL_TAXONOMY_ID));
     ("taxonomy_revision", Revision (ae_taxonomy_revision e));
     ("relation_id", bool_decide (ae_relation_id e = OPACITY_RELATION_ID)); ("profile_id", SafeRef (ae_profile_id e));
     ("profile_revision", Revision (ae_profile_revision e)); ("profile_digest", prefixed_digest (ae_profile_digest e));
     ("normalized_model_ref", SafeRef (ae_normalized_model_ref e));
     ("normalized_model_digest", prefixed_digest (ae_normalized_model_digest e));
     ("checker_configuration_digest", prefixed_digest (ae_checker_configuration_digest e));
     ("checked_points", in_range 0 MAX_OPACITY_POINTS (ae_checked_points e));
     ("checked_secret_points", in_range 0 MAX_OPACITY_POINTS (ae_checked_secret_points e));
     ("diagnostics", Nat.leb (length (ae_diagnostics e)) MAX_OPACITY_DIAGNOSTICS)];
  _ ← check_evidence_counts e;
  _ ← raise_if (bool_decide (ae_checker_configuration_digest e <> canonical_json_digest BoundedChecker))
    (ValueError "checker_configuration_digest must bind the checker configuration");
  _ ← check_outcome_payloads e;
  _ ← check_claim_join e;
  Ok e.

(** ** Admission *)

Definition validate_profile_admission (r : ParticipantOpacityAnalysisInput) (profile : BehavioralRelationProfile) : result unit :=
  _ ← operational_if (bool_decide (an_analysis_profile r <> BOUNDED_ANALYSIS_PROFILE)) "unknown opacity analysis profile";
  _ ← operational_if (bool_decide (an_profile_id r <> profile_id profile)
                      || bool_decide (an_profile_revision r <> profile_revision profile)
                      || bool_decide (an_profile_digest r <> canonical_json_digest profile))
    "opacity profile identity does not match the normalized input";
  match validate_behavioral_claim_binding load_catalog load_profile (an_claim r) None (Some profile) with
  | Ok _ => Ok tt
  | Raise (ValueError _) => operational "opacity claim does not resolve against the governed profile"
  | Raise e => Raise e
  end.

Definition validate_declared_bounds (r : ParticipantOpacityAnalysisInput) (profile : BehavioralRelationProfile) : result unit :=
  let counts := an_declared_counts r in
  match bounds (parameters profile) with
  | None => Raise (AttributeError "'NoneType' object has no attribute 'max_points'")
  | Some b =>
      operational_if
        ((bound_points b <? pc_points counts) || (bound_runs b <? pc_runs counts) || (bound_cuts b <? pc_cuts counts)
         || (bound_strategies b <? pc_strategies counts)
         || (bound_scheduler_environment_pairs b <? pc_scheduler_environment_pairs counts)
         || (bound_order_variants b <? pc_order_variants counts))%Z
        "normalized input exceeds the governed profile bounds"
  end.

Definition validate_scheduler_environment_domain (r : ParticipantOpacityAnalysisInput) (profile : BehavioralRelationProfile)
    : result unit :=
  let p := parameters profile in
  _ ← operational_if (sets_differ (pp_scheduler_ref <$> points r) (profile_scheduler_refs p))
    "normalized input scheduler domain does not match the profile";
  _ ← operational_if (sets_differ (pp_environment_ref <$> points r) (profile_environment_refs p))
    "normalized input environment domain does not match the profile";
  operational_if (sets_differ (point_scheduler_environment <$> points r)
                    (product (profile_scheduler_refs p) (profile_environment_refs p)))
    "normalized input scheduler/environment pair domain does not match the profile Cartesian product".

Definition validate_order_and_cut_domains (r : ParticipantOpacityAnalysisInput) (profile : BehavioralRelationProfile)
    : result unit :=
  let p := parameters profile in
  _ ← operational_if (sets_differ (pp_order_ref <$> points r) (profile_order_refs (order p)))
    "normalized input order domain does not match the profile";
  operational_if (sets_differ (pp_cut_ref <$> points r) [horizon_cut_ref (horizon p)])
    "normalized input cut domain does not match the profile".

Definition validate_strategy_domain (r : ParticipantOpacityAnalysisInput) (profile : BehavioralRelationProfile) : result unit :=
  match strategy (parameters profile) with
  | ActiveOpacityStrategy refs =>
      operational_if (sets_differ (pp_strategy_ref <$> points r) refs)
        "normalized input strategy domain does not match the profile"
  | PassiveOpacityStrategy =>
      operational_if (negb (distinct (pp_strategy_ref <$> points r) =? 1)%Z)
        "a passive opacity profile requires one fixed strategy"
  end.

Definition validate_coalition_domain (r : ParticipantOpacityAnalysisInput) (profile : BehavioralRelationProfile) : result unit :=
  let coalition := is_coalition (observer (parameters profile)) in
  operational_if (existsb (fun p => xorb (negb (is_none (pp_coalition_fusion_key p))) coalition) (points r))
    "normalized coalition fusion coordinates do not match the profile".

Definition validate_profile_domains (r : ParticipantOpacityAnalysisInput) (profile : BehavioralRelationProfile) : result unit :=
  _ ← validate_declared_bounds r profile;
  _ ← validate_scheduler_environment_domain r profile;
  _ ← validate_order_and_cut_domains r profile;
  _ ← validate_strategy_domain r profile;
  validate_coalition_domain r profile.

(** ** The analysis *)

(** [_common_evidence] with the fields that differ. *)
Definition analysis_evidence_with (r : ParticipantOpacityAnalysisInput) (profile : BehavioralRelationProfile)
    (outcome : OpacityOutcome) (checked checked_secret : Z) (diagnostics : list DiagnosticModel)
    (counterexample : option OpacityCounterexample) (unsupported : option UnsupportedOpacity) : OpacityAnalysisEvidence :=
  let n := canonicalized r in
  AnalysisEvidence (claim_taxonomy_id (an_claim n)) (claim_taxonomy_revision (an_claim n)) (claim_relation_id (an_claim n))
    (profile_id profile) (profile_revision profile) (canonical_json_digest profile) (normalized_model_ref n) (input_digest n)
    (canonical_json_digest BoundedChecker) (an_claim n) outcome checked checked_secret diagnostics counterexample unsupported.

Definition unsupported_analysis (r : ParticipantOpacityAnalysisInput) (profile : BehavioralRelationProfile)
    (outcome : OpacityOutcome) (d : DiagnosticModel) (checked checked_secret : Z) : result OpacityAnalysisEvidence :=
  unsupported ← validate_unsupported_analysis (UnsupportedReasons [dm_code d]);
  validate_analysis_evidence
    (analysis_evidence_with r profile outcome checked checked_secret [d] None (Some unsupported)).

Definition analysis_precondition_evidence (r : ParticipantOpacityAnalysisInput) (profile : BehavioralRelationProfile)
    : result (option OpacityAnalysisEvidence) :=
  if negb (complete_enumeration r) then
    d ← analysis_diagnostic ANALYSIS_INCOMPLETE_CODE "/complete_enumeration" "The declared finite carrier is not complete.";
    e ← unsupported_analysis r profile UNSUPPORTED_ANALYSIS d 0 0; Ok (Some e)
  else if (checker_max_points <? py_len (points r))%Z then
    d ← analysis_diagnostic ANALYSIS_BOUND_CODE "/points" "The declared finite carrier exceeds the deterministic checker bound.";
    e ← unsupported_analysis r profile UNSUPPORTED_ANALYSIS d 0 0; Ok (Some e)
  else Ok None.

Definition analyze_nonvacuous_carrier (r : ParticipantOpacityAnalysisInput) (profile : BehavioralRelationProfile)
    (reachable_points : list OpacityPossiblePoint) : result OpacityAnalysisEvidence :=
  kernel ← evaluate_opacity_kernel information_cell_key reachable_points;
  counterexample ← (match counterexample_actual_ordinal kernel with
    | None => Ok None
    | Some actual =>
        match counterexample_cell_size kernel with
        | None => Raise (AssertionError "")
        | Some size =>
            let ref := POINT_COUNTEREXAMPLE_PREFIX +:+ six_digits actual in
            c ← validate_point_counterexample
                  (PointCounterexample ref (point_counterexample_digest (PointDigest ref actual size (input_digest r))) actual size);
            Ok (Some c)
        end
    end);
  validate_analysis_evidence
    (analysis_evidence_with r profile (if is_none counterexample then NO_COUNTEREXAMPLE else POINT_COUNTEREXAMPLE)
       (checked_points kernel) (checked_secret_points kernel) [] counterexample None).

Definition analyze_participant_opacity_input (r : ParticipantOpacityAnalysisInput) (profile : BehavioralRelationProfile)
    : result OpacityAnalysisEvidence :=
  _ ← validate_profile_admission r profile;
  _ ← validate_profile_domains r profile;
  precondition ← analysis_precondition_evidence r profile;
  match precondition with
  | Some e => Ok e
  | None =>
      let reachable_points := sorted_by_ordinal (List.filter reachable (points r)) in
      let secret_points := List.filter secret_holds reachable_points in
      match secret_points with
      | [] =>
          d ← analysis_diagnostic ANALYSIS_VACUOUS_CODE "/points" "The reachable carrier contains no protected secret point.";
          unsupported_analysis r profile VACUOUS_DOMAIN d (py_len reachable_points) 0
      | _ => analyze_nonvacuous_carrier r profile reachable_points
      end
  end.

Definition replay_opacity_evidence (r : ParticipantOpacityAnalysisInput) (profile : BehavioralRelationProfile)
    (evidence : OpacityAnalysisEvidence) : result OpacityAnalysisEvidence :=
  replayed ← analyze_participant_opacity_input r profile;
  _ ← raise_if (bool_decide (canonical_json_digest replayed <> canonical_json_digest evidence))
        (ParticipantOpacityEvidenceError "participant opacity evidence replay did not reproduce");
  Ok replayed.
End analysis.
