(* ===== verification/OpacityFacts.v ===== *)
(** The information-cell kernel decides opacity of the points it is given, and
    counting lemmas of the opacity contracts; the breadth-first fixed point of the
    model checker ends, reaches exactly the reachable states over exactly their
    transitions, and its parents spell shortest paths. *)
From S2P Require Import Prelude.
From S2P Require Import Contracts.
From S2P Require Import ExploitModel.
From S2P Require Import BehavioralModel.
From S2P Require Import OpacityModel.
From S2P Require Import OpacityCheck.
Local Open Scope list_scope.

(** Boolean filters as stdpp's. *)
Lemma bool_filter_app {A} (p : A -> bool) l1 l2 : List.filter p (l1 ++ l2) = List.filter p l1 ++ List.filter p l2.
Proof. apply List.filter_app. Qed.

Lemma bool_filter_perm {A} (p : A -> bool) l1 l2 : l1 ≡ₚ l2 -> List.filter p l1 ≡ₚ List.filter p l2.
Proof.
  induction 1 as [|x l1 l2 _ IH|x y l|l1 l2 l3 _ IH1 _ IH2]; cbn [List.filter]; [done| | |by etrans].
  - destruct (p x); [by apply perm_skip|done].
  - destruct (p x), (p y); try done. apply perm_swap.
Qed.

Lemma py_len_perm {A} (l1 l2 : list A) : l1 ≡ₚ l2 -> py_len l1 = py_len l2.
Proof. intros H. unfold py_len. by rewrite H. Qed.

Lemma py_len_filter_le {A} (p : A -> bool) l : (py_len (List.filter p l) <= py_len l)%Z.
Proof. unfold py_len. pose proof (List.filter_length_le p l). lia. Qed.

Lemma py_len_nonneg {A} (l : list A) : (0 <= py_len l)%Z.
Proof. unfold py_len. lia. Qed.

Lemma py_len_pos {A} (l : list A) x : x ∈ l -> (1 <= py_len l)%Z.
Proof. destruct l; [by intros ?%not_elem_of_nil|]. unfold py_len. simpl. lia. Qed.

Lemma py_len_zero {A} (l : list A) : py_len l = 0%Z <-> l = [].
Proof. destruct l; unfold py_len; simpl; [done|]. split; [lia|done]. Qed.

(** ** Information *)

(** Two points give an observer the same information. *)
Definition same_information {A B} `{OpacityKernelPoint A, OpacityKernelPoint B} (a : A) (b : B) : Prop :=
  initial_information_key a = initial_information_key b /\ observation_key a = observation_key b /\
  memory_key a = memory_key b /\ release_state_key a = release_state_key b /\
  coalition_fusion_key a = coalition_fusion_key b /\ strategy_ref a = strategy_ref b /\ order_ref a = order_ref b.

(** The cell key says exactly that. *)
Lemma cell_key_information {A B} `{OpacityKernelPoint A, OpacityKernelPoint B} (a : A) (b : B) :
  information_cell_key a = information_cell_key b <-> same_information a b.
Proof. unfold information_cell_key, same_information. split; [by intros [= -> -> -> -> -> -> ->]|by intros (-> & -> & -> & -> & -> & -> & ->)]. Qed.

(** Chains of equal information. *)
Ltac same_information :=
  repeat match goal with H : same_information _ _ |- _ => apply cell_key_information in H end;
  apply cell_key_information; congruence.

(** ** Collecting by key *)

Lemma collect_get {K A} `{Countable K} (key : A -> K) l k :
  collect key l !! k = match List.filter (fun a => bool_decide (key a = k)) l with [] => None | cell => Some cell end.
Proof.
  unfold collect. induction l as [|x l IH] using rev_ind; [done|].
  rewrite foldl_app, bool_filter_app. cbn [foldl List.filter]. rewrite lookup_insert.
  destruct (decide (key x = k)) as [<-|Hk].
  - rewrite (bool_decide_eq_true_2 (key x = key x)) by done. rewrite IH.
    by destruct (List.filter _ l).
  - rewrite (bool_decide_eq_false_2 (key x = k)) by done. rewrite app_nil_r. exact IH.
Qed.

Lemma collect_default {K A} `{Countable K} (key : A -> K) l k :
  default [] (collect key l !! k) = List.filter (fun a => bool_decide (key a = k)) l.
Proof. rewrite collect_get. by destruct (List.filter _ l). Qed.

(** ** The kernel *)

Section kernel.
Context {A K : Type} `{OpacityKernelPoint A, Countable K}.
Context (cell_key : A -> K).

Definition cell_of (l : list A) (a : A) : list A := List.filter (fun b => bool_decide (cell_key b = cell_key a)) l.

(** A secret point whose information cell holds secret points only. *)
Definition exposed (l : list A) (a : A) : bool := secret_holds a && forallb secret_holds (cell_of l a).

Lemma elem_of_cell l a b : b ∈ cell_of l a <-> b ∈ l /\ cell_key b = cell_key a.
Proof. unfold cell_of. by rewrite elem_of_bool_filter, bool_decide_eq_true. Qed.

Lemma exposed_true l a :
  exposed l a = true <-> secret_holds a = true /\ forall b, b ∈ l -> cell_key b = cell_key a -> secret_holds b = true.
Proof.
  unfold exposed. rewrite andb_true_iff, forallb_forall. setoid_rewrite <-list_elem_of_In. setoid_rewrite elem_of_cell.
  naive_solver.
Qed.

Lemma sorted_by_ordinal_perm (l : list A) : sorted_by_ordinal l ≡ₚ l.
Proof. apply merge_sort_Permutation. Qed.

#[local] Instance ordinal_le_total : Total (ordinal_le (A := A)).
Proof. intros a b. unfold ordinal_le. lia. Qed.
#[local] Instance ordinal_le_trans : Transitive (ordinal_le (A := A)).
Proof. intros a b c. unfold ordinal_le. lia. Qed.

Lemma sorted_by_ordinal_sorted (l : list A) : StronglySorted ordinal_le (sorted_by_ordinal l).
Proof. apply (StronglySorted_merge_sort _). Qed.

(** The scan of a list of secret points keeps the first exposed one. *)
Lemma scan_run (cells : gmap K (list A)) l0 l found :
  (forall a, a ∈ l -> cells !! cell_key a = Some (cell_of l0 a) /\ secret_holds a = true) ->
  mfold (scan_secret_point cell_key cells) found l =
    Ok (match found with
        | Some f => Some f
        | None => (fun a => (ordinal a, py_len (cell_of l0 a))) <$> head (List.filter (exposed l0) l)
        end).
Proof.
  revert found. induction l as [|a l IH]; intros found Hl; [by destruct found|]. cbn [mfold List.filter].
  destruct (Hl a) as [Hcell Hsecret]; [left|]. unfold scan_secret_point at 2. rewrite Hcell.
  assert (existsb (fun candidate => negb (secret_holds candidate)) (cell_of l0 a) = negb (exposed l0 a)) as ->.
  { unfold exposed. rewrite Hsecret. cbn [andb]. clear. induction (cell_of l0 a) as [|b l IH]; [done|].
    cbn [existsb forallb]. rewrite IH. by destruct (secret_holds b). }
  destruct (exposed l0 a) eqn:He; cbn [negb]; cbn [mbind result_bind]; rewrite IH by (intros b Hb; apply Hl; by right);
    destruct found; done.
Qed.

Lemma kernel_run (points : list A) :
  exists found, evaluate_opacity_kernel cell_key points =
    Ok (KernelResult (py_len points) (count_if secret_holds points) (fst <$> found) (snd <$> found)) /\
  found = (fun a => (ordinal a, py_len (cell_of (sorted_by_ordinal points) a))) <$>
            head (List.filter (exposed (sorted_by_ordinal points)) (sorted_by_ordinal points)).
Proof.
  unfold evaluate_opacity_kernel. set (l := sorted_by_ordinal points).
  assert (l ≡ₚ points) as Hl by apply sorted_by_ordinal_perm.
  rewrite (scan_run _ l).
  - cbn [mbind result_bind]. eexists. split; [|].
    + unfold count_if. by rewrite (py_len_perm l points Hl), (py_len_perm _ _ (bool_filter_perm secret_holds l points Hl)).
    + f_equal. f_equal. clear. generalize l at 1 3. intros l0. induction l as [|a l' IH]; [done|]. cbn [List.filter].
      destruct (secret_holds a) eqn:Hs; cbn [List.filter].
      * destruct (exposed l0 a); by rewrite IH.
      * assert (exposed l0 a = false) as -> by (unfold exposed; by rewrite Hs). exact IH.
  - intros a [Ha Hs]%elem_of_bool_filter. split; [|done]. rewrite collect_get. fold (cell_of l a).
    assert (a ∈ cell_of l a) as Hc by by apply elem_of_cell.
    destruct (cell_of l a); [by apply not_elem_of_nil in Hc|done].
Qed.
End kernel.

Section kernel_spec.
Context {A K : Type} `{OpacityKernelPoint A, Countable K}.
Context (cell_key : A -> K).

Lemma exposed_perm (l1 l2 : list A) a : l1 ≡ₚ l2 -> exposed cell_key l1 a = exposed cell_key l2 a.
Proof.
  intros Hl. apply eq_true_iff_eq. rewrite !exposed_true. by setoid_rewrite Hl.
Qed.

(** The kernel returns, counts its points, and names the lowest exposed one. *)
Lemma kernel_spec (points : list A) :
  exists found, evaluate_opacity_kernel cell_key points =
    Ok (KernelResult (py_len points) (count_if secret_holds points) (fst <$> found) (snd <$> found)) /\
  match found with
  | None => forall a, a ∈ points -> exposed cell_key points a = false
  | Some (o, n) => exists a, a ∈ points /\ exposed cell_key points a = true /\ o = ordinal a /\
      n = py_len (cell_of cell_key points a) /\
      forall b, b ∈ points -> exposed cell_key points b = true -> (ordinal a <= ordinal b)%Z
  end.
Proof.
  destruct (kernel_run cell_key points) as (found & Hrun & Hf). exists found. split; [done|].
  set (l := sorted_by_ordinal points) in *. assert (l ≡ₚ points) as Hl by apply sorted_by_ordinal_perm.
  assert (forall a, a ∈ List.filter (exposed cell_key l) l <-> a ∈ points /\ exposed cell_key points a = true) as Hin.
  { intros a. rewrite elem_of_bool_filter, (exposed_perm _ _ _ Hl). by rewrite Hl. }
  assert (StronglySorted ordinal_le (List.filter (exposed cell_key l) l)) as Hsorted.
  { pose proof (sorted_by_ordinal_sorted points) as Hs. fold l in Hs. revert Hs. generalize (exposed cell_key l). clear.
    intros p. induction 1 as [|a l Hl IH Ha]; cbn [List.filter]; [constructor|]. destruct (p a); [|done].
    constructor; [done|]. rewrite Forall_forall in Ha |- *. intros b [Hb _]%elem_of_bool_filter. auto. }
  destruct (List.filter _ _) as [|a rest]; cbn [hd_error] in Hf; subst found; cbn [fmap option_fmap option_map].
  - intros a Ha. destruct (exposed cell_key points a) eqn:He; [|done]. exfalso.
    apply (not_elem_of_nil a), Hin. done.
  - exists a. destruct (proj1 (Hin a)) as [Ha He]; [left|]. split_and!; [done..| |].
    + apply py_len_perm, bool_filter_perm, Hl.
    + intros b Hb Hbe. assert (b ∈ a :: rest) as Hr by by apply Hin.
      apply elem_of_cons in Hr as [->|Hr]; [done|]. apply StronglySorted_inv in Hsorted as [_ Hs].
      rewrite Forall_forall in Hs. by apply Hs.
Qed.
End kernel_spec.

(** ** Buckets *)

Lemma buckets_perm {A K} `{EqDecision K} (key : A -> K) (l : list A) ks :
  NoDup ks ->
  flat_map (fun k => List.filter (fun a => bool_decide (key a = k)) l) ks
    ≡ₚ List.filter (fun a => bool_decide (key a ∈ ks)) l.
Proof.
  induction 1 as [|k ks Hk _ IH]; cbn [flat_map].
  - clear. induction l as [|a l IH]; [done|]. cbn [List.filter].
    rewrite bool_decide_eq_false_2 by apply not_elem_of_nil. done.
  - rewrite IH. clear IH. induction l as [|a l IH]; [done|]. cbn [List.filter].
    destruct (decide (key a = k)) as [Ha|Ha].
    + rewrite (bool_decide_eq_true_2 (key a = k)), (bool_decide_eq_false_2 (key a ∈ ks)) by congruence.
      rewrite (bool_decide_eq_true_2 (key a ∈ k :: ks)) by (rewrite Ha; left). cbn [app]. by rewrite IH.
    + rewrite (bool_decide_eq_false_2 (key a = k)) by done.
      destruct (decide (key a ∈ ks)) as [Hin|Hin].
      * rewrite (bool_decide_eq_true_2 (key a ∈ ks)), (bool_decide_eq_true_2 (key a ∈ k :: ks)) by (done || by right).
        by rewrite <-Permutation_middle, IH.
      * rewrite (bool_decide_eq_false_2 (key a ∈ ks)), (bool_decide_eq_false_2 (key a ∈ k :: ks)); [done|set_solver|done].
Qed.

Lemma bool_filter_true {A} (p : A -> bool) l : (forall a, a ∈ l -> p a = true) -> List.filter p l = l.
Proof.
  induction l as [|a l IH]; intros Hp; [done|]. cbn [List.filter]. rewrite (Hp a) by left. f_equal. apply IH.
  intros b Hb. apply Hp. by right.
Qed.

Lemma py_len_flat_map {A B} (f : A -> list B) l : py_len (flat_map f l) = py_sum ((fun a => py_len (f a)) <$> l).
Proof.
  induction l as [|a l IH]; [done|]. cbn [flat_map fmap list_fmap]. rewrite py_sum_cons, <-IH. unfold py_len.
  rewrite length_app. lia.
Qed.

(** The sizes of the buckets add up. *)
Lemma py_sum_buckets {A K} `{EqDecision K} (key : A -> K) (l : list A) ks :
  NoDup ks -> (forall a, a ∈ l -> key a ∈ ks) ->
  py_sum ((fun k => py_len (List.filter (fun a => bool_decide (key a = k)) l)) <$> ks) = py_len l.
Proof.
  intros Hks Hl. rewrite <-py_len_flat_map, (py_len_perm _ _ (buckets_perm key l ks Hks)), bool_filter_true; [done|].
  intros a Ha. by apply bool_decide_eq_true_2, Hl.
Qed.

Lemma bool_filter_comm {A} (p q : A -> bool) l : List.filter p (List.filter q l) = List.filter q (List.filter p l).
Proof.
  induction l as [|a l IH]; [done|]. cbn [List.filter]. destruct (p a) eqn:Hp, (q a) eqn:Hq; cbn [List.filter];
    rewrite ?Hp, ?Hq; cbn [List.filter]; by rewrite ?IH.
Qed.

(** Paths of the transition relation from an initial state. *)
Inductive path_to (r : Request) : list Transition -> Z -> Prop :=
| path_initial i : i ∈ initial_state_ordinals r -> path_to r [] i
| path_snoc p t : path_to r p (source_state_ordinal t) -> t ∈ transitions r -> path_to r (p ++ [t]) (target_state_ordinal t).

Definition reached (r : Request) (v : Z) : Prop := exists p, path_to r p v.

Section exploration.
Context (r : Request).
Abbreviation source := source_state_ordinal.
Abbreviation target := target_state_ordinal.

Definition outgoing (s : Z) : list Transition := List.filter (fun t => bool_decide (source t = s)) (transitions r).

Lemma elem_of_outgoing s t : t ∈ outgoing s <-> t ∈ transitions r /\ source t = s.
Proof. unfold outgoing. by rewrite elem_of_bool_filter, bool_decide_eq_true. Qed.

(** The states that left the queue are [finished], in order; [depth] is the
    number of steps of a state's parent path. *)
Record exploring (finished : list Z) (depth : Z -> nat) (x : Exploration) : Prop := {
  ex_nodup : NoDup (finished ++ queue x);
  ex_visited : forall v, v ∈ visited x <-> v ∈ finished ++ queue x;
  ex_initial : forall i, i ∈ initial_state_ordinals r -> i ∈ visited x /\ depth i = 0;
  ex_parents : forall v, v ∈ visited x <-> is_Some (parents x !! v);
  ex_root : forall v, parents x !! v = Some None -> v ∈ initial_state_ordinals r;
  ex_parent : forall v t, parents x !! v = Some (Some t) ->
    t ∈ transitions r /\ target t = v /\ source t ∈ finished /\ depth v = S (depth (source t));
  ex_edges : forall t, t ∈ explored x ->
    t ∈ transitions r /\ source t ∈ finished /\ target t ∈ visited x /\ depth (target t) <= S (depth (source t));
  ex_sorted : StronglySorted (fun a b => depth a <= depth b) (finished ++ queue x);
  ex_near : forall v, v ∈ queue x -> match last finished with Some s => depth v <= S (depth s) | None => depth v = 0 end;
}.

(** The next state leaves the queue. *)
Lemma exploring_pop finished depth x s rest :
  exploring finished depth x -> queue x = s :: rest ->
  exploring (finished ++ [s]) depth (Explored (visited x) (parents x) rest (explored x)).
Proof.
  intros H Hq. destruct H as [H1 H2 H3 H4 H5 H6 H7 H8 H9]. rewrite Hq in *.
  assert ((finished ++ [s]) ++ rest = finished ++ s :: rest) as Happ by by rewrite <-app_assoc.
  constructor; cbn [visited parents queue explored]; rewrite ?Happ; try done.
  - intros v t Ht. destruct (H6 v t Ht) as (? & ? & ? & ?). split_and!; try done. apply elem_of_app. by left.
  - intros t Ht. destruct (H7 t Ht) as (? & ? & ? & ?). split_and!; try done. apply elem_of_app. by left.
  - intros v Hv. rewrite last_snoc.
    assert (depth s <= depth v) as Hs.
    { apply StronglySorted_app in H8 as (_ & _ & H8). apply StronglySorted_inv in H8 as [_ H8]. rewrite Forall_forall in H8. by apply H8. }
    specialize (H9 v). destruct (last finished) as [s'|] eqn:Hl.
    + transitivity (S (depth s')); [apply H9; by right|].
      assert (depth s' <= depth s); [|lia]. apply StronglySorted_app in H8 as (H8 & _ & _).
      apply H8; [by apply last_Some_elem_of|left].
    + rewrite H9 by by right. lia.
Qed.

Lemma exploring_transition finished depth x s t :
  exploring finished depth x -> last finished = Some s -> t ∈ outgoing s ->
  exists depth', exploring finished depth' (explore_transition x t).
Proof.
  intros H Hlast [Ht Hsrc]%elem_of_outgoing. subst s.
  assert (source t ∈ finished) as Hfin by by apply last_Some_elem_of.
  destruct H as [H1 H2 H3 H4 H5 H6 H7 H8 H9]. rewrite Hlast in H9. unfold explore_transition.
  assert (forall v, v ∈ finished ++ queue x -> depth v <= S (depth (source t))) as Hnear.
  { intros v [Hv|Hv]%elem_of_app; [|by apply H9]. transitivity (depth (source t)); [|lia].
    apply StronglySorted_app in H8 as (_ & H8 & _). apply last_Some in Hlast as [l' Hl']. rewrite Hl' in H8, Hv.
    apply StronglySorted_app in H8 as (H8 & _ & _). apply elem_of_app in Hv as [Hv| ->%list_elem_of_singleton]; [|done].
    apply H8; [done|left]. }
  destruct (decide (target t ∈ visited x)) as [Hin|Hnew].
  - exists depth. constructor; cbn [visited parents queue explored]; try done.
    + intros t' [Ht'| ->%list_elem_of_singleton]%elem_of_app; [by apply H7|]. split_and!; try done. by apply Hnear, H2.
    + intros v Hv. rewrite Hlast. by apply H9.
  - exists (<[target t := S (depth (source t))]> depth).
    assert (forall v, v ∈ visited x -> <[target t := S (depth (source t))]> depth v = depth v) as Hsame.
    { intros v Hv. apply fn_lookup_insert_ne. by intros <-. }
    assert (forall v, v ∈ finished -> <[target t := S (depth (source t))]> depth v = depth v) as Hsamef.
    { intros v Hv. apply Hsame, H2, elem_of_app. by left. }
    constructor; cbn [visited parents queue explored].
    + rewrite app_assoc. apply NoDup_app. split_and!; [done| |apply NoDup_singleton].
      intros v Hv ->%list_elem_of_singleton. by apply Hnew, H2.
    + intros v. rewrite elem_of_union, elem_of_singleton, H2, app_assoc, (elem_of_app (finished ++ queue x)), list_elem_of_singleton. tauto.
    + intros i Hi. destruct (H3 i Hi) as [Hv Hd]. split; [apply elem_of_union; by right|]. by rewrite Hsame.
    + intros v. rewrite elem_of_union, elem_of_singleton, H4, lookup_insert_is_Some. destruct (decide (target t = v)); naive_solver.
    + intros v. rewrite lookup_insert. destruct (decide (target t = v)); [done|]. apply H5.
    + intros v t'. rewrite lookup_insert. destruct (decide (target t = v)) as [<-|Hne].
      * intros [= <-]. split_and!; [done..|]. by rewrite fn_lookup_insert, Hsamef.
      * intros Hp. assert (v ∈ visited x) as Hv by (apply H4; eauto). apply H6 in Hp as (? & ? & Hs & Hd). split_and!; try done.
        by rewrite Hsame, Hsamef.
    + intros t' [Ht'| ->%list_elem_of_singleton]%elem_of_app.
      * apply H7 in Ht' as (? & ? & ? & ?). split_and!; [done..|apply elem_of_union; by right|]. by rewrite Hsame, Hsamef.
      * split_and!; [done..|apply elem_of_union; left; by apply elem_of_singleton|]. by rewrite fn_lookup_insert, Hsamef.
    + rewrite app_assoc. apply StronglySorted_app. split_and!.
      * intros a b Ha ->%list_elem_of_singleton. rewrite fn_lookup_insert, Hsame by by apply H2. by apply Hnear.
      * revert H8. assert (forall v, v ∈ finished ++ queue x -> <[target t := S (depth (source t))]> depth v = depth v) as Hs
          by (intros v Hv; by apply Hsame, H2).
        revert Hs. generalize (finished ++ queue x). clear. intros l Hs. induction 1 as [|a l Hl IH Ha]; constructor.
        { apply IH. intros v Hv. apply Hs. by right. }
        rewrite Forall_forall in Ha |- *. intros b Hb. rewrite !Hs by (by left || by right). by apply Ha.
      * repeat constructor.
    + intros v. rewrite Hlast, (Hsamef _ Hfin). intros [Hv| ->%list_elem_of_singleton]%elem_of_app; [|by rewrite fn_lookup_insert].
      rewrite Hsame; [by apply H9|]. apply H2, elem_of_app. by right.
Qed.

Lemma exploring_source finished depth x s rest :
  exploring finished depth x -> queue x = s :: rest ->
  exists depth', exploring (finished ++ [s]) depth' (explore_source (collect source (transitions r)) s rest x).
Proof.
  intros H Hq. apply exploring_pop with (s := s) (rest := rest) in H; [|done]. unfold explore_source.
  rewrite collect_default. change (List.filter _ _) with (outgoing s).
  apply (foldl_prefix (fun _ x => exists depth, exploring (finished ++ [s]) depth x)); [|by exists depth].
  intros pre t suf y Hl [d Hd]. apply (exploring_transition _ d y s); [done|apply last_snoc|].
  rewrite Hl. apply elem_of_app. right. left.
Qed.

Lemma explored_transitions_app l x : OpacityCheck.explored (foldl explore_transition x l) = OpacityCheck.explored x ++ l.
Proof.
  revert x. induction l as [|t l IH]; intros x; cbn [foldl]; [by rewrite app_nil_r|]. rewrite IH. unfold explore_transition.
  destruct (decide _); cbn [explored]; by rewrite <-app_assoc.
Qed.

Lemma queue_transitions_length l x :
  length (queue (foldl explore_transition x l)) <= length (queue x) + length l.
Proof.
  revert x. induction l as [|t l IH]; intros x; cbn [foldl length]; [lia|]. etrans; [apply IH|]. unfold explore_transition.
  destruct (decide _); cbn [queue]; [lia|]. rewrite length_app. simpl. lia.
Qed.

Lemma outgoing_length finished :
  NoDup finished -> length (flat_map outgoing finished) <= length (transitions r).
Proof. intros H. unfold outgoing. rewrite (buckets_perm source (transitions r) finished H). apply List.filter_length_le. Qed.

(** What the exploration leaves. *)
Definition explored_all (x : Exploration) : Prop :=
  exists finished depth, exploring finished depth x /\ queue x = [] /\ explored x = flat_map outgoing finished.

Lemma explore_run fuel finished depth x :
  exploring finished depth x -> explored x = flat_map outgoing finished ->
  length (queue x) + (length (transitions r) - length (explored x)) <= fuel ->
  exists x', explore fuel (collect source (transitions r)) x = Ok x' /\ explored_all x'.
Proof.
  revert finished depth x. induction fuel as [|fuel IH]; intros finished depth x H Hex Hfuel;
    (destruct (queue x) as [|s rest] eqn:Hq; [exists x; split; [by (cbn [explore]; rewrite Hq)|by exists finished, depth]|]).
  { cbn [length] in Hfuel. lia. }
  cbn [explore]. rewrite Hq. destruct (exploring_source _ _ _ _ _ H Hq) as [depth' H'].
  assert (explored (explore_source (collect source (transitions r)) s rest x) = flat_map outgoing (finished ++ [s])) as Hex'.
  { unfold explore_source. rewrite explored_transitions_app, collect_default. cbn [explored].
    rewrite Hex, flat_map_app. cbn [flat_map]. by rewrite app_nil_r. }
  apply (IH _ _ _ H' Hex'). pose proof (outgoing_length (finished ++ [s])) as Hlen. rewrite <-Hex' in Hlen.
  rewrite Hex' in Hlen |- *. rewrite flat_map_app, length_app in Hlen |- *. cbn [flat_map] in Hlen |- *. rewrite app_nil_r in Hlen |- *.
  rewrite Hex in Hfuel. cbn [length] in Hfuel. pose proof (queue_transitions_length (outgoing s)
    (Explored (visited x) (parents x) rest (explored x))) as Hqueue. cbn [queue] in Hqueue.
  assert (explore_source (collect source (transitions r)) s rest x =
    foldl explore_transition (Explored (visited x) (parents x) rest (explored x)) (outgoing s)) as ->.
  { unfold explore_source. by rewrite collect_default. }
  assert (NoDup (finished ++ [s])) as Hnd.
  { pose proof (ex_nodup _ _ _ H') as Hnd. by apply NoDup_app in Hnd as (? & _). }
  specialize (Hlen Hnd). lia.
Qed.

Lemma exploring_start : NoDup (initial_state_ordinals r) -> exploring [] (fun _ => 0) (start_exploration r).
Proof.
  intros Hnd. unfold start_exploration. set (initials := initial_state_ordinals r) in *.
  assert (forall v o, (list_to_map ((fun i => (i, None)) <$> initials) : gmap Z (option Transition)) !! v = Some o <->
    v ∈ initials /\ o = None) as Hp.
  { intros v o. rewrite <-elem_of_list_to_map, list_elem_of_fmap.
    - split; [by intros (i & [= -> ->] & ?)|intros [? ->]; by exists v].
    - rewrite <-list_fmap_compose. by rewrite (list_fmap_id initials : (fst ∘ (fun i => (i, None))) <$> initials = initials). }
  constructor; cbn [visited parents queue explored app]; try done.
  - intros v. by rewrite elem_of_list_to_set.
  - intros i Hi. by rewrite elem_of_list_to_set.
  - intros v. rewrite elem_of_list_to_set. split; [intros Hv; exists None; by apply Hp|intros [o Ho]; by apply Hp in Ho as [? _]].
  - by intros v [? _]%Hp.
  - by intros v t [_ ?]%Hp.
  - by intros t ?%not_elem_of_nil.
  - clear. induction initials as [|i l IH]; constructor; [done|]. by apply Forall_forall.
Qed.

Lemma exploration_run :
  NoDup (initial_state_ordinals r) ->
  exists x, explore (exploration_fuel r) (collect source (transitions r)) (start_exploration r) = Ok x /\ explored_all x.
Proof.
  intros Hnd. apply (explore_run _ [] (fun _ => 0)); [by apply exploring_start|done|]. unfold exploration_fuel. simpl. lia.
Qed.

Section explored.
Context (x : Exploration) (finished : list Z) (depth : Z -> nat).
Context (Hx : exploring finished depth x) (Hq : queue x = []) (Hex : explored x = flat_map outgoing finished).

Lemma visited_finished v : v ∈ visited x <-> v ∈ finished.
Proof. by rewrite (ex_visited _ _ _ Hx), Hq, app_nil_r. Qed.

Lemma finished_NoDup : NoDup finished.
Proof. pose proof (ex_nodup _ _ _ Hx) as H. by rewrite Hq, app_nil_r in H. Qed.

Lemma explored_iff t : t ∈ explored x <-> t ∈ transitions r /\ source t ∈ visited x.
Proof.
  rewrite Hex, list_elem_of_In, in_flat_map. setoid_rewrite <-list_elem_of_In. setoid_rewrite elem_of_outgoing.
  rewrite visited_finished. naive_solver.
Qed.

Lemma explored_perm : explored x ≡ₚ List.filter (fun t => bool_decide (source t ∈ visited x)) (transitions r).
Proof.
  rewrite Hex. unfold outgoing. rewrite (buckets_perm source (transitions r) finished finished_NoDup).
  erewrite List.filter_ext; [done|]. intros t. apply bool_decide_ext. symmetry. apply visited_finished.
Qed.

(** No path is shorter than the parent path. *)
Lemma path_visited p v : path_to r p v -> v ∈ visited x /\ depth v <= length p.
Proof.
  induction 1 as [i Hi|p t _ [IHv IHd] Ht].
  - destruct (ex_initial _ _ _ Hx i Hi) as [? ->]. done.
  - assert (t ∈ explored x) as He by by apply explored_iff.
    apply (ex_edges _ _ _ Hx) in He as (_ & _ & ? & ?). split; [done|]. rewrite length_app. simpl. lia.
Qed.

(** The walk back spells a path of that length. *)
Lemma walk_back_run n v fuel acc :
  v ∈ visited x -> depth v = n -> n <= fuel ->
  exists p, path_to r p v /\ length p = n /\
    walk_back fuel (parents x) v acc = Ok (acc ++ reverse (mt_ordinal <$> p)).
Proof.
  revert v fuel acc. induction n as [|n IH]; intros v fuel acc Hv Hd Hfuel;
    (destruct (proj1 (ex_parents _ _ _ Hx v) Hv) as [[t|] Hp]);
    try (destruct (ex_parent _ _ _ Hx v t Hp) as (Ht & Htarget & Hsrc & Hdepth)).
  - lia.
  - exists []. split_and!; [by constructor; apply (ex_root _ _ _ Hx)|done|]. destruct fuel; cbn [walk_back]; rewrite Hp; by rewrite app_nil_r.
  - destruct fuel as [|fuel]; [lia|].
    destruct (IH (source t) fuel (acc ++ [mt_ordinal t])) as (p & Hpath & Hlen & Hwalk); [by apply visited_finished|lia..|].
    exists (p ++ [t]). split_and!.
    + rewrite <-Htarget. by constructor.
    + rewrite length_app. simpl. lia.
    + cbn [walk_back]. rewrite Hp, Hwalk, fmap_app, reverse_app. f_equal. by rewrite <-app_assoc.
  - apply (ex_root _ _ _ Hx) in Hp. apply (ex_initial _ _ _ Hx) in Hp as [_ Hp]. lia.
Qed.

Lemma depth_chain n v : v ∈ visited x -> depth v = n ->
  exists l, NoDup l /\ length l = S n /\ forall u, u ∈ l -> u ∈ visited x /\ depth u <= n.
Proof.
  revert v. induction n as [|n IH]; intros v Hv Hd.
  - exists [v]. split_and!; [apply NoDup_singleton|done|]. intros u ->%list_elem_of_singleton. split; [done|lia].
  - destruct (proj1 (ex_parents _ _ _ Hx v) Hv) as [[t|] Hp].
    + destruct (ex_parent _ _ _ Hx v t Hp) as (_ & _ & Hsrc & Hdepth).
      destruct (IH (source t)) as (l & Hnd & Hlen & Hl); [by apply visited_finished|lia|].
      exists (v :: l). split_and!.
      * constructor; [|done]. intros Hin. apply Hl in Hin as [_ Hin]. lia.
      * simpl. lia.
      * intros u [->|Hu]%elem_of_cons; [split; [done|lia]|]. apply Hl in Hu as [? ?]. split; [done|lia].
    + apply (ex_root _ _ _ Hx) in Hp. apply (ex_initial _ _ _ Hx) in Hp as [_ Hp]. lia.
Qed.

Lemma depth_bound v : v ∈ visited x -> depth v < length finished.
Proof.
  intros Hv. destruct (depth_chain _ v Hv eq_refl) as (l & Hnd & Hlen & Hl).
  assert (length l <= length finished); [|lia]. apply submseteq_length, NoDup_submseteq; [done|].
  intros u Hu. apply visited_finished. by apply Hl.
Qed.

Lemma size_parents : size (parents x) = length finished.
Proof.
  rewrite <-size_dom. assert (dom (parents x) = list_to_set finished) as ->.
  { apply leibniz_equiv. intros v. rewrite elem_of_dom, elem_of_list_to_set, <-(ex_parents _ _ _ Hx). apply visited_finished. }
  apply size_list_to_set, finished_NoDup.
Qed.

(** A reached state has a shortest path, which the parents spell. *)
Lemma counterexample_path_run v :
  v ∈ visited x ->
  exists p, path_to r p v /\ length p < length finished /\ counterexample_path v (parents x) = Ok (mt_ordinal <$> p) /\
    forall p', path_to r p' v -> length p <= length p'.
Proof.
  intros Hv. pose proof (depth_bound v Hv) as Hb.
  destruct (walk_back_run _ v (size (parents x)) [] Hv eq_refl) as (p & Hp & Hlen & Hwalk); [rewrite size_parents; lia|].
  exists p. split_and!; [done|lia| |].
  - unfold counterexample_path. rewrite Hwalk. cbn [mbind result_bind app]. by rewrite reverse_involutive.
  - intros p' Hp'. rewrite Hlen. by apply path_visited.
Qed.

Lemma visited_reached v : v ∈ visited x <-> reached r v.
Proof.
  split; [|by intros [p Hp]; apply path_visited in Hp as [? _]].
  intros Hv. destruct (counterexample_path_run v Hv) as (p & Hp & _). by exists p.
Qed.
End explored.
End exploration.
