(* ===== verification/OpacityEvidence.v ===== *)
(** What a validated transition model guarantees, and the evidence that the
    checker builds from any explored carrier of such a model. *)
From S2P Require Import Prelude.
From S2P Require Import Contracts.
From S2P Require Import Diagnostics.
From S2P Require Import TimeModel.
From S2P Require Import ExploitModel.
From S2P Require Import ExploitFacts.
From S2P Require Import BehavioralModel.
From S2P Require Import OpacityModel.
From S2P Require Import OpacityCheck.
From S2P Require Import OpacityFacts.
Local Open Scope string_scope.
Local Open Scope list_scope.

#[local] Opaque require_fields require_sorted_unique raise_if.

(** A request whose parts have been validated. *)
Record valid_request (r : Request) : Prop := {
  vr_input : validate_model_check_input r = Ok r;
  vr_assumptions : validate_assumptions (assumptions r) = Ok (assumptions r);
  vr_states : Forall (fun s => validate_state s = Ok s) (states r);
  vr_transitions : Forall (fun t => validate_transition t = Ok t) (transitions r);
  vr_counts : validate_counts (declared_counts r) = Ok (declared_counts r);
}.

Lemma range_lookup n i : range n !! i = if decide (i < n) then Some (Z.of_nat i) else None.
Proof.
  unfold range. rewrite list_lookup_fmap. destruct (decide (i < n)).
  - by rewrite lookup_seq_lt.
  - rewrite lookup_seq_ge by lia. done.
Qed.

Lemma NoDup_range n : NoDup (range n).
Proof. unfold range. apply NoDup_fmap_2; [apply _|apply NoDup_seq]. Qed.

Lemma elem_of_range n z : z ∈ range n <-> (0 <= z < Z.of_nat n)%Z.
Proof.
  unfold range. rewrite list_elem_of_fmap. setoid_rewrite elem_of_seq. split; [intros (i & -> & ?); lia|].
  intros H. exists (Z.to_nat z). lia.
Qed.

Lemma NoDup_sorted_set l : NoDup (sorted_set l).
Proof. unfold sorted_set. rewrite merge_sort_Permutation. apply NoDup_elements. Qed.

Lemma elem_of_sorted_elements (s : gset Z) z : z ∈ merge_sort Z.le (elements s) <-> z ∈ s.
Proof. by rewrite merge_sort_Permutation, elem_of_elements. Qed.

Lemma sets_differ_false {A} `{Countable A} (l1 l2 : list A) : sets_differ l1 l2 = false <-> forall a, a ∈ l1 <-> a ∈ l2.
Proof.
  unfold sets_differ. rewrite bool_decide_not_false. split.
  - intros Hs a. by rewrite <-!(elem_of_list_to_set (C := gset A)), Hs.
  - intros Hs. apply leibniz_equiv. intros a. rewrite !elem_of_list_to_set. apply Hs.
Qed.

Lemma distinct_ext {A} `{Countable A} (l1 l2 : list A) : (forall a, a ∈ l1 <-> a ∈ l2) -> distinct l1 = distinct l2.
Proof.
  intros Hs. unfold distinct. do 2 f_equal. apply leibniz_equiv. intros a. rewrite !elem_of_list_to_set. apply Hs.
Qed.

Lemma distinct_NoDup {A} `{Countable A} (l : list A) : NoDup l -> distinct l = py_len l.
Proof. intros Hl. unfold distinct, py_len. by rewrite size_list_to_set. Qed.

Lemma distinct_le {A} `{Countable A} (l : list A) : (0 <= distinct l <= py_len l)%Z.
Proof.
  unfold distinct, py_len. assert (size (list_to_set l : gset A) <= length l); [|lia].
  induction l as [|a l IH]; [by rewrite list_to_set_nil, size_empty|]. rewrite list_to_set_cons.
  pose proof (size_union_alt ({[a]} : gset A) (list_to_set l)) as ->. rewrite size_singleton. cbn [length].
  assert (size ((list_to_set l : gset A) ∖ {[a]}) <= size (list_to_set l : gset A)) by (apply subseteq_size; set_solver). lia.
Qed.

Lemma elem_of_product {A B} (l1 : list A) (l2 : list B) p : p ∈ product l1 l2 <-> p.1 ∈ l1 /\ p.2 ∈ l2.
Proof.
  unfold product. rewrite list_elem_of_bind. setoid_rewrite list_elem_of_bind. setoid_rewrite list_elem_of_singleton.
  destruct p as [a b]. split; [by intros (? & (? & [= -> ->] & ?) & ?)|]. intros [? ?]. by exists a; split; [exists b|].
Qed.

Lemma NoDup_product {A B} (l1 : list A) (l2 : list B) : NoDup l1 -> NoDup l2 -> NoDup (product l1 l2).
Proof.
  intros H1 H2. unfold product. apply NoDup_bind; [| |done].
  - intros a a' [x y] _ _. rewrite !list_elem_of_bind. setoid_rewrite list_elem_of_singleton.
    by intros (? & [= -> _] & _) (? & [= ? _] & _).
  - intros a _. apply NoDup_bind; [| |done].
    + intros b b' p _ _. rewrite !list_elem_of_singleton. by intros -> [=].
    + intros b _. apply NoDup_singleton.
Qed.

Lemma length_product {A B} (l1 : list A) (l2 : list B) : length (product l1 l2) = length l1 * length l2.
Proof.
  unfold product. induction l1 as [|a l1 IH]; [done|]. cbn [mbind list_bind]. rewrite length_app, IH.
  assert (forall l : list B, length (l ≫= (fun b => [(a, b)])) = length l) as ->; [|cbn [length]; lia].
  induction l as [|b l IHl]; [done|]. cbn [mbind list_bind app length]. by f_equal.
Qed.

Lemma py_index_Ok {A} (l : list A) (z : Z) a : py_index l z = Ok a -> a ∈ l.
Proof.
  unfold py_index. case_match; destruct (_ <? 0)%Z; try done; destruct (_ !! _) eqn:E; try done; intros [= ->];
    by apply list_elem_of_lookup_2 in E.
Qed.

(** ** Facts of a validated request *)

Record request_facts (r : Request) : Prop := {
  rf_ordinals : ms_ordinal <$> states r = range (length (states r));
  rf_transition_ordinals : mt_ordinal <$> transitions r = range (length (transitions r));
  rf_initial_NoDup : NoDup (initial_state_ordinals r);
  rf_initial_lt : forall i, i ∈ initial_state_ordinals r -> (i < py_len (states r))%Z;
  rf_endpoints : forall t, t ∈ transitions r ->
    (0 <= source_state_ordinal t < py_len (states r))%Z /\ (0 <= target_state_ordinal t < py_len (states r))%Z;
  rf_counts : declared_counts r = realized_counts r;
  rf_strategies : forall x, x ∈ ms_strategy_ref <$> states r <-> x ∈ strategy_refs (assumptions r);
  rf_pairs : forall x, x ∈ scheduler_environment <$> states r <->
    x ∈ product (scheduler_refs (assumptions r)) (environment_refs (assumptions r));
  rf_orders : forall x, x ∈ ms_order_ref <$> states r <-> x ∈ order_refs (assumptions r);
  rf_initial : exists l, mmap (py_index (states r)) (initial_state_ordinals r) = Ok l /\
    forall d, d ∈ state_domain <$> l <-> d ∈ assumed_domains (assumptions r);
  rf_claim : validate_model_check_claim_scope (claim r) (assumptions r) = Ok tt;
  rf_states_size : (1 <= py_len (states r) <= MAX_OPACITY_MODEL_STATES)%Z;
  rf_transitions_size : (0 <= py_len (transitions r) <= MAX_OPACITY_MODEL_TRANSITIONS)%Z;
  rf_catalog_digest : prefixed_digest (catalog_digest r) = true;
  rf_profile_id : SafeRef (input_profile_id r) = true;
  rf_profile_revision : Revision (input_profile_revision r) = true;
  rf_profile_digest : prefixed_digest (input_profile_digest r) = true;
  rf_model_ref : SafeRef (model_ref r) = true;
  rf_model_revision : Revision (model_revision r) = true;
  rf_materializer : SafeRef (materializer_id r) = true /\ Revision (materializer_version r) = true /\
    prefixed_digest (materializer_digest r) = true;
}.

Record assumption_facts (a : ParticipantOpacityModelAssumptions) : Prop := {
  af_strategies : NoDup (strategy_refs a) /\ py_sorted (strategy_refs a) = strategy_refs a;
  af_schedulers : NoDup (scheduler_refs a);
  af_environments : NoDup (environment_refs a);
  af_orders : NoDup (order_refs a);
  af_strategy_ref : forall x, x ∈ strategy_refs a -> SafeRef x = true;
  af_sizes : length (strategy_refs a) <= 64 /\ length (scheduler_refs a) <= 64 /\ length (environment_refs a) <= 64 /\
    length (order_refs a) <= 64;
}.

Lemma assumption_facts_of a b : validate_assumptions a = Ok b -> assumption_facts a.
Proof.
  unfold validate_assumptions. intros H. inv_result. rename E into Hf. apply require_fields_Ok in Hf.
  rewrite !Forall_cons in Hf. cbn [snd] in Hf. destruct Hf as (H1 & H2 & H3 & H4 & _).
  apply bounded_tuple_true in H1 as [? H1], H2 as [? _], H3 as [? _], H4 as [? _].
  apply require_sorted_unique_Ok in E0, E1 as [? _], E2 as [? _], E3 as [? _]. constructor; try done. lia.
Qed.

Lemma in_range_py (lo hi z : Z) : in_range lo hi z = true -> (lo <= z <= hi)%Z.
Proof. apply in_range_true. Qed.

Lemma request_facts_of r : valid_request r -> request_facts r.
Proof.
  intros [H _ _ Ht _]. unfold validate_model_check_input in H.
  apply bind_Ok in H as ([] & Hfields & H). apply bind_Ok in H as ([] & Hid & H). apply bind_Ok in H as ([] & Htrans & H).
  apply bind_Ok in H as ([] & Hcounts & H). apply bind_Ok in H as ([] & Hdomains & H).
  apply bind_Ok in H as ([] & Hinitial & H). apply bind_Ok in H as ([] & Hclaim & _).
  apply require_fields_Ok in Hfields. rewrite !Forall_cons in Hfields. cbn [snd] in Hfields.
  destruct Hfields as (_ & ? & ? & ? & ? & ? & ? & ? & ? & ? & Hi & Hs & Htr & _).
  apply in_range_py in Hs, Htr.
  unfold validate_model_identities in Hid. inv_result. apply bool_decide_not_false in E, E0, E3.
  unfold validate_model_counts in Hcounts. inv_result. apply bool_decide_not_false in Hcounts.
  unfold validate_model_declared_domains in Hdomains. inv_result.
  unfold validate_model_initial_domain in Hinitial. apply bind_Ok in Hinitial as (l & Hl & Hd). inv_result.
  constructor; try done.
  - rewrite E3. apply NoDup_sorted_set.
  - intros i Hin. destruct (Z.lt_ge_cases i (py_len (states r))) as [?|Hge]; [done|]. exfalso.
    assert (existsb (fun ordinal => (py_len (states r) <=? ordinal)%Z) (initial_state_ordinals r) = true); [|congruence].
    apply existsb_exists. exists i. split; [by apply list_elem_of_In|]. by apply Z.leb_le.
  - intros t Hin. rewrite Forall_forall in Ht. specialize (Ht t Hin). unfold validate_transition in Ht.
    apply bind_Ok in Ht as ([] & Ht & _). apply require_fields_Ok in Ht. rewrite !Forall_cons in Ht. cbn [snd] in Ht.
    destruct Ht as (_ & _ & Hsrc & Htgt & _). apply in_range_py in Hsrc, Htgt.
    unfold validate_model_transitions in Htrans. apply mfold_checks in Htrans. rewrite Forall_forall in Htrans.
    specialize (Htrans t Hin). apply bind_Ok in Htrans as ([] & Htrans & _).
    apply raise_if_Ok, orb_false_iff in Htrans as [Hl1 Hl2]. apply Z.leb_gt in Hl1, Hl2. lia.
  - exact (proj1 (sets_differ_false _ _) E4).
  - exact (proj1 (sets_differ_false _ _) E7).
  - exact (proj1 (sets_differ_false _ _) E8).
  - exists l. split; [done|]. exact (proj1 (sets_differ_false _ _) Hd).
Qed.

(** ** Evidence over an explored carrier *)

(** The states and transitions that an exploration of [r] may hand over: parts
    of the model that hold the initial states. *)
Record carrier_of (r : Request) (carrier : list State) (ts : list Transition) : Prop := {
  co_states : forall s, s ∈ carrier -> s ∈ states r;
  co_states_size : (py_len carrier <= py_len (states r))%Z;
  co_transitions : forall t, t ∈ ts -> t ∈ transitions r;
  co_transitions_size : (py_len ts <= py_len (transitions r))%Z;
  co_initial : forall i s, i ∈ initial_state_ordinals r -> py_index (states r) i = Ok s -> s ∈ carrier;
}.

Definition strategy_of_source (r : Request) (t : Transition) : string :=
  match py_index (states r) (source_state_ordinal t) with Ok s => ms_strategy_ref s | Raise _ => "" end.

Definition coverage_for (r : Request) (carrier : list State) (ts : list Transition) (strategy : string)
    : ParticipantOpacityStrategyCoverage :=
  let of_strategy := List.filter (fun s => bool_decide (ms_strategy_ref s = strategy)) in
  StrategyCoverage strategy (py_len (of_strategy carrier))
    (count_if (fun s => bool_decide (s = strategy)) (strategy_of_source r <$> ts))
    (py_len (List.filter evaluation_point (of_strategy carrier)))
    (count_if ms_secret_holds (List.filter evaluation_point (of_strategy carrier))).

Definition full_coverage (r : Request) (carrier : list State) (ts : list Transition) : ParticipantOpacityModelCheckCoverage :=
  let evaluation := List.filter evaluation_point carrier in
  Coverage (declared_counts r) (py_len carrier) (py_len ts) (py_len evaluation) (count_if ms_secret_holds evaluation)
    (coverage_for r carrier ts <$> strategy_refs (assumptions r)) (distinct (scheduler_environment <$> carrier))
    (distinct (ms_order_ref <$> carrier)) true.

Section carrier.
Context (r : Request) (carrier : list State) (ts : list Transition).
Context (Hr : request_facts r) (Ha : assumption_facts (assumptions r)) (Hc : carrier_of r carrier ts).

Lemma source_state t : t ∈ transitions r -> exists s, py_index (states r) (source_state_ordinal t) = Ok s /\ s ∈ states r.
Proof.
  intros Ht. destruct (rf_endpoints _ Hr t Ht) as [[H0 H1] _]. unfold py_len in H1.
  destruct (lookup_lt_is_Some_2 (states r) (Z.to_nat (source_state_ordinal t))) as [s Hs]; [lia|].
  exists s. split; [by apply py_index_lookup|]. by apply list_elem_of_lookup_2 in Hs.
Qed.

Lemma transition_ordinal_inj t1 t2 : t1 ∈ transitions r -> t2 ∈ transitions r -> mt_ordinal t1 = mt_ordinal t2 -> t1 = t2.
Proof.
  intros [i Hi]%list_elem_of_lookup [j Hj]%list_elem_of_lookup Ho.
  pose proof (f_equal (lookup i) (rf_transition_ordinals _ Hr)) as H1. pose proof (f_equal (lookup j) (rf_transition_ordinals _ Hr)) as H2.
  rewrite list_lookup_fmap, Hi, range_lookup, decide_True in H1 by by eapply lookup_lt_Some.
  rewrite list_lookup_fmap, Hj, range_lookup, decide_True in H2 by by eapply lookup_lt_Some.
  cbn in H1, H2. injection H1 as H1. injection H2 as H2. assert (i = j) as -> by lia. congruence.
Qed.

Lemma transition_sources_run :
  exists m, transition_sources r ts = Ok m /\ forall t, t ∈ ts -> m !! mt_ordinal t = Some (strategy_of_source r t).
Proof.
  apply (mfold_prefix (fun pre m => forall t, t ∈ pre -> m !! mt_ordinal t = Some (strategy_of_source r t)));
    [|by intros t ?%not_elem_of_nil].
  intros pre t suf m Hts Hm. assert (t ∈ ts) as Ht by (rewrite Hts; apply elem_of_app; right; left).
  assert (forall t', t' ∈ pre -> t' ∈ ts) as Hpre by (intros t' ?; rewrite Hts; apply elem_of_app; by left).
  destruct (source_state t) as (s & Hs & _); [by apply Hc|]. rewrite Hs. cbn [mbind result_bind]. eexists. split; [done|].
  intros t' [Ht'| ->%list_elem_of_singleton]%elem_of_app; rewrite lookup_insert; case_decide as Heq.
  - apply transition_ordinal_inj in Heq as ->; [|by apply Hc|by apply Hc, Hpre]. unfold strategy_of_source. by rewrite Hs.
  - by apply Hm.
  - unfold strategy_of_source. by rewrite Hs.
  - done.
Qed.

Lemma strategy_of_source_ref t : t ∈ ts -> strategy_of_source r t ∈ strategy_refs (assumptions r).
Proof.
  intros Ht. unfold strategy_of_source. destruct (source_state t) as (s & Hs & Hin); [by apply Hc|]. rewrite Hs.
  apply (rf_strategies _ Hr), list_elem_of_fmap. eauto.
Qed.

(** Every domain has an initial state. *)
Lemma initial_state_of d : d ∈ assumed_domains (assumptions r) -> exists s, s ∈ carrier /\ state_domain s = d.
Proof.
  intros Hd. destruct (rf_initial _ Hr) as (l & Hl & Hdom). apply Hdom in Hd.
  apply list_elem_of_fmap in Hd as (s & Hds & Hs).
  exists s. split; [|done]. apply mmap_Forall2 in Hl. apply list_elem_of_lookup in Hs as [i Hi].
  destruct (Forall2_lookup_r _ _ _ _ _ Hl Hi) as (z & Hz & Hs). apply (co_initial _ _ _ Hc z s); [|done].
  by apply list_elem_of_lookup_2 in Hz.
Qed.

Lemma elem_of_assumed_domains d :
  d ∈ assumed_domains (assumptions r) <->
    d.1.1.1 ∈ strategy_refs (assumptions r) /\ d.1.1.2 ∈ scheduler_refs (assumptions r) /\
    d.1.2 ∈ environment_refs (assumptions r) /\ d.2 ∈ order_refs (assumptions r).
Proof. unfold assumed_domains. rewrite !elem_of_product. tauto. Qed.

Lemma domain_inhabited : exists s, s ∈ carrier.
Proof.
  destruct (states r) as [|s0 l] eqn:Hs; [pose proof (rf_states_size _ Hr) as Hn; rewrite Hs in Hn; unfold py_len in Hn; simpl in Hn; lia|].
  destruct (rf_initial _ Hr) as (l' & Hl & Hdom).
  assert (s0 ∈ states r) as H0 by (rewrite Hs; left).
  destruct (initial_state_of (state_domain s0)) as (s & ? & _); [|by exists s]. apply elem_of_assumed_domains. unfold state_domain. cbn [fst snd].
  assert (scheduler_environment s0 ∈ product (scheduler_refs (assumptions r)) (environment_refs (assumptions r))) as Hp
    by (apply (rf_pairs _ Hr), list_elem_of_fmap; eauto). apply elem_of_product in Hp as [? ?].
  split_and!; [apply (rf_strategies _ Hr)|done|done|apply (rf_orders _ Hr)]; apply list_elem_of_fmap; eauto.
Qed.

(** Each strategy, pair and order of the model is among the initial states. *)
Lemma carrier_strategies x : x ∈ ms_strategy_ref <$> carrier <-> x ∈ strategy_refs (assumptions r).
Proof.
  split; [intros (s & -> & Hs)%list_elem_of_fmap; apply (rf_strategies _ Hr), list_elem_of_fmap; eauto using co_states|].
  intros Hx. destruct domain_inhabited as [s0 Hs0]. apply Hc in Hs0.
  assert (scheduler_environment s0 ∈ product (scheduler_refs (assumptions r)) (environment_refs (assumptions r))) as [? ?]%elem_of_product
    by (apply (rf_pairs _ Hr), list_elem_of_fmap; eauto).
  assert (ms_order_ref s0 ∈ order_refs (assumptions r)) by (apply (rf_orders _ Hr), list_elem_of_fmap; eauto).
  destruct (initial_state_of (x, scheduler_ref s0, environment_ref s0, ms_order_ref s0)) as (s & Hs & [= <- _ _ _]);
    [by apply elem_of_assumed_domains|]. apply list_elem_of_fmap. eauto.
Qed.

Lemma carrier_pairs x : x ∈ scheduler_environment <$> carrier <-> x ∈ scheduler_environment <$> states r.
Proof.
  split; [intros (s & -> & Hs)%list_elem_of_fmap; apply list_elem_of_fmap; eauto using co_states|].
  intros Hx. pose proof Hx as Hp. apply (rf_pairs _ Hr), elem_of_product in Hp as [H1 H2].
  destruct domain_inhabited as [s0 Hs0]. apply Hc in Hs0.
  assert (ms_strategy_ref s0 ∈ strategy_refs (assumptions r)) by (apply (rf_strategies _ Hr), list_elem_of_fmap; eauto).
  assert (ms_order_ref s0 ∈ order_refs (assumptions r)) by (apply (rf_orders _ Hr), list_elem_of_fmap; eauto).
  destruct (initial_state_of (ms_strategy_ref s0, x.1, x.2, ms_order_ref s0)) as (s & Hs & [= _ E1 E2 _]);
    [by apply elem_of_assumed_domains|]. apply list_elem_of_fmap. exists s. split; [|done]. unfold scheduler_environment.
  rewrite E1, E2. by destruct x.
Qed.

Lemma carrier_orders x : x ∈ ms_order_ref <$> carrier <-> x ∈ ms_order_ref <$> states r.
Proof.
  split; [intros (s & -> & Hs)%list_elem_of_fmap; apply list_elem_of_fmap; eauto using co_states|].
  intros Hx. pose proof Hx as Ho. apply (rf_orders _ Hr) in Ho. destruct domain_inhabited as [s0 Hs0]. apply Hc in Hs0.
  assert (scheduler_environment s0 ∈ product (scheduler_refs (assumptions r)) (environment_refs (assumptions r))) as [? ?]%elem_of_product
    by (apply (rf_pairs _ Hr), list_elem_of_fmap; eauto).
  assert (ms_strategy_ref s0 ∈ strategy_refs (assumptions r)) by (apply (rf_strategies _ Hr), list_elem_of_fmap; eauto).
  destruct (initial_state_of (ms_strategy_ref s0, scheduler_ref s0, environment_ref s0, x)) as (s & Hs & [= _ _ _ <-]);
    [by apply elem_of_assumed_domains|]. apply list_elem_of_fmap. eauto.
Qed.

Lemma count_if_le {A} (p : A -> bool) l : (0 <= count_if p l <= py_len l)%Z.
Proof. split; [apply py_len_nonneg|apply py_len_filter_le]. Qed.

Lemma strategy_coverage_run sources x :
  (forall t, t ∈ ts -> sources !! mt_ordinal t = Some (strategy_of_source r t)) -> x ∈ strategy_refs (assumptions r) ->
  strategy_coverage_of carrier ts sources x = Ok (coverage_for r carrier ts x).
Proof.
  intros Hsources Hx. unfold strategy_coverage_of. rewrite (mmap_Ok_Forall (strategy_of_source r)).
  2:{ intros t Ht. unfold source_of. by rewrite Hsources. }
  cbn [mbind result_bind]. unfold validate_strategy_coverage. rewrite (proj2 (require_fields_Ok _ tt)); [done|].
  set (mine := List.filter (fun s => bool_decide (ms_strategy_ref s = x)) carrier).
  assert (py_len mine <= MAX_OPACITY_MODEL_STATES)%Z as Hmax.
  { pose proof (py_len_filter_le (fun s => bool_decide (ms_strategy_ref s = x)) carrier) as H1. fold mine in H1.
    pose proof (co_states_size _ _ _ Hc). pose proof (rf_states_size _ Hr). lia. }
  assert (1 <= py_len mine)%Z as Hmin.
  { apply carrier_strategies in Hx. apply list_elem_of_fmap in Hx as (s & Hs & Hin). apply (py_len_pos _ s). apply elem_of_bool_filter.
    split; [done|]. by apply bool_decide_eq_true. }
  pose proof (py_len_filter_le evaluation_point mine). pose proof (py_len_nonneg (List.filter evaluation_point mine)).
  pose proof (count_if_le ms_secret_holds (List.filter evaluation_point mine)).
  pose proof (count_if_le (fun s => bool_decide (s = x)) (strategy_of_source r <$> ts)) as Hct.
  assert (py_len (strategy_of_source r <$> ts) = py_len ts) as Hlt by (unfold py_len; by rewrite length_fmap).
  pose proof (co_transitions_size _ _ _ Hc). pose proof (rf_transitions_size _ Hr).
  repeat constructor; cbn [snd sc_strategy_ref sc_explored_states sc_explored_transitions sc_evaluation_points sc_secret_points];
    [by apply Ha|apply in_range_true; lia..].
Qed.

Lemma coverage_strategies : sc_strategy_ref <$> (coverage_for r carrier ts <$> strategy_refs (assumptions r)) = strategy_refs (assumptions r).
Proof. rewrite <-list_fmap_compose. apply list_fmap_id. Qed.

Lemma strategy_sum (l : list State) :
  (forall s, s ∈ l -> s ∈ carrier) ->
  py_sum ((fun x => py_len (List.filter (fun s => bool_decide (ms_strategy_ref s = x)) l)) <$> strategy_refs (assumptions r))
    = py_len l.
Proof.
  intros Hl. apply py_sum_buckets; [apply Ha|]. intros s Hs. apply carrier_strategies, list_elem_of_fmap. eauto.
Qed.

Lemma check_coverage_run : check_coverage (full_coverage r carrier ts) = Ok tt.
Proof.
  pose proof (co_states_size _ _ _ Hc). pose proof (co_transitions_size _ _ _ Hc).
  unfold check_coverage, full_coverage. cbn [declared explored_states explored_transitions reachable_evaluation_points
    reachable_secret_points strategy_coverage]. rewrite (rf_counts _ Hr). cbn [realized_counts count_states count_transitions].
  set (evaluation := List.filter evaluation_point carrier).
  assert (py_len evaluation <= py_len carrier)%Z by apply py_len_filter_le.
  pose proof (count_if_le ms_secret_holds evaluation).
  rewrite !(proj2 (Z.ltb_ge _ _)) by lia. rewrite coverage_strategies.
  rewrite <-(proj2 (af_strategies _ Ha)), require_sorted_unique_sorted by apply Ha. rewrite (proj2 (af_strategies _ Ha)).
  set (refs := strategy_refs (assumptions r)).
  assert (py_sum (sc_explored_states <$> (coverage_for r carrier ts <$> refs)) = py_len carrier) as ->.
  { rewrite <-list_fmap_compose. by apply strategy_sum. }
  assert (py_sum (sc_explored_transitions <$> (coverage_for r carrier ts <$> refs)) = py_len ts) as ->.
  { rewrite <-list_fmap_compose. etrans.
    - apply (py_sum_buckets (fun s => s) (strategy_of_source r <$> ts)); [apply Ha|].
      intros x (t & -> & Ht)%list_elem_of_fmap. by apply strategy_of_source_ref.
    - unfold py_len. by rewrite length_fmap. }
  assert (py_sum (sc_evaluation_points <$> (coverage_for r carrier ts <$> refs)) = py_len evaluation) as ->.
  { rewrite <-list_fmap_compose, <-(strategy_sum evaluation) by by intros s [? _]%elem_of_bool_filter.
    f_equal. apply list_fmap_ext. intros i x _. unfold evaluation. rewrite bool_filter_comm. done. }
  assert (py_sum (sc_secret_points <$> (coverage_for r carrier ts <$> refs)) = count_if ms_secret_holds evaluation) as ->.
  { unfold count_if. rewrite <-list_fmap_compose, <-(strategy_sum (List.filter ms_secret_holds evaluation))
      by by intros s [[? _]%elem_of_bool_filter _]%elem_of_bool_filter.
    f_equal. apply list_fmap_ext. intros i x _. unfold evaluation. rewrite (bool_filter_comm _ ms_secret_holds).
    rewrite (bool_filter_comm _ evaluation_point). done. }
  by rewrite !Z.eqb_refl.
Qed.

Lemma coverage_run : validate_counts (declared_counts r) = Ok (declared_counts r) -> coverage_of r carrier ts = Ok (full_coverage r carrier ts).
Proof.
  intros Hcounts. unfold coverage_of. destruct transition_sources_run as (m & -> & Hm). cbn [mbind result_bind].
  rewrite (mmap_Ok_Forall (coverage_for r carrier ts)) by (intros x Hx; by apply strategy_coverage_run). cbn [mbind result_bind].
  fold (full_coverage r carrier ts). unfold validate_coverage. rewrite check_coverage_run.
  rewrite (proj2 (require_fields_Ok _ tt)); [done|].
  unfold validate_counts in Hcounts. apply bind_Ok in Hcounts as ([] & Hf & _). apply require_fields_Ok in Hf.
  rewrite !Forall_cons in Hf. cbn [snd] in Hf. destruct Hf as (_ & _ & _ & _ & _ & _ & _ & Hp & Ho & _).
  apply in_range_py in Hp, Ho. rewrite (rf_counts _ Hr) in Hp, Ho. cbn [realized_counts count_scheduler_environment_pairs count_order_variants] in Hp, Ho.
  rewrite <-(distinct_ext _ _ carrier_pairs) in Hp. rewrite <-(distinct_ext _ _ carrier_orders) in Ho.
  pose proof (co_states_size _ _ _ Hc). pose proof (rf_states_size _ Hr). pose proof (co_transitions_size _ _ _ Hc).
  pose proof (rf_transitions_size _ Hr). pose proof (py_len_nonneg carrier). pose proof (py_len_nonneg ts).
  pose proof (count_if_le ms_secret_holds (List.filter evaluation_point carrier)). pose proof (py_len_filter_le evaluation_point carrier).
  repeat constructor; cbn [snd full_coverage explored_states explored_transitions reachable_evaluation_points
    reachable_secret_points strategy_coverage explored_scheduler_environment_pairs explored_order_variants]; try (apply in_range_true; lia).
  apply Nat.leb_le. rewrite length_fmap. pose proof (proj1 (af_sizes _ Ha)). lia.
Qed.

(** The declared sizes of the domains are those of the assumptions. *)
Lemma declared_domains :
  count_strategies (declared_counts r) = py_len (strategy_refs (assumptions r)) /\
  count_scheduler_environment_pairs (declared_counts r)
    = (py_len (scheduler_refs (assumptions r)) * py_len (environment_refs (assumptions r)))%Z /\
  count_order_variants (declared_counts r) = py_len (order_refs (assumptions r)).
Proof.
  rewrite (rf_counts _ Hr). cbn [realized_counts count_strategies count_scheduler_environment_pairs count_order_variants]. split_and!.
  - rewrite (distinct_ext _ _ (rf_strategies _ Hr)). apply distinct_NoDup, Ha.
  - rewrite (distinct_ext _ _ (rf_pairs _ Hr)), distinct_NoDup by (apply NoDup_product; apply Ha).
    unfold py_len. by rewrite length_product, Nat2Z.inj_mul.
  - rewrite (distinct_ext _ _ (rf_orders _ Hr)). apply distinct_NoDup, Ha.
Qed.

(** The joins of a coverage with the assumptions. *)
Lemma coverage_join_run (e : ParticipantOpacityModelCheckEvidence) :
  ev_assumptions e = assumptions r -> ev_coverage e = full_coverage r carrier ts -> check_coverage_join e = Ok tt.
Proof.
  intros Hea Hec. unfold check_coverage_join. rewrite Hea, Hec. cbn [full_coverage declared complete_fixed_point strategy_coverage
    explored_scheduler_environment_pairs explored_order_variants].
  pose proof declared_domains as (Hs & Hp & Ho).
  assert (distinct (scheduler_environment <$> carrier) = count_scheduler_environment_pairs (declared_counts r)) as ->
    by (rewrite (distinct_ext _ _ carrier_pairs), (rf_counts _ Hr); done).
  assert (distinct (ms_order_ref <$> carrier) = count_order_variants (declared_counts r)) as ->
    by (rewrite (distinct_ext _ _ carrier_orders), (rf_counts _ Hr); done).
  rewrite Hs, Hp, Ho, !Z.eqb_refl, coverage_strategies, bool_decide_ne. done.
Qed.
End carrier.

Lemma empty_coverage_run (r : Request) :
  request_facts r -> empty_coverage r = Ok (Coverage (declared_counts r) 0 0 0 0 [] 0 0 false).
Proof.
  intros Hr. unfold empty_coverage, validate_coverage. rewrite (proj2 (require_fields_Ok _ tt)) by by repeat constructor.
  cbn [mbind result_bind]. unfold check_coverage. cbn [declared explored_states explored_transitions reachable_evaluation_points
    reachable_secret_points strategy_coverage fmap list_fmap].
  rewrite (rf_counts _ Hr). cbn [realized_counts count_states count_transitions]. pose proof (rf_states_size _ Hr).
  pose proof (rf_transitions_size _ Hr). rewrite !(proj2 (Z.ltb_ge _ _)) by lia.
  change (@nil string) with (py_sorted []). rewrite require_sorted_unique_sorted by constructor. done.
Qed.

Lemma empty_coverage_join (r : Request) (e : ParticipantOpacityModelCheckEvidence) :
  request_facts r -> assumption_facts (assumptions r) -> ev_assumptions e = assumptions r ->
  ev_coverage e = Coverage (declared_counts r) 0 0 0 0 [] 0 0 false -> check_coverage_join e = Ok tt.
Proof.
  intros Hr Ha Hea Hec. unfold check_coverage_join. rewrite Hea, Hec. cbn [declared complete_fixed_point].
  pose proof (declared_domains r Hr Ha) as (-> & -> & ->). by rewrite !Z.eqb_refl.
Qed.
