(* ===== verification/OpacityVerdict.v ===== *)
(** The outcome of the opacity model checker over any explored carrier: the
    evidence is valid, and its outcome is the kernel's. *)
From S2P Require Import Prelude.
From S2P Require Import Contracts.
From S2P Require Import Diagnostics.
From S2P Require Import Sha256.
From S2P Require Import TimeModel.
From S2P Require Import ExploitModel.
From S2P Require Import ExploitFacts.
From S2P Require Import BehavioralModel.
From S2P Require Import OpacityModel.
From S2P Require Import OpacityCheck.
From S2P Require Import OpacityFacts.
From S2P Require Import OpacityEvidence.
From Stdlib Require Import Ascii.
Local Open Scope string_scope.
Local Open Scope list_scope.

#[local] Opaque require_fields require_sorted_unique raise_if.

(** ** References of counterexamples *)

Lemma digit_of_char d : (0 <= d < 10)%Z -> digit_char (digit_of d) = true.
Proof.
  intros H. assert (d = 0 \/ d = 1 \/ d = 2 \/ d = 3 \/ d = 4 \/ d = 5 \/ d = 6 \/ d = 7 \/ d = 8 \/ d = 9)%Z as Hd by lia.
  by repeat destruct Hd as [->|Hd]; [..|subst d].
Qed.

Lemma digits_shape width n : length (digits width n) = width /\ forallb digit_char (digits width n) = true.
Proof.
  revert n. induction width as [|width IH]; intros n; [done|]. cbn [digits]. destruct (IH (n / 10)%Z) as [H1 H2].
  rewrite length_app, forallb_app, H1, H2. cbn [length forallb]. rewrite digit_of_char by (apply Z.mod_pos_bound; lia). split; [lia|done].
Qed.

Lemma counterexample_ref_ok prefix n : (n < 1000000)%Z -> counterexample_ref prefix (prefix +:+ six_digits n) = true.
Proof.
  intros Hn. unfold counterexample_ref, six_digits. rewrite (proj2 (Z.ltb_lt n 1000000)) by done.
  rewrite chars_app, String.list_ascii_of_string_of_list_ascii, take_app_length, drop_app_length.
  destruct (digits_shape 6 n) as [-> ->]. by rewrite bool_decide_eq_true_2.
Qed.

Lemma opacity_digest_ok {A} `{Canonical A} (a : A) : prefixed_digest (canonical_json_digest a) = true.
Proof. apply prefixed_sha256. Qed.
#[local] Opaque canonical_json_digest.

(** ** What admission establishes *)

Record claim_facts (r : Request) : Prop := {
  cl_taxonomy : claim_taxonomy_id (claim r) = BEHAVIORAL_TAXONOMY_ID;
  cl_relation : claim_relation_id (claim r) = OPACITY_RELATION_ID;
  cl_profile : relation_parameter_profile_ref (claim r) = Some (input_profile_id r);
  cl_revision : relation_parameter_profile_revision (claim r) = Some (input_profile_revision r);
}.

Section verdict.
Context {O : Type}.
Context `{!Canonical ParticipantOpacityModelAssumptions, !Canonical ParticipantOpacityModelCheckConfiguration}.
Context `{!Canonical CounterexampleDigestInput, !Canonical Request, !Canonical (list State)}.
Context `{!Canonical BehavioralRelationProfile, !Canonical (BehavioralRelationCatalog O)}.
Context (load_catalog : string -> result (BehavioralRelationCatalog O)).
Context (load_profile : string -> string -> result BehavioralRelationProfile) (version : string).

Lemma binding_facts binding catalog profile b :
  validate_behavioral_claim_binding load_catalog load_profile binding (Some catalog) (Some profile) = Ok b ->
  claim_taxonomy_id binding = BEHAVIORAL_TAXONOMY_ID /\ claim_relation_id binding = OPACITY_RELATION_ID /\
  relation_parameter_profile_ref binding = Some (profile_id profile) /\
  relation_parameter_profile_revision binding = Some (profile_revision profile).
Proof.
  unfold validate_behavioral_claim_binding. cbn [mbind result_bind]. intros H.
  apply bind_Ok in H as (relation & Hrel & H). apply bind_Ok in H as ([] & _ & H). apply bind_Ok in H as ([] & Hprofile & _).
  unfold resolve_binding_relation in Hrel. apply bind_Ok in Hrel as ([] & Ht & _). apply raise_if_Ok, bool_decide_not_false in Ht.
  destruct (relation_parameter_profile_required relation); cbn [mbind result_bind] in Hprofile; [|by apply raise_if_Ok in Hprofile].
  apply mfold_checks in Hprofile. rewrite !Forall_cons in Hprofile.
  destruct Hprofile as (H1 & H2 & _ & _ & _ & _ & H7 & _).
  apply raise_if_Ok, bool_decide_not_false in H1, H2, H7. injection H7 as ->. done.
Qed.

Lemma admission_claim r profile catalog :
  validate_admission load_catalog load_profile r profile catalog = Ok tt -> claim_facts r.
Proof.
  unfold validate_admission. intros H. apply bind_Ok in H as ([] & _ & H). apply bind_Ok in H as ([] & _ & H).
  apply bind_Ok in H as ([] & Hid & H). apply bind_Ok in H as (expected & _ & H). apply bind_Ok in H as ([] & _ & H).
  apply bind_Ok in H as ([] & Hclaim & _).
  apply raise_if_Ok in Hid. rewrite !orb_false_iff, !bool_decide_not_false in Hid. destruct Hid as [[Hid Hrev] _].
  destruct (validate_behavioral_claim_binding _ _ _ _ _) as [b|[]] eqn:Hb; try done.
  apply binding_facts in Hb as (? & ? & ? & ?). constructor; congruence.
Qed.

(** ** Valid evidence *)

Lemma evidence_valid r checker dig coverage outcome ds cex unsupported :
  request_facts r -> claim_facts r -> Revision (claim_taxonomy_revision (claim r)) = true -> prefixed_digest dig = true ->
  length ds <= MAX_OPACITY_DIAGNOSTICS ->
  let e := evidence_with r checker dig coverage outcome ds cex unsupported in
  check_coverage_join e = Ok tt -> check_outcome e = Ok tt -> validate_model_check_evidence e = Ok e.
Proof.
  intros Hr Hcl Hrev Hdig Hds e Hjoin Houtcome. unfold validate_model_check_evidence.
  rewrite (proj2 (require_fields_Ok _ tt)).
  - cbn [mbind result_bind]. assert (check_evidence_joins e = Ok tt) as ->.
    { unfold check_evidence_joins, e, evidence_with. cbn [ev_assumptions_digest ev_assumptions ev_checker_configuration_digest
        ev_checker_configuration ev_claim ev_taxonomy_id ev_taxonomy_revision ev_relation_id ev_profile_id ev_profile_revision].
      rewrite !bool_decide_ne, (cl_profile _ Hcl), (cl_revision _ Hcl), !bool_decide_ne. done. }
    cbn [mbind result_bind]. rewrite Hjoin, Houtcome. unfold e, evidence_with. cbn [ev_claim ev_assumptions].
    by rewrite (rf_claim _ Hr).
  - unfold e, evidence_with. repeat constructor; cbn [snd ev_taxonomy_id ev_taxonomy_revision ev_catalog_digest ev_relation_id
      ev_profile_id ev_profile_revision ev_profile_digest ev_model_ref ev_model_revision ev_model_digest ev_materializer_id
      ev_materializer_version ev_materializer_digest ev_assumptions_digest ev_checker_configuration_digest
      ev_derived_carrier_digest ev_diagnostics]; try done; try apply Hr; try apply opacity_digest_ok.
    + apply bool_decide_eq_true_2, Hcl.
    + apply bool_decide_eq_true_2, Hcl.
    + by apply Nat.leb_le.
Qed.

(** ** The verdict on a carrier *)

Definition evaluation_of (carrier : list State) : list State := List.filter evaluation_point carrier.
Abbreviation exposed_in := (exposed information_cell_key).

(** The outcome of the kernel over the evaluation states of [carrier], with the
    counterexample it names. *)
Definition verdict_on (r : Request) (carrier : list State) (parents : gmap Z (option Transition))
    (outcome : ModelCheckOutcome) (cex : option ParticipantOpacityModelCheckCounterexample) : Prop :=
  let l := evaluation_of carrier in
  match outcome with
  | UNSUPPORTED => False
  | VACUOUS => cex = None /\ forall a, a ∈ l -> ms_secret_holds a = false
  | HOLDS => cex = None /\ (exists a, a ∈ l /\ ms_secret_holds a = true) /\ forall a, a ∈ l -> exposed_in l a = false
  | COUNTEREXAMPLE =>
      exists a path c, a ∈ l /\ exposed_in l a = true /\
        (forall b, b ∈ l -> exposed_in l b = true -> (ms_ordinal a <= ms_ordinal b)%Z) /\
        counterexample_path (ms_ordinal a) parents = Ok path /\ cex = Some c /\
        actual_state_ordinal c = ms_ordinal a /\ actual_path_transition_ordinals c = path /\
        counterexample_strategy_ref c = ms_strategy_ref a /\ examined_cell_size c = py_len (cell_of information_cell_key l a)
  end.

(** What the parents give for each exposed state of the carrier. *)
Definition paths_of (r : Request) (carrier : list State) (parents : gmap Z (option Transition)) : Prop :=
  forall s, s ∈ evaluation_of carrier -> exposed_in (evaluation_of carrier) s = true -> exists path, counterexample_path (ms_ordinal s) parents = Ok path /\
    (py_len path <= py_len (states r))%Z /\ forall o, o ∈ path -> (o < py_len (transitions r))%Z.

Lemma check_outcome_counterexample r checker dig coverage c :
  complete_fixed_point coverage = true -> reachable_evaluation_points coverage <> 0%Z -> reachable_secret_points coverage <> 0%Z ->
  declared coverage = realized_counts r ->
  (actual_state_ordinal c < py_len (states r))%Z ->
  (forall o, o ∈ actual_path_transition_ordinals c -> (o < py_len (transitions r))%Z) ->
  counterexample_digest c = model_counterexample_digest
    (DigestInput (safe_ref c) (actual_state_ordinal c) (actual_path_transition_ordinals c) (counterexample_strategy_ref c)
      (examined_cell_size c) (canonical_json_digest r) (input_profile_digest r) dig) ->
  check_outcome (evidence_with r checker dig coverage COUNTEREXAMPLE [] (Some c) None) = Ok tt.
Proof.
  intros Hfix Heval Hsecret Hdecl Hlt Hpath Hdig. unfold check_outcome, check_payload_presence, check_decided_outcome,
    check_nonpositive_outcome, check_counterexample_join, evidence_with.
  cbn [ev_outcome ev_counterexample ev_unsupported ev_coverage ev_diagnostics is_none negb xorb ev_model_digest ev_profile_digest
    ev_derived_carrier_digest].
  rewrite Hfix, !(proj2 (Z.eqb_neq _ _)), Hdecl by done. cbn [realized_counts count_states count_transitions].
  rewrite (proj2 (Z.leb_gt _ _)) by done.
  assert (existsb (fun o => (py_len (transitions r) <=? o)%Z) (actual_path_transition_ordinals c) = false) as ->.
  { apply not_true_iff_false. intros (o & Ho & Hle)%existsb_exists. apply list_elem_of_In in Ho. apply Hpath in Ho.
    apply Z.leb_le in Hle. lia. }
  rewrite Hdig, bool_decide_ne. done.
Qed.

Section carrier.
Context (r : Request) (carrier : list State) (ts : list Transition) (parents : gmap Z (option Transition)).
Context (Hr : request_facts r) (Ha : assumption_facts (assumptions r)) (Hcl : claim_facts r).
Context (Hstates : Forall (fun s => validate_state s = Ok s) (states r)).
Context (Hcounts : validate_counts (declared_counts r) = Ok (declared_counts r)).
Context (Hrev : Revision (claim_taxonomy_revision (claim r)) = true).
Context (Hfix : reachable_fixed_point r = Ok (carrier, ts, parents)).
Context (Hc : carrier_of r carrier ts) (Hpaths : paths_of r carrier parents).

Lemma state_bounds s : s ∈ states r -> (0 <= ms_ordinal s < py_len (states r))%Z /\ SafeRef (ms_strategy_ref s) = true /\
  py_index (states r) (ms_ordinal s) = Ok s.
Proof.
  intros Hs. apply list_elem_of_lookup in Hs as [i Hi]. pose proof (lookup_lt_Some _ _ _ Hi) as Hlt.
  pose proof (f_equal (lookup i) (rf_ordinals _ Hr)) as Ho. rewrite list_lookup_fmap, Hi, range_lookup, decide_True in Ho by done.
  injection Ho as Ho. unfold py_len. split; [lia|]. split.
  - rewrite Forall_forall in Hstates. specialize (Hstates s (list_elem_of_lookup_2 _ _ _ Hi)). unfold validate_state in Hstates.
    apply bind_Ok in Hstates as ([] & Hf & _). apply require_fields_Ok in Hf. rewrite !Forall_cons in Hf. apply Hf.
  - apply py_index_lookup; [lia|]. by rewrite Ho, Nat2Z.id.
Qed.

Lemma make_counterexample_run dig a path :
  a ∈ evaluation_of carrier -> counterexample_path (ms_ordinal a) parents = Ok path ->
  (py_len path <= py_len (states r))%Z ->
  let size := py_len (cell_of information_cell_key (evaluation_of carrier) a) in
  let ref := MODEL_COUNTEREXAMPLE_PREFIX +:+ six_digits (ms_ordinal a) in
  let c := ModelCounterexample ref (model_counterexample_digest
             (DigestInput ref (ms_ordinal a) path (ms_strategy_ref a) size (canonical_json_digest r) (input_profile_digest r) dig))
             (ms_ordinal a) path (ms_strategy_ref a) size in
  make_counterexample r parents dig (ms_ordinal a) size = Ok c.
Proof.
  intros Hin Hpath Hlen size ref c. pose proof Hin as [Hcar _]%elem_of_bool_filter.
  destruct (state_bounds a) as (Hb & Hsafe & Hidx); [by apply Hc|].
  unfold make_counterexample. rewrite Hidx. cbn [mbind result_bind]. rewrite Hpath. cbn [mbind result_bind].
  fold ref. unfold validate_counterexample. rewrite (proj2 (require_fields_Ok _ tt)); [done|].
  pose proof (rf_states_size _ Hr) as Hsize. unfold MAX_OPACITY_MODEL_STATES in *.
  assert (1 <= size)%Z by (apply (py_len_pos _ a); by apply elem_of_cell).
  assert (size <= py_len (states r))%Z.
  { unfold size, cell_of. etrans; [apply py_len_filter_le|]. unfold evaluation_of. etrans; [apply py_len_filter_le|]. apply Hc. }
  repeat constructor; cbn [snd safe_ref counterexample_digest actual_state_ordinal actual_path_transition_ordinals
    counterexample_strategy_ref examined_cell_size]; try done.
  - apply counterexample_ref_ok. lia.
  - apply opacity_digest_ok.
  - apply in_range_true. lia.
  - apply Z.leb_le. lia.
  - apply in_range_true. lia.
Qed.

Lemma vacuous_diagnostic_ok :
  diagnostic VACUOUS_CODE "/states" "The reachable evaluation-point carrier contains no protected secret point." =
    Ok (DiagModel VACUOUS_CODE "participant-opacity-model-check" "/states"
      "The reachable evaluation-point carrier contains no protected secret point." ERROR) /\
  validate_unsupported_model_check (UnsupportedReasons [VACUOUS_CODE]) = Ok (UnsupportedReasons [VACUOUS_CODE]).
Proof. by split; vm_compute. Qed.

Lemma reachable_evidence_run checker :
  exists e, reachable_evidence r checker = Ok e /\ ev_coverage e = full_coverage r carrier ts /\ ev_checker_configuration e = checker /\
    verdict_on r carrier parents (ev_outcome e) (ev_counterexample e).
Proof.
  unfold reachable_evidence. rewrite Hfix. cbn [mbind result_bind].
  rewrite (coverage_run r carrier ts Hr Ha Hc Hcounts). cbn [mbind result_bind]. fold (evaluation_of carrier).
  set (dig := canonical_json_digest (evaluation_of carrier)).
  assert (prefixed_digest dig = true) as Hdig by apply opacity_digest_ok.
  destruct (kernel_spec information_cell_key (evaluation_of carrier)) as (found & Hk & Hfound). rewrite Hk. cbn [mbind result_bind].
  cbn [checked_secret_points counterexample_actual_ordinal counterexample_cell_size].
  assert (forall outcome ds cex unsupported, length ds <= MAX_OPACITY_DIAGNOSTICS ->
    let e := evidence_with r checker dig (full_coverage r carrier ts) outcome ds cex unsupported in
    check_outcome e = Ok tt -> validate_model_check_evidence e = Ok e) as Hvalid.
  { intros outcome ds cex unsupported Hds e He. apply evidence_valid; try done. by apply (coverage_join_run r carrier ts Hr Ha Hc). }
  assert (count_if secret_holds (evaluation_of carrier) = 0%Z <-> forall a, a ∈ evaluation_of carrier -> ms_secret_holds a = false) as Hzero.
  { unfold count_if. rewrite py_len_zero. split.
    - intros Hnil a Hin. apply not_true_iff_false. intros Hs. apply (not_elem_of_nil a). rewrite <-Hnil. by apply elem_of_bool_filter.
    - intros Hall. destruct (List.filter _ _) as [|a l] eqn:E; [done|]. assert (a ∈ a :: l) as Hin by left. rewrite <-E in Hin.
      apply elem_of_bool_filter in Hin as [Hin Hs]. apply Hall in Hin. change (ms_secret_holds a = true) in Hs. congruence. }
  destruct (count_if secret_holds (evaluation_of carrier) =? 0)%Z eqn:Hs.
  - apply Z.eqb_eq in Hs. destruct vacuous_diagnostic_ok as [-> Hu]. cbn [mbind result_bind dm_code]. rewrite Hu. cbn [mbind result_bind].
    rewrite Hvalid; [eexists; split; [done|]|unfold MAX_OPACITY_DIAGNOSTICS; simpl; lia|].
    + split_and!; [done..|]. split; [done|]. by apply Hzero.
    + unfold check_outcome, check_payload_presence, check_decided_outcome, check_nonpositive_outcome, evidence_with.
      cbn [ev_outcome ev_counterexample ev_unsupported ev_coverage ev_diagnostics full_coverage reachable_secret_points complete_fixed_point reason_codes].
      change (List.filter evaluation_point carrier) with (evaluation_of carrier).
      change (count_if ms_secret_holds (evaluation_of carrier)) with (count_if secret_holds (evaluation_of carrier)).
      rewrite Hs. reflexivity.
  - apply Z.eqb_neq in Hs. assert (exists a, a ∈ evaluation_of carrier /\ ms_secret_holds a = true) as Hsome.
    { unfold count_if in Hs. destruct (List.filter _ _) as [|a l] eqn:E; [done|]. exists a.
      assert (a ∈ List.filter secret_holds (evaluation_of carrier)) as Hin by (rewrite E; left).
      apply elem_of_bool_filter in Hin. exact Hin. }
    assert (py_len (evaluation_of carrier) <> 0%Z) as Hne.
    { intros Hz%py_len_zero. destruct Hsome as (a & Hin & _). rewrite Hz in Hin. by apply not_elem_of_nil in Hin. }
    destruct found as [[o n]|]; cbn [fmap option_fmap option_map fst snd].
    + destruct Hfound as (a & Hin & Hex & -> & -> & Hlow). change (ordinal a) with (ms_ordinal a).
      assert (a ∈ carrier) as Hcar by by apply elem_of_bool_filter in Hin as [? _].
      destruct (Hpaths a) as (path & Hpath & Hlen & Hords); [done..|].
      rewrite (make_counterexample_run dig a path Hin Hpath Hlen). cbn [mbind result_bind].
      rewrite Hvalid; [eexists; split; [done|]|simpl; lia|].
      * split_and!; [done..|]. do 3 eexists. split_and!; done.
      * apply check_outcome_counterexample; try done; [apply (rf_counts _ Hr)|].
        cbn [actual_state_ordinal]. by apply state_bounds, Hc.
    + rewrite Hvalid; [eexists; split; [done|]|simpl; lia|]; [by split_and!|].
      unfold check_outcome, check_payload_presence, check_decided_outcome, check_nonpositive_outcome, evidence_with.
      cbn [ev_outcome ev_counterexample ev_unsupported ev_coverage ev_diagnostics full_coverage reachable_evaluation_points
        reachable_secret_points complete_fixed_point].
      change (List.filter evaluation_point carrier) with (evaluation_of carrier).
      change (count_if ms_secret_holds (evaluation_of carrier)) with (count_if secret_holds (evaluation_of carrier)).
      rewrite (proj2 (Z.eqb_neq _ _) Hs), (proj2 (Z.eqb_neq _ _) Hne). reflexivity.
Qed.
End carrier.
End verdict.
