(* ===== verification/OpacityRun.v ===== *)
(** The runs of the model checker, and the errors it ends with. *)
From S2P Require Import Prelude.
From S2P Require Import Contracts.
From S2P Require Import Diagnostics.
From S2P Require Import Sha256.
From S2P Require Import ExploitModel.
From S2P Require Import ExploitFacts.
From S2P Require Import TimeModel.
From S2P Require Import BehavioralModel.
From S2P Require Import OpacityModel.
From S2P Require Import OpacityCheck.
From S2P Require Import OpacityFacts.
From S2P Require Import OpacityEvidence.
From S2P Require Import OpacityVerdict.
Local Open Scope string_scope.
Local Open Scope list_scope.

#[local] Opaque require_fields require_sorted_unique raise_if.

(** What the fixed point hands over. *)
Record fixed_point (r : Request) (carrier : list State) (ts : list Transition) (parents : gmap Z (option Transition)) : Prop := {
  fp_states : forall s, s ∈ carrier <-> s ∈ states r /\ reached r (ms_ordinal s);
  fp_ordered : exists p, carrier = List.filter p (states r);
  fp_NoDup : NoDup carrier;
  fp_transitions : forall t, t ∈ ts <-> t ∈ transitions r /\ reached r (source_state_ordinal t);
  fp_transitions_NoDup : NoDup ts;
  fp_paths : forall s, s ∈ carrier -> exists p, path_to r p (ms_ordinal s) /\ length p < length carrier /\
    counterexample_path (ms_ordinal s) parents = Ok (mt_ordinal <$> p) /\
    forall p', path_to r p' (ms_ordinal s) -> length p <= length p';
}.

Section fixed_point.
Context (r : Request) (Hr : request_facts r) (Hinitial : forall i, i ∈ initial_state_ordinals r -> (0 <= i)%Z).

Lemma reached_bounds v : reached r v -> (0 <= v < py_len (states r))%Z.
Proof.
  intros [p Hp]. inversion Hp; subst.
  - split; [by apply Hinitial|by apply (rf_initial_lt _ Hr)].
  - by apply (rf_endpoints _ Hr).
Qed.

Lemma state_at s : s ∈ states r -> (0 <= ms_ordinal s < py_len (states r))%Z /\ py_index (states r) (ms_ordinal s) = Ok s.
Proof.
  intros [i Hi]%list_elem_of_lookup. pose proof (lookup_lt_Some _ _ _ Hi) as Hlt.
  pose proof (f_equal (lookup i) (rf_ordinals _ Hr)) as Ho. rewrite list_lookup_fmap, Hi, range_lookup, decide_True in Ho by done.
  injection Ho as Ho. unfold py_len. split; [lia|]. apply py_index_lookup; [lia|]. by rewrite Ho, Nat2Z.id.
Qed.

Lemma ordinal_of_index v s : (0 <= v)%Z -> py_index (states r) v = Ok s -> ms_ordinal s = v.
Proof.
  intros Hv Hs. unfold py_index in Hs. rewrite !(proj2 (Z.ltb_ge v 0)) in Hs by lia.
  destruct (states r !! Z.to_nat v) as [s'|] eqn:Hl; [|done]. injection Hs as ->.
  pose proof (f_equal (lookup (Z.to_nat v)) (rf_ordinals _ Hr)) as Ho. rewrite list_lookup_fmap, Hl, range_lookup, decide_True in Ho
    by by eapply lookup_lt_Some. injection Ho as Ho. lia.
Qed.

Lemma state_of_ordinal v : (0 <= v < py_len (states r))%Z -> exists s, s ∈ states r /\ ms_ordinal s = v.
Proof.
  intros Hv. assert (v ∈ ms_ordinal <$> states r) as (s & -> & Hs)%list_elem_of_fmap by by rewrite (rf_ordinals _ Hr); apply elem_of_range.
  by exists s.
Qed.

Lemma states_NoDup : NoDup (states r).
Proof. apply (NoDup_fmap_1 ms_ordinal). rewrite (rf_ordinals _ Hr). apply NoDup_range. Qed.

Lemma transitions_NoDup : NoDup (transitions r).
Proof. apply (NoDup_fmap_1 mt_ordinal). rewrite (rf_transition_ordinals _ Hr). apply NoDup_range. Qed.

Lemma bool_filter_NoDup {A} (p : A -> bool) l : NoDup l -> NoDup (List.filter p l).
Proof. rewrite !NoDup_ListNoDup. apply List.NoDup_filter. Qed.

Lemma bool_filter_sorted {A} (R : A -> A -> Prop) (p : A -> bool) l : StronglySorted R l -> StronglySorted R (List.filter p l).
Proof.
  induction 1 as [|a l Hl IH Ha]; cbn [List.filter]; [constructor|]. destruct (p a); [|done]. constructor; [done|].
  rewrite Forall_forall in Ha |- *. intros b [Hb _]%elem_of_bool_filter. auto.
Qed.

Lemma range_sorted n : StronglySorted Z.le (range n).
Proof.
  unfold range. generalize 0 as m. induction n as [|n IH]; intros m; cbn [seq]; [constructor|]. rewrite fmap_cons. constructor; [apply IH|].
  apply Forall_forall. intros z (i & -> & Hi%elem_of_seq)%list_elem_of_fmap. lia.
Qed.

(** Sorting the ordinals of a set of states lists those states in model order. *)
Lemma sorted_states (vs : gset Z) :
  (forall v, v ∈ vs -> (0 <= v < py_len (states r))%Z) ->
  mmap (py_index (states r)) (merge_sort Z.le (elements vs)) = Ok (List.filter (fun s => bool_decide (ms_ordinal s ∈ vs)) (states r)).
Proof.
  intros Hvs. set (kept := List.filter _ _). assert (merge_sort Z.le (elements vs) = ms_ordinal <$> kept) as ->.
  { assert (ms_ordinal <$> kept = List.filter (fun v => bool_decide (v ∈ vs)) (range (length (states r)))) as ->.
    { rewrite <-(rf_ordinals _ Hr). unfold kept. clear. induction (states r) as [|s l IH]; [done|].
      rewrite fmap_cons. cbn [List.filter]. case_bool_decide; rewrite ?fmap_cons; by rewrite IH. }
    apply (StronglySorted_unique Z.le); [apply (StronglySorted_merge_sort _)|apply bool_filter_sorted, range_sorted|].
    apply NoDup_Permutation; [rewrite merge_sort_Permutation; apply NoDup_elements|apply bool_filter_NoDup, NoDup_range|].
    intros v. rewrite elem_of_sorted_elements, elem_of_bool_filter, bool_decide_eq_true, elem_of_range. split; [|tauto].
    intros Hv. split; [|done]. by apply Hvs in Hv. }
  assert (forall s, s ∈ kept -> s ∈ states r) as Hk by by intros s [? _]%elem_of_bool_filter.
  clearbody kept. induction kept as [|s l IH]; [done|]. rewrite fmap_cons. cbn [mmap mbind result_bind].
  destruct (state_at s) as [_ ->]; [apply Hk; left|]. cbn [mbind result_bind]. rewrite IH; [done|]. intros s' ?. apply Hk. by right.
Qed.

Lemma fixed_point_run : exists carrier ts parents,
  reachable_fixed_point r = Ok (carrier, ts, parents) /\ fixed_point r carrier ts parents.
Proof.
  destruct (exploration_run r (rf_initial_NoDup _ Hr)) as (x & Hrun & finished & depth & Hx & Hq & Hex).
  assert (forall v, v ∈ visited x <-> reached r v) as Hreached by (intros v; by apply (visited_reached r x finished depth)).
  assert (forall v, v ∈ visited x -> (0 <= v < py_len (states r))%Z) as Hb by (intros v Hv; by apply reached_bounds, Hreached).
  unfold reachable_fixed_point. rewrite Hrun. cbn [mbind result_bind]. rewrite sorted_states by done.
  cbn [mbind result_bind]. set (carrier := List.filter _ _). do 3 eexists. split; [done|].
  assert (forall s, s ∈ carrier <-> s ∈ states r /\ reached r (ms_ordinal s)) as Hstates.
  { intros s. unfold carrier. by rewrite elem_of_bool_filter, bool_decide_eq_true, Hreached. }
  assert (NoDup carrier) as Hnd by apply bool_filter_NoDup, states_NoDup.
  assert (length finished = length carrier) as Hlen.
  { rewrite <-(length_fmap ms_ordinal carrier). apply Permutation_length, NoDup_Permutation.
    - by apply (finished_NoDup r x finished depth).
    - unfold carrier. assert (NoDup (ms_ordinal <$> states r)) as Hm by (rewrite (rf_ordinals _ Hr); apply NoDup_range).
      revert Hm. clear. induction (states r) as [|s l IH]; [done|]. rewrite fmap_cons. intros [Hs Hl]%NoDup_cons.
      cbn [List.filter]. case_bool_decide; [|by apply IH]. rewrite fmap_cons. apply NoDup_cons. split; [|by apply IH].
      intros (s' & Heq & [Hin _]%elem_of_bool_filter)%list_elem_of_fmap. apply Hs, list_elem_of_fmap. eauto.
    - intros v. rewrite <-(visited_finished r x finished depth Hx Hq), list_elem_of_fmap. split.
      + intros Hv. destruct (state_of_ordinal v) as (s & Hs & <-); [by apply Hb|]. exists s. split; [done|]. apply Hstates.
        by rewrite <-Hreached.
      + intros (s & -> & Hs). by apply Hreached, Hstates. }
  constructor; try done.
  - unfold carrier. eauto.
  - intros t. rewrite (explored_iff r x finished depth Hx Hq Hex), Hreached. done.
  - rewrite (explored_perm r x finished depth Hx Hq Hex). apply bool_filter_NoDup, transitions_NoDup.
  - intros s Hs. destruct (counterexample_path_run r x finished depth Hx Hq Hex (ms_ordinal s)) as (p & ? & ? & ? & ?);
      [by apply Hreached, Hstates|]. exists p. split_and!; try done. lia.
Qed.

(** The fixed point is a carrier for the evidence. *)
Lemma fixed_point_carrier carrier ts parents : fixed_point r carrier ts parents -> carrier_of r carrier ts.
Proof.
  intros H. constructor.
  - intros s Hs. by apply (fp_states _ _ _ _ H).
  - destruct (fp_ordered _ _ _ _ H) as [p ->]. apply py_len_filter_le.
  - intros t Ht. by apply (fp_transitions _ _ _ _ H).
  - unfold py_len. apply Nat2Z.inj_le, submseteq_length, NoDup_submseteq; [apply H|]. intros t Ht. by apply (fp_transitions _ _ _ _ H).
  - intros i s Hi Hs. apply (fp_states _ _ _ _ H). pose proof (py_index_Ok _ _ _ Hs) as Hin. split; [done|].
    assert (ms_ordinal s = i) as ->; [|exists []; by constructor].
    apply ordinal_of_index; [by apply Hinitial|done].
Qed.

Lemma fixed_point_paths carrier ts parents : fixed_point r carrier ts parents -> paths_of r carrier parents.
Proof.
  intros H s [Hs _]%elem_of_bool_filter _. destruct (fp_paths _ _ _ _ H s Hs) as (p & Hp & Hlen & Hpath & _). eexists. split; [done|].
  pose proof (co_states_size _ _ _ (fixed_point_carrier _ _ _ H)) as Hsize. unfold py_len in *. rewrite length_fmap. split; [lia|].
  intros o (t & -> & Ht)%list_elem_of_fmap.
  assert (t ∈ transitions r) as Hin.
  { clear -Hp Ht. induction Hp as [|p t' _ IH Hin]; [by apply not_elem_of_nil in Ht|].
    apply elem_of_app in Ht as [Ht| ->%list_elem_of_singleton]; auto. }
  assert (mt_ordinal t ∈ range (length (transitions r))) as Ho.
  { rewrite <-(rf_transition_ordinals _ Hr). apply list_elem_of_fmap. eauto. }
  apply elem_of_range in Ho. lia.
Qed.
End fixed_point.

(** ** Models outside the checker's posture *)

(** What the checker does not support of a model, in the order it looks. *)
Definition refusal_conditions (r : Request) : list (string * bool) :=
  let a := assumptions r in
  [(INCOMPLETE_CODE, negb (complete_model r));
   (BOUND_CODE, (checker_max_states <? py_len (states r))%Z || (checker_max_transitions <? py_len (transitions r))%Z);
   (SCHEDULER_CODE, negb (Nat.eqb (length (scheduler_refs a)) 1) || negb (Nat.eqb (length (environment_refs a)) 1));
   (ORDER_CODE, bool_decide (order_treatment a <> total_order))].

Definition refusals (r : Request) : list string := fst <$> List.filter snd (refusal_conditions r).

Lemma refusals_nil r : refusals r = [] <->
  complete_model r = true /\ (py_len (states r) <= checker_max_states)%Z /\ (py_len (transitions r) <= checker_max_transitions)%Z /\
  length (scheduler_refs (assumptions r)) = 1 /\ length (environment_refs (assumptions r)) = 1 /\
  order_treatment (assumptions r) = total_order.
Proof.
  unfold refusals, refusal_conditions. rewrite <-!Z.ltb_ge, <-!Nat.eqb_eq.
  pose proof (bool_decide_not_false (order_treatment (assumptions r) = total_order)) as Ht. revert Ht.
  destruct (complete_model r), (_ <? _)%Z, (_ <? _)%Z, (Nat.eqb _ _), (Nat.eqb _ _), (bool_decide _); cbn; split; try done; naive_solver.
Qed.

Lemma refusal_diagnostics :
  diagnostic INCOMPLETE_CODE "/complete_model" "The transition artifact is not declared to be the complete finite model." =
    Ok (DiagModel INCOMPLETE_CODE "participant-opacity-model-check" "/complete_model"
      "The transition artifact is not declared to be the complete finite model." ERROR) /\
  diagnostic BOUND_CODE "/declared_counts" "The complete finite model exceeds the deterministic checker resource profile." =
    Ok (DiagModel BOUND_CODE "participant-opacity-model-check" "/declared_counts"
      "The complete finite model exceeds the deterministic checker resource profile." ERROR) /\
  diagnostic SCHEDULER_CODE "/assumptions"
      "The v1 checker supports only the profile's unambiguous singleton scheduler/environment posture." =
    Ok (DiagModel SCHEDULER_CODE "participant-opacity-model-check" "/assumptions"
      "The v1 checker supports only the profile's unambiguous singleton scheduler/environment posture." ERROR) /\
  diagnostic ORDER_CODE "/assumptions/order_treatment" "The v1 checker supports exact total-order models only." =
    Ok (DiagModel ORDER_CODE "participant-opacity-model-check" "/assumptions/order_treatment"
      "The v1 checker supports exact total-order models only." ERROR).
Proof. split_and!; vm_compute; reflexivity. Qed.

Lemma refusal_codes_NoDup : NoDup [INCOMPLETE_CODE; BOUND_CODE; SCHEDULER_CODE; ORDER_CODE].
Proof. apply (bool_decide_eq_true_1 _). vm_compute. reflexivity. Qed.

Lemma refusals_NoDup r : NoDup (refusals r).
Proof.
  unfold refusals. assert (NoDup (fst <$> refusal_conditions r)) as H by exact refusal_codes_NoDup. revert H.
  generalize (refusal_conditions r). intros l. induction l as [|c l IH]; [done|]. rewrite fmap_cons. intros [Hc Hl]%NoDup_cons.
  cbn [List.filter]. destruct (snd c); [|by apply IH]. rewrite fmap_cons. apply NoDup_cons. split; [|by apply IH].
  intros (c' & Heq & [Hin _]%elem_of_bool_filter)%list_elem_of_fmap. apply Hc, list_elem_of_fmap. eauto.
Qed.

Lemma refusals_length r : length (refusals r) <= 4.
Proof. unfold refusals. rewrite length_fmap. apply (List.filter_length_le snd (refusal_conditions r)). Qed.

(** The checker reports exactly these, one diagnostic each. *)
Lemma unsupported_diagnostics_run r :
  declared_counts r = realized_counts r ->
  exists ds, unsupported_diagnostics r = Ok ds /\ dm_code <$> ds ≡ₚ refusals r.
Proof.
  intros Hc. unfold unsupported_diagnostics, refusals, refusal_conditions. rewrite Hc. cbn [realized_counts count_states count_transitions].
  destruct refusal_diagnostics as (-> & -> & -> & ->).
  destruct (negb (complete_model r)), (_ || _), (_ || _), (bool_decide (order_treatment _ <> _)); cbn [mbind result_bind app];
    (eexists; split; [done|]; rewrite sorted_by_perm; done).
Qed.

Section unsupported.
Context `{!Canonical ParticipantOpacityModelAssumptions, !Canonical ParticipantOpacityModelCheckConfiguration}.
Context `{!Canonical CounterexampleDigestInput, !Canonical Request, !Canonical (list State)}.

Lemma unsupported_evidence_run r checker ds :
  request_facts r -> assumption_facts (assumptions r) -> claim_facts r -> Revision (claim_taxonomy_revision (claim r)) = true ->
  dm_code <$> ds ≡ₚ refusals r -> refusals r <> [] ->
  exists e, unsupported_evidence r checker ds = Ok e /\ ev_outcome e = UNSUPPORTED /\ ev_diagnostics e = ds /\
    ev_counterexample e = None /\ complete_fixed_point (ev_coverage e) = false.
Proof.
  intros Hr Ha Hcl Hrev Hds Hne. unfold unsupported_evidence. rewrite empty_coverage_run by done. cbn [mbind result_bind].
  assert (NoDup (dm_code <$> ds)) as Hnd by (rewrite Hds; apply refusals_NoDup).
  assert (length (dm_code <$> ds) <= 4) as Hlen by (rewrite Hds; apply refusals_length).
  assert (1 <= length (dm_code <$> ds)) as Hpos.
  { rewrite Hds. destruct (refusals r); [done|]. simpl. lia. }
  set (u := UnsupportedReasons (py_sorted (py_dedupe (dm_code <$> ds)))).
  assert (validate_unsupported_model_check u = Ok u) as ->.
  { unfold validate_unsupported_model_check, u. cbn [reason_codes]. rewrite py_dedupe_nodup by done.
    rewrite (proj2 (require_fields_Ok _ tt)); [by rewrite require_sorted_unique_sorted|]. repeat constructor. cbn [snd].
    rewrite py_sorted_perm, andb_true_iff, !Nat.leb_le. lia. }
  cbn [mbind result_bind]. rewrite evidence_valid; try done.
  - eexists. split; [done|]. done.
  - apply opacity_digest_ok.
  - rewrite length_fmap in Hlen. unfold MAX_OPACITY_DIAGNOSTICS. lia.
  - apply (empty_coverage_join r); done.
  - unfold check_outcome, check_payload_presence, check_decided_outcome, check_nonpositive_outcome, evidence_with.
    cbn [ev_outcome ev_counterexample ev_unsupported ev_coverage ev_diagnostics reason_codes u]. rewrite bool_decide_ne. done.
Qed.
End unsupported.

(** ** Computations whose exceptions are known *)

#[local] Transparent require_fields require_sorted_unique raise_if.

Definition raises {A} (E : exn -> Prop) (m : result A) : Prop := match m with Ok _ => True | Raise e => E e end.

Lemma raises_bind {A B} E (m : result A) (f : A -> result B) :
  raises E m -> (forall a, m = Ok a -> raises E (f a)) -> raises E (m ≫= f).
Proof. destruct m; cbn; auto. Qed.

Lemma raises_if E c e : E e -> raises E (raise_if c e).
Proof. by destruct c. Qed.

Lemma raises_mfold {A S} E (f : S -> A -> result S) s l : (forall s a, raises E (f s a)) -> raises E (mfold f s l).
Proof.
  intros Hf. revert s. induction l as [|a l IH]; intros s; cbn [mfold]; [done|]. apply raises_bind; [apply Hf|]. intros s' _. apply IH.
Qed.

Lemma raises_Ok {A} E (m : result A) : (exists a, m = Ok a) -> raises E m.
Proof. by intros [a ->]. Qed.

(** A valid parameter profile, with the parts that the checkers read. *)
Record valid_profile (p : BehavioralRelationProfile) : Prop := {
  vp_profile : validate_profile p = Ok p;
  vp_parameters : validate_parameters (parameters p) = Ok (parameters p);
  vp_strategy : validate_strategy (strategy (parameters p)) = Ok (strategy (parameters p));
  vp_order : validate_order (order (parameters p)) = Ok (order (parameters p));
  vp_horizon : validate_horizon (horizon (parameters p)) = Ok (horizon (parameters p));
}.

Definition is_value_error (e : exn) : Prop := exists message, e = ValueError message.

(** The typed error of the checker; the one of a profile without bounds apart. *)
Definition typed_error (p : BehavioralRelationProfile) (e : exn) : Prop :=
  (exists message, e = ParticipantOpacityOperationalError message) \/
  bounds (parameters p) = None /\ exists message, e = AttributeError message.

#[local] Opaque require_fields raise_if.

Lemma sorted_unique_of l label1 label2 : require_canonical_order l label1 = Ok tt -> require_sorted_unique l label2 = Ok tt.
Proof. unfold require_canonical_order, require_sorted_unique. rewrite !raise_if_Ok. done. Qed.

Section errors.
Context {O : Type}.
Context `{!Canonical ParticipantOpacityModelAssumptions, !Canonical ParticipantOpacityModelCheckConfiguration}.
Context `{!Canonical CounterexampleDigestInput, !Canonical Request, !Canonical (list State)}.
Context `{!Canonical BehavioralRelationProfile, !Canonical (BehavioralRelationCatalog O)}.
Context (load_catalog : string -> result (BehavioralRelationCatalog O)).
Context (load_profile : string -> string -> result BehavioralRelationProfile) (version : string).

Lemma typed_operational p c message : raises (typed_error p) (operational_if c message).
Proof. apply raises_if. left. eauto. Qed.

Lemma binding_errors c catalog profile :
  raises is_value_error (validate_behavioral_claim_binding load_catalog load_profile c (Some catalog) (Some profile)).
Proof.
  assert (forall b m, raises is_value_error (raise_if b (ValueError m))) as Hif by (intros; apply raises_if; by eexists).
  unfold validate_behavioral_claim_binding. cbn [mbind result_bind].
  apply raises_bind.
  { unfold resolve_binding_relation. apply raises_bind; [done|]. intros _ _. apply raises_bind; [done|]. intros _ _.
    destruct (relations catalog !! _); [done|]. by eexists. }
  intros relation _. apply raises_bind.
  { unfold validate_binding_requirements. apply raises_mfold. intros _ [[required absent] description]. apply Hif. }
  intros _ _. apply raises_bind; [|done]. destruct (relation_parameter_profile_required relation); [|apply Hif].
  cbn [mbind result_bind]. unfold validate_binding_profile. apply raises_mfold. intros _ [[a b] label]. apply Hif.
Qed.

Lemma expected_assumptions_errors r profile :
  valid_request r -> valid_profile profile -> raises (typed_error profile) (expected_assumptions r profile).
Proof.
  intros Hr Hp. unfold expected_assumptions. set (p := parameters profile) in *.
  assert (bounded_tuple 1 64 SafeRef (profile_scheduler_refs p) = true /\ bounded_tuple 1 64 SafeRef (profile_environment_refs p) = true /\
    require_canonical_order (profile_scheduler_refs p) "scheduler refs" = Ok tt /\
    require_canonical_order (profile_environment_refs p) "environment refs" = Ok tt) as (Hs1 & He1 & Hs2 & He2).
  { pose proof (vp_parameters _ Hp) as H. fold p in H. unfold validate_parameters in H. apply bind_Ok in H as ([] & Hf & H).
    apply require_fields_Ok in Hf. rewrite !Forall_cons in Hf. destruct Hf as (? & ? & _). apply bind_Ok in H as ([] & H & _).
    unfold validate_domains in H. apply bind_Ok in H as ([] & ? & H). by apply bind_Ok in H as ([] & ? & H). }
  assert (bounded_tuple 1 64 SafeRef (profile_order_refs (order p)) = true /\
    require_canonical_order (profile_order_refs (order p)) "order refs" = Ok tt) as (Ho1 & Ho2).
  { pose proof (vp_order _ Hp) as H. fold p in H. unfold validate_order in H. apply bind_Ok in H as ([] & Hf & H).
    apply require_fields_Ok in Hf. rewrite !Forall_cons in Hf. destruct Hf as (? & _). by apply bind_Ok in H as ([] & ? & _). }
  assert (SafeRef (horizon_cut_ref (horizon p)) = true) as Hc.
  { pose proof (vp_horizon _ Hp) as H. fold p in H. unfold validate_horizon in H. apply bind_Ok in H as ([] & Hf & _).
    apply require_fields_Ok in Hf. rewrite !Forall_cons in Hf. by destruct Hf as (? & _). }
  assert (forall kind refs, bounded_tuple 1 64 SafeRef refs = true -> require_sorted_unique refs "strategy refs" = Ok tt ->
    raises (typed_error profile) (validate_assumptions (Assumptions kind refs (profile_scheduler_refs p) (profile_environment_refs p)
      (treatment (order p)) (profile_order_refs (order p)) (horizon_cut_ref (horizon p))))) as Hok.
  { intros kind refs H1 H2. apply raises_Ok. unfold validate_assumptions. cbn [strategy_refs scheduler_refs environment_refs order_refs assumed_cut_ref].
    rewrite (proj2 (require_fields_Ok _ tt)) by by repeat constructor. cbn [mbind result_bind]. rewrite H2.
    rewrite (sorted_unique_of _ _ "scheduler refs" Hs2), (sorted_unique_of _ _ "environment refs" He2), (sorted_unique_of _ _ "order refs" Ho2).
    by eexists. }
  pose proof (vp_strategy _ Hp) as Hstr. fold p in Hstr. destruct (strategy p) as [|refs].
  - apply raises_bind; [apply raises_bind; [apply typed_operational|done]|]. intros kr Hkr.
    apply bind_Ok in Hkr as ([] & _ & [= <-]). cbn [fst snd].
    pose proof (vr_assumptions _ Hr) as H. unfold validate_assumptions in H. apply bind_Ok in H as ([] & Hf & H).
    apply require_fields_Ok in Hf. rewrite !Forall_cons in Hf. destruct Hf as (? & _). apply bind_Ok in H as ([] & ? & _).
    by apply Hok.
  - cbn [mbind result_bind fst snd]. unfold validate_strategy in Hstr. apply bind_Ok in Hstr as ([] & Hf & H).
    apply require_fields_Ok in Hf. rewrite !Forall_cons in Hf. destruct Hf as (? & _). apply bind_Ok in H as ([] & ? & _).
    apply Hok; [done|]. by eapply sorted_unique_of.
Qed.

Lemma admission_errors r profile catalog :
  valid_request r -> valid_profile profile ->
  raises (typed_error profile) (validate_admission load_catalog load_profile r profile catalog).
Proof.
  intros Hr Hp. unfold validate_admission.
  apply raises_bind; [apply typed_operational|]. intros _ _. apply raises_bind; [apply typed_operational|]. intros _ _.
  apply raises_bind; [apply typed_operational|]. intros _ _. apply raises_bind; [by apply expected_assumptions_errors|]. intros expected _.
  apply raises_bind; [apply typed_operational|]. intros _ _. apply raises_bind.
  { pose proof (binding_errors (claim r) catalog profile) as H. destruct (validate_behavioral_claim_binding _ _ _ _ _); [done|].
    destruct H as [m ->]. left. eauto. }
  intros _ _. apply raises_bind.
  { unfold validate_profile_bounds. destruct (bounds _) eqn:Hb; [apply typed_operational|]. right. split; [done|]. eauto. }
  intros _ _. apply raises_bind.
  { unfold validate_state_domains. repeat (apply raises_bind; [apply typed_operational|intros _ _]). apply typed_operational. }
  intros _ _. unfold validate_initial_domain_coverage. apply raises_bind; [|intros; apply typed_operational].
  destruct (rf_initial _ (request_facts_of _ Hr)) as (l & -> & _). done.
Qed.

(** A profile without bounds is never admitted. *)
Lemma admission_needs_bounds r profile catalog :
  bounds (parameters profile) = None -> validate_admission load_catalog load_profile r profile catalog <> Ok tt.
Proof.
  intros Hb H. unfold validate_admission in H. do 6 (apply bind_Ok in H as (? & _ & H)). apply bind_Ok in H as (? & H & _).
  unfold validate_profile_bounds in H. by rewrite Hb in H.
Qed.

Lemma configuration_errors p : raises (typed_error p) (checker_configuration version).
Proof.
  unfold checker_configuration, validate_configuration. destruct (checks_require_fields [("package_version", Revision version)]) as [[_ E]|[_ [m E]]]; cbn [package_version]; rewrite E.
  - done.
  - left. eauto.
Qed.
End errors.
