(* ===== verification/OpacityAnalysisRun.v ===== *)
(** The run of the bounded opacity analysis on an admitted carrier. *)
From S2P Require Import Prelude.
From S2P Require Import Contracts.
From S2P Require Import Diagnostics.
From S2P Require Import Sha256.
From S2P Require Import TimeModel.
From S2P Require Import ExploitModel.
From S2P Require Import ExploitFacts.
From S2P Require Import BehavioralModel.
From S2P Require Import OpacityModel.
From S2P Require Import OpacityCheck.
From S2P Require Import OpacityAnalysis.
From S2P Require Import OpacityFacts.
From S2P Require Import OpacityEvidence.
From S2P Require Import OpacityVerdict.
Local Open Scope string_scope.
Local Open Scope list_scope.

#[local] Opaque require_fields require_sorted_unique raise_if canonical_json_digest.

(** An input whose parts have been validated. *)
Record valid_analysis_input (r : ParticipantOpacityAnalysisInput) : Prop := {
  va_input : validate_analysis_input r = Ok r;
  va_points : Forall (fun p => validate_point p = Ok p) (points r);
}.

Record analysis_facts (r : ParticipantOpacityAnalysisInput) : Prop := {
  an_ordinals : NoDup (pp_ordinal <$> points r);
  an_size : (1 <= py_len (points r) <= MAX_OPACITY_POINTS)%Z;
  an_bounds : forall p, p ∈ points r -> (0 <= pp_ordinal p < MAX_OPACITY_POINTS)%Z;
  an_profile_safe : SafeRef (an_profile_id r) = true /\ Revision (an_profile_revision r) = true;
  an_digest : prefixed_digest (an_profile_digest r) = true;
  an_model : SafeRef (normalized_model_ref r) = true;
}.

Lemma analysis_facts_of r : valid_analysis_input r -> analysis_facts r.
Proof.
  intros [H Hp]. unfold validate_analysis_input in H. apply bind_Ok in H as ([] & Hf & H).
  apply require_fields_Ok in Hf. rewrite !Forall_cons in Hf. cbn [snd] in Hf. destruct Hf as (_ & ? & ? & ? & ? & _ & _ & _ & Hs & _).
  apply in_range_true in Hs. apply bind_Ok in H as ([] & H & _). unfold validate_finite_carrier in H.
  apply bind_Ok in H as ([] & Ho & _). apply raise_if_Ok, orb_false_iff in Ho as [Ho _].
  apply negb_false_iff, bool_decide_eq_true in Ho. constructor; try done.
  intros p Hin. rewrite Forall_forall in Hp. specialize (Hp p Hin). unfold validate_point in Hp.
  apply bind_Ok in Hp as ([] & Hf & _). apply require_fields_Ok in Hf. rewrite !Forall_cons in Hf. cbn [snd] in Hf.
  destruct Hf as (Hf & _). apply in_range_true in Hf. lia.
Qed.

(** Canonicalization touches the order of the points only. *)
Lemma canonicalized_fields r :
  canonicalized r = with_points (sorted_by_ordinal (points r)) r.
Proof. unfold canonicalized. case_decide as H; [rewrite H; by destruct r|done]. Qed.

(** The sorted points do not depend on the order of the input. *)
Lemma sorted_by_ordinal_unique (l1 l2 : list OpacityPossiblePoint) :
  NoDup (pp_ordinal <$> l1) -> l1 ≡ₚ l2 -> sorted_by_ordinal l1 = sorted_by_ordinal l2.
Proof.
  intros Hnd Hl.
  assert (pp_ordinal <$> sorted_by_ordinal l1 = pp_ordinal <$> sorted_by_ordinal l2) as Ho.
  { apply (StronglySorted_unique Z.le).
    - pose proof (sorted_by_ordinal_sorted l1) as Hs. revert Hs. generalize (sorted_by_ordinal l1). clear.
      induction 1 as [|p l Hl IH Hp]; [constructor|]. rewrite fmap_cons. constructor; [done|]. by rewrite Forall_fmap.
    - pose proof (sorted_by_ordinal_sorted l2) as Hs. revert Hs. generalize (sorted_by_ordinal l2). clear.
      induction 1 as [|p l Hl IH Hp]; [constructor|]. rewrite fmap_cons. constructor; [done|]. by rewrite Forall_fmap.
    - by rewrite !sorted_by_ordinal_perm, Hl. }
  assert (forall p q, p ∈ l1 -> q ∈ l1 -> pp_ordinal p = pp_ordinal q -> p = q) as Hinj.
  { intros p q Hp Hq Heq. apply list_elem_of_lookup in Hp as [i Hi], Hq as [j Hj].
    assert (i = j) as ->.
    { apply (NoDup_lookup (pp_ordinal <$> l1) _ _ (pp_ordinal p)); [done| |]; rewrite list_lookup_fmap, ?Hi, ?Hj; [done|]. by rewrite Heq. }
    congruence. }
  assert (forall p, p ∈ sorted_by_ordinal l1 -> p ∈ l1) as H1 by (intros p; by rewrite sorted_by_ordinal_perm).
  assert (forall p, p ∈ sorted_by_ordinal l2 -> p ∈ l1) as H2 by (intros p; by rewrite sorted_by_ordinal_perm, <-Hl).
  revert Ho H1 H2. generalize (sorted_by_ordinal l1) (sorted_by_ordinal l2). intros k1. induction k1 as [|p k1 IH]; intros [|q k2]; try done.
  rewrite !fmap_cons. intros [= Hpq Hk] H1 H2. f_equal.
  - apply Hinj; [apply H1; left|apply H2; left|done].
  - apply IH; [done| |]; intros x Hx; [apply H1|apply H2]; by right.
Qed.

Lemma canonicalized_idemp r : NoDup (pp_ordinal <$> points r) -> canonicalized (canonicalized r) = canonicalized r.
Proof.
  intros Hnd. rewrite !canonicalized_fields. unfold with_points. cbn [points an_analysis_profile an_source an_profile_id
    an_profile_revision an_profile_digest normalized_model_ref an_materializer_id an_materializer_version an_materializer_digest
    complete_enumeration an_declared_counts an_claim]. f_equal. symmetry.
  apply sorted_by_ordinal_unique; [done|]. symmetry. apply sorted_by_ordinal_perm.
Qed.

(** ** What admission establishes *)

Section run.
Context {O : Type}.
Context `{!Canonical BoundedCheckerConfiguration, !Canonical PointDigestInput, !Canonical ParticipantOpacityAnalysisInput}.
Context `{!Canonical BehavioralRelationProfile}.
Context (load_catalog : string -> result (BehavioralRelationCatalog O)).
Context (load_profile : string -> string -> result BehavioralRelationProfile).

Record analysis_claim_facts (r : ParticipantOpacityAnalysisInput) (profile : BehavioralRelationProfile) : Prop := {
  ac_taxonomy : claim_taxonomy_id (an_claim r) = BEHAVIORAL_TAXONOMY_ID;
  ac_relation : claim_relation_id (an_claim r) = OPACITY_RELATION_ID;
  ac_profile : relation_parameter_profile_ref (an_claim r) = Some (profile_id profile);
  ac_revision : relation_parameter_profile_revision (an_claim r) = Some (profile_revision profile);
  ac_id : profile_id profile = an_profile_id r;
  ac_rev : profile_revision profile = an_profile_revision r;
}.

Lemma analysis_admission_claim r profile :
  validate_profile_admission load_catalog load_profile r profile = Ok tt -> analysis_claim_facts r profile.
Proof.
  unfold validate_profile_admission. intros H. apply bind_Ok in H as ([] & _ & H). apply bind_Ok in H as ([] & Hid & H).
  apply raise_if_Ok in Hid. rewrite !orb_false_iff, !bool_decide_not_false in Hid. destruct Hid as [[Hid Hrev] _].
  destruct (validate_behavioral_claim_binding _ _ _ _ _) as [b|[]] eqn:Hb; try done.
  unfold validate_behavioral_claim_binding in Hb. apply bind_Ok in Hb as (catalog & _ & Hb).
  assert (validate_behavioral_claim_binding load_catalog load_profile (an_claim r) (Some catalog) (Some profile) = Ok b) as Hb' by exact Hb.
  apply binding_facts in Hb' as (? & ? & ? & ?). by constructor.
Qed.

Section evidence.
Context (r : ParticipantOpacityAnalysisInput) (profile : BehavioralRelationProfile).
Context (Hr : analysis_facts r) (Hcl : analysis_claim_facts r profile).
Context (Hrev : Revision (claim_taxonomy_revision (an_claim r)) = true).

(** Evidence that passes its own outcome checks is refused only for its claim. *)
Lemma analysis_evidence_valid outcome checked checked_secret ds cex unsupported :
  let e := analysis_evidence_with r profile outcome checked checked_secret ds cex unsupported in
  (0 <= checked_secret <= checked)%Z -> (checked <= MAX_OPACITY_POINTS)%Z -> length ds <= MAX_OPACITY_DIAGNOSTICS ->
  check_evidence_counts e = Ok tt -> check_outcome_payloads e = Ok tt ->
  validate_analysis_evidence e = (_ ← validate_analysis_claim_scope (an_claim r); Ok e).
Proof.
  intros e Hc Hm Hds Hcounts Hpay. unfold validate_analysis_evidence. rewrite (proj2 (require_fields_Ok _ tt)).
  - cbn [mbind result_bind]. rewrite Hcounts. cbn [mbind result_bind].
    assert (ae_checker_configuration_digest e = canonical_json_digest BoundedChecker) as -> by done. rewrite bool_decide_ne.
    cbn [mbind result_bind raise_if]. rewrite Hpay. unfold check_claim_join, e, analysis_evidence_with. rewrite canonicalized_fields.
    cbn [ae_claim ae_taxonomy_id ae_taxonomy_revision ae_relation_id ae_profile_id ae_profile_revision with_points an_claim].
    rewrite (ac_profile _ _ Hcl), (ac_revision _ _ Hcl), !bool_decide_ne. done.
  - unfold e, analysis_evidence_with. rewrite canonicalized_fields. repeat constructor;
      cbn [snd ae_taxonomy_id ae_taxonomy_revision ae_relation_id ae_profile_id ae_profile_revision ae_profile_digest
        ae_normalized_model_ref ae_normalized_model_digest ae_checker_configuration_digest ae_checked_points ae_checked_secret_points
        ae_diagnostics with_points an_claim normalized_model_ref]; try apply opacity_digest_ok; try done.
    + apply bool_decide_eq_true_2, Hcl.
    + apply bool_decide_eq_true_2, Hcl.
    + rewrite (ac_id _ _ Hcl). apply Hr.
    + rewrite (ac_rev _ _ Hcl). apply Hr.
    + apply Hr.
    + apply in_range_true. lia.
    + apply in_range_true. lia.
    + by apply Nat.leb_le.
Qed.

(** One reason, and the counts of the scan so far. *)
Lemma unsupported_analysis_run outcome d checked :
  outcome = UNSUPPORTED_ANALYSIS \/ outcome = VACUOUS_DOMAIN -> (0 <= checked <= MAX_OPACITY_POINTS)%Z ->
  exists e, unsupported_analysis r profile outcome d checked 0 = (_ ← validate_analysis_claim_scope (an_claim r); Ok e) /\
    ae_outcome e = outcome /\ ae_counterexample e = None /\ ae_diagnostics e = [d] /\ ae_checked_points e = checked /\
    ae_checked_secret_points e = 0%Z.
Proof.
  intros Ho Hc. unfold unsupported_analysis.
  assert (validate_unsupported_analysis (UnsupportedReasons [dm_code d]) = Ok (UnsupportedReasons [dm_code d])) as ->.
  { unfold validate_unsupported_analysis. cbn [reason_codes].
    rewrite (proj2 (require_fields_Ok _ tt)) by by repeat constructor. cbn [mbind result_bind].
    assert (py_sorted [dm_code d] = [dm_code d]) as Hs by done. rewrite <-Hs at 1.
    rewrite require_sorted_unique_sorted by apply NoDup_singleton. done. }
  cbn [mbind result_bind]. eexists. split; [apply analysis_evidence_valid|by split_and!].
  - lia.
  - lia.
  - unfold MAX_OPACITY_DIAGNOSTICS. simpl. lia.
  - unfold check_evidence_counts, analysis_evidence_with. cbn [ae_checked_points ae_checked_secret_points ae_outcome ae_diagnostics].
    rewrite (proj2 (Z.ltb_ge _ _)) by lia. by destruct Ho as [->| ->].
  - unfold check_outcome_payloads, check_unsupported_join, analysis_evidence_with. cbn [ae_counterexample ae_outcome ae_unsupported ae_diagnostics reason_codes].
    assert (bool_decide ([dm_code d] <> py_sorted (py_dedupe (dm_code <$> [d]))) = false) as -> by by rewrite bool_decide_not_false, py_dedupe_nodup by apply NoDup_singleton.
    by destruct Ho as [->| ->].
Qed.

Definition reachable_points : list OpacityPossiblePoint := sorted_by_ordinal (List.filter reachable (points r)).

Lemma elem_of_reachable_points p : p ∈ reachable_points <-> p ∈ points r /\ reachable p = true.
Proof. unfold reachable_points. by rewrite sorted_by_ordinal_perm, elem_of_bool_filter. Qed.

Lemma reachable_points_size : (0 <= py_len reachable_points <= MAX_OPACITY_POINTS)%Z.
Proof.
  unfold reachable_points. rewrite (py_len_perm _ _ (sorted_by_ordinal_perm _)). split; [apply py_len_nonneg|].
  etrans; [apply py_len_filter_le|]. apply Hr.
Qed.

(** What the scan of the reachable points decides. *)
Definition analysis_verdict (e : OpacityAnalysisEvidence) : Prop :=
  ae_checked_points e = py_len reachable_points /\ ae_checked_secret_points e = count_if secret_holds reachable_points /\
  match ae_outcome e with
  | UNSUPPORTED_ANALYSIS => False
  | VACUOUS_DOMAIN => ae_counterexample e = None /\ forall p, p ∈ reachable_points -> pp_secret_holds p = false
  | NO_COUNTEREXAMPLE => ae_counterexample e = None /\ (exists p, p ∈ reachable_points /\ pp_secret_holds p = true) /\
      forall p, p ∈ reachable_points -> exposed information_cell_key reachable_points p = false
  | POINT_COUNTEREXAMPLE => exists p c, p ∈ reachable_points /\ exposed information_cell_key reachable_points p = true /\
      (forall q, q ∈ reachable_points -> exposed information_cell_key reachable_points q = true -> (pp_ordinal p <= pp_ordinal q)%Z) /\
      ae_counterexample e = Some c /\ actual_point_ordinal c = pp_ordinal p /\
      pc_examined_cell_size c = py_len (cell_of information_cell_key reachable_points p)
  end.

Lemma point_counterexample_run p :
  p ∈ reachable_points ->
  let size := py_len (cell_of information_cell_key reachable_points p) in
  let ref := POINT_COUNTEREXAMPLE_PREFIX +:+ six_digits (pp_ordinal p) in
  let c := PointCounterexample ref (point_counterexample_digest (PointDigest ref (pp_ordinal p) size (input_digest r))) (pp_ordinal p) size in
  validate_point_counterexample c = Ok c.
Proof.
  intros Hp size ref c. pose proof Hp as [Hin _]%elem_of_reachable_points. pose proof (an_bounds _ Hr p Hin) as Hb.
  pose proof reachable_points_size as Hs. assert (1 <= size)%Z by (apply (py_len_pos _ p); by apply elem_of_cell).
  assert (size <= py_len reachable_points)%Z by apply py_len_filter_le. unfold MAX_OPACITY_POINTS in *.
  unfold validate_point_counterexample. rewrite (proj2 (require_fields_Ok _ tt)); [done|].
  repeat constructor; cbn [snd c pc_safe_ref pc_digest actual_point_ordinal pc_examined_cell_size].
  - apply counterexample_ref_ok. lia.
  - apply opacity_digest_ok.
  - apply in_range_true. unfold MAX_OPACITY_POINTS. lia.
  - apply in_range_true. unfold MAX_OPACITY_POINTS. lia.
Qed.

Lemma decided_payloads cex :
  match cex with
  | None => True
  | Some c => pc_digest c = point_counterexample_digest (PointDigest (pc_safe_ref c) (actual_point_ordinal c) (pc_examined_cell_size c) (input_digest r))
  end ->
  check_outcome_payloads (analysis_evidence_with r profile (if is_none cex then NO_COUNTEREXAMPLE else POINT_COUNTEREXAMPLE)
    (py_len reachable_points) (count_if secret_holds reachable_points) [] cex None) = Ok tt.
Proof.
  intros Hc. unfold check_outcome_payloads, check_point_counterexample_join, analysis_evidence_with.
  cbn [ae_counterexample ae_outcome ae_unsupported ae_normalized_model_digest]. destruct cex as [c|]; cbn [is_none]; [|done].
  unfold input_digest in *. rewrite canonicalized_idemp by apply Hr. rewrite Hc, bool_decide_ne. done.
Qed.

Lemma decided_analysis_run p :
  p ∈ reachable_points -> pp_secret_holds p = true ->
  exists e, analyze_nonvacuous_carrier r profile reachable_points = (_ ← validate_analysis_claim_scope (an_claim r); Ok e) /\ analysis_verdict e.
Proof.
  intros Hp Hsec. unfold analyze_nonvacuous_carrier.
  destruct (kernel_spec information_cell_key reachable_points) as (found & Hk & Hfound). rewrite Hk. cbn [mbind result_bind].
  cbn [checked_points checked_secret_points counterexample_actual_ordinal counterexample_cell_size].
  assert (forall cex, match cex with None => True | Some c => pc_digest c = point_counterexample_digest
      (PointDigest (pc_safe_ref c) (actual_point_ordinal c) (pc_examined_cell_size c) (input_digest r)) end ->
    let e := analysis_evidence_with r profile (if is_none cex then NO_COUNTEREXAMPLE else POINT_COUNTEREXAMPLE)
      (py_len reachable_points) (count_if secret_holds reachable_points) [] cex None in
    validate_analysis_evidence e = (_ ← validate_analysis_claim_scope (an_claim r); Ok e)) as Hvalid.
  { intros cex Hcex e. pose proof reachable_points_size.
    assert (count_if secret_holds reachable_points <= py_len reachable_points)%Z by apply py_len_filter_le.
    assert (1 <= count_if secret_holds reachable_points)%Z by (apply (py_len_pos _ p); by apply elem_of_bool_filter).
    apply analysis_evidence_valid; [lia|lia|simpl; lia| |by apply decided_payloads].
    unfold check_evidence_counts, analysis_evidence_with. cbn [ae_checked_points ae_checked_secret_points ae_outcome ae_diagnostics].
    rewrite (proj2 (Z.ltb_ge _ _)) by lia. rewrite !(proj2 (Z.eqb_neq _ _)) by lia. by destruct cex. }
  destruct found as [[o n]|]; cbn [fmap option_fmap option_map fst snd].
  - destruct Hfound as (a & Hin & Hex & -> & -> & Hlow). change (ordinal a) with (pp_ordinal a).
    rewrite (point_counterexample_run a Hin). cbn [mbind result_bind]. rewrite Hvalid by done.
    eexists. split; [done|]. split; [done|]. split; [done|]. do 2 eexists. by split_and!.
  - cbn [mbind result_bind]. rewrite Hvalid by done. eexists. split; [done|]. split; [done|]. split; [done|].
    split; [done|]. split; [by exists p|done].
Qed.
End evidence.

(** ** The run *)

(** The declared carrier is outside the checker's posture. *)
Definition analysis_refused (r : ParticipantOpacityAnalysisInput) : bool :=
  negb (complete_enumeration r) || (checker_max_points <? py_len (points r))%Z.

Lemma analysis_diagnostics :
  analysis_diagnostic ANALYSIS_INCOMPLETE_CODE "/complete_enumeration" "The declared finite carrier is not complete." =
    Ok (DiagModel ANALYSIS_INCOMPLETE_CODE "participant-opacity" "/complete_enumeration" "The declared finite carrier is not complete." ERROR) /\
  analysis_diagnostic ANALYSIS_BOUND_CODE "/points" "The declared finite carrier exceeds the deterministic checker bound." =
    Ok (DiagModel ANALYSIS_BOUND_CODE "participant-opacity" "/points" "The declared finite carrier exceeds the deterministic checker bound." ERROR) /\
  analysis_diagnostic ANALYSIS_VACUOUS_CODE "/points" "The reachable carrier contains no protected secret point." =
    Ok (DiagModel ANALYSIS_VACUOUS_CODE "participant-opacity" "/points" "The reachable carrier contains no protected secret point." ERROR).
Proof. split_and!; vm_compute; reflexivity. Qed.

Lemma bounded_analysis_run r profile :
  valid_analysis_input r -> validate_profile_admission load_catalog load_profile r profile = Ok tt ->
  validate_profile_domains r profile = Ok tt -> Revision (claim_taxonomy_revision (an_claim r)) = true ->
  exists e, analyze_participant_opacity_input load_catalog load_profile r profile = (_ ← validate_analysis_claim_scope (an_claim r); Ok e) /\
    if analysis_refused r then
      ae_outcome e = UNSUPPORTED_ANALYSIS /\ ae_counterexample e = None /\
      dm_code <$> ae_diagnostics e = [if complete_enumeration r then ANALYSIS_BOUND_CODE else ANALYSIS_INCOMPLETE_CODE]
    else analysis_verdict r e.
Proof.
  intros Hv Hadm Hdom Hrev. pose proof (analysis_facts_of _ Hv) as Hr. pose proof (analysis_admission_claim _ _ Hadm) as Hcl.
  unfold analyze_participant_opacity_input, analysis_precondition_evidence, analysis_refused. rewrite Hadm, Hdom. cbn [mbind result_bind].
  destruct analysis_diagnostics as (-> & -> & ->).
  assert (forall d, exists e, unsupported_analysis r profile UNSUPPORTED_ANALYSIS d 0 0 = (_ ← validate_analysis_claim_scope (an_claim r); Ok e) /\
    ae_outcome e = UNSUPPORTED_ANALYSIS /\ ae_counterexample e = None /\ ae_diagnostics e = [d]) as Hunsup.
  { intros d. destruct (unsupported_analysis_run r profile Hr Hcl Hrev UNSUPPORTED_ANALYSIS d 0) as (e & ? & ? & ? & ? & _);
      [by left|unfold MAX_OPACITY_POINTS; lia|by exists e]. }
  destruct (complete_enumeration r); cbn [negb orb].
  2:{ cbn [mbind result_bind]. edestruct Hunsup as (e & -> & ? & ? & Hd). exists e. rewrite Hd.
      by destruct (validate_analysis_claim_scope _). }
  destruct (_ <? _)%Z; cbn [mbind result_bind].
  { edestruct Hunsup as (e & -> & ? & ? & Hd). exists e. rewrite Hd. by destruct (validate_analysis_claim_scope _). }
  fold (reachable_points r). destruct (List.filter secret_holds (reachable_points r)) as [|p l] eqn:Hsec.
  - edestruct (unsupported_analysis_run r profile Hr Hcl Hrev VACUOUS_DOMAIN) as (e & -> & Ho & Hc & _ & Hn & Hns);
      [by right|by apply reachable_points_size|]. exists e. split; [done|]. unfold analysis_verdict. rewrite Ho. split; [done|].
    split; [by unfold count_if; rewrite Hns, Hsec|]. split; [done|]. intros p Hp. apply not_true_iff_false. intros Hs.
    apply (not_elem_of_nil p). rewrite <-Hsec. by apply elem_of_bool_filter.
  - assert (p ∈ List.filter secret_holds (reachable_points r)) as [Hp Hs]%elem_of_bool_filter by (rewrite Hsec; left).
    by apply (decided_analysis_run r profile Hr Hcl Hrev p).
Qed.
End run.
