(* ===== verification/OpacityFixture.v ===== *)
(** Transition models for the witnesses of the opacity theorems: passive,
    finite, with one strategy, scheduler, environment and order. *)
From S2P Require Import Prelude.
From S2P Require Import Contracts.
From S2P Require Import Diagnostics.
From S2P Require Import TimeModel.
From S2P Require Import ExploitModel.
From S2P Require Import ExploitFacts.
From S2P Require Import BehavioralModel.
From S2P Require Import OpacityModel.
From S2P Require Import OpacityCheck.
From S2P Require Import OpacityFacts.
From S2P Require Import OpacityEvidence.
From S2P Require Import OpacityVerdict.
From S2P Require Import OpacityAnalysis.
From S2P Require Import OpacityAnalysisRun.
Local Open Scope string_scope.
Local Open Scope list_scope.

(** Any bytes serve as the canonical form here. *)
Definition plain_bytes {A} : Canonical A := fun _ => "{}".
#[export] Existing Instance plain_bytes | 100.

Definition fixture_state (i : Z) (ref : string) (evaluation secret : bool) (observation : string) : State :=
  ModelState i ref ref "cut" "strategy" "scheduler" "environment" "order" evaluation secret "initial" observation "memory"
    "release" None.
Definition fixture_transition (i : Z) (ref : string) (source target : Z) : Transition :=
  ModelTransition i ref source target "action" "event".

Definition fixture_observation : OpacityObservation := Observation "projection" "rev1" [ch_payload] fully_known.
Definition fixture_parameters (c : OpacityCarrier) (b : option OpacityFiniteBounds) : ParticipantPredicateOpacityParameters :=
  Parameters (IndividualOpacityObserver "participant" "audience") (Revisioned_at "secret" "rev1") c
    (Revisioned_at "initial" "rev1") fixture_observation (Horizon scope_current "cut" "rev1" None)
    (Memory perfect "memory" "rev1" None None) PassiveOpacityStrategy (Release "schedule" "rev1" true) ["scheduler"] ["environment"]
    (OrderParameters total_order ["order"]) (TimeParameters false None None) b.
Definition fixture_profile (scope : FiniteAnalysisScope) (c : OpacityCarrier) (b : option OpacityFiniteBounds)
    : BehavioralRelationProfile :=
  Profile "profile-v1" "rev1" "rev8" "carrier" "projection" "rev1" scope (fixture_parameters c b)
    [ProfileSource "source" (canonical_json_digest tt)] ["limitation"] ["non-claim"].
Definition finite_profile : BehavioralRelationProfile :=
  fixture_profile declared_complete_finite_carrier (FiniteOpacityCarrier "reachability" "rev1")
    (Some (FiniteBounds 16 16 16 1 1 1)).
Definition theorem_profile : BehavioralRelationProfile :=
  fixture_profile abstract_parameterized_theorem_carrier
    (AbstractOpacityCarrier "reachability" "rev1" "eligibility" "rev1" "correspondence" "rev1") None.

Definition fixture_catalog : BehavioralRelationCatalog unit :=
  Catalog "rev8" {[ OPACITY_RELATION_ID := Relation OPACITY_RELATION_ID true true tt ]} tt.
Definition one_catalog (_ : string) : result (BehavioralRelationCatalog unit) := Ok fixture_catalog.
Definition no_profile (_ _ : string) : result BehavioralRelationProfile := Raise (KeyError "profile").

Definition fixture_claim (q : QuantifierScope) (e : EvidenceScope) (a : AssuranceAxis) (s : AssuranceStatus) (non_claim : string)
    : BehavioralClaimBinding :=
  Claim BEHAVIORAL_TAXONOMY_ID "rev8" OPACITY_RELATION_ID "subject" (Some "carrier") None (Some "projection") (Some "rev1")
    (Some "profile-v1") (Some "rev1") q e (Some a) "boundary" s ["evidence"] ["limitation"] [non_claim].
Definition model_check_claim : BehavioralClaimBinding :=
  fixture_claim all_traces scope_model_check axis_model_check status_model_checked MODEL_CHECK_PROVENANCE_NONCLAIM.

Section fixture.
Context (profile : BehavioralRelationProfile) (initials : list Z) (ss : list State) (ts : list Transition).

Definition fixture_counts : ParticipantOpacityModelCheckDeclaredCounts :=
  ModelCounts (py_len ss) (py_len ts) (py_len initials) (py_len (List.filter evaluation_point ss)) (distinct (run_ref <$> ss))
    (distinct (cut_ref <$> ss)) (distinct (ms_strategy_ref <$> ss)) (distinct (scheduler_environment <$> ss))
    (distinct (ms_order_ref <$> ss)).
Definition fixture_assumptions : ParticipantOpacityModelAssumptions :=
  Assumptions passive ["strategy"] ["scheduler"] ["environment"] total_order ["order"] "cut".
Definition fixture_request : Request :=
  ModelCheckInput MODEL_CHECK_ANALYSIS_PROFILE (SourceIdentity "source" (canonical_json_digest tt)) (canonical_json_digest fixture_catalog) "profile-v1"
    "rev1" (canonical_json_digest profile) "model" "rev1" "materializer" "rev1" (canonical_json_digest tt) true fixture_assumptions
    fixture_counts initials ss ts model_check_claim.

(** The checks of the parts that vary decide the validity of the request. *)
Lemma fixture_valid :
  in_range 1 MAX_OPACITY_MODEL_STATES (py_len initials) && in_range 1 MAX_OPACITY_MODEL_STATES (py_len ss)
    && in_range 0 MAX_OPACITY_MODEL_TRANSITIONS (py_len ts) = true ->
  validate_model_identities fixture_request = Ok tt -> validate_model_transitions fixture_request = Ok tt ->
  validate_model_declared_domains fixture_request = Ok tt -> validate_model_initial_domain fixture_request = Ok tt ->
  validate_counts fixture_counts = Ok fixture_counts ->
  Forall (fun s => validate_state s = Ok s) ss -> Forall (fun t => validate_transition t = Ok t) ts ->
  valid_request fixture_request.
Proof.
  intros [[Hi Hs]%andb_true_iff Ht]%andb_true_iff H1 H2 H3 H4 H5 H6 H7. constructor; [|vm_compute; reflexivity|exact H6|exact H7|exact H5].
  unfold validate_model_check_input. rewrite (proj2 (require_fields_Ok _ tt)).
  - cbn [mbind result_bind]. rewrite H1, H2. cbn [mbind result_bind].
    assert (validate_model_counts fixture_request = Ok tt) as ->.
    { unfold validate_model_counts. by rewrite (bool_decide_ne (realized_counts fixture_request)). }
    rewrite H3. cbn [mbind result_bind]. by rewrite H4.
  - repeat constructor; cbn [snd fixture_request]; try done; apply opacity_digest_ok.
Qed.

(** Only the bounds and the domains are left of the admission. *)
Lemma fixture_admission :
  profile = finite_profile \/ profile = theorem_profile ->
  validate_admission one_catalog no_profile fixture_request profile fixture_catalog =
    (_ ← validate_profile_bounds fixture_request profile;
     _ ← validate_state_domains fixture_request profile;
     validate_initial_domain_coverage fixture_request).
Proof.
  intros Hp. unfold validate_admission, operational_if. cbn [fixture_request analysis_profile catalog_digest input_profile_id
    input_profile_revision input_profile_digest claim assumptions]. rewrite !bool_decide_ne.
  assert (expected_assumptions fixture_request profile = Ok fixture_assumptions) as ->.
  { unfold expected_assumptions. destruct Hp as [->| ->]; vm_compute; reflexivity. }
  assert (validate_behavioral_claim_binding one_catalog no_profile model_check_claim (Some fixture_catalog) (Some profile)
    = Ok model_check_claim) as ->.
  { destruct Hp as [->| ->]; vm_compute; reflexivity. }
  destruct Hp as [->| ->]; cbn [mbind result_bind raise_if]; by rewrite bool_decide_ne.
Qed.
End fixture.

(** The same points as a declared carrier. *)
Definition bounded_claim : BehavioralClaimBinding :=
  fixture_claim finite_cases scope_finite axis_bounded_test status_tested NORMALIZED_INPUT_PROVENANCE_NONCLAIM.

Definition fixture_point (i : Z) (ref : string) (reached secret : bool) (observation : string) : OpacityPossiblePoint :=
  PossiblePoint i ref ref "cut" "strategy" "scheduler" "environment" "order" reached secret "initial" observation "memory"
    "release" None.

Definition fixture_analysis (ps : list OpacityPossiblePoint) : ParticipantOpacityAnalysisInput :=
  OpacityAnalysisInput BOUNDED_ANALYSIS_PROFILE (SourceIdentity "source" (canonical_json_digest tt)) "profile-v1" "rev1"
    (canonical_json_digest finite_profile) "model" "materializer" "rev1" (canonical_json_digest tt) true (realized_point_counts ps)
    bounded_claim ps.

Lemma fixture_analysis_valid ps :
  in_range 1 MAX_OPACITY_POINTS (py_len ps) = true -> validate_finite_carrier (fixture_analysis ps) = Ok tt ->
  Forall (fun p => validate_point p = Ok p) ps -> valid_analysis_input (fixture_analysis ps).
Proof.
  intros Hs Hc Hp. constructor; [|exact Hp]. unfold validate_analysis_input. rewrite (proj2 (require_fields_Ok _ tt)).
  - cbn [mbind result_bind]. by rewrite Hc.
  - repeat constructor; cbn [snd fixture_analysis]; try done; apply opacity_digest_ok.
Qed.

Lemma fixture_analysis_admitted ps :
  validate_profile_admission one_catalog no_profile (fixture_analysis ps) finite_profile = Ok tt.
Proof.
  unfold validate_profile_admission, operational_if. cbn [fixture_analysis an_analysis_profile an_profile_id an_profile_revision
    an_profile_digest an_claim]. rewrite !bool_decide_ne. cbn [mbind result_bind raise_if].
  assert (validate_behavioral_claim_binding one_catalog no_profile bounded_claim None (Some finite_profile) = Ok bounded_claim) as ->
    by (vm_compute; reflexivity).
  done.
Qed.

(** Decides the validity of a concrete fixture. *)
Ltac fixture_valid :=
  apply fixture_valid;
  [vm_compute; reflexivity|vm_compute; reflexivity|vm_compute; reflexivity|vm_compute; reflexivity|vm_compute; reflexivity
  |vm_compute; reflexivity| |]; repeat (constructor; [vm_compute; reflexivity|]); constructor.

Ltac fixture_analysis_valid :=
  apply fixture_analysis_valid; [vm_compute; reflexivity|vm_compute; reflexivity|];
  repeat (constructor; [vm_compute; reflexivity|]); constructor.
