(* ===== verification/OpacitySpec.v ===== *)
(** What the participant-opacity checkers promise: the model checker decides
    opacity of the reachable states, its evidence is exact, its errors are
    typed, and the bounded analysis agrees with it. *)
From S2P Require Import Prelude.
From S2P Require Import Contracts.
From S2P Require Import Diagnostics.
From S2P Require Import Sha256.
From S2P Require Import TimeModel.
From S2P Require Import ExploitModel.
From S2P Require Import ExploitFacts.
From S2P Require Import BehavioralModel.
From S2P Require Import OpacityModel.
From S2P Require Import OpacityCheck.
From S2P Require Import OpacityAnalysis.
From S2P Require Import OpacityFacts.
From S2P Require Import OpacityEvidence.
From S2P Require Import OpacityVerdict.
From S2P Require Import OpacityRun.
From S2P Require Import OpacityFixture.
Local Open Scope string_scope.
Local Open Scope list_scope.

#[local] Opaque require_fields require_sorted_unique raise_if canonical_json_digest.

(** ** Opacity *)

(** An evaluation point of a run of the model. *)
Definition evaluation_reached (r : Request) (s : State) : Prop :=
  s ∈ states r /\ reached r (ms_ordinal s) /\ evaluation_point s = true.

(** The observer knows the secret at [s]: every evaluation point with the same
    information is a secret one. *)
Definition secret_exposed (r : Request) (s : State) : Prop :=
  evaluation_reached r s /\ ms_secret_holds s = true /\
  forall s', evaluation_reached r s' -> same_information s' s -> ms_secret_holds s' = true.

(** The meaning of the outcomes. *)
Definition outcome_means (r : Request) (o : ModelCheckOutcome) : Prop :=
  match o with
  | UNSUPPORTED => refusals r <> []
  | VACUOUS => refusals r = [] /\ forall s, evaluation_reached r s -> ms_secret_holds s = false
  | HOLDS =>
      refusals r = [] /\ (exists s, evaluation_reached r s /\ ms_secret_holds s = true) /\ forall s, ~ secret_exposed r s
  | COUNTEREXAMPLE => refusals r = [] /\ exists s, secret_exposed r s
  end.

Lemma outcome_means_inj r o1 o2 : outcome_means r o1 -> outcome_means r o2 -> o1 = o2.
Proof.
  assert (forall s, secret_exposed r s -> (forall s', evaluation_reached r s' -> ms_secret_holds s' = false) -> False) as Hvac.
  { intros s (Hs & Hsec & _) Hno. specialize (Hno s Hs). congruence. }
  assert ((exists s, evaluation_reached r s /\ ms_secret_holds s = true) ->
    (forall s', evaluation_reached r s' -> ms_secret_holds s' = false) -> False) as Hsome.
  { intros (s & Hs & Hsec) Hno. specialize (Hno s Hs). congruence. }
  destruct o1, o2; cbn [outcome_means]; try done; intros H1 H2; exfalso;
    try (apply proj1 in H1; congruence); try (apply proj1 in H2; congruence);
    destruct H1 as [_ H1], H2 as [_ H2].
  - destruct H1 as [_ H1], H2 as [s H2]. by apply (H1 s).
  - destruct H1 as [H1 _]. by apply Hsome.
  - destruct H2 as [_ H2], H1 as [s H1]. by apply (H2 s).
  - destruct H1 as [s H1]. by apply (Hvac s).
  - destruct H2 as [H2 _]. by apply Hsome.
  - destruct H2 as [s H2]. by apply (Hvac s).
Qed.

(** ** The model checker *)

(** What the evidence of a decided outcome says, over the reachable states and
    transitions of the model. *)
Record exact_coverage (r : Request) (c : ParticipantOpacityModelCheckCoverage) : Prop := {
  ec_declared : declared c = realized_counts r;
  ec_fixed_point : complete_fixed_point c = true;
  ec_reachable : exists carrier ts, NoDup carrier /\ NoDup ts /\
    (forall s, s ∈ carrier <-> s ∈ states r /\ reached r (ms_ordinal s)) /\
    (forall t, t ∈ ts <-> t ∈ transitions r /\ reached r (source_state_ordinal t)) /\
    explored_states c = py_len carrier /\ explored_transitions c = py_len ts /\
    reachable_evaluation_points c = count_if evaluation_point carrier /\
    reachable_secret_points c = count_if ms_secret_holds (List.filter evaluation_point carrier) /\
    strategy_coverage c = coverage_for r carrier ts <$> strategy_refs (assumptions r);
}.

(** A counterexample: the lowest exposed point, a shortest run to it, and the
    size of its information cell. *)
Definition exact_counterexample (r : Request) (c : ParticipantOpacityModelCheckCounterexample) : Prop :=
  exists s p cell, secret_exposed r s /\ (forall s', secret_exposed r s' -> (ms_ordinal s <= ms_ordinal s')%Z) /\
    actual_state_ordinal c = ms_ordinal s /\ counterexample_strategy_ref c = ms_strategy_ref s /\
    path_to r p (ms_ordinal s) /\ (forall p', path_to r p' (ms_ordinal s) -> length p <= length p') /\
    actual_path_transition_ordinals c = mt_ordinal <$> p /\
    NoDup cell /\ (forall s', s' ∈ cell <-> evaluation_reached r s' /\ same_information s' s) /\
    examined_cell_size c = py_len cell.

Section model_check.
Context {O : Type}.
Context `{!Canonical ParticipantOpacityModelAssumptions, !Canonical ParticipantOpacityModelCheckConfiguration}.
Context `{!Canonical CounterexampleDigestInput, !Canonical Request, !Canonical (list State)}.
Context `{!Canonical BehavioralRelationProfile, !Canonical (BehavioralRelationCatalog O)}.
Context (load_catalog : string -> result (BehavioralRelationCatalog O)).
Context (load_profile : string -> string -> result BehavioralRelationProfile) (version : string).

Section request.
Context (r : Request) (Hr : request_facts r) (carrier : list State) (ts : list Transition) (parents : gmap Z (option Transition)).
Context (Hfp : fixed_point r carrier ts parents).

Lemma elem_of_evaluation s : s ∈ evaluation_of carrier <-> evaluation_reached r s.
Proof. unfold evaluation_of, evaluation_reached. rewrite elem_of_bool_filter, (fp_states _ _ _ _ Hfp). tauto. Qed.

Lemma exposed_iff s : s ∈ evaluation_of carrier -> exposed information_cell_key (evaluation_of carrier) s = true <-> secret_exposed r s.
Proof.
  intros Hs. rewrite exposed_true. unfold secret_exposed. setoid_rewrite elem_of_evaluation.
  setoid_rewrite cell_key_information.
  apply elem_of_evaluation in Hs. change (secret_holds s) with (ms_secret_holds s). tauto.
Qed.

Lemma verdict_means outcome cex : refusals r = [] -> verdict_on r carrier parents outcome cex -> outcome_means r outcome.
Proof.
  intros Hsup. destruct outcome; cbn [verdict_on outcome_means]; [| | |done].
  - intros (_ & (a & Ha & Hs) & Hno). split; [done|]. split; [exists a; by rewrite <-elem_of_evaluation|].
    intros s He. pose proof He as [Hin _]. apply elem_of_evaluation in Hin. apply exposed_iff in He; [|done].
    rewrite Hno in He; done.
  - intros (a & path & c & Ha & He & _). split; [done|]. exists a. by apply exposed_iff.
  - intros [_ Hno]. split; [done|]. intros s Hs. by apply Hno, elem_of_evaluation.
Qed.

Lemma verdict_counterexample cex c :
  verdict_on r carrier parents COUNTEREXAMPLE cex -> cex = Some c -> exact_counterexample r c.
Proof.
  intros (a & path & c' & Ha & He & Hlow & Hpath & -> & Hord & Hpo & Hstr & Hsize) [= ->].
  assert (a ∈ carrier) as Hcar by by apply elem_of_bool_filter in Ha as [? _].
  destruct (fp_paths _ _ _ _ Hfp a Hcar) as (p & Hp & _ & Hp' & Hmin). rewrite Hp' in Hpath. injection Hpath as <-.
  exists a, p, (cell_of information_cell_key (evaluation_of carrier) a). split_and!; try done.
  - by apply exposed_iff.
  - intros s' Hs'. pose proof Hs' as [Hin _]. apply elem_of_evaluation in Hin. apply Hlow; [done|]. by apply exposed_iff.
  - unfold cell_of, evaluation_of. apply bool_filter_NoDup, bool_filter_NoDup, Hfp.
  - intros s'. by rewrite elem_of_cell, elem_of_evaluation, cell_key_information.
Qed.

Lemma full_coverage_exact : exact_coverage r (full_coverage r carrier ts).
Proof.
  constructor; [apply (rf_counts _ Hr)|done|]. exists carrier, ts. split_and!; try done; apply Hfp.
Qed.
End request.

(** The run of the checker on an admitted request. *)
Lemma model_check_run r profile catalog :
  valid_request r -> (forall i, i ∈ initial_state_ordinals r -> (0 <= i)%Z) ->
  validate_admission load_catalog load_profile r profile catalog = Ok tt ->
  Revision (claim_taxonomy_revision (claim r)) = true -> Revision version = true ->
  exists e, model_check_participant_opacity_input load_catalog load_profile version r profile catalog = Ok e /\
    outcome_means r (ev_outcome e) /\
    (refusals r = [] -> exact_coverage r (ev_coverage e)) /\
    (forall c, ev_counterexample e = Some c -> exact_counterexample r c) /\
    (ev_outcome e = COUNTEREXAMPLE <-> is_Some (ev_counterexample e)) /\
    (refusals r <> [] -> dm_code <$> ev_diagnostics e ≡ₚ refusals r /\ complete_fixed_point (ev_coverage e) = false).
Proof.
  intros Hv Hinit Hadm Hrev Hver. pose proof (request_facts_of r Hv) as Hr. pose proof (assumption_facts_of _ _ (vr_assumptions _ Hv)) as Ha.
  pose proof (admission_claim load_catalog load_profile _ _ _ Hadm) as Hcl.
  unfold model_check_participant_opacity_input. rewrite Hadm. cbn [mbind result_bind].
  assert (checker_configuration version = Ok (CheckerConfiguration version)) as ->.
  { unfold checker_configuration, validate_configuration. cbn [package_version].
    by rewrite (proj2 (require_fields_Ok _ tt)) by by repeat constructor. }
  cbn [mbind result_bind]. destruct (unsupported_diagnostics_run r) as (ds & -> & Hds); [apply (rf_counts _ Hr)|].
  cbn [mbind result_bind]. destruct (decide (refusals r = [])) as [Hsup|Hsup].
  - assert (ds = []) as ->.
    { rewrite Hsup in Hds. apply Permutation_nil_r in Hds. by destruct ds. }
    destruct (fixed_point_run r Hr Hinit) as (carrier & ts & parents & Hfix & Hfp).
    destruct (reachable_evidence_run r carrier ts parents Hr Ha Hcl (vr_states _ Hv) (vr_counts _ Hv) Hrev Hfix
      (fixed_point_carrier r Hr Hinit _ _ _ Hfp) (fixed_point_paths r Hr Hinit _ _ _ Hfp) (CheckerConfiguration version))
      as (e & He & Hcov & _ & Hverdict).
    exists e. split_and!; try done.
    + by eapply verdict_means.
    + intros _. rewrite Hcov. by eapply full_coverage_exact.
    + intros c Hc. destruct (ev_outcome e); cbn [verdict_on] in Hverdict; [naive_solver| |naive_solver|done].
      rewrite Hc in Hverdict. by eapply verdict_counterexample.
    + destruct (ev_outcome e); cbn [verdict_on] in Hverdict; split; try done;
        [intros [? Hs]; naive_solver|naive_solver|intros [? Hs]; naive_solver].
  - destruct (unsupported_evidence_run r (CheckerConfiguration version) ds Hr Ha Hcl Hrev Hds Hsup) as (e & He & Ho & Hd & Hc & Hf).
    assert (exists d ds', ds = d :: ds') as (d & ds' & ->).
    { destruct ds as [|d ds']; [|by do 2 eexists]. exfalso. apply Hsup. symmetry in Hds. by apply Permutation_nil_r in Hds. }
    exists e. rewrite Ho, Hc, Hd. by split_and!.
Qed.

(** C25: On a valid transition model that admission accepts, whose initial state
    ordinals are at least 0 and whose claim and checker revisions are well-formed
    revisions, the checker returns evidence (it never loops and never fails), and
    the outcome is exactly the meaning of the model: unsupported when the model is
    outside the checker's posture, vacuous when no reachable evaluation point is
    secret, a counterexample when some reachable secret point has only secret
    points in its information cell, and holding otherwise. Validation and admission
    let a negative initial ordinal through, and then the outcome can be wrong
    ([negative_initial_unsound]). *)
Theorem model_check_exact r profile catalog :
  valid_request r -> (forall i, i ∈ initial_state_ordinals r -> (0 <= i)%Z) ->
  validate_admission load_catalog load_profile r profile catalog = Ok tt ->
  Revision (claim_taxonomy_revision (claim r)) = true -> Revision version = true ->
  exists e, model_check_participant_opacity_input load_catalog load_profile version r profile catalog = Ok e /\
    forall o, ev_outcome e = o <-> outcome_means r o.
Proof.
  intros Hv Hi Ha Hrev Hver. destruct (model_check_run r profile catalog Hv Hi Ha Hrev Hver) as (e & He & Ho & _).
  exists e. split; [done|]. intros o. split; [by intros <-|]. by apply outcome_means_inj.
Qed.

(** C26: On a valid transition model that admission accepts, whose initial state
    ordinals are at least 0 and whose claim and checker revisions are well-formed
    revisions, the evidence of the checker is exact. For a supported model its coverage
    counts exactly the reachable states, their transitions, and the evaluation
    and secret points among them, per strategy too; a counterexample is given
    exactly with that outcome, and names the exposed point of lowest ordinal with
    a shortest run to it and the true size of its information cell. For an
    unsupported model the diagnostics are exactly the reasons, and the coverage
    claims no fixed point. With a negative initial ordinal the coverage is not
    exact ([negative_initial_unsound]). *)
Theorem model_check_evidence_exact r profile catalog e :
  valid_request r -> (forall i, i ∈ initial_state_ordinals r -> (0 <= i)%Z) ->
  Revision (claim_taxonomy_revision (claim r)) = true -> Revision version = true ->
  validate_admission load_catalog load_profile r profile catalog = Ok tt ->
  model_check_participant_opacity_input load_catalog load_profile version r profile catalog = Ok e ->
  (refusals r = [] -> exact_coverage r (ev_coverage e)) /\
  (forall c, ev_counterexample e = Some c -> exact_counterexample r c) /\
  (ev_outcome e = COUNTEREXAMPLE <-> is_Some (ev_counterexample e)) /\
  (refusals r <> [] -> dm_code <$> ev_diagnostics e ≡ₚ refusals r /\ complete_fixed_point (ev_coverage e) = false).
Proof.
  intros Hv Hi Hrev Hver Ha He.
  destruct (model_check_run r profile catalog Hv Hi Ha Hrev Hver) as (e' & He' & _ & H1 & H2 & H3 & H4).
  rewrite He in He'. injection He' as <-. done.
Qed.

(** Every failure of the checker on a valid model and a valid profile is its
    own operational error, with one exception: a profile that declares no finite
    bounds (the abstract theorem carrier) is never checked, and may end in the
    [AttributeError] of reading the absent bounds. *)
Theorem model_check_errors_typed r profile catalog :
  valid_request r -> valid_profile profile -> (forall i, i ∈ initial_state_ordinals r -> (0 <= i)%Z) ->
  Revision (claim_taxonomy_revision (claim r)) = true ->
  match model_check_participant_opacity_input load_catalog load_profile version r profile catalog with
  | Ok _ => bounds (parameters profile) <> None
  | Raise (ParticipantOpacityOperationalError _) => True
  | Raise (AttributeError _) => bounds (parameters profile) = None
  | Raise _ => False
  end.
Proof.
  intros Hv Hp Hi Hrev. pose proof (model_check_run r profile catalog Hv Hi) as Hrun.
  unfold model_check_participant_opacity_input in *.
  pose proof (admission_errors load_catalog load_profile r profile catalog Hv Hp) as Ha.
  pose proof (admission_needs_bounds load_catalog load_profile r profile catalog) as Hb.
  destruct (validate_admission _ _ _ _ _) as [[]|e]; cbn [mbind result_bind] in *.
  2:{ destruct Ha as [[m ->]|[? [m ->]]]; done. }
  pose proof (configuration_errors version profile) as Hc. unfold checker_configuration, validate_configuration in *.
  destruct (checks_require_fields [("package_version", Revision version)]) as [[Hver E]|[_ [m E]]]; cbn [package_version] in *;
    rewrite E in Hrun |- *; cbn [mbind result_bind] in *; [|done].
  apply Forall_inv in Hver. destruct (Hrun eq_refl Hrev Hver) as (e & -> & _). intros Hn. by apply (Hb Hn).
Qed.
End model_check.

(** A run that reaches a secret no other point shares. *)
Definition leaking_request : Request :=
  fixture_request finite_profile [0%Z] [fixture_state 0 "s0" true false "quiet"; fixture_state 1 "s1" true true "loud"]
    [fixture_transition 0 "t0" 0 1].

Lemma leaking_valid : valid_request leaking_request.
Proof. fixture_valid. Qed.

Lemma leaking_admitted : validate_admission one_catalog no_profile leaking_request finite_profile fixture_catalog = Ok tt.
Proof. unfold leaking_request. rewrite fixture_admission by by left. vm_compute. reflexivity. Qed.

Lemma leaking_exposed : secret_exposed leaking_request (fixture_state 1 "s1" true true "loud").
Proof.
  split; [|split; [done|]].
  - split; [right; left|]. split; [|done]. exists [fixture_transition 0 "t0" 0 1].
    apply (path_snoc _ [] (fixture_transition 0 "t0" 0 1)); [constructor|]; left.
  - intros s' ([->|[->|[]%not_elem_of_nil]%elem_of_cons]%elem_of_cons & _); [|done]. intros (_ & H & _). discriminate.
Qed.

Lemma model_check_exact_witness :
  exists e, model_check_participant_opacity_input one_catalog no_profile "1.0.0" leaking_request finite_profile fixture_catalog = Ok e /\
    ev_outcome e = COUNTEREXAMPLE.
Proof.
  destruct (model_check_exact one_catalog no_profile "1.0.0" leaking_request finite_profile fixture_catalog) as (e & He & Ho).
  - apply leaking_valid.
  - intros i [->|[]%not_elem_of_nil]%elem_of_cons. done.
  - apply leaking_admitted.
  - vm_compute. reflexivity.
  - vm_compute. reflexivity.
  - exists e. split; [exact He|]. apply Ho. split; [vm_compute; reflexivity|]. eexists. apply leaking_exposed.
Defined.

Lemma model_check_evidence_exact_witness :
  exists e c, model_check_participant_opacity_input one_catalog no_profile "1.0.0" leaking_request finite_profile fixture_catalog = Ok e /\
    exact_coverage leaking_request (ev_coverage e) /\ ev_counterexample e = Some c /\ exact_counterexample leaking_request c.
Proof.
  assert (forall i, i ∈ initial_state_ordinals leaking_request -> (0 <= i)%Z) as Hi by by intros i [->|[]%not_elem_of_nil]%elem_of_cons.
  assert (Revision (claim_taxonomy_revision (claim leaking_request)) = true) as Hrev by (vm_compute; reflexivity).
  assert (Revision "1.0.0" = true) as Hver by (vm_compute; reflexivity).
  destruct (model_check_run one_catalog no_profile "1.0.0" leaking_request finite_profile fixture_catalog leaking_valid Hi leaking_admitted Hrev Hver)
    as (e & He & Ho & _).
  destruct (model_check_evidence_exact one_catalog no_profile "1.0.0" leaking_request finite_profile fixture_catalog e
    leaking_valid Hi Hrev Hver leaking_admitted He) as (Hcov & Hcex & Hiff & _).
  assert (ev_outcome e = COUNTEREXAMPLE) as Hout.
  { apply (outcome_means_inj leaking_request); [done|]. split; [vm_compute; reflexivity|]. eexists. apply leaking_exposed. }
  apply Hiff in Hout as [c Hc]. exists e, c. split_and!; [done| |done|by apply Hcex]. apply Hcov. vm_compute. reflexivity.
Defined.

(** The same model against a profile for theorems. *)
Definition unbounded_request : Request :=
  fixture_request theorem_profile [0%Z] [fixture_state 0 "s0" true false "quiet"] [].

Lemma unbounded_crashes :
  model_check_participant_opacity_input one_catalog no_profile "1.0.0" unbounded_request theorem_profile fixture_catalog
    = Raise (AttributeError "'NoneType' object has no attribute 'max_points'").
Proof. unfold model_check_participant_opacity_input, unbounded_request. rewrite fixture_admission by by right. reflexivity. Qed.

Lemma model_check_errors_typed_witness :
  valid_request unbounded_request /\ valid_profile theorem_profile /\
  exists message, model_check_participant_opacity_input one_catalog no_profile "1.0.0" unbounded_request theorem_profile fixture_catalog
    = Raise (AttributeError message) /\ bounds (parameters theorem_profile) = None.
Proof.
  assert (valid_request unbounded_request) as Hv by fixture_valid.
  assert (valid_profile theorem_profile) as Hp by (constructor; vm_compute; reflexivity).
  assert (forall i, i ∈ initial_state_ordinals unbounded_request -> (0 <= i)%Z) as Hi by by intros i [->|[]%not_elem_of_nil]%elem_of_cons.
  split; [exact Hv|]. split; [exact Hp|]. eexists. split; [exact unbounded_crashes|].
  pose proof (model_check_errors_typed one_catalog no_profile "1.0.0" unbounded_request theorem_profile fixture_catalog Hv Hp Hi eq_refl) as H.
  rewrite unbounded_crashes in H. exact H.
Defined.

(** ** Negative initial ordinals *)

(** Three states: a secret one and a quiet one that share a cell, and behind the
    quiet one a secret that stands alone. *)
Definition branching_request (initials : list Z) : Request :=
  fixture_request finite_profile initials
    [fixture_state 0 "s0" true true "quiet"; fixture_state 1 "s1" true true "loud"; fixture_state 2 "s2" true false "quiet"]
    [fixture_transition 0 "t0" 2 1].

Lemma branching_valid initials : initials = [-1; 0]%Z \/ initials = [0; 2]%Z -> valid_request (branching_request initials).
Proof. intros [->| ->]; fixture_valid. Qed.

Lemma branching_admitted initials : initials = [-1; 0]%Z \/ initials = [0; 2]%Z ->
  validate_admission one_catalog no_profile (branching_request initials) finite_profile fixture_catalog = Ok tt.
Proof. intros Hi. unfold branching_request. rewrite fixture_admission by by left. destruct Hi as [->| ->]; vm_compute; reflexivity. Qed.

(** What the exploration finds when the quiet state is named by -1: nothing
    leaves it. *)
Lemma negative_fixed_point :
  reachable_fixed_point (branching_request [-1; 0]%Z) =
    Ok ([fixture_state 2 "s2" true false "quiet"; fixture_state 0 "s0" true true "quiet"], [], {[ (-1)%Z := None; 0%Z := None ]}).
Proof. vm_compute. reflexivity. Qed.

Definition negative_carrier : list State :=
  [fixture_state 2 "s2" true false "quiet"; fixture_state 0 "s0" true true "quiet"].

Lemma negative_carrier_of : carrier_of (branching_request [-1; 0]%Z) negative_carrier [].
Proof.
  constructor.
  - intros s [->|[->|[]%not_elem_of_nil]%elem_of_cons]%elem_of_cons; [right; right; left|left].
  - by apply Z.leb_le.
  - by intros t ?%not_elem_of_nil.
  - by apply Z.leb_le.
  - intros i s [->|[->|[]%not_elem_of_nil]%elem_of_cons]%elem_of_cons; intros [= <-]; [left|right; left].
Qed.

Lemma negative_exposed s :
  s ∈ evaluation_of negative_carrier -> exposed information_cell_key (evaluation_of negative_carrier) s = false.
Proof. intros [->|[->|[]%not_elem_of_nil]%elem_of_cons]%elem_of_cons; vm_compute; reflexivity. Qed.

Lemma negative_verdict parents outcome cex :
  verdict_on (branching_request [-1; 0]%Z) negative_carrier parents outcome cex -> outcome = HOLDS.
Proof.
  destruct outcome; [done|..]; intros H; exfalso; [| |exact H].
  - destruct H as (a & path & c & Hin & Hex & _). apply negative_exposed in Hin. congruence.
  - destruct H as [_ Hno]. specialize (Hno (fixture_state 0 "s0" true true "quiet")). cut (true = false); [done|].
    apply Hno. right. left.
Qed.

Lemma negative_run :
  exists e, model_check_participant_opacity_input one_catalog no_profile "1.0.0" (branching_request [-1; 0]%Z) finite_profile fixture_catalog = Ok e /\
    ev_outcome e = HOLDS /\ complete_fixed_point (ev_coverage e) = true /\ explored_transitions (ev_coverage e) = 0%Z.
Proof.
  assert (valid_request (branching_request [-1; 0]%Z)) as Hv by (apply branching_valid; by left).
  assert (validate_admission one_catalog no_profile (branching_request [-1; 0]%Z) finite_profile fixture_catalog = Ok tt) as Hadm
    by (apply branching_admitted; by left).
  assert (checker_configuration "1.0.0" = Ok (CheckerConfiguration "1.0.0")) as Hconf by (vm_compute; reflexivity).
  assert (unsupported_diagnostics (branching_request [-1; 0]%Z) = Ok []) as Hsup by (vm_compute; reflexivity).
  destruct (reachable_evidence_run (branching_request [-1; 0]%Z) negative_carrier [] {[ (-1)%Z := None; 0%Z := None ]}
    (request_facts_of _ Hv) (assumption_facts_of _ _ (vr_assumptions _ Hv)) (admission_claim one_catalog no_profile _ _ _ Hadm)
    (vr_states _ Hv) (vr_counts _ Hv) eq_refl negative_fixed_point negative_carrier_of) with (checker := CheckerConfiguration "1.0.0")
    as (e & He & Hcov & _ & Hverdict).
  { intros s Hs Hex. apply negative_exposed in Hs. congruence. }
  exists e. unfold model_check_participant_opacity_input. rewrite Hadm. cbn [mbind result_bind]. rewrite Hconf.
  cbn [mbind result_bind]. rewrite Hsup. split; [exact He|]. split; [by eapply negative_verdict|]. rewrite Hcov. by split.
Qed.

(** The checker does not refuse negative initial ordinals, and reads them in
    two ways: as an index from the end when it looks the state up, and as a state
    without transitions when it explores. Naming the last state of a three-state
    model by -1 instead of 2 turns a true counterexample into evidence that
    opacity holds, with a complete fixed point that explored no transition. *)
Theorem negative_initial_unsound :
  (exists e, model_check_participant_opacity_input one_catalog no_profile "1.0.0" (branching_request [-1; 0]%Z) finite_profile fixture_catalog
     = Ok e /\ ev_outcome e = HOLDS /\ complete_fixed_point (ev_coverage e) = true /\ explored_transitions (ev_coverage e) = 0%Z) /\
  py_index (states (branching_request [-1; 0]%Z)) (-1) = py_index (states (branching_request [0; 2]%Z)) 2 /\
  exists e, model_check_participant_opacity_input one_catalog no_profile "1.0.0" (branching_request [0; 2]%Z) finite_profile fixture_catalog
    = Ok e /\ ev_outcome e = COUNTEREXAMPLE.
Proof.
  split; [exact negative_run|]. split; [done|].
  destruct (model_check_run one_catalog no_profile "1.0.0" (branching_request [0; 2]%Z) finite_profile fixture_catalog)
    as (e & He & Ho & _); [apply branching_valid; by right| |apply branching_admitted; by right|done|done|].
  { intros i [->|[->|[]%not_elem_of_nil]%elem_of_cons]%elem_of_cons; lia. }
  exists e. split; [exact He|]. apply (outcome_means_inj (branching_request [0; 2]%Z)); [done|].
  split; [vm_compute; reflexivity|]. exists (fixture_state 1 "s1" true true "loud"). split; [|split; [done|]].
  - split; [right; left|]. split; [|done]. exists [fixture_transition 0 "t0" 2 1].
    apply (path_snoc _ [] (fixture_transition 0 "t0" 2 1)); [constructor; right; left|left].
  - intros s' ([->|[->|[->|[]%not_elem_of_nil]%elem_of_cons]%elem_of_cons]%elem_of_cons & _); [done..|].
    intros (_ & H & _). discriminate.
Qed.
