(* ===== verification/OpacityAnalysisSpec.v ===== *)
(** What the bounded opacity analysis promises, and its agreement with the model
    checker. *)
From S2P Require Import Prelude.
From S2P Require Import Contracts.
From S2P Require Import Diagnostics.
From S2P Require Import Sha256.
From S2P Require Import TimeModel.
From S2P Require Import ExploitModel.
From S2P Require Import ExploitFacts.
From S2P Require Import BehavioralModel.
From S2P Require Import OpacityModel.
From S2P Require Import OpacityCheck.
From S2P Require Import OpacityAnalysis.
From S2P Require Import OpacityFacts.
From S2P Require Import OpacityEvidence.
From S2P Require Import OpacityVerdict.
From S2P Require Import OpacityRun.
From S2P Require Import OpacityAnalysisRun.
From S2P Require Import OpacityFixture.
From S2P Require Import OpacitySpec.
Local Open Scope string_scope.
Local Open Scope list_scope.

#[local] Opaque require_fields require_sorted_unique raise_if canonical_json_digest.

(** ** Opacity of a carrier *)

Definition point_reached (r : ParticipantOpacityAnalysisInput) (p : OpacityPossiblePoint) : Prop :=
  p ∈ points r /\ reachable p = true.

Definition point_exposed (r : ParticipantOpacityAnalysisInput) (p : OpacityPossiblePoint) : Prop :=
  point_reached r p /\ pp_secret_holds p = true /\
  forall q, point_reached r q -> same_information q p -> pp_secret_holds q = true.

Definition analysis_means (r : ParticipantOpacityAnalysisInput) (o : OpacityOutcome) : Prop :=
  match o with
  | UNSUPPORTED_ANALYSIS => analysis_refused r = true
  | VACUOUS_DOMAIN => analysis_refused r = false /\ forall p, point_reached r p -> pp_secret_holds p = false
  | NO_COUNTEREXAMPLE => analysis_refused r = false /\ (exists p, point_reached r p /\ pp_secret_holds p = true) /\
      forall p, ~ point_exposed r p
  | POINT_COUNTEREXAMPLE => analysis_refused r = false /\ exists p, point_exposed r p
  end.

Lemma analysis_means_inj r o1 o2 : analysis_means r o1 -> analysis_means r o2 -> o1 = o2.
Proof.
  assert (forall p, point_exposed r p -> (forall q, point_reached r q -> pp_secret_holds q = false) -> False) as Hvac.
  { intros p (Hp & Hsec & _) Hno. specialize (Hno p Hp). congruence. }
  assert ((exists p, point_reached r p /\ pp_secret_holds p = true) ->
    (forall q, point_reached r q -> pp_secret_holds q = false) -> False) as Hsome.
  { intros (p & Hp & Hsec) Hno. specialize (Hno p Hp). congruence. }
  destruct o1, o2; cbn [analysis_means]; try done; intros H1 H2; exfalso;
    try (apply proj1 in H1; congruence); try (apply proj1 in H2; congruence);
    destruct H1 as [_ H1], H2 as [_ H2].
  - destruct H1 as [_ H1], H2 as [p H2]. by apply (H1 p).
  - destruct H1 as [H1 _]. by apply Hsome.
  - destruct H2 as [_ H2], H1 as [p H1]. by apply (H2 p).
  - destruct H1 as [p H1]. by apply (Hvac p).
  - destruct H2 as [H2 _]. by apply Hsome.
  - destruct H2 as [p H2]. by apply (Hvac p).
Qed.

(** The lowest exposed point, and the size of its information cell. *)
Definition exact_point_counterexample (r : ParticipantOpacityAnalysisInput) (c : OpacityCounterexample) : Prop :=
  exists p cell, point_exposed r p /\ (forall q, point_exposed r q -> (pp_ordinal p <= pp_ordinal q)%Z) /\
    actual_point_ordinal c = pp_ordinal p /\
    NoDup cell /\ (forall q, q ∈ cell <-> point_reached r q /\ same_information q p) /\
    pc_examined_cell_size c = py_len cell.

Lemma elem_of_reached r p : p ∈ reachable_points r <-> point_reached r p.
Proof. apply elem_of_reachable_points. Qed.

Lemma point_exposed_iff r p : p ∈ reachable_points r -> exposed information_cell_key (reachable_points r) p = true <-> point_exposed r p.
Proof.
  intros Hp. rewrite exposed_true. unfold point_exposed.
  setoid_rewrite <-elem_of_reached. setoid_rewrite cell_key_information. change (secret_holds p) with (pp_secret_holds p). tauto.
Qed.

Lemma verdict_analysis_means r e :
  NoDup (points r) -> analysis_refused r = false -> analysis_verdict r e ->
  analysis_means r (ae_outcome e) /\
  (ae_outcome e = POINT_COUNTEREXAMPLE <-> is_Some (ae_counterexample e)) /\
  forall c, ae_counterexample e = Some c -> exact_point_counterexample r c.
Proof.
  intros Hnd Hsup (_ & _ & H). destruct (ae_outcome e); cbn [analysis_means].
  - destruct H as (-> & (p & Hp & Hs) & Hno). split_and!; try done; [exists p; by rewrite <-elem_of_reached|].
    intros q Hq. pose proof Hq as (Hin & _). apply elem_of_reached in Hin. apply point_exposed_iff in Hq; [|done].
    rewrite Hno in Hq; done.
  - destruct H as (p & c & Hp & Hex & Hlow & -> & Hord & Hsize). split_and!; try done; [exists p; by apply point_exposed_iff|].
    intros c' [= <-]. exists p, (cell_of information_cell_key (reachable_points r) p). split_and!; try done.
    + by apply point_exposed_iff.
    + intros q Hq. pose proof Hq as (Hin & _). apply elem_of_reached in Hin. apply Hlow; [done|]. by apply point_exposed_iff.
    + unfold cell_of, reachable_points. apply bool_filter_NoDup. rewrite sorted_by_ordinal_perm. by apply bool_filter_NoDup.
    + intros q. by rewrite elem_of_cell, elem_of_reached, cell_key_information.
  - destruct H as [-> Hno]. split_and!; try done. intros p Hp. by apply Hno, elem_of_reached.
  - done.
Qed.

Section analysis.
Context {O : Type}.
Context `{!Canonical BoundedCheckerConfiguration, !Canonical PointDigestInput, !Canonical ParticipantOpacityAnalysisInput}.
Context `{!Canonical BehavioralRelationProfile}.
Context (load_catalog : string -> result (BehavioralRelationCatalog O)).
Context (load_profile : string -> string -> result BehavioralRelationProfile).

Lemma analysis_outcome r profile :
  valid_analysis_input r -> validate_profile_admission load_catalog load_profile r profile = Ok tt ->
  validate_profile_domains r profile = Ok tt -> Revision (claim_taxonomy_revision (an_claim r)) = true ->
  exists e, analyze_participant_opacity_input load_catalog load_profile r profile = (_ ← validate_analysis_claim_scope (an_claim r); Ok e) /\
    analysis_means r (ae_outcome e) /\
    (ae_outcome e = POINT_COUNTEREXAMPLE <-> is_Some (ae_counterexample e)) /\
    forall c, ae_counterexample e = Some c -> exact_point_counterexample r c.
Proof.
  intros Hv Ha Hd Hrev. destruct (bounded_analysis_run load_catalog load_profile r profile Hv Ha Hd Hrev) as (e & He & Hcase).
  exists e. split; [done|]. destruct (analysis_refused r) eqn:Href.
  - destruct Hcase as (-> & -> & _). by split_and!.
  - apply verdict_analysis_means; [|done..]. apply (NoDup_fmap_1 pp_ordinal), (analysis_facts_of _ Hv).
Qed.

(** C27: The bounded analysis decides opacity of the declared reachable points: on
    a valid and admitted input within the profile's domains, with a well-formed
    claim revision, it returns evidence, or refuses a claim of another
    assurance scope with the evidence contract's own error; the outcome is the
    meaning of the carrier, and a counterexample is given exactly with that
    outcome: the exposed point of lowest ordinal with the true size of its cell. *)
Theorem analysis_exact r profile :
  valid_analysis_input r -> validate_profile_admission load_catalog load_profile r profile = Ok tt ->
  validate_profile_domains r profile = Ok tt -> Revision (claim_taxonomy_revision (an_claim r)) = true ->
  exists e, analyze_participant_opacity_input load_catalog load_profile r profile = (_ ← validate_analysis_claim_scope (an_claim r); Ok e) /\
    (forall o, ae_outcome e = o <-> analysis_means r o) /\
    (ae_outcome e = POINT_COUNTEREXAMPLE <-> is_Some (ae_counterexample e)) /\
    forall c, ae_counterexample e = Some c -> exact_point_counterexample r c.
Proof.
  intros Hv Ha Hd Hrev. destruct (analysis_outcome r profile Hv Ha Hd Hrev) as (e & He & Ho & Hrest).
  exists e. split; [done|]. split; [|done]. intros o. split; [by intros <-|]. by apply analysis_means_inj.
Qed.

(** ** The order of the points *)

Lemma canonicalized_perm r l : NoDup (pp_ordinal <$> points r) -> l ≡ₚ points r -> canonicalized (with_points l r) = canonicalized r.
Proof.
  intros Hnd Hl. rewrite !canonicalized_fields. cbn [with_points points]. unfold with_points.
  cbn [an_analysis_profile an_source an_profile_id an_profile_revision an_profile_digest normalized_model_ref an_materializer_id
    an_materializer_version an_materializer_digest complete_enumeration an_declared_counts an_claim].
  by rewrite (sorted_by_ordinal_unique (points r) l).
Qed.

Lemma sets_differ_perm {A B} `{Countable B} (f : A -> B) l1 l2 l : l1 ≡ₚ l2 -> sets_differ (f <$> l1) l = sets_differ (f <$> l2) l.
Proof. intros Hl. unfold sets_differ. by rewrite (list_to_set_perm_L (C := gset B) _ _ (fmap_Permutation f _ _ Hl)). Qed.

Lemma domains_perm r profile l : l ≡ₚ points r -> validate_profile_domains (with_points l r) profile = validate_profile_domains r profile.
Proof.
  intros Hl. unfold validate_profile_domains, validate_scheduler_environment_domain, validate_order_and_cut_domains,
    validate_strategy_domain, validate_coalition_domain, validate_declared_bounds. cbn [with_points points an_declared_counts].
  rewrite !(sets_differ_perm _ _ _ _ Hl). unfold distinct.
  rewrite (list_to_set_perm_L (C := gset string) _ _ (fmap_Permutation pp_strategy_ref _ _ Hl)).
  destruct (strategy (parameters profile)) as [|refs]; rewrite ?(sets_differ_perm _ _ _ _ Hl).
  all: assert (forall f, existsb f l = existsb f (points r)) as He; [|by rewrite He].
  all: intros f; apply eq_true_iff_eq; rewrite !existsb_exists; setoid_rewrite <-list_elem_of_In; by setoid_rewrite Hl.
Qed.

(** The analysis does not depend on the order in which the carrier lists its
    points: evidence, digests, counterexample and errors are the same. *)
Theorem analysis_order_invariant r profile l :
  valid_analysis_input r -> l ≡ₚ points r ->
  analyze_participant_opacity_input load_catalog load_profile (with_points l r) profile =
  analyze_participant_opacity_input load_catalog load_profile r profile.
Proof.
  intros Hv Hl. pose proof (an_ordinals _ (analysis_facts_of _ Hv)) as Hnd.
  pose proof (canonicalized_perm r l Hnd Hl) as Hcan.
  assert (sorted_by_ordinal (List.filter reachable l) = sorted_by_ordinal (List.filter reachable (points r))) as Hsort.
  { symmetry. apply sorted_by_ordinal_unique; [|by apply bool_filter_perm].
    revert Hnd. generalize (points r). clear. intros k. induction k as [|p k IH]; [done|]. rewrite fmap_cons. intros [Hp Hk]%NoDup_cons.
    cbn [List.filter]. destruct (reachable p); [|by apply IH]. rewrite fmap_cons. apply NoDup_cons. split; [|by apply IH].
    intros (q & Heq & [Hin _]%elem_of_bool_filter)%list_elem_of_fmap. apply Hp, list_elem_of_fmap. eauto. }
  unfold analyze_participant_opacity_input. rewrite domains_perm by done.
  assert (validate_profile_admission load_catalog load_profile (with_points l r) profile = validate_profile_admission load_catalog load_profile r profile) as -> by done.
  unfold analysis_precondition_evidence, unsupported_analysis, analyze_nonvacuous_carrier, analysis_evidence_with, input_digest.
  rewrite Hcan. cbn [with_points points complete_enumeration]. rewrite Hsort, (py_len_perm _ _ Hl). done.
Qed.
End analysis.

(** ** Agreement of the two checkers *)

Definition same_point (p : OpacityPossiblePoint) (s : State) : Prop :=
  pp_ordinal p = ms_ordinal s /\ pp_secret_holds p = ms_secret_holds s /\ same_information p s.

(** The reached points of the carrier are the reachable evaluation points of the
    transition model. *)
Record presents (a : ParticipantOpacityAnalysisInput) (m : Request) : Prop := {
  pr_sound : forall p, point_reached a p -> exists s, evaluation_reached m s /\ same_point p s;
  pr_complete : forall s, evaluation_reached m s -> exists p, point_reached a p /\ same_point p s;
}.

Section agreement.
Context (a : ParticipantOpacityAnalysisInput) (m : Request) (Hp : presents a m).
Context (Ha : NoDup (pp_ordinal <$> points a)) (Hm : NoDup (ms_ordinal <$> states m)).

Lemma point_unique p q : p ∈ points a -> q ∈ points a -> pp_ordinal p = pp_ordinal q -> p = q.
Proof.
  intros [i Hi]%list_elem_of_lookup [j Hj]%list_elem_of_lookup Heq.
  assert (i = j) as ->; [|congruence].
  apply (NoDup_lookup (pp_ordinal <$> points a) _ _ (pp_ordinal p)); [done| |]; rewrite list_lookup_fmap, ?Hi, ?Hj; [done|]. by rewrite Heq.
Qed.

Lemma state_unique s t : s ∈ states m -> t ∈ states m -> ms_ordinal s = ms_ordinal t -> s = t.
Proof.
  intros [i Hi]%list_elem_of_lookup [j Hj]%list_elem_of_lookup Heq.
  assert (i = j) as ->; [|congruence].
  apply (NoDup_lookup (ms_ordinal <$> states m) _ _ (ms_ordinal s)); [done| |]; rewrite list_lookup_fmap, ?Hi, ?Hj; [done|]. by rewrite Heq.
Qed.

Lemma exposed_point_state p s : same_point p s -> point_reached a p -> evaluation_reached m s -> point_exposed a p <-> secret_exposed m s.
Proof.
  intros (_ & Hs & Hk) Hpr Hsr. unfold point_exposed, secret_exposed. rewrite Hs. split; intros (_ & H1 & H2); split_and!; try done.
  - intros t Ht Hkt. destruct (pr_complete _ _ Hp t Ht) as (q & Hq & _ & <- & Hkq). apply H2; [done|].
    same_information.
  - intros q Hq Hkq. destruct (pr_sound _ _ Hp q Hq) as (t & Ht & _ & -> & Hkt). apply H2; [done|].
    same_information.
Qed.

Lemma exposed_somewhere : (exists p, point_exposed a p) <-> exists s, secret_exposed m s.
Proof.
  split.
  - intros (p & He). pose proof He as (Hr & _). destruct (pr_sound _ _ Hp p Hr) as (s & Hs & Hps). exists s. by eapply exposed_point_state.
  - intros (s & He). pose proof He as (Hr & _). destruct (pr_complete _ _ Hp s Hr) as (p & Hpr & Hps). exists p. by eapply exposed_point_state.
Qed.

Lemma secret_somewhere :
  (exists p, point_reached a p /\ pp_secret_holds p = true) <-> exists s, evaluation_reached m s /\ ms_secret_holds s = true.
Proof.
  split.
  - intros (p & Hr & Hs). destruct (pr_sound _ _ Hp p Hr) as (s & Hsr & _ & Heq & _). exists s. split; [done|congruence].
  - intros (s & Hr & Hs). destruct (pr_complete _ _ Hp s Hr) as (p & Hpr & _ & Heq & _). exists p. split; [done|congruence].
Qed.

(** The lowest exposed points correspond. *)
Lemma lowest_exposed p s :
  point_exposed a p -> (forall q, point_exposed a q -> (pp_ordinal p <= pp_ordinal q)%Z) ->
  secret_exposed m s -> (forall t, secret_exposed m t -> (ms_ordinal s <= ms_ordinal t)%Z) -> same_point p s.
Proof.
  intros Hpe Hpl Hse Hsl. pose proof Hpe as (Hpr & _). pose proof Hse as (Hsr & _).
  destruct (pr_sound _ _ Hp p Hpr) as (t & Ht & Hpt). destruct (pr_complete _ _ Hp s Hsr) as (q & Hq & Hqs).
  assert (secret_exposed m t) as Hte by by eapply exposed_point_state.
  assert (point_exposed a q) as Hqe by by eapply exposed_point_state.
  apply Hpl in Hqe. apply Hsl in Hte. destruct Hpt as (Ho & ? & ?), Hqs as (Ho' & ? & ?).
  assert (t = s) as <- by (apply state_unique; [apply Ht|apply Hsr|lia]). by split_and!.
Qed.

(** The information cells have the same size. *)
Lemma cell_sizes p s cell_a cell_m :
  same_point p s -> NoDup cell_a -> NoDup cell_m ->
  (forall q, q ∈ cell_a <-> point_reached a q /\ same_information q p) ->
  (forall t, t ∈ cell_m <-> evaluation_reached m t /\ same_information t s) ->
  py_len cell_a = py_len cell_m.
Proof.
  intros (_ & _ & Hk) Hna Hnm Hca Hcm. unfold py_len. f_equal.
  rewrite <-(length_fmap pp_ordinal cell_a), <-(length_fmap ms_ordinal cell_m). apply Permutation_length, NoDup_Permutation.
  - apply NoDup_fmap_2_strong; [|done]. intros q q' Hq Hq'. apply point_unique; [by apply Hca in Hq as [[? _] _]|by apply Hca in Hq' as [[? _] _]].
  - apply NoDup_fmap_2_strong; [|done]. intros t t' Ht Ht'. apply state_unique; [by apply Hcm in Ht as [[? _] _]|by apply Hcm in Ht' as [[? _] _]].
  - intros o. rewrite !list_elem_of_fmap. split.
    + intros (q & -> & [Hq Hkq]%Hca). destruct (pr_sound _ _ Hp q Hq) as (t & Ht & Ho & _ & Hkt). exists t. split; [done|].
      apply Hcm. split; [done|]. same_information.
    + intros (t & -> & [Ht Hkt]%Hcm). destruct (pr_complete _ _ Hp t Ht) as (q & Hq & Ho & _ & Hkq). exists q. split; [done|].
      apply Hca. split; [done|]. same_information.
Qed.

Lemma means_agree :
  refusals m = [] -> analysis_refused a = false ->
  (outcome_means m HOLDS <-> analysis_means a NO_COUNTEREXAMPLE) /\
  (outcome_means m COUNTEREXAMPLE <-> analysis_means a POINT_COUNTEREXAMPLE) /\
  (outcome_means m VACUOUS <-> analysis_means a VACUOUS_DOMAIN).
Proof.
  intros Hsm Hsa. cbn [outcome_means analysis_means]. rewrite Hsm, Hsa. pose proof exposed_somewhere as He. pose proof secret_somewhere as Hs.
  split_and!.
  - split; intros (_ & H1 & H2); (split; [done|]); (split; [by apply Hs|]); intros x Hx.
    + destruct (proj1 He) as [s Hse]; [by exists x|]. by apply (H2 s).
    + destruct (proj2 He) as [p Hpe]; [by exists x|]. by apply (H2 p).
  - split; intros [_ H]; split; [done|by apply He|done|by apply He].
  - split; intros [_ H]; (split; [done|]); intros x Hx; apply not_true_iff_false; intros Hsec.
    + destruct (proj1 Hs) as (s & Hsr & Hss); [by exists x|]. rewrite H in Hss; done.
    + destruct (proj2 Hs) as (p & Hpr & Hps); [by exists x|]. rewrite H in Hps; done.
Qed.
End agreement.

Section lanes.
Context {O : Type}.
Context `{!Canonical ParticipantOpacityModelAssumptions, !Canonical ParticipantOpacityModelCheckConfiguration}.
Context `{!Canonical CounterexampleDigestInput, !Canonical Request, !Canonical (list State)}.
Context `{!Canonical BehavioralRelationProfile, !Canonical (BehavioralRelationCatalog O)}.
Context `{!Canonical BoundedCheckerConfiguration, !Canonical PointDigestInput, !Canonical ParticipantOpacityAnalysisInput}.
Context (load_catalog : string -> result (BehavioralRelationCatalog O)).
Context (load_profile : string -> string -> result BehavioralRelationProfile) (version : string).

(** C28: The two checkers agree on inputs both support. Take a valid transition
    model that its admission accepts, whose initial ordinals are at least 0 and
    which gives the model checker no reason to refuse it ([refusals m = []]), and a
    valid bounded carrier within its admission and domains that the analysis does
    not refuse ([analysis_refused a = false]), all with well-formed revisions. When
    the declared points of the carrier are exactly the reachable evaluation points
    of the model, with the same ordinals, secrets and information, and both calls
    return, the outcomes correspond, and so do the counterexamples: the same
    point, with an information cell of the same size. Outside these conditions
    (an unsupported input, a negative initial ordinal) the outcomes need not
    correspond. *)
Theorem checkers_agree m profile_m catalog a profile_a e1 e2 :
  valid_request m -> (forall i, i ∈ initial_state_ordinals m -> (0 <= i)%Z) ->
  validate_admission load_catalog load_profile m profile_m catalog = Ok tt ->
  Revision (claim_taxonomy_revision (claim m)) = true -> Revision version = true ->
  valid_analysis_input a -> validate_profile_admission load_catalog load_profile a profile_a = Ok tt ->
  validate_profile_domains a profile_a = Ok tt -> Revision (claim_taxonomy_revision (an_claim a)) = true ->
  refusals m = [] -> analysis_refused a = false -> presents a m ->
  model_check_participant_opacity_input load_catalog load_profile version m profile_m catalog = Ok e1 ->
  analyze_participant_opacity_input load_catalog load_profile a profile_a = Ok e2 ->
  (ev_outcome e1 = HOLDS <-> ae_outcome e2 = NO_COUNTEREXAMPLE) /\
  (ev_outcome e1 = COUNTEREXAMPLE <-> ae_outcome e2 = POINT_COUNTEREXAMPLE) /\
  (ev_outcome e1 = VACUOUS <-> ae_outcome e2 = VACUOUS_DOMAIN) /\
  forall c1 c2, ev_counterexample e1 = Some c1 -> ae_counterexample e2 = Some c2 ->
    actual_state_ordinal c1 = actual_point_ordinal c2 /\ examined_cell_size c1 = pc_examined_cell_size c2.
Proof.
  intros Hm Hinit Hadm Hrev Hver Ha Hadm' Hdom Hrev' Hsup Hsup' Hp H1 H2.
  destruct (model_check_run load_catalog load_profile version m profile_m catalog Hm Hinit Hadm Hrev Hver) as (e1' & H1' & Ho1 & _ & Hc1 & _).
  rewrite H1 in H1'. injection H1' as <-.
  destruct (analysis_outcome load_catalog load_profile a profile_a Ha Hadm' Hdom Hrev') as (e2' & H2' & Ho2 & _ & Hc2).
  assert (e2' = e2) as ->.
  { rewrite H2 in H2'. destruct (validate_analysis_claim_scope _); [|done]. by injection H2'. }
  assert (forall o, ev_outcome e1 = o <-> outcome_means m o) as He1 by (intros o; split; [by intros <-|by apply outcome_means_inj]).
  assert (forall o, ae_outcome e2 = o <-> analysis_means a o) as He2 by (intros o; split; [by intros <-|by apply analysis_means_inj]).
  destruct (means_agree a m Hp Hsup Hsup') as (Hh & Hc & Hv). rewrite !He1, !He2. split_and!; try done.
  intros c1 c2 Hx1 Hx2. destruct (Hc1 c1 Hx1) as (s & path & cell_m & Hs & Hsl & -> & _ & _ & _ & _ & Hnm & Hcm & ->).
  destruct (Hc2 c2 Hx2) as (p & cell_a & Hpe & Hpl & -> & Hna & Hca & ->).
  assert (NoDup (ms_ordinal <$> states m)) as Hnd by (rewrite (rf_ordinals _ (request_facts_of _ Hm)); apply NoDup_range).
  pose proof (an_ordinals _ (analysis_facts_of _ Ha)) as Hnd'.
  assert (same_point p s) as Hps by by apply (lowest_exposed a m).
  split; [symmetry; apply Hps|]. symmetry. by apply (cell_sizes a m Hp Hnd' Hnd p s).
Qed.
End lanes.

(** ** Witnesses *)

Definition leaking_analysis : ParticipantOpacityAnalysisInput :=
  fixture_analysis [fixture_point 0 "s0" true false "quiet"; fixture_point 1 "s1" true true "loud"].

Lemma leaking_analysis_valid : valid_analysis_input leaking_analysis.
Proof. fixture_analysis_valid. Qed.

Lemma leaking_analysis_exposed : point_exposed leaking_analysis (fixture_point 1 "s1" true true "loud").
Proof.
  split; [|split; [done|]]; [split; [right; left|done]|].
  intros q ([->|[->|[]%not_elem_of_nil]%elem_of_cons]%elem_of_cons & _); [|done]. intros (_ & H & _). discriminate.
Qed.

Lemma analysis_exact_witness :
  exists e c, analyze_participant_opacity_input one_catalog no_profile leaking_analysis finite_profile = Ok e /\
    ae_outcome e = POINT_COUNTEREXAMPLE /\ ae_counterexample e = Some c /\ exact_point_counterexample leaking_analysis c.
Proof.
  destruct (analysis_exact one_catalog no_profile leaking_analysis finite_profile) as (e & He & Ho & Hc & Hx).
  - exact leaking_analysis_valid.
  - apply fixture_analysis_admitted.
  - vm_compute. reflexivity.
  - vm_compute. reflexivity.
  - assert (ae_outcome e = POINT_COUNTEREXAMPLE) as Hout.
    { apply Ho. split; [vm_compute; reflexivity|]. eexists. exact leaking_analysis_exposed. }
    destruct (proj1 Hc Hout) as [c Hsome]. exists e, c. split; [|split; [exact Hout|split; [exact Hsome|exact (Hx c Hsome)]]].
    rewrite He. assert (validate_analysis_claim_scope (an_claim leaking_analysis) = Ok tt) as -> by (vm_compute; reflexivity). reflexivity.
Defined.

Lemma analysis_order_invariant_witness :
  analyze_participant_opacity_input one_catalog no_profile
    (with_points [fixture_point 1 "s1" true true "loud"; fixture_point 0 "s0" true false "quiet"] leaking_analysis) finite_profile =
  analyze_participant_opacity_input one_catalog no_profile leaking_analysis finite_profile.
Proof. apply analysis_order_invariant; [exact leaking_analysis_valid|apply perm_swap]. Defined.

Lemma leaking_presents : presents leaking_analysis leaking_request.
Proof.
  assert (path_to leaking_request [] 0) as H0 by (constructor; left).
  assert (evaluation_reached leaking_request (fixture_state 0 "s0" true false "quiet")) as Hs0
    by (split_and!; [left|exists []; exact H0|reflexivity]).
  assert (evaluation_reached leaking_request (fixture_state 1 "s1" true true "loud")) as Hs1 by apply leaking_exposed.
  constructor.
  - intros p ([->|[->|[]%not_elem_of_nil]%elem_of_cons]%elem_of_cons & _).
    + eexists. split; [exact Hs0|by split_and!].
    + eexists. split; [exact Hs1|by split_and!].
  - intros s ([->|[->|[]%not_elem_of_nil]%elem_of_cons]%elem_of_cons & _).
    + exists (fixture_point 0 "s0" true false "quiet"). split; [split; [left|done]|by split_and!].
    + exists (fixture_point 1 "s1" true true "loud"). split; [split; [right; left|done]|by split_and!].
Qed.

Lemma checkers_agree_witness :
  exists e1 e2,
    model_check_participant_opacity_input one_catalog no_profile "1.0.0" leaking_request finite_profile fixture_catalog = Ok e1 /\
    analyze_participant_opacity_input one_catalog no_profile leaking_analysis finite_profile = Ok e2 /\
    (ev_outcome e1 = COUNTEREXAMPLE <-> ae_outcome e2 = POINT_COUNTEREXAMPLE).
Proof.
  assert (forall i, i ∈ initial_state_ordinals leaking_request -> (0 <= i)%Z) as Hi by by intros i [->|[]%not_elem_of_nil]%elem_of_cons.
  assert (Revision (claim_taxonomy_revision (claim leaking_request)) = true) as Hrev by (vm_compute; reflexivity).
  assert (Revision "1.0.0" = true) as Hver by (vm_compute; reflexivity).
  assert (validate_profile_domains leaking_analysis finite_profile = Ok tt) as Hdom by (vm_compute; reflexivity).
  assert (Revision (claim_taxonomy_revision (an_claim leaking_analysis)) = true) as Hrev' by (vm_compute; reflexivity).
  assert (refusals leaking_request = []) as Hsup by (vm_compute; reflexivity).
  assert (analysis_refused leaking_analysis = false) as Hsup' by (vm_compute; reflexivity).
  destruct (model_check_run one_catalog no_profile "1.0.0" leaking_request finite_profile fixture_catalog leaking_valid Hi leaking_admitted Hrev Hver)
    as (e1 & He1 & _).
  destruct (analysis_outcome one_catalog no_profile leaking_analysis finite_profile leaking_analysis_valid (fixture_analysis_admitted _) Hdom Hrev')
    as (e2 & He2 & _).
  assert (validate_analysis_claim_scope (an_claim leaking_analysis) = Ok tt) as Hscope by (vm_compute; reflexivity).
  rewrite Hscope in He2. cbn [mbind result_bind] in He2. exists e1, e2. split; [exact He1|]. split; [exact He2|].
  exact (proj1 (proj2 (checkers_agree one_catalog no_profile "1.0.0" leaking_request finite_profile fixture_catalog leaking_analysis finite_profile
    e1 e2 leaking_valid Hi leaking_admitted Hrev Hver leaking_analysis_valid (fixture_analysis_admitted _) Hdom Hrev' Hsup Hsup'
    leaking_presents He1 He2))).
Defined.
