(* ===== verification/OperationModel.v ===== *)
(** Control-plane operations ([raes_contracts/operation_lifecycle.py] and the
    receipts and statuses of [raes_contracts/runtime_state.py]): the lifecycle
    of an operation, the reserved diagnostics of its terminal states, and the
    checks of the carriers that report it. *)
From S2P Require Import Prelude.
From S2P Require Import Contracts.
From S2P Require Import Addressing.
From S2P Require Import Diagnostics.
From S2P Require Import TimeModel.
From Stdlib Require Import Ascii.
Local Open Scope string_scope.
Local Open Scope list_scope.

Inductive RuntimeDomain : Type := PROVISIONING_DOMAIN | ORCHESTRATION_DOMAIN | EVALUATION_DOMAIN | PARTICIPANT_DOMAIN.
#[export] Instance RuntimeDomain_eq_dec : EqDecision RuntimeDomain.
Proof. solve_decision. Defined.

Definition domain_value (d : RuntimeDomain) : string :=
  match d with
  | PROVISIONING_DOMAIN => "provisioning"
  | ORCHESTRATION_DOMAIN => "orchestration"
  | EVALUATION_DOMAIN => "evaluation"
  | PARTICIPANT_DOMAIN => "participant"
  end.

Inductive OperationState : Type := ACCEPTED | RUNNING | SUCCEEDED | FAILED | CANCELLED | INDETERMINATE.
#[export] Instance OperationState_eq_dec : EqDecision OperationState.
Proof. solve_decision. Defined.

Definition state_value (s : OperationState) : string :=
  match s with
  | ACCEPTED => "accepted"
  | RUNNING => "running"
  | SUCCEEDED => "succeeded"
  | FAILED => "failed"
  | CANCELLED => "cancelled"
  | INDETERMINATE => "indeterminate"
  end.

Inductive OperationKind : Type :=
| PROVISIONING | ORCHESTRATION | EVALUATION | WORKFLOW_CANCELLATION | WORKFLOW_TIMEOUT_RECONCILIATION
| PARTICIPANT_ACTION | PARTICIPANT_CONTROL | PARTICIPANT_CROSSING.
#[export] Instance OperationKind_eq_dec : EqDecision OperationKind.
Proof. solve_decision. Defined.

Definition kind_value (k : OperationKind) : string :=
  match k with
  | PROVISIONING => "provisioning"
  | ORCHESTRATION => "orchestration"
  | EVALUATION => "evaluation"
  | WORKFLOW_CANCELLATION => "workflow-cancellation"
  | WORKFLOW_TIMEOUT_RECONCILIATION => "workflow-timeout-reconciliation"
  | PARTICIPANT_ACTION => "participant-action"
  | PARTICIPANT_CONTROL => "participant-control"
  | PARTICIPANT_CROSSING => "participant-crossing"
  end.

(** ** Admission context *)

Definition context_string (s : string) : bool := nonempty s && max_length 256 s.

Record OperationAdmissionContext : Type := AdmissionContext {
  actor_id : string;
  authorization_scope : list string;
  target_scope : string;
  run_scope : string;
  operation_kind : OperationKind;
  request_commitment : string;
  parent_operation_id : option string;
}.
#[export] Instance OperationAdmissionContext_eq_dec : EqDecision OperationAdmissionContext.
Proof. solve_decision. Defined.

Definition validate_admission_context (c : OperationAdmissionContext) : result OperationAdmissionContext :=
  _ ← require_fields
    [("actor_id", context_string (actor_id c));
     ("authorization_scope", forallb context_string (authorization_scope c)
        && Nat.leb 1 (length (authorization_scope c)) && Nat.leb (length (authorization_scope c)) 64);
     ("target_scope", context_string (target_scope c));
     ("run_scope", context_string (run_scope c));
     ("request_commitment", sha256_digest (request_commitment c));
     ("parent_operation_id", optional context_string (parent_operation_id c))];
  _ ← raise_if (negb (py_unique (authorization_scope c))) (ValueError "authorization scope entries must be unique");
  Ok c.

(** ** Lifecycle *)

Definition LEGAL_OPERATION_TRANSITIONS : list (OperationState * OperationState) :=
  [(ACCEPTED, RUNNING); (ACCEPTED, CANCELLED);
   (RUNNING, SUCCEEDED); (RUNNING, FAILED); (RUNNING, CANCELLED); (RUNNING, INDETERMINATE)].

Definition is_operation_transition_allowed (source target : OperationState) : bool :=
  bool_decide ((source, target) ∈ LEGAL_OPERATION_TRANSITIONS).

Definition operation_transition_diagnostic (source target : OperationState) : result Diagnostic :=
  _ ← raise_if (is_operation_transition_allowed source target)
    (ValueError "legal operation transitions do not have an error diagnostic");
  Ok (Diag "runtime.control-plane.operation-transition-invalid" "runtime" "/state"
        "Operation lifecycle transition is not permitted." ERROR).

(** The reserved code and message of a non-success terminal state. *)
Definition TERMINAL_OPERATION_DIAGNOSTICS (s : OperationState) : option (string * string) :=
  match s with
  | FAILED => Some ("runtime.control-plane.operation-failed", "Operation completed with a known failure.")
  | CANCELLED => Some ("runtime.control-plane.operation-cancelled",
                       "Operation was cancelled without an unclassified backend effect.")
  | INDETERMINATE => Some ("runtime.control-plane.operation-indeterminate",
                           "Operation outcome could not be established; explicit resolution is required.")
  | _ => None
  end.

Definition TERMINAL_OPERATION_STATES_BY_CODE (code : string) : option OperationState :=
  items_get code
    (omap (fun s => (fun cm => (cm.1, s)) <$> TERMINAL_OPERATION_DIAGNOSTICS s) [FAILED; CANCELLED; INDETERMINATE]).

Definition operation_terminal_diagnostic (s : OperationState) : result Diagnostic :=
  match TERMINAL_OPERATION_DIAGNOSTICS s with
  | Some (code, message) => Ok (Diag code "runtime" "/state" message ERROR)
  | None => Raise (ValueError "terminal diagnostic requires failed, cancelled, or indeterminate state")
  end.


(** [values.count(x)]. *)
Definition count_of {A} `{EqDecision A} (x : A) (l : list A) : nat := length (filter (fun y => y = x) l).

(** The loop body of [require_operation_terminal_diagnostics]. *)
Definition check_reserved_diagnostic (s : OperationState) (d : Diagnostic) : result unit :=
  match TERMINAL_OPERATION_STATES_BY_CODE (diag_code d) with
  | None => Ok tt
  | Some reserved =>
      canonical ← operation_terminal_diagnostic reserved;
      raise_if (bool_decide (reserved <> s) || bool_decide (d <> canonical))
        (ValueError "operation terminal diagnostic is not canonical for its state")
  end.

Definition require_operation_terminal_diagnostics (s : OperationState) (diagnostics : list Diagnostic)
    : result (list Diagnostic) :=
  _ ← mfold (fun _ d => check_reserved_diagnostic s d) tt diagnostics;
  _ ← match TERMINAL_OPERATION_DIAGNOSTICS s with
      | None => Ok tt
      | Some _ =>
          stable ← operation_terminal_diagnostic s;
          raise_if (negb (Nat.eqb (count_of stable diagnostics) 1))
            (ValueError "non-success terminal status requires one canonical state diagnostic")
      end;
  Ok diagnostics.

Definition operation_terminal_diagnostics (s : OperationState) (diagnostics : list Diagnostic)
    : result (list Diagnostic) :=
  if decide (s = SUCCEEDED) then require_operation_terminal_diagnostics s diagnostics
  else
    stable ← operation_terminal_diagnostic s;
    require_operation_terminal_diagnostics s
      (if decide (stable ∈ diagnostics) then diagnostics else diagnostics ++ [stable]).

(** ** Receipts and statuses *)

(** [_portable_operation_diagnostics]: each diagnostic through its portable
    payload and back. *)
Definition diagnostic_of_model (m : DiagnosticModel) : Diagnostic :=
  Diag (dm_code m) (dm_domain m) (dm_address m) (dm_message m) (dm_severity m).

Definition portable_operation_diagnostics (ds : list Diagnostic) : result (list Diagnostic) :=
  mmap (fun d => m ← portable_diagnostic_payload d; Ok (diagnostic_of_model m)) ds.

Definition validate_changed_addresses (addresses : list string) : result unit :=
  _ ← mfold (fun _ a => _ ← require_compiled_address "changed address" a; Ok tt) tt addresses;
  raise_if (negb (py_unique addresses)) (ValueError "changed addresses must be unique").

Definition OPERATION_SCHEMA_VERSION : string := "runtime-operation/v1".

Record OperationReceipt : Type := Receipt {
  rc_operation_id : string;
  rc_domain : RuntimeDomain;
  rc_submitted_at : string;
  rc_accepted : bool;
  rc_context : OperationAdmissionContext;
  rc_schema_version : string;
  rc_diagnostics : list Diagnostic;
}.
#[export] Instance OperationReceipt_eq_dec : EqDecision OperationReceipt.
Proof. solve_decision. Defined.

(** The constructor: fields, then [__post_init__]. *)
Definition make_receipt (r : OperationReceipt) : result OperationReceipt :=
  diagnostics ← portable_operation_diagnostics (rc_diagnostics r);
  Ok (Receipt (rc_operation_id r) (rc_domain r) (rc_submitted_at r) (rc_accepted r) (rc_context r)
        (rc_schema_version r) diagnostics).

Record OperationStatus : Type := Status {
  st_operation_id : string;
  st_domain : RuntimeDomain;
  st_state : OperationState;
  st_submitted_at : string;
  st_updated_at : string;
  st_context : OperationAdmissionContext;
  st_schema_version : string;
  st_diagnostics : list Diagnostic;
  st_changed_addresses : list string;
}.
#[export] Instance OperationStatus_eq_dec : EqDecision OperationStatus.
Proof. solve_decision. Defined.

Definition is_terminal (s : OperationState) : bool :=
  bool_decide (s ∈ [SUCCEEDED; FAILED; CANCELLED; INDETERMINATE]).

Definition make_status (s : OperationStatus) : result OperationStatus :=
  portable ← portable_operation_diagnostics (st_diagnostics s);
  diagnostics ← (if is_terminal (st_state s) then operation_terminal_diagnostics (st_state s) portable
                 else require_operation_terminal_diagnostics (st_state s) portable);
  _ ← validate_changed_addresses (st_changed_addresses s);
  Ok (Status (st_operation_id s) (st_domain s) (st_state s) (st_submitted_at s) (st_updated_at s) (st_context s)
        (st_schema_version s) diagnostics (st_changed_addresses s)).
