(* ===== verification/OperationFacts.v ===== *)
(** Facts about the lifecycle of operations and the carriers that report it:
    which transitions compose, which diagnostics a terminal state admits, and
    that a built carrier is a fixed point of its constructor. *)
From S2P Require Import Prelude.
From S2P Require Import Contracts.
From S2P Require Import Addressing.
From S2P Require Import Diagnostics.
From S2P Require Import OperationModel.
Local Open Scope string_scope.
Local Open Scope list_scope.

(** ** Transitions *)

Definition allowed (a b : OperationState) : Prop := is_operation_transition_allowed a b = true.

Lemma allowed_iff a b : allowed a b <-> (a, b) ∈ LEGAL_OPERATION_TRANSITIONS.
Proof. apply bool_decide_eq_true. Qed.

Lemma is_terminal_cases s : is_terminal s = negb (bool_decide (s = ACCEPTED) || bool_decide (s = RUNNING)).
Proof. by destruct s. Qed.

(** A transition leaves a non-terminal state for a later one. *)
Definition stage (s : OperationState) : nat :=
  match s with ACCEPTED => 0 | RUNNING => 1 | _ => 2 end.

Lemma allowed_stage a b : allowed a b -> stage a < stage b.
Proof. destruct a, b; vm_compute; intros; try discriminate; lia. Qed.

Lemma allowed_terminal a b : is_terminal a = true -> ~ allowed a b.
Proof. destruct a; try discriminate; destruct b; vm_compute; congruence. Qed.

Lemma transition_diagnostic_illegal a b :
  ~ allowed a b -> exists d, operation_transition_diagnostic a b = Ok d.
Proof.
  intros H. unfold operation_transition_diagnostic. destruct (is_operation_transition_allowed a b) eqn:E; [done|].
  by eexists.
Qed.

(** ** Reserved diagnostics *)

Definition canonical_for (s : OperationState) (d : Diagnostic) : Prop :=
  operation_terminal_diagnostic s = Ok d.

Lemma canonical_for_code s d : canonical_for s d -> TERMINAL_OPERATION_STATES_BY_CODE (diag_code d) = Some s.
Proof. destruct s; try discriminate; by intros [= <-]. Qed.

Lemma reserved_terminal code s :
  TERMINAL_OPERATION_STATES_BY_CODE code = Some s -> exists d, canonical_for s d.
Proof.
  unfold TERMINAL_OPERATION_STATES_BY_CODE. cbn.
  repeat (case_decide; [intros [= <-]; by eexists|]). discriminate.
Qed.

(** A diagnostic that uses a reserved code is the state's own. *)
Definition reserved_ok (s : OperationState) (ds : list Diagnostic) : Prop :=
  forall d, d ∈ ds -> TERMINAL_OPERATION_STATES_BY_CODE (diag_code d) = None \/ canonical_for s d.

Lemma check_reserved_exact s d :
  checks (check_reserved_diagnostic s d)
    (TERMINAL_OPERATION_STATES_BY_CODE (diag_code d) = None \/ canonical_for s d) tt.
Proof.
  unfold check_reserved_diagnostic. destruct (TERMINAL_OPERATION_STATES_BY_CODE (diag_code d)) as [r|] eqn:E.
  - destruct (reserved_terminal _ _ E) as [c Hc]. unfold canonical_for in Hc. rewrite Hc.
    change (checks (raise_if (bool_decide (r <> s) || bool_decide (d <> c))
      (ValueError "operation terminal diagnostic is not canonical for its state"))
      (Some r = None \/ canonical_for s d) tt).
    eapply checks_iff; [|apply checks_raise_if]. rewrite orb_false_iff, !bool_decide_not_false. split.
    + intros [-> ->]. by right.
    + intros [?|Hd]; [done|]. pose proof (canonical_for_code _ _ Hd) as Hs. rewrite E in Hs.
      injection Hs as ->. unfold canonical_for in Hd. rewrite Hc in Hd. by injection Hd as ->.
  - left. by split; [left|].
Qed.

(** The diagnostics a carrier in state [s] may report. *)
Definition diagnostics_ok (s : OperationState) (ds : list Diagnostic) : Prop :=
  reserved_ok s ds /\ forall d, canonical_for s d -> count_of d ds = 1.

Lemma require_terminal_exact s ds :
  checks (require_operation_terminal_diagnostics s ds) (diagnostics_ok s ds) ds.
Proof.
  unfold require_operation_terminal_diagnostics. eapply checks_iff; [|apply checks_and].
  2: { apply checks_fold. intros d _. apply check_reserved_exact. }
  2: { intros _. apply checks_and with (P := forall d, canonical_for s d -> count_of d ds = 1) (Q := True).
       - destruct (TERMINAL_OPERATION_DIAGNOSTICS s) as [[c m]|] eqn:E.
         + unfold operation_terminal_diagnostic. rewrite E. cbn [mbind result_bind].
           eapply checks_iff; [|apply checks_raise_if]. rewrite negb_false_iff, Nat.eqb_eq. unfold canonical_for, operation_terminal_diagnostic.
           rewrite E. split; [intros H d [= <-]; done|naive_solver].
         + left. split; [|done]. intros d Hd. unfold canonical_for, operation_terminal_diagnostic in Hd. by rewrite E in Hd.
       - intros _. apply checks_ret. }
  unfold diagnostics_ok, reserved_ok. naive_solver.
Qed.

Lemma count_of_app {A} `{EqDecision A} (x : A) l1 l2 : count_of x (l1 ++ l2) = count_of x l1 + count_of x l2.
Proof. unfold count_of. by rewrite filter_app, length_app. Qed.

Lemma count_of_notin {A} `{EqDecision A} (x : A) l : x ∉ l -> count_of x l = 0.
Proof.
  unfold count_of. intros H. destruct (filter _ l) as [|y ys] eqn:E; [done|].
  assert (y ∈ filter (fun z => z = x) l) as Hy by (rewrite E; left).
  apply list_elem_of_filter in Hy as [-> ?]. done.
Qed.

(** The diagnostics of a terminal carrier: the caller's, and the state's own
    when it is missing. *)
Definition classified (s : OperationState) (ds : list Diagnostic) : list Diagnostic :=
  match operation_terminal_diagnostic s with
  | Ok d => if decide (d ∈ ds) then ds else ds ++ [d]
  | Raise _ => ds
  end.

(** A caller may bring the state's own diagnostic once, and no other reserved one. *)
Definition classifiable (s : OperationState) (ds : list Diagnostic) : Prop :=
  reserved_ok s ds /\ forall d, canonical_for s d -> count_of d ds <= 1.

Lemma count_of_in {A} `{EqDecision A} (x : A) l : x ∈ l -> 0 < count_of x l.
Proof.
  intros H. unfold count_of. assert (x ∈ filter (fun y => y = x) l) as Hx by (by apply list_elem_of_filter).
  destruct (filter _ l); [by apply not_elem_of_nil in Hx|simpl; lia].
Qed.

Lemma classified_ok s ds : classifiable s ds <-> diagnostics_ok s (classified s ds).
Proof.
  unfold classified, classifiable, diagnostics_ok. destruct (operation_terminal_diagnostic s) as [d|e] eqn:E.
  2: { split; intros [H H']; (split; [done|]); intros d Hd; unfold canonical_for in Hd; rewrite Hd in E; done. }
  assert (forall d', canonical_for s d' <-> d' = d) as Hd by (unfold canonical_for; rewrite E; naive_solver).
  case_decide as Hin.
  - split; intros [H H']; (split; [done|]); intros d' ->%Hd; specialize (H' d (proj2 (Hd d) eq_refl));
      pose proof (count_of_in _ _ Hin); lia.
  - assert (reserved_ok s (ds ++ [d]) <-> reserved_ok s ds) as ->.
    { unfold reserved_ok. setoid_rewrite elem_of_app. setoid_rewrite list_elem_of_singleton.
      split; [naive_solver|]. intros H d' [?| ->]; [auto|]. right. by apply Hd. }
    split; intros [H H']; (split; [done|]); intros d' ->%Hd.
    + rewrite count_of_app, (count_of_notin d ds) by done. unfold count_of. by rewrite filter_cons_True.
    + rewrite (count_of_notin d ds) by done. lia.
Qed.

Lemma terminal_diagnostics_exact s ds :
  is_terminal s = true -> checks (operation_terminal_diagnostics s ds) (classifiable s ds) (classified s ds).
Proof.
  intros Hs. eapply checks_iff; [symmetry; apply classified_ok|].
  unfold operation_terminal_diagnostics, classified. destruct (decide (s = SUCCEEDED)) as [-> |Hne].
  - apply require_terminal_exact.
  - destruct (operation_terminal_diagnostic s) as [d|e] eqn:E; [|by destruct s].
    cbn [mbind result_bind]. apply require_terminal_exact.
Qed.

(** ** Portable diagnostics *)

Lemma validate_diagnostic_model_Ok d m : validate_diagnostic_model d = Ok m -> m = d /\ validate_diagnostic_model m = Ok m.
Proof.
  intros H. assert (m = d) as ->; [|done]. unfold validate_diagnostic_model in H. by inv_result.
Qed.

Lemma portable_payload_stable d m :
  portable_diagnostic_payload d = Ok m -> portable_diagnostic_payload (diagnostic_of_model m) = Ok m.
Proof.
  intros H. assert (diagnostic_model (diagnostic_of_model m) = Ok m) as Hm.
  { assert (validate_diagnostic_model m = Ok m) as Hv.
    { unfold portable_diagnostic_payload in H.
      destruct (diagnostic_model d) as [m'|e] eqn:E; [simplify_eq; by apply validate_diagnostic_model_Ok in E as []|].
      destruct e; try discriminate; by apply validate_diagnostic_model_Ok in H as []. }
    by destruct m. }
  unfold portable_diagnostic_payload. by rewrite Hm.
Qed.

Lemma portable_diagnostics_stable ds ds' :
  portable_operation_diagnostics ds = Ok ds' -> portable_operation_diagnostics ds' = Ok ds'.
Proof.
  unfold portable_operation_diagnostics. rewrite !mmap_Forall2. induction 1 as [|d d' ds ds' H _ IH]; constructor; [|done].
  apply bind_Ok in H as (m & Hm & [= <-]). by rewrite (portable_payload_stable _ _ Hm).
Qed.

Lemma portable_diagnostics_app ds1 ds2 r1 r2 :
  portable_operation_diagnostics ds1 = Ok r1 -> portable_operation_diagnostics ds2 = Ok r2 ->
  portable_operation_diagnostics (ds1 ++ ds2) = Ok (r1 ++ r2).
Proof. unfold portable_operation_diagnostics. rewrite !mmap_Forall2. apply Forall2_app. Qed.

Lemma canonical_portable s d : canonical_for s d -> portable_operation_diagnostics [d] = Ok [d].
Proof. destruct s; try discriminate; intros [= <-]; vm_compute; reflexivity. Qed.

Lemma classified_portable s ds :
  portable_operation_diagnostics ds = Ok ds -> portable_operation_diagnostics (classified s ds) = Ok (classified s ds).
Proof.
  intros H. unfold classified. destruct (operation_terminal_diagnostic s) as [d|] eqn:E; [|done].
  case_decide; [done|]. apply portable_diagnostics_app; [done|]. by apply (canonical_portable s).
Qed.

Lemma classified_idempotent s ds : classified s (classified s ds) = classified s ds.
Proof.
  unfold classified. destruct (operation_terminal_diagnostic s) as [d|]; [|done].
  destruct (decide (d ∈ ds)) as [H|H]; [by rewrite decide_True|]. rewrite decide_True; [done|set_solver].
Qed.

(** ** Statuses *)

Lemma changed_addresses_exact l : checks (validate_changed_addresses l) (addresses_ok l /\ NoDup l) tt.
Proof.
  unfold validate_changed_addresses. apply checks_and.
  - eapply checks_iff; [|apply checks_fold with (P := fun a => compiled_address_ok a = true)].
    + unfold addresses_ok. rewrite Forall_forall. done.
    + intros a _. unfold require_compiled_address. destruct (compiled_address_ok a); [by left|right].
      split; [done|]. by eexists.
  - intros _. eapply checks_iff; [|apply checks_raise_if]. rewrite negb_false_iff. apply py_unique_true.
Qed.

Definition with_diagnostics (s : OperationStatus) (ds : list Diagnostic) : OperationStatus :=
  Status (st_operation_id s) (st_domain s) (st_state s) (st_submitted_at s) (st_updated_at s) (st_context s)
    (st_schema_version s) ds (st_changed_addresses s).

(** What a status may report, given its portable diagnostics. *)
Definition status_admissible (s : OperationStatus) (ds : list Diagnostic) : Prop :=
  (if is_terminal (st_state s) then classifiable (st_state s) ds else diagnostics_ok (st_state s) ds) /\
  addresses_ok (st_changed_addresses s) /\ NoDup (st_changed_addresses s).

Definition reported (s : OperationStatus) (ds : list Diagnostic) : list Diagnostic :=
  if is_terminal (st_state s) then classified (st_state s) ds else ds.

Lemma make_status_checks s ds :
  portable_operation_diagnostics (st_diagnostics s) = Ok ds ->
  checks (make_status s) (status_admissible s ds) (with_diagnostics s (reported s ds)).
Proof.
  intros Hds. unfold make_status, status_admissible, reported. rewrite Hds. cbn [mbind result_bind].
  destruct (is_terminal (st_state s)) eqn:Et.
  - destruct (terminal_diagnostics_exact _ ds Et) as [[H ->]|[H [msg ->]]]; cbn [mbind result_bind];
      [|right; split; [tauto|by eexists]].
    destruct (changed_addresses_exact (st_changed_addresses s)) as [[? ->]|[? [msg ->]]]; [by left|right].
    split; [tauto|by eexists].
  - destruct (require_terminal_exact (st_state s) ds) as [[H ->]|[H [msg ->]]]; cbn [mbind result_bind];
      [|right; split; [tauto|by eexists]].
    destruct (changed_addresses_exact (st_changed_addresses s)) as [[? ->]|[? [msg ->]]]; [by left|right].
    split; [tauto|by eexists].
Qed.

Lemma make_status_Ok s s' :
  make_status s = Ok s' <->
  exists ds, portable_operation_diagnostics (st_diagnostics s) = Ok ds /\ status_admissible s ds /\
    s' = with_diagnostics s (reported s ds).
Proof.
  destruct (portable_operation_diagnostics (st_diagnostics s)) as [ds|e] eqn:E.
  - destruct (make_status_checks s ds E) as [[H ->]|[H [msg ->]]]; naive_solver.
  - unfold make_status. rewrite E. naive_solver.
Qed.

(** A status that was built. *)
Definition status_valid (s : OperationStatus) : Prop := make_status s = Ok s.

Lemma make_status_valid s s' : make_status s = Ok s' -> status_valid s'.
Proof.
  intros (ds & Hds & [Hok Ha] & ->)%make_status_Ok. unfold status_valid. apply make_status_Ok. cbn.
  unfold reported, status_admissible. cbn. destruct (is_terminal (st_state s)) eqn:Et.
  - exists (classified (st_state s) ds). split_and!.
    + apply classified_portable. by eapply portable_diagnostics_stable.
    + rewrite classified_ok, classified_idempotent. by rewrite <-classified_ok.
    + apply Ha.
    + apply Ha.
    + unfold with_diagnostics. cbn. by rewrite classified_idempotent.
  - exists ds. split_and!; [by eapply portable_diagnostics_stable|done|apply Ha..|done].
Qed.

(** A valid terminal status without success carries its own diagnostic once,
    and no valid status carries another state's. *)
Lemma status_valid_diagnostics s : status_valid s -> diagnostics_ok (st_state s) (st_diagnostics s).
Proof.
  intros (ds & _ & [Hok _] & Hs)%make_status_Ok. assert (st_diagnostics s = reported s ds) as -> by (by rewrite Hs at 1).
  unfold reported. destruct (is_terminal (st_state s)); [by apply classified_ok|done].
Qed.
