(* ===== verification/SnapshotModel.v ===== *)
(** The run-time snapshot as the control-plane store reads it
    ([raes_contracts/runtime_state.py]): the participant histories with their
    heads ([raes_runtime/control_plane_store_history.py]) and the autonomous
    scheduler states with the invariants that bind them to clocks and episodes
    ([raes_contracts/participant_autonomous_state.py] and its model in
    [raes_contracts/contracts/participant_runtime.py]). *)
From S2P Require Import Prelude.
From S2P Require Import Contracts.
From S2P Require Import Addressing.
From S2P Require Import Sha256.
From S2P Require Import TimeModel.
From Stdlib Require Import Ascii.
Local Open Scope string_scope.
Local Open Scope list_scope.
Local Open Scope Z_scope.

(** ** Autonomous scheduler states *)

Inductive AutonomousLifecycle : Type := auto_running | auto_paused | auto_completed | auto_failed.
#[export] Instance AutonomousLifecycle_eq_dec : EqDecision AutonomousLifecycle.
Proof. solve_decision. Defined.
Inductive AutonomousProfile : Type := execution_v1 | execution_v2 | execution_v3.
#[export] Instance AutonomousProfile_eq_dec : EqDecision AutonomousProfile.
Proof. solve_decision. Defined.
Inductive TimingDisposition : Type := timing_cadence | timing_drawn | timing_next_opening.
#[export] Instance TimingDisposition_eq_dec : EqDecision TimingDisposition.
Proof. solve_decision. Defined.

Record AutonomousExecutionState : Type := AutonomousState {
  au_policy_address : string;
  au_policy_digest : string;
  au_participant_address : string;
  au_episode_id : string;
  au_participant_implementation_ref : string;
  au_clock_address : string;
  au_time_segment : Z;
  au_lifecycle_state : AutonomousLifecycle;
  au_next_tick : Z;
  au_next_action_index : Z;
  au_attempted_actions : Z;
  au_succeeded_actions : Z;
  au_failed_actions : Z;
  au_in_flight : Z;
  au_last_action_instance_id : option string;
  au_profile : AutonomousProfile;
  au_occurrence_ordinal : Z;
  au_current_retry : Z;
  au_burst_position : Z;
  au_burst_size : Z;
  au_next_timing_disposition : TimingDisposition;
  au_last_candidate_id : option string;
  au_completed_candidate_ids : list string;
  au_candidate_cooldown_until : gmap string Z;
  au_random_control_id : option string;
  au_random_profile_id : option string;
  au_random_namespace : option string;
}.
#[export] Instance AutonomousExecutionState_eq_dec : EqDecision AutonomousExecutionState.
Proof. solve_decision. Defined.

(** The truth value of an optional string. *)
Definition truthy (s : option string) : bool := match s with Some s => nonempty s | None => false end.

(** [_validate_counters]. *)
Definition validate_counters (a : AutonomousExecutionState) : result unit :=
  _ ← raise_if (au_attempted_actions a <? au_succeeded_actions a + au_failed_actions a)
    (ValueError "terminal autonomous action counts cannot exceed attempted actions");
  let identity := [au_random_control_id a; au_random_profile_id a; au_random_namespace a] in
  _ ← (if decide (au_profile a = execution_v1) then
         raise_if (existsb truthy identity)
           (ValueError "v1 autonomous execution state cannot carry participant random-control identity")
       else
         raise_if (negb (forallb truthy identity))
           (ValueError "v2 autonomous execution state requires complete participant random-control identity"));
  _ ← raise_if (negb (py_unique (au_completed_candidate_ids a)))
    (ValueError "completed autonomous activity candidate ids must be unique");
  raise_if (au_attempted_actions a <? au_current_retry a)
    (ValueError "autonomous activity current_retry cannot exceed attempted actions").

Definition validate_autonomous_state (a : AutonomousExecutionState) : result AutonomousExecutionState :=
  _ ← require_fields
    [("policy_address", nonempty (au_policy_address a)); ("policy_digest", nonempty (au_policy_digest a));
     ("participant_address", nonempty (au_participant_address a)); ("episode_id", nonempty (au_episode_id a));
     ("participant_implementation_ref", nonempty (au_participant_implementation_ref a));
     ("clock_address", nonempty (au_clock_address a)); ("time_segment", at_least 0 (au_time_segment a));
     ("next_tick", at_least 0 (au_next_tick a)); ("next_action_index", at_least 0 (au_next_action_index a));
     ("attempted_actions", at_least 0 (au_attempted_actions a)); ("succeeded_actions", at_least 0 (au_succeeded_actions a));
     ("failed_actions", at_least 0 (au_failed_actions a)); ("in_flight", at_least 0 (au_in_flight a));
     ("occurrence_ordinal", at_least 0 (au_occurrence_ordinal a)); ("current_retry", at_least 0 (au_current_retry a));
     ("burst_position", at_least 0 (au_burst_position a)); ("burst_size", at_least 1 (au_burst_size a));
     ("completed_candidate_ids", forallb nonempty (au_completed_candidate_ids a));
     ("candidate_cooldown_until", bool_decide (au_candidate_cooldown_until a !! "" = None))];
  _ ← validate_counters a;
  Ok a.

Definition SNAPSHOT_FIELD : string := "runtime.snapshot.participant-autonomous-execution-states".

(** A violation is a locator and a message. *)
Definition violation : Type := string * string.
Definition violation_if (c : bool) (locator message : string) : list violation :=
  if c then [(locator, message)] else [].

Definition state_identity_violations (map_key : string) (a : AutonomousExecutionState) (locator : string) : list violation :=
  violation_if (bool_decide (map_key <> au_policy_address a +:+ ".state." +:+ au_participant_address a)) locator
    "autonomous participant state map key must equal the embedded policy and participant address" ++
  violation_if (negb (sha256_digest (au_policy_digest a))) (locator +:+ ".policy_digest")
    "autonomous participant policy_digest must be a canonical sha256 digest".

Definition state_address_violations (a : AutonomousExecutionState) (locator : string) : list violation :=
  flat_map (fun '(field_name, address) =>
      match require_compiled_address field_name address with
      | Raise (ValueError message) => [(locator +:+ "." +:+ field_name, message)]
      | _ => []
      end)
    [("policy_address", au_policy_address a); ("participant_address", au_participant_address a);
     ("participant_implementation_ref", au_participant_implementation_ref a); ("clock_address", au_clock_address a)].

Definition settled (a : AutonomousExecutionState) : bool :=
  bool_decide (au_lifecycle_state a ∈ [auto_completed; auto_failed]).

Definition state_accounting_violations (a : AutonomousExecutionState) (locator : string) : list violation :=
  violation_if
    (negb (au_succeeded_actions a + au_failed_actions a + au_in_flight a =? au_attempted_actions a)) locator
    "autonomous participant attempted_actions must equal succeeded_actions + failed_actions + in_flight" ++
  violation_if (settled a && negb (au_in_flight a =? 0)) locator
    "terminal autonomous participant state cannot retain in-flight actions".

(** [_validated_state]: the validated state, or what refuses it. *)
Definition validated_state (a : AutonomousExecutionState) : AutonomousExecutionState + string :=
  match validate_autonomous_state a with
  | Raise (ValueError message) => inr ("autonomous participant state is invalid: " +:+ message)
  | _ => inl a
  end.

Definition state_entry_violations (map_key : string) (a : AutonomousExecutionState) : list violation :=
  if bool_decide (map_key = "") then
    [(SNAPSHOT_FIELD, "autonomous participant state keys must be non-empty strings")]
  else
    let locator := SNAPSHOT_FIELD +:+ "." +:+ map_key in
    match validated_state a with
    | inr message => [(locator, message)]
    | inl a =>
        state_identity_violations map_key a locator ++ state_address_violations a locator
        ++ state_accounting_violations a locator
    end.

(** [participant_episode_results[address]], as far as it is read. *)
Record EpisodeResult (E : Type) : Type := Episode {
  ep_episode_id : option string;
  ep_participant_address : option string;
  ep_status : option string;
  ep_rest : E;
}.
Arguments Episode {E}.
Arguments ep_episode_id {E}.
Arguments ep_participant_address {E}.
Arguments ep_status {E}.
Arguments ep_rest {E}.
#[export] Instance EpisodeResult_eq_dec {E} `{EqDecision E} : EqDecision (EpisodeResult E).
Proof. solve_decision. Defined.

(** An event of a participant history: its [event_id], when that is a string,
    and its other items. *)
Record HistoryEvent (E : Type) : Type := Event { he_event_id : option string; he_rest : E }.
Arguments Event {E}.
Arguments he_event_id {E}.
Arguments he_rest {E}.
#[export] Instance HistoryEvent_eq_dec {E} `{EqDecision E} : EqDecision (HistoryEvent E).
Proof. solve_decision. Defined.

Section snapshot.
Context {E O : Type} `{EqDecision E, EqDecision O}.
(** [json.dumps(event, sort_keys=True, separators=(",", ":"), default=str)],
    for arbitrary event items. *)
Context (json_dumps : HistoryEvent E -> string).

Definition history : Type := gmap string (list (HistoryEvent E)).

Record RuntimeSnapshot : Type := Snapshot {
  participant_episode_history : history;
  participant_behavior_history : history;
  participant_control_history : history;
  participant_crossing_history : history;
  information_state_history : history;
  participant_autonomous_execution_states : dict string AutonomousExecutionState;
  participant_episode_results : gmap string (EpisodeResult E);
  time_model_state : option TimeRuntimeState;
  snapshot_other : O;
}.

Definition same_time_state (t1 t2 : option TimeRuntimeState) : bool :=
  match t1, t2 with
  | Some t1, Some t2 =>
      bool_decide (declaration_digest t1 = declaration_digest t2) && dict_same (state_clocks t1) (state_clocks t2)
  | None, None => true
  | _, _ => false
  end.

(** [snapshot == other]. *)
Definition same_snapshot (s1 s2 : RuntimeSnapshot) : bool :=
  bool_decide (participant_episode_history s1 = participant_episode_history s2)
  && bool_decide (participant_behavior_history s1 = participant_behavior_history s2)
  && bool_decide (participant_control_history s1 = participant_control_history s2)
  && bool_decide (participant_crossing_history s1 = participant_crossing_history s2)
  && bool_decide (information_state_history s1 = information_state_history s2)
  && dict_same (participant_autonomous_execution_states s1) (participant_autonomous_execution_states s2)
  && bool_decide (participant_episode_results s1 = participant_episode_results s2)
  && same_time_state (time_model_state s1) (time_model_state s2)
  && bool_decide (snapshot_other s1 = snapshot_other s2).

(** ** Cross-surface invariants *)

Definition clock_state_violations (a : AutonomousExecutionState) (locator : string)
    (clocks : dict string RuntimeClockState) : list violation :=
  match clocks !! au_clock_address a with
  | None => [(locator +:+ ".clock_address", "autonomous participant state requires matching shared-time state")]
  | Some clock =>
      violation_if (negb (au_time_segment a =? segment (cs_coordinate clock))) (locator +:+ ".time_segment")
        "autonomous participant time_segment must match the bound shared clock segment" ++
      violation_if
        (negb (settled a)
         && bool_decide (au_lifecycle_state a <> match cs_state clock with RUNNING => auto_running | PAUSED => auto_paused end))
        (locator +:+ ".lifecycle_state")
        "autonomous participant lifecycle must match the bound shared clock lifecycle"
  end.

Definition episode_state_violations (a : AutonomousExecutionState) (locator : string)
    (episodes : gmap string (EpisodeResult E)) : list violation :=
  match episodes !! au_participant_address a with
  | None => [(locator +:+ ".episode_id", "autonomous participant state requires matching participant episode state")]
  | Some episode =>
      violation_if (bool_decide (ep_episode_id episode <> Some (au_episode_id a))) (locator +:+ ".episode_id")
        "autonomous participant episode_id must match the live participant episode" ++
      violation_if (bool_decide (ep_participant_address episode <> Some (au_participant_address a)))
        (locator +:+ ".participant_address")
        "autonomous participant state must match the embedded episode participant" ++
      violation_if (bool_decide (ep_status episode = Some "terminated")) (locator +:+ ".episode_id")
        "autonomous participant state cannot reference a terminated episode"
  end.

Definition runtime_state_violations (map_key : string) (a : AutonomousExecutionState)
    (clocks : dict string RuntimeClockState) (episodes : gmap string (EpisodeResult E)) : list violation :=
  match validated_state a with
  | inr _ => []
  | inl a =>
      let locator := SNAPSHOT_FIELD +:+ "." +:+ map_key in
      clock_state_violations a locator clocks ++ episode_state_violations a locator episodes
  end.

Definition autonomous_state_snapshot_violations (states : dict string AutonomousExecutionState) : list violation :=
  flat_map (fun '(key, a) => state_entry_violations key a) (dict_items states).

(** The violations in the order the generators yield them. *)
Definition autonomous_runtime_snapshot_violations (s : RuntimeSnapshot) : list violation :=
  let states := participant_autonomous_execution_states s in
  let clocks := match time_model_state s with Some t => state_clocks t | None => Dict [] end in
  autonomous_state_snapshot_violations states ++
  flat_map (fun '(key, a) => runtime_state_violations key a clocks (participant_episode_results s)) (dict_items states).

Definition raise_first (violations : list violation) : result unit :=
  match violations with
  | [] => Ok tt
  | (address, message) :: _ => Raise (ValueError (address +:+ ": " +:+ message))
  end.

Definition require_participant_autonomous_state_snapshot (states : dict string AutonomousExecutionState) : result unit :=
  raise_first (autonomous_state_snapshot_violations states).

Definition require_participant_autonomous_runtime_snapshot (s : RuntimeSnapshot) : result unit :=
  raise_first (autonomous_runtime_snapshot_violations s).

(** ** History heads *)

Definition last_event (events : list (HistoryEvent E)) : option (HistoryEvent E) := List.last (Some <$> events) None.

Definition nonempty_id (e : HistoryEvent E) : option string :=
  match he_event_id e with Some id => if nonempty id then Some id else None | None => None end.

Definition require_expected_control_head (s : RuntimeSnapshot) (participant_address : string) (expected_head : option string)
    : result unit :=
  let current := last_event (default [] (participant_control_history s !! participant_address)) ≫= nonempty_id in
  raise_if (bool_decide (current <> expected_head))
    (ValueError "expected control history head does not match durable state").

(** [s.partition(":")]: the text before the first colon, and that after it,
    when there is one. *)
Fixpoint partition_colon (s : list ascii) : list ascii * option (list ascii) :=
  match s with
  | [] => ([], None)
  | c :: s => if Ascii.eqb c ":"%char then ([], Some s)
              else let '(before, after) := partition_colon s in (c :: before, after)
  end.

Definition history_named (s : RuntimeSnapshot) (name : string) : option history :=
  items_get name
    [("participant_episode_history", participant_episode_history s);
     ("participant_behavior_history", participant_behavior_history s);
     ("participant_control_history", participant_control_history s);
     ("participant_crossing_history", participant_crossing_history s);
     ("information_state_history", information_state_history s)].

Definition participant_history_head (s : RuntimeSnapshot) (history_key : string) : result (option string) :=
  let '(name, after) := partition_colon (chars history_key) in
  let participant_address := String.string_of_list_ascii (default [] after) in
  match history_named s (String.string_of_list_ascii name) with
  | Some h =>
      if nonempty participant_address then
        match last_event (default [] (h !! participant_address)) with
        | None => Ok None
        | Some e =>
            match nonempty_id e with
            | Some id => Ok (Some id)
            | None => Ok (Some ("sha256:" +:+ sha256_hex (json_dumps e)))
            end
        end
      else Raise (ValueError "participant transition history key is not supported")
  | None => Raise (ValueError "participant transition history key is not supported")
  end.

(** The expected heads, in the order of their dictionary. *)
Definition require_expected_history_heads (s : RuntimeSnapshot) (expected : dict string (option string)) : result unit :=
  mfold (fun _ '(history_key, expected_head) =>
    head ← participant_history_head s history_key;
    raise_if (bool_decide (head <> expected_head))
      (ValueError "expected participant history head does not match durable state")) tt (dict_items expected).
End snapshot.
Arguments RuntimeSnapshot : clear implicits.
Arguments Snapshot {E O}.
