(* ===== verification/StoreModel.v ===== *)
(** The control-plane store ([raes_runtime/control_plane_store.py], its
    revisions and the in-memory store of [control_plane_store_memory.py]):
    operation records with their identity and transition checks, audit events,
    and the operations that publish a record, its audit and a snapshot. *)
From S2P Require Import Prelude.
From S2P Require Import Stateful.
From S2P Require Import Contracts.
From S2P Require Import Diagnostics.
From S2P Require Import SnapshotModel.
From S2P Require Import OperationModel.
From Stdlib Require Import Ascii.
Local Open Scope string_scope.
Local Open Scope list_scope.

(** ** Revisions ([control_plane_store_revision.py]) *)

Definition MAX_SNAPSHOT_REVISION : Z := Z.shiftl 1 63 - 1.

Definition require_snapshot_revision (revision : Z) : result Z :=
  _ ← raise_if ((revision <? 0) || (MAX_SNAPSHOT_REVISION <? revision))%Z
    (ValueError "snapshot revision is outside the supported range");
  Ok revision.

Definition next_snapshot_revision (revision : Z) : result Z :=
  current ← require_snapshot_revision revision;
  _ ← raise_if (current =? MAX_SNAPSHOT_REVISION)%Z (ValueError "snapshot revision is outside the supported range");
  Ok (current + 1)%Z.

(** ** Audit events *)

Inductive AuditDetail : Type := DetailText (s : string) | DetailTexts (l : list string) | DetailFlag (b : bool).
#[export] Instance AuditDetail_eq_dec : EqDecision AuditDetail.
Proof. solve_decision. Defined.

Record AuditEvent : Type := Audit {
  ae_timestamp : string;
  ae_action : string;
  ae_identity : string;
  ae_allowed : bool;
  ae_target : string;
  ae_operation_id : string;
  ae_reason : string;
  ae_details : gmap string AuditDetail;
}.
#[export] Instance AuditEvent_eq_dec : EqDecision AuditEvent.
Proof. solve_decision. Defined.

(** ** Operation records. [P] is the type of result payloads. *)

Record ControlPlaneOperationRecord (P : Type) : Type := OperationRecord {
  receipt : OperationReceipt;
  status : OperationStatus;
  request_fingerprint : string;
  idempotency_key : string;
  result_payload : option P;
  decision_history_heads : gmap string (option string);
  result_history_heads : gmap string (option string);
}.
Arguments OperationRecord {P}.
Arguments receipt {P}.
Arguments status {P}.
Arguments request_fingerprint {P}.
Arguments idempotency_key {P}.
Arguments result_payload {P}.
Arguments decision_history_heads {P}.
Arguments result_history_heads {P}.
#[export] Instance ControlPlaneOperationRecord_eq_dec {P} `{EqDecision P} : EqDecision (ControlPlaneOperationRecord P).
Proof. solve_decision. Defined.

Inductive TerminalCommitMode : Type := SNAPSHOT_BEARING | OPERATION_ONLY.
#[export] Instance TerminalCommitMode_eq_dec : EqDecision TerminalCommitMode.
Proof. solve_decision. Defined.

Section records.
Context {P : Type} `{EqDecision P}.
Implicit Types r existing replacement record : ControlPlaneOperationRecord P.

Definition record_id (r : ControlPlaneOperationRecord P) : string := rc_operation_id (receipt r).

Definition require_operation_record_identity r : result unit :=
  _ ← raise_if (bool_decide (rc_operation_id (receipt r) <> st_operation_id (status r)))
    (ValueError "operation receipt and status identities do not match");
  _ ← raise_if (bool_decide (rc_domain (receipt r) <> st_domain (status r)))
    (ValueError "operation receipt and status domains do not match");
  _ ← raise_if (bool_decide (rc_submitted_at (receipt r) <> st_submitted_at (status r)))
    (ValueError "operation receipt and status submission times do not match");
  _ ← raise_if (bool_decide (rc_context (receipt r) <> st_context (status r)))
    (ValueError "operation receipt and status contexts do not match");
  raise_if (negb (rc_accepted (receipt r))) (ValueError "denied operation receipts cannot be persisted").

(** The constructor of a record. *)
Definition make_record r : result (ControlPlaneOperationRecord P) :=
  _ ← require_operation_record_identity r; Ok r.

Definition operation_identity r :=
  (st_schema_version (status r), st_operation_id (status r), st_domain (status r), st_submitted_at (status r),
   st_context (status r), idempotency_key r, request_fingerprint r).

(** The messages that the terminal transition recognises by their text. *)
Definition RECEIPT_IMMUTABLE : string := "operation receipt is immutable after its durable claim".
Definition IDENTITY_IMMUTABLE : string := "operation identity is immutable after its durable claim".

Definition require_same_operation_identity existing replacement : result unit :=
  _ ← require_operation_record_identity existing;
  _ ← require_operation_record_identity replacement;
  _ ← raise_if (bool_decide (receipt existing <> receipt replacement)) (ValueError RECEIPT_IMMUTABLE);
  raise_if (bool_decide (operation_identity existing <> operation_identity replacement)) (ValueError IDENTITY_IMMUTABLE).

Definition require_operation_record_transition (existing : option (ControlPlaneOperationRecord P)) replacement
    : result bool :=
  _ ← require_operation_record_identity replacement;
  match existing with
  | None =>
      _ ← raise_if (bool_decide (st_state (status replacement) ∉ [ACCEPTED; RUNNING]))
        (ValueError "new operation record requires an accepted or running status");
      Ok true
  | Some existing =>
      _ ← require_same_operation_identity existing replacement;
      if bool_decide (existing = replacement) then Ok false
      else
        let source := st_state (status existing) in
        let target := st_state (status replacement) in
        if is_operation_transition_allowed source target then Ok true
        else
          diagnostic ← operation_transition_diagnostic source target;
          Raise (ValueError (diag_code diagnostic +:+ ": " +:+ diag_message diagnostic))
  end.

(** [needle in haystack] on strings. *)
Fixpoint contains (needle haystack : list ascii) : bool :=
  bool_decide (take (length needle) haystack = needle)
  || match haystack with [] => false | _ :: haystack => contains needle haystack end.

Definition non_terminal r : bool := bool_decide (st_state (status r) ∈ [ACCEPTED; RUNNING]).

Definition require_terminal_operation_transition (existing : option (ControlPlaneOperationRecord P)) replacement
    : result bool :=
  _ ← raise_if (non_terminal replacement) (ValueError "terminal operation commit requires a terminal status");
  match require_operation_record_transition existing replacement with
  | Raise (ValueError message) =>
      if contains (chars "immutable") (chars message) then Raise (ValueError message)
      else
        match existing with
        | Some existing =>
            if non_terminal existing then Raise (ValueError message)
            else Raise (ValueError "a terminal operation record cannot be rewritten")
        | None => Raise (ValueError message)
        end
  | r => r
  end.

Definition terminal_operation_audit r : AuditEvent :=
  let context := st_context (status r) in
  let state := st_state (status r) in
  Audit (st_updated_at (status r)) (kind_value (operation_kind context) +:+ "_terminal") (actor_id context) true
    (target_scope context) (record_id r) ("operation-" +:+ state_value state)
    {[ "state" := DetailText (state_value state) ]}.

Definition require_terminal_operation_audit r (event : AuditEvent) : result unit :=
  raise_if (bool_decide (event <> terminal_operation_audit r))
    (ValueError "terminal audit does not match the immutable operation context").

Definition require_operation_audit_binding r (event : AuditEvent) : result unit :=
  raise_if (bool_decide (ae_operation_id event <> record_id r) || bool_decide (ae_identity event <> actor_id (st_context (status r)))
            || bool_decide (ae_timestamp event <> st_updated_at (status r)))
    (ValueError "operation audit is not actor-bound to the immutable operation context").

Definition require_terminal_retry_mode (current_revision expected_revision : Z) (mode : TerminalCommitMode) : result unit :=
  let committed := if decide (mode = SNAPSHOT_BEARING) then (expected_revision + 1)%Z else expected_revision in
  raise_if (negb (current_revision =? committed)%Z)
    (ValueError "terminal operation retry does not match the durable commit mode").
End records.

(** ** The in-memory store *)

Section store.
Context {E O P : Type} `{EqDecision E, EqDecision O, EqDecision P}.
Context (json_dumps : HistoryEvent E -> string).
Local Abbreviation record := (ControlPlaneOperationRecord P).

Record SnapshotState : Type := SnapshotCut { cut_snapshot : RuntimeSnapshot E O; cut_revision : Z }.

Definition make_snapshot_state (snapshot : RuntimeSnapshot E O) (revision : Z) : result SnapshotState :=
  _ ← require_snapshot_revision revision; Ok (SnapshotCut snapshot revision).

Record InMemoryControlPlaneStore : Type := MemoryStore {
  snapshot_state : SnapshotState;
  records : gmap string record;
  idempotency : gmap string string;
  audit : list AuditEvent;
}.
Local Abbreviation store := InMemoryControlPlaneStore.

(** [__init__]. *)
Definition new_store (snapshot : RuntimeSnapshot E O) : store := MemoryStore (SnapshotCut snapshot 0) ∅ ∅ [].

Definition load_snapshot_state : stateful store SnapshotState := s ← get_state; mret (snapshot_state s).
Definition load_snapshot : stateful store (RuntimeSnapshot E O) := state ← load_snapshot_state; mret (cut_snapshot state).
Definition load_records : stateful store (gmap string record) := s ← get_state; mret (records s).
Definition read_audit : stateful store (list AuditEvent) := s ← get_state; mret (audit s).

(** The assignments of the store's attributes. *)
Definition put_snapshot_state (c : SnapshotState) : stateful store unit :=
  set_state (fun s => MemoryStore c (records s) (idempotency s) (audit s)).
Definition put_record (r : record) : stateful store unit :=
  set_state (fun s => MemoryStore (snapshot_state s) (<[record_id r := r]> (records s)) (idempotency s) (audit s)).
Definition put_idempotency (m : gmap string string) : stateful store unit :=
  set_state (fun s => MemoryStore (snapshot_state s) (records s) m (audit s)).
Definition append_audit (event : AuditEvent) : stateful store unit :=
  set_state (fun s => MemoryStore (snapshot_state s) (records s) (idempotency s) (audit s ++ [event])).

Definition require_expected_revision (expected_revision : Z) : stateful store unit :=
  _ ← lift (require_snapshot_revision expected_revision);
  s ← get_state;
  lift (raise_if (negb (cut_revision (snapshot_state s) =? expected_revision)%Z) SnapshotRevisionConflict).

Definition next_cut (snapshot : RuntimeSnapshot E O) (expected_revision : Z) : result SnapshotState :=
  revision ← next_snapshot_revision expected_revision; make_snapshot_state snapshot revision.

Definition commit_snapshot (snapshot : RuntimeSnapshot E O) (expected_revision : Z) : stateful store SnapshotState :=
  _ ← require_expected_revision expected_revision;
  committed ← lift (next_cut snapshot expected_revision);
  _ ← put_snapshot_state committed;
  mret committed.

Definition save_snapshot (snapshot : RuntimeSnapshot E O) (expected_revision : Z) : stateful store SnapshotState :=
  _ ← lift (require_participant_autonomous_runtime_snapshot snapshot);
  commit_snapshot snapshot expected_revision.

Definition updated_idempotency (r : record) : stateful store (gmap string string) :=
  s ← get_state;
  if bool_decide (idempotency_key r = "") then mret (idempotency s)
  else
    match idempotency s !! idempotency_key r with
    | Some existing =>
        if bool_decide (existing <> record_id r) then
          lift (Raise (ValueError "idempotency key already belongs to another operation"))
        else mret (<[idempotency_key r := record_id r]> (idempotency s))
    | None => mret (<[idempotency_key r := record_id r]> (idempotency s))
    end.

(** [_save_record]. *)
Definition save_record (r : record) : stateful store unit :=
  s ← get_state;
  changed ← lift (require_operation_record_transition (records s !! record_id r) r);
  if negb changed then mret tt
  else
    m ← updated_idempotency r;
    _ ← put_idempotency m;
    put_record r.

Definition find_by_idempotency (key : string) : stateful store (option record) :=
  s ← get_state;
  mret (idempotency s !! key ≫= (fun operation_id => records s !! operation_id)).

Definition claim_record (r : record) : stateful store record :=
  existing ← (if bool_decide (idempotency_key r <> "") then find_by_idempotency (idempotency_key r) else mret None);
  match existing with
  | Some existing => mret existing
  | None => _ ← save_record r; mret r
  end.

(** [_validate_retry]: the durable state must be that of the first commit. *)
Definition validate_retry (snapshot : RuntimeSnapshot E O) (r : record) (event : AuditEvent) (mode : TerminalCommitMode)
    (expected_revision : Z) (label : string) : stateful store SnapshotState :=
  s ← get_state;
  _ ← lift (require_terminal_retry_mode (cut_revision (snapshot_state s)) expected_revision mode);
  _ ← lift (raise_if (negb (same_snapshot (cut_snapshot (snapshot_state s)) snapshot))
        (ValueError (label +:+ " retry does not match the durable snapshot")));
  let matching := base.filter (fun item => ae_operation_id item = record_id r /\ ae_action item = ae_action event) (audit s) in
  _ ← lift (raise_if (bool_decide (matching <> [event])) (ValueError (label +:+ " retry does not match the durable audit")));
  mret (snapshot_state s).

Definition terminal_snapshot (snapshot : RuntimeSnapshot E O) (mode : TerminalCommitMode) (expected_revision : Z)
    : stateful store SnapshotState :=
  match mode with
  | OPERATION_ONLY => load_snapshot_state
  | SNAPSHOT_BEARING => lift (next_cut snapshot expected_revision)
  end.

(** [_publish]: the idempotency map is computed, and may conflict, before the
    attributes are assigned. *)
Definition publish (r : record) (event : AuditEvent) (committed : SnapshotState) : stateful store unit :=
  m ← updated_idempotency r;
  _ ← put_snapshot_state committed;
  _ ← put_record r;
  _ ← put_idempotency m;
  append_audit event.

Definition commit_terminal_operation (snapshot : RuntimeSnapshot E O) (r : record) (audit_event : option AuditEvent)
    (mode : TerminalCommitMode) (expected_revision : Z) : stateful store SnapshotState :=
  _ ← lift (require_participant_autonomous_runtime_snapshot snapshot);
  let event := default (terminal_operation_audit r) audit_event in
  _ ← lift (require_terminal_operation_audit r event);
  s ← get_state;
  changed ← lift (require_terminal_operation_transition (records s !! record_id r) r);
  if negb changed then validate_retry snapshot r event mode expected_revision "terminal operation"
  else
    _ ← require_expected_revision expected_revision;
    _ ← lift (raise_if (bool_decide (mode = OPERATION_ONLY)
                        && negb (same_snapshot (cut_snapshot (snapshot_state s)) snapshot))
          (ValueError "operation-only terminal commit cannot change the durable snapshot"));
    committed ← terminal_snapshot snapshot mode expected_revision;
    _ ← publish r event committed;
    mret committed.

(** [_require_history_heads]. *)
Definition require_history_heads (expected_heads : dict string (option string)) (control_head : option (string * option string))
    : stateful store unit :=
  s ← get_state;
  lift (match control_head with
        | None => require_expected_history_heads json_dumps (cut_snapshot (snapshot_state s)) expected_heads
        | Some (participant_address, expected_head) =>
            require_expected_control_head (cut_snapshot (snapshot_state s)) participant_address expected_head
        end).

Definition commit_participant_transition (expected_heads : dict string (option string)) (expected_revision : Z)
    (snapshot : RuntimeSnapshot E O) (r : record) (audit_event : AuditEvent) (control_head : option (string * option string))
    : stateful store SnapshotState :=
  _ ← lift (require_participant_autonomous_runtime_snapshot snapshot);
  s ← get_state;
  let existing := records s !! record_id r in
  if bool_decide (existing = Some r) then
    _ ← lift (require_operation_audit_binding r audit_event);
    validate_retry snapshot r audit_event SNAPSHOT_BEARING expected_revision "participant transition"
  else
    _ ← require_expected_revision expected_revision;
    _ ← require_history_heads expected_heads control_head;
    _ ← lift (require_operation_record_transition existing r);
    _ ← lift (require_operation_audit_binding r audit_event);
    committed ← lift (next_cut snapshot expected_revision);
    _ ← publish r audit_event committed;
    mret committed.

Definition commit_control_transition (participant_address : string) (expected_head : option string) (expected_revision : Z)
    (snapshot : RuntimeSnapshot E O) (r : record) (audit_event : AuditEvent) : stateful store SnapshotState :=
  commit_participant_transition
    (Dict [("participant_control_history:" +:+ participant_address, expected_head)]) expected_revision snapshot r audit_event
    (Some (participant_address, expected_head)).
End store.
Arguments SnapshotState : clear implicits.
Arguments InMemoryControlPlaneStore : clear implicits.
