(* ===== verification/StoreFacts.v ===== *)
(** Facts about the in-memory store: what each operation leaves behind on
    every outcome, and the invariant of its records and index. *)
From S2P Require Import Prelude.
From S2P Require Import Stateful.
From S2P Require Import Contracts.
From S2P Require Import Diagnostics.
From S2P Require Import SnapshotModel.
From S2P Require Import OperationModel.
From S2P Require Import OperationFacts.
From S2P Require Import StoreModel.
Local Open Scope string_scope.
Local Open Scope list_scope.

Lemma and_iff_compat_l_impl (A B C : Prop) : (A -> (B <-> C)) -> (A /\ B <-> A /\ C).
Proof. tauto. Qed.

(** ** Identity of records *)

Section records.
Context {P : Type} `{EqDecision P}.
Implicit Types r : ControlPlaneOperationRecord P.

Definition identity_ok r : Prop :=
  rc_operation_id (receipt r) = st_operation_id (status r) /\ rc_domain (receipt r) = st_domain (status r) /\
  rc_submitted_at (receipt r) = st_submitted_at (status r) /\ rc_context (receipt r) = st_context (status r) /\
  rc_accepted (receipt r) = true.

Lemma identity_checks r : checks (require_operation_record_identity r) (identity_ok r) tt.
Proof.
  unfold require_operation_record_identity, identity_ok.
  repeat (apply checks_and; [eapply checks_iff; [|apply checks_raise_if]; by rewrite bool_decide_not_false|intros _]).
  eapply checks_iff; [|apply checks_raise_if]. apply negb_false_iff.
Qed.

(** Two records of one claimed operation. *)
Definition same_operation r r' : Prop := receipt r = receipt r' /\ operation_identity r = operation_identity r'.

Lemma same_identity_checks r r' :
  checks (require_same_operation_identity r r') (identity_ok r /\ identity_ok r' /\ same_operation r r') tt.
Proof.
  unfold require_same_operation_identity, same_operation.
  apply checks_and; [apply identity_checks|intros _]. apply checks_and; [apply identity_checks|intros _].
  apply checks_and; [eapply checks_iff; [|apply checks_raise_if]; by rewrite bool_decide_not_false|intros _].
  eapply checks_iff; [|apply checks_raise_if]. by rewrite bool_decide_not_false.
Qed.

Lemma same_operation_id r r' : same_operation r r' -> record_id r = record_id r' /\ idempotency_key r = idempotency_key r'.
Proof. unfold record_id, operation_identity. intros [-> H]. by simplify_eq. Qed.

(** The transition that creates, advances or repeats a record. *)
Inductive record_step : option (ControlPlaneOperationRecord P) -> ControlPlaneOperationRecord P -> Prop :=
| step_create r : identity_ok r -> st_state (status r) ∈ [ACCEPTED; RUNNING] -> record_step None r
| step_advance r r' :
    identity_ok r -> identity_ok r' -> same_operation r r' ->
    allowed (st_state (status r)) (st_state (status r')) -> record_step (Some r) r'.

Lemma allowed_irreflexive s : ~ allowed s s.
Proof. intros H%allowed_stage. lia. Qed.

Lemma record_transition_Ok existing r changed :
  require_operation_record_transition existing r = Ok changed <->
  (changed = true /\ record_step existing r) \/ (changed = false /\ existing = Some r /\ identity_ok r).
Proof.
  unfold require_operation_record_transition.
  destruct (identity_checks r) as [[Hr ->]|[Hr [msg ->]]]; cbn [mbind result_bind].
  2: { split; [done|]. intros [[_ H]|(_ & _ & ?)]; [by inversion H|done]. }
  destruct existing as [e|].
  - destruct (same_identity_checks e r) as [[(He & _ & Hs) ->]|[H [msg ->]]]; cbn [mbind result_bind].
    2: { split; [done|]. intros [[_ H']|(_ & [= ->] & _)]; [inversion H'; subst; tauto|destruct H; done]. }
    destruct (bool_decide_reflect (e = r)) as [-> |Hne].
    + split; [intros [= <-]; by right|]. intros [[_ H]|[-> _]]; [|done]. inversion H; subst. by apply allowed_irreflexive in H4.
    + destruct (is_operation_transition_allowed _ _) eqn:E.
      * split; [intros [= <-]; left; split; [done|by constructor]|]. intros [[-> _]|(_ & [= ->] & _)]; done.
      * unfold operation_transition_diagnostic. rewrite E. cbn. split; [done|].
        intros [[_ H]|(_ & [= ->] & _)]; [inversion H; subst; unfold allowed in *; congruence|done].
  - destruct (decide (st_state (status r) ∈ [ACCEPTED; RUNNING])) as [Hin|Hin].
    + rewrite (bool_decide_eq_false_2 (_ ∉ _)) by tauto. cbn. split; [intros [= <-]; left; split; [done|by constructor]|].
      intros [[-> _]|(_ & ? & _)]; done.
    + rewrite (bool_decide_eq_true_2 (_ ∉ _)) by done. cbn. split; [done|].
      intros [[_ H]|(_ & ? & _)]; [inversion H; subst; done|done].
Qed.

Lemma non_terminal_iff r : non_terminal r = negb (is_terminal (st_state (status r))).
Proof. unfold non_terminal. by destruct (st_state (status r)). Qed.

Lemma terminal_transition_Ok existing r changed :
  require_terminal_operation_transition existing r = Ok changed <->
  is_terminal (st_state (status r)) = true /\ require_operation_record_transition existing r = Ok changed.
Proof.
  unfold require_terminal_operation_transition. rewrite non_terminal_iff.
  destruct (is_terminal (st_state (status r))); cbn; [|naive_solver].
  destruct (require_operation_record_transition existing r) as [b|e]; [naive_solver|].
  destruct e; try naive_solver. destruct (contains _ _); [naive_solver|]. destruct existing; [|naive_solver].
  destruct (non_terminal c); naive_solver.
Qed.

(** A rewrite of a terminal record, or of a claimed identity, is refused as such. *)
Lemma terminal_transition_rewrite existing r :
  identity_ok existing -> identity_ok r -> same_operation existing r -> existing <> r ->
  is_terminal (st_state (status existing)) = true -> is_terminal (st_state (status r)) = true ->
  require_terminal_operation_transition (Some existing) r = Raise (ValueError "a terminal operation record cannot be rewritten").
Proof.
  intros He Hr Hs Hne Hte Htr. unfold require_terminal_operation_transition. rewrite (non_terminal_iff r), Htr. cbn [negb raise_if mbind result_bind].
  unfold require_operation_record_transition. rewrite (checks_Ok _ _ _ (identity_checks r) Hr). cbn [mbind result_bind].
  rewrite (checks_Ok _ _ _ (same_identity_checks existing r)) by done. cbn [mbind result_bind].
  rewrite bool_decide_eq_false_2 by done.
  destruct (is_operation_transition_allowed _ _) eqn:E; [by apply allowed_terminal in E|].
  unfold operation_transition_diagnostic. rewrite E. cbn [raise_if mbind result_bind diag_code diag_message].
  rewrite non_terminal_iff, Hte. reflexivity.
Qed.
End records.

(** ** Runs of the store's operations *)

Section store.
Context {E O P : Type} `{EqDecision E, EqDecision O, EqDecision P}.
Context (json_dumps : HistoryEvent E -> string).
Local Abbreviation record := (ControlPlaneOperationRecord P).
Local Abbreviation store := (InMemoryControlPlaneStore E O P).
Implicit Types (s : store) (r : record).

(** The record's key is unused, or its own. *)
Definition key_free s r : bool :=
  bool_decide (idempotency_key r = "") ||
  bool_decide (default (record_id r) (idempotency s !! idempotency_key r) = record_id r).

Definition index_insert r (m : gmap string string) : gmap string string :=
  if bool_decide (idempotency_key r = "") then m else <[idempotency_key r := record_id r]> m.

Definition KEY_CONFLICT : exn := ValueError "idempotency key already belongs to another operation".

Lemma updated_idempotency_run s r :
  updated_idempotency r s = (if key_free s r then Ok (index_insert r (idempotency s)) else Raise KEY_CONFLICT, s).
Proof.
  unfold updated_idempotency, key_free, index_insert. rewrite bind_run. cbn.
  destruct (bool_decide_reflect (idempotency_key r = "")); [done|].
  destruct (idempotency s !! idempotency_key r) as [id|]; cbn; [|by rewrite bool_decide_eq_true_2].
  destruct (decide (id = record_id r)) as [-> |Hne].
  - rewrite bool_decide_ne, bool_decide_eq_true_2 by done. done.
  - rewrite (bool_decide_eq_true_2 (id <> _)), bool_decide_eq_false_2 by done. done.
Qed.

(** The store after a record is saved, and after a commit is published. *)
Definition saved s r : store :=
  MemoryStore (snapshot_state s) (<[record_id r := r]> (records s)) (index_insert r (idempotency s)) (audit s).
Definition published s r (event : AuditEvent) (c : SnapshotState E O) : store :=
  MemoryStore c (<[record_id r := r]> (records s)) (index_insert r (idempotency s)) (audit s ++ [event]).

Lemma publish_run s r event c :
  publish r event c s = (if key_free s r then (Ok tt, published s r event c) else (Raise KEY_CONFLICT, s)).
Proof. unfold publish. rewrite bind_run, updated_idempotency_run. by destruct (key_free s r). Qed.

Lemma save_record_run s r :
  save_record r s =
  match require_operation_record_transition (records s !! record_id r) r with
  | Raise e => (Raise e, s)
  | Ok false => (Ok tt, s)
  | Ok true => if key_free s r then (Ok tt, saved s r) else (Raise KEY_CONFLICT, s)
  end.
Proof.
  unfold save_record. rewrite bind_run. cbn [get_state]. rewrite lift_run.
  destruct (require_operation_record_transition _ _) as [[]|]; cbn [negb]; [|done..].
  rewrite bind_run, updated_idempotency_run. by destruct (key_free s r).
Qed.

Lemma find_run s key :
  find_by_idempotency key s = (Ok (idempotency s !! key ≫= (fun id => records s !! id)), s).
Proof. done. Qed.

Lemma claim_record_run s r :
  claim_record r s =
  match (if bool_decide (idempotency_key r = "") then None
         else idempotency s !! idempotency_key r ≫= (fun id => records s !! id)) with
  | Some existing => (Ok existing, s)
  | None => match save_record r s with (Ok _, s') => (Ok r, s') | (Raise e, s') => (Raise e, s') end
  end.
Proof.
  unfold claim_record. rewrite bind_run.
  destruct (bool_decide_reflect (idempotency_key r = "")) as [He|He].
  - rewrite bool_decide_eq_false_2 by tauto. cbn. rewrite bind_run. by destruct (save_record r s) as [[]].
  - rewrite bool_decide_eq_true_2 by done. rewrite find_run. destruct (_ ≫= _); [done|].
    rewrite bind_run. by destruct (save_record r s) as [[]].
Qed.

(** The cut a snapshot-bearing commit at [revision] publishes. *)
Definition revision_ok (revision : Z) : Prop := (0 <= revision <= MAX_SNAPSHOT_REVISION)%Z.

Lemma revision_checks revision : checks (require_snapshot_revision revision) (revision_ok revision) revision.
Proof.
  unfold require_snapshot_revision, revision_ok. eapply checks_iff; [|apply checks_and; [apply checks_raise_if|intros _; apply checks_ret]].
  rewrite orb_false_iff, !Z.ltb_ge. tauto.
Qed.

Lemma next_cut_checks (snapshot : RuntimeSnapshot E O) revision :
  checks (next_cut snapshot revision) (0 <= revision < MAX_SNAPSHOT_REVISION)%Z (SnapshotCut snapshot (revision + 1)).
Proof.
  unfold next_cut, next_snapshot_revision, make_snapshot_state.
  destruct (revision_checks revision) as [[Hr ->]|[Hr [msg ->]]]; cbn [mbind result_bind].
  2: { right. unfold revision_ok in Hr. split; [lia|]. by eexists. }
  destruct (Z.eqb_spec revision MAX_SNAPSHOT_REVISION) as [-> |Hne]; cbn [raise_if mbind result_bind].
  { right. split; [lia|]. by eexists. }
  unfold revision_ok in Hr. destruct (revision_checks (revision + 1)) as [[Hr' ->]|[Hr' _]]; cbn [mbind result_bind].
  - left. split; [lia|done].
  - unfold revision_ok in Hr'. lia.
Qed.

Lemma expected_revision_run s revision :
  require_expected_revision revision s =
  (match require_snapshot_revision revision with
   | Raise e => Raise e
   | Ok _ => if (cut_revision (snapshot_state s) =? revision)%Z then Ok tt else Raise SnapshotRevisionConflict
   end, s).
Proof.
  unfold require_expected_revision. rewrite lift_run. destruct (require_snapshot_revision revision); [|done].
  rewrite bind_run. cbn. unfold lift. by destruct (_ =? _)%Z.
Qed.

Lemma expected_revision_Ok s revision s' u :
  require_expected_revision revision s = (Ok u, s') <->
  s' = s /\ revision_ok revision /\ cut_revision (snapshot_state s) = revision.
Proof.
  rewrite expected_revision_run. destruct (revision_checks revision) as [[Hr ->]|[Hr [msg ->]]]; [|naive_solver].
  destruct u. destruct (Z.eqb_spec (cut_revision (snapshot_state s)) revision); naive_solver.
Qed.

(** ** The invariant of records and index *)

Record store_wf (s : store) : Prop := {
  wf_record : forall id r, records s !! id = Some r -> record_id r = id /\ identity_ok r;
  wf_index : forall key id,
    idempotency s !! key = Some id <-> key <> "" /\ exists r, records s !! id = Some r /\ idempotency_key r = key;
  wf_revision : revision_ok (cut_revision (snapshot_state s));
}.

Lemma store_wf_new (snapshot : RuntimeSnapshot E O) : store_wf (new_store snapshot).
Proof.
  split; cbn.
  - intros id r H. by rewrite lookup_empty in H.
  - intros key id. rewrite lookup_empty. split; [done|]. intros (_ & r & Hr & _). by rewrite lookup_empty in Hr.
  - vm_compute. done.
Qed.

Lemma key_free_iff s r :
  store_wf s -> key_free s r = true <->
  (idempotency_key r <> "" -> forall id e, records s !! id = Some e -> idempotency_key e = idempotency_key r -> id = record_id r).
Proof.
  intros Hwf. unfold key_free. rewrite orb_true_iff, !bool_decide_eq_true. split.
  - intros [->|Hd] Hk id e He Hke; [done|]. assert (idempotency s !! idempotency_key r = Some id) as Hid.
    { apply (wf_index s Hwf). eauto. }
    rewrite Hid in Hd. done.
  - intros Hu. destruct (decide (idempotency_key r = "")) as [|Hk]; [by left|right].
    destruct (idempotency s !! idempotency_key r) as [id|] eqn:Eid; [|done]. cbn.
    apply (wf_index s Hwf) in Eid as (_ & e & He & Hke). by eapply Hu.
Qed.

(** A repeated operation keeps its own key. *)
Lemma key_free_step s r e :
  store_wf s -> records s !! record_id r = Some e -> same_operation e r -> key_free s r = true.
Proof.
  intros Hwf He Hs. apply same_operation_id in Hs as [_ Hk]. unfold key_free. rewrite orb_true_iff, !bool_decide_eq_true.
  destruct (decide (idempotency_key r = "")) as [|Hne]; [by left|right].
  assert (idempotency s !! idempotency_key r = Some (record_id r)) as -> by (apply (wf_index s Hwf); eauto). done.
Qed.

Lemma record_step_identity existing r : record_step existing r -> identity_ok r.
Proof. by destruct 1. Qed.

Lemma store_wf_insert s r c l :
  store_wf s -> record_step (records s !! record_id r) r -> key_free s r = true -> revision_ok (cut_revision c) ->
  store_wf (MemoryStore c (<[record_id r := r]> (records s)) (index_insert r (idempotency s)) l).
Proof.
  intros Hwf Hstep Hfree Hc. pose proof (proj1 (key_free_iff s r Hwf) Hfree) as Hu. split; cbn; [| |done].
  - intros id r' [[<- <-]|[Hne Hr']]%lookup_insert_Some; [split; [done|by eapply record_step_identity]|].
    by apply (wf_record s Hwf).
  - assert (forall e, records s !! record_id r = Some e -> idempotency_key e = idempotency_key r) as Hkey.
    { intros e He. rewrite He in Hstep. inversion Hstep; subst. by eapply same_operation_id. }
    intros key id. unfold index_insert. destruct (bool_decide_reflect (idempotency_key r = "")) as [He|He].
    + rewrite (wf_index s Hwf). apply and_iff_compat_l_impl. intros Hk. destruct (decide (id = record_id r)) as [-> |Hne].
      * rewrite lookup_insert_eq. split; intros (r' & Hr' & Hk'); exfalso; [|by simplify_eq; congruence].
        apply Hk. by rewrite <-Hk', (Hkey _ Hr').
      * by rewrite lookup_insert_ne by done.
    + destruct (decide (key = idempotency_key r)) as [-> |Hk].
      * rewrite lookup_insert_eq. split.
        -- intros [= <-]. split; [done|]. exists r. by rewrite lookup_insert_eq.
        -- intros (_ & r' & [[<- <-]|[Hne Hr']]%lookup_insert_Some & Hk'); [done|]. f_equal. symmetry. by eapply Hu.
      * rewrite lookup_insert_ne by done. rewrite (wf_index s Hwf). destruct (decide (id = record_id r)) as [-> |Hne].
        -- rewrite lookup_insert_eq. split; intros (Hn & r' & Hr' & Hk'); exfalso; [|by simplify_eq].
           apply Hk. by rewrite <-Hk', (Hkey _ Hr').
        -- by rewrite lookup_insert_ne by done.
Qed.

(** ** Commits *)

(** The durable state is what the first commit of [r] left. *)
Definition retry_matches s (snapshot : RuntimeSnapshot E O) r (event : AuditEvent) (mode : TerminalCommitMode) (revision : Z) : Prop :=
  cut_revision (snapshot_state s) = (if decide (mode = SNAPSHOT_BEARING) then revision + 1 else revision)%Z /\
  same_snapshot (cut_snapshot (snapshot_state s)) snapshot = true /\
  base.filter (fun item => ae_operation_id item = record_id r /\ ae_action item = ae_action event) (audit s) = [event].

Lemma validate_retry_Ok s snapshot r event mode revision label c s' :
  validate_retry snapshot r event mode revision label s = (Ok c, s') <->
  s' = s /\ c = snapshot_state s /\ retry_matches s snapshot r event mode revision.
Proof.
  unfold validate_retry, retry_matches. rewrite bind_run. cbn [get_state]. rewrite lift_run.
  unfold require_terminal_retry_mode. destruct (Z.eqb_spec (cut_revision (snapshot_state s))
    (if decide (mode = SNAPSHOT_BEARING) then revision + 1 else revision)%Z) as [->|]; cbn [negb raise_if]; [|naive_solver].
  rewrite lift_run. destruct (same_snapshot _ _); cbn [negb raise_if]; [|naive_solver].
  rewrite lift_run. case_bool_decide; cbn [raise_if]; unfold mret, stateful_ret; naive_solver.
Qed.

(** The cut that a first commit publishes. *)
Definition commit_cut s (snapshot : RuntimeSnapshot E O) (mode : TerminalCommitMode) (revision : Z) (c : SnapshotState E O) : Prop :=
  match mode with
  | OPERATION_ONLY => c = snapshot_state s /\ same_snapshot (cut_snapshot (snapshot_state s)) snapshot = true
  | SNAPSHOT_BEARING => c = SnapshotCut snapshot (revision + 1) /\ (revision < MAX_SNAPSHOT_REVISION)%Z
  end.

Definition snapshot_ok (snapshot : RuntimeSnapshot E O) : Prop := require_participant_autonomous_runtime_snapshot snapshot = Ok tt.

Lemma require_snapshot_cases (snapshot : RuntimeSnapshot E O) :
  snapshot_ok snapshot \/ exists message, require_participant_autonomous_runtime_snapshot snapshot = Raise (ValueError message).
Proof.
  unfold snapshot_ok, require_participant_autonomous_runtime_snapshot, raise_first.
  destruct (autonomous_runtime_snapshot_violations snapshot) as [|[a m] l]; [by left|right; by eexists].
Qed.

Lemma next_cut_run s (snapshot : RuntimeSnapshot E O) revision {A} (k : SnapshotState E O -> stateful store A) a s' :
  (lift (next_cut snapshot revision) ≫= k) s = (Ok a, s') <->
  (0 <= revision < MAX_SNAPSHOT_REVISION)%Z /\ k (SnapshotCut snapshot (revision + 1)) s = (Ok a, s').
Proof. rewrite lift_run. destruct (next_cut_checks snapshot revision) as [[H ->]|[H [msg ->]]]; naive_solver. Qed.

Lemma expected_revision_bind s revision {A} (k : unit -> stateful store A) a s' :
  (require_expected_revision revision ≫= k) s = (Ok a, s') <->
  (revision_ok revision /\ cut_revision (snapshot_state s) = revision) /\ k tt s = (Ok a, s').
Proof.
  rewrite bind_run. destruct (require_expected_revision revision s) as [[[]|e] s1] eqn:Er.
  - apply expected_revision_Ok in Er as (-> & ? & ?). naive_solver.
  - split; [done|]. intros [H' _]. assert (require_expected_revision revision s = (Ok tt, s)) as H1 by (apply expected_revision_Ok; tauto).
    by rewrite Er in H1.
Qed.

Lemma publish_bind s r event c {A} (k : unit -> stateful store A) a s' :
  (publish r event c ≫= k) s = (Ok a, s') <-> key_free s r = true /\ k tt (published s r event c) = (Ok a, s').
Proof. rewrite bind_run, publish_run. destruct (key_free s r); naive_solver. Qed.

Lemma lift_bind {A B} s (m : result A) (k : A -> stateful store B) b s' :
  (lift m ≫= k) s = (Ok b, s') <-> exists a, m = Ok a /\ k a s = (Ok b, s').
Proof. rewrite lift_run. destruct m; naive_solver. Qed.

Lemma raise_if_bind {B} s c e (k : unit -> stateful store B) b s' :
  (lift (raise_if c e) ≫= k) s = (Ok b, s') <-> c = false /\ k tt s = (Ok b, s').
Proof. rewrite lift_run. destruct c; naive_solver. Qed.

Lemma terminal_snapshot_bind s snapshot mode revision {A} (k : SnapshotState E O -> stateful store A) a s' :
  (0 <= revision)%Z ->
  bool_decide (mode = OPERATION_ONLY) && negb (same_snapshot (cut_snapshot (snapshot_state s)) snapshot) = false ->
  (terminal_snapshot snapshot mode revision ≫= k) s = (Ok a, s') <->
  exists c, commit_cut s snapshot mode revision c /\ k c s = (Ok a, s').
Proof.
  intros Hr Hm. unfold terminal_snapshot, commit_cut. destruct mode.
  - rewrite next_cut_run. naive_solver lia.
  - cbn in Hm. apply negb_false_iff in Hm. rewrite bind_run. cbn. naive_solver.
Qed.

Lemma commit_terminal_Ok s snapshot r audit_event mode revision c s' :
  commit_terminal_operation snapshot r audit_event mode revision s = (Ok c, s') <->
  snapshot_ok snapshot /\ default (terminal_operation_audit r) audit_event = terminal_operation_audit r /\
  is_terminal (st_state (status r)) = true /\
  ((records s !! record_id r = Some r /\ identity_ok r /\ s' = s /\ c = snapshot_state s /\
    retry_matches s snapshot r (terminal_operation_audit r) mode revision) \/
   (record_step (records s !! record_id r) r /\ key_free s r = true /\
    revision_ok revision /\ cut_revision (snapshot_state s) = revision /\ commit_cut s snapshot mode revision c /\
    s' = published s r (terminal_operation_audit r) c)).
Proof.
  unfold commit_terminal_operation. rewrite lift_bind. unfold require_terminal_operation_audit.
  split.
  - intros ([] & Hs & H). rewrite raise_if_bind in H. destruct H as [He H]. apply bool_decide_not_false in He.
    rewrite He in *. split; [done|]. split; [done|]. rewrite bind_run in H. cbn [get_state] in H.
    rewrite lift_bind in H. destruct H as (changed & Ht & H). apply terminal_transition_Ok in Ht as [Ht Hc]. split; [done|].
    apply record_transition_Ok in Hc as [[-> Hstep]|(-> & He' & Hid)]; cbn [negb] in H.
    + right. rewrite expected_revision_bind in H. destruct H as [[Hrev Hcut] H]. rewrite raise_if_bind in H. destruct H as [Hm H].
      rewrite terminal_snapshot_bind in H; [|by destruct Hrev|done]. destruct H as (c' & Hcc & H).
      rewrite publish_bind in H. destruct H as [Hkf [= -> <-]]. done.
    + left. apply validate_retry_Ok in H as (-> & -> & Hretry). done.
  - intros (Hs & He & Ht & H). exists tt. split; [done|]. rewrite raise_if_bind. split; [by rewrite He, bool_decide_ne|].
    rewrite bind_run. cbn [get_state]. rewrite lift_bind, He.
    destruct H as [(Hrec & Hid & -> & -> & Hretry)|(Hstep & Hkf & Hrev & Hcut & Hcc & ->)].
    + exists false. split; [apply terminal_transition_Ok; split; [done|]; apply record_transition_Ok; by right|]. cbn [negb].
      by apply validate_retry_Ok.
    + exists true. split; [apply terminal_transition_Ok; split; [done|]; apply record_transition_Ok; by left|]. cbn [negb].
      rewrite expected_revision_bind. split; [done|]. assert
        (bool_decide (mode = OPERATION_ONLY) && negb (same_snapshot (cut_snapshot (snapshot_state s)) snapshot) = false) as Hm.
      { unfold commit_cut in Hcc. destruct mode; [done|]. destruct Hcc as [_ ->]. done. }
      rewrite raise_if_bind. split; [done|]. rewrite terminal_snapshot_bind; [|by destruct Hrev|done].
      exists c. split; [done|]. rewrite publish_bind. done.
Qed.

Definition heads_ok s (expected_heads : dict string (option string)) (control_head : option (string * option string)) : Prop :=
  match control_head with
  | None => require_expected_history_heads json_dumps (cut_snapshot (snapshot_state s)) expected_heads = Ok tt
  | Some (participant_address, expected_head) =>
      require_expected_control_head (cut_snapshot (snapshot_state s)) participant_address expected_head = Ok tt
  end.

Definition audit_bound r (event : AuditEvent) : Prop :=
  ae_operation_id event = record_id r /\ ae_identity event = actor_id (st_context (status r)) /\
  ae_timestamp event = st_updated_at (status r).

Lemma audit_binding_checks r event : checks (require_operation_audit_binding r event) (audit_bound r event) tt.
Proof.
  unfold require_operation_audit_binding, audit_bound. eapply checks_iff; [|apply checks_raise_if].
  rewrite !orb_false_iff, !bool_decide_not_false. tauto.
Qed.

Lemma history_heads_bind s heads ch {A} (k : unit -> stateful store A) a s' :
  (require_history_heads json_dumps heads ch ≫= k) s = (Ok a, s') <-> heads_ok s heads ch /\ k tt s = (Ok a, s').
Proof.
  rewrite bind_run. unfold require_history_heads, heads_ok. rewrite bind_run. cbn [get_state]. unfold lift.
  destruct ch as [[pa h]|]; [destruct (require_expected_control_head _ _ _) as [[]|]
    |destruct (require_expected_history_heads _ _ _) as [[]|]]; naive_solver.
Qed.

Lemma commit_participant_Ok s heads revision snapshot r event ch c s' :
  commit_participant_transition json_dumps heads revision snapshot r event ch s = (Ok c, s') <->
  snapshot_ok snapshot /\ audit_bound r event /\
  ((records s !! record_id r = Some r /\ s' = s /\ c = snapshot_state s /\
    retry_matches s snapshot r event SNAPSHOT_BEARING revision) \/
   (records s !! record_id r <> Some r /\ record_step (records s !! record_id r) r /\ key_free s r = true /\
    revision_ok revision /\ cut_revision (snapshot_state s) = revision /\ heads_ok s heads ch /\
    commit_cut s snapshot SNAPSHOT_BEARING revision c /\ s' = published s r event c)).
Proof.
  unfold commit_participant_transition. rewrite lift_bind. split.
  - intros ([] & Hs & H). rewrite bind_run in H. cbn [get_state] in H. case_bool_decide as Hrec.
    + rewrite lift_bind in H. destruct H as ([] & Hb & H). destruct (audit_binding_checks r event) as [[? _]|[_ [? Hx]]]; [|congruence].
      apply validate_retry_Ok in H as (-> & -> & Hretry). naive_solver.
    + rewrite expected_revision_bind in H. destruct H as [[Hrev Hcut] H]. rewrite history_heads_bind in H. destruct H as [Hh H].
      rewrite lift_bind in H. destruct H as (changed & Htr & H). rewrite lift_bind in H. destruct H as ([] & Hb & H).
      destruct (audit_binding_checks r event) as [[Hbound _]|[_ [? Hx]]]; [|congruence].
      rewrite next_cut_run in H. destruct H as [Hrange H]. rewrite publish_bind in H. destruct H as [Hkf [= <- <-]].
      apply record_transition_Ok in Htr as [[-> Hstep]|(-> & ? & _)]; [|done].
      split_and!; [done..|]. right. split_and!; try done. cbn. split; [done|lia].
  - intros (Hs & Hb & H). exists tt. split; [done|]. rewrite bind_run. cbn [get_state].
    pose proof (checks_Ok _ _ _ (audit_binding_checks r event) Hb) as Hbind.
    destruct H as [(Hrec & -> & -> & Hretry)|(Hrec & Hstep & Hkf & Hrev & Hcut & Hh & [-> Hlt] & ->)].
    + rewrite bool_decide_eq_true_2 by done. rewrite lift_bind. exists tt. split; [done|]. by apply validate_retry_Ok.
    + rewrite bool_decide_eq_false_2 by done. rewrite expected_revision_bind. split; [done|].
      rewrite history_heads_bind. split; [done|]. rewrite lift_bind. exists true.
      split; [apply record_transition_Ok; by left|]. rewrite lift_bind. exists tt. split; [done|].
      rewrite next_cut_run. split; [by destruct Hrev|]. rewrite publish_bind. done.
Qed.
End store.
