(* ===== verification/StoreRun.v ===== *)
(** Runs of the store: every operation keeps the invariant, raises without
    effect, and moves each record along its lifecycle. *)
From S2P Require Import Prelude.
From S2P Require Import Stateful.
From S2P Require Import Contracts.
From S2P Require Import SnapshotModel.
From S2P Require Import OperationModel.
From S2P Require Import OperationFacts.
From S2P Require Import StoreModel.
From S2P Require Import StoreFacts.
Local Open Scope string_scope.
Local Open Scope list_scope.

Section store.
Context {E O P : Type} `{EqDecision E, EqDecision O, EqDecision P}.
Context (json_dumps : HistoryEvent E -> string).
Local Abbreviation record := (ControlPlaneOperationRecord P).
Local Abbreviation store := (InMemoryControlPlaneStore E O P).
Implicit Types (s : store) (r : record).

(** The calls that may change the store. *)
Inductive store_call : Type :=
| SaveSnapshot (snapshot : RuntimeSnapshot E O) (revision : Z)
| SaveRecord (r : record)
| ClaimRecord (r : record)
| CommitTerminal (snapshot : RuntimeSnapshot E O) (r : record) (event : option AuditEvent) (mode : TerminalCommitMode) (revision : Z)
| CommitParticipant (heads : dict string (option string)) (revision : Z) (snapshot : RuntimeSnapshot E O) (r : record)
    (event : AuditEvent)
| CommitControl (participant_address : string) (expected_head : option string) (revision : Z)
    (snapshot : RuntimeSnapshot E O) (r : record) (event : AuditEvent)
| AppendAudit (event : AuditEvent).

Definition ignore {A} (m : stateful store A) : stateful store unit := _ ← m; mret tt.

Definition run_call (call : store_call) : stateful store unit :=
  match call with
  | SaveSnapshot snapshot revision => ignore (save_snapshot snapshot revision)
  | SaveRecord r => save_record r
  | ClaimRecord r => ignore (claim_record r)
  | CommitTerminal snapshot r event mode revision => ignore (commit_terminal_operation snapshot r event mode revision)
  | CommitParticipant heads revision snapshot r event =>
      ignore (commit_participant_transition json_dumps heads revision snapshot r event None)
  | CommitControl pa head revision snapshot r event =>
      ignore (commit_control_transition json_dumps pa head revision snapshot r event)
  | AppendAudit event => append_audit event
  end.

(** One call, whatever its outcome. *)
Definition store_step (s s' : store) : Prop := exists call, (run_call call s).2 = s'.

(** ** A call that raises has no effect *)

Lemma reads_updated_idempotency r : reads (updated_idempotency r : stateful store _).
Proof. intros s. by rewrite updated_idempotency_run. Qed.
Lemma reads_expected_revision revision : reads (require_expected_revision revision : stateful store _).
Proof. intros s. by rewrite expected_revision_run. Qed.
Lemma reads_history_heads heads ch : reads (require_history_heads json_dumps heads ch : stateful store _).
Proof. unfold require_history_heads. eauto with raes. Qed.
Lemma atomic_publish r event c : atomic (publish r event c : stateful store _).
Proof. intros s e s'. rewrite publish_run. destruct (key_free s r); naive_solver. Qed.
Lemma reads_validate_retry snapshot r event mode revision label :
  reads (validate_retry snapshot r event mode revision label : stateful store _).
Proof. unfold validate_retry. repeat (apply reads_bind; [solve [eauto with raes]|intros ?]). done. Qed.
Lemma reads_terminal_snapshot (snapshot : RuntimeSnapshot E O) mode revision :
  reads (terminal_snapshot snapshot mode revision : stateful store _).
Proof. destruct mode; [apply reads_lift|]. unfold terminal_snapshot, load_snapshot_state. apply reads_bind; [apply reads_get|done]. Qed.

Hint Resolve reads_updated_idempotency reads_expected_revision reads_history_heads reads_validate_retry
  reads_terminal_snapshot : raes.

Lemma atomic_ignore {A} (m : stateful store A) : atomic m -> atomic (ignore m).
Proof. intros Hm. apply atomic_bind_total; [done|]. eauto with raes. Qed.

Lemma atomic_save_record r : atomic (save_record r : stateful store _).
Proof.
  intros s e s'. rewrite save_record_run. destruct (require_operation_record_transition _ _) as [[]|]; [|naive_solver..].
  destruct (key_free s r); naive_solver.
Qed.

Lemma atomic_call call : atomic (run_call call).
Proof.
  assert (forall r event c, atomic (publish r event c ≫= (fun _ => mret c) : stateful store (SnapshotState E O))) as Hpub.
  { intros. apply atomic_bind_total; [apply atomic_publish|eauto with raes]. }
  destruct call; cbn [run_call]; try apply atomic_ignore.
  - unfold save_snapshot, commit_snapshot. repeat (apply atomic_bind_reads; [solve [eauto with raes]|intros ?]).
    apply total_atomic. apply total_bind; [apply total_set|eauto with raes].
  - apply atomic_save_record.
  - intros s e s'. rewrite claim_record_run. destruct (if bool_decide _ then None else _); [naive_solver|].
    destruct (save_record r s) as [[]] eqn:E1; [naive_solver|]. intros [= <- <-]. by eapply atomic_save_record.
  - unfold commit_terminal_operation. repeat (apply atomic_bind_reads; [solve [eauto with raes]|intros ?]).
    destruct (negb a2); [eauto with raes|]. repeat (apply atomic_bind_reads; [solve [eauto with raes]|intros ?]). apply Hpub.
  - unfold commit_participant_transition. repeat (apply atomic_bind_reads; [solve [eauto with raes]|intros ?]).
    case_bool_decide; repeat (apply atomic_bind_reads; [solve [eauto with raes]|intros ?]); [eauto with raes|apply Hpub].
  - unfold commit_control_transition, commit_participant_transition. repeat (apply atomic_bind_reads; [solve [eauto with raes]|intros ?]).
    case_bool_decide; repeat (apply atomic_bind_reads; [solve [eauto with raes]|intros ?]); [eauto with raes|apply Hpub].
  - apply total_atomic, total_set.
Qed.

(** ** What one call changes *)

Definition revision_of s : Z := cut_revision (snapshot_state s).

(** The cut a call may publish: the durable one, or its successor. *)
Definition next_state s (c : SnapshotState E O) : Prop :=
  c = snapshot_state s \/
  exists snapshot, snapshot_ok snapshot /\ (revision_of s < MAX_SNAPSHOT_REVISION)%Z /\
    c = SnapshotCut snapshot (revision_of s + 1).

Inductive store_change s : store -> Prop :=
| change_none : store_change s s
| change_audit event :
    store_change s (MemoryStore (snapshot_state s) (records s) (idempotency s) (audit s ++ [event]))
| change_snapshot c :
    next_state s c -> store_change s (MemoryStore c (records s) (idempotency s) (audit s))
| change_saved r :
    record_step (records s !! record_id r) r -> key_free s r = true -> store_change s (saved s r)
| change_published r event c :
    record_step (records s !! record_id r) r -> key_free s r = true -> audit_bound r event -> next_state s c ->
    store_change s (published s r event c).

Lemma terminal_audit_bound r : audit_bound r (terminal_operation_audit r).
Proof. done. Qed.

Lemma commit_cut_next s snapshot mode c :
  snapshot_ok snapshot -> commit_cut s snapshot mode (revision_of s) c -> next_state s c.
Proof. unfold commit_cut, next_state. destruct mode; naive_solver. Qed.

Lemma save_record_change s r o s' : save_record r s = (o, s') -> store_change s s'.
Proof.
  rewrite save_record_run. destruct (require_operation_record_transition _ _) as [[]|e] eqn:Et;
    [|intros [= _ <-]; constructor..].
  apply record_transition_Ok in Et as [[_ Hstep]|[? _]]; [|done].
  destruct (key_free s r) eqn:Ek; intros [= _ <-]; by constructor.
Qed.

Lemma commit_participant_change s heads revision snapshot r event ch c s' :
  commit_participant_transition json_dumps heads revision snapshot r event ch s = (Ok c, s') -> store_change s s'.
Proof.
  intros (Hs & Hb & [(_ & -> & _)|(_ & Hstep & Hkf & _ & Hcut & _ & Hcc & ->)])%commit_participant_Ok; [constructor|].
  apply change_published; [done..|]. eapply commit_cut_next; [done|]. unfold revision_of. by rewrite Hcut.
Qed.

Lemma ignore_Ok {A} (m : stateful store A) s u s' : ignore m s = (Ok u, s') -> exists a, m s = (Ok a, s').
Proof. unfold ignore. rewrite bind_run. destruct (m s) as [[a|] s1]; [intros [= _ <-]; by exists a|done]. Qed.

(** A call that returns changes the store in one of these ways. *)
Lemma call_change s call u s' : run_call call s = (Ok u, s') -> store_change s s'.
Proof.
  destruct call; cbn [run_call]; intros Hrun; [apply ignore_Ok in Hrun as [a Hrun]| |apply ignore_Ok in Hrun as [a Hrun]..|].
  - unfold save_snapshot, commit_snapshot in Hrun. rewrite lift_bind in Hrun. destruct Hrun as ([] & Hs & Hrun).
    rewrite expected_revision_bind in Hrun. destruct Hrun as [[_ Hcut] Hrun]. rewrite next_cut_run in Hrun.
    destruct Hrun as [Hr [= _ <-]]. apply change_snapshot. right. exists snapshot. unfold revision_of.
    rewrite Hcut. split_and!; [done|lia|done].
  - by eapply save_record_change.
  - rewrite claim_record_run in Hrun. destruct (if bool_decide _ then None else _); [injection Hrun as _ <-; constructor|].
    destruct (save_record r s) as [[] s1] eqn:Es; [|done]. injection Hrun as _ <-. by eapply save_record_change.
  - apply commit_terminal_Ok in Hrun as (Hs & _ & _ & [(_ & _ & -> & _)|(Hstep & Hkf & _ & Hcut & Hcc & ->)]); [constructor|].
    apply change_published; [done..|apply terminal_audit_bound|]. eapply commit_cut_next; [done|]. unfold revision_of. by rewrite Hcut.
  - by eapply commit_participant_change.
  - by eapply commit_participant_change.
  - injection Hrun as _ <-. constructor.
Qed.

Lemma step_change s s' : store_step s s' -> store_change s s'.
Proof.
  intros [call <-]. destruct (run_call call s) as [[u|e] s1] eqn:Er; cbn.
  - by eapply call_change.
  - apply atomic_call in Er as ->. constructor.
Qed.

Lemma next_state_revision s c : revision_ok (revision_of s) -> next_state s c ->
  revision_ok (cut_revision c) /\ (revision_of s <= cut_revision c <= revision_of s + 1)%Z.
Proof.
  unfold revision_ok. intros Hr [->|(snapshot & _ & Hlt & ->)]; cbn; unfold revision_of in *; lia.
Qed.

Lemma store_change_wf s s' : store_wf s -> store_change s s' -> store_wf s'.
Proof.
  intros Hwf. destruct 1 as [|event|c Hc|r Hstep Hkf|r event c Hstep Hkf _ Hc]; [done|by destruct Hwf| | |].
  - destruct (next_state_revision s c) as [? _]; [apply Hwf|done|]. by destruct Hwf.
  - apply store_wf_insert; [done..|apply Hwf].
  - apply store_wf_insert; [done..|]. by apply (next_state_revision s c); [apply Hwf|].
Qed.

(** ** Lifecycles *)

(** A later record of the same operation, further along its lifecycle. *)
Definition record_evolves r r' : Prop :=
  r' = r \/ same_operation r r' /\ tc allowed (st_state (status r)) (st_state (status r')).

(** Where an operation stands when it is first seen. *)
Definition record_from_start r : Prop :=
  exists start, start ∈ [ACCEPTED; RUNNING] /\ rtc allowed start (st_state (status r)).

Record store_evolves s s' : Prop := {
  evolves_record : forall id r, records s !! id = Some r -> exists r', records s' !! id = Some r' /\ record_evolves r r';
  evolves_revision : (revision_of s <= revision_of s')%Z;
  evolves_snapshot : revision_of s = revision_of s' -> snapshot_state s = snapshot_state s';
  evolves_audit : audit s `prefix_of` audit s';
}.

Lemma same_operation_trans r1 r2 r3 : same_operation r1 r2 -> same_operation r2 r3 -> same_operation r1 r3.
Proof. unfold same_operation. intros [-> ->]. done. Qed.

Lemma record_evolves_trans r1 r2 r3 : record_evolves r1 r2 -> record_evolves r2 r3 -> record_evolves r1 r3.
Proof.
  intros [->|[Hs Ht]] [->|[Hs' Ht']]; [by left|by right..|]. right.
  split; [by eapply same_operation_trans|by etrans].
Qed.

#[local] Instance store_evolves_refl : Reflexive store_evolves.
Proof. intros s. split; [|done..]. intros id r Hr. exists r. split; [done|by left]. Qed.

#[local] Instance store_evolves_trans : Transitive store_evolves.
Proof.
  intros s1 s2 s3 H12 H23. split.
  - intros id r Hr. destruct (evolves_record _ _ H12 _ _ Hr) as (r' & Hr' & He).
    destruct (evolves_record _ _ H23 _ _ Hr') as (r'' & Hr'' & He'). exists r''. split; [done|]. by eapply record_evolves_trans.
  - etrans; [apply H12|apply H23].
  - intros Heq. pose proof (evolves_revision _ _ H12). pose proof (evolves_revision _ _ H23).
    rewrite (evolves_snapshot _ _ H12) by lia. apply H23. lia.
  - etrans; [apply H12|apply H23].
Qed.

Lemma evolves_insert s r c l :
  record_step (records s !! record_id r) r -> next_state s c -> audit s `prefix_of` l ->
  store_evolves s (MemoryStore c (<[record_id r := r]> (records s)) (index_insert r (idempotency s)) l).
Proof.
  intros Hstep Hc Hl. split; unfold revision_of; cbn.
  - intros id r0 Hr0. destruct (decide (id = record_id r)) as [-> |Hne].
    + exists r. rewrite lookup_insert_eq. split; [done|]. rewrite Hr0 in Hstep. inversion Hstep; subst.
      right. split; [done|by apply tc_once].
    + exists r0. rewrite lookup_insert_ne by done. split; [done|by left].
  - destruct Hc as [->|(? & _ & _ & ->)]; cbn; unfold revision_of; lia.
  - destruct Hc as [->|(? & _ & _ & ->)]; cbn; unfold revision_of; [done|lia].
  - done.
Qed.

Lemma store_change_evolves s s' : store_change s s' -> store_evolves s s'.
Proof.
  destruct 1 as [|event|c Hc|r Hstep Hkf|r event c Hstep Hkf _ Hc].
  - done.
  - split; [|done..|]; cbn.
    + intros id r Hr. exists r. split; [done|by left].
    + by apply prefix_app_r.
  - split; unfold revision_of; cbn; [| | |done].
    + intros id r Hr. exists r. split; [done|by left].
    + destruct Hc as [->|(? & _ & _ & ->)]; cbn; unfold revision_of; lia.
    + destruct Hc as [->|(? & _ & _ & ->)]; cbn; unfold revision_of; [done|lia].
  - apply evolves_insert; [done|by left|done].
  - apply evolves_insert; [done..|]. by apply prefix_app_r.
Qed.

Definition records_from_start s : Prop := forall id r, records s !! id = Some r -> record_from_start r.

Lemma record_step_from_start s r :
  records_from_start s -> record_step (records s !! record_id r) r -> record_from_start r.
Proof.
  intros Hs Hstep. remember (records s !! record_id r) as existing eqn:Ex. destruct Hstep as [r _ Hin|r0 r _ _ _ Hall].
  - exists (st_state (status r)). split; [done|constructor].
  - destruct (Hs _ _ (eq_sym Ex)) as (s0 & Hin & Hrtc). exists s0. split; [done|]. by eapply rtc_r.
Qed.

Lemma store_change_from_start s s' : records_from_start s -> store_change s s' -> records_from_start s'.
Proof.
  intros Hs. destruct 1 as [|event|c Hc|r Hstep Hkf|r event c Hstep Hkf _ Hc]; [done..| |];
    intros id r'; cbn; intros [[<- <-]|[_ Hr']]%lookup_insert_Some; eauto using record_step_from_start.
Qed.

Lemma store_runs snapshot s : rtc store_step (new_store snapshot) s -> store_wf s /\ records_from_start s.
Proof.
  apply (rtc_ind_r (fun s => store_wf s /\ records_from_start s)).
  - split; [apply store_wf_new|]. intros id r Hr. cbn in Hr. by rewrite lookup_empty in Hr.
  - intros s1 s2 _ Hstep%step_change [Hwf Hs]. split; [by eapply store_change_wf|by eapply store_change_from_start].
Qed.

Lemma store_steps_wf s s' : rtc store_step s s' -> store_wf s -> store_wf s'.
Proof.
  induction 1 as [|s1 s2 s3 Hstep _ IH]; [done|]. intros Hwf. apply IH. eapply store_change_wf; [done|]. by apply step_change.
Qed.

Lemma store_runs_evolve s s' : rtc store_step s s' -> store_evolves s s'.
Proof.
  induction 1 as [|s1 s2 s3 Hstep _ IH]; [done|]. etrans; [|exact IH]. by apply store_change_evolves, step_change.
Qed.

(** Terminal records never change. *)
Lemma record_evolves_terminal r r' : is_terminal (st_state (status r)) = true -> record_evolves r r' -> r' = r.
Proof.
  intros Ht [->|[_ Htc]]; [done|]. exfalso. assert (exists b, allowed (st_state (status r)) b) as [b Hb].
  { destruct Htc; eauto. }
  by eapply allowed_terminal.
Qed.
End store.
