(* ===== verification/ControlPlane.v ===== *)
(** The durable core of the runtime control plane: its caches over a store
    ([raes_runtime/control_plane_durability.py]), admission and idempotency
    ([control_plane_admission.py]), and the execution of operations against a
    backend ([control_plane_execution.py]). The store is reached through the
    protocol of [control_plane_store.py], a class here; the backend through the
    boundary of [backend_calls.py], another. *)
From S2P Require Import Prelude.
From S2P Require Import Stateful.
From S2P Require Import Contracts.
From S2P Require Import Diagnostics.
From S2P Require Import SnapshotModel.
From S2P Require Import OperationModel.
From S2P Require Import StoreModel.
Local Open Scope string_scope.
Local Open Scope list_scope.

(** ** Interfaces *)

(** The protocols [ControlPlaneStore] and [AtomicControlPlaneStore]; every
    call may raise, before or after it takes effect. *)
Class ControlPlaneStore (E O P S : Type) : Type := {
  cps_load_snapshot_state : stateful S (SnapshotState E O);
  cps_load_records : stateful S (gmap string (ControlPlaneOperationRecord P));
  cps_read_audit : stateful S (list AuditEvent);
  cps_find_by_idempotency : string -> stateful S (option (ControlPlaneOperationRecord P));
  cps_append_audit : AuditEvent -> stateful S unit;
  cps_claim_record : ControlPlaneOperationRecord P -> stateful S (ControlPlaneOperationRecord P);
  cps_commit_terminal_operation :
    RuntimeSnapshot E O -> ControlPlaneOperationRecord P -> option AuditEvent -> TerminalCommitMode -> Z ->
    stateful S (SnapshotState E O);
  cps_commit_participant_transition :
    dict string (option string) -> Z -> RuntimeSnapshot E O -> ControlPlaneOperationRecord P -> AuditEvent ->
    stateful S (SnapshotState E O);
  cps_commit_control_transition :
    string -> option string -> Z -> RuntimeSnapshot E O -> ControlPlaneOperationRecord P -> AuditEvent ->
    stateful S (SnapshotState E O);
}.

#[export] Instance memory_control_plane_store {E O P} `{EqDecision E, EqDecision O, EqDecision P}
    (json_dumps : HistoryEvent E -> string) : ControlPlaneStore E O P (InMemoryControlPlaneStore E O P) := {|
  cps_load_snapshot_state := load_snapshot_state;
  cps_load_records := load_records;
  cps_read_audit := read_audit;
  cps_find_by_idempotency := find_by_idempotency;
  cps_append_audit := append_audit;
  cps_claim_record := claim_record;
  cps_commit_terminal_operation := commit_terminal_operation;
  cps_commit_participant_transition heads revision snapshot r event :=
    commit_participant_transition json_dumps heads revision snapshot r event None;
  cps_commit_control_transition := commit_control_transition json_dumps;
|}.

(** [ApplyResult], as far as the control plane reads it. *)
Record ApplyResult (E O : Type) : Type := Applied {
  ar_success : bool;
  ar_snapshot : RuntimeSnapshot E O;
  ar_diagnostics : list Diagnostic;
  ar_changed_addresses : list string;
}.
Arguments Applied {E O}.
Arguments ar_success {E O}.
Arguments ar_snapshot {E O}.
Arguments ar_diagnostics {E O}.
Arguments ar_changed_addresses {E O}.

(** The guarded calls of a backend whose own state is [W]: a validation
    reports diagnostics, an application a result and, when the plan demands
    observations, their payload. *)
Class Backend (E O P Plan W : Type) : Type := {
  call_backend_diagnostics : Plan -> stateful W (list Diagnostic);
  call_backend_apply_with_observation : Plan -> RuntimeSnapshot E O -> string -> stateful W (ApplyResult E O * option P);
}.

Section control_plane.
Context {E O P Plan S W : Type} `{EqDecision E, EqDecision O, EqDecision P}.
Context `{!ControlPlaneStore E O P S, !Backend E O P Plan W}.
Local Abbreviation record := (ControlPlaneOperationRecord P).

(** The attributes of [RuntimeControlPlane] that these components keep, its
    store, and its target. *)
Record RuntimeControlPlane : Type := ControlPlane {
  cp_store : S;
  cp_target : W;
  cp_snapshot_state : SnapshotState E O;
  cp_operations : gmap string record;
  cp_projection_depth : nat;
  cp_durability_poisoned : bool;
  cp_closed : bool;
  cp_fingerprints : gmap string string;
}.
Local Abbreviation M := (stateful RuntimeControlPlane).

Definition on_store {A} (m : stateful S A) : M A :=
  zoom cp_store (fun store c => ControlPlane store (cp_target c) (cp_snapshot_state c) (cp_operations c)
    (cp_projection_depth c) (cp_durability_poisoned c) (cp_closed c) (cp_fingerprints c)) m.
Definition on_target {A} (m : stateful W A) : M A :=
  zoom cp_target (fun target c => ControlPlane (cp_store c) target (cp_snapshot_state c) (cp_operations c)
    (cp_projection_depth c) (cp_durability_poisoned c) (cp_closed c) (cp_fingerprints c)) m.

(** The assignment of the two derived caches. *)
Definition set_caches (cut : SnapshotState E O) (operations : gmap string record) : M unit :=
  set_state (fun c => ControlPlane (cp_store c) (cp_target c) cut operations
    (cp_projection_depth c) (cp_durability_poisoned c) (cp_closed c) (cp_fingerprints c)).
Definition cache_operation (r : record) : M unit :=
  set_state (fun c => ControlPlane (cp_store c) (cp_target c) (cp_snapshot_state c) (<[record_id r := r]> (cp_operations c))
    (cp_projection_depth c) (cp_durability_poisoned c) (cp_closed c) (cp_fingerprints c)).
Definition remember_fingerprint (key fingerprint : string) : M unit :=
  set_state (fun c => ControlPlane (cp_store c) (cp_target c) (cp_snapshot_state c) (cp_operations c)
    (cp_projection_depth c) (cp_durability_poisoned c) (cp_closed c) (<[key := fingerprint]> (cp_fingerprints c))).

(** [_poison_runtime_durability]. *)
Definition poison_runtime_durability : M unit :=
  set_state (fun c => ControlPlane (cp_store c) (cp_target c) (cp_snapshot_state c) (cp_operations c)
    (cp_projection_depth c) true (cp_closed c) (cp_fingerprints c)).

(** [_assert_runtime_owner], for a store without a process lease. *)
Definition assert_runtime_owner : M unit :=
  c ← get_state; lift (raise_if (cp_closed c) (RuntimeError "runtime control plane is closed")).

Definition POISONED : exn :=
  RuntimeError "runtime control plane requires restart after a durability reconciliation failure".

Definition require_not_poisoned : M unit :=
  c ← get_state; lift (raise_if (cp_durability_poisoned c) POISONED).

(** ** Durability *)

Definition reload_derived_state : M unit :=
  cut ← on_store cps_load_snapshot_state;
  operations ← on_store cps_load_records;
  set_caches cut operations.

Definition reload_derived_state_if_unpinned : M unit :=
  c ← get_state; if Nat.eqb (cp_projection_depth c) 0 then reload_derived_state else mret tt.

Definition publish_committed_state (committed : SnapshotState E O) : M unit :=
  operations ← on_store cps_load_records;
  set_caches committed operations.

(** The body of the [try] of [_resynchronize_after_store_error]. *)
Definition read_back (operation_id : string) (expected_audit : AuditEvent) (require_terminal_cut : bool)
    : M (SnapshotState E O * gmap string record) :=
  cut ← on_store cps_load_snapshot_state;
  operations ← on_store cps_load_records;
  let non_terminal := match operations !! operation_id with None => true | Some r => non_terminal r end in
  _ ← lift (raise_if (require_terminal_cut && non_terminal)
        (RuntimeError "backend effect has no authoritative terminal cut"));
  _ ← (if non_terminal then mret tt
       else
         audit ← on_store cps_read_audit;
         lift (raise_if (bool_decide (expected_audit ∉ audit))
           (RuntimeError "terminal operation is missing its actor-bound audit")));
  mret (cut, operations).

Definition resynchronize_after_store_error (operation_id : string) (expected_audit : AuditEvent)
    (require_terminal_cut : bool) : M unit := fun c =>
  match read_back operation_id expected_audit require_terminal_cut c with
  | (Ok (cut, operations), c) => set_caches cut operations c
  | (Raise _, c) => poison_runtime_durability c
  end.

(** The shared shape of the three commits: publish the committed cut, reload
    after a revision conflict, resynchronize after any other error. *)
Definition commit_through (commit : Z -> stateful S (SnapshotState E O)) (r : record) (event : AuditEvent)
    (require_terminal_cut : bool) : M unit :=
  _ ← assert_runtime_owner;
  c ← get_state;
  committed ← catch (on_store (commit (cut_revision (cp_snapshot_state c)))) (fun error =>
    match error with
    | SnapshotRevisionConflict => _ ← reload_derived_state; lift (Raise error)
    | _ => _ ← resynchronize_after_store_error (record_id r) event require_terminal_cut; lift (Raise error)
    end);
  publish_committed_state committed.

Definition cp_commit_terminal_operation (snapshot : RuntimeSnapshot E O) (r : record) (audit_event : option AuditEvent)
    (mode : TerminalCommitMode) : M unit :=
  let event := default (terminal_operation_audit r) audit_event in
  commit_through (cps_commit_terminal_operation snapshot r (Some event) mode) r event true.

Definition cp_commit_control_transition (participant_address : string) (expected_head : option string)
    (snapshot : RuntimeSnapshot E O) (r : record) (event : AuditEvent) : M unit :=
  commit_through (fun revision => cps_commit_control_transition participant_address expected_head revision snapshot r event)
    r event (negb (non_terminal r)).

Definition cp_commit_participant_transition (expected_heads : dict string (option string))
    (snapshot : RuntimeSnapshot E O) (r : record) (event : AuditEvent) : M unit :=
  commit_through (fun revision => cps_commit_participant_transition expected_heads revision snapshot r event)
    r event (negb (non_terminal r)).

(** ** Admission *)

Definition IDEMPOTENCY_REQUEST_CONFLICT : string := "Idempotency-Key was reused with a different request body.".
Definition SENSITIVE_RETRY_CONFLICT : string := "Idempotency-Key was reused without matching sensitive retry proof.".

(** Both fingerprints are known and they differ. *)
Definition fingerprints_differ (persisted requested : string) : bool :=
  nonempty persisted && nonempty requested && bool_decide (persisted <> requested).

Definition require_matching_request (persisted requested : record) : result unit :=
  raise_if (bool_decide (rc_context (receipt persisted) <> rc_context (receipt requested))
            || fingerprints_differ (request_fingerprint persisted) (request_fingerprint requested))
    (ValueError IDEMPOTENCY_REQUEST_CONFLICT).

Definition require_sensitive_retry_proof (known supplied : option string) (competing_claim : bool) : result unit :=
  raise_if (bool_decide (supplied <> None)
            && (competing_claim && bool_decide (known <> supplied)
                || bool_decide (known <> None) && bool_decide (known <> supplied)))
    (ValueError SENSITIVE_RETRY_CONFLICT).

Definition idempotent_receipt (key fingerprint : string) (context : OperationAdmissionContext)
    (exact_retry_fingerprint : option string) : M (option OperationReceipt) :=
  _ ← assert_runtime_owner;
  if negb (nonempty key) then mret None
  else
    found ← on_store (cps_find_by_idempotency key);
    match found with
    | None => mret None
    | Some r =>
        _ ← lift (raise_if (bool_decide (rc_context (receipt r) <> context)
                            || fingerprints_differ (request_fingerprint r) fingerprint)
              (ValueError IDEMPOTENCY_REQUEST_CONFLICT));
        c ← get_state;
        _ ← lift (require_sensitive_retry_proof (cp_fingerprints c !! key) exact_retry_fingerprint true);
        _ ← cache_operation r;
        mret (Some (receipt r))
    end.

(** [_claim_record]. *)
Definition cp_claim_record (r : record) (exact_retry_fingerprint : option string) : M record :=
  _ ← assert_runtime_owner;
  persisted ← on_store (cps_claim_record r);
  _ ← lift (require_matching_request persisted r);
  _ ← match exact_retry_fingerprint with
      | Some exact =>
          if nonempty (idempotency_key r) then
            c ← get_state;
            _ ← lift (require_sensitive_retry_proof (cp_fingerprints c !! idempotency_key r) (Some exact)
                  (bool_decide (record_id persisted <> record_id r)));
            remember_fingerprint (idempotency_key r) exact
          else mret tt
      | None => mret tt
      end;
  _ ← cache_operation persisted;
  mret persisted.

(** [record_audit], inside an admitted call; the clock is read by the caller. *)
Definition record_audit (event : AuditEvent) : M unit :=
  _ ← require_not_poisoned;
  _ ← assert_runtime_owner;
  on_store (cps_append_audit event).

(** [_reject_diagnostics] for a given context. *)
Definition reject_diagnostics (domain : RuntimeDomain) (diagnostics : list Diagnostic) (context : OperationAdmissionContext)
    (operation_id submitted_at audited_at : string) : M OperationReceipt :=
  denied ← lift (make_receipt
    (Receipt operation_id domain submitted_at false context OPERATION_SCHEMA_VERSION diagnostics));
  let codes := py_sorted (py_dedupe (diag_code <$> rc_diagnostics denied)) in
  let details : gmap string AuditDetail := {[ "diagnostic_codes" := DetailTexts (take 32 codes) ]} in
  _ ← record_audit
    (Audit audited_at (kind_value (operation_kind context) +:+ "_admission") (actor_id context) false (target_scope context)
       operation_id "operation-admission-denied"
       (if Nat.ltb 32 (length codes) then <["diagnostics_truncated" := DetailFlag true]> details else details));
  mret denied.

Definition rejection (domain : RuntimeDomain) (message : string) : Diagnostic :=
  Diag "runtime.control-plane.rejected" "runtime" ("runtime.control-plane." +:+ domain_value domain) message ERROR.

(** [_reject_submission]. *)
Definition reject_submission (domain : RuntimeDomain) (message : string) (context : OperationAdmissionContext)
    (operation_id submitted_at audited_at : string) : M OperationReceipt :=
  reject_diagnostics domain [rejection domain message] context operation_id submitted_at audited_at.

(** ** Execution *)

(** [control_plane_mutation], once the permit is held. *)
Definition mutation_cut {A} (m : M A) : M A :=
  _ ← require_not_poisoned; _ ← assert_runtime_owner; m.

Record OperationExecutionRequest : Type := ExecutionRequest {
  ex_domain : RuntimeDomain;
  ex_plan : Plan;
  ex_diagnostics : list Diagnostic;
  ex_base_snapshot : option (RuntimeSnapshot E O);
  ex_idempotency_key : string;
  ex_request_fingerprint : string;
  ex_context : OperationAdmissionContext;
  ex_exact_retry_fingerprint : option string;
  ex_validates : bool; (** a validation method is given *)
  ex_admission_diagnostics : option (RuntimeControlPlane -> list Diagnostic); (** reads the control plane *)
}.

(** What [uuid4] and the clock return to one execution. *)
Record Stamps : Type := Stamp {
  operation_uuid : string;
  submitted_now : string;
  denied_uuid : string;
  denied_now : string;
  audited_now : string;
  updated_now : string;
}.

Definition operation_admission_receipt (request : OperationExecutionRequest) (stamps : Stamps)
    : M (option OperationReceipt) :=
  existing ← idempotent_receipt (ex_idempotency_key request) (ex_request_fingerprint request) (ex_context request)
               (ex_exact_retry_fingerprint request);
  match existing with
  | Some r => mret (Some r)
  | None =>
      c ← get_state;
      _ ← lift (raise_if
            (match ex_base_snapshot request with
             | Some base => negb (same_snapshot base (cut_snapshot (cp_snapshot_state c)))
             | None => false
             end)
            (ValueError "explicit base snapshot does not match the authoritative runtime snapshot"));
      match ex_admission_diagnostics request with
      | None => mret None
      | Some admission =>
          match admission c with
          | [] => mret None
          | diagnostics =>
              denied ← reject_diagnostics (ex_domain request) diagnostics (ex_context request)
                         (denied_uuid stamps) (denied_now stamps) (audited_now stamps);
              mret (Some denied)
          end
      end
  end.

Definition new_operation_receipt (request : OperationExecutionRequest) (stamps : Stamps) : result OperationReceipt :=
  make_receipt (Receipt (operation_uuid stamps) (ex_domain request) (submitted_now stamps) true (ex_context request)
    OPERATION_SCHEMA_VERSION (ex_diagnostics request)).

(** A status of the operation of [request]. *)
Definition operation_status (request : OperationExecutionRequest) (stamps : Stamps) (state : OperationState)
    (updated_at : string) (diagnostics : list Diagnostic) (changed_addresses : list string) : result OperationStatus :=
  make_status (Status (operation_uuid stamps) (ex_domain request) state (submitted_now stamps) updated_at
    (ex_context request) OPERATION_SCHEMA_VERSION diagnostics changed_addresses).

Definition operation_record (request : OperationExecutionRequest) (r : OperationReceipt) (s : OperationStatus)
    (payload : option P) : result record :=
  make_record (OperationRecord r s (ex_request_fingerprint request) (ex_idempotency_key request) payload ∅ ∅).

(** [_claim_running_operation]: the snapshot to apply to, the receipt, and
    the claimed receipt. *)
Definition claim_running_operation (request : OperationExecutionRequest) (stamps : Stamps)
    : M (RuntimeSnapshot E O * OperationReceipt * OperationReceipt) :=
  c ← get_state;
  let snapshot := default (cut_snapshot (cp_snapshot_state c)) (ex_base_snapshot request) in
  running ← lift (operation_status request stamps RUNNING (submitted_now stamps) (ex_diagnostics request) []);
  r ← lift (new_operation_receipt request stamps);
  claim ← lift (operation_record request r running None);
  claimed ← cp_claim_record claim (ex_exact_retry_fingerprint request);
  mret (snapshot, r, receipt claimed).

Definition has_error_diagnostic (ds : list Diagnostic) : bool := existsb is_error ds.

(** [_apply_operation]: the result, the observation payload, the collected
    diagnostics, and whether validation failed. *)
Definition apply_operation (request : OperationExecutionRequest) (operation_id : string) (snapshot : RuntimeSnapshot E O)
    : M (ApplyResult E O * option P * list Diagnostic * bool) :=
  reported ← (if ex_validates request then on_target (call_backend_diagnostics (ex_plan request)) else mret []);
  let diagnostics := ex_diagnostics request ++ reported in
  if has_error_diagnostic diagnostics then mret (Applied false snapshot [] [], None, diagnostics, true)
  else
    applied ← on_target (call_backend_apply_with_observation (ex_plan request) snapshot operation_id);
    mret (applied.1, applied.2, diagnostics, false).

(** [_commit_operation_result]. *)
Definition commit_operation_result (request : OperationExecutionRequest) (stamps : Stamps) (r : OperationReceipt)
    (applied : ApplyResult E O) (payload : option P) (diagnostics : list Diagnostic) (validation_failed : bool) : M unit :=
  let final_state := if ar_success applied then SUCCEEDED else FAILED in
  final_diagnostics ← lift (operation_terminal_diagnostics final_state (diagnostics ++ ar_diagnostics applied));
  final ← lift (operation_status request stamps final_state (updated_now stamps) final_diagnostics
                  (ar_changed_addresses applied));
  terminal ← lift (operation_record request r final payload);
  cp_commit_terminal_operation (ar_snapshot applied) terminal None
    (if validation_failed then OPERATION_ONLY else SNAPSHOT_BEARING).

Definition execute_operation_locked (request : OperationExecutionRequest) (stamps : Stamps) : M OperationReceipt :=
  admission ← operation_admission_receipt request stamps;
  match admission with
  | Some r => mret r
  | None =>
      claim ← claim_running_operation request stamps;
      let '(snapshot, r, claimed) := claim in
      if bool_decide (rc_operation_id claimed <> operation_uuid stamps) then mret claimed
      else
        outcome ← apply_operation request (operation_uuid stamps) snapshot;
        let '(applied, payload, diagnostics, validation_failed) := outcome in
        _ ← commit_operation_result request stamps r applied payload diagnostics validation_failed;
        mret r
  end.

Definition execute_operation (request : OperationExecutionRequest) (stamps : Stamps) : M OperationReceipt :=
  mutation_cut (_ ← reload_derived_state; execute_operation_locked request stamps).

(** [persist_succeeded_operation]. *)
Record SucceededOperationRequest : Type := SucceededRequest {
  su_operation_id : string;
  su_domain : RuntimeDomain;
  su_submitted_at : string;
  su_idempotency_key : string;
  su_context : OperationAdmissionContext;
  su_changed_addresses : list string;
}.

Definition succeeded_status (request : SucceededOperationRequest) (state : OperationState) (changed_addresses : list string)
    : result OperationStatus :=
  make_status (Status (su_operation_id request) (su_domain request) state (su_submitted_at request)
    (su_submitted_at request) (su_context request) OPERATION_SCHEMA_VERSION [] changed_addresses).

Definition succeeded_record (request : SucceededOperationRequest) (r : OperationReceipt) (s : OperationStatus)
    : result record :=
  make_record (OperationRecord r s (request_commitment (su_context request)) (su_idempotency_key request) None ∅ ∅).

Definition persist_succeeded_operation (request : SucceededOperationRequest) : M OperationReceipt :=
  r ← lift (make_receipt (Receipt (su_operation_id request) (su_domain request) (su_submitted_at request) true
              (su_context request) OPERATION_SCHEMA_VERSION []));
  running_status ← lift (succeeded_status request RUNNING []);
  terminal_status ← lift (succeeded_status request SUCCEEDED (su_changed_addresses request));
  running ← lift (succeeded_record request r running_status);
  claimed ← cp_claim_record running None;
  if bool_decide (rc_operation_id (receipt claimed) <> su_operation_id request) then mret (receipt claimed)
  else
    c ← get_state;
    terminal ← lift (succeeded_record request r terminal_status);
    _ ← cp_commit_terminal_operation (cut_snapshot (cp_snapshot_state c)) terminal None OPERATION_ONLY;
    mret r.
End control_plane.
Arguments RuntimeControlPlane : clear implicits.
Arguments OperationExecutionRequest : clear implicits.
