(* ===== verification/ControlPlaneFacts.v ===== *)
(** The laws of the store interface, and the runs of commits, claims and
    executions that use them. *)
From S2P Require Import Prelude.
From S2P Require Import Stateful.
From S2P Require Import Contracts.
From S2P Require Import Diagnostics.
From S2P Require Import OperationModel.
From S2P Require Import OperationFacts.
From S2P Require Import SnapshotModel.
From S2P Require Import StoreModel.
From S2P Require Import StoreFacts.
From S2P Require Import StoreRun.
From S2P Require Import ControlPlane.
Local Open Scope string_scope.
Local Open Scope list_scope.

(** ** Stores whose reads are authoritative *)

(** Reads return the durable state, or raise; a commit that returns reports
    the durable cut. A commit may raise before or after its effect. *)
Class AuthoritativeStore (E O P S : Type) `{!ControlPlaneStore E O P S} : Type := {
  durable_cut : S -> SnapshotState E O;
  durable_records : S -> gmap string (ControlPlaneOperationRecord P);
  durable_audit : S -> list AuditEvent;
  load_cut_law s : cps_load_snapshot_state s = (Ok (durable_cut s), s) \/
    exists e, cps_load_snapshot_state s = (Raise e : result (SnapshotState E O), s);
  load_records_law s : cps_load_records s = (Ok (durable_records s), s) \/
    exists e, cps_load_records s = (Raise e : result (gmap string (ControlPlaneOperationRecord P)), s);
  read_audit_law s : cps_read_audit s = (Ok (durable_audit s), s) \/
    exists e, cps_read_audit s = (Raise e : result (list AuditEvent), s);
  commit_terminal_law snapshot r event mode revision s c s' :
    cps_commit_terminal_operation snapshot r event mode revision s = (Ok c, s') -> c = durable_cut s';
  commit_participant_law heads revision snapshot r event s c s' :
    cps_commit_participant_transition heads revision snapshot r event s = (Ok c, s') -> c = durable_cut s';
  commit_control_law pa head revision snapshot r event s c s' :
    cps_commit_control_transition pa head revision snapshot r event s = (Ok c, s') -> c = durable_cut s';
}.

Section memory.
Context {E O P : Type} `{EqDecision E, EqDecision O, EqDecision P}.
Context (json_dumps : HistoryEvent E -> string).

(** The in-memory store keeps the contract, and its reads never raise. *)
#[export] Program Instance memory_authoritative :
    @AuthoritativeStore E O P (InMemoryControlPlaneStore E O P) (memory_control_plane_store json_dumps) := {|
  durable_cut := snapshot_state;
  durable_records := records;
  durable_audit := audit;
|}.
Next Obligation. by left. Qed.
Next Obligation. by left. Qed.
Next Obligation. by left. Qed.
Next Obligation.
  intros snapshot r event mode revision s c s' (_ & _ & _ & [(_ & _ & -> & -> & _)|(_ & _ & _ & _ & _ & ->)])%commit_terminal_Ok; done.
Qed.
Next Obligation.
  intros heads revision snapshot r event s c s' (_ & _ & [(_ & -> & -> & _)|(_ & _ & _ & _ & _ & _ & _ & ->)])%commit_participant_Ok; done.
Qed.
Next Obligation.
  intros pa head revision snapshot r event s c s' (_ & _ & [(_ & -> & -> & _)|(_ & _ & _ & _ & _ & _ & _ & ->)])%commit_participant_Ok; done.
Qed.
End memory.

Section coherence.
Context {E O P Plan S W : Type} `{EqDecision E, EqDecision O, EqDecision P}.
Context `{!ControlPlaneStore E O P S, !AuthoritativeStore E O P S}.
Local Abbreviation cp := (RuntimeControlPlane E O P S W).
Implicit Types c : cp.

Definition coherent c : Prop :=
  cp_snapshot_state c = durable_cut (cp_store c) /\ cp_operations c = durable_records (cp_store c).

(** Some read of the store raises. *)
Definition unreadable (s : S) : Prop :=
  (exists e, cps_load_snapshot_state s = (Raise e : result (SnapshotState E O), s)) \/
  (exists e, cps_load_records s = (Raise e : result (gmap string (ControlPlaneOperationRecord P)), s)) \/
  (exists e, cps_read_audit s = (Raise e : result (list AuditEvent), s)).

Definition stale c c' : Prop :=
  cp_snapshot_state c' = cp_snapshot_state c /\ cp_operations c' = cp_operations c /\ unreadable (cp_store c').

(** The parts only the caches' assignments change. *)
Definition same_runtime c c' : Prop :=
  cp_target c' = cp_target c /\ cp_closed c' = cp_closed c /\ cp_fingerprints c' = cp_fingerprints c /\
  cp_projection_depth c' = cp_projection_depth c.

Lemma reload_cases c o c' :
  reload_derived_state c = (o, c') ->
  cp_store c' = cp_store c /\ cp_durability_poisoned c' = cp_durability_poisoned c /\ same_runtime c c' /\
  (o = Ok tt /\ coherent c' \/ (exists e, o = Raise e) /\ stale c c').
Proof.
  unfold reload_derived_state, coherent, stale, same_runtime, unreadable. rewrite bind_run. unfold on_store, zoom.
  destruct (load_cut_law (cp_store c)) as [Hc|[e Hc]]; rewrite Hc; cbn.
  2: { intros [= <- <-]. destruct c. cbn in *. split_and!; try done. right. split; eauto. }
  rewrite bind_run. cbn. destruct (load_records_law (cp_store c)) as [Hr|[e Hr]]; rewrite Hr; cbn.
  2: { intros [= <- <-]. destruct c. cbn in *. split_and!; try done. right. split; eauto 6. }
  intros [= <- <-]. cbn. split_and!; try done. by left.
Qed.

Lemma publish_cases (committed : SnapshotState E O) c o c' :
  committed = durable_cut (cp_store c) -> publish_committed_state committed c = (o, c') ->
  cp_store c' = cp_store c /\ cp_durability_poisoned c' = cp_durability_poisoned c /\ same_runtime c c' /\
  (o = Ok tt /\ coherent c' \/ (exists e, o = Raise e) /\ stale c c').
Proof.
  intros ->. unfold publish_committed_state, coherent, stale, same_runtime, unreadable. rewrite bind_run. unfold on_store, zoom.
  destruct (load_records_law (cp_store c)) as [Hr|[e Hr]]; rewrite Hr; cbn.
  2: { intros [= <- <-]. destruct c. cbn in *. split_and!; try done. right. split; eauto 6. }
  intros [= <- <-]. cbn. split_and!; try done. by left.
Qed.

(** The terminal cut of [r] is durable. *)
Definition terminal_cut (s : S) (operation_id : string) (event : AuditEvent) : Prop :=
  exists r, durable_records s !! operation_id = Some r /\ is_terminal (st_state (status r)) = true /\
    event ∈ durable_audit s.

Lemma read_back_cases operation_id event required c o c' :
  read_back operation_id event required c = (o, c') ->
  c' = c /\ forall cut operations, o = Ok (cut, operations) ->
    cut = durable_cut (cp_store c) /\ operations = durable_records (cp_store c) /\
    (required = true -> terminal_cut (cp_store c) operation_id event).
Proof.
  unfold read_back. rewrite bind_run. unfold on_store, zoom.
  destruct (load_cut_law (cp_store c)) as [Hc|[e Hc]]; rewrite Hc; cbn; [|by intros [= <- <-]; destruct c].
  rewrite bind_run. cbn. destruct (load_records_law (cp_store c)) as [Hr|[e Hr]]; rewrite Hr; cbn; [|by intros [= <- <-]; destruct c].
  rewrite lift_run. cbn.
  set (nt := match durable_records (cp_store c) !! operation_id with None => true | Some r => non_terminal r end).
  destruct (required && nt) eqn:Ereq; cbn; [by intros [= <- <-]; destruct c|]. rewrite bind_run.
  destruct nt eqn:Ent; cbn.
  { intros [= <- <-]. split; [by destruct c|]. intros cut operations [= <- <-]. destruct required; [discriminate Ereq|].
    split; [done|]. split; [done|intros Hx; discriminate Hx]. }
  rewrite bind_run. cbn. destruct (read_audit_law (cp_store c)) as [Ha|[e Ha]]; rewrite Ha; cbn; [|by intros [= <- <-]; destruct c].
  case_bool_decide as Hin; cbn; [by intros [= <- <-]; destruct c|]. intros [= <- <-]. split; [by destruct c|].
  intros cut operations [= <- <-]. split; [done|]. split; [done|intros _]. unfold nt in Ent.
  destruct (durable_records (cp_store c) !! operation_id) as [r|] eqn:Er; [|done]. exists r. split; [done|].
  rewrite non_terminal_iff in Ent. apply negb_false_iff in Ent. split; [done|].
  destruct (decide (event ∈ durable_audit (cp_store c))); tauto.
Qed.

Lemma resynchronize_cases operation_id event required c o c' :
  resynchronize_after_store_error operation_id event required c = (o, c') ->
  o = Ok tt /\ cp_store c' = cp_store c /\ same_runtime c c' /\
  (cp_durability_poisoned c' = true \/
   coherent c' /\ cp_durability_poisoned c' = cp_durability_poisoned c /\
   (required = true -> terminal_cut (cp_store c') operation_id event)).
Proof.
  unfold resynchronize_after_store_error. destruct (read_back operation_id event required c) as [[[cut operations]|e] c1] eqn:Eb.
  - apply read_back_cases in Eb as [-> Hb]. destruct (Hb _ _ eq_refl) as (-> & -> & Ht). intros [= <- <-].
    unfold same_runtime, coherent. cbn. split_and!; try done. by right.
  - apply read_back_cases in Eb as [-> _]. intros [= <- <-]. unfold same_runtime. cbn. split_and!; try done. by left.
Qed.

(** What a commit leaves, whatever the store does. *)
Record commit_outcome (required : bool) (operation_id : string) (event : AuditEvent) c (o : result unit) c' : Prop := {
  outcome_runtime : same_runtime c c';
  outcome_Ok : o = Ok tt -> coherent c' /\ cp_durability_poisoned c' = cp_durability_poisoned c;
  outcome_Raise : forall e, o = Raise e ->
    (cp_closed c = true /\ c' = c) \/
    cp_durability_poisoned c' = true \/
    (coherent c' /\ (e = SnapshotRevisionConflict \/ (required = true -> terminal_cut (cp_store c') operation_id event))) \/
    stale c c';
}.

Lemma commit_through_cases (commit : Z -> stateful S (SnapshotState E O)) r event required c o c' :
  (forall revision s cut s', commit revision s = (Ok cut, s') -> cut = durable_cut s') ->
  commit_through commit r event required c = (o, c') -> commit_outcome required (record_id r) event c o c'.
Proof.
  intros Hlaw. unfold commit_through. rewrite bind_run. unfold assert_runtime_owner. rewrite bind_run. cbn [get_state].
  unfold lift at 1. destruct (cp_closed c) eqn:Hclosed; cbn [raise_if].
  { intros [= <- <-]. split; [done|done|]. intros e [= <-]. by left. }
  rewrite bind_run. cbn [get_state]. rewrite bind_run, catch_run. unfold on_store at 1, zoom.
  destruct (commit (cut_revision (cp_snapshot_state c)) (cp_store c)) as [[cut|e] s1] eqn:Ec; cbn [fst snd].
  - apply Hlaw in Ec as ->. intros Hp. apply publish_cases in Hp as (Hst & Hpo & Hrt & Hcase); [|done]. cbn in *.
    destruct Hcase as [[-> Hcoh]|[[e ->] Hstale]].
    + split; [done|done|done].
    + split; [done|done|]. intros e' [= <-]. right; right; right. done.
  - assert (forall e1 c1 o1 c2, c1 = ControlPlane s1 (cp_target c) (cp_snapshot_state c) (cp_operations c) (cp_projection_depth c)
        (cp_durability_poisoned c) (cp_closed c) (cp_fingerprints c) ->
        (_ ← resynchronize_after_store_error (record_id r) event required; lift (Raise e1 : result (SnapshotState E O))) c1 = (o1, c2) ->
        match o1 with Ok committed => publish_committed_state committed c2 | Raise e' => (Raise e', c2) end = (o, c') ->
        commit_outcome required (record_id r) event c o c') as Hother.
    { intros e1 c1 o1 c2 -> Hm. rewrite bind_run in Hm.
      destruct (resynchronize_after_store_error _ _ _ _) as [o2 c3] eqn:Er in Hm.
      apply resynchronize_cases in Er as (-> & Hst & Hrt & Hcase). cbn in *. injection Hm as <- <-. intros [= <- <-].
      split; [done|done|]. intros e' [= <-]. destruct Hcase as [Hp|(Hcoh & _ & Ht)]; [by right; left|].
      right; right; left. split; [done|by right]. }
    destruct e; try (intros Hm; match type of Hm with
      | match ?x with _ => _ end = _ => destruct x as [o1 c2] eqn:Em; destruct o1; (eapply Hother; [done|exact Em|exact Hm]) end).
    rewrite bind_run. destruct (reload_derived_state _) as [o2 c3] eqn:Er.
    apply reload_cases in Er as (Hst & Hpo & Hrt & [[-> Hcoh]|[[e ->] Hstale]]); cbn in *; intros [= <- <-].
    + split; [done|done|]. intros e' [= <-]. right; right; left. split; [done|by left].
    + split; [done|done|]. intros e' [= <-]. by right; right; right.
Qed.
End coherence.

Section execution.
Context {E O P Plan W : Type} `{EqDecision E, EqDecision O, EqDecision P}.
Context (json_dumps : HistoryEvent E -> string) `{!Backend E O P Plan W}.
Local Abbreviation store := (InMemoryControlPlaneStore E O P).
Local Abbreviation cp := (RuntimeControlPlane E O P store W).
Local Abbreviation record := (ControlPlaneOperationRecord P).
#[local] Existing Instance memory_control_plane_store.
#[local] Instance memory : ControlPlaneStore E O P store := memory_control_plane_store json_dumps.
Implicit Types (c : cp) (request : OperationExecutionRequest E O P Plan store W).

(** The control plane with the given store, target, fingerprints and caches
    that agree with the store. *)
Definition with_durable c (s : store) (w : W) (fps : gmap string string) : cp :=
  ControlPlane s w (snapshot_state s) (records s) (cp_projection_depth c) (cp_durability_poisoned c) (cp_closed c) fps.

Definition synced c : cp := with_durable c (cp_store c) (cp_target c) (cp_fingerprints c).

(** Neither closed nor poisoned. *)
Definition operational c : Prop := cp_closed c = false /\ cp_durability_poisoned c = false.

Lemma reload_run c : reload_derived_state c = (Ok tt, synced c).
Proof. done. Qed.

Lemma assert_owner_bind {A} c (k : unit -> stateful cp A) :
  cp_closed c = false -> (assert_runtime_owner ≫= k) c = k tt c.
Proof. intros Hc. unfold assert_runtime_owner. rewrite bind_run, bind_run. cbn. unfold lift. by rewrite Hc. Qed.

Lemma assert_owner_closed_bind {A} c (k : unit -> stateful cp A) :
  cp_closed c = true -> (assert_runtime_owner ≫= k) c = (Raise (RuntimeError "runtime control plane is closed"), c).
Proof. intros Hc. unfold assert_runtime_owner. rewrite bind_run, bind_run. cbn. unfold lift. by rewrite Hc. Qed.

Lemma mutation_cut_run {A} c (m : stateful cp A) : operational c -> mutation_cut m c = m c.
Proof.
  intros [Hc Hp]. unfold mutation_cut, require_not_poisoned. rewrite bind_run, bind_run. cbn. unfold lift. rewrite Hp. cbn.
  by apply assert_owner_bind.
Qed.

Lemma mutation_cut_poisoned {A} c (m : stateful cp A) : cp_durability_poisoned c = true -> mutation_cut m c = (Raise POISONED, c).
Proof. intros Hp. unfold mutation_cut, require_not_poisoned. rewrite bind_run, bind_run. cbn. unfold lift. by rewrite Hp. Qed.

(** The sensitive proof that accompanies a key, against the known one. *)
Definition proof_matches c (key : string) (exact : option string) : Prop :=
  exact = None \/ cp_fingerprints c !! key = exact.

Lemma proof_matches_Ok c key exact competing :
  proof_matches c key exact -> require_sensitive_retry_proof (cp_fingerprints c !! key) exact competing = Ok tt.
Proof.
  unfold require_sensitive_retry_proof. intros [->|<-].
  - by rewrite (bool_decide_eq_false_2 (None <> None)) by tauto.
  - destruct (cp_fingerprints c !! key) as [fp|]; [|by rewrite (bool_decide_eq_false_2 (None <> None)) by tauto].
    rewrite (bool_decide_eq_false_2 (Some fp <> Some fp)) by tauto. by rewrite !andb_false_r.
Qed.

(** ** Retries *)

(** The durable record that answers a request. *)
Definition answers c request r : Prop :=
  ex_idempotency_key request <> "" /\ records (cp_store c) !! record_id r = Some r /\
  idempotency_key r = ex_idempotency_key request /\ rc_context (receipt r) = ex_context request /\
  fingerprints_differ (request_fingerprint r) (ex_request_fingerprint request) = false /\
  proof_matches c (ex_idempotency_key request) (ex_exact_retry_fingerprint request).

Lemma find_answer c request r :
  store_wf (cp_store c) -> answers c request r ->
  idempotency (cp_store c) !! ex_idempotency_key request ≫= (fun id => records (cp_store c) !! id) = Some r.
Proof.
  intros Hwf (Hk & Hr & Hkey & _). assert (idempotency (cp_store c) !! ex_idempotency_key request = Some (record_id r)) as ->.
  { apply (wf_index _ Hwf). eauto. }
  done.
Qed.

Lemma idempotent_receipt_hit c request r :
  cp_closed c = false -> store_wf (cp_store c) -> answers c request r ->
  idempotent_receipt (ex_idempotency_key request) (ex_request_fingerprint request) (ex_context request)
    (ex_exact_retry_fingerprint request) (synced c) = (Ok (Some (receipt r)), synced c).
Proof.
  intros Hc Hwf Hans. pose proof (find_answer _ _ _ Hwf Hans) as Hfind.
  destruct Hans as (Hk & Hr & _ & Hctx & Hfp & Hproof).
  unfold idempotent_receipt. rewrite assert_owner_bind by done.
  rewrite (proj2 (nonempty_true _) Hk). cbn [negb]. rewrite bind_run. unfold on_store, zoom. cbn [cps_find_by_idempotency memory memory_control_plane_store].
  rewrite find_run. cbn [fst snd cp_store synced with_durable]. rewrite Hfind. rewrite lift_run, Hctx, bool_decide_ne, Hfp. cbn [orb raise_if].
  rewrite bind_run. cbn [get_state]. rewrite lift_run. cbn [cp_fingerprints].
  rewrite proof_matches_Ok by done. rewrite bind_run. cbn. unfold mret, stateful_ret, synced, with_durable.
  rewrite insert_id by done. done.
Qed.

Lemma execute_retry_run c request st r :
  operational c -> store_wf (cp_store c) -> answers c request r ->
  execute_operation request st c = (Ok (receipt r), synced c).
Proof.
  intros Hop Hwf Hans. unfold execute_operation. rewrite mutation_cut_run by done. rewrite bind_run, reload_run.
  unfold execute_operation_locked, operation_admission_receipt. rewrite bind_run, bind_run.
  rewrite (idempotent_receipt_hit c request r) by (try done; apply Hop). done.
Qed.

(** What a control plane answers to a request that the record [r] answers. *)
#[export] Instance proof_matches_dec c key exact : Decision (proof_matches c key exact).
Proof. unfold proof_matches. apply _. Defined.

Definition retry_answer c request (r : record) : result OperationReceipt :=
  if cp_durability_poisoned c then Raise POISONED
  else if cp_closed c then Raise (RuntimeError "runtime control plane is closed")
  else if decide (proof_matches c (ex_idempotency_key request) (ex_exact_retry_fingerprint request)) then Ok (receipt r)
  else Raise (ValueError SENSITIVE_RETRY_CONFLICT).

Lemma proof_mismatch_Raise c key exact :
  ~ proof_matches c key exact -> require_sensitive_retry_proof (cp_fingerprints c !! key) exact true = Raise (ValueError SENSITIVE_RETRY_CONFLICT).
Proof.
  unfold proof_matches, require_sensitive_retry_proof. intros Hn. destruct exact as [fp|]; [|tauto].
  rewrite (bool_decide_eq_true_2 (Some fp <> None)) by done. rewrite (bool_decide_eq_true_2 (_ <> Some fp)) by tauto. done.
Qed.

(** A known request is answered without a backend or a store: the checks before
    the answer touch neither. *)
Lemma execute_known_run c request st r :
  store_wf (cp_store c) -> ex_idempotency_key request <> "" -> records (cp_store c) !! record_id r = Some r ->
  idempotency_key r = ex_idempotency_key request -> rc_context (receipt r) = ex_context request ->
  fingerprints_differ (request_fingerprint r) (ex_request_fingerprint request) = false ->
  exists c', execute_operation request st c = (retry_answer c request r, c') /\ cp_target c' = cp_target c /\ cp_store c' = cp_store c.
Proof.
  intros Hwf Hkey Hr Hk Hctx Hfp. unfold retry_answer. destruct (cp_durability_poisoned c) eqn:Hp.
  { exists c. unfold execute_operation. by rewrite mutation_cut_poisoned. }
  destruct (cp_closed c) eqn:Hc.
  { exists c. split; [|done]. unfold execute_operation, mutation_cut, require_not_poisoned. rewrite bind_run, bind_run. cbn. unfold lift.
    rewrite Hp. cbn. by apply assert_owner_closed_bind. }
  destruct (decide _) as [Hproof|Hproof].
  { exists (synced c). split; [|done]. by apply execute_retry_run. }
  exists (synced c). split; [|done]. unfold execute_operation. rewrite mutation_cut_run by done. rewrite bind_run, reload_run.
  unfold execute_operation_locked, operation_admission_receipt. rewrite bind_run, bind_run.
  unfold idempotent_receipt at 1. rewrite assert_owner_bind by done. rewrite (proj2 (nonempty_true _) Hkey). cbn [negb]. rewrite bind_run.
  unfold on_store, zoom. cbn [cps_find_by_idempotency memory memory_control_plane_store]. rewrite find_run. cbn [fst snd cp_store synced with_durable].
  assert (idempotency (cp_store c) !! ex_idempotency_key request = Some (record_id r)) as -> by (apply (wf_index _ Hwf); eauto).
  cbn [mbind option_bind]. rewrite Hr, lift_run, Hctx, bool_decide_ne, Hfp. cbn [orb raise_if]. rewrite bind_run. cbn [get_state].
  rewrite lift_run. cbn [cp_fingerprints]. by rewrite proof_mismatch_Raise.
Qed.

(** ** First executions *)

Record first_execution request (st : Stamps) c : Prop := {
  fe_operational : operational c;
  fe_key : idempotency (cp_store c) !! ex_idempotency_key request = None;
  fe_base : forall base, ex_base_snapshot request = Some base ->
    same_snapshot base (cut_snapshot (snapshot_state (cp_store c))) = true;
  fe_admission : forall admission, ex_admission_diagnostics request = Some admission -> admission (synced c) = [];
  fe_uuid : records (cp_store c) !! operation_uuid st = None;
  fe_proof : cp_fingerprints c !! ex_idempotency_key request = None \/
    proof_matches c (ex_idempotency_key request) (ex_exact_retry_fingerprint request);
}.

Lemma idempotent_receipt_miss c key fingerprint context exact :
  cp_closed c = false -> idempotency (cp_store c) !! key = None ->
  idempotent_receipt key fingerprint context exact c = (Ok None, c).
Proof.
  intros Hc Hk. unfold idempotent_receipt. rewrite assert_owner_bind by done. destruct (nonempty key); [|done].
  cbn [negb]. rewrite bind_run. unfold on_store, zoom. cbn [cps_find_by_idempotency memory memory_control_plane_store].
  rewrite find_run, Hk. cbn. by destruct c.
Qed.

Lemma admission_passes request st c :
  first_execution request st c -> operation_admission_receipt request st (synced c) = (Ok None, synced c).
Proof.
  intros [[Hc Hp] Hk Hb Ha Hu _]. unfold operation_admission_receipt. rewrite bind_run.
  rewrite idempotent_receipt_miss by done. rewrite bind_run. cbn [get_state]. rewrite lift_run.
  destruct (ex_base_snapshot request) as [base|] eqn:Ebase.
  - cbn [cp_snapshot_state synced with_durable]. rewrite (Hb base eq_refl). cbn [negb raise_if].
    destruct (ex_admission_diagnostics request) as [admission|] eqn:Ead; [|done]. by rewrite (Ha admission eq_refl).
  - cbn [raise_if]. destruct (ex_admission_diagnostics request) as [admission|] eqn:Ead; [|done]. by rewrite (Ha admission eq_refl).
Qed.

Lemma operation_status_fields request st state updated_at ds addresses s :
  operation_status request st state updated_at ds addresses = Ok s ->
  st_operation_id s = operation_uuid st /\ st_domain s = ex_domain request /\ st_state s = state /\
  st_submitted_at s = submitted_now st /\ st_updated_at s = updated_at /\ st_context s = ex_context request /\
  st_schema_version s = OPERATION_SCHEMA_VERSION.
Proof. intros (? & _ & _ & ->)%make_status_Ok. done. Qed.

Lemma new_receipt_fields request st r :
  new_operation_receipt request st = Ok r ->
  rc_operation_id r = operation_uuid st /\ rc_domain r = ex_domain request /\ rc_submitted_at r = submitted_now st /\
  rc_accepted r = true /\ rc_context r = ex_context request.
Proof. unfold new_operation_receipt, make_receipt. intros H. by inv_result. Qed.

Definition record_of request (r : OperationReceipt) (s : OperationStatus) (payload : option P) : record :=
  OperationRecord r s (ex_request_fingerprint request) (ex_idempotency_key request) payload ∅ ∅.

Lemma record_of_identity request st state updated_at ds addresses r s payload :
  new_operation_receipt request st = Ok r -> operation_status request st state updated_at ds addresses = Ok s ->
  identity_ok (record_of request r s payload).
Proof.
  intros (? & ? & ? & ? & ?)%new_receipt_fields (? & ? & ? & ? & ? & ? & ?)%operation_status_fields.
  unfold identity_ok. cbn. split_and!; congruence.
Qed.

Lemma operation_record_run request st state updated_at ds addresses r s payload :
  new_operation_receipt request st = Ok r -> operation_status request st state updated_at ds addresses = Ok s ->
  operation_record request r s payload = Ok (record_of request r s payload).
Proof.
  intros Hr Hs. change (make_record (record_of request r s payload) = Ok (record_of request r s payload)). unfold make_record.
  rewrite (checks_Ok _ _ _ (identity_checks _) (record_of_identity _ _ _ _ _ _ _ _ payload Hr Hs)). done.
Qed.

(** The record the claim saves, and the store it leaves. *)
Lemma claim_run request st c running r :
  first_execution request st c -> store_wf (cp_store c) ->
  operation_status request st RUNNING (submitted_now st) (ex_diagnostics request) [] = Ok running ->
  new_operation_receipt request st = Ok r ->
  exists fps,
    (ex_idempotency_key request <> "" -> proof_matches (with_durable c (cp_store c) (cp_target c) fps)
       (ex_idempotency_key request) (ex_exact_retry_fingerprint request)) /\
    claim_running_operation request st (synced c) =
      (Ok (default (cut_snapshot (snapshot_state (cp_store c))) (ex_base_snapshot request), r, r),
       with_durable c (saved (cp_store c) (record_of request r running None)) (cp_target c) fps).
Proof.
  intros Hfirst Hwf Hrunning Hr. set (claim := record_of request r running None).
  assert (record_id claim = operation_uuid st) as Hid by (by apply new_receipt_fields in Hr as [? _]).
  assert (save_record claim (cp_store c) = (Ok tt, saved (cp_store c) claim)) as Hsave.
  { rewrite save_record_run, Hid, (fe_uuid _ _ _ Hfirst).
    rewrite (proj2 (record_transition_Ok None claim true)).
    - unfold key_free. cbn [idempotency_key claim record_of]. rewrite (fe_key _ _ _ Hfirst). cbn [default from_option].
      rewrite (bool_decide_eq_true_2 (record_id claim = _)) by done. by rewrite orb_true_r.
    - left. split; [done|]. constructor; [by eapply record_of_identity|].
      apply operation_status_fields in Hrunning as (_ & _ & Hst & _). cbn. rewrite Hst. set_solver. }
  assert (claim_record claim (cp_store c) = (Ok claim, saved (cp_store c) claim)) as Hclaim.
  { rewrite claim_record_run. cbn [idempotency_key claim record_of]. rewrite (fe_key _ _ _ Hfirst), Hsave. by case_bool_decide. }
  unfold claim_running_operation. rewrite bind_run. cbn [get_state]. rewrite lift_run, Hrunning. rewrite lift_run, Hr.
  rewrite lift_run, (operation_record_run _ _ _ _ _ _ _ _ None Hr Hrunning). rewrite bind_run. unfold cp_claim_record.
  rewrite assert_owner_bind by apply Hfirst. rewrite bind_run. unfold on_store, zoom.
  cbn [cps_claim_record memory memory_control_plane_store cp_store synced with_durable]. fold claim. rewrite Hclaim. cbn [fst snd].
  rewrite lift_run. unfold require_matching_request, fingerprints_differ. rewrite !bool_decide_ne, !andb_false_r. cbn [orb raise_if].
  rewrite bind_run. destruct (ex_exact_retry_fingerprint request) as [exact|] eqn:Eexact.
  - cbn [idempotency_key claim record_of]. destruct (nonempty (ex_idempotency_key request)) eqn:Ene.
    + rewrite bind_run. cbn [get_state]. rewrite lift_run. cbn [cp_fingerprints].
      assert (require_sensitive_retry_proof (cp_fingerprints (synced c) !! ex_idempotency_key request) (Some exact) false
        = Ok tt) as ->.
      { cbn [cp_fingerprints synced with_durable]. pose proof (fe_proof _ _ _ Hfirst) as Hp. rewrite Eexact in Hp. destruct Hp as [Hp|Hp].
        - unfold require_sensitive_retry_proof. rewrite Hp. rewrite (bool_decide_eq_false_2 (None <> None)) by tauto. by rewrite andb_false_r.
        - by apply proof_matches_Ok. }
      exists (<[ex_idempotency_key request := exact]> (cp_fingerprints c)). split.
      * intros _. right. cbn. by rewrite lookup_insert_eq.
      * done.
    + exists (cp_fingerprints c). split; [|done]. intros Hk. apply nonempty_true in Hk. congruence.
  - exists (cp_fingerprints c). split; [by left|]. done.
Qed.

Lemma claimed_wf request st c running r :
  first_execution request st c -> store_wf (cp_store c) ->
  operation_status request st RUNNING (submitted_now st) (ex_diagnostics request) [] = Ok running ->
  new_operation_receipt request st = Ok r ->
  store_wf (saved (cp_store c) (record_of request r running None)).
Proof.
  intros Hfirst Hwf Hrunning Hr. pose proof (new_receipt_fields _ _ _ Hr) as (Hid & _).
  assert (record_id (record_of request r running None) = operation_uuid st) as Hrid by done.
  apply store_wf_insert; [done|..|apply Hwf].
  - rewrite Hrid, (fe_uuid _ _ _ Hfirst). constructor; [by eapply record_of_identity|].
    apply operation_status_fields in Hrunning as (_ & _ & Hst & _). cbn. rewrite Hst. set_solver.
  - unfold key_free. cbn [idempotency_key record_of]. rewrite (fe_key _ _ _ Hfirst). cbn [default from_option].
    rewrite (bool_decide_eq_true_2 (record_id _ = _)) by done. by rewrite orb_true_r.
Qed.

(** The backend's part of an execution. *)
Definition backend_outcome request (operation_id : string) (snapshot : RuntimeSnapshot E O)
    : stateful W (ApplyResult E O * option P * list Diagnostic * bool) :=
  reported ← (if ex_validates request then call_backend_diagnostics (ex_plan request) else mret []);
  let diagnostics := ex_diagnostics request ++ reported in
  if has_error_diagnostic diagnostics then mret (Applied false snapshot [] [], None, diagnostics, true)
  else
    applied ← call_backend_apply_with_observation (ex_plan request) snapshot operation_id;
    mret (applied.1, applied.2, diagnostics, false).

Lemma apply_operation_run request operation_id snapshot c s w fps :
  apply_operation request operation_id snapshot (with_durable c s w fps) =
  let outcome := backend_outcome request operation_id snapshot w in
  (outcome.1, with_durable c s outcome.2 fps).
Proof.
  unfold apply_operation, backend_outcome. rewrite !bind_run. destruct (ex_validates request).
  - unfold on_target, zoom. cbn. destruct (call_backend_diagnostics (ex_plan request) w) as [[reported|e] w1]; cbn; [|done].
    destruct (has_error_diagnostic _); [done|]. rewrite !bind_run. cbn.
    destruct (call_backend_apply_with_observation (ex_plan request) snapshot operation_id w1) as [[a|e] w2]; done.
  - cbn. destruct (has_error_diagnostic _); [done|]. rewrite !bind_run. unfold on_target, zoom. cbn.
    destruct (call_backend_apply_with_observation (ex_plan request) snapshot operation_id w) as [[a|e] w2]; done.
Qed.

(** The cut that the commit of an outcome publishes. *)
Definition outcome_cut (s : store) (snapshot : RuntimeSnapshot E O) (validation_failed : bool) : SnapshotState E O :=
  if validation_failed then snapshot_state s else SnapshotCut snapshot (cut_revision (snapshot_state s) + 1).

(** What the control plane requires of an outcome to commit it. *)
Record committable request (st : Stamps) (s : store) (applied : ApplyResult E O) (diagnostics : list Diagnostic)
    (validation_failed : bool) (final : OperationStatus) : Prop := {
  co_snapshot : snapshot_ok (ar_snapshot applied);
  co_unchanged : validation_failed = true -> same_snapshot (cut_snapshot (snapshot_state s)) (ar_snapshot applied) = true;
  co_revision : (cut_revision (snapshot_state s) < MAX_SNAPSHOT_REVISION)%Z;
  co_status : exists ds,
    operation_terminal_diagnostics (if ar_success applied then SUCCEEDED else FAILED)
      (diagnostics ++ ar_diagnostics applied) = Ok ds /\
    operation_status request st (if ar_success applied then SUCCEEDED else FAILED) (updated_now st) ds
      (ar_changed_addresses applied) = Ok final;
}.

Lemma execution_commit_run request st c s w fps r running applied payload diagnostics vf final :
  operational c -> store_wf s -> new_operation_receipt request st = Ok r ->
  operation_status request st RUNNING (submitted_now st) (ex_diagnostics request) [] = Ok running ->
  records s !! operation_uuid st = Some (record_of request r running None) ->
  committable request st s applied diagnostics vf final ->
  let terminal := record_of request r final payload in
  commit_operation_result request st r applied payload diagnostics vf (with_durable c s w fps) =
  (Ok tt, with_durable c (published s terminal (terminal_operation_audit terminal)
     (outcome_cut s (ar_snapshot applied) vf)) w fps) /\
  store_wf (published s terminal (terminal_operation_audit terminal) (outcome_cut s (ar_snapshot applied) vf)).
Proof.
  intros Hop Hwf Hr Hrunning Hrec [Hsnap Hsame Hrev (ds & Hds & Hfinal)] terminal.
  pose proof (operation_status_fields _ _ _ _ _ _ _ Hfinal) as (Hf1 & Hf2 & Hf3 & Hf4 & Hf5 & Hf6 & Hf7).
  pose proof (operation_status_fields _ _ _ _ _ _ _ Hrunning) as (Hg1 & Hg2 & Hg3 & Hg4 & Hg5 & Hg6 & Hg7).
  assert (record_id terminal = operation_uuid st) as Hid by (by apply new_receipt_fields in Hr as [? _]).
  assert (same_operation (record_of request r running None) terminal) as Hsame_op.
  { split; [done|]. unfold operation_identity. cbn. congruence. }
  assert (record_step (records s !! record_id terminal) terminal) as Hstep.
  { rewrite Hid, Hrec. constructor; [by eapply record_of_identity|by eapply record_of_identity|done|].
    cbn. rewrite Hf3, Hg3. by destruct (ar_success applied). }
  assert (key_free s terminal = true) as Hfree by (eapply key_free_step; [done|rewrite Hid; exact Hrec|done]).
  assert (commit_cut s (ar_snapshot applied) (if vf then OPERATION_ONLY else SNAPSHOT_BEARING)
    (cut_revision (snapshot_state s)) (outcome_cut s (ar_snapshot applied) vf)) as Hcut.
  { unfold commit_cut, outcome_cut. destruct vf; [split; [done|by apply Hsame]|done]. }
  pose proof (wf_revision s Hwf) as Hrange. split.
  2: { apply store_wf_insert; [done..|]. unfold outcome_cut, revision_ok in *. destruct vf; cbn; lia. }
  unfold commit_operation_result. rewrite lift_run, Hds. rewrite lift_run, Hfinal.
  rewrite lift_run, (operation_record_run _ _ _ _ _ _ _ _ payload Hr Hfinal). fold terminal.
  unfold cp_commit_terminal_operation, commit_through. cbn [default from_option].
  rewrite assert_owner_bind by apply Hop. rewrite bind_run. cbn [get_state]. rewrite bind_run, catch_run. unfold on_store, zoom.
  cbn [cps_commit_terminal_operation memory memory_control_plane_store cp_store cp_snapshot_state with_durable].
  rewrite (proj2 (commit_terminal_Ok s (ar_snapshot applied) terminal (Some (terminal_operation_audit terminal))
    (if vf then OPERATION_ONLY else SNAPSHOT_BEARING) (cut_revision (snapshot_state s))
    (outcome_cut s (ar_snapshot applied) vf) (published s terminal (terminal_operation_audit terminal)
     (outcome_cut s (ar_snapshot applied) vf)))); [done|].
  split; [done|]. split; [done|]. split; [cbn; rewrite Hf3; by destruct (ar_success applied)|]. by right.
Qed.

(** A first execution ends with one terminal record, its audit and the cut of
    its outcome; the backend ran once. *)
Lemma execute_first_run c request st running r applied payload diagnostics vf w' final :
  first_execution request st c -> store_wf (cp_store c) ->
  operation_status request st RUNNING (submitted_now st) (ex_diagnostics request) [] = Ok running ->
  new_operation_receipt request st = Ok r ->
  backend_outcome request (operation_uuid st)
    (default (cut_snapshot (snapshot_state (cp_store c))) (ex_base_snapshot request)) (cp_target c) =
    (Ok (applied, payload, diagnostics, vf), w') ->
  let claimed := saved (cp_store c) (record_of request r running None) in
  committable request st claimed applied diagnostics vf final ->
  let terminal := record_of request r final payload in
  exists fps,
    (ex_idempotency_key request <> "" -> proof_matches (with_durable c claimed w' fps)
       (ex_idempotency_key request) (ex_exact_retry_fingerprint request)) /\
    execute_operation request st c =
      (Ok r, with_durable c (published claimed terminal (terminal_operation_audit terminal)
         (outcome_cut claimed (ar_snapshot applied) vf)) w' fps) /\
    store_wf (published claimed terminal (terminal_operation_audit terminal) (outcome_cut claimed (ar_snapshot applied) vf)).
Proof.
  intros Hfirst Hwf Hrunning Hr Hback claimed Hco terminal.
  destruct (claim_run request st c running r Hfirst Hwf Hrunning Hr) as (fps & Hproof & Hclaim).
  pose proof (new_receipt_fields _ _ _ Hr) as (Hid & _).
  assert (record_id (record_of request r running None) = operation_uuid st) as Hrid by done.
  destruct (execution_commit_run request st c claimed w' fps r running applied payload diagnostics vf final) as [Hcommit Hwf'];
    [apply Hfirst|by eapply claimed_wf|done|done|cbn; by rewrite Hrid, lookup_insert_eq|done|].
  exists fps. split; [exact Hproof|]. split; [|exact Hwf']. unfold execute_operation. rewrite mutation_cut_run by apply Hfirst.
  rewrite bind_run, reload_run. unfold execute_operation_locked.
  rewrite bind_run, (admission_passes request st c Hfirst). rewrite bind_run, Hclaim.
  rewrite Hid, bool_decide_ne. rewrite bind_run, apply_operation_run. fold claimed. rewrite Hback. cbn [fst snd].
  by rewrite bind_run, Hcommit.
Qed.
End execution.
