(* ===== verification/StoreSpec.v ===== *)
(** What the control-plane store promises: carriers are canonical, operations
    move only along their lifecycle, a key names one operation, and a terminal
    commit is published as a whole, once. *)
From S2P Require Import Prelude.
From S2P Require Import Stateful.
From S2P Require Import Contracts.
From S2P Require Import Addressing.
From S2P Require Import Diagnostics.
From S2P Require Import SnapshotModel.
From S2P Require Import OperationModel.
From S2P Require Import OperationFacts.
From S2P Require Import StoreModel.
From S2P Require Import StoreFacts.
From S2P Require Import StoreRun.
Local Open Scope string_scope.
Local Open Scope list_scope.

(** ** Sample operations *)

Definition sample_context : OperationAdmissionContext :=
  AdmissionContext "alice" ["role:operator"] "target:range" "run:default" PROVISIONING "sha256:00" None.
Definition sample_receipt (id : string) : OperationReceipt :=
  Receipt id PROVISIONING_DOMAIN "t0" true sample_context OPERATION_SCHEMA_VERSION [].
Definition sample_status (id : string) (state : OperationState) (ds : list Diagnostic) : OperationStatus :=
  Status id PROVISIONING_DOMAIN state "t0" "t1" sample_context OPERATION_SCHEMA_VERSION ds ["provision.node.web"].
Definition sample_record (id key : string) (state : OperationState) : ControlPlaneOperationRecord unit :=
  OperationRecord (sample_receipt id) (sample_status id state []) "" key None ∅ ∅.
Definition sample_snapshot : RuntimeSnapshot unit unit := Snapshot ∅ ∅ ∅ ∅ ∅ (Dict []) ∅ None tt.
Definition sample_dumps (e : HistoryEvent unit) : string := "{}".
Definition sample_store : InMemoryControlPlaneStore unit unit unit := new_store sample_snapshot.

(** C17: a status is built exactly when its diagnostics have portable forms, use
    no reserved terminal code but the canonical one of its own state (required
    once by a carrier that adds none, allowed once otherwise), and its changed
    addresses are canonical and distinct; it then reports the portable
    diagnostics plus the missing classification, and building it again changes
    nothing. *)
Theorem status_construction_exact (s : OperationStatus) :
  (forall s', make_status s = Ok s' <->
     exists ds, portable_operation_diagnostics (st_diagnostics s) = Ok ds /\
       reserved_ok (st_state s) ds /\
       (forall d, canonical_for (st_state s) d -> count_of d ds <= 1) /\
       addresses_ok (st_changed_addresses s) /\ NoDup (st_changed_addresses s) /\
       s' = with_diagnostics s (if is_terminal (st_state s) then classified (st_state s) ds else ds)) /\
  (forall s', make_status s = Ok s' -> make_status s' = Ok s' /\
     forall d, canonical_for (st_state s) d -> count_of d (st_diagnostics s') = 1).
Proof.
  split.
  - intros s'. rewrite make_status_Ok. unfold status_admissible, reported, classifiable.
    destruct (is_terminal (st_state s)) eqn:Et; [naive_solver|]. unfold diagnostics_ok.
    assert (forall d, ~ canonical_for (st_state s) d) as Hno.
    { intros d Hd. destruct (st_state s); done. }
    split; intros (ds & ? & ?); exists ds; naive_solver.
  - intros s' Hs. pose proof (make_status_valid _ _ Hs) as Hv. split; [exact Hv|].
    apply status_valid_diagnostics in Hv as [_ Hc]. apply make_status_Ok in Hs as (ds & _ & _ & ->). exact Hc.
Qed.

Section store.
Context {E O P : Type} `{EqDecision E, EqDecision O, EqDecision P}.
Context (json_dumps : HistoryEvent E -> string).
Local Abbreviation record := (ControlPlaneOperationRecord P).
Local Abbreviation store := (InMemoryControlPlaneStore E O P).
Implicit Types (s : store) (r : record).

(** C18: over every run of the store, whatever the outcomes of its calls, an
    operation first appears accepted or running, keeps its identity and receipt,
    moves only along legal transitions and is frozen once terminal; revisions
    never decrease, a revision names one snapshot, and the audit only grows. *)
Theorem operation_history_legal snapshot s s' :
  rtc (store_step json_dumps) (new_store snapshot) s -> rtc (store_step json_dumps) s s' ->
  (forall id r, records s !! id = Some r ->
     record_id r = id /\ record_from_start r /\
     exists r', records s' !! id = Some r' /\ receipt r' = receipt r /\ operation_identity r' = operation_identity r /\
       rtc allowed (st_state (status r)) (st_state (status r')) /\
       (is_terminal (st_state (status r)) = true -> r' = r)) /\
  (revision_of s <= revision_of s')%Z /\
  (revision_of s = revision_of s' -> snapshot_state s' = snapshot_state s) /\
  audit s `prefix_of` audit s'.
Proof.
  intros Hs Hs'. destruct (store_runs _ _ _ Hs) as [Hwf Hstart]. destruct (store_runs_evolve _ _ _ Hs') as [Hrec Hrev Hsnap Haud].
  split_and!; [|done|by intros ?; symmetry; apply Hsnap|done].
  intros id r Hr. split; [by apply (wf_record _ Hwf)|]. split; [by eapply Hstart|].
  destruct (Hrec id r Hr) as (r' & Hr' & He). exists r'. split; [done|].
  pose proof (fun Ht => record_evolves_terminal r r' Ht He) as Hfrozen.
  destruct He as [->|[[Hre Hid] Htc]]; [split_and!; done|]. split_and!; [done|done| |done]. by apply tc_rtc.
Qed.

Lemma claim_result s r w s' :
  store_wf s -> idempotency_key r <> "" -> claim_record r s = (Ok w, s') ->
  store_wf s' /\ records s' !! record_id w = Some w /\ idempotency_key w = idempotency_key r.
Proof.
  intros Hwf Hk. rewrite claim_record_run. rewrite bool_decide_eq_false_2 by done.
  destruct (idempotency s !! idempotency_key r) as [id|] eqn:Eid; cbn [mbind option_bind].
  - apply (wf_index _ Hwf) in Eid as (_ & e & He & Hke). rewrite He. intros [= <- <-].
    pose proof (wf_record _ Hwf _ _ He) as [-> _]. done.
  - destruct (save_record r s) as [[[]|] s1] eqn:Es; [|done]. intros [= <- <-]. pose proof (save_record_change _ _ _ _ Es) as Hc.
    split; [by eapply store_change_wf|]. split; [|done]. rewrite save_record_run in Es.
    destruct (require_operation_record_transition _ _) as [[]|] eqn:Et; [|simplify_eq..].
    + destruct (key_free s r); [|done]. injection Es as <-. cbn. by rewrite lookup_insert_eq.
    + by apply record_transition_Ok in Et as [[? _]|(_ & -> & _)].
Qed.

(** C19: the first claim of an idempotency key fixes its operation: at any later
    moment of any run, a claim with that key changes nothing and returns that
    operation's current record. *)
Theorem claim_exactly_once snapshot s s' s'' r1 r2 w1 :
  rtc (store_step json_dumps) (new_store snapshot) s -> idempotency_key r1 <> "" ->
  claim_record r1 s = (Ok w1, s') -> rtc (store_step json_dumps) s' s'' -> idempotency_key r2 = idempotency_key r1 ->
  exists w2, claim_record r2 s'' = (Ok w2, s'') /\ records s'' !! record_id w1 = Some w2 /\ record_evolves w1 w2 /\
    (forall r, records s'' !! record_id r = Some r -> idempotency_key r = idempotency_key r1 -> r = w2).
Proof.
  intros Hs Hk Hclaim Hruns Hk2. destruct (store_runs _ _ _ Hs) as [Hwf _].
  destruct (claim_result _ _ _ _ Hwf Hk Hclaim) as (Hwf' & Hw1 & Hkw).
  pose proof (store_steps_wf json_dumps _ _ Hruns Hwf') as Hwf''.
  destruct (evolves_record _ _ (store_runs_evolve _ _ _ Hruns) _ _ Hw1) as (w2 & Hw2 & He).
  assert (idempotency_key w2 = idempotency_key r1) as Hkw2.
  { destruct He as [->|[Hsame _]]; [done|]. apply same_operation_id in Hsame as [_ <-]. done. }
  assert (idempotency s'' !! idempotency_key r1 = Some (record_id w1)) as Hidx by (apply (wf_index _ Hwf''); eauto).
  exists w2. split_and!; [|done|done|].
  - rewrite claim_record_run, Hk2, bool_decide_eq_false_2 by done. rewrite Hidx. cbn [mbind option_bind]. by rewrite Hw2.
  - intros r Hr Hkr. assert (idempotency s'' !! idempotency_key r1 = Some (record_id r)) as Hidr by (apply (wf_index _ Hwf''); eauto).
    rewrite Hidx in Hidr. injection Hidr as Hid. rewrite <-Hid in Hr. by simplify_eq.
Qed.

(** C20: a terminal commit returns exactly when the snapshot keeps its
    invariants, the audit is the record's canonical one, the status is terminal,
    and either the durable state is that of the same commit, which is reported and
    left alone, or the record completes a legal transition under a key that is its
    own at the current revision, a supported one, and record, key, audit and cut
    are published together. Otherwise it raises and leaves the store as it was. *)
Theorem terminal_commit_exact s snapshot r audit_event mode revision :
  (forall c s', commit_terminal_operation snapshot r audit_event mode revision s = (Ok c, s') <->
     snapshot_ok snapshot /\ default (terminal_operation_audit r) audit_event = terminal_operation_audit r /\
     is_terminal (st_state (status r)) = true /\
     ((records s !! record_id r = Some r /\ identity_ok r /\ s' = s /\ c = snapshot_state s /\
       retry_matches s snapshot r (terminal_operation_audit r) mode revision) \/
      (record_step (records s !! record_id r) r /\ key_free s r = true /\ revision_ok revision /\ revision_of s = revision /\
       commit_cut s snapshot mode revision c /\ s' = published s r (terminal_operation_audit r) c))) /\
  (forall e s', commit_terminal_operation snapshot r audit_event mode revision s = (Raise e, s') -> s' = s).
Proof.
  split; [intros c s'; apply commit_terminal_Ok|]. intros e s' Ec.
  pose proof (atomic_call json_dumps (CommitTerminal snapshot r audit_event mode revision) s e s') as Ha.
  cbn [run_call] in Ha. apply Ha. unfold ignore. by rewrite bind_run, Ec.
Qed.

Lemma record_step_changes (existing : option record) r : record_step existing r -> existing <> Some r.
Proof. intros Hstep ->. inversion Hstep as [|? ? ? ? ? Hall]; subst. by apply allowed_irreflexive in Hall. Qed.

Lemma filter_none {A} (Q : A -> Prop) `{!forall x, Decision (Q x)} (l : list A) :
  (forall x, x ∈ l -> ~ Q x) -> base.filter Q l = [].
Proof.
  induction l as [|x l IH]; intros HQ; [done|]. rewrite filter_cons_False by (apply HQ; left). apply IH. set_solver.
Qed.

Lemma dict_same_refl {V} `{EqDecision V} (d : dict string V) : dict_same d d = true.
Proof. by apply bool_decide_eq_true. Qed.

Lemma same_snapshot_refl (snapshot : RuntimeSnapshot E O) : same_snapshot snapshot snapshot = true.
Proof.
  unfold same_snapshot. rewrite !(bool_decide_eq_true_2 (_ = _)) by done. rewrite dict_same_refl.
  destruct (SnapshotModel.time_model_state snapshot) as [t|]; cbn; [|done].
  rewrite (bool_decide_eq_true_2 (_ = _)) by done. by rewrite dict_same_refl.
Qed.

(** a terminal commit that succeeds may be retried: the same call then
    reports the same cut and changes nothing. (No audit of the same operation and
    action may precede the commit.) *)
Theorem terminal_commit_retry s snapshot r audit_event mode revision c s' :
  commit_terminal_operation snapshot r audit_event mode revision s = (Ok c, s') ->
  (records s !! record_id r <> Some r -> forall item, item ∈ audit s ->
     ae_operation_id item = record_id r -> ae_action item <> ae_action (terminal_operation_audit r)) ->
  commit_terminal_operation snapshot r audit_event mode revision s' = (Ok c, s').
Proof.
  intros (Hs & He & Ht & [(Hrec & Hid & -> & -> & Hretry)|(Hstep & _ & Hrev & Hcut & Hcc & ->)])%commit_terminal_Ok Haudit;
    apply commit_terminal_Ok; (split; [done|]); (split; [done|]); (split; [done|]); left; [done|].
  cbn. rewrite lookup_insert_eq. split; [done|]. split; [by eapply record_step_identity|]. split; [done|]. split; [done|].
  unfold retry_matches. cbn [cut_revision snapshot_state published cut_snapshot audit]. split_and!.
  - unfold commit_cut in Hcc. destruct mode; [by destruct Hcc as [-> _]|destruct Hcc as [-> _]; by rewrite decide_False].
  - unfold commit_cut in Hcc. destruct mode; [destruct Hcc as [-> _]; apply same_snapshot_refl|by destruct Hcc as [-> ?]].
  - rewrite filter_app, filter_cons_True by done. cbn [filter].
    assert (base.filter (fun item => ae_operation_id item = record_id r /\
      ae_action item = ae_action (terminal_operation_audit r)) (audit s) = []) as ->; [|done].
    apply filter_none. intros item Hin [Hid Hact]. by apply (Haudit (record_step_changes _ _ Hstep) item).
Qed.
End store.

Definition running_op : ControlPlaneOperationRecord unit := sample_record "op-1" "key-1" RUNNING.
Definition succeeded_op : ControlPlaneOperationRecord unit := sample_record "op-1" "key-1" SUCCEEDED.
Definition claimed_store : InMemoryControlPlaneStore unit unit unit := (claim_record running_op sample_store).2.
Definition committed_store : InMemoryControlPlaneStore unit unit unit :=
  (commit_terminal_operation sample_snapshot succeeded_op None SNAPSHOT_BEARING 0 claimed_store).2.

Lemma claimed_step : store_step sample_dumps sample_store claimed_store.
Proof. exists (ClaimRecord running_op). vm_compute. reflexivity. Qed.
Lemma committed_step : store_step sample_dumps claimed_store committed_store.
Proof. exists (CommitTerminal sample_snapshot succeeded_op None SNAPSHOT_BEARING 0). vm_compute. reflexivity. Qed.

Lemma operation_history_legal_witness :
  records claimed_store !! "op-1" = Some running_op /\ records committed_store !! "op-1" = Some succeeded_op /\
  (revision_of claimed_store <= revision_of committed_store)%Z.
Proof.
  split; [vm_compute; reflexivity|]. split; [vm_compute; reflexivity|].
  apply (operation_history_legal sample_dumps sample_snapshot).
  - apply rtc_once, claimed_step.
  - apply rtc_once, committed_step.
Defined.

Lemma claim_exactly_once_witness :
  exists w, claim_record (sample_record "op-2" "key-1" RUNNING) committed_store = (Ok w, committed_store) /\ record_evolves running_op w.
Proof.
  destruct (claim_exactly_once sample_dumps sample_snapshot sample_store claimed_store committed_store running_op
    (sample_record "op-2" "key-1" RUNNING) running_op) as (w & Hw & _ & He & _).
  - apply rtc_refl.
  - vm_compute. discriminate.
  - vm_compute. reflexivity.
  - apply rtc_once, committed_step.
  - reflexivity.
  - exists w. split; [exact Hw|exact He].
Defined.

Lemma terminal_commit_retry_witness :
  commit_terminal_operation sample_snapshot succeeded_op None SNAPSHOT_BEARING 0 committed_store =
    (Ok (SnapshotCut sample_snapshot 1), committed_store).
Proof.
  apply (terminal_commit_retry claimed_store).
  - vm_compute. reflexivity.
  - intros _ item Hin. exfalso. change (audit claimed_store) with (@nil AuditEvent) in Hin. by apply not_elem_of_nil in Hin.
Defined.
