(* ===== verification/ControlPlaneSpec.v ===== *)
(** What the control plane promises its callers: its caches are the durable
    state or it stops, and a keyed operation reaches the backend once. *)
From S2P Require Import Prelude.
From S2P Require Import Stateful.
From S2P Require Import Contracts.
From S2P Require Import Diagnostics.
From S2P Require Import SnapshotModel.
From S2P Require Import OperationModel.
From S2P Require Import OperationFacts.
From S2P Require Import StoreModel.
From S2P Require Import StoreFacts.
From S2P Require Import StoreRun.
From S2P Require Import StoreSpec.
From S2P Require Import ControlPlane.
From S2P Require Import ControlPlaneFacts.
Local Open Scope string_scope.
Local Open Scope list_scope.

(** C21: whatever the store does, a terminal commit that returns leaves caches
    equal to the durable state; one that raises leaves the closed runtime alone,
    or caches equal to the durable state (after a revision conflict, or because
    the terminal cut with its audit is durable), or stale caches over a store
    that cannot be read, or a poisoned runtime, which refuses every later
    mutation. The backend is never touched. *)
Theorem commit_coherent_or_poisoned {E O P Plan S W : Type} `{EqDecision E, EqDecision O, EqDecision P}
    `{!ControlPlaneStore E O P S, !AuthoritativeStore E O P S, !Backend E O P Plan W}
    (c : RuntimeControlPlane E O P S W) snapshot r audit_event mode o c' :
  cp_commit_terminal_operation snapshot r audit_event mode c = (o, c') ->
  cp_target c' = cp_target c /\
  match o with
  | Ok _ => coherent c'
  | Raise e =>
      (cp_closed c = true /\ c' = c) \/
      (coherent c' /\ (e = SnapshotRevisionConflict \/
         terminal_cut (cp_store c') (record_id r) (default (terminal_operation_audit r) audit_event))) \/
      stale c c' \/
      (cp_durability_poisoned c' = true /\
       forall (request : OperationExecutionRequest E O P Plan S W) st, execute_operation request st c' = (Raise POISONED, c'))
  end.
Proof.
  intros Hrun. destruct (commit_through_cases _ _ _ _ _ _ _ (fun rev s cut s' => commit_terminal_law snapshot r _ mode rev s cut s') Hrun)
    as [(Ht & _) Hok Hraise].
  split; [done|]. destruct o as [[]|e]; [by apply Hok|].
  destruct (Hraise e eq_refl) as [?|[Hp|[[Hc Hcut]|Hs]]]; [by left| | |by right; right; left].
  - right; right; right. split; [done|]. intros request st. unfold execute_operation, mutation_cut, require_not_poisoned.
    rewrite bind_run, bind_run. cbn. unfold lift. by rewrite Hp.
  - right; left. split; [done|]. destruct Hcut; [by left|right; auto].
Qed.

Section execution.
Context {E O P Plan W : Type} `{EqDecision E, EqDecision O, EqDecision P}.
Context (json_dumps : HistoryEvent E -> string) `{!Backend E O P Plan W}.
Local Abbreviation store := (InMemoryControlPlaneStore E O P).
Local Abbreviation cp := (RuntimeControlPlane E O P store W).
#[local] Instance memory_store : ControlPlaneStore E O P store := memory_control_plane_store json_dumps.
Implicit Types (c : cp) (request : OperationExecutionRequest E O P Plan store W).

(** C22: the first execution of a keyed request, in a control plane that is
    neither closed nor poisoned, whose key and identifier are unused and whose
    backend returns an outcome that may be committed, claims the request, runs the
    backend, and leaves one terminal record of the outcome with its audit and cut,
    in a store and caches that agree. From then on, however the store has moved
    on, submitting the request again touches neither backend nor store. It returns
    the same receipt when the request carries no sensitive retry proof or the
    proof is the one that control plane remembers for the key. A proof it does not
    remember, as after a restart, is refused with a [ValueError], and a closed or
    poisoned control plane refuses every submission. *)
Theorem execute_exactly_once c request st running r applied payload diagnostics vf w' final :
  store_wf (cp_store c) -> first_execution request st c -> ex_idempotency_key request <> "" ->
  operation_status request st RUNNING (submitted_now st) (ex_diagnostics request) [] = Ok running ->
  new_operation_receipt request st = Ok r ->
  backend_outcome request (operation_uuid st)
    (default (cut_snapshot (snapshot_state (cp_store c))) (ex_base_snapshot request)) (cp_target c) =
    (Ok (applied, payload, diagnostics, vf), w') ->
  committable request st (cp_store c) applied diagnostics vf final ->
  exists c1, execute_operation request st c = (Ok r, c1) /\
    cp_target c1 = w' /\ cp_snapshot_state c1 = snapshot_state (cp_store c1) /\ cp_operations c1 = records (cp_store c1) /\
    snapshot_state (cp_store c1) = outcome_cut (cp_store c) (ar_snapshot applied) vf /\
    records (cp_store c1) = <[operation_uuid st := record_of request r final payload]> (records (cp_store c)) /\
    audit (cp_store c1) = audit (cp_store c) ++ [terminal_operation_audit (record_of request r final payload)] /\
    forall c2 st2, rtc (store_step json_dumps) (cp_store c1) (cp_store c2) ->
      exists c3, execute_operation request st2 c2 =
        (if cp_durability_poisoned c2 then Raise POISONED
         else if cp_closed c2 then Raise (RuntimeError "runtime control plane is closed")
         else if decide (proof_matches c2 (ex_idempotency_key request) (ex_exact_retry_fingerprint request)) then Ok r
         else Raise (ValueError SENSITIVE_RETRY_CONFLICT), c3) /\
      cp_target c3 = cp_target c2 /\ cp_store c3 = cp_store c2.
Proof.
  intros Hwf Hfirst Hkey Hrunning Hr Hback Hco.
  assert (committable request st (saved (cp_store c) (record_of request r running None)) applied diagnostics vf final) as Hco'.
  { destruct Hco. by split. }
  destruct (execute_first_run json_dumps c request st running r applied payload diagnostics vf w' final
    Hfirst Hwf Hrunning Hr Hback Hco') as (fps & _ & Hrun & Hwf1).
  pose proof (new_receipt_fields _ _ _ Hr) as (Hid & _ & _ & _ & Hctx).
  set (terminal := record_of request r final payload) in *.
  assert (record_id terminal = operation_uuid st) as Hidt by done.
  assert (record_id (record_of request r running None) = operation_uuid st) as Hidr by done.
  eexists. split; [exact Hrun|]. split_and!; try done.
  - cbn. rewrite Hidr, Hidt, insert_insert_eq. done.
  - intros c2 st2 Hruns. cbn [cp_store with_durable] in Hruns.
    set (s1 := published _ terminal _ _) in Hruns.
    assert (records s1 !! operation_uuid st = Some terminal) as Ht by (cbn; by rewrite Hidt, lookup_insert_eq).
    assert (store_wf (cp_store c2)) as Hwf2 by (eapply store_steps_wf; eauto).
    assert (records (cp_store c2) !! operation_uuid st = Some terminal) as Ht2.
    { destruct (evolves_record _ _ (store_runs_evolve json_dumps _ _ Hruns) _ _ Ht) as (r' & Hr' & He).
      assert (r' = terminal) as ->; [|done]. eapply record_evolves_terminal; [|exact He].
      destruct Hco as [_ _ _ (ds & _ & Hfinal)]. apply operation_status_fields in Hfinal as (_ & _ & Hst & _).
      cbn. rewrite Hst. by destruct (ar_success applied). }
    apply (execute_known_run json_dumps c2 request st2 terminal); [done|done|by rewrite Hidt|done|done|].
    cbn. unfold fingerprints_differ. by rewrite bool_decide_ne, !andb_false_r.
Qed.
End execution.

(** ** Sample runs *)

(** A backend that records its calls and changes nothing else. *)
#[local] Instance sample_backend : Backend unit unit unit string (list string) := {|
  call_backend_diagnostics plan log := (Ok [], log ++ ["validate " +:+ plan]);
  call_backend_apply_with_observation plan snapshot _ log :=
    (Ok (Applied true snapshot [] ["provision.node.web"], None), log ++ ["apply " +:+ plan]);
|}.
#[local] Existing Instance memory_control_plane_store.
#[local] Instance sample_memory : ControlPlaneStore unit unit unit (InMemoryControlPlaneStore unit unit unit) :=
  memory_control_plane_store sample_dumps.
#[local] Instance sample_authority : AuthoritativeStore unit unit unit (InMemoryControlPlaneStore unit unit unit) :=
  memory_authoritative sample_dumps.

Definition sample_plane (s : InMemoryControlPlaneStore unit unit unit)
    : RuntimeControlPlane unit unit unit (InMemoryControlPlaneStore unit unit unit) (list string) :=
  ControlPlane s [] (snapshot_state s) (records s) 0 false false ∅.

Definition sample_request : OperationExecutionRequest unit unit unit string (InMemoryControlPlaneStore unit unit unit) (list string) :=
  ExecutionRequest PROVISIONING_DOMAIN "plan-1" [] None "key-1" "sha256:00" sample_context None true None.
Definition sample_stamps (id : string) : Stamps := Stamp id "t0" "denied" "t0" "t0" "t1".

(** The last revision leaves no successor: the commit of the outcome raises and
    the runtime is poisoned. *)
Definition exhausted_store : InMemoryControlPlaneStore unit unit unit :=
  MemoryStore (SnapshotCut sample_snapshot MAX_SNAPSHOT_REVISION) (records claimed_store) (idempotency claimed_store) [].

Lemma commit_coherent_or_poisoned_witness :
  let '(o, c') := cp_commit_terminal_operation sample_snapshot succeeded_op None SNAPSHOT_BEARING (sample_plane exhausted_store) in
  o = Raise (ValueError "snapshot revision is outside the supported range") /\ cp_durability_poisoned c' = true /\
  execute_operation sample_request (sample_stamps "op-9") c' = (Raise POISONED, c').
Proof.
  destruct (cp_commit_terminal_operation sample_snapshot succeeded_op None SNAPSHOT_BEARING (sample_plane exhausted_store)) as [o c'] eqn:Ec.
  pose proof (commit_coherent_or_poisoned (sample_plane exhausted_store) sample_snapshot succeeded_op None SNAPSHOT_BEARING o c' Ec) as [_ H].
  vm_compute in Ec. injection Ec as <- <-. destruct H as [[Hc _]|[[_ [He|Ht]]|[(_ & _ & Hu)|[Hp Hex]]]].
  - discriminate Hc.
  - discriminate He.
  - destruct Ht as (r & Hr & Ht & _). vm_compute in Hr. injection Hr as <-. discriminate Ht.
  - destruct Hu as [[e He]|[[e He]|[e He]]]; discriminate He.
  - split; [reflexivity|]. split; [exact Hp|]. apply Hex.
Defined.

Lemma execute_exactly_once_witness :
  exists r c1, execute_operation sample_request (sample_stamps "op-1") (sample_plane sample_store) = (Ok r, c1) /\
    cp_target c1 = ["validate plan-1"; "apply plan-1"] /\
    exists c2, execute_operation sample_request (sample_stamps "op-2") c1 = (Ok r, c2) /\ cp_target c2 = cp_target c1.
Proof.
  destruct (execute_exactly_once sample_dumps (sample_plane sample_store) sample_request (sample_stamps "op-1")
    (Status "op-1" PROVISIONING_DOMAIN RUNNING "t0" "t0" sample_context OPERATION_SCHEMA_VERSION [] []) (sample_receipt "op-1") (Applied true sample_snapshot [] ["provision.node.web"]) None [] false
    ["validate plan-1"; "apply plan-1"] (sample_status "op-1" SUCCEEDED [])) as (c1 & Hrun & Ht & _ & _ & _ & _ & _ & Hretry).
  - apply store_wf_new.
  - split; [done|vm_compute; reflexivity|done|done|vm_compute; reflexivity|by left].
  - discriminate.
  - vm_compute. reflexivity.
  - vm_compute. reflexivity.
  - vm_compute. reflexivity.
  - split; [vm_compute; reflexivity|done|vm_compute; reflexivity|]. exists []. split; vm_compute; reflexivity.
  - exists (sample_receipt "op-1"), c1. split; [exact Hrun|]. split; [exact Ht|].
    destruct (Hretry c1 (sample_stamps "op-2")) as (c2 & Hrun2 & Ht2 & _); [apply rtc_refl|].
    exists c2. split; [|exact Ht2]. vm_compute in Hrun. injection Hrun as <-. exact Hrun2.
Defined.
