(* ===== verification/MutationAuthority.v ===== *)
(** The one in-process authority for control-plane mutations
    ([raes_runtime/control_plane_mutation.py]): a permit that a thread owns,
    re-entrantly, or an asynchronous reservation holds and lends to worker
    threads. Each function is a section under the authority's condition lock;
    the step relation interleaves them over threads and tasks. *)
From S2P Require Import Prelude.
From S2P Require Import Stateful.
From S2P Require Import OperationModel.
Local Open Scope string_scope.
Local Open Scope list_scope.

(** Threads and reservations are named by numbers. *)
Abbreviation thread := nat.
Abbreviation waiter := nat.

Inductive FutureState : Type := Pending | Resolved | FutureCancelled.
#[export] Instance FutureState_eq_dec : EqDecision FutureState.
Proof. solve_decision. Defined.

(** [RuntimeMutationAuthority]; [granted] and [futures] are the flags of the
    waiters, [external_depth] and [kinds] the thread-local attributes. *)
Record RuntimeMutationAuthority : Type := Authority {
  owner_thread : option thread;
  reservation : option waiter;
  async_waiters : list waiter;
  depth : Z;
  granted : gset waiter;
  futures : gmap waiter FutureState;
  external_depth : gmap thread Z;
  kinds : gmap thread (list OperationKind);
  notifications : nat; (** calls of [notify_all] *)
}.
Local Abbreviation M := (stateful RuntimeMutationAuthority).

Definition new_authority : RuntimeMutationAuthority := Authority None None [] 0 ∅ ∅ ∅ ∅ 0.

Definition future_of (a : RuntimeMutationAuthority) (w : waiter) : FutureState := default Pending (futures a !! w).
Definition external_depth_of (a : RuntimeMutationAuthority) (t : thread) : Z := default 0%Z (external_depth a !! t).
Definition kinds_of (a : RuntimeMutationAuthority) (t : thread) : list OperationKind := default [] (kinds a !! t).

Definition permit_is_free (a : RuntimeMutationAuthority) : bool :=
  bool_decide (owner_thread a = None) && bool_decide (reservation a = None).
Definition sync_permit_available (a : RuntimeMutationAuthority) : bool :=
  permit_is_free a && bool_decide (async_waiters a = []).

Definition set_owner (owner : option thread) (d : Z) (a : RuntimeMutationAuthority) : RuntimeMutationAuthority :=
  Authority owner (reservation a) (async_waiters a) d (granted a) (futures a) (external_depth a) (kinds a)
    (notifications a).
Definition set_queue (held : option waiter) (queue : list waiter) (g : gset waiter) (a : RuntimeMutationAuthority)
    : RuntimeMutationAuthority :=
  Authority (owner_thread a) held queue (depth a) g (futures a) (external_depth a) (kinds a) (notifications a).
Definition set_future (w : waiter) (f : FutureState) (a : RuntimeMutationAuthority) : RuntimeMutationAuthority :=
  Authority (owner_thread a) (reservation a) (async_waiters a) (depth a) (granted a) (<[w := f]> (futures a))
    (external_depth a) (kinds a) (notifications a).
Definition set_external (t : thread) (d : Z) (a : RuntimeMutationAuthority) : RuntimeMutationAuthority :=
  Authority (owner_thread a) (reservation a) (async_waiters a) (depth a) (granted a) (futures a)
    (<[t := d]> (external_depth a)) (kinds a) (notifications a).
Definition set_kinds (t : thread) (ks : list OperationKind) (a : RuntimeMutationAuthority) : RuntimeMutationAuthority :=
  Authority (owner_thread a) (reservation a) (async_waiters a) (depth a) (granted a) (futures a)
    (external_depth a) (<[t := ks]> (kinds a)) (notifications a).
Definition notify_all (a : RuntimeMutationAuthority) : RuntimeMutationAuthority :=
  Authority (owner_thread a) (reservation a) (async_waiters a) (depth a) (granted a) (futures a)
    (external_depth a) (kinds a) (S (notifications a)).

(** The loop of [_grant_next_waiter_locked]: the first waiter whose future is
    not cancelled, and the queue behind it. *)
Fixpoint next_waiter (a : RuntimeMutationAuthority) (queue : list waiter) : option waiter * list waiter :=
  match queue with
  | [] => (None, [])
  | w :: queue => if decide (future_of a w = FutureCancelled) then next_waiter a queue else (Some w, queue)
  end.

Definition grant_next_waiter (a : RuntimeMutationAuthority) : RuntimeMutationAuthority :=
  match next_waiter a (async_waiters a) with
  | (Some w, queue) => set_queue (Some w) queue ({[w]} ∪ granted a) a
  | (None, queue) => notify_all (set_queue (reservation a) queue (granted a) a)
  end.

Definition BACKEND_REENTRY_ERROR : string := "backend callback cannot start a control-plane mutation".
Definition RESERVATION_INACTIVE : exn := RuntimeError "control-plane mutation reservation is no longer active".
Definition RESERVATION_REQUIRED : exn := RuntimeError "control-plane mutation requires an asynchronous reservation".

(** The entry of [mutation] by thread [t], whose context carries the
    reservation [active]; [None] while the thread waits for the permit. *)
Definition enter_permit (t : thread) (active : option waiter) (probe : bool) : RuntimeMutationAuthority ->
    option (result unit * RuntimeMutationAuthority) := fun a =>
  match active with
  | Some w =>
      if bool_decide (reservation a <> Some w) then Some (Raise RESERVATION_INACTIVE, a) else Some (Ok tt, a)
  | None =>
      if bool_decide (owner_thread a = Some t) then Some (Ok tt, set_owner (Some t) (depth a + 1) a)
      else if probe then Some (Raise RESERVATION_REQUIRED, a)
      else if sync_permit_available a then Some (Ok tt, set_owner (Some t) 1 a)
      else None
  end.

Definition mutation_enter (t : thread) (active : option waiter) (probe : bool) (kind : OperationKind)
    (a : RuntimeMutationAuthority) : option (result unit * RuntimeMutationAuthority) :=
  if (external_depth_of a t =? 0)%Z then
    match enter_permit t active probe a with
    | Some (Ok _, a) => Some (Ok tt, set_kinds t (kinds_of a t ++ [kind]) a)
    | r => r
    end
  else Some (Raise (RuntimeError BACKEND_REENTRY_ERROR), a).

(** The [finally] of [mutation]. *)
Definition mutation_exit (t : thread) (reserved : bool) (a : RuntimeMutationAuthority) : RuntimeMutationAuthority :=
  let a := set_kinds t (removelast (kinds_of a t)) a in
  if reserved then a
  else
    let a := set_owner (owner_thread a) (depth a - 1) a in
    if (depth a =? 0)%Z then grant_next_waiter (set_owner None (depth a) a) else a.

(** [reserve]: the request, and whether it is granted at once. *)
Definition reserve_begin (w : waiter) (a : RuntimeMutationAuthority) : RuntimeMutationAuthority :=
  if permit_is_free a && bool_decide (async_waiters a = []) then
    set_queue (Some w) (async_waiters a) ({[w]} ∪ granted a) a
  else set_queue (reservation a) (async_waiters a ++ [w]) (granted a) a.

(** [_release_reservation_locked]. *)
Definition release_reservation (w : waiter) : M unit := fun a =>
  if bool_decide (reservation a <> Some w) then (Raise RESERVATION_INACTIVE, a)
  else (Ok tt, grant_next_waiter (set_queue None (async_waiters a) (granted a) a)).

(** The handler of an exception in [await waiter.future]; [deque.remove] of an
    absent element raises. *)
Definition abandon_wait (w : waiter) : M unit := fun a =>
  if bool_decide (w ∈ granted a) then release_reservation w a
  else if bool_decide (w ∈ async_waiters a) then
    (Ok tt, set_queue (reservation a) (filter (fun x => x <> w) (async_waiters a)) (granted a) a)
  else (Raise (ValueError "deque.remove(x): x not in deque"), a).

(** [_complete_waiter]. *)
Definition complete_waiter (w : waiter) (a : RuntimeMutationAuthority) : RuntimeMutationAuthority :=
  if decide (future_of a w = Pending) then set_future w Resolved a else a.

(** [future.cancel()]. *)
Definition cancel_future (w : waiter) (a : RuntimeMutationAuthority) : RuntimeMutationAuthority :=
  if decide (future_of a w = Pending) then set_future w FutureCancelled a else a.

Definition owns_current_thread (t : thread) (active : option waiter) (a : RuntimeMutationAuthority) : bool :=
  bool_decide (owner_thread a = Some t) || match active with Some w => bool_decide (reservation a = Some w) | None => false end.

(** [external_call] and [admission_call]. *)
Definition external_enter (t : thread) (active : option waiter) : M unit := fun a =>
  if owns_current_thread t active a then (Ok tt, set_external t (external_depth_of a t + 1) a)
  else (Raise (RuntimeError "external control-plane work requires mutation authority"), a).
Definition admission_enter (t : thread) (a : RuntimeMutationAuthority) : RuntimeMutationAuthority :=
  set_external t (external_depth_of a t + 1) a.
Definition external_exit (t : thread) (a : RuntimeMutationAuthority) : RuntimeMutationAuthority :=
  set_external t (external_depth_of a t - 1) a.

(** [SubordinateMutationGate.__enter__]. *)
Definition gate_enter (t : thread) (active : option waiter) (a : RuntimeMutationAuthority) : result unit :=
  raise_if (negb (owns_current_thread t active a)) (RuntimeError "participant mutation requires control-plane mutation authority").

(** ** Threads and tasks *)

(** The contexts a thread is inside. *)
Inductive frame : Type := OwnedFrame | ReservedFrame (w : waiter) | ExternalFrame.
#[export] Instance frame_eq_dec : EqDecision frame.
Proof. solve_decision. Defined.

(** Where the task of a reservation is. *)
Inductive phase : Type := Waiting | Holding | Finished.
#[export] Instance phase_eq_dec : EqDecision phase.
Proof. solve_decision. Defined.

Record system : Type := System {
  authority : RuntimeMutationAuthority;
  frames : gmap thread (list frame);
  phases : gmap waiter phase;
}.

Definition frames_of (s : system) (t : thread) : list frame := default [] (frames s !! t).
Definition frame_of (active : option waiter) : frame := match active with Some w => ReservedFrame w | None => OwnedFrame end.
Definition is_reserved (f : frame) : bool := match f with ReservedFrame _ => true | _ => false end.

Definition new_system : system := System new_authority ∅ ∅.

(** One section of one thread or task. The context of a thread carries only
    reservations whose task has resumed, possibly stale ones. A reservation is left only when no worker
    is inside a mutation it lends ([_run_reserved] of [control_plane_api]
    settles its worker before it unwinds). *)
Inductive authority_step : system -> system -> Prop :=
| step_enter s t active probe kind a :
    (forall w, active = Some w -> phases s !! w = Some Holding \/ phases s !! w = Some Finished) ->
    mutation_enter t active probe kind (authority s) = Some (Ok tt, a) ->
    authority_step s (System a (<[t := frame_of active :: frames_of s t]> (frames s)) (phases s))
| step_exit s t f fs :
    frames_of s t = f :: fs -> f <> ExternalFrame ->
    authority_step s (System (mutation_exit t (is_reserved f) (authority s)) (<[t := fs]> (frames s)) (phases s))
| step_external s t active a :
    external_enter t active (authority s) = (Ok tt, a) ->
    authority_step s (System a (<[t := ExternalFrame :: frames_of s t]> (frames s)) (phases s))
| step_admission s t :
    authority_step s (System (admission_enter t (authority s)) (<[t := ExternalFrame :: frames_of s t]> (frames s)) (phases s))
| step_external_exit s t fs :
    frames_of s t = ExternalFrame :: fs ->
    authority_step s (System (external_exit t (authority s)) (<[t := fs]> (frames s)) (phases s))
| step_begin s w :
    phases s !! w = None ->
    authority_step s (System (reserve_begin w (authority s)) (frames s)
      (<[w := if bool_decide (w ∈ granted (reserve_begin w (authority s))) then Holding else Waiting]> (phases s)))
| step_complete s w :
    phases s !! w = Some Waiting -> w ∈ granted (authority s) ->
    authority_step s (System (complete_waiter w (authority s)) (frames s) (phases s))
| step_cancel s w :
    phases s !! w = Some Waiting ->
    authority_step s (System (cancel_future w (authority s)) (frames s) (phases s))
| step_resume s w :
    phases s !! w = Some Waiting -> future_of (authority s) w = Resolved ->
    authority_step s (System (authority s) (frames s) (<[w := Holding]> (phases s)))
| step_abandon s w r a :
    phases s !! w = Some Waiting -> future_of (authority s) w <> Pending ->
    abandon_wait w (authority s) = (r, a) ->
    authority_step s (System a (frames s) (<[w := Finished]> (phases s)))
| step_leave s w r a :
    phases s !! w = Some Holding -> (forall t, ReservedFrame w ∉ frames_of s t) ->
    release_reservation w (authority s) = (r, a) ->
    authority_step s (System a (frames s) (<[w := Finished]> (phases s))).
