(* ===== verification/MutationFacts.v ===== *)
(** The invariant of the mutation authority: who may hold the permit, who waits
    for it, and what the frames of the threads say about both. *)
From S2P Require Import Prelude.
From S2P Require Import Stateful.
From S2P Require Import OperationModel.
From S2P Require Import MutationAuthority.
Local Open Scope string_scope.
Local Open Scope list_scope.

(** ** The queue *)

Definition is_cancelled (a : RuntimeMutationAuthority) (w : waiter) : Prop := future_of a w = FutureCancelled.
#[export] Instance is_cancelled_dec a w : Decision (is_cancelled a w).
Proof. unfold is_cancelled. apply _. Defined.

Lemma next_waiter_Some a queue w rest :
  next_waiter a queue = (Some w, rest) ->
  exists skipped, queue = skipped ++ w :: rest /\ Forall (is_cancelled a) skipped /\ ~ is_cancelled a w.
Proof.
  induction queue as [|x queue IH]; simpl; [done|]. destruct (decide (future_of a x = FutureCancelled)) as [Hc|Hc].
  - intros (skipped & -> & Hs & Hw)%IH. exists (x :: skipped). split; [done|]. split; [by constructor|done].
  - intros [= <- <-]. exists []. split; [done|]. split; [constructor|done].
Qed.

Lemma next_waiter_None a queue rest :
  next_waiter a queue = (None, rest) -> rest = [] /\ Forall (is_cancelled a) queue.
Proof.
  induction queue as [|x queue IH]; simpl; [by intros [= <-]|]. destruct (decide (future_of a x = FutureCancelled)) as [Hc|Hc].
  - intros [-> Hs]%IH. split; [done|by constructor].
  - done.
Qed.

(** Every waiter is queued, granted, or cancelled and forgotten. *)
Record queue_inv (a : RuntimeMutationAuthority) (ph : gmap waiter phase) : Prop := {
  q_nodup : NoDup (async_waiters a);
  q_queue : forall w, w ∈ async_waiters a -> ph !! w = Some Waiting /\ (w ∉ granted a);
  q_waiting : forall w, ph !! w = Some Waiting -> w ∈ async_waiters a \/ (w ∈ granted a) \/ is_cancelled a w;
  q_granted : forall w, w ∈ granted a -> ph !! w = Some Finished \/ reservation a = Some w;
  q_reservation : forall w, reservation a = Some w -> (w ∈ granted a) /\ (ph !! w = Some Waiting \/ ph !! w = Some Holding);
  q_holding : forall w, ph !! w = Some Holding -> reservation a = Some w;
  q_resolved : forall w, future_of a w = Resolved -> w ∈ granted a;
  q_new : forall w, ph !! w = None -> (w ∉ granted a) /\ future_of a w = Pending;
}.

(** The permit has at most one kind of holder, and is not free while a waiter
    is queued. *)
Record permit_inv (a : RuntimeMutationAuthority) : Prop := {
  p_exclusive : owner_thread a = None \/ reservation a = None;
  p_free : permit_is_free a = true -> async_waiters a = [];
}.

Lemma permit_is_free_iff a : permit_is_free a = true <-> owner_thread a = None /\ reservation a = None.
Proof. unfold permit_is_free. by rewrite andb_true_iff, !bool_decide_eq_true. Qed.

(** Granting a free permit serves the queue. *)
Lemma grant_inv a ph :
  owner_thread a = None -> reservation a = None -> queue_inv a ph ->
  queue_inv (grant_next_waiter a) ph /\ permit_inv (grant_next_waiter a) /\ owner_thread (grant_next_waiter a) = None /\
  depth (grant_next_waiter a) = depth a /\ external_depth (grant_next_waiter a) = external_depth a /\
  (reservation (grant_next_waiter a) = None -> notifications a < notifications (grant_next_waiter a)).
Proof.
  intros Ho Hr [Hnd Hq Hw Hg Hres Hh Hrd Hn]. unfold grant_next_waiter.
  destruct (next_waiter a (async_waiters a)) as [[w|] rest] eqn:En.
  - apply next_waiter_Some in En as (skipped & Eq & Hsk & Hnc). rewrite Eq in *. apply NoDup_app in Hnd as (Hnd1 & Hd & Hnd2).
    inversion Hnd2 as [|? ? Hnw Hnd3]; subst. destruct (Hq w) as [Hww Hwg]; [set_solver|].
    split_and!; [split|split| | | |]; cbn; try done.
    + intros x Hx. destruct (Hq x) as [? ?]; [set_solver|]. split; [done|]. set_solver.
    + intros x Hx. destruct (Hw x Hx) as [Hin|[Hin|Hin]]; [|set_solver|by right; right].
      apply elem_of_app in Hin as [Hin|Hin]; [|set_solver]. right; right. by eapply (proj1 (Forall_forall _ _)) in Hin.
    + intros x [->%elem_of_singleton|Hx]%elem_of_union; [by right|]. destruct (Hg x Hx) as [?|?]; [by left|congruence].
    + intros x [= ->]. split; [set_solver|by left].
    + intros x Hx. exfalso. specialize (Hh x Hx). congruence.
    + intros x Hx. specialize (Hrd x Hx). set_solver.
    + intros x Hx. destruct (Hn x Hx). split; [|done]. assert (x <> w) by congruence. set_solver.
    + by left.
    + rewrite permit_is_free_iff. cbn. naive_solver.
  - apply next_waiter_None in En as [-> Hall]. split_and!; [split|split| | | |]; cbn; try done.
    + constructor.
    + intros x Hx. by apply not_elem_of_nil in Hx.
    + intros x Hx. destruct (Hw x Hx) as [Hin|[Hin|Hin]]; [|by right; left|by right; right].
      right; right. by eapply (proj1 (Forall_forall _ _)) in Hin.
    + by left.
    + lia.
Qed.

(** ** The frames *)

Definition owned_frames (fs : list frame) : Z := Z.of_nat (length (base.filter (fun f => f = OwnedFrame) fs)).
Definition external_frames (fs : list frame) : Z := Z.of_nat (length (base.filter (fun f => f = ExternalFrame) fs)).

Record frame_inv (s : system) : Prop := {
  f_owner : forall t, OwnedFrame ∈ frames_of s t -> owner_thread (authority s) = Some t;
  f_depth : match owner_thread (authority s) with
            | Some t => depth (authority s) = owned_frames (frames_of s t) /\ (1 <= depth (authority s))%Z
            | None => depth (authority s) = 0%Z
            end;
  f_reserved : forall t w, ReservedFrame w ∈ frames_of s t -> phases s !! w = Some Holding;
  f_external : forall t, external_depth_of (authority s) t = external_frames (frames_of s t);
}.

Record system_inv (s : system) : Prop := {
  s_queue : queue_inv (authority s) (phases s);
  s_permit : permit_inv (authority s);
  s_frames : frame_inv s;
}.

Lemma owned_cons f fs : owned_frames (f :: fs) = ((if decide (f = OwnedFrame) then 1 else 0) + owned_frames fs)%Z.
Proof. unfold owned_frames. rewrite filter_cons. case_decide; cbn; lia. Qed.
Lemma external_cons f fs : external_frames (f :: fs) = ((if decide (f = ExternalFrame) then 1 else 0) + external_frames fs)%Z.
Proof. unfold external_frames. rewrite filter_cons. case_decide; cbn; lia. Qed.
Lemma owned_nonneg fs : (0 <= owned_frames fs)%Z.
Proof. unfold owned_frames. lia. Qed.
Lemma owned_zero fs : owned_frames fs = 0%Z <-> OwnedFrame ∉ fs.
Proof.
  induction fs as [|f fs IH]; [split; [by intros _ ?%not_elem_of_nil|done]|]. rewrite owned_cons.
  pose proof (owned_nonneg fs). rewrite elem_of_cons. case_decide; [subst; split; [lia|tauto]|].
  split; [intros Hz [?|?]; [congruence|apply IH in Hz; tauto]|]. intros Hn. apply IH. tauto.
Qed.
Lemma external_positive fs : ExternalFrame ∈ fs -> (0 < external_frames fs)%Z.
Proof.
  induction fs as [|f fs IH]; [by intros ?%not_elem_of_nil|]. rewrite external_cons, elem_of_cons.
  assert (0 <= external_frames fs)%Z by (unfold external_frames; lia). case_decide; [lia|]. intros [?|?]; [congruence|]. specialize (IH H1). lia.
Qed.

Lemma frames_of_insert a fr ph t fs t' :
  frames_of (System a (<[t := fs]> fr) ph) t' = if decide (t' = t) then fs else default [] (fr !! t').
Proof. unfold frames_of. cbn. case_decide; [subst; by rewrite lookup_insert_eq|by rewrite lookup_insert_ne]. Qed.

Lemma new_system_inv : system_inv new_system.
Proof.
  split; [split|split|split]; cbn; try done.
  all: try (by constructor); try (by left).
  all: try (intros ?; unfold future_of, frames_of; cbn; rewrite ?lookup_empty; done || set_solver).
Qed.

(** ** Sections keep the invariant *)

Lemma queue_inv_ext a a' ph :
  async_waiters a' = async_waiters a -> granted a' = granted a -> reservation a' = reservation a -> futures a' = futures a ->
  queue_inv a ph -> queue_inv a' ph.
Proof.
  intros Eq Eg Er Ef [? ? ? ? ? ? ? ?]. assert (forall w, future_of a' w = future_of a w) as Efo by (intros w; unfold future_of; by rewrite Ef).
  split; unfold is_cancelled in *; rewrite ?Eq, ?Eg, ?Er; try setoid_rewrite Efo; done.
Qed.

Lemma frames_replace s t fs a ph t' :
  frames_of (System a (<[t := fs]> (frames s)) ph) t' = if decide (t' = t) then fs else frames_of s t'.
Proof. by rewrite frames_of_insert. Qed.

Lemma enter_cases t active probe kind a a' :
  mutation_enter t active probe kind a = Some (Ok tt, a') ->
  external_depth_of a t = 0%Z /\
  ((exists w, active = Some w /\ reservation a = Some w /\ owner_thread a' = owner_thread a /\ depth a' = depth a) \/
   (active = None /\ owner_thread a' = Some t /\
    (owner_thread a = Some t /\ depth a' = (depth a + 1)%Z \/ sync_permit_available a = true /\ depth a' = 1%Z))) /\
  async_waiters a' = async_waiters a /\ granted a' = granted a /\ reservation a' = reservation a /\ futures a' = futures a /\
  external_depth a' = external_depth a /\ notifications a' = notifications a.
Proof.
  unfold mutation_enter, enter_permit. destruct (Z.eqb_spec (external_depth_of a t) 0) as [He|]; [|done]. destruct active as [w|].
  - case_bool_decide as Hr; [done|]. intros [= <-]. split; [done|]. split; [|done]. left. exists w.
    destruct (decide (reservation a = Some w)); [done|tauto].
  - case_bool_decide as Ho; [intros [= <-]; split; [done|]; split; [|done]; right; split; [done|]; split; [done|by left]|].
    destruct probe; [done|]. destruct (sync_permit_available a) eqn:Es; [|done]. intros [= <-]. split; [done|]. split; [|done].
    right. split; [done|]. split; [done|by right].
Qed.

Lemma sync_available_iff a :
  sync_permit_available a = true <-> owner_thread a = None /\ reservation a = None /\ async_waiters a = [].
Proof. unfold sync_permit_available. rewrite andb_true_iff, permit_is_free_iff, bool_decide_eq_true. tauto. Qed.

Lemma enter_inv s t active probe kind a :
  (forall w, active = Some w -> phases s !! w = Some Holding \/ phases s !! w = Some Finished) ->
  mutation_enter t active probe kind (authority s) = Some (Ok tt, a) -> system_inv s ->
  system_inv (System a (<[t := frame_of active :: frames_of s t]> (frames s)) (phases s)).
Proof.
  intros Hctx Hen [Hq [Hex Hfree] [Ho Hd Hr He]].
  apply enter_cases in Hen as (Hext & Hcase & Ea & Eg & Er & Ef & Eext & _).
  split; cbn; [by eapply queue_inv_ext|split|split]; cbn [authority phases].
  - destruct Hcase as [(w & -> & Hw & -> & _)|(-> & -> & [[Hot _]|[Hs _]])]; rewrite Er; [done|right..].
    + destruct Hex; [congruence|done].
    + by apply sync_available_iff in Hs as (_ & ? & _).
  - rewrite permit_is_free_iff, Ea. intros [Hn Hn']. apply Hfree. apply permit_is_free_iff.
    destruct Hcase as [(w & _ & _ & Hw & _)|(_ & Hw & _)]; [|congruence]. split; congruence.
  - intros t'. rewrite frames_replace. destruct Hcase as [(w & -> & Hw & Hwo & _)|(-> & -> & Hcase)]; cbn.
    + rewrite Hwo. case_decide; [subst|apply Ho]. rewrite elem_of_cons. intros [?|?]; [done|by apply Ho].
    + case_decide; [by subst|]. intros Hin%Ho. destruct Hcase as [[? _]|[Hs _]]; [congruence|].
      apply sync_available_iff in Hs as (? & _). congruence.
  - destruct Hcase as [(w & -> & Hw & Hwo & Hwd)|(-> & -> & Hcase)]; cbn.
    + rewrite Hwo. destruct Hex as [Hex|]; [|congruence]. rewrite Hex in *. congruence.
    + rewrite frames_replace, decide_True, owned_cons, decide_True by done. destruct Hcase as [[Ho' ->]|[Hs ->]].
      * rewrite Ho' in Hd. lia.
      * apply sync_available_iff in Hs as (Hn & _). assert (OwnedFrame ∉ frames_of s t) as Hnot.
        { intros Hin%Ho. congruence. }
        apply owned_zero in Hnot. lia.
  - intros t' w'. rewrite frames_replace. destruct Hcase as [(w & -> & Hw & Hwo & _)|(-> & Hwo & Hcase)]; cbn.
    + case_decide; [subst|by apply Hr]. rewrite elem_of_cons. intros [[= ->]|Hin]; [|by eapply Hr].
      destruct (Hctx w eq_refl) as [?|Hfin]; [done|]. destruct (q_reservation _ _ Hq w Hw) as [_ [?|?]]; congruence.
    + case_decide; [subst|by apply Hr]. rewrite elem_of_cons. intros [?|Hin]; [done|by eapply Hr].
  - intros t'. rewrite frames_replace. unfold external_depth_of in *. rewrite Eext. specialize (He t'). case_decide; [subst|done].
    rewrite external_cons, decide_False by (by destruct active). lia.
Qed.

(** The queue, the permit, the owner's depth and the external depths of an
    authority that has just been given up and granted on. *)
Lemma frame_inv_free s a fr ph :
  owner_thread a = None -> depth a = 0%Z ->
  (forall t, OwnedFrame ∉ frames_of (System a fr ph) t) ->
  (forall t w, ReservedFrame w ∈ frames_of (System a fr ph) t -> ph !! w = Some Holding) ->
  external_depth a = external_depth (authority s) ->
  (forall t, external_frames (frames_of (System a fr ph) t) = external_frames (frames_of s t)) ->
  frame_inv s -> frame_inv (System a fr ph).
Proof.
  intros Ho Hd Hown Hres Hext Hfr [_ _ _ He]. split; cbn.
  - intros t Hin. by destruct (Hown t).
  - by rewrite Ho.
  - done.
  - intros t. unfold external_depth_of in *. rewrite Hext, Hfr. apply He.
Qed.

Lemma exit_inv s t f fs :
  frames_of s t = f :: fs -> f <> ExternalFrame -> system_inv s ->
  system_inv (System (mutation_exit t (is_reserved f) (authority s)) (<[t := fs]> (frames s)) (phases s)).
Proof.
  intros Hf Hne [Hq [Hex Hfree] Hfr]. pose proof Hfr as [Ho Hd Hr He].
  assert (forall a t', external_frames (frames_of (System a (<[t := fs]> (frames s)) (phases s)) t') = external_frames (frames_of s t')) as Hef.
  { intros a t'. rewrite frames_replace. case_decide; [subst|done]. rewrite Hf, external_cons, decide_False by done. lia. }
  assert (forall a t' f', f' ∈ frames_of (System a (<[t := fs]> (frames s)) (phases s)) t' -> f' ∈ frames_of s t') as Hsub.
  { intros a t' f'. rewrite frames_replace. case_decide; [subst; rewrite Hf; set_solver|done]. }
  destruct f as [|w|]; [| |done].
  - assert (owner_thread (authority s) = Some t) as Hot by (apply Ho; rewrite Hf; left).
    rewrite Hot in Hd. rewrite Hf, owned_cons, decide_True in Hd by done. destruct Hd as [Hd Hpos].
    assert (reservation (authority s) = None) as Hres by (destruct Hex; congruence).
    unfold mutation_exit. cbn [is_reserved]. set (a := set_kinds _ _ _). cbn [depth set_owner].
    destruct (Z.eqb_spec (depth a - 1) 0) as [Hz|Hz]; cbn in Hz.
    + destruct (grant_inv (set_owner None (depth a - 1) (set_owner (owner_thread a) (depth a - 1) a)) (phases s))
        as (Hq' & Hp' & Ho' & Hd' & He' & _); [done|done|by apply (queue_inv_ext (authority s))|].
      split; [done|done|]. eapply frame_inv_free with (s := s); [done|rewrite Hd'; cbn; lia| | |rewrite He'; done|apply Hef|done].
      * intros t' Hin. pose proof (Hsub _ _ _ Hin) as Hin'. apply Ho in Hin'. rewrite Hot in Hin'. injection Hin' as <-.
        rewrite frames_replace, decide_True in Hin by done. revert Hin. apply owned_zero. lia.
      * intros t' w' Hin. eapply Hr, Hsub, Hin.
    + split; [by apply (queue_inv_ext (authority s))|split|split]; cbn.
      * by right.
      * rewrite permit_is_free_iff. cbn. rewrite Hot. by intros [? _].
      * intros t' Hin. eapply Ho, Hsub, Hin.
      * rewrite Hot, frames_replace, decide_True by done. lia.
      * intros t' w' Hin. eapply Hr, Hsub, Hin.
      * intros t'. rewrite Hef. apply He.
  - split; [by apply (queue_inv_ext (authority s))|split|split]; cbn; [done|done| | | |].
    + intros t' Hin. eapply Ho, Hsub, Hin.
    + destruct (owner_thread (authority s)) as [t'|]; [|done]. rewrite frames_replace. case_decide; [subst|done].
      rewrite Hf, owned_cons, decide_False in Hd by done. lia.
    + intros t' w' Hin. eapply Hr, Hsub, Hin.
    + intros t'. rewrite Hef. apply He.
Qed.

(** Changes of the external depth. *)
Lemma external_inv s t fs d :
  (forall f, f <> ExternalFrame -> (f ∈ fs <-> f ∈ frames_of s t)) -> owned_frames fs = owned_frames (frames_of s t) ->
  d = external_frames fs -> system_inv s ->
  system_inv (System (set_external t d (authority s)) (<[t := fs]> (frames s)) (phases s)).
Proof.
  intros Hsame Hown -> [Hq [Hex Hfree] [Ho Hd Hr He]].
  split; [by apply (queue_inv_ext (authority s))|split|split]; cbn; [done|done| | | |].
  - intros t'. rewrite frames_replace. case_decide; [subst|apply Ho]. intros Hin%Hsame; [by apply Ho|done].
  - destruct (owner_thread (authority s)) as [t'|]; [|done]. rewrite frames_replace. case_decide; [subst; by rewrite Hown|done].
  - intros t' w. rewrite frames_replace. case_decide; [subst|apply Hr]. intros Hin%Hsame; [by eapply Hr|done].
  - intros t'. rewrite frames_replace. unfold external_depth_of in *. cbn. case_decide as Ht.
    + subst. by rewrite lookup_insert_eq.
    + rewrite lookup_insert_ne by done. apply He.
Qed.

(** A task finishes after giving its reservation back. *)
Lemma release_inv s w r a :
  reservation (authority s) = Some w -> (forall t, ReservedFrame w ∉ frames_of s t) ->
  release_reservation w (authority s) = (r, a) -> system_inv s ->
  r = Ok tt /\ system_inv (System a (frames s) (<[w := Finished]> (phases s))).
Proof.
  intros Hw Hnot Hrel [[Hnd Hq Hwt Hg Hres Hh Hrd Hn] [Hex Hfree] Hfr]. pose proof Hfr as [Ho Hd Hr He].
  unfold release_reservation in Hrel. rewrite bool_decide_eq_false_2 in Hrel by tauto. injection Hrel as <- <-. split; [done|].
  assert (owner_thread (authority s) = None) as Hno by (destruct Hex; congruence). rewrite Hno in Hd.
  destruct (Hres w Hw) as [Hwg Hwp].
  destruct (grant_inv (set_queue None (async_waiters (authority s)) (granted (authority s)) (authority s)) (<[w := Finished]> (phases s)))
    as (Hq' & Hp' & Ho' & Hd' & He' & _); [done|done| |].
  { split; cbn; [done|..].
    - intros x Hx. destruct (Hq x Hx). assert (x <> w) by congruence. by rewrite lookup_insert_ne.
    - intros x [[_ ?]|[? Hx]]%lookup_insert_Some; [done|]. by apply Hwt.
    - intros x Hx. destruct (decide (x = w)) as [-> |Hxw]; [left; by rewrite lookup_insert_eq|].
      rewrite lookup_insert_ne by done. destruct (Hg x Hx); [by left|congruence].
    - done.
    - intros x [[_ ?]|[Hxw Hx]]%lookup_insert_Some; [done|]. apply Hh in Hx. congruence.
    - done.
    - intros x [Hxw Hx]%lookup_insert_None. by apply Hn. }
  split; [done|done|]. eapply frame_inv_free with (s := s); [done|by rewrite Hd'| | |by rewrite He'|done|done].
  - intros t Hin. apply Ho in Hin. congruence.
  - intros t w' Hin. assert (w' <> w) by (intros ->; by apply (Hnot t)). rewrite lookup_insert_ne by done. by eapply Hr.
Qed.

Lemma future_of_set w f a x : future_of (set_future w f a) x = if decide (x = w) then f else future_of a x.
Proof. unfold future_of. cbn. case_decide; [subst; by rewrite lookup_insert_eq|by rewrite lookup_insert_ne]. Qed.

(** A future that settles while its task waits. *)
Lemma settle_inv s w f :
  phases s !! w = Some Waiting -> future_of (authority s) w = Pending -> f <> Pending ->
  (f = Resolved -> w ∈ granted (authority s)) -> system_inv s ->
  system_inv (System (set_future w f (authority s)) (frames s) (phases s)).
Proof.
  intros Hw Hp Hf Hfg [[Hnd Hq Hwt Hg Hres Hh Hrd Hn] [Hex Hfree] [Ho Hd Hr He]].
  split; [split|by split|by split]; cbn; [done|done| |done|done|done| |].
  - intros x Hx. destruct (Hwt x Hx) as [?|[?|Hc]]; [by left|by right; left|]. right; right.
    unfold is_cancelled in *. rewrite future_of_set. case_decide; [subst; congruence|done].
  - intros x. rewrite future_of_set. case_decide; [subst|apply Hrd]. by intros ->; apply Hfg.
  - intros x Hx. rewrite future_of_set, decide_False by congruence. by apply Hn.
Qed.

Lemma complete_inv s w :
  phases s !! w = Some Waiting -> w ∈ granted (authority s) -> system_inv s ->
  system_inv (System (complete_waiter w (authority s)) (frames s) (phases s)).
Proof.
  intros Hw Hg Hs. unfold complete_waiter. case_decide; [by apply settle_inv|]. by destruct s.
Qed.

Lemma cancel_inv s w :
  phases s !! w = Some Waiting -> system_inv s -> system_inv (System (cancel_future w (authority s)) (frames s) (phases s)).
Proof.
  intros Hw Hs. unfold cancel_future. case_decide; [by apply settle_inv|]. by destruct s.
Qed.

Lemma resume_inv s w :
  phases s !! w = Some Waiting -> future_of (authority s) w = Resolved -> system_inv s ->
  system_inv (System (authority s) (frames s) (<[w := Holding]> (phases s))).
Proof.
  intros Hw Hf [[Hnd Hq Hwt Hg Hres Hh Hrd Hn] Hp [Ho Hd Hr He]]. pose proof (Hrd w Hf) as Hgw.
  destruct (Hg w Hgw) as [?|Hrw]; [congruence|].
  split; [split|done|split]; cbn; try done.
  - intros x Hx. destruct (Hq x Hx). assert (x <> w) by congruence. by rewrite lookup_insert_ne.
  - intros x [[_ ?]|[? Hx]]%lookup_insert_Some; [done|]. by apply Hwt.
  - intros x Hx. destruct (decide (x = w)) as [-> |]; [by right|]. rewrite lookup_insert_ne by done. by apply Hg.
  - intros x Hx. split; [by apply Hres|]. destruct (decide (x = w)) as [-> |]; [right; by rewrite lookup_insert_eq|congruence].
  - intros x [[<- _]|[_ Hx]]%lookup_insert_Some; [done|by apply Hh].
  - intros x [Hx _]%lookup_insert_None. by apply Hn.
  - intros t x Hin. pose proof (Hr t x Hin). assert (x <> w) by congruence. by rewrite lookup_insert_ne.
Qed.

(** The request of a new reservation. *)
Lemma begin_cases w a :
  w ∉ granted a ->
  (permit_is_free a = true /\ async_waiters a = [] /\ reserve_begin w a = set_queue (Some w) [] ({[w]} ∪ granted a) a /\
   w ∈ granted (reserve_begin w a)) \/
  (~ (permit_is_free a = true /\ async_waiters a = []) /\
   reserve_begin w a = set_queue (reservation a) (async_waiters a ++ [w]) (granted a) a /\ w ∉ granted (reserve_begin w a)).
Proof.
  intros Hg. unfold reserve_begin. destruct (permit_is_free a && bool_decide (async_waiters a = [])) eqn:E.
  - apply andb_true_iff in E as [? Hq%bool_decide_eq_true]. left. rewrite Hq. split_and!; [done..|]. cbn. set_solver.
  - right. split; [|done]. intros [Hf Hq]. by rewrite Hf, Hq in E.
Qed.

Lemma begin_inv s w :
  phases s !! w = None -> system_inv s ->
  system_inv (System (reserve_begin w (authority s)) (frames s)
    (<[w := if bool_decide (w ∈ granted (reserve_begin w (authority s))) then Holding else Waiting]> (phases s))).
Proof.
  intros Hw [[Hnd Hq Hwt Hg Hres Hh Hrd Hn] [Hex Hfree] [Ho Hd Hr He]]. destruct (Hn w Hw) as [Hwg Hwf].
  assert (w ∉ async_waiters (authority s)) as Hwq by (intros Hin; destruct (Hq w Hin); congruence).
  destruct (begin_cases w (authority s) Hwg) as [(Hf & Hnil & Hb & Hin)|(Hnf & Hb & Hin)].
  - rewrite bool_decide_eq_true_2 by done. rewrite Hb. apply permit_is_free_iff in Hf as [Hno Hnr].
    split; [split|split|split]; cbn; try done.
    + constructor.
    + intros x Hx. by apply not_elem_of_nil in Hx.
    + intros x [[_ ?]|[Hne Hx]]%lookup_insert_Some; [done|]. destruct (Hwt x Hx) as [Hxq|[?|?]]; [|right; left; set_solver|by right; right].
      rewrite Hnil in Hxq. by apply not_elem_of_nil in Hxq.
    + intros x [->%elem_of_singleton|Hx]%elem_of_union; [by right|]. assert (x <> w) by congruence. rewrite lookup_insert_ne by done.
      destruct (Hg x Hx); [by left|congruence].
    + intros x [= <-]. split; [set_solver|]. right. by rewrite lookup_insert_eq.
    + intros x [[-> _]|[_ Hx]]%lookup_insert_Some; [done|]. apply Hh in Hx. congruence.
    + intros x Hx. specialize (Hrd x Hx). set_solver.
    + intros x [Hx Hne]%lookup_insert_None. destruct (Hn x Hx). split; [set_solver|done].
    + by left.
    + intros t x Hx. pose proof (Hr t x Hx). assert (x <> w) by congruence. by rewrite lookup_insert_ne.
  - rewrite bool_decide_eq_false_2 by done. rewrite Hb.
    split; [split|split|split]; cbn; try done.
    + apply NoDup_app. split_and!; [done| |apply NoDup_singleton]. set_solver.
    + intros x [Hx| ->%list_elem_of_singleton]%elem_of_app; [|by rewrite lookup_insert_eq].
      destruct (Hq x Hx). assert (x <> w) by congruence. by rewrite lookup_insert_ne.
    + intros x [[-> _]|[_ Hx]]%lookup_insert_Some; [left; set_solver|]. destruct (Hwt x Hx) as [?|?]; [left; set_solver|by right].
    + intros x Hx. assert (x <> w) by congruence. rewrite lookup_insert_ne by done. by apply Hg.
    + intros x Hx. destruct (Hres x Hx). assert (x <> w) by congruence. by rewrite lookup_insert_ne.
    + intros x [[_ ?]|[_ Hx]]%lookup_insert_Some; [done|by apply Hh].
    + intros x [Hx _]%lookup_insert_None. by apply Hn.
    + unfold permit_is_free. cbn. intros Hf. destruct Hnf. split; [exact Hf|by apply Hfree].
    + intros t x Hx. pose proof (Hr t x Hx). assert (x <> w) by congruence. by rewrite lookup_insert_ne.
Qed.

(** A task that gives up before its grant leaves the queue, or was forgotten by
    a grant that skipped it. *)
Lemma forget_inv s w queue :
  phases s !! w = Some Waiting -> w ∉ granted (authority s) ->
  queue = filter (fun x => x <> w) (async_waiters (authority s)) -> system_inv s ->
  system_inv (System (set_queue (reservation (authority s)) queue (granted (authority s)) (authority s)) (frames s)
    (<[w := Finished]> (phases s))).
Proof.
  intros Hw Hwg -> [[Hnd Hq Hwt Hg Hres Hh Hrd Hn] [Hex Hfree] [Ho Hd Hr He]].
  split; [split|split|split]; cbn; try done.
  - by apply NoDup_filter.
  - intros x [Hxw Hx]%list_elem_of_filter. rewrite lookup_insert_ne by done. by apply Hq.
  - intros x [[_ ?]|[? Hx]]%lookup_insert_Some; [done|]. destruct (Hwt x Hx) as [?|?]; [left|by right]. by apply list_elem_of_filter.
  - intros x Hx. assert (x <> w) by congruence. rewrite lookup_insert_ne by done. by apply Hg.
  - intros x Hx. destruct (Hres x Hx). assert (x <> w) by congruence. by rewrite lookup_insert_ne.
  - intros x [[_ ?]|[_ Hx]]%lookup_insert_Some; [done|by apply Hh].
  - intros x [Hx _]%lookup_insert_None. by apply Hn.
  - unfold permit_is_free. cbn. intros Hf. unfold permit_is_free in Hfree. by rewrite (Hfree Hf).
  - intros t x Hx. pose proof (Hr t x Hx). assert (x <> w) by congruence. by rewrite lookup_insert_ne.
Qed.

Lemma filter_absent (w : waiter) (l : list waiter) : w ∉ l -> filter (fun x => x <> w) l = l.
Proof.
  induction l as [|x l IH]; intros Hw; [done|]. rewrite filter_cons_True by set_solver. f_equal. apply IH. set_solver.
Qed.

Lemma abandon_inv s w r a :
  phases s !! w = Some Waiting -> abandon_wait w (authority s) = (r, a) -> system_inv s ->
  system_inv (System a (frames s) (<[w := Finished]> (phases s))).
Proof.
  intros Hw Hab Hs. unfold abandon_wait in Hab. case_bool_decide as Hg.
  - destruct (q_granted _ _ (s_queue s Hs) w Hg) as [?|Hrw]; [congruence|]. eapply release_inv; eauto.
    intros t Hin. pose proof (f_reserved s (s_frames s Hs) t w Hin). congruence.
  - case_bool_decide as Hin; injection Hab as _ <-; [by apply forget_inv|].
    pose proof (forget_inv s w (async_waiters (authority s)) Hw Hg) as H. rewrite filter_absent in H by done.
    specialize (H eq_refl Hs). by destruct (authority s).
Qed.

Lemma step_inv s s' : authority_step s s' -> system_inv s -> system_inv s'.
Proof.
  destruct 1 as [s t active probe kind a Hctx Hen|s t f fs Hf Hne|s t active a Hext|s t|s t fs Hf|s w Hw|s w Hw Hg|s w Hw
    |s w Hw Hf|s w r a Hw Hf Hab|s w r a Hw Hnot Hrel]; intros Hs.
  - by eapply enter_inv.
  - by apply exit_inv.
  - unfold external_enter in Hext. destruct (owns_current_thread _ _ _); [|done]. injection Hext as <-.
    apply external_inv; [set_solver|by rewrite owned_cons, decide_False| |done].
    rewrite external_cons, decide_True, (f_external s (s_frames s Hs)) by done. lia.
  - apply external_inv; [set_solver|by rewrite owned_cons, decide_False| |done].
    rewrite external_cons, decide_True, (f_external s (s_frames s Hs)) by done. lia.
  - apply external_inv; [rewrite Hf; set_solver|by rewrite Hf, owned_cons, decide_False| |done].
    rewrite (f_external s (s_frames s Hs)), Hf, external_cons, decide_True by done. lia.
  - by apply begin_inv.
  - by apply complete_inv.
  - by apply cancel_inv.
  - by apply resume_inv.
  - by eapply abandon_inv.
  - eapply release_inv; eauto. by apply (q_holding _ _ (s_queue s Hs)).
Qed.

Lemma runs_inv s : rtc authority_step new_system s -> system_inv s.
Proof.
  apply (rtc_ind_r system_inv); [apply new_system_inv|]. intros s1 s2 _ Hstep. by apply step_inv.
Qed.
