(* ===== verification/MutationSpec.v ===== *)
(** What the mutation authority promises: one holder at a time, no mutation from
    inside external work, no lost wake-up, and waiters served in order. *)
From S2P Require Import Prelude.
From S2P Require Import Stateful.
From S2P Require Import OperationModel.
From S2P Require Import MutationAuthority.
From S2P Require Import MutationFacts.
Local Open Scope string_scope.
Local Open Scope list_scope.

(** C23: over every interleaving of threads and tasks the permit is exclusive:
    two threads are inside mutations only under one lent reservation, a lent
    reservation is the active one, its task holds it, and excludes an owning
    thread; and a thread inside external work is refused every mutation. *)
Theorem mutation_exclusive s :
  rtc authority_step new_system s ->
  (forall t t', OwnedFrame ∈ frames_of s t -> OwnedFrame ∈ frames_of s t' -> t = t') /\
  (forall t w, OwnedFrame ∈ frames_of s t -> phases s !! w <> Some Holding) /\
  (forall w w', phases s !! w = Some Holding -> phases s !! w' = Some Holding -> w = w') /\
  (forall t w, ReservedFrame w ∈ frames_of s t -> phases s !! w = Some Holding /\ reservation (authority s) = Some w) /\
  (forall t active probe kind, ExternalFrame ∈ frames_of s t ->
     mutation_enter t active probe kind (authority s) = Some (Raise (RuntimeError BACKEND_REENTRY_ERROR), authority s)).
Proof.
  intros [Hq [Hex _] [Ho _ Hr He]]%runs_inv. pose proof (q_holding _ _ Hq) as Hh. split_and!.
  - intros t t' H1%Ho H2%Ho. congruence.
  - intros t w H1%Ho H2%Hh. destruct Hex; congruence.
  - intros w w' H1%Hh H2%Hh. congruence.
  - intros t w H1%Hr. split; [done|by apply Hh].
  - intros t active probe kind Hin. unfold mutation_enter. pose proof (external_positive _ Hin). specialize (He t).
    destruct (Z.eqb_spec (external_depth_of (authority s) t) 0); [lia|done].
Qed.

(** ** Wake-ups *)

Lemma grant_notifies a :
  reservation a = None ->
  sync_permit_available (grant_next_waiter a) = true -> notifications a < notifications (grant_next_waiter a).
Proof.
  intros Hr. unfold grant_next_waiter. destruct (next_waiter a (async_waiters a)) as [[w|] rest].
  - intros (_ & ? & _)%sync_available_iff. done.
  - cbn. lia.
Qed.

Lemma release_notifies w a r a' :
  reservation a = Some w -> release_reservation w a = (r, a') -> sync_permit_available a' = true -> notifications a < notifications a'.
Proof.
  intros Hw. unfold release_reservation. rewrite bool_decide_eq_false_2 by tauto. intros [= _ <-] Hs.
  by apply (grant_notifies (set_queue None (async_waiters a) (granted a) a)) in Hs.
Qed.

(** A blocked thread is woken: only a notifying step opens the permit. *)
Lemma step_notifies s s' :
  authority_step s s' -> system_inv s -> sync_permit_available (authority s) = false ->
  sync_permit_available (authority s') = true -> notifications (authority s) < notifications (authority s').
Proof.
  intros Hstep [Hq [Hex Hfree] [Ho Hd _ _]] Hno Hyes. assert (~ (owner_thread (authority s) = None /\
    reservation (authority s) = None /\ async_waiters (authority s) = [])) as Hnot.
  { intros H%sync_available_iff. congruence. }
  destruct Hstep as [s t active probe kind a Hctx Hen|s t f fs Hf Hne|s t active a Hext|s t|s t fs Hf|s w Hw|s w Hw Hg|s w Hw
    |s w Hw Hf|s w r a Hw Hf Hab|s w r a Hw Hnl Hrel]; cbn [authority] in *.
  - apply enter_cases in Hen as (_ & Hcase & Ea & _ & Er & _). apply sync_available_iff in Hyes as (H1 & H2 & H3).
    destruct Hcase as [(w & _ & Hw & _)|(_ & ? & _)]; congruence.
  - destruct f as [|w|]; [| |done].
    + assert (owner_thread (authority s) = Some t) as Hot by (apply Ho; rewrite Hf; left).
      unfold mutation_exit in *. cbn [is_reserved] in *. set (a := set_kinds _ _ _) in *. cbn [depth set_owner] in *.
      destruct (depth a - 1 =? 0)%Z; [|apply sync_available_iff in Hyes as (? & _); cbn in *; congruence].
      apply (grant_notifies (set_owner None (depth a - 1) (set_owner (owner_thread a) (depth a - 1) a))); [|done].
      cbn. destruct Hex; congruence.
    + apply sync_available_iff in Hyes. done.
  - unfold external_enter in Hext. destruct (owns_current_thread _ _ _); [|done]. injection Hext as <-.
    by apply sync_available_iff in Hyes.
  - by apply sync_available_iff in Hyes.
  - by apply sync_available_iff in Hyes.
  - apply sync_available_iff in Hyes as (H1 & H2 & H3). unfold reserve_begin in *.
    destruct (permit_is_free _ && _); [done|]. cbn in *. by destruct (async_waiters (authority s)).
  - unfold complete_waiter in Hyes. case_decide; apply sync_available_iff in Hyes; done.
  - unfold cancel_future in Hyes. case_decide; apply sync_available_iff in Hyes; done.
  - congruence.
  - unfold abandon_wait in Hab. case_bool_decide as Hg.
    + destruct (q_granted _ _ Hq w Hg) as [?|Hrw]; [congruence|]. by eapply release_notifies.
    + case_bool_decide as Hin; injection Hab as _ <-; [|congruence]. apply sync_available_iff in Hyes as (H1 & H2 & _). cbn in *.
      destruct Hnot. split_and!; [done..|]. apply Hfree, permit_is_free_iff. done.
  - eapply release_notifies; [|done..]. by apply (q_holding _ _ Hq).
Qed.

(** ** Order of service *)

(** The live waiters queued before [w]. *)
Fixpoint ahead (a : RuntimeMutationAuthority) (w : waiter) (queue : list waiter) : nat :=
  match queue with
  | [] => 0
  | x :: queue => if decide (x = w) then 0 else (if decide (is_cancelled a x) then 0 else 1) + ahead a w queue
  end.
Definition waiting_ahead (a : RuntimeMutationAuthority) (w : waiter) : nat := ahead a w (async_waiters a).

(** What a step does to a queued waiter [w]. *)
Definition kept (a a' : RuntimeMutationAuthority) (w : waiter) : Prop :=
  granted a' = granted a /\ (w ∈ async_waiters a') /\ waiting_ahead a' w <= waiting_ahead a w.
Definition advanced (a a' : RuntimeMutationAuthority) (w : waiter) : Prop :=
  exists x, (x ∉ granted a) /\ granted a' = {[x]} ∪ granted a /\
    (x = w \/ (w ∈ async_waiters a') /\ waiting_ahead a' w < waiting_ahead a w).

Lemma ahead_skip a w skipped queue :
  Forall (is_cancelled a) skipped -> w ∉ skipped -> ahead a w (skipped ++ queue) = ahead a w queue.
Proof.
  induction 1 as [|x skipped Hx _ IH]; intros Hw; [done|]. simpl. rewrite decide_False by set_solver.
  rewrite decide_True by done. apply IH. set_solver.
Qed.

Lemma ahead_app a w queue rest : w ∈ queue -> ahead a w (queue ++ rest) = ahead a w queue.
Proof.
  induction queue as [|x queue IH]; intros Hw; [by apply not_elem_of_nil in Hw|]. simpl. case_decide; [done|].
  f_equal. apply IH. set_solver.
Qed.

Lemma ahead_mono a a' w queue : (forall x, is_cancelled a x -> is_cancelled a' x) -> ahead a' w queue <= ahead a w queue.
Proof.
  intros Hc. induction queue as [|x queue IH]; simpl; [done|]. case_decide; [done|]. case_decide; case_decide; try lia.
  exfalso. auto.
Qed.

Lemma ahead_filter a w y queue : y <> w -> ahead a w (filter (fun x => x <> y) queue) <= ahead a w queue.
Proof.
  intros Hy. induction queue as [|x queue IH]; [done|]. destruct (decide (x = y)) as [->|Hxy].
  - rewrite filter_cons_False by tauto. simpl. rewrite decide_False by done. lia.
  - rewrite filter_cons_True by done. simpl. destruct (decide (x = w)); [done|]. lia.
Qed.

Lemma ahead_ext a a' w queue : futures a' = futures a -> ahead a' w queue = ahead a w queue.
Proof.
  intros Hf. induction queue as [|x queue IH]; simpl; [done|]. rewrite IH.
  assert (is_cancelled a' x <-> is_cancelled a x) by (unfold is_cancelled, future_of; by rewrite Hf).
  destruct (decide (is_cancelled a' x)), (decide (is_cancelled a x)); tauto.
Qed.

(** A grant serves [w] or a waiter ahead of it. *)
Lemma grant_advances a a0 w :
  async_waiters a = async_waiters a0 -> granted a = granted a0 -> futures a = futures a0 ->
  (forall x, x ∈ async_waiters a0 -> x ∉ granted a0) ->
  w ∈ async_waiters a0 -> ~ is_cancelled a0 w -> advanced a0 (grant_next_waiter a) w.
Proof.
  intros Ew Eg Ef Hng Hw Hc. unfold grant_next_waiter, advanced.
  assert (forall x, is_cancelled a x <-> is_cancelled a0 x) as Hca by (intros x; unfold is_cancelled, future_of; by rewrite Ef).
  destruct (next_waiter a (async_waiters a)) as [[x|] rest] eqn:En.
  - apply next_waiter_Some in En as (skipped & Eq & Hsk & Hnc). rewrite Ew in Eq. rewrite Eq in *. exists x.
    cbn [granted set_queue]. rewrite Eg. split; [apply Hng; set_solver|]. split; [done|]. destruct (decide (x = w)) as [->|Hxw]; [by left|right].
    assert (w ∉ skipped) as Hws by (intros Hin; apply Hc, Hca; by eapply (proj1 (Forall_forall _ _)) in Hin).
    cbn [async_waiters set_queue]. split; [set_solver|]. unfold waiting_ahead. cbn [async_waiters set_queue].
    rewrite (ahead_ext a0) by (by rewrite <-Ef). rewrite Eq.
    rewrite ahead_skip; [|by eapply Forall_impl; [exact Hsk|intros; by apply Hca]|done].
    simpl. rewrite decide_False by done. rewrite decide_False; [lia|]. by intros H%Hca.
  - apply next_waiter_None in En as [_ Hall]. exfalso. rewrite Ew in Hall. apply Hc, Hca. by eapply (proj1 (Forall_forall _ _)).
Qed.

Lemma kept_same a a' w :
  granted a' = granted a -> async_waiters a' = async_waiters a -> futures a' = futures a -> w ∈ async_waiters a -> kept a a' w.
Proof. intros Hg Ha Hf Hw. unfold kept, waiting_ahead. rewrite Ha. split_and!; [done..|]. by rewrite (ahead_ext a). Qed.

Lemma settle_kept a w x f : f <> Pending -> future_of a x = Pending -> w ∈ async_waiters a -> kept a (set_future x f a) w.
Proof.
  intros Hf Hx Hw. split_and!; [done|done|]. unfold waiting_ahead. cbn. apply ahead_mono. intros y Hy.
  unfold is_cancelled in *. rewrite future_of_set. case_decide; [congruence|done].
Qed.

Definition holder (a : RuntimeMutationAuthority) : option thread * option waiter := (owner_thread a, reservation a).

(** Giving the permit up, with a live waiter queued, is a grant. *)
Lemma step_serves s s' w :
  authority_step s s' -> system_inv s -> w ∈ async_waiters (authority s) -> future_of (authority s) w = Pending ->
  advanced (authority s) (authority s') w \/
  kept (authority s) (authority s') w /\ holder (authority s') = holder (authority s).
Proof.
  intros Hstep [Hq [Hex Hfree] [Ho Hd _ _]] Hw Hp. pose proof (q_queue _ _ Hq) as Hqq.
  assert (~ is_cancelled (authority s) w) as Hnc by (unfold is_cancelled; congruence).
  assert (forall x, x ∈ async_waiters (authority s) -> x ∉ granted (authority s)) as Hng by (intros x Hx; by apply Hqq).
  assert (permit_is_free (authority s) = false) as Hnf.
  { destruct (permit_is_free (authority s)) eqn:E; [|done]. rewrite (Hfree eq_refl) in Hw. by apply not_elem_of_nil in Hw. }
  assert (forall r a x, reservation (authority s) = Some x -> release_reservation x (authority s) = (r, a) ->
    advanced (authority s) a w) as Hrelease.
  { intros r a x Hx. unfold release_reservation. rewrite bool_decide_eq_false_2 by tauto. intros [= _ <-]. by apply grant_advances. }
  destruct Hstep as [s t active probe kind a Hctx Hen|s t f fs Hf Hne|s t active a Hext|s t|s t fs Hf|s x Hx|s x Hx Hg|s x Hx
    |s x Hx Hf|s x r a Hx Hf Hab|s x r a Hx Hnl Hrel]; cbn [authority] in *.
  - right. apply enter_cases in Hen as (_ & Hcase & Ea & Eg & Er & Ef & _). split; [by apply kept_same|]. unfold holder. rewrite Er. f_equal.
    destruct Hcase as [(y & _ & _ & -> & _)|(_ & -> & [[-> _]|[Hs _]])]; [done..|].
    apply sync_available_iff in Hs as (_ & _ & Hs). rewrite Hs in Hw. by apply not_elem_of_nil in Hw.
  - destruct f as [|y|]; [|right; by split; [apply kept_same|]|done].
    unfold mutation_exit. cbn [is_reserved]. set (a := set_kinds _ _ _). cbn [depth set_owner].
    destruct (depth a - 1 =? 0)%Z; [left; by apply grant_advances|right; by split; [apply kept_same|]].
  - right. unfold external_enter in Hext. destruct (owns_current_thread _ _ _); [|done]. injection Hext as <-. by split; [apply kept_same|].
  - right. by split; [apply kept_same|].
  - right. by split; [apply kept_same|].
  - right. unfold reserve_begin. rewrite Hnf. cbn [andb]. split; [|done]. split_and!; [done|cbn; set_solver|].
    unfold waiting_ahead. cbn [async_waiters set_queue]. rewrite ahead_app by done. by rewrite (ahead_ext (authority s)).
  - right. unfold complete_waiter. case_decide; (split; [|done]); [by apply settle_kept|by apply kept_same].
  - right. unfold cancel_future. case_decide; (split; [|done]); [by apply settle_kept|by apply kept_same].
  - right. by split; [apply kept_same|].
  - assert (x <> w) as Hxw by congruence. unfold abandon_wait in Hab. case_bool_decide as Hg.
    + left. destruct (q_granted _ _ Hq x Hg) as [?|Hrx]; [congruence|]. by eapply Hrelease.
    + right. case_bool_decide as Hin; injection Hab as _ <-; [|by split; [apply kept_same|]]. split; [|done].
      split_and!; [done|cbn; apply list_elem_of_filter; done|]. unfold waiting_ahead. cbn [async_waiters set_queue].
      rewrite (ahead_ext (authority s)) by done. by apply ahead_filter.
  - left. eapply Hrelease; [|done]. by apply (q_holding _ _ Hq).
Qed.

(** No waiter is lost, and waiters are served in order of arrival: while the
    permit is free none is queued; a waiting task is queued, granted or cancelled;
    a step that opens the permit to blocked threads notifies them; a step that
    changes the holder while a live waiter is queued grants the permit to that
    waiter or to a live one ahead of it, whose number then drops; and any other
    step keeps the waiter queued with no more waiters ahead. *)
Theorem waiters_served_in_order s s' :
  rtc authority_step new_system s -> authority_step s s' ->
  (permit_is_free (authority s) = true -> async_waiters (authority s) = []) /\
  (forall w, phases s !! w = Some Waiting ->
     w ∈ async_waiters (authority s) \/ reservation (authority s) = Some w \/ is_cancelled (authority s) w) /\
  (sync_permit_available (authority s) = false -> sync_permit_available (authority s') = true ->
     notifications (authority s) < notifications (authority s')) /\
  (forall w, w ∈ async_waiters (authority s) -> future_of (authority s) w = Pending ->
     advanced (authority s) (authority s') w \/
     kept (authority s) (authority s') w /\ holder (authority s') = holder (authority s)).
Proof.
  intros Hinv%runs_inv Hstep. split; [apply (s_permit s Hinv)|]. split; [|split].
  - intros w Hw. destruct (q_waiting _ _ (s_queue s Hinv) w Hw) as [?|[Hg|?]]; [by left| |by right; right].
    destruct (q_granted _ _ (s_queue s Hinv) w Hg) as [?|?]; [congruence|by right; left].
  - by apply step_notifies.
  - intros w. by apply step_serves.
Qed.

(** ** Sample runs *)

(** Reservation 1 is held, reservation 2 waits, thread 7 works for reservation 1. *)
Definition first_held : system := System (reserve_begin 1 new_authority) ∅ {[ 1 := Holding ]}.
Definition second_queued : system :=
  System (reserve_begin 2 (authority first_held)) ∅ (<[2 := Waiting]> (phases first_held)).
Definition first_left : system :=
  System (release_reservation 1 (authority second_queued)).2 ∅ (<[1 := Finished]> (phases second_queued)).

Lemma step_first_held : authority_step new_system first_held.
Proof. exact (step_begin new_system 1 eq_refl). Qed.
Lemma step_second_queued : authority_step first_held second_queued.
Proof. exact (step_begin first_held 2 eq_refl). Qed.
Lemma no_frames a ph f t : f ∉ frames_of (System a ∅ ph) t.
Proof. unfold frames_of. cbn. rewrite lookup_empty. apply not_elem_of_nil. Qed.
Lemma step_first_left : authority_step second_queued first_left.
Proof.
  apply (step_leave second_queued 1 (Ok tt) (authority first_left)); [done|intros t; apply no_frames|vm_compute; reflexivity].
Qed.
Lemma run_second_queued : rtc authority_step new_system second_queued.
Proof. eapply rtc_l; [apply step_first_held|]. apply rtc_once, step_second_queued. Qed.

(** The waiting task is cancelled before its turn. *)
Definition second_cancelled : system := System (cancel_future 2 (authority second_queued)) ∅ (phases second_queued).
Definition second_forgotten : system :=
  System (release_reservation 1 (authority second_cancelled)).2 ∅ (<[1 := Finished]> (phases second_cancelled)).
Lemma run_second_forgotten : rtc authority_step new_system second_forgotten.
Proof.
  etrans; [apply run_second_queued|]. eapply rtc_l; [exact (step_cancel second_queued 2 eq_refl)|]. apply rtc_once.
  apply (step_leave second_cancelled 1 (Ok tt) (authority second_forgotten)); [done|intros t; apply no_frames|vm_compute; reflexivity].
Qed.

(** A task that gives up waiting succeeds exactly when it was granted the
    permit or is still queued; a run reaches a cancelled task that a grant has
    skipped and dropped, whose clean-up then raises [ValueError] in place of the
    cancellation. *)
Theorem abandon_exact :
  (forall s w r a, rtc authority_step new_system s -> phases s !! w = Some Waiting -> abandon_wait w (authority s) = (r, a) ->
     (r = Ok tt <-> w ∈ granted (authority s) \/ w ∈ async_waiters (authority s)) /\
     (r <> Ok tt -> r = Raise (ValueError "deque.remove(x): x not in deque") /\ a = authority s)) /\
  exists s w, rtc authority_step new_system s /\ phases s !! w = Some Waiting /\ is_cancelled (authority s) w /\
    abandon_wait w (authority s) = (Raise (ValueError "deque.remove(x): x not in deque"), authority s).
Proof.
  split.
  - intros s w r a Hinv%runs_inv Hw Hab. unfold abandon_wait in Hab. case_bool_decide as Hg.
    + destruct (q_granted _ _ (s_queue s Hinv) w Hg) as [?|Hrw]; [congruence|].
      unfold release_reservation in Hab. rewrite bool_decide_eq_false_2 in Hab by tauto. injection Hab as <- <-. naive_solver.
    + case_bool_decide as Hin; injection Hab as <- <-; naive_solver.
  - exists second_forgotten, 2. split; [apply run_second_forgotten|]. split; [done|]. split; vm_compute; reflexivity.
Qed.

Lemma mutation_exclusive_witness :
  phases second_queued !! 1 = Some Holding /\ forall t, OwnedFrame ∉ frames_of second_queued t.
Proof.
  split; [reflexivity|]. intros t Hin. destruct (mutation_exclusive second_queued run_second_queued) as (_ & H & _).
  by apply (H t 1 Hin).
Defined.

Lemma waiters_served_in_order_witness :
  2 ∈ granted (authority first_left).
Proof.
  destruct (waiters_served_in_order second_queued first_left run_second_queued step_first_left) as (_ & _ & _ & H).
  destruct (H 2) as [(x & _ & Hg & Hx)|[_ Hh]].
  - vm_compute. left.
  - reflexivity.
  - rewrite Hg. destruct Hx as [-> |[Hq _]]; [set_solver|]. vm_compute in Hq. by apply not_elem_of_nil in Hq.
  - exfalso. vm_compute in Hh. discriminate Hh.
Defined.
