(* ===== verification/Lifecycle.v ===== *)
(** Lifecycle admission of public control-plane calls
    ([raes_runtime/control_plane_lifecycle.py]): admitted calls are counted, and
    closing waits for them before it releases the process-scoped lease. *)
From S2P Require Import Prelude.
From S2P Require Import Stateful.
Local Open Scope string_scope.
Local Open Scope list_scope.

(** The attributes of [RuntimeLifecycleMixin]; [call_depth] is thread-local. The
    lease is present or absent. *)
Record RuntimeLifecycle : Type := LifecycleState {
  active_runtime_calls : Z;
  closing : bool;
  closed : bool;
  durability_poisoned : bool;
  runtime_lease : bool;
  call_depth : gmap nat Z;
}.
Local Abbreviation M := (stateful RuntimeLifecycle).

(** [_initialize_runtime_lifecycle], then the lease the constructor acquires. *)
Definition new_lifecycle (lease : bool) : RuntimeLifecycle := LifecycleState 0 false false false lease ∅.

Definition depth_of (l : RuntimeLifecycle) (t : nat) : Z := default 0%Z (call_depth l !! t).

Definition set_calls (active : Z) (t : nat) (d : Z) (l : RuntimeLifecycle) : RuntimeLifecycle :=
  LifecycleState active (closing l) (closed l) (durability_poisoned l) (runtime_lease l) (<[t := d]> (call_depth l)).
Definition set_closing (b : bool) (l : RuntimeLifecycle) : RuntimeLifecycle :=
  LifecycleState (active_runtime_calls l) b (closed l) (durability_poisoned l) (runtime_lease l) (call_depth l).
Definition set_closed (l : RuntimeLifecycle) : RuntimeLifecycle :=
  LifecycleState (active_runtime_calls l) false true (durability_poisoned l) false (call_depth l).

Definition LIFECYCLE_POISONED : exn :=
  RuntimeError "runtime control plane requires restart after a durability reconciliation failure".
Definition LIFECYCLE_CLOSED : exn := RuntimeError "runtime control plane is closed".

(** The entry of [_runtime_call]; [ownership] is what the lease's
    [assert_owner] returns or raises. *)
Definition runtime_call_enter (t : nat) (ownership : result unit) : M unit :=
  l ← get_state;
  let depth := depth_of l t in
  _ ← lift (raise_if (durability_poisoned l) LIFECYCLE_POISONED);
  _ ← lift (raise_if ((depth =? 0)%Z && (closed l || closing l)) LIFECYCLE_CLOSED);
  _ ← (if runtime_lease l then lift ownership else mret tt);
  set_state (set_calls (active_runtime_calls l + 1) t (depth + 1)).

(** Its [finally]. *)
Definition runtime_call_exit (t : nat) (l : RuntimeLifecycle) : RuntimeLifecycle :=
  set_calls (active_runtime_calls l - 1) t (depth_of l t - 1) l.

Definition poison_durability (l : RuntimeLifecycle) : RuntimeLifecycle :=
  LifecycleState (active_runtime_calls l) (closing l) (closed l) true (runtime_lease l) (call_depth l).

(** The outcome of [close] up to its wait: done, refused, or draining. *)
Inductive close_request : Type := CloseDone | CloseRefused (e : exn) | CloseWaits | CloseDrains.

Definition close_begin (t : nat) (l : RuntimeLifecycle) : close_request * RuntimeLifecycle :=
  if closed l then (CloseDone, l)
  else if negb (depth_of l t =? 0)%Z then
    (CloseRefused (RuntimeError "cannot close a runtime control plane from one of its active calls"), l)
  else if closing l then (CloseWaits, l)
  else (CloseDrains, set_closing true l).

(** The wait returns once no call is active; the lease is closed, and the state
    is closed even when that raises. [None] while calls are active. *)
Definition close_finish (l : RuntimeLifecycle) : option RuntimeLifecycle :=
  if (active_runtime_calls l =? 0)%Z then Some (set_closed l) else None.

(** An interrupted wait. *)
Definition close_interrupted (l : RuntimeLifecycle) : RuntimeLifecycle := set_closing false l.

(** [_assert_runtime_owner]. *)
Definition assert_runtime_ownership (ownership : result unit) (l : RuntimeLifecycle) : result unit :=
  _ ← raise_if (closed l) LIFECYCLE_CLOSED;
  if runtime_lease l then ownership else Ok tt.

(** ** Interleavings *)

(** [inside] lists the thread of every admitted call. A closer drains from
    [close_begin] until it finishes or is interrupted. *)
Record runtime : Type := Runtime { lifecycle : RuntimeLifecycle; inside : list nat }.

Fixpoint remove_one (t : nat) (l : list nat) : list nat :=
  match l with
  | [] => []
  | x :: l => if decide (x = t) then l else x :: remove_one t l
  end.

Inductive lifecycle_step : runtime -> runtime -> Prop :=
| life_enter s t ownership l :
    runtime_call_enter t ownership (lifecycle s) = (Ok tt, l) -> lifecycle_step s (Runtime l (t :: inside s))
| life_exit s t :
    t ∈ inside s -> lifecycle_step s (Runtime (runtime_call_exit t (lifecycle s)) (remove_one t (inside s)))
| life_poison s : lifecycle_step s (Runtime (poison_durability (lifecycle s)) (inside s))
| life_close s t l :
    close_begin t (lifecycle s) = (CloseDrains, l) -> lifecycle_step s (Runtime l (inside s))
| life_finish s l :
    closing (lifecycle s) = true -> close_finish (lifecycle s) = Some l -> lifecycle_step s (Runtime l (inside s))
| life_interrupt s :
    closing (lifecycle s) = true -> lifecycle_step s (Runtime (close_interrupted (lifecycle s)) (inside s)).

(** ** Invariant *)

Definition calls_of (t : nat) (l : list nat) : Z := Z.of_nat (length (base.filter (fun x => x = t) l)).

Record lifecycle_inv (lease : bool) (s : runtime) : Prop := {
  l_active : active_runtime_calls (lifecycle s) = Z.of_nat (length (inside s));
  l_depth : forall t, depth_of (lifecycle s) t = calls_of t (inside s);
  l_lease : closed (lifecycle s) = false -> runtime_lease (lifecycle s) = lease;
  l_closed : closed (lifecycle s) = true -> inside s = [] /\ closing (lifecycle s) = false /\ runtime_lease (lifecycle s) = false;
}.

Lemma calls_cons t x l : calls_of t (x :: l) = ((if decide (x = t) then 1 else 0) + calls_of t l)%Z.
Proof. unfold calls_of. rewrite filter_cons. case_decide; cbn; lia. Qed.

Lemma calls_remove t x l : x ∈ l -> calls_of t (remove_one x l) = (calls_of t l - if decide (x = t) then 1 else 0)%Z.
Proof.
  induction l as [|y l IH]; intros Hx; [by apply not_elem_of_nil in Hx|]. simpl. rewrite calls_cons. destruct (decide (y = x)) as [->|Hne].
  - lia.
  - rewrite calls_cons, IH by set_solver. lia.
Qed.

Lemma length_remove x l : x ∈ l -> length (remove_one x l) = pred (length l) /\ 0 < length l.
Proof.
  induction l as [|y l IH]; intros Hx; [by apply not_elem_of_nil in Hx|]. simpl. case_decide; [simpl; lia|].
  destruct IH; [set_solver|]. simpl. lia.
Qed.

Lemma filter_absent_threads (t : nat) (l : list nat) : t ∉ l -> base.filter (fun x => x = t) l = [].
Proof.
  induction l as [|x l IH]; intros Ht; [done|]. rewrite filter_cons_False by set_solver. apply IH. set_solver.
Qed.

Lemma calls_zero t l : calls_of t l = 0%Z -> t ∉ l.
Proof.
  induction l as [|x l IH]; [by intros _ ?%not_elem_of_nil|]. rewrite calls_cons, elem_of_cons.
  assert (0 <= calls_of t l)%Z by (unfold calls_of; lia). case_decide; [lia|]. intros Hz [?|?]; [congruence|]. by apply IH; [lia|].
Qed.

Lemma enter_run t ownership l l' :
  runtime_call_enter t ownership l = (Ok tt, l') <->
  durability_poisoned l = false /\ (depth_of l t = 0%Z -> closed l = false /\ closing l = false) /\
  (runtime_lease l = true -> ownership = Ok tt) /\ l' = set_calls (active_runtime_calls l + 1) t (depth_of l t + 1) l.
Proof.
  unfold runtime_call_enter. rewrite bind_run. cbn [get_state]. rewrite lift_run.
  destruct (durability_poisoned l); cbn [raise_if]; [by split; [|intros [? _]]|].
  rewrite lift_run. destruct (Z.eqb_spec (depth_of l t) 0) as [Hz|Hz]; cbn [andb].
  - destruct (closed l || closing l) eqn:Ec; cbn [raise_if].
    + split; [done|]. intros (_ & H & _). destruct (H Hz) as [Hc Hc']. by rewrite Hc, Hc' in Ec.
    + apply orb_false_iff in Ec. rewrite bind_run. destruct (runtime_lease l); [destruct ownership as [[]|]|]; cbn;
        (split; [by intros [= <-]|intros (_ & _ & H & ->)]); try done. by specialize (H eq_refl).
  - cbn [raise_if]. rewrite bind_run. destruct (runtime_lease l); [destruct ownership as [[]|]|]; cbn;
      (split; [by intros [= <-]|intros (_ & _ & H & ->)]); try done. by specialize (H eq_refl).
Qed.

Lemma depth_set a t d l t' : depth_of (set_calls a t d l) t' = if decide (t = t') then d else depth_of l t'.
Proof. unfold depth_of. cbn. case_decide; [subst; by rewrite lookup_insert_eq|by rewrite lookup_insert_ne]. Qed.

Lemma lifecycle_step_inv lease s s' : lifecycle_step s s' -> lifecycle_inv lease s -> lifecycle_inv lease s'.
Proof.
  destruct 1 as [s t ownership l Hen|s t Hin|s|s t l Hc|s l Hcl Hf|s Hcl]; intros [Ha Hd Hl Hc'].
  - apply enter_run in Hen as (_ & Hopen & _ & ->). split; cbn; [rewrite Ha; lia| |done|].
    + intros t'. rewrite depth_set, calls_cons. case_decide; [subst; rewrite Hd; lia|apply Hd].
    + intros Hcl. destruct (Hc' Hcl) as (Hnil & _). assert (depth_of (lifecycle s) t = 0%Z) as Hz by (by rewrite Hd, Hnil).
      destruct (Hopen Hz). congruence.
  - destruct (length_remove t (inside s) Hin) as [Hlen Hpos]. split; cbn; [rewrite Ha, Hlen; lia| |done|].
    + intros t'. unfold runtime_call_exit. rewrite depth_set, calls_remove by done. case_decide; [subst; rewrite Hd; lia|]. rewrite Hd. lia.
    + intros Hcl. destruct (Hc' Hcl) as (Hnil & _). rewrite Hnil in Hin. by apply not_elem_of_nil in Hin.
  - by split.
  - unfold close_begin in Hc. destruct (closed (lifecycle s)) eqn:Ecl; [done|]. destruct (negb _); [done|]. destruct (closing _); [done|].
    injection Hc as <-. split; cbn; [done|done|by intros _; apply Hl|congruence].
  - unfold close_finish in Hf. destruct (Z.eqb_spec (active_runtime_calls (lifecycle s)) 0) as [Hz|]; [|done]. injection Hf as <-.
    split; cbn; [done|done|done|]. intros _. split; [|done]. rewrite Ha in Hz. destruct (inside s); [done|]. simpl in Hz. lia.
  - split; cbn; [done|done|done|]. intros Hx. destruct (Hc' Hx) as (? & ? & ?). done.
Qed.

Lemma lifecycle_runs lease s : rtc lifecycle_step (Runtime (new_lifecycle lease) []) s -> lifecycle_inv lease s.
Proof.
  apply (rtc_ind_r (lifecycle_inv lease)); [|intros s1 s2 _ Hs; by apply lifecycle_step_inv].
  split; cbn; [done| |done|done]. intros t. unfold depth_of. cbn. by rewrite lookup_empty.
Qed.

Lemma closed_step lease s s' :
  lifecycle_inv lease s -> lifecycle_step s s' -> closed (lifecycle s) = true -> closed (lifecycle s') = true.
Proof.
  intros Hinv Hstep Hc. destruct (l_closed _ _ Hinv Hc) as (Hnil & Hncl & _).
  destruct Hstep as [s t ownership l Hen|s t Hin|s|s t l Hcl|s l Hcl Hf|s Hcl]; cbn; try done.
  - by apply enter_run in Hen as (_ & _ & _ & ->).
  - unfold close_begin in Hcl. by rewrite Hc in Hcl.
  - congruence.
Qed.

Lemma closed_runs lease s s' :
  rtc lifecycle_step s s' -> lifecycle_inv lease s -> closed (lifecycle s) = true ->
  lifecycle_inv lease s' /\ closed (lifecycle s') = true.
Proof.
  induction 1 as [|s1 s2 s3 Hstep _ IH]; intros Hinv Hc; [done|]. apply IH; [by eapply lifecycle_step_inv|by eapply closed_step].
Qed.

Lemma closed_refuses lease s t ownership :
  lifecycle_inv lease s -> closed (lifecycle s) = true ->
  exists e, runtime_call_enter t ownership (lifecycle s) = (Raise e, lifecycle s).
Proof.
  intros Hinv Hc. destruct (l_closed _ _ Hinv Hc) as (Hnil & _). pose proof (l_depth _ _ Hinv t) as Hd. rewrite Hnil in Hd.
  unfold runtime_call_enter. rewrite bind_run. cbn [get_state]. rewrite lift_run.
  destruct (durability_poisoned (lifecycle s)); cbn [raise_if]; [by eexists|].
  rewrite lift_run, Hd, Hc. by eexists.
Qed.

Lemma remove_one_subset x t l : t ∈ remove_one x l -> t ∈ l.
Proof. induction l as [|y l IH]; [done|]. simpl. case_decide; set_solver. Qed.

(** C24: closing drains: over every interleaving the lease is held while a call
    runs, a draining runtime admits only the nested calls of threads already
    inside, so that the set of threads inside can only shrink, it finishes exactly
    when the last call has left, and a closed runtime refuses every call for
    good. *)
Theorem close_drains lease s :
  rtc lifecycle_step (Runtime (new_lifecycle lease) []) s ->
  (inside s <> [] -> closed (lifecycle s) = false /\ (runtime_lease (lifecycle s) = false -> lease = false)) /\
  (closed (lifecycle s) = true ->
     inside s = [] /\ runtime_lease (lifecycle s) = false /\
     forall s', rtc lifecycle_step s s' -> closed (lifecycle s') = true /\
       forall t ownership, exists e, runtime_call_enter t ownership (lifecycle s') = (Raise e, lifecycle s')) /\
  (closing (lifecycle s) = true ->
     (forall l, close_finish (lifecycle s) = Some l <-> inside s = [] /\ l = set_closed (lifecycle s)) /\
     (forall s' t, lifecycle_step s s' -> closing (lifecycle s') = true -> t ∈ inside s' -> t ∈ inside s)).
Proof.
  intros Hinv%lifecycle_runs. split; [|split].
  - intros Hne. destruct (closed (lifecycle s)) eqn:Ec; [by destruct (l_closed _ _ Hinv Ec)|]. split; [done|].
    intros <-. symmetry. by apply (l_lease _ _ Hinv).
  - intros Hc. destruct (l_closed _ _ Hinv Hc) as (Hnil & _ & Hl). split_and!; [done..|]. intros s' Hruns.
    destruct (closed_runs _ _ _ Hruns Hinv Hc) as [Hinv' Hc']. split; [done|]. intros t ownership. by eapply closed_refuses.
  - intros Hcl. split.
    + intros l. unfold close_finish. pose proof (l_active _ _ Hinv) as Ha.
      destruct (Z.eqb_spec (active_runtime_calls (lifecycle s)) 0) as [Hz|Hz]; rewrite Ha in Hz.
      * destruct (inside s); [naive_solver|]. simpl in Hz. lia.
      * split; [done|]. intros [Hnil _]. by rewrite Hnil in Hz.
    + intros s' t Hstep Hcl'. destruct Hstep as [s t' ownership l Hen|s t' Hin|s|s t' l Hc|s l _ Hf|s _]; cbn; try done.
      * intros [->|?]%elem_of_cons; [|done]. apply enter_run in Hen as (_ & Hopen & _).
        destruct (decide (t' ∈ inside s)) as [|Hn]; [done|]. exfalso.
        assert (depth_of (lifecycle s) t' = 0%Z) as Hz; [|destruct (Hopen Hz); congruence].
        rewrite (l_depth _ _ Hinv). unfold calls_of. rewrite filter_absent_threads by done. done.
      * apply remove_one_subset.
Qed.

Lemma close_drains_witness :
  let draining := Runtime (set_closing true (set_calls 1 3 1 (new_lifecycle true))) [3] in
  close_finish (lifecycle draining) = None /\ closed (lifecycle draining) = false.
Proof.
  split; [reflexivity|]. eapply close_drains with (s := Runtime (set_closing true (set_calls 1 3 1 (new_lifecycle true))) [3]) (lease := true).
  - eapply rtc_l; [apply (life_enter _ 3 (Ok tt) (set_calls 1 3 1 (new_lifecycle true))); vm_compute; reflexivity|].
    apply rtc_once. apply (life_close (Runtime (set_calls 1 3 1 (new_lifecycle true)) [3]) 4). vm_compute. reflexivity.
  - discriminate.
Defined.
